(* ===== verification/_CoqProject ===== *)
-Q . S2P
Prelude.v
AshmemRange.v
AshmemRangeFacts.v
AshmemDev.v
AshmemDevFacts.v
AshmemSystem.v
AshmemTheorems.v
RbTree.v
BinderAlloc.v
BinderAllocFacts.v
BinderAllocInv.v
BinderAllocFree.v
BinderAllocLife.v
BinderAllocCopy.v
BinderAllocTheorems.v
BinderNode.v
BinderNodeFacts.v
BinderNodeInv.v
BinderNodeOps.v
BinderNodeRef.v
BinderNodeDrop.v
BinderNodeCmds.v
BinderNodeDeath.v
BinderNodeRelease.v
BinderTranslate.v
BinderTranslateFacts.v
BinderNodeSystem.v
BinderNodeTheorems.v
BinderObjects.v
BinderObjectsMem.v
BinderObjectsFacts.v
BinderObjectsPath.v
BinderObjectsLoop.v
BinderObjectsFixup.v
BinderObjectsPlace.v
BinderObjectsTxn.v
BinderObjectsRound.v
BinderObjectsRun.v
BinderObjectsFd.v
BinderObjectsTheorems.v
BinderTxn.v
BinderCalls.v
BinderFrame.v
BinderFrameAlloc.v
BinderTxnView.v
BinderTxnHush.v
BinderTxnOps.v
BinderTxnDeliver.v
BinderTxnBuf.v
BinderTxnRead.v
BinderTxnTarget.v
BinderTxnDraft.v
BinderTxnBuild.v
BinderTxnSend.v
BinderTxnExit.v
BinderTxnNew.v
BinderTxnSystem.v
BinderTxnRun.v
BinderTxnFail.v
BinderTxnDemo.v
BinderTxnTheorems.v
BinderTxnAlive.v
BinderWrite.v
BinderWriteFacts.v
BinderIoctl.v
BinderSteps.v
BinderUserTheorems.v
BinderFs.v
BinderFsFacts.v
BinderFsOps.v
