(* ===== verification/Prelude.v ===== *)
(** * A verification of the ashmem and binder kernel modules

    This library models the two Linux drivers of the repository as they are
    written and proves what makes them correct.  This file is its root: it
    holds the vocabulary the other files share.

    ** The program

    - [src/ashmem/ashmem.c]: anonymous shared memory.  An open file is an
      area; its pages may be unpinned, and unpinned ranges wait on a global
      LRU until a shrinker purges them.
    - [src/binder/binder_alloc.c]: the buffers of transactions in a process's
      mapping; [binder.c] calls it with sizes and offsets.
    - [src/binder/binder.c]: processes export nodes and hold references
      (handles) on the nodes of others; work items on todo lists tell owners
      and holders what changed.

    ** The files

    [Prelude]: machine words, error numbers, the monad [M] in which all code
    is written (state passing; [oops] is a [BUG], a NULL or a dangling
    pointer, and so the absence of a result), lists and maps.

    [ashmem.c]:
    - [AshmemRange] (data and code of the unpinned ranges: [range_alloc],
      [range_del], [ashmem_pin], [ashmem_unpin], [ashmem_get_pin_status]),
      [AshmemRangeFacts] (an area's ranges as a function from pages to their
      state, the invariant of the LRU);
    - [AshmemDev] (open, name, mask, size, mmap, llseek, read, ioctl, release,
      shrinker, module init), [AshmemDevFacts];
    - [AshmemSystem]: the step relation of several callers and the shrinker,
      whose steps are the critical sections of [ashmem_mutex];
    - [AshmemTheorems]: C1 to C3 give the three pin ioctls in terms of the
      function from pages to states; C4 to C7 are safety, the meeting of pin
      and purge, and the shrinker; C8 to C11 mapping, names, release and
      initialisation.

    [binder_alloc.c]:
    - [RbTree]: the interface to [lib/rbtree.c] (a class of operations with
      the laws the code relies on, and an unbalanced instance for examples);
      the descents of the drivers are [rb_find] and [rb_link];
    - [BinderAlloc] (all operations), [BinderAllocFacts], [BinderAllocInv]
      (buffers tile the mapping, two trees, pages behind allocated bytes) with
      allocation, [BinderAllocFree], [BinderAllocLife] (mmap, release,
      shrinker), [BinderAllocCopy] (bytes);
    - [BinderAllocTheorems], C12 to C22: best fit and coalescing as steps of
      an abstract partition of the mapping, success, errors, the reachable
      states, round trips, overflow.

    [binder.c], the object graph:
    - [BinderNode]: nodes, references, death notifications, work lists, the
      commands and ioctls on them, the end of a process; the record [binder]
      has one map per kind of object, keyed by object identity, and one list
      per todo list ([struct binder_work] is named by the object around it);
      [BinderTranslate]: binders and handles in transactions;
    - [BinderNodeFacts] (lists, wake-ups), [BinderNodeInv] (the invariant
      [inv]: graph, counters, work lists, notifications), [BinderNodeOps]
      (nodes), [BinderNodeRef] and [BinderNodeDrop] (references gained and
      lost), [BinderNodeCmds], [BinderNodeDeath], [BinderNodeRelease],
      [BinderTranslateFacts]: each operation runs, keeps [inv], and has a
      stated outcome;
    - [BinderNodeSystem]: all of them as one transition system;
    - [BinderNodeTheorems], C23 to C34: safety and consistency of every
      reachable state, handles, owners, translation, deaths, the end of a
      process.

    [binder.c], the objects in the buffer of a transaction:
    - [BinderObjects] (data and code: [binder_get_object],
      [binder_validate_ptr], [binder_validate_fixup], the translation loop of
      [binder_transaction] and its cases, deferred fix-ups of descriptors,
      the release of a buffer's objects); its state joins the graph, the
      allocator of the target, its memory and the files in flight;
    - [BinderObjectsMem] (words and bytes of the buffer, what an access may
      touch), [BinderObjectsFacts] (one object), [BinderObjectsPath] (parents
      as a discipline on positions), [BinderObjectsFixup] (the walk up the
      parents), [BinderObjectsLoop] and [BinderObjectsPlace] (objects placed
      in the buffer), [BinderObjectsTxn] (what a round may change),
      [BinderObjectsRound] and [BinderObjectsRun] (one round, all rounds),
      [BinderObjectsFd] (descriptors applied or dropped);
    - [BinderObjectsTheorems], C35 to C40: no access outside the buffer,
      objects rewritten in place, the check on parents against its
      specification, descriptors delivered or closed.

    ** Conventions

    Integers are [Z] with the wrap-around of their C type written out
    ([u64], [u32], [s32]); pointers to objects are [nat]s, NULL is [None].  A
    function that takes a lock for its whole body is one step.  What a lower
    layer decides is an argument: the results of allocations, of the security
    module, of user copies and of the memory manager.  Memory orders and
    sleeping are not modelled.

    Loops over lists and trees recurse on a list; the loops that pop entries
    until none is left take fuel, and the theorems about them show that one
    more than the number of entries is enough (C19 and C34 for the ends of a
    process; C7 for the shrinker, whose loop recurses on the LRU).  The walk
    up the parents of an object gets one more than the objects seen so far,
    the translation loop one more than the offsets; C35 and C37 show that
    neither runs out.

    ** Bounds assumed

    Theorems on the object graph assume counters below INT_MAX ([room],
    [ref_room]) and fewer than 2^32 - 1 handles per process: the code has no
    check of its own.  The theorems on all the objects of a buffer collect
    this, and the freshness of what is allocated, in [objects_ready].

    ** Not modelled

    Transactions, their stacks and the loops of [binder_thread_write] and
    [binder_thread_read] around the commands modelled; the threads and the
    leftover work of a dying process; the failed allocation of a death notification (an error queued for the
    caller); [binderfs.c], [idr.c], [ion], [vsoc.c]: planned, in this order.
    Debug output other than the allocator's, the test programs ([ipcverify],
    [binder_alloc_selftest.c]) and the glue to kernel symbols ([deps.c],
    [compat.h] where it only renames) are left out for good. *)

From Stdlib Require Import ZArith Lia.
From stdpp Require Import base option gmap sets list.

#[global] Set Default Goal Selector "!".

(** ** Words *)

Declare Scope word_scope.
Delimit Scope word_scope with word.
Open Scope Z_scope.

Definition two64 : Z := 18446744073709551616.
Definition two32 : Z := 4294967296.

(** Truncation to [size_t]/[unsigned long] and to [__u32]. *)
Definition u64 (x : Z) : Z := x mod two64.
Definition u32 (x : Z) : Z := x mod two32.

(** Reinterpretation of a 64-bit pattern as a signed [long]/[loff_t], and of
    a 32-bit pattern as an [int]. *)
Definition s64 (x : Z) : Z :=
  let y := u64 x in if y <? 9223372036854775808 then y else y - two64.
Definition s32 (x : Z) : Z :=
  let y := u32 x in if y <? 2147483648 then y else y - two32.

Notation "a +64 b" := (u64 (a + b)) (at level 50, left associativity) : word_scope.
Notation "a -64 b" := (u64 (a - b)) (at level 50, left associativity) : word_scope.
Notation "a +32 b" := (u32 (a + b)) (at level 50, left associativity) : word_scope.
Notation "a -32 b" := (u32 (a - b)) (at level 50, left associativity) : word_scope.

(** [~x] at 64 bits. *)
Definition not64 (x : Z) : Z := two64 - 1 - u64 x.

(** A value of C type [size_t]. *)
Definition is_u64 (x : Z) : Prop := 0 <= x < two64.
Definition is_u32 (x : Z) : Prop := 0 <= x < two32.

(** Pages are 4 KiB; the masks are the kernel's 64-bit ones. *)
Definition PAGE_SHIFT : Z := 12.
Definition PAGE_SIZE : Z := 4096.
Definition PAGE_MASK : Z := two64 - PAGE_SIZE.

(** [ALIGN(x, a)] for a power of two [a], [PAGE_ALIGN(x)]. *)
Definition ALIGN (x a : Z) : Z := Z.land (u64 (x + (a - 1))) (two64 - a).
Definition PAGE_ALIGN (x : Z) : Z := ALIGN x PAGE_SIZE.
Definition IS_ALIGNED (x a : Z) : bool := Z.land x (a - 1) =? 0.

(** ** Error numbers (the kernel's ABI values) *)
Definition EPERM : Z := 1.
Definition ENOENT : Z := 2.
Definition ESRCH : Z := 3.
Definition EBADF : Z := 9.
Definition EAGAIN : Z := 11.
Definition ENOMEM : Z := 12.
Definition EFAULT : Z := 14.
Definition EBUSY : Z := 16.
Definition EINVAL : Z := 22.
Definition ENOTTY : Z := 25.
Definition ENOSPC : Z := 28.
Definition ERESTARTSYS : Z := 512.

(** ** The partial state monad

    [None] is a kernel oops: a [BUG_ON] that fires, a dereference of a NULL or
    freed object.  An operation that returns an error code still returns. *)
Definition M (S A : Type) : Type := S -> option (A * S).

Definition ret {S A} (a : A) : M S A := fun s => Some (a, s).
Definition bind {S A B} (m : M S A) (k : A -> M S B) : M S B :=
  fun s => match m s with Some (a, s') => k a s' | None => None end.
Definition oops {S A} : M S A := fun _ => None.
Definition get {S} : M S S := fun s => Some (s, s).
Definition put {S} (s : S) : M S unit := fun _ => Some (tt, s).
Definition modify {S} (f : S -> S) : M S unit := fun s => Some (tt, f s).
Definition gets {S A} (f : S -> A) : M S A := fun s => Some (f s, s).
Definition deref {S A} (o : option A) : M S A :=
  match o with Some a => ret a | None => oops end.
(** [BUG_ON(b)] *)
Definition bug_on {S} (b : bool) : M S unit := if b then oops else ret tt.

Declare Scope c_scope.
Delimit Scope c_scope with c.
Notation "'let!' x := m 'in' k" := (bind m (fun x => k))
  (at level 10, x pattern, m at level 100, k at level 200) : c_scope.
Notation "m ;! k" := (bind m (fun _ => k))
  (at level 199, k at level 200, right associativity) : c_scope.
Open Scope c_scope.

Lemma bind_ret {S A B} (a : A) (k : A -> M S B) s : bind (ret a) k s = k a s.
Proof. reflexivity. Qed.

Lemma bind_Some {S A B} (m : M S A) (k : A -> M S B) s r :
  bind m k s = Some r <-> exists a s', m s = Some (a, s') /\ k a s' = Some r.
Proof.
  unfold bind. destruct (m s) as [[a s']|]; split.
  - eauto.
  - intros (a' & s'' & [= -> ->] & ?). done.
  - done.
  - intros (? & ? & [=] & _).
Qed.

Lemma bind_eq {S A B} (m : M S A) (k : A -> M S B) s a s' :
  m s = Some (a, s') -> bind m k s = k a s'.
Proof. unfold bind. by intros ->. Qed.

Lemma bind_assoc {S A B C} (m : M S A) (f : A -> M S B) (g : B -> M S C) s :
  bind (bind m f) g s = bind m (fun a => bind (f a) g) s.
Proof. unfold bind. by destruct (m s) as [[a s']|]. Qed.

(** Run the monadic prefix of an equation [m s = Some (a, s')]. *)
Ltac mrun :=
  repeat match goal with
  | H : bind _ _ _ = Some _ |- _ =>
      apply bind_Some in H; destruct H as (? & ? & ? & H)
  | H : ret _ _ = Some _ |- _ => injection H; clear H; intros; subst
  | H : gets _ _ = Some _ |- _ => injection H as <- <-
  | H : modify _ _ = Some _ |- _ => injection H as <- <-
  | H : get _ = Some _ |- _ => injection H as <- <-
  | H : put _ _ = Some _ |- _ => injection H as <- <-
  | H : oops _ = Some _ |- _ => discriminate H
  end.

(** Step through the monad in the goal. *)
Ltac mstep := first [ rewrite bind_ret | erewrite bind_eq by eassumption ].

(** ** Boolean tests *)
Ltac zbool :=
  repeat match goal with
  | H : (_ && _) = true |- _ => apply andb_prop in H; destruct H
  | H : (_ || _) = false |- _ => apply orb_false_elim in H; destruct H
  | H : negb _ = true |- _ => apply negb_true_iff in H
  | H : negb _ = false |- _ => apply negb_false_iff in H
  | H : (_ <? _) = true |- _ => apply Z.ltb_lt in H
  | H : (_ <? _) = false |- _ => apply Z.ltb_ge in H
  | H : (_ <=? _) = true |- _ => apply Z.leb_le in H
  | H : (_ <=? _) = false |- _ => apply Z.leb_gt in H
  | H : (_ =? _) = true |- _ => apply Z.eqb_eq in H
  | H : (_ =? _) = false |- _ => apply Z.eqb_neq in H
  end.

(** Case analysis on the test of the first [if] in the goal. *)
Ltac case_if :=
  match goal with
  | |- context [if ?b then _ else _] => destruct b eqn:?
  end.

(** ** Word arithmetic facts *)
Section words.
Local Ltac u := unfold u64, u32, is_u64, is_u32, two64, two32 in *.

Lemma u64_small x : is_u64 x -> u64 x = x.
Proof. u. intros. by apply Z.mod_small. Qed.

Lemma u32_small x : is_u32 x -> u32 x = x.
Proof. u. intros. by apply Z.mod_small. Qed.

Lemma u64_range x : is_u64 (u64 x).
Proof. u. apply Z.mod_pos_bound. lia. Qed.

Lemma u32_range x : is_u32 (u32 x).
Proof. u. apply Z.mod_pos_bound. lia. Qed.

Lemma u64_add_l x y : u64 (u64 x + y) = u64 (x + y).
Proof. u. by rewrite Zplus_mod_idemp_l. Qed.

Lemma u64_add_r x y : u64 (x + u64 y) = u64 (x + y).
Proof. u. by rewrite Zplus_mod_idemp_r. Qed.

Lemma u64_sub_l x y : u64 (u64 x - y) = u64 (x - y).
Proof. u. by rewrite Zminus_mod_idemp_l. Qed.

Lemma u64_sub_r x y : u64 (x - u64 y) = u64 (x - y).
Proof. u. by rewrite Zminus_mod_idemp_r. Qed.

Lemma not64_testbit x i : 0 <= i < 64 -> Z.testbit (not64 x) i = negb (Z.testbit x i).
Proof.
  intros Hi. unfold not64, u64.
  change two64 with (2 ^ 64). change (2 ^ 64 - 1) with (Z.ones 64).
  rewrite <- Z.land_ones by lia.
  rewrite Z.sub_nocarry_ldiff.
  - rewrite Z.ldiff_spec, Z.land_spec, Z.ones_spec_low by lia. by rewrite andb_true_r.
  - apply Z.bits_inj'. intros j Hj. rewrite Z.ldiff_spec, Z.land_spec, Z.bits_0.
    destruct (Z.testbit (Z.ones 64) j); [apply andb_false_r|by rewrite andb_false_r].
Qed.

(** Clearing the low [n] bits rounds down. *)
Lemma land_mask_down (n x : Z) :
  0 <= n <= 64 -> is_u64 x ->
  Z.land x (two64 - 2 ^ n) = x - x mod 2 ^ n.
Proof.
  intros Hn Hx.
  assert (Hp : 0 < 2 ^ n) by (apply Z.pow_pos_nonneg; lia).
  assert (E64 : two64 = 2 ^ 64) by reflexivity.
  assert (Em : two64 - 2 ^ n = Z.shiftl (Z.ones (64 - n)) n).
  { rewrite Z.shiftl_mul_pow2, Z.ones_equiv by lia.
    assert (two64 = 2 ^ (64 - n) * 2 ^ n).
    { rewrite E64, <- Z.pow_add_r by lia. f_equal. lia. }
    nia. }
  rewrite Em.
  assert (E : x - x mod 2 ^ n = Z.shiftl (Z.shiftr x n) n).
  { rewrite Z.shiftl_mul_pow2, Z.shiftr_div_pow2 by lia.
    pose proof (Z.div_mod x (2 ^ n)). nia. }
  rewrite E. apply Z.bits_inj'. intros i Hi.
  rewrite Z.land_spec.
  destruct (Z.ltb_spec i n).
  - rewrite !Z.shiftl_spec_low by lia. by rewrite andb_false_r.
  - rewrite !Z.shiftl_spec, Z.shiftr_spec by lia.
    replace (i - n + n) with i by lia.
    destruct (Z.ltb_spec i 64).
    + rewrite Z.ones_spec_low by lia. apply andb_true_r.
    + rewrite Z.ones_spec_high by lia. rewrite andb_false_r.
      symmetry. destruct (decide (x = 0)) as [->|]; [apply Z.bits_0|].
      apply Z.bits_above_log2; [unfold is_u64 in Hx; lia|].
      apply Z.log2_lt_pow2; [unfold is_u64 in Hx; lia|].
      unfold is_u64 in Hx. rewrite E64 in Hx.
      pose proof (Z.pow_le_mono_r 2 64 i). lia.
Qed.

Lemma land_page_mask x : is_u64 x -> Z.land x PAGE_MASK = x - x mod PAGE_SIZE.
Proof. apply (land_mask_down 12). lia. Qed.

Lemma PAGE_ALIGN_small x :
  0 <= x -> x + (PAGE_SIZE - 1) < two64 ->
  PAGE_ALIGN x = (x + (PAGE_SIZE - 1)) - (x + (PAGE_SIZE - 1)) mod PAGE_SIZE.
Proof.
  intros ? ?. unfold PAGE_ALIGN, ALIGN, PAGE_SIZE in *.
  rewrite u64_small by (u; lia). apply (land_mask_down 12); u; lia.
Qed.

Lemma ALIGN8 x :
  ALIGN x 8 = u64 (x + 7) - u64 (x + 7) mod 8.
Proof. unfold ALIGN. apply (land_mask_down 3); [lia|apply u64_range]. Qed.

Lemma PAGE_ALIGN_spec x :
  PAGE_ALIGN x = u64 (x + 4095) - u64 (x + 4095) mod 4096.
Proof. unfold PAGE_ALIGN, ALIGN. apply (land_mask_down 12); [lia|apply u64_range]. Qed.
End words.

(** ** Intrusive doubly linked lists

    A [struct list_head] list is the sequence of the objects linked into it. *)
Section lists.
Context {A : Type} `{EqDecision A}.

(** [list_del(&x->entry)] *)
Definition list_del (x : A) (l : list A) : list A := filter (fun y => y <> x) l.

(** [list_add_tail(&x->entry, pos)]: link [x] just before [pos]; when [pos]
    is the list head itself ([None]) this is the end of the list. *)
Fixpoint list_add_before (pos : option A) (x : A) (l : list A) : list A :=
  match l with
  | [] => [x]
  | y :: l' => if decide (pos = Some y) then x :: y :: l'
               else y :: list_add_before pos x l'
  end.

(** [list_add(&x->entry, pos)]: link [x] just after [pos]; when [pos] is the
    head ([None]) this is the front of the list. *)
Fixpoint list_add_after_elt (p x : A) (l : list A) : list A :=
  match l with
  | [] => []
  | y :: l' => if decide (p = y) then y :: x :: l'
               else y :: list_add_after_elt p x l'
  end.
Definition list_add_after (pos : option A) (x : A) (l : list A) : list A :=
  match pos with None => x :: l | Some p => list_add_after_elt p x l end.

Lemma elem_of_list_del x y l : y ∈ list_del x l <-> y <> x /\ y ∈ l.
Proof. unfold list_del. by rewrite list_elem_of_filter. Qed.

Lemma list_del_NoDup x l : NoDup l -> NoDup (list_del x l).
Proof. intros ?. by apply NoDup_filter. Qed.

Lemma list_del_notin x l : x ∉ l -> list_del x l = l.
Proof.
  induction l as [|y l IH]; [done|]. intros [? ?]%not_elem_of_cons.
  unfold list_del. rewrite filter_cons. case_decide as Hd; [|by destruct Hd].
  f_equal. by apply IH.
Qed.

Lemma list_del_app x l1 l2 : list_del x (l1 ++ l2) = list_del x l1 ++ list_del x l2.
Proof. apply filter_app. Qed.

Lemma list_del_split x l1 l2 :
  NoDup (l1 ++ x :: l2) -> list_del x (l1 ++ x :: l2) = l1 ++ l2.
Proof.
  intros [? [? [? ?]%NoDup_cons]]%NoDup_app.
  rewrite list_del_app. unfold list_del at 2.
  rewrite filter_cons. case_decide as Hd; [by destruct Hd|]. fold (list_del x l2).
  rewrite !list_del_notin; [done|done|]. set_solver.
Qed.

Lemma list_add_before_perm pos x l : list_add_before pos x l ≡ₚ x :: l.
Proof.
  induction l as [|y l IH]; simpl; [done|]. case_decide; [done|].
  rewrite IH. apply Permutation_swap.
Qed.

Lemma elem_of_list_add_before pos x l y :
  y ∈ list_add_before pos x l <-> y = x \/ y ∈ l.
Proof. by rewrite list_add_before_perm, elem_of_cons. Qed.

Lemma list_add_before_None x l : list_add_before None x l = l ++ [x].
Proof. induction l as [|y l IH]; [done|]. simpl. by rewrite IH. Qed.

Lemma list_add_before_Some p x l1 l2 :
  p ∉ l1 -> list_add_before (Some p) x (l1 ++ p :: l2) = l1 ++ x :: p :: l2.
Proof.
  induction l1 as [|y l1 IH]; simpl; intros Hp.
  - by rewrite decide_True.
  - apply not_elem_of_cons in Hp as [Hne ?].
    case_decide; [congruence|]. f_equal. by apply IH.
Qed.

Lemma list_add_after_Some p x l1 l2 :
  p ∉ l1 -> list_add_after (Some p) x (l1 ++ p :: l2) = l1 ++ p :: x :: l2.
Proof.
  simpl. induction l1 as [|y l1 IH]; simpl; intros Hp.
  - by rewrite decide_True.
  - apply not_elem_of_cons in Hp as [Hne ?].
    case_decide; [congruence|]. f_equal. by apply IH.
Qed.
End lists.

(** A list split at an element found by a key that no other element has. *)
Lemma nodup_key_split {A K} (key : A -> K) (l1 l2 k1 k2 : list A) x y :
  NoDup (map key (l1 ++ x :: l2)) -> l1 ++ x :: l2 = k1 ++ y :: k2 -> key x = key y ->
  l1 = k1 /\ x = y /\ l2 = k2.
Proof.
  revert k1. induction l1 as [|a l1 IH]; intros [|b k1] Hnd E Hk; simplify_eq/=.
  - done.
  - apply NoDup_cons in Hnd as [Hn _]. exfalso. apply Hn. rewrite Hk, map_app.
    apply elem_of_app. right. left.
  - apply NoDup_cons in Hnd as [Hn _]. exfalso. apply Hn. rewrite <- Hk, map_app.
    apply elem_of_app. right. left.
  - apply NoDup_cons in Hnd as [_ Hnd]. destruct (IH k1) as (-> & ? & ?); done.
Qed.

(** ** Sums over a list of keys *)
Fixpoint sum_over {A} (f : A -> Z) (l : list A) : Z :=
  match l with [] => 0 | x :: l' => f x + sum_over f l' end.

Lemma sum_over_app {A} (f : A -> Z) l1 l2 :
  sum_over f (l1 ++ l2) = sum_over f l1 + sum_over f l2.
Proof. induction l1 as [|x l1 IH]; simpl; lia. Qed.

Lemma sum_over_ext {A} (f g : A -> Z) l :
  (forall x, x ∈ l -> f x = g x) -> sum_over f l = sum_over g l.
Proof.
  induction l as [|x l IH]; intros E; [done|]. simpl.
  rewrite E by set_solver. rewrite IH; [done|]. set_solver.
Qed.

Lemma sum_over_perm {A} (f : A -> Z) l l' : l ≡ₚ l' -> sum_over f l = sum_over f l'.
Proof. induction 1; simpl; lia. Qed.

Lemma sum_over_del {A} `{EqDecision A} (f : A -> Z) x l :
  NoDup l -> x ∈ l -> sum_over f (list_del x l) = sum_over f l - f x.
Proof.
  intros Hnd Hx. apply list_elem_of_split in Hx as (l1 & l2 & ->).
  rewrite list_del_split by done. rewrite !sum_over_app. simpl. lia.
Qed.

Lemma sum_over_update {A} `{EqDecision A} (f g : A -> Z) x l :
  NoDup l -> x ∈ l -> (forall y, y <> x -> f y = g y) ->
  sum_over g l = sum_over f l - f x + g x.
Proof.
  intros Hnd Hx E. apply list_elem_of_split in Hx as (l1 & l2 & ->).
  apply NoDup_app in Hnd as (_ & Hd & [Hx2 _]%NoDup_cons).
  rewrite !sum_over_app. simpl.
  rewrite (sum_over_ext g f l1), (sum_over_ext g f l2); [lia| |];
    intros y Hy; symmetry; apply E; set_solver.
Qed.

(** ** Reachability *)
Section star.
Context {A : Type} (R : A -> A -> Prop).

Inductive star : A -> A -> Prop :=
| star_refl a : star a a
| star_step a b c : star a b -> R b c -> star a c.

(** The rule-induction principle the components use for invariants. *)
Lemma star_invariant (I : A -> Prop) a b :
  (forall x y, I x -> R x y -> I y) -> I a -> star a b -> I b.
Proof. intros Hstep Ha Hs. induction Hs; eauto. Qed.
End star.

Create HintDb word discriminated.
Create Rewrite HintDb word.
#[export] Hint Resolve u64_range u32_range : word.
#[export] Hint Rewrite @u64_add_l @u64_add_r @u64_sub_l @u64_sub_r : word.
