(* ===== verification/AshmemRange.v ===== *)
(** * ashmem: unpinned ranges and the eviction LRU (ashmem/ashmem.c)

    The data of the driver and the code that runs under [ashmem_mutex] on an
    area's list of unpinned page ranges: [range_alloc], [range_del],
    [range_shrink], [lru_add], [lru_del], [ashmem_pin], [ashmem_unpin] and
    [ashmem_get_pin_status].

    A [struct ashmem_range] is linked into two intrusive lists at once (its
    area's [unpinned_list] and the global [ashmem_lru_list]), so ranges live
    in a store indexed by object identity and both lists hold identities. *)

From Stdlib Require Import ZArith Lia.
From stdpp Require Import base option gmap sets sorting list.
From S2P Require Import Prelude.

Definition ASHMEM_NOT_PURGED : Z := 0.
Definition ASHMEM_WAS_PURGED : Z := 1.
Definition ASHMEM_IS_UNPINNED : Z := 0.
Definition ASHMEM_IS_PINNED : Z := 1.

Inductive ashmem_backing_type := ASHMEM_BACKING_SHMEM | ASHMEM_BACKING_MEMFD.
#[export] Instance ashmem_backing_type_eq_dec : EqDecision ashmem_backing_type.
Proof. solve_decision. Defined.

Record ashmem_range := Range {
  asma : nat;
  pgstart : Z;
  pgend : Z;
  purged : Z
}.

Record ashmem_area := Area {
  name : list Z;
  unpinned_list : list nat;
  file : option nat;
  size : Z;
  prot_mask : Z;
  backing : ashmem_backing_type
}.

(** The backing [struct file]: the part of it the driver reads or writes. *)
Record vmfile := VmFile {
  f_count : Z;
  f_mode_lseek : bool;
  f_op_overridden : bool;
  f_pos : Z
}.

(** The driver's global state: the two slab caches, the backing files, the
    LRU list and its page count, the list of live areas, the number of purges
    in flight. *)
Record ashmem := Ashmem {
  ranges : gmap nat ashmem_range;
  areas : gmap nat ashmem_area;
  files : gmap nat vmfile;
  ashmem_lru_list : list nat;
  lru_count : Z;
  ashmem_area_list : list nat;
  ashmem_shrink_inflight : Z
}.

Definition set_ranges (m : gmap nat ashmem_range) (s : ashmem) : ashmem :=
  Ashmem m (areas s) (files s) (ashmem_lru_list s) (lru_count s)
    (ashmem_area_list s) (ashmem_shrink_inflight s).
Definition set_areas (m : gmap nat ashmem_area) (s : ashmem) : ashmem :=
  Ashmem (ranges s) m (files s) (ashmem_lru_list s) (lru_count s)
    (ashmem_area_list s) (ashmem_shrink_inflight s).
Definition set_files (m : gmap nat vmfile) (s : ashmem) : ashmem :=
  Ashmem (ranges s) (areas s) m (ashmem_lru_list s) (lru_count s)
    (ashmem_area_list s) (ashmem_shrink_inflight s).
Definition set_lru (l : list nat) (c : Z) (s : ashmem) : ashmem :=
  Ashmem (ranges s) (areas s) (files s) l c
    (ashmem_area_list s) (ashmem_shrink_inflight s).
Definition set_area_list (l : list nat) (s : ashmem) : ashmem :=
  Ashmem (ranges s) (areas s) (files s) (ashmem_lru_list s) (lru_count s)
    l (ashmem_shrink_inflight s).
Definition set_inflight (n : Z) (s : ashmem) : ashmem :=
  Ashmem (ranges s) (areas s) (files s) (ashmem_lru_list s) (lru_count s)
    (ashmem_area_list s) n.

Definition set_unpinned (l : list nat) (A : ashmem_area) : ashmem_area :=
  Area (name A) l (file A) (size A) (prot_mask A) (backing A).

(** ** Range predicates *)

Definition range_size (r : ashmem_range) : Z := u64 (pgend r - pgstart r + 1).

Definition range_on_lru (r : ashmem_range) : bool := purged r =? ASHMEM_NOT_PURGED.

Definition page_range_subsumes_range (r : ashmem_range) (start end_ : Z) : bool :=
  (start <=? pgstart r) && (pgend r <=? end_).

Definition page_range_subsumed_by_range (r : ashmem_range) (start end_ : Z) : bool :=
  (pgstart r <=? start) && (end_ <=? pgend r).

Definition page_in_range (r : ashmem_range) (page : Z) : bool :=
  (pgstart r <=? page) && (page <=? pgend r).

Definition page_range_in_range (r : ashmem_range) (start end_ : Z) : bool :=
  page_in_range r start || page_in_range r end_ ||
  page_range_subsumes_range r start end_.

Definition range_before_page (r : ashmem_range) (page : Z) : bool := pgend r <? page.

(** ** Range operations *)

Definition range_at (id : nat) : M ashmem ashmem_range :=
  let! s := get in deref (ranges s !! id).

Definition area_at (a : nat) : M ashmem ashmem_area :=
  let! s := get in deref (areas s !! a).

Definition lru_add (id : nat) : M ashmem unit :=
  let! r := range_at id in
  modify (fun s => set_lru (ashmem_lru_list s ++ [id])
                           (u64 (lru_count s + range_size r)) s).

Definition lru_del (id : nat) : M ashmem unit :=
  let! r := range_at id in
  modify (fun s => set_lru (list_del id (ashmem_lru_list s))
                           (u64 (lru_count s - range_size r)) s).

(** Relink an area's [unpinned_list]. *)
Definition relink (a : nat) (f : list nat -> list nat) : M ashmem unit :=
  let! A := area_at a in
  modify (fun s => set_areas (<[a := set_unpinned (f (unpinned_list A)) A]> (areas s)) s).

(** [new_range] is the caller's pre-allocated object; it is consumed: the
    result is the new value of [*new_range], which is NULL.  [prev_range] is
    [None] when the caller's loop ran off the end of the list, where
    [&prev_range->unpinned] is the list head. *)
Definition range_alloc (a : nat) (prev_range : option nat) (purged start end_ : Z)
    (new_range : option nat) : M ashmem (option nat) :=
  let! range := deref new_range in
  modify (fun s => set_ranges (<[range := Range a start end_ purged]> (ranges s)) s) ;!
  relink a (list_add_before prev_range range) ;!
  let! r := range_at range in
  (if range_on_lru r then lru_add range else ret tt) ;!
  ret None.

Definition range_del (id : nat) : M ashmem unit :=
  let! r := range_at id in
  relink (asma r) (list_del id) ;!
  (if range_on_lru r then lru_del id else ret tt) ;!
  modify (fun s => set_ranges (delete id (ranges s)) s).

Definition range_shrink (id : nat) (start end_ : Z) : M ashmem unit :=
  let! r := range_at id in
  let pre := range_size r in
  let r' := Range (asma r) start end_ (purged r) in
  modify (fun s => set_ranges (<[id := r']> (ranges s)) s) ;!
  if range_on_lru r'
  then modify (fun s => set_lru (ashmem_lru_list s)
                          (u64 (lru_count s - (pre - range_size r'))) s)
  else ret tt.

(** ** Pinning

    [list_for_each_entry_safe] reads the next link before the body runs, and
    the body only unlinks the current entry or links a new one before it, so
    the loop visits the entries the list held at its start. *)
Fixpoint ashmem_pin_loop (a : nat) (start end_ : Z) (l : list nat) (rv : Z)
    (new_range : option nat) : M ashmem (Z * option nat) :=
  match l with
  | [] => ret (rv, new_range)
  | id :: l' =>
    let! range := range_at id in
    if range_before_page range start then ret (rv, new_range)
    else if page_range_in_range range start end_ then
      let rv := Z.lor rv (purged range) in
      if page_range_subsumes_range range start end_ then
        range_del id ;! ashmem_pin_loop a start end_ l' rv new_range
      else if start <=? pgstart range then
        range_shrink id (u64 (end_ + 1)) (pgend range) ;!
        ashmem_pin_loop a start end_ l' rv new_range
      else if pgend range <=? end_ then
        range_shrink id (pgstart range) (u64 (start - 1)) ;!
        ashmem_pin_loop a start end_ l' rv new_range
      else
        let! new_range := range_alloc a (Some id) (purged range)
                            (u64 (end_ + 1)) (pgend range) new_range in
        range_shrink id (pgstart range) (u64 (start - 1)) ;!
        ret (rv, new_range)
    else ashmem_pin_loop a start end_ l' rv new_range
  end.

Definition ashmem_pin (a : nat) (start end_ : Z) (new_range : option nat)
    : M ashmem (Z * option nat) :=
  let! A := area_at a in
  ashmem_pin_loop a start end_ (unpinned_list A) ASHMEM_NOT_PURGED new_range.

(** ** Unpinning

    One pass over the list ends in one of three ways: at the insertion point,
    at a range that already covers the request, or at a range to merge, after
    which the code restarts from the head of the list. *)
Inductive unpin_scan_result :=
  | ScanInsert (pos : option nat)
  | ScanCovered
  | ScanMerge (id : nat) (r : ashmem_range).

Fixpoint unpin_scan (start end_ : Z) (l : list nat) : M ashmem unpin_scan_result :=
  match l with
  | [] => ret (ScanInsert None)
  | id :: l' =>
    let! range := range_at id in
    if range_before_page range start then ret (ScanInsert (Some id))
    else if page_range_subsumed_by_range range start end_ then ret ScanCovered
    else if page_range_in_range range start end_ then ret (ScanMerge id range)
    else unpin_scan start end_ l'
  end.

(** [fuel] bounds the number of passes; every restart has freed a range, so
    one more pass than there are ranges is enough
    ([AshmemRangeFacts.ashmem_unpin_ok]). *)
Fixpoint ashmem_unpin_loop (fuel : nat) (a : nat) (start end_ purged_ : Z)
    (new_range : option nat) : M ashmem (Z * option nat) :=
  match fuel with
  | O => oops
  | S fuel =>
    let! A := area_at a in
    let! res := unpin_scan start end_ (unpinned_list A) in
    match res with
    | ScanCovered => ret (0, new_range)
    | ScanMerge id range =>
        range_del id ;!
        ashmem_unpin_loop fuel a (Z.min (pgstart range) start)
          (Z.max (pgend range) end_) (Z.lor purged_ (purged range)) new_range
    | ScanInsert pos =>
        let! new_range := range_alloc a pos purged_ start end_ new_range in
        ret (0, new_range)
    end
  end.

Definition ashmem_unpin (a : nat) (start end_ : Z) (new_range : option nat)
    : M ashmem (Z * option nat) :=
  let! A := area_at a in
  ashmem_unpin_loop (S (length (unpinned_list A))) a start end_ ASHMEM_NOT_PURGED new_range.

(** ** Pin status *)
Fixpoint ashmem_get_pin_status_loop (start end_ : Z) (l : list nat) : M ashmem Z :=
  match l with
  | [] => ret ASHMEM_IS_PINNED
  | id :: l' =>
    let! range := range_at id in
    if range_before_page range start then ret ASHMEM_IS_PINNED
    else if page_range_in_range range start end_ then ret ASHMEM_IS_UNPINNED
    else ashmem_get_pin_status_loop start end_ l'
  end.

Definition ashmem_get_pin_status (a : nat) (start end_ : Z) : M ashmem Z :=
  let! A := area_at a in
  ashmem_get_pin_status_loop start end_ (unpinned_list A).
