(* ===== verification/AshmemRangeFacts.v ===== *)
(** * ashmem: invariants of the range lists, and what pinning means

    [linked] ties the range store to the two intrusive lists, the LRU count
    to the LRU list, and bounds every range; [sorted] says an area's list is
    in strictly descending page order.  [status] is the abstract state of a
    page.  [ashmem_pin], [ashmem_unpin] and [ashmem_get_pin_status] keep the
    invariants and act on the page states as sets. *)

From Stdlib Require Import ZArith Lia.
From stdpp Require Import base option gmap sets sorting list.
From S2P Require Import Prelude AshmemRange.

(** ** The invariant *)

Definition size_at (s : ashmem) (id : nat) : Z :=
  match ranges s !! id with Some r => range_size r | None => 0 end.

(** A well-formed range; [pgstart = pgend + 1] is an empty one. *)
Definition range_ok (r : ashmem_range) : Prop :=
  0 <= pgstart r /\ pgstart r <= pgend r + 1 /\ 0 <= pgend r < two64 /\
  (purged r = ASHMEM_NOT_PURGED \/ purged r = ASHMEM_WAS_PURGED).

(** [pend] holds the objects a caller has allocated but not linked. *)
Record linked (pend : gset nat) (s : ashmem) : Prop := Linked {
  linked_nodup a A : areas s !! a = Some A -> NoDup (unpinned_list A);
  linked_area a A id : areas s !! a = Some A -> id ∈ unpinned_list A ->
    (id ∉ pend) /\ exists r, ranges s !! id = Some r /\ asma r = a;
  linked_range id r : ranges s !! id = Some r -> id ∉ pend ->
    range_ok r /\ exists A, areas s !! asma r = Some A /\ id ∈ unpinned_list A;
  linked_pend id : id ∈ pend -> is_Some (ranges s !! id);
  linked_lru_nodup : NoDup (ashmem_lru_list s);
  linked_lru id : id ∈ ashmem_lru_list s <->
    (id ∉ pend) /\ exists r, ranges s !! id = Some r /\ purged r = ASHMEM_NOT_PURGED;
  linked_count : lru_count s = u64 (sum_over (size_at s) (ashmem_lru_list s));
  linked_file a A : areas s !! a = Some A -> unpinned_list A <> [] -> is_Some (file A)
}.

Definition before (s : ashmem) (i j : nat) : Prop :=
  forall r1 r2, ranges s !! i = Some r1 -> ranges s !! j = Some r2 ->
  pgend r2 < pgstart r1.

Definition area_sorted (s : ashmem) (l : list nat) : Prop := StronglySorted (before s) l.

Definition sorted (s : ashmem) : Prop :=
  forall a A, areas s !! a = Some A -> area_sorted s (unpinned_list A).

(** The state of page [p] of area [a]: unpinned, in a range whose purge flag
    is [v]. *)
Definition status (s : ashmem) (a : nat) (p v : Z) : Prop :=
  exists A id r, areas s !! a = Some A /\ id ∈ unpinned_list A /\
    ranges s !! id = Some r /\ pgstart r <= p <= pgend r /\ purged r = v.

Definition unpinned (s : ashmem) (a : nat) (p : Z) : Prop := exists v, status s a p v.

(** What an operation on area [a] leaves alone: the other areas' pages, the
    area's attributes, files, and the rest of the global state. *)
Record only_area (a : nat) (s s' : ashmem) : Prop := OnlyArea {
  oa_other b : b <> a -> areas s' !! b = areas s !! b;
  oa_same A : areas s !! a = Some A ->
    exists l, areas s' !! a = Some (set_unpinned l A);
  oa_ranges b B id : b <> a -> areas s !! b = Some B -> id ∈ unpinned_list B ->
    ranges s' !! id = ranges s !! id;
  oa_files : files s' = files s;
  oa_area_list : ashmem_area_list s' = ashmem_area_list s;
  oa_inflight : ashmem_shrink_inflight s' = ashmem_shrink_inflight s
}.

Ltac bools := unfold range_before_page, page_range_in_range, page_in_range,
  page_range_subsumes_range, page_range_subsumed_by_range, range_on_lru in *;
  rewrite ?orb_true_iff, ?orb_false_iff, ?andb_true_iff, ?andb_false_iff,
    ?Z.ltb_lt, ?Z.ltb_ge, ?Z.leb_le, ?Z.leb_gt, ?Z.eqb_eq, ?Z.eqb_neq in *.

Lemma only_area_refl a s : only_area a s s.
Proof. split; eauto. intros [] ?. eexists. done. Qed.

Lemma only_area_trans a s1 s2 s3 :
  only_area a s1 s2 -> only_area a s2 s3 -> only_area a s1 s3.
Proof.
  intros [O1 S1 R1 F1 L1 I1] [O2 S2 R2 F2 L2 I2]. split; try congruence.
  - intros b ?. by rewrite O2, O1.
  - intros A H. destruct (S1 A H) as [l Hl]. destruct (S2 _ Hl) as [l' ->]. by exists l'.
  - intros b B id ? HB ?. rewrite <- (R1 b B id) by done. apply (R2 b B); [done| |done].
    by rewrite O1.
Qed.

Lemma range_at_eq s id r : ranges s !! id = Some r -> range_at id s = Some (r, s).
Proof. unfold range_at, bind, get. intros H. simpl. by rewrite H. Qed.

Lemma area_at_eq s a A : areas s !! a = Some A -> area_at a s = Some (A, s).
Proof. unfold area_at, bind, get. intros H. simpl. by rewrite H. Qed.

(** ** Closed forms of the primitive operations *)

Definition del_state (id : nat) (r : ashmem_range) (A : ashmem_area) (s : ashmem) : ashmem :=
  Ashmem (delete id (ranges s))
    (<[asma r := set_unpinned (list_del id (unpinned_list A)) A]> (areas s))
    (files s)
    (if range_on_lru r then list_del id (ashmem_lru_list s) else ashmem_lru_list s)
    (if range_on_lru r then u64 (lru_count s - range_size r) else lru_count s)
    (ashmem_area_list s) (ashmem_shrink_inflight s).

Lemma range_del_eq s id r A :
  ranges s !! id = Some r -> areas s !! asma r = Some A ->
  range_del id s = Some (tt, del_state id r A s).
Proof.
  intros Hr HA. unfold range_del, relink.
  erewrite bind_eq by (by apply range_at_eq).
  erewrite bind_eq.
  2:{ erewrite bind_eq by (by apply area_at_eq). reflexivity. }
  unfold del_state. case_if; [|reflexivity].
  erewrite bind_eq; cycle 1.
  { unfold lru_del. erewrite bind_eq by (by apply range_at_eq). reflexivity. }
  reflexivity.
Qed.

Definition shrink_state (id : nat) (r : ashmem_range) (st en : Z) (s : ashmem) : ashmem :=
  let r' := Range (asma r) st en (purged r) in
  Ashmem (<[id := r']> (ranges s)) (areas s) (files s) (ashmem_lru_list s)
    (if range_on_lru r then u64 (lru_count s - (range_size r - range_size r')) else lru_count s)
    (ashmem_area_list s) (ashmem_shrink_inflight s).

Lemma range_shrink_eq s id r st en :
  ranges s !! id = Some r -> range_shrink id st en s = Some (tt, shrink_state id r st en s).
Proof.
  intros Hr. unfold range_shrink. erewrite bind_eq by (by apply range_at_eq).
  unfold shrink_state. unfold range_on_lru at 1; cbn [purged].
  change (purged r =? ASHMEM_NOT_PURGED) with (range_on_lru r).
  case_if; reflexivity.
Qed.

Definition alloc_state (a : nat) (prev : option nat) (pu st en : Z) (id : nat)
    (A : ashmem_area) (s : ashmem) : ashmem :=
  let r := Range a st en pu in
  Ashmem (<[id := r]> (ranges s))
    (<[a := set_unpinned (list_add_before prev id (unpinned_list A)) A]> (areas s))
    (files s)
    (if range_on_lru r then ashmem_lru_list s ++ [id] else ashmem_lru_list s)
    (if range_on_lru r then u64 (lru_count s + range_size r) else lru_count s)
    (ashmem_area_list s) (ashmem_shrink_inflight s).

Lemma range_alloc_eq s a prev pu st en id A :
  areas s !! a = Some A ->
  range_alloc a prev pu st en (Some id) s = Some (None, alloc_state a prev pu st en id A s).
Proof.
  intros HA. unfold range_alloc, relink.
  erewrite bind_eq by reflexivity. erewrite bind_eq by reflexivity.
  erewrite bind_eq.
  2:{ erewrite bind_eq by (by apply area_at_eq). reflexivity. }
  erewrite bind_eq by (apply range_at_eq, lookup_insert_eq).
  unfold alloc_state. cbv zeta. case_if; [|reflexivity].
  erewrite bind_eq; cycle 1.
  { unfold lru_add. erewrite bind_eq by (apply range_at_eq, lookup_insert_eq). reflexivity. }
  reflexivity.
Qed.

(** ** Preservation of [linked] *)

Lemma sum_over_size_ext s s' l :
  (forall id, id ∈ l -> ranges s' !! id = ranges s !! id) ->
  sum_over (size_at s') l = sum_over (size_at s) l.
Proof. intros E. apply sum_over_ext. intros id ?. unfold size_at. by rewrite E. Qed.

Lemma linked_del pend s id r A :
  linked pend s -> ranges s !! id = Some r -> areas s !! asma r = Some A ->
  id ∉ pend -> linked pend (del_state id r A s).
Proof.
  intros [Hnd Harea Hrange Hpend Hlnd Hlru Hcount Hfile] Hr HA Hid.
  assert (Hlist : ashmem_lru_list (del_state id r A s) = list_del id (ashmem_lru_list s)).
  { simpl. case_if; [done|]. symmetry. apply list_del_notin.
    intros (_ & r' & ? & ?)%Hlru. bools. congruence. }
  simpl in Hlist.
  split; simpl.
  - intros a B. rewrite lookup_insert. intros HX. case_decide; simplify_eq; eauto.
    apply list_del_NoDup. eauto.
  - intros a B i. rewrite lookup_insert. intros HX. case_decide as Ha; simplify_eq; simpl.
    + intros [Hne Hi]%elem_of_list_del. rewrite lookup_delete_ne by done. subst. eauto.
    + intros Hi. destruct (Harea a B i) as (? & ri & ? & ?); try done. split; [done|].
      exists ri. rewrite lookup_delete_ne by congruence. done.
  - intros i ri. rewrite lookup_delete. intros HX Hip. case_decide as Hne; [done|].
    destruct (Hrange i ri HX Hip) as (? & B & HB & ?). split; [done|].
    rewrite lookup_insert. case_decide as Ha.
    + eexists. split; [done|]. simpl. apply elem_of_list_del. split; [done|]. congruence.
    + eauto.
  - intros i Hi. rewrite lookup_delete_ne by (intros ->; done). eauto.
  - rewrite Hlist. by apply list_del_NoDup.
  - intros i. rewrite Hlist, elem_of_list_del, Hlru, lookup_delete.
    case_decide as Hne; split.
    + intros (? & _). congruence.
    + intros (_ & ? & ? & _). done.
    + intros (_ & ?). done.
    + intros ?. split; [congruence|done].
  - rewrite Hlist. case_if; bools.
    + rewrite (sum_over_size_ext s).
      2:{ intros i [? ?]%elem_of_list_del. simpl. by rewrite lookup_delete_ne. }
      rewrite sum_over_del; [|done|apply Hlru; eauto].
      rewrite Hcount, u64_sub_l. do 2 f_equal. unfold size_at. by rewrite Hr.
    + rewrite list_del_notin by (intros (_ & ? & ? & ?)%Hlru; congruence).
      rewrite Hcount. f_equal. symmetry. apply sum_over_size_ext.
      intros i Hi. simpl. rewrite lookup_delete_ne; [done|].
      intros ->. apply Hlru in Hi as (_ & ? & ? & ?). congruence.
  - intros a B. rewrite lookup_insert. intros HX. case_decide as Ha; simplify_eq; eauto.
    simpl. intros Hne. apply (Hfile (asma r) A); [done|]. intros E. by rewrite E in Hne.
Qed.

Lemma linked_shrink pend s id r st en :
  linked pend s -> ranges s !! id = Some r -> id ∉ pend ->
  range_ok (Range (asma r) st en (purged r)) ->
  linked pend (shrink_state id r st en s).
Proof.
  intros [Hnd Harea Hrange Hpend Hlnd Hlru Hcount Hfile] Hr Hid Hok.
  split; simpl; try done.
  - intros a B i HB Hi. destruct (Harea a B i HB Hi) as (? & ri & ? & ?).
    split; [done|]. rewrite lookup_insert. case_decide; [|by eauto].
    eexists. split; [done|]. simpl. congruence.
  - intros i ri. rewrite lookup_insert. intros HX Hip. case_decide as Hne; simplify_eq; eauto.
    split; [done|]. simpl. subst. by apply Hrange.
  - intros i Hi. rewrite lookup_insert. case_decide; [done|]. by apply Hpend.
  - intros i. rewrite Hlru, lookup_insert. case_decide as Hne; [subst|done].
    split; intros (? & r' & [= E] & ?); split; eauto.
    + eexists. split; [done|]. simpl. congruence.
    + exists r. split; [done|]. by subst r'.
  - rewrite Hcount. case_if; bools.
    + rewrite u64_sub_l. f_equal.
      rewrite (sum_over_update (size_at s) (size_at (shrink_state id r st en s)) id); try done.
      * unfold size_at, shrink_state. simpl. rewrite lookup_insert_eq, Hr. lia.
      * apply Hlru. eauto.
      * intros i Hi. unfold size_at, shrink_state. simpl. by rewrite lookup_insert_ne.
    + f_equal. symmetry. apply sum_over_size_ext. intros i Hi. simpl.
      rewrite lookup_insert_ne; [done|]. intros ->.
      apply Hlru in Hi as (_ & ? & ? & ?). congruence.
Qed.

Ltac pend_tauto :=
  rewrite ?elem_of_difference, ?elem_of_singleton, ?elem_of_app, ?list_elem_of_singleton in *;
  first [tauto | intuition congruence].

Lemma linked_alloc pend s a prev pu st en id A :
  linked pend s -> areas s !! a = Some A -> id ∈ pend -> is_Some (file A) ->
  range_ok (Range a st en pu) ->
  linked (pend ∖ {[id]}) (alloc_state a prev pu st en id A s).
Proof.
  intros [Hnd Harea Hrange Hpend Hlnd Hlru Hcount Hfile] HA Hid Hf Hok.
  set (r := Range a st en pu).
  assert (Hfresh : forall b B, areas s !! b = Some B -> id ∉ unpinned_list B).
  { intros b B HB Hi. destruct (Harea b B id HB Hi). done. }
  assert (Hlfresh : id ∉ ashmem_lru_list s) by (intros [? _]%Hlru; done).
  split; simpl.
  - intros b B. rewrite lookup_insert. intros HX. case_decide; simplify_eq; eauto. simpl.
    rewrite list_add_before_perm. constructor; eauto.
  - intros b B i. rewrite lookup_insert. intros HX. case_decide as Hb; simplify_eq; simpl.
    + intros [->|Hi]%elem_of_list_add_before; split; [pend_tauto| |destruct (Harea _ _ i HA Hi); pend_tauto|].
      * exists r. rewrite lookup_insert_eq. done.
      * destruct (Harea _ _ i HA Hi) as (? & ri & ? & ?).
        exists ri. rewrite lookup_insert_ne; [subst; done|]. intros ->. done.
    + intros Hi. destruct (Harea _ _ i HX Hi) as (? & ri & ? & ?).
      split; [pend_tauto|]. exists ri. rewrite lookup_insert_ne; [done|]. intros ->. done.
  - intros i ri. rewrite lookup_insert. intros E Hp. case_decide as Hi.
    + simplify_eq. split; [done|]. simpl. rewrite lookup_insert_eq.
      eexists. split; [done|]. simpl. apply elem_of_list_add_before. by left.
    + destruct (Hrange i ri E) as (? & B & HB & ?); [pend_tauto|]. split; [done|].
      rewrite lookup_insert. case_decide.
      * eexists. split; [done|]. simpl. apply elem_of_list_add_before. right. congruence.
      * eauto.
  - intros i [? ?]%elem_of_difference. rewrite lookup_insert. case_decide; [done|]. by apply Hpend.
  - case_if; [|done]. rewrite <- Permutation_cons_append. by constructor.
  - intros i. rewrite lookup_insert.
    assert (i ∈ ashmem_lru_list s ++ [id] <-> i = id \/ i ∈ ashmem_lru_list s) by pend_tauto.
    case_if; bools; [rewrite H|]; rewrite Hlru; case_decide as Hi; subst; split.
    + intros _. split; [pend_tauto|]. by eexists.
    + by left.
    + intros [->|[? ?]]; [done|]. split; [pend_tauto|done].
    + intros [? ?]. right. split; [pend_tauto|done].
    + intros [? _]. done.
    + intros (_ & ? & [= <-] & ?). done.
    + intros [? ?]. split; [pend_tauto|done].
    + intros [? ?]. split; [pend_tauto|done].
  - assert (E : sum_over (size_at (alloc_state a prev pu st en id A s)) (ashmem_lru_list s)
                = sum_over (size_at s) (ashmem_lru_list s)).
    { apply sum_over_size_ext. intros i Hi. simpl. rewrite lookup_insert_ne; [done|].
      by intros ->. }
    case_if; [|by rewrite Hcount, E].
    rewrite sum_over_app, E, Hcount, u64_add_l. f_equal. simpl.
    unfold size_at. simpl. rewrite lookup_insert_eq. fold r. lia.
  - intros b B. rewrite lookup_insert. intros HX. case_decide; simplify_eq; eauto.
Qed.

(** ** Order *)

Lemma area_sorted_sub s s' l l' :
  area_sorted s l -> l' `sublist_of` l ->
  (forall id r', id ∈ l' -> ranges s' !! id = Some r' ->
     exists r, ranges s !! id = Some r /\ pgstart r <= pgstart r' /\ pgend r' <= pgend r) ->
  area_sorted s' l'.
Proof.
  intros Hs Hsub. revert Hs. induction Hsub as [|x l1 l2 Hsub IH|x l1 l2 Hsub IH];
    intros Hs Hr.
  - constructor.
  - apply StronglySorted_cons in Hs as [Hx Hs]. apply StronglySorted_cons. split.
    + rewrite Forall_forall in Hx |- *. intros y Hy r1 r2 H1 H2.
      destruct (Hr x r1) as (q1 & Hq1 & ? & ?); [set_solver|done|].
      destruct (Hr y r2) as (q2 & Hq2 & ? & ?); [set_solver|done|].
      assert (pgend q2 < pgstart q1); [|lia].
      apply (Hx y); try done. by eapply sublist_subseteq.
    + apply IH; [done|]. intros id r' ? ?. apply Hr; [set_solver|done].
  - apply StronglySorted_cons in Hs as [Hx Hs]. by apply IH.
Qed.

Lemma sorted_only_area pend a s s' :
  linked pend s -> sorted s -> only_area a s s' ->
  (forall A', areas s' !! a = Some A' -> area_sorted s' (unpinned_list A')) ->
  sorted s'.
Proof.
  intros HL Hs Ho Ha b B HB. destruct (decide (b = a)) as [->|Hne]; [by apply Ha|].
  rewrite (oa_other _ _ _ Ho) in HB by done.
  eapply area_sorted_sub; [by eapply Hs|done|].
  intros id r' Hid Hr'. destruct (linked_area _ _ HL b B id HB Hid) as (_ & r & Hr & _).
  exists r. split; [done|]. rewrite (oa_ranges _ _ _ Ho b B) in Hr' by done.
  simplify_eq. lia.
Qed.

(** Every range in front of [id] lies above it, every range behind below it. *)
Lemma sorted_around s l1 id l2 r :
  area_sorted s (l1 ++ id :: l2) -> ranges s !! id = Some r ->
  (forall i q, i ∈ l1 -> ranges s !! i = Some q -> pgend r < pgstart q) /\
  (forall i q, i ∈ l2 -> ranges s !! i = Some q -> pgend q < pgstart r).
Proof.
  intros [H1 [_ H2]]%StronglySorted_app Hr.
  apply StronglySorted_cons in H2 as [H2 _]. rewrite Forall_forall in H2.
  split; intros i q Hi Hq.
  - apply (H1 i id); try done. set_solver.
  - by apply (H2 i).
Qed.

(** ** Page states *)

Definition covers (s : ashmem) (id : nat) (p v : Z) : Prop :=
  exists r, ranges s !! id = Some r /\ pgstart r <= p <= pgend r /\ purged r = v.

Lemma status_area s a A p v :
  areas s !! a = Some A ->
  (status s a p v <-> exists id, id ∈ unpinned_list A /\ covers s id p v).
Proof.
  intros HA. unfold status, covers. split.
  - intros (B & id & r & HB & ? & ? & ? & ?). simplify_eq. eauto 8.
  - intros (id & ? & r & ? & ? & ?). eauto 10.
Qed.

(** A step on area [a] that keeps the invariants and does not touch the
    state of any page outside [P]. *)
Record narrowed (pend : gset nat) (a : nat) (P : Z -> Prop) (s s' : ashmem) : Prop := Narrowed {
  na_linked : linked pend s';
  na_sorted : sorted s';
  na_only : only_area a s s';
  na_status p v : ~ P p -> status s' a p v <-> status s a p v
}.

Lemma narrowed_refl pend a P s : linked pend s -> sorted s -> narrowed pend a P s s.
Proof. intros. split; try done. apply only_area_refl. Qed.

Lemma narrowed_trans pend a P s1 s2 s3 pend' :
  narrowed pend a P s1 s2 -> narrowed pend' a P s2 s3 -> narrowed pend' a P s1 s3.
Proof.
  intros [? ? ? H1] [? ? ? H2]. split; try done.
  - by eapply only_area_trans.
  - intros p v Hp. by rewrite H2, H1.
Qed.

Lemma linked_other pend s a b A B i :
  linked pend s -> areas s !! a = Some A -> areas s !! b = Some B -> b <> a ->
  i ∈ unpinned_list A -> i ∉ unpinned_list B.
Proof.
  intros HL HA HB Hne Hi Hj.
  destruct (linked_area _ _ HL _ _ _ HA Hi) as (_ & ? & ? & ?).
  destruct (linked_area _ _ HL _ _ _ HB Hj) as (_ & ? & ? & ?). congruence.
Qed.

Lemma only_area_del pend s id r A :
  linked pend s -> areas s !! asma r = Some A -> id ∈ unpinned_list A ->
  only_area (asma r) s (del_state id r A s).
Proof.
  intros HL HA Hid. split; simpl; try done.
  - intros b ?. by rewrite lookup_insert_ne.
  - intros B HB. simplify_eq. rewrite lookup_insert_eq. eauto.
  - intros b B i ? HB Hi. rewrite lookup_delete_ne; [done|]. intros <-.
    by eapply (linked_other _ _ (asma r) b A B).
Qed.

Lemma only_area_shrink pend s id r st en A :
  linked pend s -> areas s !! asma r = Some A -> id ∈ unpinned_list A ->
  only_area (asma r) s (shrink_state id r st en s).
Proof.
  intros HL HA Hid. split; simpl; try done.
  - intros B HB. exists (unpinned_list B). rewrite HB. by destruct B.
  - intros b B i ? HB Hi. rewrite lookup_insert_ne; [done|]. intros <-.
    by eapply (linked_other _ _ (asma r) b A B).
Qed.

Lemma only_area_alloc pend s a prev pu st en id A :
  linked pend s -> areas s !! a = Some A -> id ∈ pend ->
  only_area a s (alloc_state a prev pu st en id A s).
Proof.
  intros HL HA Hid. split; simpl; try done.
  - intros b ?. by rewrite lookup_insert_ne.
  - intros B HB. simplify_eq. rewrite lookup_insert_eq. eauto.
  - intros b B i ? HB Hi. rewrite lookup_insert_ne; [done|]. intros <-.
    by destruct (linked_area _ _ HL _ _ _ HB Hi).
Qed.

Lemma narrowed_del pend s id r A (P : Z -> Prop) :
  linked pend s -> sorted s -> ranges s !! id = Some r -> areas s !! asma r = Some A ->
  id ∈ unpinned_list A -> (forall p, pgstart r <= p <= pgend r -> P p) ->
  narrowed pend (asma r) P s (del_state id r A s).
Proof.
  intros HL Hs Hr HA Hid HP.
  pose proof (only_area_del pend s id r A HL HA Hid) as Ho.
  assert (Hp : id ∉ pend) by by destruct (linked_area _ _ HL _ _ _ HA Hid).
  split; [by apply linked_del| |done|].
  - eapply sorted_only_area; [done..|]. simpl. rewrite lookup_insert_eq.
    intros ? [= <-]. eapply area_sorted_sub; [by eapply Hs| |].
    + simpl. apply sublist_filter.
    + intros i q _. simpl. rewrite lookup_delete. case_decide; [done|]. intros ?. exists q. split; [done|lia].
  - intros p v HnP.
    rewrite (status_area s _ A) by done.
    rewrite (status_area _ _ (set_unpinned (list_del id (unpinned_list A)) A))
      by (simpl; apply lookup_insert_eq).
    simpl. unfold covers. simpl. split.
    + intros (i & [? ?]%elem_of_list_del & q & Hq & ?).
      rewrite lookup_delete_ne in Hq by done. eauto 8.
    + intros (i & ? & q & Hq & ? & ?). assert (i <> id).
      { intros ->. simplify_eq. by destruct HnP; apply HP. }
      exists i. rewrite elem_of_list_del. split; [done|]. exists q. by rewrite lookup_delete_ne.
Qed.

Lemma narrowed_shrink pend s id r st en A (P : Z -> Prop) :
  linked pend s -> sorted s -> ranges s !! id = Some r -> areas s !! asma r = Some A ->
  id ∈ unpinned_list A -> range_ok (Range (asma r) st en (purged r)) ->
  pgstart r <= st -> en <= pgend r ->
  (forall p, pgstart r <= p <= pgend r -> ~ st <= p <= en -> P p) ->
  narrowed pend (asma r) P s (shrink_state id r st en s).
Proof.
  intros HL Hs Hr HA Hid Hok Hst Hen HP.
  pose proof (only_area_shrink pend s id r st en A HL HA Hid) as Ho.
  assert (Hp : id ∉ pend) by by destruct (linked_area _ _ HL _ _ _ HA Hid).
  split; [by apply linked_shrink| |done|].
  - eapply sorted_only_area; [done..|]. simpl. rewrite HA. intros ? [= <-].
    eapply area_sorted_sub; [by eapply Hs|done|].
    intros i q _. simpl. rewrite lookup_insert. intros Hq.
    case_decide; simplify_eq; simpl; [exists r|exists q]; (split; [done|lia]).
  - intros p v HnP. rewrite (status_area s _ A) by done.
    rewrite (status_area _ _ A) by done. unfold covers. simpl.
    split; intros (i & Hi & q & Hq & Hpq & Hv); exists i; (split; [done|]).
    + rewrite lookup_insert in Hq. case_decide; simplify_eq; simpl in *; eauto with lia.
    + rewrite lookup_insert. case_decide; [|by eauto]. simplify_eq.
      eexists. split; [done|]. simpl. split; [|done].
      destruct (decide (st <= p <= en)); [done|]. by destruct HnP; apply HP.
Qed.

(** Punching [st..en] out of the middle of range [id]: the tail becomes a new
    range [n] linked in front of [id], then [id] keeps the head. *)
Record split_at (s s' : ashmem) (id n : nat) (r : ashmem_range) (st en : Z) : Prop := SplitAt {
  sp_old : ranges s !! id = Some r;
  sp_tail : ranges s' !! n = Some (Range (asma r) (en + 1) (pgend r) (purged r));
  sp_head : ranges s' !! id = Some (Range (asma r) (pgstart r) (st - 1) (purged r));
  sp_rest i : i <> id -> i <> n -> ranges s' !! i = ranges s !! i;
  sp_bounds : pgstart r < st /\ en < pgend r /\ st <= en + 1
}.

Lemma split_sorted s s' id n r st en l1 l2 :
  split_at s s' id n r st en -> NoDup (l1 ++ id :: l2) -> n ∉ l1 ++ id :: l2 ->
  area_sorted s (l1 ++ id :: l2) -> area_sorted s' (l1 ++ n :: id :: l2).
Proof.
  intros [Hr Hn2 Hid2 Ho ?] Hnd HN HS.
  destruct (sorted_around s l1 id l2 r HS Hr) as [Hup Hdn].
  apply not_elem_of_app in HN as [HN1 [HNid HN2]%not_elem_of_cons].
  apply NoDup_app in Hnd as (_ & Hd & [Hid_2 _]%NoDup_cons).
  assert (Hid_1 : id ∉ l1) by (intros Hi; apply (Hd id Hi); by constructor).
  assert (HS' : area_sorted s' (l1 ++ id :: l2)).
  { eapply area_sorted_sub; [exact HS|done|]. intros i q Hi Hq.
    destruct (decide (i = id)) as [->|].
    - rewrite Hid2 in Hq. simplify_eq. eexists. split; [done|]. simpl. lia.
    - rewrite Ho in Hq; [exists q; split; [done|lia]|done|].
      intros ->. apply elem_of_app in Hi as [|[|]%elem_of_cons]; done. }
  apply StronglySorted_app in HS' as (HS1 & HS2 & HS3).
  apply StronglySorted_app. split; [|split; [done|apply StronglySorted_cons; split; [|done]]].
  - intros i j Hi [->|Hj]%elem_of_cons; [|by apply HS1].
    intros q1 q2 Hq1 Hq2. rewrite Hn2 in Hq2. simplify_eq. simpl.
    rewrite Ho in Hq1 by (intros ->; done). by eapply Hup.
  - apply Forall_forall. intros j Hj q1 q2 Hq1 Hq2. rewrite Hn2 in Hq1. simplify_eq. simpl.
    apply elem_of_cons in Hj as [->|Hj]; [rewrite Hid2 in Hq2; simplify_eq; simpl; lia|].
    rewrite Ho in Hq2 by (intros ->; done). specialize (Hdn _ _ Hj Hq2). lia.
Qed.

Lemma split_covers s s' id n r st en (l l' : list nat) p v :
  split_at s s' id n r st en -> id ∈ l -> n ∉ l -> (forall i, i ∈ l' <-> i = n \/ i ∈ l) ->
  ~ st <= p <= en ->
  (exists i, i ∈ l' /\ covers s' i p v) <-> (exists i, i ∈ l /\ covers s i p v).
Proof.
  intros [Hr Hn2 Hid2 Ho ?] Hid HN Hl Hp. unfold covers. split.
  - intros (i & [->|Hi]%Hl & q & Hq & Hpq & Hv).
    + rewrite Hn2 in Hq. simplify_eq. simpl in *. exists id. split; [done|]. exists r. split; [done|]. lia.
    + exists i. split; [done|]. destruct (decide (i = id)) as [->|].
      * rewrite Hid2 in Hq. simplify_eq. simpl in *. exists r. split; [done|]. lia.
      * rewrite Ho in Hq; [by eauto|done|]. intros ->. done.
  - intros (i & Hi & q & Hq & Hpq & Hv). destruct (decide (i = id)) as [->|].
    + simplify_eq. destruct (Z.lt_ge_cases p st).
      * exists id. rewrite Hl. split; [auto|]. eexists. split; [exact Hid2|]. simpl. lia.
      * exists n. rewrite Hl. split; [auto|]. eexists. split; [exact Hn2|]. simpl. lia.
    + exists i. rewrite Hl. split; [auto|]. exists q. rewrite Ho; [done|done|]. intros ->. done.
Qed.

Lemma split_inside s s' id n r st en i p v :
  split_at s s' id n r st en -> st <= p <= en -> covers s' i p v ->
  i <> id /\ i <> n /\ covers s i p v.
Proof.
  intros [Hr Hn2 Hid2 Ho ?] Hp (q & Hq & Hpq & Hv).
  destruct (decide (i = id)) as [->|]; [rewrite Hid2 in Hq; simplify_eq; simpl in *; lia|].
  destruct (decide (i = n)) as [->|]; [rewrite Hn2 in Hq; simplify_eq; simpl in *; lia|].
  do 2 (split; [done|]). exists q. by rewrite <- Ho.
Qed.

Lemma hole_split_at s id r n st en prev A :
  ranges s !! id = Some r -> id <> n -> pgstart r < st -> en < pgend r -> st <= en + 1 ->
  let s1 := alloc_state (asma r) prev (purged r) (en + 1) (pgend r) n A s in
  split_at s (shrink_state id r (pgstart r) (st - 1) s1) id n r st en.
Proof.
  intros Hr Hne ? ? ? s1. split; simpl; [done| | | |lia].
  - by rewrite lookup_insert_ne, lookup_insert_eq.
  - by rewrite lookup_insert_eq.
  - intros. by rewrite !lookup_insert_ne.
Qed.

Lemma narrowed_split pend s id r n st en l1 l2 A (P : Z -> Prop) :
  linked pend s -> sorted s -> ranges s !! id = Some r -> areas s !! asma r = Some A ->
  unpinned_list A = l1 ++ id :: l2 -> n ∈ pend ->
  pgstart r < st -> en < pgend r -> st <= en + 1 -> 0 <= en ->
  (forall p, st <= p <= en -> P p) ->
  let s1 := alloc_state (asma r) (Some id) (purged r) (en + 1) (pgend r) n A s in
  narrowed (pend ∖ {[n]}) (asma r) P s (shrink_state id r (pgstart r) (st - 1) s1).
Proof.
  intros HL Hs Hr HA Hl Hn Hst Hen Hse H0 HP s1.
  assert (Hid : id ∈ unpinned_list A) by (rewrite Hl, elem_of_app; right; constructor).
  destruct (linked_area _ _ HL _ _ _ HA Hid) as (Hp & _).
  destruct (linked_range _ _ HL id r Hr Hp) as ((? & ? & ? & ?) & _).
  assert (Hne : id <> n) by (intros ->; done).
  assert (HL1 : linked (pend ∖ {[n]}) s1).
  { apply linked_alloc; try done.
    - apply (linked_file _ _ HL _ _ HA). rewrite Hl. by destruct l1.
    - unfold range_ok; simpl. repeat split; (lia || done). }
  pose (A1 := set_unpinned (list_add_before (Some id) n (unpinned_list A)) A).
  assert (HA1 : areas s1 !! asma r = Some A1) by (simpl; apply lookup_insert_eq).
  assert (Hid1 : id ∈ unpinned_list A1) by (simpl; rewrite elem_of_list_add_before; auto).
  pose proof (only_area_alloc pend s (asma r) (Some id) (purged r) (en + 1) (pgend r) n A HL HA Hn) as Ho1.
  pose proof (only_area_shrink _ s1 id r (pgstart r) (st - 1) A1 HL1 HA1 Hid1) as Ho2.
  pose proof (hole_split_at s id r n st en (Some id) A Hr Hne Hst Hen Hse) as HSP.
  pose proof (only_area_trans _ _ _ _ Ho1 Ho2) as Ho.
  pose proof (linked_nodup _ _ HL _ _ HA) as Hnd.
  assert (HN : n ∉ unpinned_list A).
  { intros HN. by destruct (linked_area _ _ HL _ _ _ HA HN). }
  split; [| |done|].
  - apply linked_shrink; [done|by simpl; rewrite lookup_insert_ne|by pend_tauto|].
    unfold range_ok; simpl. repeat split; (lia || done).
  - eapply sorted_only_area; [exact HL|done..|]. simpl. rewrite lookup_insert_eq. intros ? [= <-].
    simpl. specialize (Hs _ _ HA). rewrite Hl in *. rewrite list_add_before_Some.
    + by eapply split_sorted.
    + apply NoDup_app in Hnd as (_ & Hd & _). intros Hi. apply (Hd id Hi). by constructor.
  - intros p v HnP. rewrite (status_area s _ A) by done.
    rewrite (status_area _ _ A1) by done.
    eapply split_covers; try done; [|by intros ?; apply HnP, HP].
    intros i. simpl. apply elem_of_list_add_before.
Qed.

(** ** Pinning *)

(** A request: [pgend + 1] may equal [pgstart] ([len] truncated to zero). *)
Definition request (st en : Z) : Prop :=
  0 <= st < two64 /\ 0 <= en < two64 /\ st <= en + 1.

(** Some range of [l] that the request touches has lost its pages. *)
Definition hit_purged (s : ashmem) (l : list nat) (st en : Z) : Prop :=
  exists id r, id ∈ l /\ ranges s !! id = Some r /\
    range_before_page r st = false /\ page_range_in_range r st en = true /\
    purged r = ASHMEM_WAS_PURGED.

(** The caller's spare object after a call: still spare, or linked. *)
Definition spare (pend : gset nat) (n : nat) (new : option nat) : gset nat :=
  match new with Some _ => pend | None => pend ∖ {[n]} end.

Record pin_post (pend : gset nat) (a n : nat) (st en : Z) (l : list nat) (rv : Z)
    (s : ashmem) (rv' : Z) (new' : option nat) (s' : ashmem) : Prop := PinPost {
  pp_new : new' = Some n \/ new' = None;
  pp_narrowed : narrowed (spare pend n new') a (fun p => st <= p <= en) s s';
  pp_clear p v : st <= p <= en -> ~ status s' a p v;
  pp_rv : rv' = ASHMEM_NOT_PURGED \/ rv' = ASHMEM_WAS_PURGED;
  pp_hit : st <= en -> rv' = ASHMEM_WAS_PURGED <->
           rv = ASHMEM_WAS_PURGED \/ hit_purged s l st en
}.

(** Nothing of [l] meets the request: the loop is over. *)
Lemma pin_post_done pend a n st en l1 l rv s A :
  linked pend s -> sorted s -> areas s !! a = Some A -> unpinned_list A = l1 ++ l ->
  (forall id r, id ∈ l1 ++ l -> ranges s !! id = Some r -> en < pgstart r \/ pgend r < st) ->
  (forall id r, id ∈ l -> ranges s !! id = Some r -> pgend r < st) ->
  rv = ASHMEM_NOT_PURGED \/ rv = ASHMEM_WAS_PURGED ->
  pin_post pend a n st en l rv s rv (Some n) s.
Proof.
  intros HL Hs HA Hl Hclear Hbelow Hrv. split; try done; [by left| | |].
  - by apply narrowed_refl.
  - intros p v Hp. rewrite (status_area s _ A) by done. rewrite Hl.
    intros (id & Hid & r & Hr & ? & _). specialize (Hclear id r Hid Hr). lia.
  - intros Hse. split; [by left|]. intros [|(id & r & Hid & Hr & Hb & Hhit & _)]; [done|].
    specialize (Hbelow id r Hid Hr). bools. lia.
Qed.

Lemma hit_cons s id r l st en :
  ranges s !! id = Some r ->
  hit_purged s (id :: l) st en <->
  (range_before_page r st = false /\ page_range_in_range r st en = true /\
   purged r = ASHMEM_WAS_PURGED) \/ hit_purged s l st en.
Proof.
  intros Hr. unfold hit_purged. split.
  - intros (i & q & [->|]%elem_of_cons & ? & ? & ?); simplify_eq; eauto 10.
  - intros [(? & ? & ?)|(i & q & ? & ?)].
    + exists id, r. split; [constructor|by auto].
    + exists i, q. split; [by constructor|by auto].
Qed.

Lemma hit_ext s s' l st en :
  (forall i, i ∈ l -> ranges s' !! i = ranges s !! i) ->
  hit_purged s' l st en <-> hit_purged s l st en.
Proof.
  intros E. unfold hit_purged. split; intros (i & q & Hi & Hq & ?); exists i, q;
    (split; [done|]); [rewrite <- E|rewrite E]; done.
Qed.

Lemma lor_flag a b :
  (a = 0 \/ a = 1) -> (b = 0 \/ b = 1) ->
  (Z.lor a b = 0 \/ Z.lor a b = 1) /\ (Z.lor a b = 1 <-> a = 1 \/ b = 1).
Proof. intros [->| ->] [->| ->]; cbn; intuition lia. Qed.

(** One step of the loop on a range the request meets, then the rest. *)
Lemma pin_post_step pend a n st en id r l rv s s1 rv' new' s' :
  ranges s !! id = Some r -> range_before_page r st = false ->
  page_range_in_range r st en = true ->
  purged r = ASHMEM_NOT_PURGED \/ purged r = ASHMEM_WAS_PURGED ->
  rv = ASHMEM_NOT_PURGED \/ rv = ASHMEM_WAS_PURGED ->
  narrowed pend a (fun p => st <= p <= en) s s1 ->
  (forall i, i ∈ l -> ranges s1 !! i = ranges s !! i) ->
  pin_post pend a n st en l (Z.lor rv (purged r)) s1 rv' new' s' ->
  pin_post pend a n st en (id :: l) rv s rv' new' s'.
Proof.
  intros Hr Hb Hin Hpu Hrv Hn Hl [? ? ? ? Hh].
  split; [done| |done|done|].
  - by eapply narrowed_trans.
  - intros Hse. rewrite Hh, (hit_cons s id r), (hit_ext s s1), Hb, Hin by done.
    destruct (lor_flag rv (purged r) Hrv Hpu) as [_ E]. unfold ASHMEM_WAS_PURGED in *. tauto.
Qed.

(** The loop at range [id], with [l1] behind it and [l] ahead: what each
    branch of the body has established when it moves on. *)
Section pin_body.
Context (a n : nat) (st en : Z) (pend : gset nat) (s : ashmem) (A : ashmem_area)
  (l1 l : list nat) (id : nat) (r : ashmem_range) (rv : Z).
Context (Hreq : request st en) (HL : linked pend s) (Hs : sorted s)
  (HA : areas s !! a = Some A) (Hl : unpinned_list A = l1 ++ id :: l)
  (Hn : n ∈ pend) (Hr : ranges s !! id = Some r)
  (Hpre : forall i q, i ∈ l1 -> ranges s !! i = Some q -> en < pgstart q \/ pgend q < st)
  (Hrv : rv = ASHMEM_NOT_PURGED \/ rv = ASHMEM_WAS_PURGED).

Definition pinP (p : Z) : Prop := st <= p <= en.

Lemma body_facts :
  id ∈ unpinned_list A /\ (id ∉ pend) /\ asma r = a /\ range_ok r /\
  NoDup (l1 ++ id :: l) /\ (forall i, i ∈ l -> id <> i) /\
  (forall i q, i ∈ l -> ranges s !! i = Some q -> pgend q < pgstart r).
Proof.
  assert (Hid : id ∈ unpinned_list A) by (rewrite Hl, elem_of_app; right; constructor).
  destruct (linked_area _ _ HL _ _ _ HA Hid) as (Hp & r' & Hr' & Ha).
  simplify_eq. pose proof (linked_nodup _ _ HL _ _ HA) as Hnd. rewrite Hl in Hnd.
  split; [done|]. split; [done|]. split; [done|].
  split; [by apply (linked_range _ _ HL id r)|]. split; [done|]. split.
  - intros i Hi <-. apply NoDup_app in Hnd as (_ & _ & [? _]%NoDup_cons). done.
  - apply (sorted_around s l1 id l r); [|done]. rewrite <- Hl. by eapply Hs.
Qed.

Lemma body_del :
  page_range_subsumes_range r st en = true ->
  range_del id s = Some (tt, del_state id r A s) /\
  narrowed pend a pinP s (del_state id r A s) /\
  areas (del_state id r A s) !! a = Some (set_unpinned (l1 ++ l) A) /\
  (forall i, i ∈ l -> ranges (del_state id r A s) !! i = ranges s !! i) /\
  (forall i q, i ∈ l1 -> ranges (del_state id r A s) !! i = Some q ->
     en < pgstart q \/ pgend q < st).
Proof.
  intros Hsub. destruct body_facts as (Hid & Hp & Ha & _ & Hnd & Hne & _).
  assert (HAr : areas s !! asma r = Some A) by (by rewrite Ha).
  split; [by apply range_del_eq|]. split.
  { rewrite <- Ha. apply narrowed_del; try done. intros p ?. unfold pinP. bools. lia. }
  simpl. split; [|split].
  - by rewrite Ha, Hl, list_del_split, lookup_insert_eq.
  - intros i Hi. rewrite lookup_delete_ne; [done|by apply Hne].
  - intros i q Hi. rewrite lookup_delete. case_decide; [done|]. by apply Hpre.
Qed.

(** The two shrinking branches: [id] keeps the part above or below. *)
Lemma body_shrink st' en' :
  range_before_page r st = false -> page_range_in_range r st en = true ->
  page_range_subsumes_range r st en = false ->
  (st <= pgstart r /\ st' = en + 1 /\ en' = pgend r) \/
  (pgstart r < st /\ pgend r <= en /\ st' = pgstart r /\ en' = st - 1) ->
  let s1 := shrink_state id r st' en' s in
  range_shrink id st' en' s = Some (tt, s1) /\ is_u64 st' /\ is_u64 en' /\
  narrowed pend a pinP s s1 /\
  (forall i, i ∈ l -> ranges s1 !! i = ranges s !! i) /\
  (forall i q, i ∈ l1 ++ [id] -> ranges s1 !! i = Some q -> en < pgstart q \/ pgend q < st).
Proof.
  intros Hb Hin Hsub Hcase s1.
  destruct body_facts as (Hid & Hp & Ha & (? & ? & ? & ?) & Hnd & Hne & _).
  assert (HAr : areas s !! asma r = Some A) by (by rewrite Ha).
  destruct Hreq as (? & ? & ?).
  assert (Hok : range_ok (Range (asma r) st' en' (purged r))).
  { unfold range_ok; simpl. bools. repeat split; (lia || done). }
  split; [by apply range_shrink_eq|]. split; [unfold is_u64; bools; lia|].
  split; [unfold is_u64; bools; lia|]. split.
  { rewrite <- Ha. eapply narrowed_shrink; try done; unfold pinP; bools; intros; lia. }
  simpl. split.
  - intros i Hi. rewrite lookup_insert_ne; [done|by apply Hne].
  - intros i q Hi. rewrite lookup_insert. case_decide; intros Hq.
    + simplify_eq; simpl; bools; lia.
    + apply elem_of_app in Hi as [Hi| ->%list_elem_of_singleton]; [by eapply Hpre|done].
Qed.

Lemma body_hole :
  range_before_page r st = false -> page_range_in_range r st en = true ->
  pgstart r < st -> en < pgend r ->
  exists s1 s2, is_u64 (en + 1) /\ is_u64 (st - 1) /\
  range_alloc a (Some id) (purged r) (en + 1) (pgend r) (Some n) s = Some (None, s1) /\
  range_shrink id (pgstart r) (st - 1) s1 = Some (tt, s2) /\
  pin_post pend a n st en (id :: l) rv s (Z.lor rv (purged r)) None s2.
Proof.
  intros Hb Hin Hlo Hhi.
  destruct body_facts as (Hid & Hp & Ha & (? & ? & ? & Hpu) & Hnd & Hne & Hdn).
  destruct Hreq as (? & ? & Hse). assert (Hni : id <> n) by (intros ->; done).
  assert (HAr : areas s !! asma r = Some A) by (by rewrite Ha).
  do 2 eexists. split; [unfold is_u64; lia|]. split; [unfold is_u64; lia|].
  split; [by apply range_alloc_eq|]. split.
  { apply range_shrink_eq. simpl. by rewrite lookup_insert_ne. }
  pose proof (hole_split_at s id r n st en (Some id) A Hr Hni Hlo Hhi Hse) as HSP.
  rewrite <- Ha. split; [by right| | |by apply lor_flag|].
  - eapply narrowed_split; try done. lia.
  - intros p v Hpp. rewrite (status_area _ _ (set_unpinned _ A)) by (simpl; apply lookup_insert_eq).
    intros (i & Hi & Hc). simpl in Hi.
    destruct (split_inside _ _ _ _ _ _ _ _ _ _ HSP Hpp Hc) as (? & ? & q & Hq & ? & _).
    apply elem_of_list_add_before in Hi as [->|Hi]; [done|]. rewrite Hl in Hi.
    apply elem_of_app in Hi as [Hi|[->|Hi]%elem_of_cons]; [|done|].
    + specialize (Hpre i q Hi Hq). lia.
    + specialize (Hdn i q Hi Hq). lia.
  - intros _. rewrite (hit_cons s id r) by done.
    destruct (lor_flag rv (purged r) Hrv Hpu) as [_ ->]. rewrite Hb, Hin.
    assert (~ hit_purged s l st en); [|tauto].
    intros (i & q & Hi & Hq & Hbq & _). specialize (Hdn i q Hi Hq). bools. lia.
Qed.
End pin_body.

Lemma ashmem_pin_loop_spec a n st en : request st en -> forall l pend s l1 A rv,
  linked pend s -> sorted s -> areas s !! a = Some A -> unpinned_list A = l1 ++ l ->
  n ∈ pend ->
  (forall id r, id ∈ l1 -> ranges s !! id = Some r -> en < pgstart r \/ pgend r < st) ->
  rv = ASHMEM_NOT_PURGED \/ rv = ASHMEM_WAS_PURGED ->
  exists rv' new' s',
    ashmem_pin_loop a st en l rv (Some n) s = Some ((rv', new'), s') /\
    pin_post pend a n st en l rv s rv' new' s'.
Proof.
  intros Hreq. induction l as [|id l IH];
    intros pend s l1 A rv HL Hs HA Hl Hn Hpre Hrv; cbn [ashmem_pin_loop].
  { exists rv, (Some n), s. split; [done|]. eapply pin_post_done; try done.
    - by rewrite app_nil_r.
    - by intros ? ? ?%not_elem_of_nil. }
  assert (exists r, ranges s !! id = Some r) as [r Hr].
  { destruct (linked_area _ _ HL _ A id HA) as (_ & r & ? & _); [|by exists r].
    rewrite Hl, elem_of_app. right. constructor. }
  destruct (body_facts a pend s A l1 l id r HL Hs HA Hl Hr)
    as (Hid & Hp & Ha & (_ & ? & _ & Hpu) & _ & _ & Hdn).
  destruct (lor_flag rv (purged r) Hrv Hpu) as [Hrv' _].
  erewrite bind_eq by (by apply range_at_eq).
  destruct (range_before_page r st) eqn:Hb.
  { exists rv, (Some n), s. split; [done|]. bools.
    assert (Hbelow : forall i q, i ∈ id :: l -> ranges s !! i = Some q -> pgend q < st).
    { intros i q [->|Hi]%elem_of_cons Hq; [by simplify_eq|]. specialize (Hdn i q Hi Hq). lia. }
    eapply pin_post_done; try done.
    intros i q [Hi|Hi]%elem_of_app Hq; [by eapply Hpre|right; by eapply Hbelow]. }
  destruct (page_range_in_range r st en) eqn:Hin.
  2:{ destruct (IH pend s (l1 ++ [id]) A rv) as (rv' & new' & s' & E & HP); try done.
      - by rewrite <- app_assoc.
      - intros i q [Hi| ->%list_elem_of_singleton]%elem_of_app Hq; [by eapply Hpre|].
        simplify_eq. bools. destruct Hreq as (? & ? & ?). lia.
      - exists rv', new', s'. split; [done|]. destruct HP as [? ? ? ? Hh]. split; try done.
        intros ?. rewrite Hh, (hit_cons s id r), Hin by done. intuition congruence. }
  cbv zeta. destruct (page_range_subsumes_range r st en) eqn:Hsub; [|
    destruct (st <=? pgstart r) eqn:Hc2; [|destruct (pgend r <=? en) eqn:Hc3]].
  - destruct (body_del a st en pend s A l1 l id r) as (E1 & HN & HA1 & Ho & Hpre1); try done.
    erewrite bind_eq by exact E1.
    destruct (IH pend _ l1 _ (Z.lor rv (purged r)) (na_linked _ _ _ _ _ HN)
      (na_sorted _ _ _ _ _ HN) HA1) as (rv' & new' & s' & E & HP); try done.
    exists rv', new', s'. split; [done|]. by eapply pin_post_step.
  - destruct (body_shrink a st en pend s A l1 l id r) with (st' := en + 1) (en' := pgend r)
      as (E1 & Hu & _ & HN & Ho & Hpre1); try done; [left; bools; lia|].
    rewrite (u64_small _ Hu). erewrite bind_eq by exact E1.
    destruct (IH pend _ (l1 ++ [id]) A (Z.lor rv (purged r)) (na_linked _ _ _ _ _ HN)
      (na_sorted _ _ _ _ _ HN)) as (rv' & new' & s' & E & HP); try done; [by rewrite <- app_assoc|].
    exists rv', new', s'. split; [done|]. by eapply pin_post_step.
  - destruct (body_shrink a st en pend s A l1 l id r) with (st' := pgstart r) (en' := st - 1)
      as (E1 & _ & Hu & HN & Ho & Hpre1); try done; [right; bools; lia|].
    rewrite (u64_small _ Hu). erewrite bind_eq by exact E1.
    destruct (IH pend _ (l1 ++ [id]) A (Z.lor rv (purged r)) (na_linked _ _ _ _ _ HN)
      (na_sorted _ _ _ _ _ HN)) as (rv' & new' & s' & E & HP); try done; [by rewrite <- app_assoc|].
    exists rv', new', s'. split; [done|]. by eapply pin_post_step.
  - bools. destruct (body_hole a n st en pend s A l1 l id r rv)
      as (s1 & s2 & Hu1 & Hu2 & E1 & E2 & HP); try done; [by bools..|].
    rewrite (u64_small _ Hu1), (u64_small _ Hu2).
    erewrite bind_eq by exact E1. erewrite bind_eq by exact E2.
    by exists (Z.lor rv (purged r)), None, s2.
Qed.

(** [ashmem_pin] returns, keeps the invariants, makes exactly the requested
    pages pinned, and reports a purge exactly when it met a purged range. *)
Lemma ashmem_pin_ok a n st en pend s A :
  request st en -> linked pend s -> sorted s -> areas s !! a = Some A -> n ∈ pend ->
  exists rv new' s',
    ashmem_pin a st en (Some n) s = Some ((rv, new'), s') /\
    pin_post pend a n st en (unpinned_list A) ASHMEM_NOT_PURGED s rv new' s'.
Proof.
  intros Hreq HL Hs HA Hn. unfold ashmem_pin.
  erewrite bind_eq by (by apply area_at_eq).
  apply (ashmem_pin_loop_spec a n st en Hreq) with (l1 := []) (A := A); try done; [|by left].
  by intros ? ? ?%not_elem_of_nil.
Qed.

Lemma pin_post_status pend a n st en l rv s rv' new' s' p v :
  pin_post pend a n st en l rv s rv' new' s' ->
  status s' a p v <-> status s a p v /\ ~ st <= p <= en.
Proof.
  intros [_ [_ _ _ Hn] Hc _ _]. destruct (decide (st <= p <= en)) as [Hp|Hp].
  - specialize (Hc p v Hp). tauto.
  - specialize (Hn p v Hp). tauto.
Qed.

(** ** Unpinning *)

(** The pass stops where the request belongs. *)
Inductive scan_post (s : ashmem) (st en : Z) (l : list nat) : unpin_scan_result -> Prop :=
  | scan_insert l1 l2 :
      l = l1 ++ l2 ->
      (forall i q, i ∈ l1 -> ranges s !! i = Some q -> en < pgstart q) ->
      (forall i q, i ∈ l2 -> ranges s !! i = Some q -> pgend q < st) ->
      scan_post s st en l (ScanInsert (head l2))
  | scan_covered id r :
      id ∈ l -> ranges s !! id = Some r -> pgstart r <= st -> en <= pgend r ->
      scan_post s st en l ScanCovered
  | scan_merge id r :
      id ∈ l -> ranges s !! id = Some r -> page_range_in_range r st en = true ->
      scan_post s st en l (ScanMerge id r).

Lemma unpin_scan_spec s st en : request st en -> forall l l1,
  area_sorted s (l1 ++ l) ->
  (forall i, i ∈ l1 ++ l -> exists r, ranges s !! i = Some r /\ range_ok r) ->
  (forall i q, i ∈ l1 -> ranges s !! i = Some q -> en < pgstart q) ->
  exists res, unpin_scan st en l s = Some (res, s) /\ scan_post s st en (l1 ++ l) res.
Proof.
  intros (Hst & Hen & Hse). induction l as [|id l IH]; intros l1 HS Hok Hpre; cbn [unpin_scan].
  { eexists. split; [done|]. apply (scan_insert _ _ _ _ l1 []); try done.
    by intros ? ? ?%not_elem_of_nil. }
  assert (Hid : id ∈ l1 ++ id :: l) by (rewrite elem_of_app; right; constructor).
  destruct (Hok id Hid) as (r & Hr & ? & ? & ? & ?).
  destruct (sorted_around s l1 id l r HS Hr) as [_ Hdn].
  erewrite bind_eq by (by apply range_at_eq).
  destruct (range_before_page r st) eqn:Hb.
  { eexists. split; [done|]. apply (scan_insert _ _ _ _ l1 (id :: l)); try done.
    bools. intros i q [->|Hi]%elem_of_cons Hq; [by simplify_eq|].
    specialize (Hdn i q Hi Hq). lia. }
  destruct (page_range_subsumed_by_range r st en) eqn:Hc.
  { eexists. split; [done|]. bools. destruct Hc. by apply (scan_covered _ _ _ _ id r). }
  destruct (page_range_in_range r st en) eqn:Hin.
  { eexists. split; [done|]. by apply (scan_merge _ _ _ _ id r). }
  rewrite (cons_middle id l1 l), app_assoc in HS, Hok |- *. apply IH; [done..|].
  intros i q [Hi| ->%list_elem_of_singleton]%elem_of_app Hq; [by eapply Hpre|].
  simplify_eq. bools. lia.
Qed.

Record unpin_post (pend : gset nat) (a n : nat) (st en pu : Z) (s : ashmem)
    (new' : option nat) (s' : ashmem) : Prop := UnpinPost {
  up_new : new' = Some n \/ new' = None;
  up_linked : linked (spare pend n new') s';
  up_sorted : sorted s';
  up_only : only_area a s s';
  up_pages p : unpinned s' a p <-> unpinned s a p \/ st <= p <= en;
  up_purged p : status s a p ASHMEM_WAS_PURGED \/
      (pu = ASHMEM_WAS_PURGED /\ st <= p <= en /\ ~ unpinned s a p) ->
    status s' a p ASHMEM_WAS_PURGED
}.

Lemma unpinned_area s a A p :
  areas s !! a = Some A ->
  unpinned s a p <-> exists id r, id ∈ unpinned_list A /\ ranges s !! id = Some r /\
    pgstart r <= p <= pgend r.
Proof.
  intros HA. unfold unpinned. split.
  - intros (v & (id & Hid & r & ? & ? & ?)%(status_area _ _ A)); [eauto 8|done].
  - intros (id & r & ? & ? & ?). exists (purged r). apply (status_area _ _ A); [done|].
    exists id. split; [done|]. by exists r.
Qed.

(** Linking the new range at the insertion point. *)
Lemma unpin_insert pend a n st en pu s A l1 l2 :
  request st en -> pu = ASHMEM_NOT_PURGED \/ pu = ASHMEM_WAS_PURGED ->
  linked pend s -> sorted s -> areas s !! a = Some A -> is_Some (file A) -> n ∈ pend ->
  unpinned_list A = l1 ++ l2 ->
  (forall i q, i ∈ l1 -> ranges s !! i = Some q -> en < pgstart q) ->
  (forall i q, i ∈ l2 -> ranges s !! i = Some q -> pgend q < st) ->
  unpin_post pend a n st en pu s None (alloc_state a (head l2) pu st en n A s).
Proof.
  intros (Hst & Hen & Hse) Hpu HL Hs HA Hf Hn Hl Hup Hdn.
  set (s' := alloc_state a (head l2) pu st en n A s).
  assert (HN : n ∉ unpinned_list A) by (intros HN; by destruct (linked_area _ _ HL _ _ _ HA HN)).
  pose proof (linked_nodup _ _ HL _ _ HA) as Hnd.
  assert (Hl' : list_add_before (head l2) n (unpinned_list A) = l1 ++ n :: l2).
  { rewrite Hl in Hnd |- *. destruct l2 as [|i l2]; simpl.
    - by rewrite list_add_before_None, app_nil_r.
    - apply list_add_before_Some. apply NoDup_app in Hnd as (_ & Hd & _).
      intros Hi. apply (Hd i Hi). constructor. }
  assert (HA' : areas s' !! a = Some (set_unpinned (l1 ++ n :: l2) A)).
  { simpl. rewrite Hl'. apply lookup_insert_eq. }
  assert (Hn' : ranges s' !! n = Some (Range a st en pu)) by (simpl; apply lookup_insert_eq).
  assert (Ho' : forall i, i ∈ l1 ++ l2 -> ranges s' !! i = ranges s !! i).
  { intros i Hi. simpl. rewrite lookup_insert_ne; [done|]. intros ->. rewrite <- Hl in Hi. done. }
  assert (Ho : only_area a s s') by (by apply (only_area_alloc pend)).
  assert (Hcov : forall p v, status s' a p v <->
            status s a p v \/ (st <= p <= en /\ pu = v)).
  { intros p v. rewrite (status_area s' _ _ _ _ HA'), (status_area s _ _ _ _ HA), Hl. simpl.
    split.
    - intros (i & Hi & q & Hq & Hpq & Hv). rewrite elem_of_app, elem_of_cons in Hi.
      destruct (decide (i = n)) as [->|]; [rewrite Hn' in Hq; simplify_eq; by right|].
      left. exists i. rewrite elem_of_app. split; [tauto|]. exists q.
      rewrite <- Ho'; [done|]. rewrite elem_of_app. tauto.
    - intros [(i & Hi & q & Hq & Hpq)|[? <-]].
      + exists i. rewrite elem_of_app, elem_of_cons in *. split; [tauto|]. exists q.
        rewrite Ho'; [done|]. by rewrite elem_of_app.
      + exists n. rewrite elem_of_app, elem_of_cons. split; [tauto|]. by eexists. }
  split; [by right| | |done| |].
  - apply linked_alloc; try done. unfold range_ok; simpl. repeat split; (lia || done).
  - eapply sorted_only_area; [exact HL|done..|]. rewrite HA'. intros ? [= <-]. simpl.
    specialize (Hs _ _ HA). rewrite Hl in Hs.
    assert (HS : area_sorted s' (l1 ++ l2)).
    { eapply area_sorted_sub; [exact Hs|done|]. intros i q Hi. rewrite Ho' by done.
      intros ?. exists q. split; [done|lia]. }
    apply StronglySorted_app in HS as (HS1 & HS2 & HS3).
    apply StronglySorted_app. split; [|split; [done|apply StronglySorted_cons; split; [|done]]].
    + intros i j Hi [->|Hj]%elem_of_cons; [|by apply HS1].
      intros q1 q2 Hq1 Hq2. rewrite Hn' in Hq2. simplify_eq. simpl.
      rewrite Ho' in Hq1 by (rewrite elem_of_app; tauto). by eapply Hup.
    + apply Forall_forall. intros j Hj q1 q2 Hq1 Hq2. rewrite Hn' in Hq1. simplify_eq. simpl.
      rewrite Ho' in Hq2 by (rewrite elem_of_app; tauto). by eapply Hdn.
  - intros p. unfold unpinned. setoid_rewrite Hcov. split.
    + intros (v & [?|[? _]]); [left; by exists v|by right].
    + intros [[v ?]|?]; [exists v; by left|exists pu; by right].
  - intros p. rewrite Hcov. tauto.
Qed.

(** Absorbing range [id] into the request. *)
Lemma unpin_merge pend a n st en pu s A id r new' s' :
  request st en -> linked pend s -> sorted s -> areas s !! a = Some A ->
  id ∈ unpinned_list A -> ranges s !! id = Some r -> page_range_in_range r st en = true ->
  pu = ASHMEM_NOT_PURGED \/ pu = ASHMEM_WAS_PURGED ->
  unpin_post pend a n (Z.min (pgstart r) st) (Z.max (pgend r) en) (Z.lor pu (purged r))
    (del_state id r A s) new' s' ->
  unpin_post pend a n st en pu s new' s'.
Proof.
  intros (Hst & Hen & Hse) HL Hs HA Hid Hr Hin Hpu [Hnew HL' Hs' Ho' Hpages Hpurged].
  destruct (linked_area _ _ HL _ _ _ HA Hid) as (Hp & r' & Hr' & Ha). simplify_eq.
  destruct (linked_range _ _ HL id r Hr Hp) as ((Hr0 & Hr1 & Hr2 & Hrp) & _).
  assert (HN : narrowed pend (asma r) (fun p => pgstart r <= p <= pgend r) s (del_state id r A s))
    by (by apply narrowed_del).
  assert (Hgone : forall p, pgstart r <= p <= pgend r -> ~ unpinned (del_state id r A s) (asma r) p).
  { intros p Hpr. rewrite unpinned_area; [|simpl; apply lookup_insert_eq].
    intros (i & q & [Hne Hi]%elem_of_list_del & Hq & Hpq). simpl in Hq.
    rewrite lookup_delete_ne in Hq by done.
    destruct (list_elem_of_split _ _ Hid) as (l1 & l2 & El).
    specialize (Hs _ _ HA). rewrite El in Hs, Hi.
    destruct (sorted_around s l1 id l2 r Hs Hr) as [Hup Hdn].
    apply elem_of_app in Hi as [Hi|[->|Hi]%elem_of_cons]; [|done|].
    - specialize (Hup i q Hi Hq). lia.
    - specialize (Hdn i q Hi Hq). lia. }
  assert (Hhull : forall p, Z.min (pgstart r) st <= p <= Z.max (pgend r) en <->
                  st <= p <= en \/ pgstart r <= p <= pgend r) by (intros p; bools; lia).
  destruct HN as [_ _ Ho Hst'].
  assert (Hinr : forall p, pgstart r <= p <= pgend r -> status s (asma r) p (purged r)).
  { intros p ?. apply (status_area s _ A); [done|]. exists id. split; [done|]. by exists r. }
  assert (Hkeep : forall p, ~ pgstart r <= p <= pgend r ->
            unpinned (del_state id r A s) (asma r) p <-> unpinned s (asma r) p).
  { intros p Hpr. unfold unpinned. by setoid_rewrite Hst'. }
  destruct (lor_flag pu (purged r) Hpu Hrp) as [_ Hlor].
  split; try done; [by eapply only_area_trans| |].
  - intros p. rewrite Hpages, Hhull.
    destruct (decide (pgstart r <= p <= pgend r)) as [Hpr|Hpr].
    + specialize (Hinr p Hpr). split; [|tauto]. intros _. left. by eexists.
    + rewrite Hkeep by done. tauto.
  - intros p HH. apply Hpurged. rewrite Hhull.
    destruct (decide (pgstart r <= p <= pgend r)) as [Hpr|Hpr].
    + right. split; [|by auto]. apply Hlor. destruct HH as [HH|(? & _ & HH)]; [|by destruct HH; eexists; apply Hinr].
      right. apply (status_area s _ A) in HH as (i & Hi & q & Hq & Hpq & Hv); [|done].
      destruct (decide (i = id)) as [->|Hne]; [by simplify_eq|].
      exfalso. apply (Hgone p Hpr). rewrite unpinned_area; [|simpl; apply lookup_insert_eq].
      exists i, q. simpl. rewrite elem_of_list_del, lookup_delete_ne; done.
    + rewrite Hst', Hkeep by done. unfold ASHMEM_WAS_PURGED in *. tauto.
Qed.

Lemma ashmem_unpin_loop_spec a n pend : n ∈ pend -> forall fuel s A st en pu,
  request st en -> pu = ASHMEM_NOT_PURGED \/ pu = ASHMEM_WAS_PURGED ->
  linked pend s -> sorted s -> areas s !! a = Some A -> is_Some (file A) ->
  (length (unpinned_list A) < fuel)%nat ->
  exists new' s',
    ashmem_unpin_loop fuel a st en pu (Some n) s = Some ((0, new'), s') /\
    unpin_post pend a n st en pu s new' s'.
Proof.
  intros Hn. induction fuel as [|fuel IH]; intros s A st en pu Hreq Hpu HL Hs HA Hf Hlen; [lia|].
  cbn [ashmem_unpin_loop]. erewrite bind_eq by (by apply area_at_eq).
  destruct (unpin_scan_spec s st en Hreq (unpinned_list A) []) as (res & E & HP).
  { by eapply Hs. }
  { intros i Hi. destruct (linked_area _ _ HL _ _ _ HA Hi) as (Hp & r & Hr & _).
    exists r. split; [done|]. by apply (linked_range _ _ HL i r). }
  { by intros ? ? ?%not_elem_of_nil. }
  erewrite bind_eq by exact E. simpl in HP. inversion HP as [l1 l2 El Hup Hdn|id r Hid Hr ? ?|id r Hid Hr Hin]; subst.
  - erewrite bind_eq by (by apply range_alloc_eq). do 2 eexists. split; [reflexivity|].
    by eapply unpin_insert.
  - exists (Some n), s. split; [reflexivity|]. split; try done.
    + by left.
    + apply only_area_refl.
    + intros p. split; [tauto|]. intros [?|Hp]; [done|]. apply (unpinned_area s a A p HA).
      exists id, r. split; [done|]. split; [done|lia].
    + intros p [?|(_ & Hp & Hnu)]; [done|]. exfalso. apply Hnu, (unpinned_area s a A p HA).
      exists id, r. split; [done|]. split; [done|lia].
  - destruct (linked_area _ _ HL _ _ _ HA Hid) as (Hp & r' & Hr' & Ha). simplify_eq.
    erewrite bind_eq by (by apply range_del_eq).
    destruct (linked_range _ _ HL id r Hr Hp) as ((? & ? & ? & Hrp) & _).
    destruct (lor_flag pu (purged r) Hpu Hrp) as [Hlor _].
    assert (HN : narrowed pend (asma r) (fun p => pgstart r <= p <= pgend r) s (del_state id r A s))
      by (by apply narrowed_del).
    destruct (IH (del_state id r A s) (set_unpinned (list_del id (unpinned_list A)) A)
      (Z.min (pgstart r) st) (Z.max (pgend r) en) (Z.lor pu (purged r)))
      as (new' & s' & E' & HP'); try apply HN; try done.
    + destruct Hreq as (? & ? & ?). unfold request. lia.
    + simpl. apply lookup_insert_eq.
    + simpl. destruct (list_elem_of_split _ _ Hid) as (l1 & l2 & El).
      pose proof (linked_nodup _ _ HL _ _ HA) as Hnd. rewrite El in *.
      rewrite list_del_split by done. rewrite length_app in *. simpl in *. lia.
    + exists new', s'. split; [done|]. by eapply unpin_merge.
Qed.

(** [ashmem_unpin] terminates without running out of passes, keeps the
    invariants, unpins exactly the requested pages, and never forgets a purge. *)
Lemma ashmem_unpin_ok a n st en pend s A :
  request st en -> linked pend s -> sorted s -> areas s !! a = Some A ->
  is_Some (file A) -> n ∈ pend ->
  exists new' s',
    ashmem_unpin a st en (Some n) s = Some ((0, new'), s') /\
    unpin_post pend a n st en ASHMEM_NOT_PURGED s new' s'.
Proof.
  intros Hreq HL Hs HA Hf Hn. unfold ashmem_unpin.
  erewrite bind_eq by (by apply area_at_eq).
  eapply ashmem_unpin_loop_spec; try done; [by left|lia].
Qed.

(** ** The status query *)
Lemma ashmem_get_pin_status_ok a st en pend s A :
  st <= en -> linked pend s -> sorted s -> areas s !! a = Some A ->
  exists rv, ashmem_get_pin_status a st en s = Some (rv, s) /\
    (rv = ASHMEM_IS_PINNED \/ rv = ASHMEM_IS_UNPINNED) /\
    ((exists p, st <= p <= en /\ unpinned s a p) -> rv = ASHMEM_IS_UNPINNED) /\
    (rv = ASHMEM_IS_UNPINNED -> exists id r, id ∈ unpinned_list A /\
       ranges s !! id = Some r /\ page_range_in_range r st en = true).
Proof.
  intros Hse HL Hs HA. unfold ashmem_get_pin_status.
  erewrite bind_eq by (by apply area_at_eq).
  setoid_rewrite (unpinned_area s a A _ HA).
  assert (HS := Hs _ _ HA).
  assert (Hok : forall i, i ∈ unpinned_list A -> exists r, ranges s !! i = Some r /\ range_ok r).
  { intros i Hi. destruct (linked_area _ _ HL _ _ _ HA Hi) as (Hp & r & Hr & _).
    exists r. split; [done|]. by apply (linked_range _ _ HL i r). }
  clear HL Hs HA. induction (unpinned_list A) as [|id l IH]; cbn [ashmem_get_pin_status_loop].
  { eexists. split; [done|]. split; [by left|]. split.
    - by intros (p & _ & ? & ? & ?%not_elem_of_nil & _).
    - done. }
  destruct (Hok id) as (r & Hr & ? & ? & ? & ?); [constructor|].
  destruct (sorted_around s [] id l r HS Hr) as [_ Hdn].
  erewrite bind_eq by (by apply range_at_eq).
  destruct (range_before_page r st) eqn:Hb.
  { eexists. split; [done|]. split; [by left|]. split; [|done].
    intros (p & ? & i & q & [->|Hi]%elem_of_cons & Hq & ?); bools.
    - simplify_eq. lia.
    - specialize (Hdn i q Hi Hq). lia. }
  destruct (page_range_in_range r st en) eqn:Hin.
  { eexists. split; [done|]. split; [by right|]. split; [done|]. intros _.
    exists id, r. split; [constructor|done]. }
  apply StronglySorted_cons in HS as [_ HS]. destruct IH as (rv & E & ? & Hu & Hd); [done| |].
  { intros i Hi. apply Hok. by constructor. }
  exists rv. split; [done|]. split; [done|]. split.
  - intros (p & ? & i & q & [->|Hi]%elem_of_cons & Hq & ?); [simplify_eq; bools; lia|].
    apply Hu. exists p. split; [done|]. by exists i, q.
  - intros ?. destruct Hd as (i & q & ? & ?); [done|]. exists i, q. split; [by constructor|done].
Qed.
