(* ===== verification/AshmemDev.v ===== *)
(** * ashmem: the device's file operations (ashmem/ashmem.c)

    [ashmem_open], [ashmem_release], [ashmem_mmap], [ashmem_read_iter],
    [ashmem_llseek], the ioctls, the shrinker callbacks and the debugfs
    statistics, each as the code that runs under [ashmem_mutex].  What the
    kernel decides (an allocation, a user copy, [shmem_file_setup], the
    capabilities of the caller) is an argument of the handler that asks for
    it; the flag macros of the memory manager are the record [mm_env]. *)

From Stdlib Require Import ZArith Lia String Ascii.
From stdpp Require Import base option gmap sets list.
From S2P Require Import Prelude AshmemRange.
Open Scope Z_scope.

(** ** Constants *)
Definition ASHMEM_NAME_LEN : Z := 256.
Definition bytes_of_string (s : string) : list Z :=
  map (fun c => Z.of_N (N_of_ascii c)) (list_ascii_of_string s).
Definition ASHMEM_NAME_DEF : list Z := bytes_of_string "dev/ashmem".
Definition ASHMEM_NAME_PREFIX : list Z := bytes_of_string "dev/ashmem/".
Definition ASHMEM_NAME_PREFIX_LEN : Z := Z.of_nat (length ASHMEM_NAME_PREFIX).
Definition ASHMEM_FULL_NAME_LEN : Z := ASHMEM_NAME_LEN + ASHMEM_NAME_PREFIX_LEN.

Definition PROT_READ : Z := 1.
Definition PROT_WRITE : Z := 2.
Definition PROT_EXEC : Z := 4.
Definition PROT_MASK : Z := Z.lor PROT_EXEC (Z.lor PROT_READ PROT_WRITE).

(** ** C strings in byte arrays *)

(** [strlen]: the index of the first NUL; reading past the array is an oops. *)
Fixpoint c_strlen (l : list Z) : option nat :=
  match l with
  | [] => None
  | b :: l' => if b =? 0 then Some O else S <$> c_strlen l'
  end.

(** [memcpy(dst + off, src, n)] inside the array [dst]. *)
Definition c_memcpy (dst : list Z) (off : nat) (src : list Z) (n : nat) : option (list Z) :=
  if decide (n <= length src /\ off + n <= length dst)%nat
  then Some (take off dst ++ take n src ++ drop (off + n) dst) else None.

(** [strcpy(dst + off, src)]. *)
Definition c_strcpy (dst : list Z) (off : nat) (src : list Z) : option (list Z) :=
  n ← c_strlen src; c_memcpy dst off src (S n).

(** ** Open and release *)

Definition set_file (f : option nat) (A : ashmem_area) : ashmem_area :=
  Area (name A) (unpinned_list A) f (size A) (prot_mask A) (backing A).
Definition set_size (n : Z) (A : ashmem_area) : ashmem_area :=
  Area (name A) (unpinned_list A) (file A) n (prot_mask A) (backing A).
Definition set_prot (p : Z) (A : ashmem_area) : ashmem_area :=
  Area (name A) (unpinned_list A) (file A) (size A) p (backing A).
Definition set_area_name (l : list Z) (A : ashmem_area) : ashmem_area :=
  Area l (unpinned_list A) (file A) (size A) (prot_mask A) (backing A).

Definition update_area (a : nat) (A : ashmem_area) : M ashmem unit :=
  modify (fun s => set_areas (<[a := A]> (areas s)) s).

Definition update_file (f : nat) (F : vmfile) : M ashmem unit :=
  modify (fun s => set_files (<[f := F]> (files s)) s).

Definition file_at (f : nat) : M ashmem vmfile :=
  let! s := get in deref (files s !! f).

(** [get_file]/[fput]: take or drop a reference. *)
Definition get_file (f : nat) : M ashmem unit :=
  let! F := file_at f in
  update_file f (VmFile (f_count F + 1) (f_mode_lseek F) (f_op_overridden F) (f_pos F)).
Definition fput (f : nat) : M ashmem unit :=
  let! F := file_at f in
  update_file f (VmFile (f_count F - 1) (f_mode_lseek F) (f_op_overridden F) (f_pos F)).

(** A zeroed [struct ashmem_area] with the prefix copied in. *)
Definition new_area (ashmem_backing_mode : Z) : ashmem_area :=
  Area (ASHMEM_NAME_PREFIX ++ replicate (Z.to_nat ASHMEM_NAME_LEN) 0) [] None 0 PROT_MASK
    (if ashmem_backing_mode =? 1 then ASHMEM_BACKING_MEMFD else ASHMEM_BACKING_SHMEM).

(** [open_ret] is [generic_file_open]'s result, [zalloc] the slab object. *)
Definition ashmem_open (ashmem_backing_mode open_ret : Z) (zalloc : option nat) : M ashmem Z :=
  if negb (open_ret =? 0) then ret open_ret
  else match zalloc with
  | None => ret (- ENOMEM)
  | Some a =>
    update_area a (new_area ashmem_backing_mode) ;!
    modify (fun s => set_area_list (ashmem_area_list s ++ [a]) s) ;!
    ret 0
  end.

Fixpoint range_del_all (l : list nat) : M ashmem unit :=
  match l with
  | [] => ret tt
  | id :: l' => range_del id ;! range_del_all l'
  end.

Definition ashmem_release (a : nat) : M ashmem Z :=
  let! A := area_at a in
  modify (fun s => set_area_list (list_del a (ashmem_area_list s)) s) ;!
  range_del_all (unpinned_list A) ;!
  (match file A with Some f => fput f | None => ret tt end) ;!
  modify (fun s => set_areas (delete a (areas s)) s) ;!
  ret 0.

(** ** Read and seek

    [vfs] is what [vfs_iter_read] returns with the new [ki_pos], or what
    [vfs_llseek] returns with the backing file's new position. *)
Definition ashmem_read_iter (a : nat) (vfs : Z * Z) : M ashmem Z :=
  let! A := area_at a in
  if size A =? 0 then ret 0
  else match file A with
  | None => ret (- EBADF)
  | Some f =>
    let '(r, ki_pos) := vfs in
    let r := s32 r in
    if 0 <? r then
      let! F := file_at f in
      update_file f (VmFile (f_count F) (f_mode_lseek F) (f_op_overridden F) ki_pos) ;!
      ret r
    else ret r
  end.

(** The second component is the ashmem file's own new position, if set. *)
Definition ashmem_llseek (a : nat) (vfs : Z * Z) : M ashmem (Z * option Z) :=
  let! A := area_at a in
  if size A =? 0 then ret (- EINVAL, None)
  else match file A with
  | None => ret (- EBADF, None)
  | Some f =>
    let! F := file_at f in
    let '(r, pos) := vfs in
    update_file f (VmFile (f_count F) (f_mode_lseek F) (f_op_overridden F) pos) ;!
    if r <? 0 then ret (r, None)
    else let! F := file_at f in ret (r, Some (f_pos F))
  end.

(** ** mmap *)

(** The memory manager's flag macros, and whether the kernel is at least 6.3
    (the test of ashmem/compat.h around [compat_vm_flags_clear]). *)
Record mm_env := MmEnv {
  calc_vm_prot_bits : Z -> Z -> Z;
  calc_vm_trans : Z -> Z -> Z -> Z;
  VM_READ : Z; VM_WRITE : Z; VM_EXEC : Z; VM_SHARED : Z;
  VM_MAYREAD : Z; VM_MAYWRITE : Z; VM_MAYEXEC : Z; VM_NORESERVE : Z;
  linux_ge_6_3 : bool
}.

Record vm_area_struct := Vma {
  vm_start : Z;
  vm_end : Z;
  vm_flags : Z;
  vm_file : option nat;
  vm_anonymous : bool
}.

Section mm.
Context (E : mm_env).

Definition calc_vm_may_flags (prot : Z) : Z :=
  Z.lor (Z.lor (calc_vm_trans E prot PROT_READ (VM_MAYREAD E))
               (calc_vm_trans E prot PROT_WRITE (VM_MAYWRITE E)))
        (calc_vm_trans E prot PROT_EXEC (VM_MAYEXEC E)).

(** The two definitions of ashmem/compat.h. *)
Definition compat_vm_flags_clear (vma : vm_area_struct) (flags : Z) : vm_area_struct :=
  if linux_ge_6_3 E
  then Vma (vm_start vma) (vm_end vma) (Z.land (vm_flags vma) (not64 flags))
           (vm_file vma) (vm_anonymous vma)
  else vma.

Definition ashmem_vmfile_mmap : Z := - EPERM.

(** The arguments [ashmem_create_backing_file] passes to [shmem_file_setup]. *)
Definition ashmem_create_backing_file (A : ashmem_area) (flags : Z) : list Z * Z * Z :=
  let nm := if default 0 (name A !! Z.to_nat ASHMEM_NAME_PREFIX_LEN) =? 0
            then ASHMEM_NAME_DEF else name A in
  match backing A with
  | ASHMEM_BACKING_MEMFD => (nm, size A, VM_NORESERVE E)
  | ASHMEM_BACKING_SHMEM => (nm, size A, flags)
  end.

(** [shmem_file_setup] gives a new file or an error; [zero_setup] is
    [shmem_zero_setup]'s result (with the file it attaches to the vma). *)
Definition ashmem_mmap (a : nat) (vma : vm_area_struct)
    (shmem_file_setup : list Z * Z * Z -> nat + Z) (zero_setup : Z * option nat)
    : M ashmem (Z * vm_area_struct) :=
  let! A := area_at a in
  if size A =? 0 then ret (- EINVAL, vma)
  else if PAGE_ALIGN (size A) <? u64 (vm_end vma - vm_start vma) then ret (- EINVAL, vma)
  else if negb (Z.land (Z.land (vm_flags vma) (not64 (calc_vm_prot_bits E (prot_mask A) 0)))
                       (calc_vm_prot_bits E PROT_MASK 0) =? 0)
  then ret (- EPERM, vma)
  else
    let vma := compat_vm_flags_clear vma (calc_vm_may_flags (not64 (prot_mask A))) in
    let! r :=
      match file A with
      | Some f => ret (inl f)
      | None =>
        match shmem_file_setup (ashmem_create_backing_file A (vm_flags vma)) with
        | inr err => ret (inr err)
        | inl f =>
          update_file f (VmFile 1 true true 0) ;!
          update_area a (set_file (Some f) A) ;!
          ret (inl f)
        end
      end in
    match r with
    | inr err => ret (err, vma)
    | inl f =>
      get_file f ;!
      let attach (vma : vm_area_struct) : M ashmem (Z * vm_area_struct) :=
        (match vm_file vma with
         | Some g => let! s := get in
             match files s !! g with Some _ => fput g | None => ret tt end
         | None => ret tt
         end) ;!
        ret (0, Vma (vm_start vma) (vm_end vma) (vm_flags vma) (Some f) (vm_anonymous vma)) in
      if negb (Z.land (vm_flags vma) (VM_SHARED E) =? 0) then
        let '(zr, zfile) := zero_setup in
        if negb (zr =? 0) then fput f ;! ret (zr, vma)
        else attach (Vma (vm_start vma) (vm_end vma) (vm_flags vma) zfile (vm_anonymous vma))
      else attach (Vma (vm_start vma) (vm_end vma) (vm_flags vma) (vm_file vma) true)
    end.
End mm.

(** ** The shrinker *)

Definition SHRINK_STOP : Z := two64 - 1.

(** A hole punched in a backing file: [f->f_op->fallocate(f, PUNCH_HOLE |
    KEEP_SIZE, start, len)]. *)
Record punch := Punch { punch_file : nat; punch_start : Z; punch_len : Z }.

(** The part of one iteration that runs under the mutex: take the least
    recently unpinned range off the LRU and mark it purged. *)
Definition shrink_take : M ashmem (option (punch * Z)) :=
  let! s := get in
  match ashmem_lru_list s with
  | [] => ret None
  | id :: _ =>
    let! range := range_at id in
    let start := s64 (u64 (pgstart range * PAGE_SIZE)) in
    let end_ := s64 (u64 (u64 (pgend range + 1) * PAGE_SIZE)) in
    let! A := area_at (asma range) in
    let! f := deref (file A) in
    get_file f ;!
    modify (fun s => set_inflight (ashmem_shrink_inflight s + 1) s) ;!
    let range' := Range (asma range) (pgstart range) (pgend range) ASHMEM_WAS_PURGED in
    modify (fun s => set_ranges (<[id := range']> (ranges s)) s) ;!
    lru_del id ;!
    ret (Some (Punch f start (s64 (end_ - start)), range_size range'))
  end.

(** The rest of the iteration, after the hole has been punched without the
    mutex. *)
Definition shrink_finish (p : punch) : M ashmem unit :=
  fput (punch_file p) ;!
  modify (fun s => set_inflight (ashmem_shrink_inflight s - 1) s).

(** The scan with no other thread running in its unlocked windows.  [relock i]
    is the outcome of the [i]-th [mutex_trylock] in the loop; [nr_to_scan] is
    an unsigned counter.  Every iteration takes a range off the LRU, so [fuel]
    one above its length is enough. *)
Fixpoint shrink_loop (fuel : nat) (relock : nat -> bool) (i : nat) (nr_to_scan freed : Z)
    (done_ : list punch) : M ashmem (Z * list punch) :=
  match fuel with
  | O => oops
  | S fuel =>
    let! t := shrink_take in
    match t with
    | None => ret (freed, done_)
    | Some (p, pages) =>
      let freed := u64 (freed + pages) in
      let done_ := done_ ++ [p] in
      shrink_finish p ;!
      if negb (relock i) then ret (freed, done_)
      else let nr := u64 (nr_to_scan - 1) in
           if nr <=? 0 then ret (freed, done_)
           else shrink_loop fuel relock (S i) nr freed done_
    end
  end.

Definition ashmem_shrink_scan (gfp_fs lock : bool) (relock : nat -> bool) (nr_to_scan : Z)
    : M ashmem (Z * list punch) :=
  if negb gfp_fs then ret (SHRINK_STOP, [])
  else if negb lock then ret (u64 (-1), [])
  else let! s := get in
       shrink_loop (S (length (ashmem_lru_list s))) relock 0 nr_to_scan 0 [].

Definition ashmem_shrink_count : M ashmem Z := gets lru_count.

(** ** The ioctls *)

(** [read_implies_exec]: [current->personality & READ_IMPLIES_EXEC]. *)
Definition set_prot_mask (a : nat) (prot : Z) (read_implies_exec : bool) : M ashmem Z :=
  let! A := area_at a in
  if negb (Z.land (prot_mask A) prot =? prot) then ret (- EINVAL)
  else
    let prot := if negb (Z.land prot PROT_READ =? 0) && read_implies_exec
                then Z.lor prot PROT_EXEC else prot in
    update_area a (set_prot prot A) ;!
    ret 0.

(** [copied] is the result of [strncpy_from_user(local_name, name,
    ASHMEM_NAME_LEN)] with the contents it leaves in [local_name]. *)
Definition set_name (a : nat) (copied : Z * list Z) : M ashmem Z :=
  let '(len, local_name) := copied in
  if len <? 0 then ret len
  else
    let local_name := if len =? ASHMEM_NAME_LEN
                      then <[Z.to_nat (ASHMEM_NAME_LEN - 1) := 0]> local_name
                      else local_name in
    let! A := area_at a in
    match file A with
    | Some _ => ret (- EINVAL)
    | None =>
      let! nm := deref (c_strcpy (name A) (Z.to_nat ASHMEM_NAME_PREFIX_LEN) local_name) in
      update_area a (set_area_name nm A) ;!
      ret 0
    end.

(** [left] is [copy_to_user]'s result; the bytes it was asked to copy are
    returned with the error code. *)
Definition get_name (a : nat) (left : Z) : M ashmem (Z * list Z) :=
  let! A := area_at a in
  let src := drop (Z.to_nat ASHMEM_NAME_PREFIX_LEN) (name A) in
  let! local_name :=
    if negb (default 0 (name A !! Z.to_nat ASHMEM_NAME_PREFIX_LEN) =? 0)
    then let! n := deref (c_strlen src) in ret (take (S n) src)
    else ret (ASHMEM_NAME_DEF ++ [0]) in
  ret (if negb (left =? 0) then - EFAULT else 0, local_name).

Inductive pin_cmd := PIN | UNPIN | GET_PIN_STATUS.

(** The page interval a request names, or the failure of one of its checks:
    the [__u32] arithmetic of [ashmem_pin_unpin]. *)
Definition pin_request (asma_size offset len : Z) : option (Z * Z) :=
  let len := if len =? 0 then u32 (PAGE_ALIGN asma_size - offset) else len in
  if negb (Z.land (Z.lor offset len) (PAGE_SIZE - 1) =? 0) then None
  else if u32 (u32 (-1) - offset) <? len then None
  else if PAGE_ALIGN asma_size <? u32 (offset + len) then None
  else let pgstart := offset / PAGE_SIZE in
       Some (pgstart, u64 (pgstart + len / PAGE_SIZE - 1)).

(** The checks and the switch made under the mutex: the return value, and
    what is left in [range]. *)
Definition pin_dispatch (a : nat) (cmd : pin_cmd) (offset len : Z) (range : option nat)
    : M ashmem (Z * option nat) :=
  let! A := area_at a in
  match file A with
  | None => ret (- EINVAL, range)
  | Some _ =>
    match pin_request (size A) offset len with
    | None => ret (- EINVAL, range)
    | Some (pgstart, pgend) =>
      match cmd with
      | PIN => ashmem_pin a pgstart pgend range
      | UNPIN => ashmem_unpin a pgstart pgend range
      | GET_PIN_STATUS => let! r := ashmem_get_pin_status a pgstart pgend in ret (r, range)
      end
    end
  end.

Definition needs_range (cmd : pin_cmd) : bool :=
  match cmd with GET_PIN_STATUS => false | _ => true end.

(** [pin] is what [copy_from_user] read, [zalloc] the slab object.  The result
    is [None] when the caller sleeps in [wait_event] because a purge is in
    flight. *)
Definition ashmem_pin_unpin (a : nat) (cmd : pin_cmd) (pin : option (Z * Z))
    (zalloc : option nat) : M ashmem (option Z) :=
  match pin with
  | None => ret (Some (- EFAULT))
  | Some (offset, len) =>
    if needs_range cmd && bool_decide (zalloc = None) then ret (Some (- ENOMEM))
    else
      let range := if needs_range cmd then zalloc else None in
      (match range with
       | Some n => modify (fun s => set_ranges (<[n := Range 0 0 0 0]> (ranges s)) s)
       | None => ret tt
       end) ;!
      let! s := get in
      if negb (ashmem_shrink_inflight s =? 0) then ret None
      else
        let! res := pin_dispatch a cmd offset len range in
        let '(rv, range) := res in
        (match range with
         | Some n => modify (fun s => set_ranges (delete n (ranges s)) s)
         | None => ret tt
         end) ;!
        ret (Some rv)
  end.

Inductive ashmem_ioc :=
  | ASHMEM_SET_NAME | ASHMEM_GET_NAME | ASHMEM_SET_SIZE | ASHMEM_GET_SIZE
  | ASHMEM_SET_PROT_MASK | ASHMEM_GET_PROT_MASK | ASHMEM_PIN | ASHMEM_UNPIN
  | ASHMEM_GET_PIN_STATUS | ASHMEM_PURGE_ALL_CACHES
  | COMPAT_ASHMEM_SET_SIZE | COMPAT_ASHMEM_SET_PROT_MASK | ASHMEM_OTHER.

(** What the kernel answers during one ioctl. *)
Record ioctl_env := IoctlEnv {
  env_strncpy : Z * list Z;
  env_copy_to_user : Z;
  env_pin : option (Z * Z);
  env_zalloc : option nat;
  env_read_implies_exec : bool;
  env_cap_sys_admin : bool;
  env_lock : bool;
  env_relock : nat -> bool
}.

Definition LONG_MAX : Z := 9223372036854775807.

(** The result is the return value and the bytes copied out; no value means
    the caller sleeps. *)
Definition ashmem_ioctl (a : nat) (cmd : ashmem_ioc) (arg : Z) (E : ioctl_env)
    : M ashmem (option Z * list Z) :=
  let just (m : M ashmem Z) := let! r := m in ret (Some r, []) in
  let pin c := let! r := ashmem_pin_unpin a c (env_pin E) (env_zalloc E) in ret (r, []) in
  match cmd with
  | ASHMEM_SET_NAME => just (set_name a (env_strncpy E))
  | ASHMEM_GET_NAME =>
      let! r := get_name a (env_copy_to_user E) in
      let '(rv, bytes) := r in
      ret (Some rv, if env_copy_to_user E =? 0 then bytes else [])
  | ASHMEM_SET_SIZE =>
      just (let! A := area_at a in
            match file A with
            | Some _ => ret (- EINVAL)
            | None => update_area a (set_size (u64 arg) A) ;! ret 0
            end)
  | ASHMEM_GET_SIZE => just (let! A := area_at a in ret (s64 (size A)))
  | ASHMEM_SET_PROT_MASK => just (set_prot_mask a arg (env_read_implies_exec E))
  | ASHMEM_GET_PROT_MASK => just (let! A := area_at a in ret (s64 (prot_mask A)))
  | ASHMEM_PIN => pin PIN
  | ASHMEM_UNPIN => pin UNPIN
  | ASHMEM_GET_PIN_STATUS => pin GET_PIN_STATUS
  | ASHMEM_PURGE_ALL_CACHES =>
      if env_cap_sys_admin E then
        let! n := ashmem_shrink_count in
        let! _ := ashmem_shrink_scan true (env_lock E) (env_relock E) LONG_MAX in
        ret (Some (s64 n), [])
      else ret (Some (- EPERM), [])
  | COMPAT_ASHMEM_SET_SIZE | COMPAT_ASHMEM_SET_PROT_MASK | ASHMEM_OTHER =>
      ret (Some (- ENOTTY), [])
  end.

Definition compat_ashmem_ioctl (a : nat) (cmd : ashmem_ioc) (arg : Z) (E : ioctl_env)
    : M ashmem (option Z * list Z) :=
  let cmd := match cmd with
             | COMPAT_ASHMEM_SET_SIZE => ASHMEM_SET_SIZE
             | COMPAT_ASHMEM_SET_PROT_MASK => ASHMEM_SET_PROT_MASK
             | c => c
             end in
  ashmem_ioctl a cmd arg E.

(** ** debugfs *)

Record region_line := RegionLine {
  rl_index : Z; rl_name : option (list Z); rl_size : Z;
  rl_backing : ashmem_backing_type; rl_unpinned : Z; rl_unmapped : bool
}.

(** The lines [ashmem_regions_show] prints, one per live area. *)
Fixpoint ashmem_regions_show (s : ashmem) (count : Z) (l : list nat) : option (list region_line) :=
  match l with
  | [] => Some []
  | a :: l' =>
    A ← areas s !! a;
    let nm := drop (Z.to_nat ASHMEM_NAME_PREFIX_LEN) (name A) in
    rest ← ashmem_regions_show s (count + 1) l';
    Some (RegionLine count (if default 0 (head nm) =? 0 then None else Some nm) (size A)
            (backing A) (Z.of_nat (length (unpinned_list A))) (bool_decide (file A = None)) :: rest)
  end.

Record ashmem_stats := AshmemStats {
  total_regions : Z; total_size : Z; mapped : Z; shmem_count : Z; memfd_count : Z
}.

Fixpoint ashmem_stats_show (s : ashmem) (l : list nat) (st : ashmem_stats) : option ashmem_stats :=
  match l with
  | [] => Some st
  | a :: l' =>
    A ← areas s !! a;
    let memfd := bool_decide (backing A = ASHMEM_BACKING_MEMFD) in
    ashmem_stats_show s l'
      (AshmemStats (u64 (total_regions st + 1)) (u64 (total_size st + size A))
         (match file A with Some _ => u64 (mapped st + 1) | None => mapped st end)
         (if memfd then shmem_count st else u64 (shmem_count st + 1))
         (if memfd then u64 (memfd_count st + 1) else memfd_count st))
  end.

(** ** Module initialisation

    The resources the module holds; [init] undoes what it acquired when a
    later step fails. *)
Record ashmem_module := AshmemModule {
  area_cachep : bool; range_cachep : bool; misc_registered : bool; shrinker_registered : bool
}.

(** The error labels, each falling through to the next. *)
Definition out_free1 (m : ashmem_module) : ashmem_module :=
  AshmemModule false (range_cachep m) (misc_registered m) (shrinker_registered m).
Definition out_free2 (m : ashmem_module) : ashmem_module :=
  out_free1 (AshmemModule (area_cachep m) false (misc_registered m) (shrinker_registered m)).
Definition out_demisc (m : ashmem_module) : ashmem_module :=
  out_free2 (AshmemModule (area_cachep m) (range_cachep m) false (shrinker_registered m)).

(** The outcomes of the acquisitions, in the order they are attempted;
    [shrinker_alloc] is the allocation's success on kernels with dynamically
    allocated shrinkers ([dynamic], COMPAT_SHRINKER_DYNAMIC), else
    [register_shrinker] is the registration's result. *)
Definition ashmem_init (area_cache range_cache : bool) (misc_register : Z)
    (dynamic : bool) (shrinker_alloc : bool) (register_shrinker : Z) : Z * ashmem_module :=
  let m := AshmemModule area_cache false false false in
  let rv := - ENOMEM in
  if negb area_cache then (rv, m)
  else
    let m := AshmemModule (area_cachep m) range_cache false false in
    if negb range_cache then (rv, out_free1 m)
    else
      let rv := misc_register in
      let m := AshmemModule (area_cachep m) (range_cachep m) (rv =? 0) false in
      if negb (rv =? 0) then (rv, out_free2 m)
      else if dynamic then
        if negb shrinker_alloc then (rv, out_demisc m)
        else (0, AshmemModule (area_cachep m) (range_cachep m) (misc_registered m) true)
      else
        let rv := register_shrinker in
        if negb (rv =? 0) then (rv, out_demisc m)
        else (0, AshmemModule (area_cachep m) (range_cachep m) (misc_registered m) true).

(** The teardown in the order of [ashmem_exit]: the shrinker, the device, the
    two caches. *)
Definition ashmem_exit (m : ashmem_module) : ashmem_module :=
  out_demisc (AshmemModule (area_cachep m) (range_cachep m) (misc_registered m) false).
