(* ===== verification/AshmemDevFacts.v ===== *)
(** * ashmem: the device keeps its invariant on every path

    [wf] extends the range-list invariant of AshmemRangeFacts with the area
    records, the backing files and the list of live areas.  Every handler
    returns from every well-formed state (no oops) into a well-formed one;
    the shrinker purges in LRU order and its accounting is exact. *)

From Stdlib Require Import ZArith Lia.
From stdpp Require Import base option gmap sets sorting list.
From S2P Require Import Prelude AshmemRange AshmemRangeFacts AshmemDev.

(** ** The device invariant *)

Record area_ok (s : ashmem) (A : ashmem_area) : Prop := AreaOk {
  ao_name : length (name A) = Z.to_nat ASHMEM_FULL_NAME_LEN;
  ao_prefix : take (Z.to_nat ASHMEM_NAME_PREFIX_LEN) (name A) = ASHMEM_NAME_PREFIX;
  ao_nul : is_Some (c_strlen (drop (Z.to_nat ASHMEM_NAME_PREFIX_LEN) (name A)));
  ao_size : is_u64 (size A);
  ao_file f : file A = Some f ->
    exists F, files s !! f = Some F /\ f_op_overridden F = true /\ f_mode_lseek F = true
}.

(** Page numbers stay far below the width of [size_t], except that a request
    whose length wrapped to zero ends at the last [size_t]. *)
Definition range_small (r : ashmem_range) : Prop :=
  0 <= pgstart r <= 1048576 /\ 0 <= pgend r /\ (pgend r < 1048576 \/ pgend r = two64 - 1).

Record wf_at (pend : gset nat) (s : ashmem) : Prop := Wf {
  wf_linked : linked pend s;
  wf_sorted : sorted s;
  wf_area a A : areas s !! a = Some A -> area_ok s A;
  wf_file_inj a b A B f : areas s !! a = Some A -> areas s !! b = Some B ->
    file A = Some f -> file B = Some f -> a = b;
  wf_list : NoDup (ashmem_area_list s);
  wf_live a : a ∈ ashmem_area_list s <-> is_Some (areas s !! a);
  wf_small id r : ranges s !! id = Some r -> range_small r
}.

Abbreviation wf := (wf_at ∅).

(** The module's initial state. *)
Definition ashmem_initial : ashmem := Ashmem ∅ ∅ ∅ [] 0 [] 0.

Lemma wf_initial : wf ashmem_initial.
Proof.
  assert (HN : forall (x : nat), x ∈ ([] : list nat) <-> False).
  { intros x. split; [by intros ?%not_elem_of_nil|done]. }
  split; [split|..]; simpl; try done; try by constructor.
  - intros id. rewrite HN. split; [done|by intros (_ & ? & ? & _)].
  - intros a. rewrite HN. split; [done|by intros [? ?]].
Qed.

Lemma area_ok_files s s' A : files s' = files s -> area_ok s A -> area_ok s' A.
Proof. intros E [? ? ? ? ?]. split; try done. by rewrite E. Qed.

(** ** Changing an area's attributes *)

Lemma linked_update_area pend s a A A' :
  linked pend s -> areas s !! a = Some A -> unpinned_list A' = unpinned_list A ->
  (is_Some (file A) -> is_Some (file A')) ->
  linked pend (set_areas (<[a := A']> (areas s)) s).
Proof.
  intros [Hnd Harea Hrange Hpend Hlnd Hlru Hcount Hfile] HA El Hf. split; simpl; try done.
  - intros b B. rewrite lookup_insert. intros HB. case_decide; simplify_eq; [rewrite El|]; eauto.
  - intros b B i. rewrite lookup_insert. intros HB. case_decide; simplify_eq; [rewrite El|]; eauto.
  - intros i r Hr Hp. destruct (Hrange i r Hr Hp) as (? & B & HB & ?). split; [done|].
    rewrite lookup_insert. case_decide; [|by eauto]. eexists. split; [done|].
    rewrite El. congruence.
  - intros b B. rewrite lookup_insert. intros HB. case_decide; simplify_eq; [rewrite El|]; eauto.
Qed.

Lemma sorted_update_area s a A A' :
  sorted s -> areas s !! a = Some A -> unpinned_list A' = unpinned_list A ->
  sorted (set_areas (<[a := A']> (areas s)) s).
Proof.
  intros Hs HA El b B. simpl. rewrite lookup_insert. intros HB.
  case_decide; simplify_eq; [rewrite El|]; by eapply (Hs b).
Qed.

Lemma wf_update_area s a A A' :
  wf s -> areas s !! a = Some A -> unpinned_list A' = unpinned_list A ->
  area_ok s A' -> (file A' = file A \/
    exists f, file A = None /\ file A' = Some f /\
      forall b B, areas s !! b = Some B -> file B <> Some f) ->
  wf (set_areas (<[a := A']> (areas s)) s).
Proof.
  intros [HL Hs Ha Hinj Hl Hlive Hsm] HA El Hok Hf. split; simpl.
  - eapply linked_update_area; try done. destruct Hf as [->|(f & -> & -> & _)]; [done|].
    by intros [? [=]].
  - by eapply sorted_update_area.
  - intros b B. rewrite lookup_insert. intros HB. case_decide; simplify_eq; (apply (area_ok_files s); [done|]); eauto.
  - intros b c B C f. rewrite !lookup_insert. intros HB HC HfB HfC.
    destruct (decide (a = b)) as [<-|], (decide (a = c)) as [<-|]; simplify_eq; try done;
      (destruct Hf as [E|(g & E1 & E2 & Hg)]; [try rewrite E in HfB; try rewrite E in HfC|]); eauto;
      simplify_eq; exfalso; by eapply Hg.
  - done.
  - intros b. rewrite Hlive, lookup_insert. case_decide; [|done]. subst. split; [done|by eexists].
  - done.
Qed.

Lemma wf_update_file s f F F' :
  wf s -> files s !! f = Some F -> f_op_overridden F' = f_op_overridden F ->
  f_mode_lseek F' = f_mode_lseek F -> wf (set_files (<[f := F']> (files s)) s).
Proof.
  intros [[Hnd Harea Hrange Hpend Hlnd Hlru Hcount Hfile] Hs Ha Hinj Hl Hlive Hsm] HF E1 E2.
  split; simpl; try done.
  intros b B HB. destruct (Ha b B HB) as [? ? ? ? Hf]. split; try done.
  intros g Hg. destruct (Hf g Hg) as (G & HG & ? & ?). simpl.
  rewrite lookup_insert. case_decide; [|by eauto]. simplify_eq.
  exists F'. split; [done|]. split; congruence.
Qed.

Lemma wf_new_file s f F :
  wf s -> files s !! f = None -> wf (set_files (<[f := F]> (files s)) s).
Proof.
  intros [[Hnd Harea Hrange Hpend Hlnd Hlru Hcount Hfile] Hs Ha Hinj Hl Hlive Hsm] HF.
  split; simpl; try done.
  intros b B HB. destruct (Ha b B HB) as [? ? ? ? Hf]. split; try done.
  intros g Hg. destruct (Hf g Hg) as (G & HG & ? & ?). simpl.
  rewrite lookup_insert_ne; [by eauto|]. intros ->. congruence.
Qed.

Lemma wf_set_inflight s n : wf s -> wf (set_inflight n s).
Proof.
  intros [[Hnd Harea Hrange Hpend Hlnd Hlru Hcount Hfile] Hs Ha Hinj Hl Hlive Hsm].
  split; try done. intros b B HB. destruct (Ha b B HB). by split.
Qed.

(** ** The shrinker *)

Definition purge_range (r : ashmem_range) : ashmem_range :=
  Range (asma r) (pgstart r) (pgend r) ASHMEM_WAS_PURGED.

Definition take_state (id : nat) (r : ashmem_range) (f : nat) (F : vmfile) (s : ashmem) : ashmem :=
  Ashmem (<[id := purge_range r]> (ranges s)) (areas s)
    (<[f := VmFile (f_count F + 1) (f_mode_lseek F) (f_op_overridden F) (f_pos F)]> (files s))
    (list_del id (ashmem_lru_list s)) (u64 (lru_count s - range_size r))
    (ashmem_area_list s) (ashmem_shrink_inflight s + 1).

(** The hole that is punched for a range. *)
Definition punch_of (f : nat) (r : ashmem_range) : punch :=
  let start := s64 (u64 (pgstart r * PAGE_SIZE)) in
  let end_ := s64 (u64 (u64 (pgend r + 1) * PAGE_SIZE)) in
  Punch f start (s64 (end_ - start)).

Lemma wf_lru_head s id rest :
  wf s -> ashmem_lru_list s = id :: rest ->
  exists r A f F, ranges s !! id = Some r /\ purged r = ASHMEM_NOT_PURGED /\
    areas s !! asma r = Some A /\ id ∈ unpinned_list A /\ file A = Some f /\
    files s !! f = Some F.
Proof.
  intros [HL _ Ha _ _ _ _] El.
  assert (id ∈ ashmem_lru_list s) as (_ & r & Hr & Hp)%(linked_lru _ _ HL) by (rewrite El; constructor).
  destruct (linked_range _ _ HL id r Hr) as (_ & A & HA & Hid); [set_solver|].
  destruct (linked_file _ _ HL _ _ HA) as [f Hf].
  { intros E. rewrite E in Hid. by apply not_elem_of_nil in Hid. }
  destruct (ao_file _ _ (Ha _ _ HA) f Hf) as (F & HF & _). by exists r, A, f, F.
Qed.

Lemma shrink_take_eq s id rest r A f F :
  ashmem_lru_list s = id :: rest -> ranges s !! id = Some r -> areas s !! asma r = Some A ->
  file A = Some f -> files s !! f = Some F ->
  shrink_take s = Some (Some (punch_of f r, range_size r), take_state id r f F s).
Proof.
  intros El Hr HA Hf HF. unfold shrink_take.
  erewrite bind_eq by reflexivity. rewrite El.
  erewrite bind_eq by (by apply range_at_eq). cbv zeta.
  erewrite bind_eq by (by apply area_at_eq). rewrite Hf.
  erewrite bind_eq by reflexivity.
  erewrite bind_eq; cycle 1.
  { unfold get_file, file_at, bind, get. simpl. rewrite HF. reflexivity. }
  erewrite bind_eq by reflexivity. erewrite bind_eq by reflexivity.
  erewrite bind_eq; cycle 1.
  { unfold lru_del. erewrite bind_eq by (apply range_at_eq; simpl; apply lookup_insert_eq).
    reflexivity. }
  unfold take_state, punch_of, purge_range. reflexivity.
Qed.

Lemma linked_purge s id r : linked ∅ s -> ranges s !! id = Some r ->
  purged r = ASHMEM_NOT_PURGED ->
  linked ∅ (set_lru (list_del id (ashmem_lru_list s)) (u64 (lru_count s - range_size r))
              (set_ranges (<[id := purge_range r]> (ranges s)) s)).
Proof.
  intros [Hnd Harea Hrange Hpend Hlnd Hlru Hcount Hfile] Hr Hp. split; simpl; try done.
  - intros a B i HB Hi. destruct (Harea a B i HB Hi) as (? & ri & ? & ?).
    split; [done|]. rewrite lookup_insert. case_decide; [|by eauto].
    eexists. split; [done|]. simpl. congruence.
  - intros i ri. rewrite lookup_insert. intros Hi Hip.
    case_decide; simplify_eq; [|by eauto]. destruct (Hrange i r Hr Hip) as ((? & ? & ? & ?) & ?).
    split; [|done]. unfold range_ok; simpl. auto.
  - by apply list_del_NoDup.
  - intros i. rewrite elem_of_list_del, Hlru, lookup_insert. case_decide; subst.
    + split; [by intros [? _]|]. by intros (_ & q & [= <-] & ?).
    + split; [tauto|]. intros ?. split; [congruence|done].
  - rewrite (sum_over_size_ext s).
    2:{ intros i [? ?]%elem_of_list_del. simpl. by rewrite lookup_insert_ne. }
    rewrite sum_over_del; [|done|apply Hlru; split; [set_solver|by eauto]].
    rewrite Hcount, u64_sub_l. do 2 f_equal. unfold size_at. by rewrite Hr.
Qed.

(** Purging changes no page bounds, hence no order. *)
Lemma sorted_same_bounds s s' :
  sorted s -> areas s' = areas s ->
  (forall id r', ranges s' !! id = Some r' -> exists r, ranges s !! id = Some r /\
     pgstart r' = pgstart r /\ pgend r' = pgend r) -> sorted s'.
Proof.
  intros Hs HA Hr a A Ha. rewrite HA in Ha. eapply area_sorted_sub; [by eapply Hs|done|].
  intros id r' _ Hr'. destruct (Hr id r' Hr') as (r & ? & ? & ?). exists r. split; [done|lia].
Qed.

Lemma wf_take s id rest r A f F :
  wf s -> ashmem_lru_list s = id :: rest -> ranges s !! id = Some r ->
  purged r = ASHMEM_NOT_PURGED -> areas s !! asma r = Some A -> file A = Some f ->
  files s !! f = Some F -> wf (take_state id r f F s).
Proof.
  intros Hwf El Hr Hp HA Hf HF.
  set (s1 := set_lru (list_del id (ashmem_lru_list s)) (u64 (lru_count s - range_size r))
               (set_ranges (<[id := purge_range r]> (ranges s)) s)).
  assert (Hwf1 : wf s1).
  { destruct Hwf as [HL Hs Ha Hinj Hl Hlive Hsm]. split; try done.
    - by apply linked_purge.
    - eapply sorted_same_bounds; [exact Hs|done|]. intros i q. simpl. rewrite lookup_insert.
      intros Hq. case_decide; simplify_eq; simpl; eauto.
    - intros a B HB. apply (area_ok_files s); [done|by eapply Ha].
    - intros i q. simpl. rewrite lookup_insert. intros Hq. case_decide; simplify_eq; [|by eauto].
      exact (Hsm _ _ Hr). }
  pose proof (wf_update_file s1 f F
    (VmFile (f_count F + 1) (f_mode_lseek F) (f_op_overridden F) (f_pos F))
    Hwf1 HF eq_refl eq_refl) as Hwf2.
  exact (wf_set_inflight _ (ashmem_shrink_inflight s + 1) Hwf2).
Qed.

(** What taking range [id] does to the pages: its own become purged. *)
Lemma take_status s id r f F a p v :
  ranges s !! id = Some r ->
  status (take_state id r f F s) a p v <->
  exists A i q, areas s !! a = Some A /\ i ∈ unpinned_list A /\ ranges s !! i = Some q /\
    pgstart q <= p <= pgend q /\ (if decide (i = id) then v = ASHMEM_WAS_PURGED else purged q = v).
Proof.
  intros Hr. unfold status, take_state. simpl. split.
  - intros (A & i & q & ? & ? & Hq & ? & ?). rewrite lookup_insert in Hq.
    case_decide; simplify_eq; simpl in *; exists A, i; [exists r|exists q];
      rewrite ?decide_True, ?decide_False by congruence; eauto.
  - intros (A & i & q & ? & ? & Hq & ? & Hv). exists A, i. rewrite lookup_insert.
    destruct (decide (id = i)) as [->|Hne]; simplify_eq.
    + rewrite decide_True in Hv by done. eexists. do 3 (split; [done|]). simpl. auto.
    + rewrite decide_False in Hv by congruence. eauto 10.
Qed.

Definition finish_state (p : punch) (F : vmfile) (s : ashmem) : ashmem :=
  set_inflight (ashmem_shrink_inflight s - 1)
    (set_files (<[punch_file p :=
       VmFile (f_count F - 1) (f_mode_lseek F) (f_op_overridden F) (f_pos F)]> (files s)) s).

Lemma shrink_finish_eq s p F :
  files s !! punch_file p = Some F -> shrink_finish p s = Some (tt, finish_state p F s).
Proof.
  intros HF. unfold shrink_finish. erewrite bind_eq; cycle 1.
  { unfold fput, file_at, bind, get. simpl. rewrite HF. reflexivity. }
  reflexivity.
Qed.

Lemma wf_finish s p F : wf s -> files s !! punch_file p = Some F -> wf (finish_state p F s).
Proof.
  intros Hwf HF. pose proof (wf_update_file s (punch_file p) F
    (VmFile (f_count F - 1) (f_mode_lseek F) (f_op_overridden F) (f_pos F))
    Hwf HF eq_refl eq_refl) as Hwf1.
  exact (wf_set_inflight _ (ashmem_shrink_inflight s - 1) Hwf1).
Qed.

(** The range flags after purging the ranges [l]. *)
Definition purged_ranges (l : list nat) (m : gmap nat ashmem_range) (id : nat) : option ashmem_range :=
  if decide (id ∈ l) then purge_range <$> m !! id else m !! id.

Record scan_post_state (l rest : list nat) (s s' : ashmem) : Prop := ScanPost {
  sc_wf : wf s';
  sc_lru : ashmem_lru_list s' = rest;
  sc_ranges id : ranges s' !! id = purged_ranges l (ranges s) id;
  sc_areas : areas s' = areas s;
  sc_inflight : ashmem_shrink_inflight s' = ashmem_shrink_inflight s
}.

Lemma list_del_head (id : nat) l : NoDup (id :: l) -> list_del id (id :: l) = l.
Proof. intros H. apply (list_del_split id [] l H). Qed.

Lemma scan_round_state s id rest :
  wf s -> ashmem_lru_list s = id :: rest ->
  exists p pages s1 s2, shrink_take s = Some (Some (p, pages), s1) /\
    shrink_finish p s1 = Some (tt, s2) /\ pages = size_at s id /\
    scan_post_state [id] rest s s2.
Proof.
  intros Hwf El. destruct (wf_lru_head s id rest Hwf El) as (r & A & f & F & Hr & Hp & HA & Hid & Hf & HF).
  pose proof (wf_take s id rest r A f F Hwf El Hr Hp HA Hf HF) as Hwf1.
  set (F' := VmFile (f_count F + 1) (f_mode_lseek F) (f_op_overridden F) (f_pos F)).
  assert (HF1 : files (take_state id r f F s) !! f = Some F') by (simpl; apply lookup_insert_eq).
  exists (punch_of f r), (range_size r), (take_state id r f F s), (finish_state (punch_of f r) F' (take_state id r f F s)).
  split; [by eapply shrink_take_eq|]. split; [by apply shrink_finish_eq|].
  split; [unfold size_at; by rewrite Hr|]. split; simpl; try done.
  - by apply wf_finish.
  - rewrite El. apply list_del_head. rewrite <- El. apply Hwf.
  - intros i. unfold purged_ranges. rewrite lookup_insert.
    destruct (decide (id = i)) as [->|Hne].
    + rewrite decide_True by (by apply list_elem_of_singleton). by rewrite Hr.
    + rewrite decide_False; [done|]. by intros ?%list_elem_of_singleton.
  - lia.
Qed.

Lemma shrink_loop_spec relock : (forall i, relock i = true) ->
  forall fuel s i nr freed done_, wf s -> (length (ashmem_lru_list s) < fuel)%nat ->
  0 < nr < two64 ->
  let l := take (Z.to_nat nr) (ashmem_lru_list s) in
  exists ps s', shrink_loop fuel relock i nr freed done_ s =
      Some ((match l with [] => freed | _ => u64 (freed + sum_over (size_at s) l) end,
             done_ ++ ps), s') /\
    length ps = length l /\
    scan_post_state l (drop (Z.to_nat nr) (ashmem_lru_list s)) s s'.
Proof.
  intros Hrl. induction fuel as [|fuel IH]; intros s i nr freed done_ Hwf Hfuel Hnr l; [lia|].
  cbn [shrink_loop]. destruct (ashmem_lru_list s) as [|id rest] eqn:El.
  { exists [], s. subst l. rewrite take_nil, drop_nil. split.
    - erewrite bind_eq; cycle 1.
      { unfold shrink_take, bind, get. rewrite El. reflexivity. }
      by rewrite app_nil_r.
    - split; [done|]. split; try done. }
  destruct (scan_round_state s id rest Hwf El) as (p & pages & s1 & s2 & E1 & E2 & Hpg & [Hwf2 El2 Hr2 HA2 Hi2]).
  erewrite bind_eq by exact E1. cbv beta iota zeta. erewrite bind_eq by exact E2. rewrite Hrl. simpl negb. cbv iota.
  destruct (Z.to_nat nr) as [|n] eqn:En; [lia|].
  assert (Hnr1 : u64 (nr - 1) = nr - 1) by (apply u64_small; unfold is_u64; lia). rewrite Hnr1.
  subst l. simpl take. simpl drop. simpl sum_over.
  assert (Hnd : NoDup (id :: rest)) by (rewrite <- El; apply Hwf).
  apply NoDup_cons in Hnd as [Hid Hnd].
  destruct (nr - 1 <=? 0) eqn:Hle; zbool.
  { replace n with 0%nat in * by lia. simpl.
    exists [p], s2. split.
    - by rewrite Hpg, Z.add_0_r.
    - split; [done|]. by split. }
  destruct (IH s2 (S i) (nr - 1) (u64 (freed + pages)) (done_ ++ [p]) Hwf2) as (ps & s' & E & Hlen & [? ? Hr' HA' Hi']);
    [rewrite El2; simpl in Hfuel; lia|lia|].
  rewrite El2 in *. replace (Z.to_nat (nr - 1)) with n in * by lia.
  exists (p :: ps), s'. split; [|split; [simpl; congruence|split; try done; try congruence]].
  - etrans; [exact E|]. rewrite <- app_assoc. simpl.
    assert (Hsz : sum_over (size_at s2) (take n rest) = sum_over (size_at s) (take n rest)).
    { apply sum_over_size_ext. intros j Hj. rewrite Hr2. unfold purged_ranges.
      rewrite decide_False; [done|]. intros ->%list_elem_of_singleton.
      apply elem_of_take in Hj as (? & ? & _). apply Hid. by eapply list_elem_of_lookup_2. }
    destruct (take n rest) eqn:Et.
    + simpl. by rewrite Hpg, Z.add_0_r.
    + rewrite Hsz, u64_add_l, Hpg. by rewrite Z.add_assoc.
  - intros j. rewrite Hr'. unfold purged_ranges. rewrite Hr2. unfold purged_ranges.
    destruct (decide (j = id)) as [->|Hne].
    + rewrite (decide_True (P := id ∈ [id])), (decide_True (P := id ∈ id :: _)) by (by constructor).
      rewrite decide_False; [done|]. intros (? & ? & _)%elem_of_take. apply Hid. by eapply list_elem_of_lookup_2.
    + rewrite (decide_False (P := j ∈ [id])) by (by intros ?%list_elem_of_singleton).
      rewrite (decide_ext (j ∈ id :: take n rest) (j ∈ take n rest)); [done|].
      rewrite elem_of_cons. tauto.
Qed.

(** ** Page numbers stay small *)

Definition bounded (s : ashmem) : Prop :=
  forall id r, ranges s !! id = Some r -> range_small r.

Definition request_small (st en : Z) : Prop :=
  0 <= st <= 1048576 /\ 0 <= en /\ (en < 1048576 \/ en = two64 - 1).

Lemma range_at_inv id s r s' : range_at id s = Some (r, s') -> ranges s !! id = Some r /\ s' = s.
Proof.
  unfold range_at, bind, get, deref. destruct (ranges s !! id) eqn:E; [|done].
  by intros [= <- <-].
Qed.

Lemma area_at_inv a s A s' : area_at a s = Some (A, s') -> areas s !! a = Some A /\ s' = s.
Proof.
  unfold area_at, bind, get, deref. destruct (areas s !! a) eqn:E; [|done].
  by intros [= <- <-].
Qed.

Lemma relink_inv a f s u s' : relink a f s = Some (u, s') -> ranges s' = ranges s.
Proof. intros H. unfold relink in H. mrun. by apply area_at_inv in H0 as [_ ->]. Qed.

Lemma lru_upd_inv (b : bool) id s u s' :
  (if b then lru_add id else ret tt) s = Some (u, s') -> ranges s' = ranges s.
Proof.
  destruct b; intros H; [|by mrun]. unfold lru_add in H. mrun. by apply range_at_inv in H0 as [_ ->].
Qed.

Lemma lru_del_inv (b : bool) id s u s' :
  (if b then lru_del id else ret tt) s = Some (u, s') -> ranges s' = ranges s.
Proof.
  destruct b; intros H; [|by mrun]. unfold lru_del in H. mrun. by apply range_at_inv in H0 as [_ ->].
Qed.

Lemma range_del_inv id s u s' :
  range_del id s = Some (u, s') -> ranges s' = delete id (ranges s).
Proof.
  intros H. unfold range_del in H. mrun. simpl.
  apply range_at_inv in H0 as [_ ->]. apply relink_inv in H1. apply lru_del_inv in H2. congruence.
Qed.

Lemma range_shrink_inv id st en s u s' :
  range_shrink id st en s = Some (u, s') ->
  exists r, ranges s !! id = Some r /\ ranges s' = <[id := Range (asma r) st en (purged r)]> (ranges s).
Proof.
  intros H. unfold range_shrink in H. mrun. apply range_at_inv in H0 as [Hr ->].
  eexists. split; [exact Hr|]. destruct (range_on_lru _); mrun; done.
Qed.

Lemma range_alloc_inv a prev pu st en new s new' s' :
  range_alloc a prev pu st en new s = Some (new', s') ->
  exists n, new = Some n /\ new' = None /\ ranges s' = <[n := Range a st en pu]> (ranges s).
Proof.
  intros H. unfold range_alloc in H. destruct new as [n|]; [|by mrun].
  apply bind_Some in H as (n' & s0 & E & H). injection E as <- <-. mrun.
  apply relink_inv in H1. apply range_at_inv in H2 as [_ ->]. apply lru_upd_inv in H3.
  exists n. do 2 (split; [done|]). rewrite H3, H1. done.
Qed.

Lemma bounded_insert s s' id r :
  bounded s -> range_small r -> ranges s' = <[id := r]> (ranges s) -> bounded s'.
Proof.
  intros HB Hr E i q. rewrite E, lookup_insert. intros Hq. case_decide; simplify_eq; [done|by eapply HB].
Qed.

Lemma bounded_delete s s' id : bounded s -> ranges s' = delete id (ranges s) -> bounded s'.
Proof. intros HB E i q. rewrite E. intros [_ Hq]%lookup_delete_Some. by eapply HB. Qed.

Lemma small_pred st : 0 <= st <= 1048576 ->
  0 <= u64 (st - 1) /\ (u64 (st - 1) < 1048576 \/ u64 (st - 1) = two64 - 1).
Proof.
  intros ?. split; [apply u64_range|]. destruct (decide (st = 0)) as [->|]; [by right|].
  left. rewrite u64_small; unfold is_u64, two64; lia.
Qed.

Lemma small_succ en r : 0 <= en -> en < 1048576 \/ en = two64 - 1 -> range_small r ->
  en < pgend r -> 0 <= u64 (en + 1) <= 1048576.
Proof.
  intros ? [?| ->] (_ & ? & Hr) ?; [|unfold two64 in *; lia].
  rewrite u64_small; unfold is_u64, two64; lia.
Qed.

Lemma ashmem_pin_loop_bounded a st en : request_small st en -> forall l rv new s rv' new' s',
  bounded s -> ashmem_pin_loop a st en l rv new s = Some ((rv', new'), s') -> bounded s'.
Proof.
  intros (Hst & He0 & Hen). induction l as [|id l IH]; intros rv new s rv' new' s' HB H;
    cbn [ashmem_pin_loop] in H; [by mrun|].
  apply bind_Some in H as (r & s0 & [Hr ->]%range_at_inv & H).
  destruct (range_before_page r st) eqn:Hb; [by mrun|].
  destruct (page_range_in_range r st en) eqn:Hin; [|by eapply IH].
  pose proof (HB _ _ Hr) as Hsm. pose proof (small_pred st Hst) as Hp.
  pose proof (fun H => small_succ en r He0 Hen Hsm H) as Hs.
  cbv zeta in H. destruct (page_range_subsumes_range r st en) eqn:Hsub; [|
    destruct (st <=? pgstart r) eqn:Hc2; [|destruct (pgend r <=? en) eqn:Hc3]];
    apply bind_Some in H as (u & s1 & E1 & H).
  - apply range_del_inv in E1. eapply IH; [|exact H]. by eapply bounded_delete.
  - apply range_shrink_inv in E1 as (r1 & Hr1 & E1). simplify_eq.
    eapply IH; [|exact H]. eapply bounded_insert; [done| |exact E1].
    split; simpl; [apply Hs; bools; lia|apply Hsm].
  - apply range_shrink_inv in E1 as (r1 & Hr1 & E1). simplify_eq.
    eapply IH; [|exact H]. eapply bounded_insert; [done| |exact E1].
    split; simpl; [apply Hsm|exact Hp].
  - apply range_alloc_inv in E1 as (n & _ & _ & E1). mrun.
    apply range_shrink_inv in H0 as (r2 & Hr2 & E2).
    assert (HB1 : bounded s1).
    { eapply bounded_insert; [exact HB| |exact E1]. split; simpl; [apply Hs; bools; lia|apply Hsm]. }
    eapply bounded_insert; [exact HB1| |exact E2].
    split; simpl; [|exact Hp]. apply Hsm.
Qed.

Lemma unpin_scan_inv st en : forall l s res s',
  unpin_scan st en l s = Some (res, s') ->
  s' = s /\ forall id r, res = ScanMerge id r -> ranges s !! id = Some r.
Proof.
  induction l as [|id l IH]; intros s res s' H; cbn [unpin_scan] in H; [mrun; split; [done|by intros]|].
  apply bind_Some in H as (r & s0 & [Hr ->]%range_at_inv & H).
  repeat (case_match; [mrun; split; [done|]; by intros ? ? [= <- <-]|]). by apply IH.
Qed.

Lemma ashmem_unpin_loop_bounded a : forall fuel st en pu new s rv' new' s',
  request_small st en -> bounded s ->
  ashmem_unpin_loop fuel a st en pu new s = Some ((rv', new'), s') -> bounded s'.
Proof.
  induction fuel as [|fuel IH]; intros st en pu new s rv' new' s' Hreq HB H; [done|].
  cbn [ashmem_unpin_loop] in H.
  apply bind_Some in H as (A & s0 & [HA ->]%area_at_inv & H).
  apply bind_Some in H as (res & s0 & [-> Hm]%unpin_scan_inv & H).
  destruct res as [pos| |id r].
  - apply bind_Some in H as (new1 & s1 & (n & _ & _ & E1)%range_alloc_inv & H). mrun.
    eapply bounded_insert; [done| |exact E1]. destruct Hreq as (? & ? & ?).
    unfold range_small; simpl. lia.
  - by mrun.
  - apply bind_Some in H as (u & s1 & E1%range_del_inv & H).
    pose proof (HB _ _ (Hm _ _ eq_refl)) as (? & ? & ?). eapply IH; [| |exact H].
    + destruct Hreq as (? & ? & ?). unfold request_small. lia.
    + by eapply bounded_delete.
Qed.

(** ** Pin and unpin requests *)

Lemma area_ok_unpinned s A l : area_ok s A -> area_ok s (set_unpinned l A).
Proof. intros []. by split. Qed.

Lemma wf_only_area pend pend' a A s s' :
  wf_at pend s -> areas s !! a = Some A -> only_area a s s' -> linked pend' s' -> sorted s' ->
  bounded s' -> wf_at pend' s'.
Proof.
  intros [HL Hs Ha Hinj Hl Hlive Hsm] HA Ho HL' Hs' HB.
  destruct (oa_same _ _ _ Ho A HA) as [l HA'].
  assert (Hback : forall b B', areas s' !! b = Some B' ->
    exists B, areas s !! b = Some B /\ exists l, B' = set_unpinned l B).
  { intros b B' HB'. destruct (decide (b = a)) as [->|Hne].
    - simplify_eq. eauto.
    - rewrite (oa_other _ _ _ Ho) in HB' by done. exists B'. split; [done|].
      exists (unpinned_list B'). by destruct B'. }
  split; try done.
  - intros b B' (B & HB' & l' & ->)%Hback. apply (area_ok_files s); [apply Ho|].
    apply area_ok_unpinned. by eapply Ha.
  - intros b c B' C' f (B & ? & ? & ->)%Hback (C & ? & ? & ->)%Hback ? ?. by eapply Hinj.
  - by rewrite (oa_area_list _ _ _ Ho).
  - intros b. rewrite (oa_area_list _ _ _ Ho), Hlive. destruct (decide (b = a)) as [->|Hne].
    + rewrite HA, HA'. by split; eexists.
    + by rewrite (oa_other _ _ _ Ho).
Qed.

Definition spare_range : ashmem_range := Range 0 0 0 0.
Definition zalloc_state (n : nat) (s : ashmem) : ashmem :=
  set_ranges (<[n := spare_range]> (ranges s)) s.
Definition free_state (n : nat) (s : ashmem) : ashmem := set_ranges (delete n (ranges s)) s.

Lemma linked_zalloc s n : linked ∅ s -> ranges s !! n = None -> linked {[n]} (zalloc_state n s).
Proof.
  intros [Hnd Harea Hrange Hpend Hlnd Hlru Hcount Hfile] Hn.
  assert (Hne : forall i r, ranges s !! i = Some r -> n <> i) by (intros i r ? ->; congruence).
  split; simpl; try done.
  - intros a A i HA Hi. destruct (Harea a A i HA Hi) as (_ & r & Hr & ?). split.
    + intros ->%elem_of_singleton. congruence.
    + exists r. by rewrite lookup_insert_ne by (by eapply Hne).
  - intros i r Hr Hi. rewrite lookup_insert_ne in Hr by (intros ->; set_solver).
    apply Hrange; [done|set_solver].
  - intros i ->%elem_of_singleton. rewrite lookup_insert_eq. by eexists.
  - intros i. rewrite Hlru. split; intros (Hi & r & Hr & ?).
    + split; [intros ->%elem_of_singleton; congruence|]. exists r.
      by rewrite lookup_insert_ne by (by eapply Hne).
    + rewrite lookup_insert_ne in Hr by (intros ->; set_solver). split; [set_solver|by exists r].
  - rewrite Hcount. f_equal. symmetry. apply sum_over_size_ext. intros i Hi. simpl.
    apply Hlru in Hi as (_ & r & Hr & _). rewrite lookup_insert_ne; [done|by eapply Hne].
Qed.

Lemma linked_free s n : linked {[n]} s -> linked ∅ (free_state n s).
Proof.
  intros [Hnd Harea Hrange Hpend Hlnd Hlru Hcount Hfile].
  assert (Hlne : forall i, i ∈ ashmem_lru_list s -> n <> i).
  { intros i (Hi & _)%Hlru ->. set_solver. }
  split; simpl; try done.
  - intros a A i HA Hi. destruct (Harea a A i HA Hi) as (Hin & r & Hr & ?).
    split; [set_solver|]. exists r. rewrite lookup_delete_ne; [done|]. intros ->. set_solver.
  - intros i r [Hne Hr]%lookup_delete_Some _. apply Hrange; [done|set_solver].
  - intros i. rewrite Hlru. split; intros (Hi & r & Hr & ?).
    + split; [set_solver|]. exists r. rewrite lookup_delete_ne; [done|]. intros ->. set_solver.
    + apply lookup_delete_Some in Hr as [? ?]. split; [set_solver|by exists r].
  - rewrite Hcount. f_equal. symmetry. apply sum_over_size_ext. intros i Hi. simpl.
    rewrite lookup_delete_ne; [done|by apply Hlne].
Qed.

(** Adding or dropping an unlinked object changes no list. *)
Lemma sorted_unlinked pend s s' :
  linked pend s -> sorted s -> areas s' = areas s ->
  (forall i, i ∉ pend -> forall r, ranges s' !! i = Some r -> ranges s !! i = Some r) -> sorted s'.
Proof.
  intros HL Hs EA Hr a A HA. rewrite EA in HA. eapply area_sorted_sub; [by eapply Hs|done|].
  intros i r' Hi Hr'. exists r'. split; [|lia]. apply Hr; [|done].
  by destruct (linked_area _ _ HL _ _ _ HA Hi).
Qed.

Lemma wf_zalloc s n : wf s -> ranges s !! n = None -> wf_at {[n]} (zalloc_state n s).
Proof.
  intros [HL Hs Ha Hinj Hl Hlive Hsm] Hn.
  pose proof (linked_zalloc s n HL Hn) as HL'. split; try done.
  - intros a A HA. eapply area_sorted_sub; [by eapply Hs|done|]. simpl.
    intros i r' Hi. rewrite lookup_insert. intros Hr'. case_decide; simplify_eq.
    + destruct (linked_area _ _ HL _ _ _ HA Hi) as (_ & ? & ? & _). congruence.
    + exists r'. split; [done|lia].
  - intros a A HA. apply (area_ok_files s); [done|by eapply Ha].
  - intros i r. simpl. rewrite lookup_insert. intros Hr. case_decide; simplify_eq; [|by eapply Hsm].
    unfold range_small, spare_range; simpl. lia.
Qed.

Lemma wf_free s n : wf_at {[n]} s -> wf (free_state n s).
Proof.
  intros [HL Hs Ha Hinj Hl Hlive Hsm].
  pose proof (linked_free s n HL) as HL'. split; try done.
  - eapply sorted_unlinked; [exact HL|exact Hs|done|]. simpl.
    by intros i _ r [_ ?]%lookup_delete_Some.
  - intros a A HA. apply (area_ok_files s); [done|by eapply Ha].
  - intros i r Hr. simpl in Hr. apply lookup_delete_Some in Hr as [_ ?]. by eapply Hsm.
Qed.

Lemma status_free pend s n a p v : linked pend s -> n ∈ pend ->
  status (free_state n s) a p v <-> status s a p v.
Proof.
  intros HL Hn. unfold status, free_state. simpl.
  split; intros (A & id & r & HA & Hid & Hr & ?); exists A, id, r; (split; [done|]); (split; [done|]).
  - by apply lookup_delete_Some in Hr as [_ ?].
  - rewrite lookup_delete_ne; [done|]. intros ->.
    by destruct (linked_area _ _ HL _ _ _ HA Hid).
Qed.

Lemma status_zalloc s n a p v : linked ∅ s -> ranges s !! n = None ->
  status (zalloc_state n s) a p v <-> status s a p v.
Proof.
  intros HL Hn. unfold status, zalloc_state. simpl.
  split; intros (A & id & r & HA & Hid & Hr & ?); exists A, id, r; (split; [done|]); (split; [done|]).
  - rewrite lookup_insert in Hr. case_decide; simplify_eq; [|done].
    destruct (linked_area _ _ HL _ _ _ HA Hid) as (_ & ? & ? & _). congruence.
  - rewrite lookup_insert_ne; [done|]. intros ->. congruence.
Qed.

Lemma pin_request_ok sz offset len st en :
  is_u32 offset -> is_u32 len -> pin_request sz offset len = Some (st, en) ->
  request st en /\ request_small st en /\ st = offset / PAGE_SIZE /\
  (len <> 0 -> st <= en /\ en = (offset + len) / PAGE_SIZE - 1).
Proof.
  unfold pin_request. intros Ho Hl.
  set (len' := if len =? 0 then u32 (PAGE_ALIGN sz - offset) else len).
  assert (Hl' : is_u32 len') by (unfold len'; case_if; [apply u32_range|done]).
  assert (El : len <> 0 -> len' = len) by (unfold len'; intros ?; case_if; [zbool|]; done).
  clearbody len'.
  assert (Emask : forall x, Z.land x (PAGE_SIZE - 1) = x mod 4096).
  { intros x. change (PAGE_SIZE - 1) with (Z.ones 12). by rewrite Z.land_ones. }
  case_if; [done|]. zbool. rewrite Z.land_lor_distr_l, !Emask in Heqb.
  apply Z.lor_eq_0_iff in Heqb as [Hom Hlm].
  case_if; [done|]. case_if; [done|]. zbool. intros [= <- <-].
  unfold is_u32, two32 in *.
  assert (E1 : u32 (u32 (-1) - offset) = 4294967295 - offset).
  { change (u32 (-1)) with 4294967295. apply u32_small. unfold is_u32, two32. lia. }
  rewrite E1 in *. unfold PAGE_SIZE.
  pose proof (Z.div_mod offset 4096 ltac:(lia)). pose proof (Z.div_mod len' 4096 ltac:(lia)).
  assert (0 <= offset / 4096 <= 1048575) by (split; [apply Z.div_pos; lia|apply Z.div_le_upper_bound; lia]).
  assert (0 <= len' / 4096) by (apply Z.div_pos; lia).
  assert (Hsum : offset / 4096 + len' / 4096 <= 1048576).
  { assert (4096 * (offset / 4096 + len' / 4096) <= 4294967295) by lia. lia. }
  set (q := offset / 4096) in *. set (k := len' / 4096) in *.
  assert (Hen : (q = 0 /\ k = 0 /\ u64 (q + k - 1) = two64 - 1) \/
                (0 < q + k /\ u64 (q + k - 1) = q + k - 1)).
  { destruct (decide (q + k = 0)) as [E|].
    - left. rewrite E. split; [lia|]. split; [lia|done].
    - right. split; [lia|]. apply u64_small. unfold is_u64, two64. lia. }
  split; [|split; [|split; [done|]]].
  - unfold request, two64 in *. lia.
  - unfold request_small, two64 in *. lia.
  - intros Hne. specialize (El Hne). subst k q len'.
    assert (Hk : 0 < len / 4096) by lia. destruct Hen as [(? & ? & _)|(? & ->)]; [lia|].
    split; [lia|]. f_equal. apply Z.div_unique with 0; lia.
Qed.

(** No range of the area is empty. *)
Definition no_empty_range (s : ashmem) (a : nat) : Prop :=
  forall A id r, areas s !! a = Some A -> id ∈ unpinned_list A ->
  ranges s !! id = Some r -> pgstart r <= pgend r.

Lemma status_hit s a A p st en :
  areas s !! a = Some A -> st <= p <= en -> status s a p ASHMEM_WAS_PURGED ->
  hit_purged s (unpinned_list A) st en.
Proof.
  intros HA Hp (id & Hid & r & Hr & ? & ?)%(status_area s a A); [|done].
  exists id, r. split; [done|]. split; [done|]. bools. split; [lia|]. split; [lia|done].
Qed.

Lemma hit_status s a A st en :
  areas s !! a = Some A -> no_empty_range s a -> st <= en ->
  hit_purged s (unpinned_list A) st en -> exists p, st <= p <= en /\ status s a p ASHMEM_WAS_PURGED.
Proof.
  intros HA Hne Hse (id & r & Hid & Hr & Hb & Hin & Hv).
  specialize (Hne A id r HA Hid Hr).
  exists (Z.max (pgstart r) st). bools. split; [lia|]. exists A, id, r.
  do 3 (split; [done|]). split; [lia|done].
Qed.

(** The spare object after the call: freed, unless it was linked. *)
Definition finish_spare (n : nat) (new : option nat) (s : ashmem) : ashmem :=
  match new with Some _ => free_state n s | None => s end.

Lemma wf_finish_spare pend n new s :
  new = Some n \/ new = None -> pend = {[n]} -> wf_at (spare pend n new) s -> wf (finish_spare n new s).
Proof.
  intros [->| ->] -> Hwf; simpl in *; [by apply wf_free|].
  by rewrite difference_diag_L in Hwf.
Qed.

Lemma only_area_spare a A n new s s' :
  wf s -> ranges s !! n = None -> areas s !! a = Some A ->
  only_area a (zalloc_state n s) s' -> linked (spare {[n]} n new) s' ->
  only_area a s (finish_spare n new s').
Proof.
  intros Hwf Hn HA [O1 O2 O3 O4 O5 O6] HL.
  assert (Hr : forall b B i, b <> a -> areas s !! b = Some B -> i ∈ unpinned_list B ->
            ranges s' !! i = ranges s !! i /\ n <> i).
  { intros b B i Hb HB Hi. assert (n <> i).
    { intros ->. destruct (linked_area _ _ (wf_linked _ _ Hwf) _ _ _ HB Hi) as (_ & ? & ? & _). congruence. }
    split; [|done]. rewrite (O3 b B i) by done. simpl. by rewrite lookup_insert_ne. }
  destruct new; split; simpl; try done.
  - intros b B i Hb HB Hi. destruct (Hr b B i Hb HB Hi). by rewrite lookup_delete_ne.
  - intros b B i Hb HB Hi. by destruct (Hr b B i Hb HB Hi).
Qed.

(** [ashmem_pin] as the ioctl runs it: the spare object is allocated before
    and freed after. *)
Lemma pin_call s a A n st en :
  wf s -> areas s !! a = Some A -> ranges s !! n = None -> request st en -> request_small st en ->
  exists rv new s',
    ashmem_pin a st en (Some n) (zalloc_state n s) = Some ((rv, new), s') /\
    (new = Some n \/ new = None) /\
    wf (finish_spare n new s') /\ only_area a s (finish_spare n new s') /\
    (forall p v, status (finish_spare n new s') a p v <-> status s a p v /\ ~ st <= p <= en) /\
    (rv = ASHMEM_NOT_PURGED \/ rv = ASHMEM_WAS_PURGED) /\
    (st <= en -> rv = ASHMEM_WAS_PURGED <-> hit_purged s (unpinned_list A) st en).
Proof.
  intros Hwf HA Hn Hreq Hsm. pose proof (wf_zalloc s n Hwf Hn) as Hwf0.
  destruct (ashmem_pin_ok a n st en {[n]} (zalloc_state n s) A Hreq (wf_linked _ _ Hwf0)
    (wf_sorted _ _ Hwf0) HA) as (rv & new & s' & E & HP); [set_solver|].
  exists rv, new, s'. split; [done|].
  pose proof HP as [Hnew [HL' Hs' Ho' _] _ Hrv Hh].
  assert (HB : bounded s').
  { unfold ashmem_pin in E. erewrite bind_eq in E by (by apply area_at_eq).
    eapply ashmem_pin_loop_bounded; [exact Hsm| |exact E]. exact (wf_small _ _ Hwf0). }
  pose proof (wf_only_area _ _ a A _ _ Hwf0 HA Ho' HL' Hs' HB) as Hwf'.
  split; [done|]. split; [by eapply wf_finish_spare|].
  split; [by eapply only_area_spare|]. split; [|split; [done|]].
  - intros p v. rewrite <- (status_zalloc s n) by (done || apply Hwf).
    rewrite <- (pin_post_status _ _ _ _ _ _ _ _ _ _ _ p v HP).
    destruct Hnew as [->| ->]; simpl; [|done].
    apply (status_free {[n]}); [exact HL'|set_solver].
  - intros Hse. rewrite (Hh Hse). unfold ASHMEM_WAS_PURGED, ASHMEM_NOT_PURGED.
    rewrite (hit_ext s (zalloc_state n s)); [intuition lia|].
    intros i Hi. simpl. rewrite lookup_insert_ne; [done|]. intros ->.
    destruct (linked_area _ _ (wf_linked _ _ Hwf) _ _ _ HA Hi) as (_ & ? & ? & _). congruence.
Qed.

Lemma unpin_call s a A n st en :
  wf s -> areas s !! a = Some A -> is_Some (file A) -> ranges s !! n = None ->
  request st en -> request_small st en ->
  exists new s',
    ashmem_unpin a st en (Some n) (zalloc_state n s) = Some ((0, new), s') /\
    (new = Some n \/ new = None) /\
    wf (finish_spare n new s') /\ only_area a s (finish_spare n new s') /\
    (forall p, unpinned (finish_spare n new s') a p <-> unpinned s a p \/ st <= p <= en) /\
    (forall p, status s a p ASHMEM_WAS_PURGED -> status (finish_spare n new s') a p ASHMEM_WAS_PURGED).
Proof.
  intros Hwf HA Hf Hn Hreq Hsm. pose proof (wf_zalloc s n Hwf Hn) as Hwf0.
  destruct (ashmem_unpin_ok a n st en {[n]} (zalloc_state n s) A Hreq (wf_linked _ _ Hwf0)
    (wf_sorted _ _ Hwf0) HA Hf) as (new & s' & E & [Hnew HL' Hs' Ho' Hpg Hpu]); [set_solver|].
  exists new, s'. split; [done|].
  assert (HB : bounded s').
  { unfold ashmem_unpin in E. erewrite bind_eq in E by (by apply area_at_eq).
    eapply ashmem_unpin_loop_bounded; [exact Hsm| |exact E]. exact (wf_small _ _ Hwf0). }
  pose proof (wf_only_area _ _ a A _ _ Hwf0 HA Ho' HL' Hs' HB) as Hwf'.
  assert (Hfin : forall p v, status (finish_spare n new s') a p v <-> status s' a p v).
  { intros p v. destruct Hnew as [->| ->]; simpl; [|done].
    apply (status_free {[n]}); [exact HL'|set_solver]. }
  split; [done|]. split; [by eapply wf_finish_spare|].
  split; [by eapply only_area_spare|]. split.
  - intros p. unfold unpinned in *. setoid_rewrite Hfin. rewrite Hpg.
    setoid_rewrite (status_zalloc s n); [done|apply Hwf|done].
  - intros p Hp. apply Hfin, Hpu. left. apply status_zalloc; [apply Hwf|done|done].
Qed.

(** ** Reference counts of backing files *)

Definition add_ref (n : Z) (F : vmfile) : vmfile :=
  VmFile (f_count F + n) (f_mode_lseek F) (f_op_overridden F) (f_pos F).

Lemma get_file_eq s f F : files s !! f = Some F ->
  get_file f s = Some (tt, set_files (<[f := add_ref 1 F]> (files s)) s).
Proof. intros HF. unfold get_file, file_at, bind, get. simpl. by rewrite HF. Qed.

Lemma fput_eq s f F : files s !! f = Some F ->
  fput f s = Some (tt, set_files (<[f := add_ref (-1) F]> (files s)) s).
Proof. intros HF. unfold fput, file_at, bind, get. simpl. by rewrite HF. Qed.

(** Same areas, ranges, lists: only reference counts moved. *)
Record refs_only (s s' : ashmem) : Prop := RefsOnly {
  ro_wf : wf s';
  ro_areas : areas s' = areas s;
  ro_ranges : ranges s' = ranges s;
  ro_area_list : ashmem_area_list s' = ashmem_area_list s;
  ro_inflight : ashmem_shrink_inflight s' = ashmem_shrink_inflight s;
  ro_files f : is_Some (files s !! f) -> is_Some (files s' !! f)
}.

Lemma refs_only_refl s : wf s -> refs_only s s.
Proof. by split. Qed.

Lemma refs_only_ref s f F n : wf s -> files s !! f = Some F ->
  refs_only s (set_files (<[f := add_ref n F]> (files s)) s).
Proof.
  intros Hwf HF. split; try done; [by eapply wf_update_file|].
  intros g [G HG]. simpl. rewrite lookup_insert. case_decide; by eexists.
Qed.

Lemma refs_only_trans s1 s2 s3 : refs_only s1 s2 -> refs_only s2 s3 -> refs_only s1 s3.
Proof. intros [] []. split; try done; try congruence. eauto. Qed.

(** ** Open and release *)

Lemma new_area_ok s mode : area_ok s (new_area mode).
Proof.
  by split.
Qed.

Lemma linked_add_area pend s a A :
  linked pend s -> areas s !! a = None -> unpinned_list A = [] ->
  linked pend (set_areas (<[a := A]> (areas s)) s).
Proof.
  intros [Hnd Harea Hrange Hpend Hlnd Hlru Hcount Hfile] Ha El. split; simpl; try done.
  - intros b B. rewrite lookup_insert. intros HB. case_decide; simplify_eq; [|by eauto].
    rewrite El. constructor.
  - intros b B i. rewrite lookup_insert. intros HB. case_decide; simplify_eq; [|by eauto].
    rewrite El. by intros ?%not_elem_of_nil.
  - intros i r Hr Hp. destruct (Hrange i r Hr Hp) as (? & B & HB & ?). split; [done|].
    exists B. rewrite lookup_insert_ne; [done|]. intros ->. congruence.
  - intros b B. rewrite lookup_insert. intros HB. case_decide; simplify_eq; [|by eauto].
    by rewrite El.
Qed.

Lemma wf_add_area s a mode :
  wf s -> areas s !! a = None ->
  wf (set_area_list (ashmem_area_list s ++ [a]) (set_areas (<[a := new_area mode]> (areas s)) s)).
Proof.
  intros [HL Hs Ha Hinj Hl Hlive Hsm] HA.
  assert (HL' : linked ∅ (set_area_list (ashmem_area_list s ++ [a])
            (set_areas (<[a := new_area mode]> (areas s)) s))).
  { by destruct (linked_add_area _ _ _ (new_area mode) HL HA eq_refl). }
  assert (Hnl : a ∉ ashmem_area_list s) by (intros [? ?]%Hlive; congruence).
  split; simpl; try done.
  - intros b B. simpl. rewrite lookup_insert. intros HB. case_decide; simplify_eq; [constructor|].
    by eapply Hs.
  - intros b B. rewrite lookup_insert. intros HB. case_decide; simplify_eq; [apply new_area_ok|].
    apply (area_ok_files s); [done|by eapply Ha].
  - intros b c B C f. rewrite !lookup_insert. intros HB HC HfB HfC.
    repeat case_decide; simplify_eq; try done. by eapply Hinj.
  - apply NoDup_app. split; [done|]. split; [|apply NoDup_singleton].
    intros x Hx ->%list_elem_of_singleton. done.
  - intros b. rewrite elem_of_app, list_elem_of_singleton, Hlive, lookup_insert.
    case_decide; subst; [split; [by eexists|by right]|]. split; [intros [?|?]; congruence|by left].
Qed.

Lemma ashmem_open_ok mode a s :
  wf s -> areas s !! a = None ->
  exists s', ashmem_open mode 0 (Some a) s = Some (0, s') /\ wf s' /\
    areas s' = <[a := new_area mode]> (areas s) /\ ranges s' = ranges s /\ files s' = files s.
Proof. intros Hwf Ha. eexists. split; [reflexivity|]. split; [exact (wf_add_area s a mode Hwf Ha)|done]. Qed.

Lemma wf_del s id r A :
  wf s -> ranges s !! id = Some r -> areas s !! asma r = Some A -> id ∈ unpinned_list A ->
  wf (del_state id r A s) /\ only_area (asma r) s (del_state id r A s).
Proof.
  intros Hwf Hr HA Hid.
  destruct (narrowed_del ∅ s id r A (fun p => pgstart r <= p <= pgend r)) as [? ? ? _];
    try done; try apply Hwf.
  split; [|done]. eapply wf_only_area; try done. by apply (bounded_delete s _ id (wf_small _ _ Hwf)).
Qed.

Lemma range_del_all_ok a L : forall l s A,
  wf s -> areas s !! a = Some A -> unpinned_list A = l ->
  exists s', range_del_all l (set_area_list L s) = Some (tt, set_area_list L s') /\
    wf s' /\ only_area a s s' /\ areas s' !! a = Some (set_unpinned [] A).
Proof.
  induction l as [|id l IH]; intros s A Hwf HA El; cbn [range_del_all].
  - exists s. split; [done|]. split; [done|]. split; [apply only_area_refl|].
    rewrite HA. destruct A. simpl in *. by subst.
  - assert (Hid : id ∈ unpinned_list A) by (rewrite El; constructor).
    destruct (linked_area _ _ (wf_linked _ _ Hwf) _ _ _ HA Hid) as (_ & r & Hr & <-).
    destruct (wf_del s id r A Hwf Hr HA Hid) as [Hwf1 Ho1].
    erewrite bind_eq by (by apply (range_del_eq (set_area_list L s))).
    pose proof (linked_nodup _ _ (wf_linked _ _ Hwf) _ _ HA) as Hnd. rewrite El in Hnd.
    destruct (IH (del_state id r A s) (set_unpinned l A) Hwf1) as (s' & E & Hwf' & Ho' & HA'); [|done|].
    + simpl. rewrite lookup_insert_eq, El, list_del_head by done. done.
    + exists s'. split; [exact E|]. split; [done|]. split; [by eapply only_area_trans|done].
Qed.

Lemma wf_remove_area s a A :
  wf s -> areas s !! a = Some A -> unpinned_list A = [] ->
  wf (set_areas (delete a (areas s)) (set_area_list (list_del a (ashmem_area_list s)) s)).
Proof.
  intros [[Hnd Harea Hrange Hpend Hlnd Hlru Hcount Hfile] Hs Ha Hinj Hl Hlive Hsm] HA El.
  split; [split|..]; simpl; try done.
  - intros b B [_ ?]%lookup_delete_Some. eauto.
  - intros b B i [_ ?]%lookup_delete_Some. eauto.
  - intros i r Hr Hp. destruct (Hrange i r Hr Hp) as (? & B & HB & Hi). split; [done|].
    exists B. rewrite lookup_delete_ne; [done|]. intros E. rewrite <- E in HB. simplify_eq.
    rewrite El in Hi. by apply not_elem_of_nil in Hi.
  - intros b B [_ ?]%lookup_delete_Some. eauto.
  - intros b B HB. simpl in HB. apply lookup_delete_Some in HB as [_ HB]. by eapply (Hs b).
  - intros b B [_ HB]%lookup_delete_Some. apply (area_ok_files s); [done|by eapply Ha].
  - intros b c B C f [_ HB]%lookup_delete_Some [_ HC]%lookup_delete_Some. by eapply Hinj.
  - by apply list_del_NoDup.
  - intros b. rewrite elem_of_list_del, Hlive, lookup_delete. case_decide; subst.
    + split; [by intros [? _]|by intros [? ?]].
    + split; [tauto|]. intros ?. split; congruence.
Qed.

(** Dropping the area's reference on its backing file, with the area list
    already relinked to [L]. *)
Lemma drop_file_ok s a A L :
  wf s -> areas s !! a = Some A ->
  exists s', (match file A with Some f => fput f | None => ret tt end) (set_area_list L s) =
      Some (tt, set_area_list L s') /\ refs_only s s' /\
    (forall f F, file A = Some f -> files s !! f = Some F ->
       exists F', files s' !! f = Some F' /\ f_count F' = f_count F - 1).
Proof.
  intros Hwf HA. destruct (file A) as [f|] eqn:Ef.
  - destruct (ao_file _ _ (wf_area _ _ Hwf a A HA) f Ef) as (F & HF & _).
    eexists (set_files (<[f := add_ref (-1) F]> (files s)) s).
    split; [by rewrite (fput_eq _ f F)|]. split; [by apply refs_only_ref|].
    intros f' F0 [= <-] HF0. simpl. rewrite lookup_insert_eq. simplify_eq. by eexists.
  - exists s. split; [done|]. split; [by apply refs_only_refl|]. done.
Qed.

(** What closing an area leaves: none of its ranges, every other area and
    its pages as they were, one reference less on its backing file. *)
Record release_post (a : nat) (A : ashmem_area) (s s' : ashmem) : Prop := ReleasePost {
  rl_wf : wf s';
  rl_areas : areas s' = delete a (areas s);
  rl_ranges id r : ranges s' !! id = Some r -> asma r <> a;
  rl_status b p v : b <> a -> status s' b p v <-> status s b p v;
  rl_count f F : file A = Some f -> files s !! f = Some F ->
    exists F', files s' !! f = Some F' /\ f_count F' = f_count F - 1;
  rl_files f : is_Some (files s !! f) -> is_Some (files s' !! f);
  rl_inflight : ashmem_shrink_inflight s' = ashmem_shrink_inflight s
}.

Lemma status_remove_area s s1 s2 a b p v :
  only_area a s s1 -> b <> a -> ranges s2 = ranges s1 -> areas s2 = delete a (areas s1) ->
  status s2 b p v <-> status s b p v.
Proof.
  intros Ho Hb ER EA. unfold status. rewrite EA, lookup_delete_ne by done. rewrite ER.
  rewrite (oa_other _ _ _ Ho) by done.
  split; intros (B & id & r & HB & Hid & Hr & ?); exists B, id, r; (split; [done|]);
    (split; [done|]); (split; [|done]).
  - by rewrite <- (oa_ranges _ _ _ Ho b B).
  - by rewrite (oa_ranges _ _ _ Ho b B).
Qed.

Lemma ashmem_release_ok a A s :
  wf s -> areas s !! a = Some A ->
  exists s', ashmem_release a s = Some (0, s') /\ release_post a A s s'.
Proof.
  intros Hwf HA. unfold ashmem_release.
  erewrite bind_eq by (by apply area_at_eq). erewrite bind_eq by reflexivity.
  destruct (range_del_all_ok a (list_del a (ashmem_area_list s)) _ s A Hwf HA eq_refl)
    as (s1 & E & Hwf1 & Ho & HA1).
  erewrite bind_eq by exact E.
  destruct (drop_file_ok s1 a _ (list_del a (ashmem_area_list s)) Hwf1 HA1)
    as (s2 & E2 & [Hwf2 EA ER EL EI EF] & Hcnt).
  erewrite bind_eq by exact E2. eexists. split; [reflexivity|].
  assert (HA2 : areas s2 !! a = Some (set_unpinned [] A)) by by rewrite EA.
  pose proof (wf_remove_area s2 a _ Hwf2 HA2 eq_refl) as Hwf3.
  split.
  - rewrite EL, (oa_area_list _ _ _ Ho) in Hwf3. exact Hwf3.
  - simpl. rewrite EA. apply map_eq. intros b. rewrite !lookup_delete.
    case_decide; [done|]. by apply (oa_other _ _ _ Ho).
  - simpl. intros id r Hr <-.
    destruct (linked_range _ _ (wf_linked _ _ Hwf2) id r Hr) as (_ & B & HB & Hi); [set_solver|].
    simplify_eq. by apply not_elem_of_nil in Hi.
  - intros b p v Hb. eapply (status_remove_area s s1); try done. simpl. by rewrite EA.
  - intros f F Hf HF. apply Hcnt; [done|]. by rewrite (oa_files _ _ _ Ho).
  - intros f Hf. apply EF. by rewrite (oa_files _ _ _ Ho).
  - simpl. rewrite EI. apply Ho.
Qed.

(** ** mmap *)

(** What the memory manager's headers document about their flags: the ABI
    bit positions, and the two macros. *)
Record mm_laws (E : mm_env) : Prop := MmLaws {
  law_trans x b1 b2 : calc_vm_trans E x b1 b2 = if Z.land x b1 =? 0 then 0 else b2;
  law_prot p : calc_vm_prot_bits E p 0 =
    Z.lor (Z.lor (calc_vm_trans E p PROT_READ (VM_READ E))
                 (calc_vm_trans E p PROT_WRITE (VM_WRITE E)))
          (calc_vm_trans E p PROT_EXEC (VM_EXEC E));
  law_flags : VM_READ E = 1 /\ VM_WRITE E = 2 /\ VM_EXEC E = 4 /\
    VM_MAYREAD E = 16 /\ VM_MAYWRITE E = 32 /\ VM_MAYEXEC E = 64
}.

Lemma trans_bit E x i v j : mm_laws E -> 0 <= i -> 0 <= j ->
  Z.testbit (calc_vm_trans E x (2 ^ i) (2 ^ v)) j = (Z.testbit x i && (j =? v)).
Proof.
  intros HE Hi Hj. rewrite (law_trans E HE).
  assert ((Z.land x (2 ^ i) =? 0) = negb (Z.testbit x i)) as ->.
  { destruct (Z.testbit x i) eqn:Hx; simpl.
    - apply Z.eqb_neq. intros H0. apply (f_equal (fun y => Z.testbit y i)) in H0.
      rewrite Z.land_spec, Hx, Z.pow2_bits_true, Z.bits_0 in H0 by lia. done.
    - apply Z.eqb_eq, Z.bits_inj'. intros k Hk. rewrite Z.land_spec, Z.bits_0, Z.pow2_bits_eqb by lia.
      destruct (Z.eqb_spec i k) as [->|]; [by rewrite Hx|apply andb_false_r]. }
  destruct (Z.testbit x i); simpl; [|apply Z.bits_0].
  destruct (Z.ltb_spec v 0).
  - rewrite Z.pow_neg_r, Z.bits_0 by lia. symmetry. apply Z.eqb_neq. lia.
  - rewrite Z.pow2_bits_eqb by lia. apply Z.eqb_sym.
Qed.

Lemma prot_bits_bit E p i : mm_laws E -> 0 <= i < 3 ->
  Z.testbit (calc_vm_prot_bits E p 0) i = Z.testbit p i.
Proof.
  intros HE Hi. rewrite (law_prot E HE). destruct (law_flags E HE) as (-> & -> & -> & _).
  rewrite !Z.lor_spec, (trans_bit E p 0 0), (trans_bit E p 1 1), (trans_bit E p 2 2) by (done || lia).
  assert (i = 0 \/ i = 1 \/ i = 2) as [->|[->| ->]] by lia; simpl;
    by rewrite ?andb_true_r, ?andb_false_r, ?orb_false_r.
Qed.

Lemma may_flags_bit E p i : mm_laws E -> 0 <= i < 3 ->
  Z.testbit (calc_vm_may_flags E p) (i + 4) = Z.testbit p i.
Proof.
  intros HE Hi. unfold calc_vm_may_flags. destruct (law_flags E HE) as (_ & _ & _ & -> & -> & ->).
  rewrite !Z.lor_spec, (trans_bit E p 0 4), (trans_bit E p 1 5), (trans_bit E p 2 6) by (done || lia).
  assert (i = 0 \/ i = 1 \/ i = 2) as [->|[->| ->]] by lia; simpl;
    by rewrite ?andb_true_r, ?andb_false_r, ?orb_false_r.
Qed.

(** The access check passed: no forbidden access is requested. *)
Lemma prot_check_bit E flags mask i :
  mm_laws E -> 0 <= i < 3 ->
  Z.land (Z.land flags (not64 (calc_vm_prot_bits E mask 0))) (calc_vm_prot_bits E PROT_MASK 0) = 0 ->
  Z.testbit mask i = false -> Z.testbit flags i = false.
Proof.
  intros HE Hi H0 Hm. apply (f_equal (fun y => Z.testbit y i)) in H0.
  rewrite !Z.land_spec, Z.bits_0, not64_testbit, !prot_bits_bit, Hm in H0 by (done || lia).
  assert (Z.testbit PROT_MASK i = true) as E1.
  { assert (i = 0 \/ i = 1 \/ i = 2) as [->|[->| ->]] by lia; done. }
  rewrite E1 in H0. simpl in H0. by rewrite !andb_true_r in H0.
Qed.

Lemma flags_clear_bit E vma mask i :
  mm_laws E -> 0 <= i < 3 -> linux_ge_6_3 E = true -> Z.testbit mask i = false ->
  Z.testbit (vm_flags (compat_vm_flags_clear E vma (calc_vm_may_flags E (not64 mask)))) (i + 4) = false.
Proof.
  intros HE Hi Hk Hm. unfold compat_vm_flags_clear. rewrite Hk. simpl.
  rewrite Z.land_spec, not64_testbit, may_flags_bit, not64_testbit, Hm by (done || lia).
  apply andb_false_r.
Qed.

Lemma flags_clear_low E vma mask i :
  mm_laws E -> 0 <= i < 3 -> Z.testbit (vm_flags vma) i = false ->
  Z.testbit (vm_flags (compat_vm_flags_clear E vma mask)) i = false.
Proof.
  intros HE Hi Hf. unfold compat_vm_flags_clear. case_if; [|done]. simpl.
  by rewrite Z.land_spec, Hf.
Qed.

(** The tail of [ashmem_mmap]: attach the backing file to the mapping. *)
Lemma mmap_attach_ok E s f F vma zs :
  wf s -> files s !! f = Some F ->
  exists rv vma' s',
    (get_file f ;!
     let attach (vma : vm_area_struct) : M ashmem (Z * vm_area_struct) :=
       (match vm_file vma with
        | Some g => let! s := get in
            match files s !! g with Some _ => fput g | None => ret tt end
        | None => ret tt
        end) ;!
       ret (0, Vma (vm_start vma) (vm_end vma) (vm_flags vma) (Some f) (vm_anonymous vma)) in
     if negb (Z.land (vm_flags vma) (VM_SHARED E) =? 0) then
       let '(zr, zfile) := zs in
       if negb (zr =? 0) then fput f ;! ret (zr, vma)
       else attach (Vma (vm_start vma) (vm_end vma) (vm_flags vma) zfile (vm_anonymous vma))
     else attach (Vma (vm_start vma) (vm_end vma) (vm_flags vma) (vm_file vma) true)) s
    = Some ((rv, vma'), s') /\ refs_only s s' /\ vm_flags vma' = vm_flags vma /\
    (rv = 0 -> vm_file vma' = Some f).
Proof.
  intros Hwf HF. erewrite bind_eq by (by apply get_file_eq).
  pose proof (refs_only_ref s f F 1 Hwf HF) as Hr1.
  set (s1 := set_files (<[f := add_ref 1 F]> (files s)) s) in *.
  assert (HF1 : files s1 !! f = Some (add_ref 1 F)) by (simpl; apply lookup_insert_eq).
  assert (Hdrop : forall g, exists s2,
    (match g with
     | Some g => let! s := get in match files s !! g with Some _ => fput g | None => ret tt end
     | None => ret tt end) s1 = Some (tt, s2) /\ refs_only s s2).
  { intros [g|]; [|by exists s1]. destruct (files s1 !! g) as [G|] eqn:HG.
    - eexists. split; [erewrite bind_eq by reflexivity; rewrite HG; by apply fput_eq|].
      eapply refs_only_trans; [exact Hr1|]. apply refs_only_ref; [apply Hr1|done].
    - exists s1. split; [|done]. erewrite bind_eq by reflexivity. by rewrite HG. }
  cbv beta iota zeta. case_if; [destruct zs as [zr zfile]; destruct (zr =? 0) eqn:Hz; zbool|];
    cbn [negb vm_file vm_start vm_end vm_flags vm_anonymous].
  - destruct (Hdrop zfile) as (s2 & E2 & Hr2). subst. do 3 eexists.
    split; [erewrite bind_eq by exact E2; reflexivity|]. by split.
  - do 3 eexists. split; [erewrite bind_eq by (by apply fput_eq); reflexivity|]. split; [|done].
    eapply refs_only_trans; [exact Hr1|]. apply refs_only_ref; [apply Hr1|done].
  - destruct (Hdrop (vm_file vma)) as (s2 & E2 & Hr2). do 3 eexists.
    split; [erewrite bind_eq by exact E2; reflexivity|]. by split.
Qed.

(** What holds after [ashmem_mmap] returned [rv] with the mapping [vma']. *)
Record mmap_post (E : mm_env) (a : nat) (A : ashmem_area) (vma : vm_area_struct) (s : ashmem)
    (rv : Z) (vma' : vm_area_struct) (s' : ashmem) : Prop := MmapPost {
  mp_wf : wf s';
  mp_ranges : ranges s' = ranges s;
  mp_areas : areas s' = areas s \/
    exists f, file A = None /\ files s !! f = None /\
      areas s' = <[a := set_file (Some f) A]> (areas s);
  mp_files f : is_Some (files s !! f) -> is_Some (files s' !! f);
  mp_inflight : ashmem_shrink_inflight s' = ashmem_shrink_inflight s;
  mp_checks : rv = 0 -> size A <> 0 /\ u64 (vm_end vma - vm_start vma) <= PAGE_ALIGN (size A) /\
    Z.land (Z.land (vm_flags vma) (not64 (calc_vm_prot_bits E (prot_mask A) 0)))
           (calc_vm_prot_bits E PROT_MASK 0) = 0;
  mp_flags : rv = 0 -> vm_flags vma' =
    vm_flags (compat_vm_flags_clear E vma (calc_vm_may_flags E (not64 (prot_mask A))));
  mp_file : rv = 0 -> exists A' f, areas s' !! a = Some A' /\ file A' = Some f /\
    vm_file vma' = Some f
}.

Lemma mmap_post_fail E a A vma s rv vma' :
  wf s -> rv <> 0 -> mmap_post E a A vma s rv vma' s.
Proof. intros. split; try done. by left. Qed.

Lemma ashmem_mmap_ok E a A vma setup zs s :
  wf s -> areas s !! a = Some A ->
  (forall args f, setup args = inl f -> files s !! f = None) ->
  (forall args err, setup args = inr err -> err < 0) ->
  exists rv vma' s', ashmem_mmap E a vma setup zs s = Some ((rv, vma'), s') /\
    mmap_post E a A vma s rv vma' s'.
Proof.
  intros Hwf HA Hfresh Herr. unfold ashmem_mmap.
  erewrite bind_eq by (by apply area_at_eq).
  case_if; [do 3 eexists; split; [reflexivity|by apply mmap_post_fail]|].
  case_if; [do 3 eexists; split; [reflexivity|by apply mmap_post_fail]|].
  case_if; [do 3 eexists; split; [reflexivity|by apply mmap_post_fail]|].
  zbool. cbv zeta.
  set (vma1 := compat_vm_flags_clear E vma (calc_vm_may_flags E (not64 (prot_mask A)))) in *.
  destruct (file A) as [f|] eqn:Ef.
  { destruct (ao_file _ _ (wf_area _ _ Hwf a A HA) f Ef) as (F & HF & _).
    erewrite bind_eq by reflexivity.
    destruct (mmap_attach_ok E s f F vma1 zs Hwf HF) as (rv & vma' & s' & E1 & Hr & Hfl & Hfi).
    exists rv, vma', s'. split; [exact E1|]. split; try apply Hr; try done.
    - left. apply Hr.
    - intros Hrv. exists A, f. rewrite (ro_areas _ _ Hr). auto. }
  destruct (setup (ashmem_create_backing_file E A (vm_flags vma1))) as [f|err] eqn:Es.
  2:{ erewrite bind_eq by reflexivity. do 3 eexists. split; [reflexivity|].
      apply mmap_post_fail; [done|]. specialize (Herr _ _ Es). lia. }
  specialize (Hfresh _ _ Es).
  set (s1 := set_areas (<[a := set_file (Some f) A]> (areas s))
               (set_files (<[f := VmFile 1 true true 0]> (files s)) s)).
  assert (Hwf1 : wf s1).
  { apply (wf_update_area (set_files (<[f := VmFile 1 true true 0]> (files s)) s) a A
      (set_file (Some f) A)); try done.
    - by apply wf_new_file.
    - destruct (wf_area _ _ Hwf a A HA) as [? ? ? ? ?]. split; try done.
      intros g [= <-]. exists (VmFile 1 true true 0). simpl. by rewrite lookup_insert_eq.
    - right. exists f. do 2 (split; [done|]). intros b B HB HfB.
      destruct (ao_file _ _ (wf_area _ _ Hwf b B HB) f HfB) as (? & ? & _). congruence. }
  erewrite (bind_eq _ _ s (inl f) s1) by reflexivity.
  destruct (mmap_attach_ok E s1 f (VmFile 1 true true 0) vma1 zs Hwf1) as (rv & vma' & s' & E1 & Hr & Hfl & Hfi).
  { simpl. apply lookup_insert_eq. }
  exists rv, vma', s'. split; [exact E1|]. split; try apply Hr; try done.
  - right. exists f. do 2 (split; [done|]). by rewrite (ro_areas _ _ Hr).
  - intros g [G HG]. apply (ro_files _ _ Hr). simpl. rewrite lookup_insert. case_decide; by eexists.
  - intros Hrv. exists (set_file (Some f) A), f. rewrite (ro_areas _ _ Hr).
    split; [simpl; apply lookup_insert_eq|auto].
Qed.

(** ** Names *)

Lemma c_strlen_Some l n :
  c_strlen l = Some n <->
  l !! n = Some 0 /\ forall i, (i < n)%nat -> exists b, l !! i = Some b /\ b <> 0.
Proof.
  revert n. induction l as [|b l IH]; intros n; simpl.
  - split; [done|]. intros [H _]. by rewrite lookup_nil in H.
  - destruct (b =? 0) eqn:Hb; zbool.
    + subst. split.
      * intros [= <-]. split; [done|]. intros i Hi. lia.
      * intros [_ H]. destruct n as [|n]; [done|].
        destruct (H O) as (? & [= <-] & ?); [lia|done].
    + split.
      * intros (m & Hm & ->)%fmap_Some. apply IH in Hm as [Hm1 Hm2]. split; [done|].
        intros [|i] Hi; [by exists b|]. apply Hm2. lia.
      * intros [H1 H2]. destruct n as [|n]; [injection H1; congruence|]. apply fmap_Some. exists n.
        split; [|done]. apply IH. split; [done|]. intros i Hi. apply (H2 (S i)). lia.
Qed.

Lemma c_strlen_None l : c_strlen l = None <-> Forall (fun b => b <> 0) l.
Proof.
  induction l as [|b l IH]; simpl; [by split|].
  rewrite Forall_cons. destruct (b =? 0) eqn:Hb; zbool; [split; [done|by intros [? _]]|].
  rewrite fmap_None, IH. tauto.
Qed.

(** [strncpy_from_user(dst, src, 256)]: the length of the string without its
    NUL, or 256 when no NUL was found in 256 bytes. *)
Definition strncpy_doc (copied : Z * list Z) : Prop :=
  length (snd copied) = Z.to_nat ASHMEM_NAME_LEN /\
  (0 <= fst copied -> fst copied < ASHMEM_NAME_LEN /\ c_strlen (snd copied) = Some (Z.to_nat (fst copied)) \/
    fst copied = ASHMEM_NAME_LEN /\ c_strlen (snd copied) = None).

(** The string [set_name] stores: cut to 255 bytes. *)
Definition stored_name (copied : Z * list Z) : list Z :=
  take (Nat.min (Z.to_nat (fst copied)) 255) (snd copied).

(** The local buffer after the forced terminator. *)
Definition cut_name (copied : Z * list Z) : list Z :=
  if fst copied =? ASHMEM_NAME_LEN
  then <[Z.to_nat (ASHMEM_NAME_LEN - 1) := 0]> (snd copied) else snd copied.

Lemma cut_name_ok copied :
  strncpy_doc copied -> 0 <= fst copied ->
  length (cut_name copied) = 256%nat /\
  c_strlen (cut_name copied) = Some (Nat.min (Z.to_nat (fst copied)) 255) /\
  take (Nat.min (Z.to_nat (fst copied)) 255) (cut_name copied) = stored_name copied.
Proof.
  intros [Hlen Hdoc] H0. unfold cut_name, stored_name, ASHMEM_NAME_LEN in *.
  destruct copied as [len buf]; simpl in *. change (Z.to_nat 256) with 256%nat in *.
  change (Z.to_nat (256 - 1)) with 255%nat.
  destruct (Hdoc H0) as [[Hlt E]|[-> E]].
  - destruct (len =? 256) eqn:Hl; zbool; [lia|]. rewrite Nat.min_l by lia. by rewrite E.
  - simpl. change (Nat.min (Z.to_nat 256) 255) with 255%nat. split; [by rewrite length_insert|]. split.
    + apply c_strlen_None in E. apply c_strlen_Some. split.
      * apply list_lookup_insert_eq. lia.
      * intros i Hi. rewrite list_lookup_insert_ne by lia.
        destruct (lookup_lt_is_Some_2 buf i) as [b Hb]; [lia|].
        exists b. split; [done|]. rewrite Forall_lookup in E. by eapply E.
    + apply take_insert_ge. lia.
Qed.

Definition named (A : ashmem_area) (n : nat) (src : list Z) : list Z :=
  take 11 (name A) ++ take (S n) src ++ drop (11 + S n) (name A).

Lemma c_strcpy_name A src n :
  length (name A) = 267%nat -> c_strlen src = Some n -> length src = 256%nat ->
  c_strcpy (name A) 11 src = Some (named A n src).
Proof.
  intros Hl Hs Hsrc. unfold c_strcpy, c_memcpy. rewrite Hs. simpl.
  apply c_strlen_Some in Hs as [Hn _]. apply lookup_lt_Some in Hn.
  rewrite decide_True by lia. done.
Qed.

Lemma named_facts A src n :
  length (name A) = 267%nat -> c_strlen src = Some n -> length src = 256%nat ->
  length (named A n src) = 267%nat /\ take 11 (named A n src) = take 11 (name A) /\
  c_strlen (drop 11 (named A n src)) = Some n /\
  take n (drop 11 (named A n src)) = take n src.
Proof.
  intros Hl Hs Hsrc. pose proof Hs as [Hn Hlt]%c_strlen_Some.
  pose proof (lookup_lt_Some _ _ _ Hn) as Hn'. unfold named.
  assert (H11 : length (take 11 (name A)) = 11%nat) by (rewrite length_take; lia).
  assert (Hd : drop 11 (take 11 (name A) ++ take (S n) src ++ drop (11 + S n) (name A)) =
               take (S n) src ++ drop (11 + S n) (name A)).
  { rewrite drop_app_ge by lia. by rewrite H11. }
  split; [|split; [|split]].
  - rewrite !length_app, !length_take, length_drop. lia.
  - by rewrite take_app_le, take_take by lia.
  - rewrite Hd. apply c_strlen_Some. split.
    + rewrite lookup_app_l by (rewrite length_take; lia). by rewrite lookup_take_lt by lia.
    + intros i Hi. rewrite lookup_app_l by (rewrite length_take; lia).
      rewrite lookup_take_lt by lia. by apply Hlt.
  - rewrite Hd, take_app_le by (rewrite length_take; lia). rewrite take_take. f_equal. lia.
Qed.

Lemma set_name_ok a A copied s :
  wf s -> areas s !! a = Some A -> strncpy_doc copied -> 0 <= fst copied -> file A = None ->
  exists s', set_name a copied s = Some (0, s') /\ wf s' /\
    ranges s' = ranges s /\ ashmem_shrink_inflight s' = ashmem_shrink_inflight s /\
    files s' = files s /\
    let n := Nat.min (Z.to_nat (fst copied)) 255 in
    areas s' = <[a := set_area_name (named A n (cut_name copied)) A]> (areas s).
Proof.
  intros Hwf HA Hdoc H0 Hf. destruct (wf_area _ _ Hwf a A HA) as [Hl Hp Hnul Hsz Hfile].
  destruct (cut_name_ok copied Hdoc H0) as (Hl' & Hs & _).
  change (Z.to_nat ASHMEM_FULL_NAME_LEN) with 267%nat in Hl.
  destruct copied as [len buf]. simpl in H0.
  unfold set_name. destruct (len <? 0) eqn:Hneg; zbool; [lia|].
  erewrite bind_eq by (by apply area_at_eq). rewrite Hf.
  change (if len =? ASHMEM_NAME_LEN then _ else buf) with (cut_name (len, buf)).
  change (Z.to_nat ASHMEM_NAME_PREFIX_LEN) with 11%nat in *.
  erewrite c_strcpy_name by done. eexists. split; [reflexivity|].
  destruct (named_facts A (cut_name (len, buf)) _ Hl Hs Hl') as (N1 & N2 & N3 & _).
  split; [|done]. apply (wf_update_area s a A (set_area_name _ A)); try done; [|by left].
  split; [exact N1| |by eexists|done|done].
  rewrite <- Hp. exact N2.
Qed.

Lemma get_name_ok a A left_ s :
  wf s -> areas s !! a = Some A ->
  exists n, c_strlen (drop 11 (name A)) = Some n /\
  get_name a left_ s = Some ((if left_ =? 0 then 0 else - EFAULT,
    if decide (n = O) then ASHMEM_NAME_DEF ++ [0] else take (S n) (drop 11 (name A))), s).
Proof.
  intros Hwf HA. destruct (wf_area _ _ Hwf a A HA) as [_ _ [n Hn] _ _].
  change (Z.to_nat ASHMEM_NAME_PREFIX_LEN) with 11%nat in Hn.
  exists n. split; [done|]. unfold get_name. erewrite bind_eq by (by apply area_at_eq).
  change (Z.to_nat ASHMEM_NAME_PREFIX_LEN) with 11%nat. cbv zeta.
  pose proof Hn as [Hz Hlt]%c_strlen_Some. rewrite lookup_drop in Hz.
  destruct n as [|n].
  - rewrite Nat.add_0_r in Hz. rewrite Hz. erewrite bind_eq by reflexivity. by destruct (left_ =? 0).
  - destruct (Hlt O) as (b & Hb & ?); [lia|]. rewrite lookup_drop, Nat.add_0_r in Hb. rewrite Hb.
    simpl default. rewrite (proj2 (Z.eqb_neq b 0)) by done. simpl negb. cbv iota.
    erewrite bind_eq by (rewrite Hn; reflexivity). by destruct (left_ =? 0).
Qed.

(** ** The ioctls return, and keep the invariant *)

Lemma shrink_loop_total relock : forall fuel s i nr freed done_,
  wf s -> (length (ashmem_lru_list s) < fuel)%nat ->
  exists r s', shrink_loop fuel relock i nr freed done_ s = Some (r, s') /\ wf s'.
Proof.
  induction fuel as [|fuel IH]; intros s i nr freed done_ Hwf Hfuel; [lia|].
  cbn [shrink_loop]. destruct (ashmem_lru_list s) as [|id rest] eqn:El.
  { do 2 eexists. split; [|exact Hwf]. erewrite bind_eq; cycle 1.
    { unfold shrink_take, bind, get. rewrite El. reflexivity. }
    reflexivity. }
  destruct (scan_round_state s id rest Hwf El) as (p & pages & s1 & s2 & E1 & E2 & _ & [Hwf2 El2 _ _ _]).
  erewrite bind_eq by exact E1. cbv beta iota zeta. erewrite bind_eq by exact E2.
  case_if; [by do 2 eexists|]. case_if; [by do 2 eexists|].
  apply IH; [done|]. rewrite El2. simpl in Hfuel. lia.
Qed.

Lemma ashmem_shrink_scan_total gfp lock relock nr s :
  wf s -> exists r s', ashmem_shrink_scan gfp lock relock nr s = Some (r, s') /\ wf s'.
Proof.
  intros Hwf. unfold ashmem_shrink_scan.
  destruct gfp; cbn [negb]; [|by do 2 eexists]. destruct lock; cbn [negb]; [|by do 2 eexists].
  erewrite bind_eq by reflexivity. apply shrink_loop_total; [done|lia].
Qed.

(** The kernel's answers respect their documentation. *)
Record env_ok (s : ashmem) (E : ioctl_env) : Prop := EnvOk {
  eo_name : strncpy_doc (env_strncpy E);
  eo_pin o l : env_pin E = Some (o, l) -> is_u32 o /\ is_u32 l;
  eo_fresh n : env_zalloc E = Some n -> ranges s !! n = None
}.

Lemma ashmem_get_pin_status_total a A st en s :
  wf s -> areas s !! a = Some A -> exists r, ashmem_get_pin_status a st en s = Some (r, s).
Proof.
  intros Hwf HA. unfold ashmem_get_pin_status. erewrite bind_eq by (by apply area_at_eq).
  assert (Hr : forall i, i ∈ unpinned_list A -> is_Some (ranges s !! i)).
  { intros i Hi. destruct (linked_area _ _ (wf_linked _ _ Hwf) _ _ _ HA Hi) as (_ & r & ? & _). by exists r. }
  clear -Hr. induction (unpinned_list A) as [|i l IH]; cbn [ashmem_get_pin_status_loop]; [by eexists|].
  destruct (Hr i) as [r Hr1]; [constructor|]. erewrite bind_eq by (by apply range_at_eq).
  case_if; [by eexists|]. case_if; [by eexists|]. apply IH. intros j Hj. apply Hr. by constructor.
Qed.

(** The locked part of a pin or unpin, with the spare object [n]. *)
Lemma pin_dispatch_spare a A cmd o l n s :
  wf s -> areas s !! a = Some A -> is_u32 o -> is_u32 l -> ranges s !! n = None ->
  needs_range cmd = true ->
  exists r new s', pin_dispatch a cmd o l (Some n) (zalloc_state n s) = Some ((r, new), s') /\
    (new = Some n \/ new = None) /\
    wf (finish_spare n new s') /\ only_area a s (finish_spare n new s').
Proof.
  intros Hwf HA Ho Hl Hfresh Hcmd. unfold pin_dispatch.
  erewrite bind_eq by (by apply (area_at_eq (zalloc_state n s))).
  assert (Hbad : exists r new s', (ret (- EINVAL, Some n) : M ashmem (Z * option nat)) (zalloc_state n s)
      = Some ((r, new), s') /\ (new = Some n \/ new = None) /\
    wf (finish_spare n new s') /\ only_area a s (finish_spare n new s')).
  { do 3 eexists. split; [reflexivity|]. split; [by left|]. split; [by apply wf_free, wf_zalloc|].
    apply (only_area_spare a A n (Some n)); try done; [apply only_area_refl|].
    by apply linked_zalloc; [apply Hwf|]. }
  destruct (file A) as [f|] eqn:Hf; [|exact Hbad].
  destruct (pin_request (size A) o l) as [[st en]|] eqn:Hreq; [|exact Hbad].
  destruct (pin_request_ok _ _ _ _ _ Ho Hl Hreq) as (Hr1 & Hr2 & _).
  destruct cmd; [| |done].
  - destruct (pin_call s a A n st en) as (rv & new & s1 & E1 & ? & ? & ? & _); try done. eauto 10.
  - destruct (unpin_call s a A n st en) as (new & s1 & E1 & ? & ? & ? & _); try done; eauto 10.
Qed.

(** A pin, unpin or status request never oopses and never leaks its spare
    object; it sleeps only when a purge is in flight. *)
Lemma ashmem_pin_unpin_total a A cmd pin zalloc s :
  wf s -> areas s !! a = Some A ->
  (forall o l, pin = Some (o, l) -> is_u32 o /\ is_u32 l) ->
  (forall n, zalloc = Some n -> ranges s !! n = None) ->
  exists r s', ashmem_pin_unpin a cmd pin zalloc s = Some (r, s') /\
    (r = None \/ wf s' /\ only_area a s s') /\
    (r = None -> ashmem_shrink_inflight s <> 0).
Proof.
  intros Hwf HA Hpin Hfresh. pose proof (only_area_refl a s) as Hrefl. unfold ashmem_pin_unpin.
  destruct pin as [[o l]|]; [|by do 2 eexists; split; [reflexivity|auto]].
  destruct (Hpin o l eq_refl) as [Ho Hl]. cbv zeta.
  destruct (_ && _) eqn:Hnomem; [by do 2 eexists; split; [reflexivity|auto]|].
  destruct (needs_range cmd) eqn:Hcmd.
  - destruct zalloc as [n|]; [|by zbool]. specialize (Hfresh n eq_refl).
    erewrite bind_eq by reflexivity. erewrite bind_eq by reflexivity.
    change (set_ranges (<[n:=Range 0 0 0 0]> (ranges s)) s) with (zalloc_state n s).
    case_if; zbool; [do 2 eexists; split; [reflexivity|]; split; [by left|done]|].
    destruct (pin_dispatch_spare a A cmd o l n s) as (r & new & s' & E & Hnew & Hwf' & Ho'); try done.
    erewrite bind_eq by exact E. cbv beta iota.
    destruct Hnew as [->| ->]; simpl finish_spare in *;
      (do 2 eexists; split; [reflexivity|]; split; [|done]; right; split; [done|apply Ho']).
  - destruct cmd; try done. erewrite bind_eq by reflexivity. erewrite bind_eq by reflexivity.
    case_if; zbool; [do 2 eexists; split; [reflexivity|]; split; [by left|done]|].
    assert (exists r, pin_dispatch a GET_PIN_STATUS o l None s = Some ((r, None), s)) as [r E].
    { unfold pin_dispatch. erewrite bind_eq by (by apply area_at_eq).
      destruct (file A); [|by eexists]. destruct (pin_request (size A) o l) as [[st en]|]; [|by eexists].
      destruct (ashmem_get_pin_status_total a A st en s Hwf HA) as [r E].
      erewrite bind_eq by exact E. by eexists. }
    erewrite bind_eq by exact E. do 2 eexists. split; [reflexivity|]. auto.
Qed.
