(* ===== verification/AshmemSystem.v ===== *)
(** * ashmem: the driver as a system of interleaved operations

    The shrinker drops [ashmem_mutex] while it punches a hole in a backing
    file, so opens, closes, ioctls and mappings interleave with purges in
    flight.  [sys_step] is that interleaving, one rule per critical section;
    [sys_inv] holds in every reachable state.  The file ends with the
    component's properties and their witnesses. *)

From Stdlib Require Import ZArith Lia.
From stdpp Require Import base option gmap sets sorting list.
From S2P Require Import Prelude AshmemRange AshmemRangeFacts AshmemDev AshmemDevFacts.

(** ** Steps *)

(** [scans]: the purges between [shrink_take] and [shrink_finish]. *)
Record sys := Sys { dev : ashmem; scans : list punch }.

Inductive sys_step (E : mm_env) : sys -> sys -> Prop :=
  | step_open mode a s sc s' :
      areas s !! a = None -> ashmem_open mode 0 (Some a) s = Some (0, s') ->
      sys_step E (Sys s sc) (Sys s' sc)
  | step_release a s sc rv s' :
      ashmem_release a s = Some (rv, s') ->
      sys_step E (Sys s sc) (Sys s' sc)
  | step_mmap a vma setup zs s sc r s' :
      (forall args f, setup args = inl f -> files s !! f = None) ->
      (forall args err, setup args = inr err -> err < 0) ->
      ashmem_mmap E a vma setup zs s = Some (r, s') ->
      sys_step E (Sys s sc) (Sys s' sc)
  | step_ioctl a cmd arg env s sc rv bytes s' :
      cmd <> ASHMEM_PURGE_ALL_CACHES -> env_ok s env -> is_Some (areas s !! a) ->
      ashmem_ioctl a cmd arg env s = Some ((Some rv, bytes), s') ->
      sys_step E (Sys s sc) (Sys s' sc)
  | step_read a vfs s sc rv s' :
      ashmem_read_iter a vfs s = Some (rv, s') ->
      sys_step E (Sys s sc) (Sys s' sc)
  | step_llseek a vfs s sc r s' :
      ashmem_llseek a vfs s = Some (r, s') ->
      sys_step E (Sys s sc) (Sys s' sc)
  | step_take s sc p pages s' :
      shrink_take s = Some (Some (p, pages), s') ->
      sys_step E (Sys s sc) (Sys s' (sc ++ [p]))
  | step_finish p s sc1 sc2 s' :
      shrink_finish p s = Some (tt, s') ->
      sys_step E (Sys s (sc1 ++ p :: sc2)) (Sys s' (sc1 ++ sc2)).

(** ** The system invariant *)

(** A hole being punched lies over pages that are unpinned and marked purged
    in whatever open area the file backs. *)
Definition punch_safe (s : ashmem) (p : punch) : Prop :=
  forall a A q, areas s !! a = Some A -> file A = Some (punch_file p) ->
  punch_start p <= q * PAGE_SIZE < punch_start p + punch_len p ->
  status s a q ASHMEM_WAS_PURGED.

Record sys_inv (S : sys) : Prop := SysInv {
  si_wf : wf (dev S);
  si_inflight : ashmem_shrink_inflight (dev S) = Z.of_nat (length (scans S));
  si_file p : p ∈ scans S -> is_Some (files (dev S) !! punch_file p);
  si_safe p : p ∈ scans S -> punch_safe (dev S) p
}.

(** What an operation other than the shrinker's does to purges in flight. *)
Record harmless (s s' : ashmem) : Prop := Harmless {
  hl_wf : wf s';
  hl_inflight : ashmem_shrink_inflight s' = ashmem_shrink_inflight s;
  hl_files f : is_Some (files s !! f) -> is_Some (files s' !! f);
  hl_back a A' f : areas s' !! a = Some A' -> file A' = Some f ->
    files s !! f = None \/ exists A, areas s !! a = Some A /\ file A = Some f;
  hl_status a q : is_Some (areas s' !! a) -> ashmem_shrink_inflight s <> 0 ->
    status s a q ASHMEM_WAS_PURGED -> status s' a q ASHMEM_WAS_PURGED
}.

Lemma harmless_inv s s' sc : sys_inv (Sys s sc) -> harmless s s' -> sys_inv (Sys s' sc).
Proof.
  intros [Hwf Hi Hf Hs] [Hwf' Hi' Hf' Hb Hst]. simpl in *. split; simpl; try done.
  - congruence.
  - intros p Hp. by apply Hf', Hf.
  - intros p Hp a A' q HA' HfA Hq. apply Hst; [by eexists| |].
    + rewrite Hi. destruct sc; [by apply not_elem_of_nil in Hp|done].
    + destruct (Hb a A' _ HA' HfA) as [HN|(A & HA & HfA0)].
      * destruct (Hf p Hp) as [? ?]. congruence.
      * by eapply (Hs p Hp a A).
Qed.

(** Operations that keep every page's state. *)
Lemma harmless_pages s s' :
  wf s' -> ashmem_shrink_inflight s' = ashmem_shrink_inflight s ->
  (forall f, is_Some (files s !! f) -> is_Some (files s' !! f)) ->
  (forall a A' f, areas s' !! a = Some A' -> file A' = Some f ->
    files s !! f = None \/ exists A, areas s !! a = Some A /\ file A = Some f) ->
  ranges s' = ranges s ->
  (forall a A', areas s' !! a = Some A' -> forall A, areas s !! a = Some A ->
    unpinned_list A' = unpinned_list A) -> harmless s s'.
Proof.
  intros ? ? ? ? ER EA. split; try done.
  intros a q [A' HA'] _ (A & id & r & HA & Hid & ?). exists A', id, r. rewrite ER.
  split; [done|]. split; [|done]. by rewrite (EA a A' HA' A HA).
Qed.

Lemma harmless_refl s : wf s -> harmless s s.
Proof. intros. apply harmless_pages; try done; [by eauto|]. intros. by simplify_eq. Qed.

Lemma harmless_area s s' a A A' :
  areas s !! a = Some A -> wf s' -> areas s' = <[a := A']> (areas s) -> files s' = files s ->
  ranges s' = ranges s -> ashmem_shrink_inflight s' = ashmem_shrink_inflight s ->
  unpinned_list A' = unpinned_list A -> file A' = file A -> harmless s s'.
Proof.
  intros HA Hwf EA EF ER EI EU Ef. apply harmless_pages; try done.
  - by rewrite EF.
  - intros b B f. rewrite EA, lookup_insert. intros HB HfB. right.
    case_decide; simplify_eq; [exists A; split; [done|congruence]|by exists B].
  - intros b B. rewrite EA, lookup_insert. intros HB C HC.
    case_decide; simplify_eq; [done|]. congruence.
Qed.

Lemma harmless_only_area s s' a :
  wf s' -> only_area a s s' -> is_Some (areas s !! a) ->
  (ashmem_shrink_inflight s <> 0 -> forall q,
     status s a q ASHMEM_WAS_PURGED -> status s' a q ASHMEM_WAS_PURGED) -> harmless s s'.
Proof.
  intros Hwf Ho [A HA] Hst. destruct (oa_same _ _ _ Ho A HA) as [l HA'].
  split; try done; [apply Ho| | |].
  - intros f. by rewrite (oa_files _ _ _ Ho).
  - intros b B f HB HfB. right. destruct (decide (b = a)) as [->|Hne].
    + exists A. rewrite HA' in HB. by simplify_eq.
    + rewrite (oa_other _ _ _ Ho) in HB by done. by exists B.
  - intros b q _ Hi Hq. destruct (decide (b = a)) as [->|Hne]; [by apply Hst|].
    destruct Hq as (B & id & r & HB & Hid & Hr & ?). exists B, id, r.
    rewrite (oa_other _ _ _ Ho) by done. rewrite (oa_ranges _ _ _ Ho b B) by done. done.
Qed.

(** ** Every ioctl returns, keeps the invariant, and respects purges in flight *)

Lemma set_prot_mask_ok a A prot rie s :
  wf s -> areas s !! a = Some A ->
  exists rv s', set_prot_mask a prot rie s = Some (rv, s') /\ harmless s s'.
Proof.
  intros Hwf HA. unfold set_prot_mask. erewrite bind_eq by (by apply area_at_eq).
  case_if; [do 2 eexists; split; [reflexivity|by apply harmless_refl]|]. cbv zeta.
  do 2 eexists. split; [reflexivity|]. eapply (harmless_area s _ a A); try done; try reflexivity.
  apply (wf_update_area s a A); try done; [|by left].
  destruct (wf_area _ _ Hwf a A HA) as [? ? ? ? ?]. by split.
Qed.

Lemma set_name_total a A copied s :
  wf s -> areas s !! a = Some A -> strncpy_doc copied ->
  exists rv s', set_name a copied s = Some (rv, s') /\ harmless s s'.
Proof.
  intros Hwf HA Hdoc. destruct (Z.ltb_spec (fst copied) 0) as [Hneg|Hpos].
  - destruct copied as [len buf]. simpl in Hneg. exists len, s. unfold set_name.
    rewrite (proj2 (Z.ltb_lt _ _) Hneg). split; [done|by apply harmless_refl].
  - destruct (file A) as [f|] eqn:Hf.
    + destruct copied as [len buf]. simpl in Hpos. unfold set_name.
      rewrite (proj2 (Z.ltb_ge _ _) Hpos). erewrite bind_eq by (by apply area_at_eq). rewrite Hf.
      do 2 eexists. split; [reflexivity|by apply harmless_refl].
    + destruct (set_name_ok a A copied s Hwf HA Hdoc Hpos Hf)
        as (s' & E & Hwf' & ER & EI & EF & EA).
      exists 0, s'. split; [done|]. by eapply (harmless_area s _ a A).
Qed.

(** While a purge is in flight no pin request changes anything. *)
Lemma pin_sleeps a cmd pin zalloc s rv s' :
  ashmem_shrink_inflight s <> 0 ->
  ashmem_pin_unpin a cmd pin zalloc s = Some (Some rv, s') -> s' = s.
Proof.
  intros Hi E. unfold ashmem_pin_unpin in E. destruct pin as [[o l]|]; [|by mrun].
  destruct (_ && _); [by mrun|]. exfalso.
  apply bind_Some in E as (u & s1 & E1 & E). apply bind_Some in E as (s2 & s3 & [= <- <-] & E).
  assert (ashmem_shrink_inflight s1 = ashmem_shrink_inflight s) as EI.
  { destruct (if needs_range cmd then zalloc else None); by mrun. }
  rewrite EI, (proj2 (Z.eqb_neq _ _) Hi) in E. simpl in E. by injection E.
Qed.

Lemma pin_unpin_harmless a A cmd pin zalloc s :
  wf s -> areas s !! a = Some A ->
  (forall o l, pin = Some (o, l) -> is_u32 o /\ is_u32 l) ->
  (forall n, zalloc = Some n -> ranges s !! n = None) ->
  exists r s', ashmem_pin_unpin a cmd pin zalloc s = Some (r, s') /\
    (r = None -> ashmem_shrink_inflight s <> 0) /\ (r <> None -> harmless s s').
Proof.
  intros Hwf HA Hp Hz.
  destruct (ashmem_pin_unpin_total a A cmd pin zalloc s Hwf HA Hp Hz) as (r & s' & E & Hr & Hn).
  exists r, s'. split; [done|]. split; [done|]. intros Hne.
  destruct Hr as [?|[Hwf' Ho]]; [done|].
  apply (harmless_only_area s s' a Hwf' Ho); [by eexists|]. intros Hi q Hq.
  destruct r as [rv|]; [|done]. by rewrite (pin_sleeps _ _ _ _ _ _ _ Hi E).
Qed.

(** The size is only set before the backing file exists. *)
Lemma set_size_ok a A n s :
  wf s -> areas s !! a = Some A -> is_u64 n ->
  wf (set_areas (<[a := set_size n A]> (areas s)) s).
Proof.
  intros Hwf HA Hn. apply (wf_update_area s a A (set_size n A)); try done; [|by left].
  destruct (wf_area _ _ Hwf a A HA). by split.
Qed.

(** Every ioctl but the purge returns without an oops; unless the caller has
    to wait, the device is well formed after it and no purge in flight is
    overtaken. *)
Lemma ashmem_ioctl_ok a A cmd arg env s :
  wf s -> areas s !! a = Some A -> env_ok s env -> cmd <> ASHMEM_PURGE_ALL_CACHES ->
  exists r bytes s', ashmem_ioctl a cmd arg env s = Some ((r, bytes), s') /\
    (r = None -> ashmem_shrink_inflight s <> 0) /\ (r <> None -> harmless s s').
Proof.
  intros Hwf HA [Hname Hpin Hfresh] Hcmd. pose proof (harmless_refl s Hwf) as Hrefl.
  assert (Hjust : forall (m : M ashmem Z) rv s', m s = Some (rv, s') -> harmless s s' ->
    exists r bytes s'', (let! x := m in ret (Some x, [])) s = Some ((r, bytes : list Z), s'') /\
      (r = None -> ashmem_shrink_inflight s <> 0) /\ (r <> None -> harmless s s'')).
  { intros m rv s' E H. erewrite bind_eq by exact E. do 3 eexists.
    split; [reflexivity|]. done. }
  assert (Hpins : forall c, exists r bytes s',
    (let! r := ashmem_pin_unpin a c (env_pin env) (env_zalloc env) in ret (r, [])) s =
      Some ((r, bytes : list Z), s') /\
    (r = None -> ashmem_shrink_inflight s <> 0) /\ (r <> None -> harmless s s')).
  { intros c. destruct (pin_unpin_harmless a A c (env_pin env) (env_zalloc env) s)
      as (r & s' & E & H1 & H2); try done.
    erewrite bind_eq by exact E. do 3 eexists. split; [reflexivity|]. done. }
  unfold ashmem_ioctl. cbv zeta. destruct cmd; try done; try apply Hpins;
    try (by do 3 eexists; split; [reflexivity|]).
  - destruct (set_name_total a A (env_strncpy env) s Hwf HA Hname) as (rv & s' & E & H).
    by apply (Hjust _ rv s').
  - destruct (get_name_ok a A (env_copy_to_user env) s Hwf HA) as (n & _ & E).
    erewrite bind_eq by exact E. do 3 eexists. split; [reflexivity|]. done.
  - destruct (file A) as [f|] eqn:Hf.
    + apply (Hjust _ (- EINVAL) s); [|done]. erewrite bind_eq by (by apply area_at_eq). by rewrite Hf.
    + apply (Hjust _ 0 (set_areas (<[a := set_size (u64 arg) A]> (areas s)) s)).
      * erewrite bind_eq by (by apply area_at_eq). rewrite Hf. reflexivity.
      * apply (harmless_area s _ a A (set_size (u64 arg) A)); try done.
        apply (set_size_ok a A); [done..|apply u64_range].
  - apply (Hjust _ (s64 (size A)) s); [|done]. by erewrite bind_eq by (by apply area_at_eq).
  - destruct (set_prot_mask_ok a A arg (env_read_implies_exec env) s Hwf HA) as (rv & s' & E & H).
    by apply (Hjust _ rv s').
  - apply (Hjust _ (s64 (prot_mask A)) s); [|done]. by erewrite bind_eq by (by apply area_at_eq).
Qed.

(** ** The other operations *)

Lemma open_harmless mode a s s' :
  wf s -> areas s !! a = None -> ashmem_open mode 0 (Some a) s = Some (0, s') -> harmless s s'.
Proof.
  intros Hwf HA E. destruct (ashmem_open_ok mode a s Hwf HA) as (s1 & E1 & Hwf1 & EA & ER & EF).
  assert (s1 = s') as -> by congruence.
  injection E1 as E1. apply harmless_pages; try done; subst s'; simpl in *; try done.
  - intros b B f. rewrite lookup_insert. intros HB HfB. right.
    case_decide; simplify_eq. by exists B.
  - intros b B. rewrite lookup_insert. intros HB C HC. case_decide; by simplify_eq.
Qed.

Lemma release_harmless a s rv s' :
  wf s -> ashmem_release a s = Some (rv, s') -> harmless s s'.
Proof.
  intros Hwf E. destruct (areas s !! a) as [A|] eqn:HA.
  2:{ unfold ashmem_release, area_at, bind, get in E. simpl in E. by rewrite HA in E. }
  destruct (ashmem_release_ok a A s Hwf HA) as (s1 & E1 & [Hwf1 EA ER Hst _ HF HI]).
  simplify_eq. split; try done.
  - intros b B f. rewrite EA. intros [Hb HB]%lookup_delete_Some HfB. right. by exists B.
  - intros b q [B HB] _ Hq. apply Hst; [|done]. rewrite EA in HB.
    apply lookup_delete_Some in HB as [Hne _]. by apply not_eq_sym.
Qed.

Lemma mmap_harmless E a vma setup zs s r s' :
  wf s -> (forall args f, setup args = inl f -> files s !! f = None) ->
  (forall args err, setup args = inr err -> err < 0) ->
  ashmem_mmap E a vma setup zs s = Some (r, s') -> harmless s s'.
Proof.
  intros Hwf Hf He E1. destruct (areas s !! a) as [A|] eqn:HA.
  2:{ unfold ashmem_mmap, area_at, bind, get in E1. simpl in E1. by rewrite HA in E1. }
  destruct (ashmem_mmap_ok E a A vma setup zs s Hwf HA Hf He) as (rv & vma' & s1 & E2 & Hp).
  rewrite E1 in E2. injection E2 as -> ->. apply harmless_pages; try apply Hp.
  - intros b B f HB HfB. destruct (mp_areas _ _ _ _ _ _ _ _ Hp) as [EA|(g & Hg & Hfr & EA)];
      rewrite EA in HB; [right; by exists B|].
    rewrite lookup_insert in HB. case_decide; simplify_eq; [left; simpl in *; by simplify_eq|].
    right. by exists B.
  - intros b B HB C HC. destruct (mp_areas _ _ _ _ _ _ _ _ Hp) as [EA|(g & Hg & Hfr & EA)];
      rewrite EA in HB; [congruence|].
    rewrite lookup_insert in HB. case_decide; simplify_eq; done.
Qed.

Lemma refs_harmless s s' : refs_only s s' -> harmless s s'.
Proof.
  intros []. apply harmless_pages; try done.
  - intros b B f HB HfB. right. exists B. by rewrite <- ro_areas.
  - intros b B HB C HC. congruence.
Qed.

Lemma file_pos_harmless s f F pos : wf s -> files s !! f = Some F ->
  harmless s (set_files (<[f := VmFile (f_count F) (f_mode_lseek F) (f_op_overridden F) pos]>
    (files s)) s).
Proof.
  intros Hwf HF. apply refs_harmless. split; try done; [by eapply wf_update_file|].
  intros g [G HG]. simpl. rewrite lookup_insert. case_decide; by eexists.
Qed.

Lemma read_harmless a vfs s rv s' :
  wf s -> ashmem_read_iter a vfs s = Some (rv, s') -> harmless s s'.
Proof.
  intros Hwf E. pose proof (harmless_refl s Hwf). unfold ashmem_read_iter in E.
  apply bind_Some in E as (A & s1 & [HA ->]%area_at_inv & E).
  destruct (size A =? 0); [by mrun|]. destruct (file A) as [f|]; [|by mrun].
  destruct vfs as [r pos]. destruct (_ <? _); [|by mrun].
  unfold file_at, bind, get, deref in E. destruct (files s !! f) eqn:HF; [|done].
  injection E as <- <-. by apply file_pos_harmless.
Qed.

Lemma file_at_inv f s F s' : file_at f s = Some (F, s') -> files s !! f = Some F /\ s' = s.
Proof. unfold file_at, bind, get, deref. destruct (files s !! f); [|done]. by intros [= <- <-]. Qed.

Lemma llseek_harmless a vfs s r s' :
  wf s -> ashmem_llseek a vfs s = Some (r, s') -> harmless s s'.
Proof.
  intros Hwf E. pose proof (harmless_refl s Hwf). unfold ashmem_llseek in E.
  apply bind_Some in E as (A & s1 & [HA ->]%area_at_inv & E).
  destruct (size A =? 0); [by mrun|]. destruct (file A) as [f|]; [|by mrun].
  apply bind_Some in E as (F & s1 & [HF ->]%file_at_inv & E). destruct vfs as [n pos].
  pose proof (file_pos_harmless s f F pos Hwf HF) as Hh.
  apply bind_Some in E as (u & s2 & E2 & E). injection E2 as _ <-.
  destruct (n <? 0); [by mrun|].
  apply bind_Some in E as (F' & s3 & [_ ->]%file_at_inv & E). by mrun.
Qed.

(** ** The shrinker's steps *)

Lemma s64_small x : - 9223372036854775808 <= x < 9223372036854775808 -> s64 x = x.
Proof.
  intros. unfold s64. destruct (Z.ltb_spec x 0).
  - assert (E : u64 x = x + two64).
    { unfold u64. symmetry. apply (Z.mod_unique _ _ (-1)); unfold two64; lia. }
    rewrite E. unfold two64 in *. case_if; zbool; lia.
  - rewrite u64_small by (unfold is_u64, two64; lia). by rewrite (proj2 (Z.ltb_lt _ _)) by lia.
Qed.

(** The hole of a range covers nothing but the pages of the range. *)
Lemma punch_of_pages f r q :
  range_small r ->
  punch_start (punch_of f r) <= q * PAGE_SIZE < punch_start (punch_of f r) + punch_len (punch_of f r) ->
  pgstart r <= q <= pgend r.
Proof.
  intros [[? ?] [? Hen]]. unfold punch_of, PAGE_SIZE. cbn [punch_start punch_len].
  rewrite (u64_small (pgstart r * 4096)) by (unfold is_u64, two64; lia).
  rewrite (s64_small (pgstart r * 4096)) by lia.
  destruct Hen as [Hen|Hen].
  - rewrite (u64_small (pgend r + 1)) by (unfold is_u64, two64; lia).
    rewrite (u64_small ((pgend r + 1) * 4096)) by (unfold is_u64, two64; lia).
    rewrite (s64_small ((pgend r + 1) * 4096)) by lia.
    rewrite s64_small by lia. lia.
  - rewrite Hen. change (u64 (u64 (two64 - 1 + 1) * 4096)) with 0. change (s64 0) with 0.
    rewrite s64_small by lia. lia.
Qed.

Lemma step_take_inv s sc p pages s' :
  sys_inv (Sys s sc) -> shrink_take s = Some (Some (p, pages), s') ->
  sys_inv (Sys s' (sc ++ [p])).
Proof.
  intros [Hwf Hi Hf Hs] E. simpl in *.
  destruct (ashmem_lru_list s) as [|id rest] eqn:HL.
  { unfold shrink_take, bind, get in E. by rewrite HL in E. }
  destruct (wf_lru_head s id rest Hwf HL) as (r & A & f & F & Hr & Hp & HA & Hid & HfA & HF).
  rewrite (shrink_take_eq s id rest r A f F) in E by done. injection E as <- <- <-.
  assert (Hmono : forall a q, status s a q ASHMEM_WAS_PURGED ->
    status (take_state id r f F s) a q ASHMEM_WAS_PURGED).
  { intros a q (B & i & t & ? & ? & ? & ? & ?). apply take_status; [done|].
    exists B, i, t. do 4 (split; [done|]). by case_decide. }
  split; simpl.
  - by eapply wf_take.
  - rewrite length_app, Hi. simpl. lia.
  - intros p [Hp'| ->%list_elem_of_singleton]%elem_of_app; rewrite lookup_insert;
      case_decide; try by eexists.
    by apply Hf.
  - intros p [Hp'| ->%list_elem_of_singleton]%elem_of_app a B q HB HfB Hq.
    + apply Hmono. by eapply Hs.
    + simpl in HB, HfB. assert (a = asma r) as -> by by eapply (wf_file_inj _ _ Hwf).
      simplify_eq. apply take_status; [done|]. exists A, id, r. do 3 (split; [done|]).
      split; [|by rewrite decide_True].
      apply (punch_of_pages f); [|done]. by apply (wf_small _ _ Hwf id).
Qed.

Lemma step_finish_inv s sc1 p sc2 s' :
  sys_inv (Sys s (sc1 ++ p :: sc2)) -> shrink_finish p s = Some (tt, s') ->
  sys_inv (Sys s' (sc1 ++ sc2)).
Proof.
  intros [Hwf Hi Hf Hs] E. simpl in *.
  destruct (Hf p) as [F HF]; [apply elem_of_app; right; by left|].
  rewrite (shrink_finish_eq s p F HF) in E. injection E as <-.
  assert (Hin : forall q, q ∈ sc1 ++ sc2 -> q ∈ sc1 ++ p :: sc2).
  { intros q [?|?]%elem_of_app; apply elem_of_app; [by left|]. right. by right. }
  split; simpl.
  - by apply wf_finish.
  - rewrite Hi, !length_app. simpl. lia.
  - intros q Hq. rewrite lookup_insert. case_decide; [by eexists|]. by apply Hf, Hin.
  - intros q Hq. apply Hs. by apply Hin.
Qed.

Lemma sys_inv_step E S S' : sys_inv S -> sys_step E S S' -> sys_inv S'.
Proof.
  intros Hinv Hstep. pose proof (si_wf _ Hinv) as Hwf. destruct Hstep; simpl in Hwf.
  - apply (harmless_inv s); [done|]. by eapply open_harmless.
  - apply (harmless_inv s); [done|]. by eapply release_harmless.
  - apply (harmless_inv s); [done|]. by eapply mmap_harmless.
  - apply (harmless_inv s); [done|].
    match goal with H : is_Some (areas s !! a) |- _ => destruct H as [A HA] end.
    destruct (ashmem_ioctl_ok a A cmd arg env s) as (r & bs & s1 & E1 & _ & Hh); try done.
    match goal with H : ashmem_ioctl _ _ _ _ _ = Some _ |- _ => rewrite E1 in H; injection H as -> _ -> end.
    by apply Hh.
  - apply (harmless_inv s); [done|]. by eapply read_harmless.
  - apply (harmless_inv s); [done|]. by eapply llseek_harmless.
  - by eapply step_take_inv.
  - by eapply step_finish_inv.
Qed.
