(* ===== verification/AshmemTheorems.v ===== *)
(** * ashmem: the driver's properties

    The claims about the ashmem driver, stated over whole ioctls and system
    calls, each with a witness on [demo]: a device on which one area was
    opened, sized, mapped and partly unpinned. *)

From Stdlib Require Import ZArith Lia.
From stdpp Require Import base option gmap sets sorting list.
From S2P Require Import Prelude AshmemRange AshmemRangeFacts AshmemDev AshmemDevFacts AshmemSystem.

(** ** From the requests to the ioctls *)

(** A request that can run now: the area is mapped, no purge is in flight,
    the arguments name the pages [st..en], and a slab object is available. *)
Record pin_ready (s : ashmem) (a : nat) (A : ashmem_area) (env : ioctl_env) (n : nat) (st en : Z)
  : Prop := PinReady {
  pr_area : areas s !! a = Some A;
  pr_file : is_Some (file A);
  pr_idle : ashmem_shrink_inflight s = 0;
  pr_fresh : env_zalloc env = Some n /\ ranges s !! n = None;
  pr_request : exists offset len, env_pin env = Some (offset, len) /\ is_u32 offset /\ is_u32 len /\
    pin_request (size A) offset len = Some (st, en)
}.

Lemma pin_unpin_run s a A env n st en cmd rv new s' :
  pin_ready s a A env n st en -> needs_range cmd = true ->
  match cmd with PIN => ashmem_pin a st en (Some n) (zalloc_state n s)
               | _ => ashmem_unpin a st en (Some n) (zalloc_state n s) end = Some ((rv, new), s') ->
  new = Some n \/ new = None ->
  ashmem_pin_unpin a cmd (env_pin env) (env_zalloc env) s = Some (Some rv, finish_spare n new s').
Proof.
  intros [HA [f Hf] Hi [Hz Hn] (o & l & -> & Ho & Hl & Hreq)] Hcmd E Hnew. rewrite Hz.
  unfold ashmem_pin_unpin. rewrite Hcmd. cbv zeta iota. rewrite bool_decide_false by done. cbn [andb]. cbv iota.
  erewrite bind_eq by reflexivity. erewrite bind_eq by reflexivity.
  change (set_ranges (<[n:=Range 0 0 0 0]> (ranges s)) s) with (zalloc_state n s).
  change (ashmem_shrink_inflight (zalloc_state n s)) with (ashmem_shrink_inflight s).
  rewrite Hi. cbn [Z.eqb negb]. cbv iota.
  assert (Ed : pin_dispatch a cmd o l (Some n) (zalloc_state n s) = Some ((rv, new), s')).
  { unfold pin_dispatch. erewrite bind_eq by (by apply area_at_eq). rewrite Hf, Hreq. by destruct cmd. }
  erewrite bind_eq by exact Ed. cbv beta iota. by destruct Hnew as [->| ->].
Qed.

Lemma pin_ready_request s a A env n st en :
  pin_ready s a A env n st en -> request st en /\ request_small st en.
Proof.
  intros [_ _ _ _ (o & l & _ & Ho & Hl & Hreq)].
  by destruct (pin_request_ok _ _ _ _ _ Ho Hl Hreq) as (? & ? & _).
Qed.

(** ** The demonstration device *)

Definition demo_env (pin : option (Z * Z)) (z : option nat) : ioctl_env :=
  IoctlEnv (0, replicate 256 0) 0 pin z false true true (fun _ => true).

(** Flag values of include/linux/mm.h, with the macros as documented. *)
Definition demo_trans (x b1 b2 : Z) : Z := if Z.land x b1 =? 0 then 0 else b2.
Definition demo_mm (ge_6_3 : bool) : mm_env :=
  MmEnv (fun p _ => Z.lor (Z.lor (demo_trans p PROT_READ 1) (demo_trans p PROT_WRITE 2))
                          (demo_trans p PROT_EXEC 4))
    demo_trans 1 2 4 8 16 32 64 2097152 ge_6_3.

Lemma demo_mm_laws b : mm_laws (demo_mm b).
Proof. by split. Qed.

Definition demo_vma : vm_area_struct := Vma 4194304 (4194304 + 32768) (1 + 2 + 8 + 16 + 32 + 64) None false.
Definition demo_setup (x : list Z * Z * Z) : nat + Z := inl 7%nat.

Definition step_or {A} (s : ashmem) (m : M ashmem A) : ashmem :=
  match m s with Some (_, s') => s' | None => s end.

Definition demo0 : ashmem := step_or ashmem_initial (ashmem_open 0 0 (Some 0%nat)).
Definition demo1 : ashmem := step_or demo0 (ashmem_ioctl 0 ASHMEM_SET_SIZE 32768 (demo_env None None)).
Definition demo2 : ashmem := step_or demo1 (ashmem_mmap (demo_mm true) 0 demo_vma demo_setup (0, Some 8%nat)).
(** Pages 2 to 4, then page 6, of the eight are unpinned. *)
Definition demo3 : ashmem :=
  step_or demo2 (ashmem_ioctl 0 ASHMEM_UNPIN 0 (demo_env (Some (8192, 12288)) (Some 10%nat))).
Definition demo : ashmem :=
  step_or demo3 (ashmem_ioctl 0 ASHMEM_UNPIN 0 (demo_env (Some (24576, 4096)) (Some 11%nat))).

Lemma demo_env_ok s pin z :
  (forall o l, pin = Some (o, l) -> is_u32 o /\ is_u32 l) ->
  (forall n, z = Some n -> ranges s !! n = None) -> env_ok s (demo_env pin z).
Proof. intros. split; try done. split; [done|]. by left. Qed.

Ltac demo_env := apply demo_env_ok;
  [intros ? ? [= <- <-]; unfold is_u32, two32; lia|intros ? [= <-]; reflexivity].

Lemma demo_reached : star (sys_step (demo_mm true)) (Sys ashmem_initial []) (Sys demo []).
Proof.
  eapply star_step with (b := Sys demo3 []); [eapply star_step with (b := Sys demo2 []);
    [eapply star_step with (b := Sys demo1 []); [eapply star_step with (b := Sys demo0 []);
      [eapply star_step; [apply star_refl|]|]|]|]|].
  - by apply (step_open _ 0 0 _ _ demo0).
  - apply (step_ioctl _ 0 ASHMEM_SET_SIZE 32768 (demo_env None None) _ _ 0 []); try done;
      first [by eexists | by apply demo_env_ok].
  - apply (step_mmap _ 0 demo_vma demo_setup (0, Some 8%nat) _ _
      (0, Vma 4194304 (4194304 + 32768) 123 (Some 7%nat) false)); try done.
  - apply (step_ioctl _ 0 ASHMEM_UNPIN 0 (demo_env (Some (8192, 12288)) (Some 10%nat)) _ _ 0 []); try done;
      first [by eexists | demo_env].
  - apply (step_ioctl _ 0 ASHMEM_UNPIN 0 (demo_env (Some (24576, 4096)) (Some 11%nat)) _ _ 0 []); try done;
      first [by eexists | demo_env].
Qed.

Lemma sys_inv_initial : sys_inv (Sys ashmem_initial []).
Proof. split; simpl; [apply wf_initial|done| |]; intros p Hp; by apply not_elem_of_nil in Hp. Qed.

Lemma reachable_inv E S : star (sys_step E) (Sys ashmem_initial []) S -> sys_inv S.
Proof. intros H. eapply (star_invariant _ sys_inv _ _ (sys_inv_step E)), H. apply sys_inv_initial. Qed.

Lemma demo_wf : wf demo.
Proof. exact (si_wf _ (reachable_inv _ _ demo_reached)). Qed.


Lemma only_area_status a s s' b p v :
  only_area a s s' -> b <> a -> status s' b p v <-> status s b p v.
Proof.
  intros Ho Hb. unfold status. rewrite (oa_other _ _ _ Ho) by done.
  split; intros (B & id & r & HB & Hid & Hr & ?); exists B, id, r; (split; [done|]);
    (split; [done|]); (split; [|done]).
  - by rewrite <- (oa_ranges _ _ _ Ho b B).
  - by rewrite (oa_ranges _ _ _ Ho b B).
Qed.

Lemma demo_ready : pin_ready demo 0 (default (new_area 0) (areas demo !! 0%nat))
  (demo_env (Some (12288, 16384)) (Some 12%nat)) 12 3 6.
Proof.
  split; try done. exists 12288, 16384. unfold is_u32, two32. split; [done|].
  repeat split; done.
Qed.

Lemma demo_no_empty : no_empty_range demo 0.
Proof.
  intros A id r HA Hid Hr. vm_compute in HA. injection HA as <-.
  apply elem_of_cons in Hid as [->|Hid].
  - vm_compute in Hr. by injection Hr as <-.
  - apply list_elem_of_singleton in Hid as ->. vm_compute in Hr. by injection Hr as <-.
Qed.

(** ** Pinning, unpinning and the status query *)



(** C15: ASHMEM_UNPIN returns 0 after finitely many passes, makes exactly the
    requested pages unpinned in addition to those that were, and no page that
    had been purged is forgotten by the merging of ranges. *)
Theorem ioctl_unpin_pages s a A env n st en arg :
  wf s -> pin_ready s a A env n st en ->
  exists s', ashmem_ioctl a ASHMEM_UNPIN arg env s = Some ((Some 0, []), s') /\ wf s' /\
    (forall p, unpinned s' a p <-> unpinned s a p \/ st <= p <= en) /\
    (forall p, status s a p ASHMEM_WAS_PURGED -> status s' a p ASHMEM_WAS_PURGED) /\
    (forall b p v, b <> a -> status s' b p v <-> status s b p v).
Proof.
  intros Hwf Hr. destruct (pin_ready_request _ _ _ _ _ _ _ Hr) as [Hreq Hsmall].
  destruct (unpin_call s a A n st en Hwf (pr_area _ _ _ _ _ _ _ Hr) (pr_file _ _ _ _ _ _ _ Hr)
    (proj2 (pr_fresh _ _ _ _ _ _ _ Hr)) Hreq Hsmall)
    as (new & s' & E & Hnew & Hwf' & Ho & Hst & Hpu).
  exists (finish_spare n new s'). split; [|split; [done|split; [done|split; [done|]]]].
  - unfold ashmem_ioctl. erewrite bind_eq by by eapply (pin_unpin_run s a A env n st en UNPIN).
    reflexivity.
  - intros b p v Hb. by eapply only_area_status.
Qed.

Lemma ioctl_unpin_pages_witness : exists s',
  ashmem_ioctl 0 ASHMEM_UNPIN 0 (demo_env (Some (12288, 16384)) (Some 12%nat)) demo =
    Some ((Some 0, []), s') /\ unpinned s' 0 5.
Proof.
  destruct (ioctl_unpin_pages demo 0 _ (demo_env (Some (12288, 16384)) (Some 12%nat)) 12 3 6 0
    demo_wf demo_ready) as (s' & E & _ & Hst & _).
  exists s'. split; [exact E|]. apply Hst. right. lia.
Defined.

(** ASHMEM_GET_PIN_STATUS answers ASHMEM_IS_UNPINNED exactly when some
    requested page is unpinned, and changes nothing. *)
Theorem ioctl_pin_status s a A env n st en arg :
  wf s -> no_empty_range s a -> pin_ready s a A env n st en -> st <= en ->
  exists rv, ashmem_ioctl a ASHMEM_GET_PIN_STATUS arg env s = Some ((Some rv, []), s) /\
    (rv = ASHMEM_IS_PINNED \/ rv = ASHMEM_IS_UNPINNED) /\
    (rv = ASHMEM_IS_UNPINNED <-> exists p, st <= p <= en /\ unpinned s a p).
Proof.
  intros Hwf Hne [HA [f Hf] Hi [Hz Hn] (o & l & Hp & Ho & Hl & Hreq)] Hle.
  destruct (ashmem_get_pin_status_ok a st en ∅ s A Hle (wf_linked _ _ Hwf) (wf_sorted _ _ Hwf) HA)
    as (rv & E & Hrv & H1 & H2).
  exists rv. split; [|split; [done|split; [|done]]].
  - unfold ashmem_ioctl, ashmem_pin_unpin. rewrite Hp. cbv zeta. cbn [needs_range andb].
    unfold bind at 1 2 3. unfold ret at 1, get at 1. cbv beta iota. rewrite Hi.
    cbn [Z.eqb negb]. cbv iota.
    assert (Ed : pin_dispatch a GET_PIN_STATUS o l None s = Some ((rv, None), s)).
    { unfold pin_dispatch. erewrite bind_eq by (by apply area_at_eq). rewrite Hf, Hreq.
      by erewrite bind_eq by exact E. }
    erewrite bind_eq by exact Ed. reflexivity.
  - intros (id & r & Hid & Hr & Hin)%H2. exists (Z.max st (pgstart r)).
    pose proof (Hne A id r HA Hid Hr). bools.
    split; [lia|]. exists (purged r), A, id, r. repeat split; try done; lia.
Qed.

Lemma ioctl_pin_status_witness : exists rv,
  ashmem_ioctl 0 ASHMEM_GET_PIN_STATUS 0 (demo_env (Some (12288, 16384)) (Some 12%nat)) demo =
    Some ((Some rv, []), demo) /\ rv = ASHMEM_IS_UNPINNED.
Proof.
  destruct (ioctl_pin_status demo 0 _ (demo_env (Some (12288, 16384)) (Some 12%nat)) 12 3 6 0
    demo_wf demo_no_empty demo_ready ltac:(lia)) as (rv & E & _ & _).
  exists rv. split; [exact E|]. vm_compute in E. by injection E as <-.
Defined.

(** ** The whole device *)

(** C16: every ioctl but the purge returns on every well-formed device, with
    any arguments and answers of the kernel: no NULL or freed object is
    touched, no [BUG_ON] or string overrun happens, a slab object allocated
    for the request is linked or freed; the caller has to wait only when a
    purge is in flight. *)
Theorem ioctl_no_oops s a A cmd arg env :
  wf s -> areas s !! a = Some A -> env_ok s env -> cmd <> ASHMEM_PURGE_ALL_CACHES ->
  exists r bytes s', ashmem_ioctl a cmd arg env s = Some ((r, bytes), s') /\
    (r = None -> ashmem_shrink_inflight s <> 0) /\ (r <> None -> wf s').
Proof.
  intros Hwf HA He Hc.
  destruct (ashmem_ioctl_ok a A cmd arg env s Hwf HA He Hc) as (r & bytes & s' & E & H1 & H2).
  exists r, bytes, s'. split; [done|]. split; [done|]. intros Hr. by apply H2.
Qed.

Lemma ioctl_no_oops_witness : exists r bytes s',
  ashmem_ioctl 0 ASHMEM_SET_SIZE 4096 (demo_env None None) demo = Some ((r, bytes), s').
Proof.
  destruct (ioctl_no_oops demo 0 (default (new_area 0) (areas demo !! 0%nat)) ASHMEM_SET_SIZE 4096
    (demo_env None None) demo_wf) as (r & bytes & s' & E & _).
  - reflexivity.
  - apply demo_env_ok; intros; discriminate.
  - discriminate.
  - exists r, bytes, s'. exact E.
Defined.

(** C17: in every interleaving of opens, closes, mappings, ioctls, reads, seeks
    and shrinker passes (which punch their holes without the mutex), the
    device stays well formed (every range belongs to one live area, the lists
    are sorted and disjoint, the LRU holds exactly the unpurged ranges and its
    page count is exact) and a hole being punched lies only over pages that
    are unpinned and already marked purged. *)
Theorem no_pinned_page_is_punched E S :
  star (sys_step E) (Sys ashmem_initial []) S ->
  wf (dev S) /\ ashmem_shrink_inflight (dev S) = Z.of_nat (length (scans S)) /\
  forall p a A q, p ∈ scans S -> areas (dev S) !! a = Some A -> file A = Some (punch_file p) ->
    punch_start p <= q * PAGE_SIZE < punch_start p + punch_len p ->
    status (dev S) a q ASHMEM_WAS_PURGED.
Proof.
  intros [Hwf Hi _ Hs]%reachable_inv. split; [done|]. split; [done|].
  intros p a A q Hp HA Hf Hq. by eapply Hs.
Qed.

Definition demo_purging : ashmem := step_or demo shrink_take.

Lemma no_pinned_page_is_punched_witness : status demo_purging 0 3 ASHMEM_WAS_PURGED.
Proof.
  refine (proj2 (proj2 (no_pinned_page_is_punched (demo_mm true)
    (Sys demo_purging [Punch 7 8192 12288]) _)) (Punch 7 8192 12288) 0%nat
    (default (new_area 0) (areas demo_purging !! 0%nat)) 3 _ _ _ _).
  - eapply star_step; [exact demo_reached|].
    apply (step_take _ demo [] (Punch 7 8192 12288) 3 demo_purging). reflexivity.
  - left.
  - reflexivity.
  - reflexivity.
  - unfold PAGE_SIZE. cbn [punch_start punch_len]. lia.
Defined.

(** while a hole is being punched, a pin, unpin or status request waits
    (or fails before it touches anything): none of them changes the device. *)
Theorem pin_waits_for_purge s a cmd pin zalloc r s' :
  ashmem_shrink_inflight s <> 0 ->
  ashmem_pin_unpin a cmd pin zalloc s = Some (r, s') ->
  r = None \/ s' = s /\ (r = Some (- EFAULT) /\ pin = None \/ r = Some (- ENOMEM) /\ zalloc = None).
Proof.
  intros Hi E. destruct r as [rv|]; [|by left]. right.
  split; [by eapply pin_sleeps|]. unfold ashmem_pin_unpin in E.
  destruct pin as [[o l]|]; [right|left; by mrun].
  destruct (needs_range cmd && _) eqn:Hz; [zbool|].
  - mrun. by apply bool_decide_eq_true in H0.
  - exfalso. apply bind_Some in E as (u & s1 & E1 & E). apply bind_Some in E as (s2 & s3 & [= <- <-] & E).
    assert (ashmem_shrink_inflight s1 = ashmem_shrink_inflight s) as EI.
    { destruct (if needs_range cmd then zalloc else None); by mrun. }
    rewrite EI, (proj2 (Z.eqb_neq _ _) Hi) in E. simpl in E. by injection E.
Qed.

Lemma pin_waits_for_purge_witness : exists r s',
  ashmem_pin_unpin 0 PIN (Some (12288, 16384)) (Some 12%nat) demo_purging = Some (r, s') /\ r = None.
Proof.
  destruct (ashmem_pin_unpin 0 PIN (Some (12288, 16384)) (Some 12%nat) demo_purging) as [[r s']|] eqn:E;
    [|vm_compute in E; discriminate].
  exists r, s'. split; [reflexivity|].
  destruct (pin_waits_for_purge demo_purging 0 PIN (Some (12288, 16384)) (Some 12%nat) r s')
    as [H|(_ & [[_ H]|[_ H]])]; [discriminate|exact E|exact H|discriminate|discriminate].
Defined.

(** ** The shrinker *)

(** C18: a scan asked for [nr] objects that always gets the mutex back purges
    exactly the [nr] least recently unpinned ranges (all of them if there are
    fewer), in that order, and returns the number of pages they hold; every
    other range keeps its flag and its place. *)
Theorem shrink_scan_lru relock nr s :
  wf s -> (forall i, relock i = true) -> 0 < nr < two64 ->
  let l := take (Z.to_nat nr) (ashmem_lru_list s) in
  exists ps s', ashmem_shrink_scan true true relock nr s =
      Some ((u64 (sum_over (size_at s) l), ps), s') /\ wf s' /\ length ps = length l /\
    ashmem_lru_list s' = drop (Z.to_nat nr) (ashmem_lru_list s) /\ areas s' = areas s /\
    (forall id, ranges s' !! id = purged_ranges l (ranges s) id).
Proof.
  intros Hwf Hre Hnr l.
  destruct (shrink_loop_spec relock Hre (S (length (ashmem_lru_list s))) s 0 nr 0 []) as
    (ps & s' & E & Hlen & [Hwf' HL HR HAr _]); [done|lia|done|].
  exists ps, s'. split; [|done]. unfold ashmem_shrink_scan. cbn [negb].
  erewrite bind_eq by reflexivity. rewrite E. fold l. by destruct l.
Qed.

Lemma shrink_scan_lru_witness : exists ps s',
  ashmem_shrink_scan true true (fun _ => true) 1 demo = Some ((3, ps), s') /\
  ashmem_lru_list s' = [11%nat].
Proof.
  destruct (shrink_scan_lru (fun _ => true) 1 demo demo_wf (fun _ => eq_refl))
    as (ps & s' & E & _ & _ & HL & _); [unfold two64; lia|].
  exists ps, s'. split; [exact E|exact HL].
Defined.

(** ** Mappings *)

(** a mapping that succeeds is backed by the area's file, is no longer
    than the page-aligned size, and has no access bit (read, write, execute)
    that the protection mask forbids; from Linux 6.3 on it has not the
    corresponding [VM_MAY*] bit either, so mprotect cannot add it later. *)
Theorem mmap_respects_prot_mask E a A vma setup zs s vma' s' :
  mm_laws E -> wf s -> areas s !! a = Some A ->
  (forall args f, setup args = inl f -> files s !! f = None) ->
  (forall args err, setup args = inr err -> err < 0) ->
  ashmem_mmap E a vma setup zs s = Some ((0, vma'), s') ->
  wf s' /\ u64 (vm_end vma - vm_start vma) <= PAGE_ALIGN (size A) /\
  (exists A' f, areas s' !! a = Some A' /\ file A' = Some f /\ vm_file vma' = Some f) /\
  forall i, 0 <= i < 3 -> Z.testbit (prot_mask A) i = false ->
    Z.testbit (vm_flags vma') i = false /\
    (linux_ge_6_3 E = true -> Z.testbit (vm_flags vma') (i + 4) = false).
Proof.
  intros Hlaws Hwf HA Hf He Em.
  destruct (ashmem_mmap_ok E a A vma setup zs s Hwf HA Hf He) as (rv & vma1 & s1 & E1 & Hp).
  rewrite Em in E1. injection E1 as <- <- <-.
  destruct (mp_checks _ _ _ _ _ _ _ _ Hp eq_refl) as (_ & Hsz & Hck).
  split; [apply Hp|]. split; [done|]. split; [by apply Hp|].
  intros i Hi Hbit. rewrite (mp_flags _ _ _ _ _ _ _ _ Hp eq_refl). split.
  - apply flags_clear_low; [done..|]. by eapply prot_check_bit.
  - intros H63. by apply flags_clear_bit.
Qed.

(** A read-only area, sized but not mapped. *)
Definition demo_ro : ashmem :=
  step_or demo1 (ashmem_ioctl 0 ASHMEM_SET_PROT_MASK 1 (demo_env None None)).
Definition ro_vma : vm_area_struct := Vma 4194304 (4194304 + 32768) (1 + 8 + 16 + 32 + 64) None false.

Lemma demo_ro_wf : wf demo_ro.
Proof.
  destruct (ashmem_ioctl_ok 0 (default (new_area 0) (areas demo1 !! 0%nat)) ASHMEM_SET_PROT_MASK 1
    (demo_env None None) demo1) as (r & b & s' & E & _ & H); [|done|by apply demo_env_ok|done|].
  - apply (si_wf (Sys demo1 [])), (reachable_inv (demo_mm true)).
    eapply star_step with (b := Sys demo0 []);
      [eapply star_step; [apply star_refl|by apply (step_open _ 0 0 _ _ demo0)]|].
    apply (step_ioctl _ 0 ASHMEM_SET_SIZE 32768 (demo_env None None) _ _ 0 []); try done;
      first [by eexists | by apply demo_env_ok].
  - vm_compute in E. injection E as <- <- <-. by apply H.
Qed.

Lemma mmap_respects_prot_mask_witness : exists vma' s',
  ashmem_mmap (demo_mm true) 0 ro_vma demo_setup (0, None) demo_ro = Some ((0, vma'), s') /\
  Z.testbit (vm_flags vma') 5 = false.
Proof.
  destruct (ashmem_mmap (demo_mm true) 0 ro_vma demo_setup (0, None) demo_ro)
    as [[[rv vma'] s']|] eqn:E; [|vm_compute in E; discriminate].
  assert (Hrv : rv = 0) by (vm_compute in E; congruence). subst rv.
  exists vma', s'. split; [reflexivity|].
  refine (proj2 (proj2 (proj2 (proj2 (mmap_respects_prot_mask (demo_mm true) 0
    (default (new_area 0) (areas demo_ro !! 0%nat)) ro_vma demo_setup (0, None) demo_ro vma' s'
    (demo_mm_laws true) demo_ro_wf eq_refl _ _ E))) 1 _ _) eq_refl).
  - intros args f [= <-]. reflexivity.
  - intros args err [=].
  - lia.
  - reflexivity.
Defined.

(** Before Linux 6.3 [compat_vm_flags_clear] is empty, so a mapping made
    under a protection mask keeps every [VM_MAY*] bit it came with: the mask
    does not restrict a later mprotect. *)
Theorem mmap_keeps_may_bits_before_6_3 E a A vma setup zs s vma' s' :
  linux_ge_6_3 E = false -> wf s -> areas s !! a = Some A ->
  (forall args f, setup args = inl f -> files s !! f = None) ->
  (forall args err, setup args = inr err -> err < 0) ->
  ashmem_mmap E a vma setup zs s = Some ((0, vma'), s') ->
  vm_flags vma' = vm_flags vma.
Proof.
  intros H63 Hwf HA Hf He Em.
  destruct (ashmem_mmap_ok E a A vma setup zs s Hwf HA Hf He) as (rv & vma1 & s1 & E1 & Hp).
  rewrite Em in E1. injection E1 as <- <- <-.
  rewrite (mp_flags _ _ _ _ _ _ _ _ Hp eq_refl). unfold compat_vm_flags_clear. by rewrite H63.
Qed.

Lemma mmap_keeps_may_bits_before_6_3_witness : exists vma' s',
  ashmem_mmap (demo_mm false) 0 ro_vma demo_setup (0, None) demo_ro = Some ((0, vma'), s') /\
  Z.testbit (vm_flags vma') 5 = true.
Proof.
  destruct (ashmem_mmap (demo_mm false) 0 ro_vma demo_setup (0, None) demo_ro)
    as [[[rv vma'] s']|] eqn:E; [|vm_compute in E; discriminate].
  assert (Hrv : rv = 0) by (vm_compute in E; congruence). subst rv.
  exists vma', s'. split; [reflexivity|].
  rewrite (mmap_keeps_may_bits_before_6_3 (demo_mm false) 0
    (default (new_area 0) (areas demo_ro !! 0%nat)) ro_vma demo_setup (0, None) demo_ro vma' s'
    eq_refl demo_ro_wf); [reflexivity|reflexivity| | |exact E].
  - intros args f [= <-]. reflexivity.
  - intros args err [=].
Defined.

(** ** Names *)

(** the name set with ASHMEM_SET_NAME, cut to 255 bytes, is the one
    ASHMEM_GET_NAME copies out with its NUL (the default name stands for the
    empty one); neither call reads or writes outside the 267-byte array, and
    the prefix in it is untouched. *)
Theorem set_get_name_roundtrip s a A copied arg env :
  wf s -> areas s !! a = Some A -> file A = None ->
  env_strncpy env = copied -> strncpy_doc copied -> 0 <= fst copied ->
  env_copy_to_user env = 0 ->
  exists s', ashmem_ioctl a ASHMEM_SET_NAME arg env s = Some ((Some 0, []), s') /\ wf s' /\
    ashmem_ioctl a ASHMEM_GET_NAME arg env s' = Some ((Some 0,
      if decide (stored_name copied = []) then ASHMEM_NAME_DEF ++ [0]
      else stored_name copied ++ [0]), s').
Proof.
  intros Hwf HA Hf He Hdoc Hpos Hleft.
  destruct (set_name_ok a A copied s Hwf HA Hdoc Hpos Hf) as (s' & E & Hwf' & _ & _ & _ & EA).
  destruct (cut_name_ok copied Hdoc Hpos) as (HL & HS & HT).
  destruct (named_facts A (cut_name copied) _ (ao_name _ _ (wf_area _ _ Hwf a A HA)) HS HL)
    as (_ & _ & N3 & N4).
  set (n := Nat.min (Z.to_nat (fst copied)) 255) in *.
  assert (HA' : areas s' !! a = Some (set_area_name (named A n (cut_name copied)) A))
    by (rewrite EA; apply lookup_insert_eq).
  exists s'. split; [unfold ashmem_ioctl; rewrite He; by erewrite bind_eq by exact E|].
  split; [done|].
  destruct (get_name_ok a _ 0 s' Hwf' HA') as (m & Hm & Eg). simpl name in Hm, Eg.
  assert (m = n) as -> by congruence.
  unfold ashmem_ioctl. rewrite Hleft. erewrite bind_eq by exact Eg. cbn [Z.eqb]. f_equal. f_equal. f_equal.
  apply c_strlen_Some in N3 as [Hz _]. rewrite HT in N4.
  rewrite (take_S_r _ n 0), N4 by done.
  assert (length (stored_name copied) = n) as Hlen.
  { rewrite <- N4, length_take. apply lookup_lt_Some in Hz. lia. }
  destruct (decide (n = 0%nat)) as [E0|E0]; destruct (decide (stored_name copied = [])) as [E1|E1];
    try done.
  - destruct (stored_name copied); [done|simpl in *; lia].
  - rewrite E1 in Hlen. simpl in Hlen. lia.
Qed.

(** "abc", as [strncpy_from_user] leaves it. *)
Definition abc : Z * list Z := (3, [97; 98; 99] ++ replicate 253 0).

Lemma demo0_wf : wf demo0.
Proof.
  apply (si_wf (Sys demo0 [])), (reachable_inv (demo_mm true)).
  eapply star_step; [apply star_refl|by apply (step_open _ 0 0 _ _ demo0)].
Qed.

Lemma set_get_name_roundtrip_witness : exists s',
  ashmem_ioctl 0 ASHMEM_GET_NAME 0 (IoctlEnv abc 0 None None false true true (fun _ => true)) s' =
  Some ((Some 0, [97; 98; 99; 0]), s').
Proof.
  destruct (set_get_name_roundtrip demo0 0 (default (new_area 0) (areas demo0 !! 0%nat)) abc 0
    (IoctlEnv abc 0 None None false true true (fun _ => true)) demo0_wf)
    as (s' & _ & _ & E); try reflexivity.
  - split; [reflexivity|]. intros _. left. split; reflexivity.
  - discriminate.
  - exists s'. exact E.
Defined.

(** ** Closing an area *)

(** closing an area returns 0, leaves no range of it in the store or on
    the LRU, takes it off the list of live areas, drops exactly one reference
    of its backing file, and changes no page of any other area. *)
Theorem release_frees_area s a A :
  wf s -> areas s !! a = Some A ->
  exists s', ashmem_release a s = Some (0, s') /\ wf s' /\
    areas s' = delete a (areas s) /\ (a ∉ ashmem_area_list s') /\
    (forall id r, ranges s' !! id = Some r -> asma r <> a) /\
    (forall b p v, b <> a -> status s' b p v <-> status s b p v) /\
    (forall f F, file A = Some f -> files s !! f = Some F ->
       exists F', files s' !! f = Some F' /\ f_count F' = f_count F - 1).
Proof.
  intros Hwf HA. destruct (ashmem_release_ok a A s Hwf HA) as (s' & E & []).
  exists s'. split; [done|]. split; [done|]. split; [done|]. split; [|done].
  rewrite (wf_live _ _ rl_wf a), rl_areas, lookup_delete_eq. by intros [? ?].
Qed.

Lemma release_frees_area_witness : exists s',
  ashmem_release 0 demo = Some (0, s') /\ areas s' = delete 0%nat (areas demo).
Proof.
  destruct (release_frees_area demo 0 (default (new_area 0) (areas demo !! 0%nat)) demo_wf)
    as (s' & E & _ & EA & _); [reflexivity|]. exists s'. split; [exact E|exact EA].
Defined.

(** ** Requests at the very end of the area *)

(** A request of length 0 at the end of the area passes every check and
    names the empty interval [n, n-1]; ASHMEM_UNPIN then links an empty range,
    after which ASHMEM_GET_PIN_STATUS reports the last page as unpinned
    although no page is. *)
Theorem empty_range_reported_unpinned : exists s',
  ashmem_ioctl 0 ASHMEM_UNPIN 0 (demo_env (Some (32768, 0)) (Some 12%nat)) demo2 =
    Some ((Some 0, []), s') /\
  (forall p, ~ unpinned s' 0 p) /\
  ashmem_ioctl 0 ASHMEM_GET_PIN_STATUS 0 (demo_env (Some (28672, 4096)) None) s' =
    Some ((Some ASHMEM_IS_UNPINNED, []), s').
Proof.
  set (s' := step_or demo2 (ashmem_ioctl 0 ASHMEM_UNPIN 0 (demo_env (Some (32768, 0)) (Some 12%nat)))).
  exists s'. split; [vm_compute; reflexivity|]. split; [|vm_compute; reflexivity].
  intros p (v & A & id & r & HA & Hid & Hr & Hp & _).
  vm_compute in HA. injection HA as <-. apply list_elem_of_singleton in Hid as ->.
  vm_compute in Hr. injection Hr as <-. simpl in Hp. lia.
Qed.

(** ** Loading the module *)

Definition nothing_held (m : ashmem_module) : Prop := m = AshmemModule false false false false.
Definition all_held (m : ashmem_module) : Prop := m = AshmemModule true true true true.

(** loading the module either holds both caches, the device and the
    shrinker and returns 0, or holds nothing; it returns an error in the
    latter case, except that a failure of [shrinker_alloc] tears everything
    down and still returns 0.  Unloading a loaded module releases everything. *)
Theorem init_all_or_nothing c1 c2 misc dynamic alloc reg :
  let '(rv, m) := ashmem_init c1 c2 misc dynamic alloc reg in
  (all_held m /\ rv = 0 /\ nothing_held (ashmem_exit m)) \/
  (nothing_held m /\
   (rv = 0 <-> (c1 = true /\ c2 = true /\ misc = 0 /\ dynamic = true /\ alloc = false))).
Proof.
  unfold ashmem_init, all_held, nothing_held.
  assert (Hno : forall rv (P : Prop), rv <> 0 -> ~ P -> (rv = 0 <-> P)) by tauto.
  assert (- ENOMEM <> 0) by done.
  destruct c1, c2; simpl; try (right; split; [done|]; apply Hno; [done|]; by intros (? & ? & _)).
  destruct (Z.eqb_spec misc 0) as [->|Hm]; simpl.
  2:{ right. split; [done|]. apply Hno; [done|]. by intros (_ & _ & ? & _). }
  destruct dynamic, alloc; simpl; try (by left); try (by right);
    (destruct (Z.eqb_spec reg 0) as [->|Hr]; simpl; [by left|]);
    (right; split; [done|]; apply Hno; [done|]; by intros (_ & _ & _ & ? & ?)).
Qed.
