(* ===== verification/RbTree.v ===== *)
(** * Red-black trees as the drivers use them

    The kernel's rb-trees are intrusive: a client descends from the root with
    its own comparison, links the new node as a red leaf ([rb_link_node]) and
    calls [rb_insert_color] to rebalance; [rb_erase] unlinks and rebalances.
    The descents are the clients' code and are modelled as written; the two
    rebalancing routines belong to the kernel's library and are operations of
    the class [Rbtree], of which [RbtreeLaws] states what their documentation
    promises: rebalancing never changes the in-order sequence. *)

From Stdlib Require Import ZArith Lia.
From stdpp Require Import base option sorting list.
From S2P Require Import Prelude.

Inductive rb_color := RB_RED | RB_BLACK.

(** A node holds the identity of the object it is embedded in. *)
Inductive rb_tree :=
  | rb_leaf
  | rb_node (c : rb_color) (l : rb_tree) (x : nat) (r : rb_tree).

(** The in-order sequence: what [rb_first]/[rb_next] iterate over. *)
Fixpoint rb_inorder (t : rb_tree) : list nat :=
  match t with
  | rb_leaf => []
  | rb_node _ l x r => rb_inorder l ++ x :: rb_inorder r
  end.

Definition rb_first (t : rb_tree) : option nat := head (rb_inorder t).

Class Rbtree := {
  rb_insert_color : nat -> rb_tree -> rb_tree;
  rb_erase : nat -> rb_tree -> rb_tree
}.

Class RbtreeLaws `{Rbtree} : Prop := {
  rb_insert_color_inorder x t : rb_inorder (rb_insert_color x t) = rb_inorder t;
  rb_erase_inorder x t :
    NoDup (rb_inorder t) -> x ∈ rb_inorder t ->
    rb_inorder (rb_erase x t) = list_del x (rb_inorder t)
}.

(** The loop [while ( *p) { parent = *p; ...; p = &parent->rb_left or
    &parent->rb_right; }] followed by [rb_link_node(x, parent, p)]: [dir y] is
    the loop body at node [y], [true] when it goes left. *)
Fixpoint rb_descend {S} (dir : nat -> M S bool) (x : nat) (t : rb_tree) : M S rb_tree :=
  match t with
  | rb_leaf => ret (rb_node RB_RED rb_leaf x rb_leaf)
  | rb_node c l y r =>
    let! go_left := dir y in
    if go_left then let! l' := rb_descend dir x l in ret (rb_node c l' y r)
    else let! r' := rb_descend dir x r in ret (rb_node c l y r')
  end.

(** A descent whose body compares by a key places the node after every key
    not larger and before every larger one. *)
Lemma rb_descend_sorted {S} (dir : nat -> M S bool) (key : nat -> Z) x k s : forall t,
  StronglySorted Z.le (map key (rb_inorder t)) ->
  (forall y, y ∈ rb_inorder t -> dir y s = Some (k <? key y, s)) ->
  exists t' l1 l2, rb_descend dir x t s = Some (t', s) /\
    rb_inorder t = l1 ++ l2 /\ rb_inorder t' = l1 ++ x :: l2 /\
    (forall y, y ∈ l1 -> key y <= k) /\ (forall y, y ∈ l2 -> k < key y).
Proof.
  induction t as [|c l IHl y r IHr]; intros Hs Hd.
  - exists (rb_node RB_RED rb_leaf x rb_leaf), [], []. do 3 (split; [done|]).
    split; intros y Hy; by apply not_elem_of_nil in Hy.
  - simpl in *. rewrite map_app in Hs. apply StronglySorted_app in Hs as (Hlr & Hl & Hr).
    simpl in Hr. apply StronglySorted_cons in Hr as [Hyr Hr].
    erewrite bind_eq by (apply Hd, elem_of_app; right; by left).
    destruct (k <? key y) eqn:Hk; zbool.
    + destruct IHl as (t' & l1 & l2 & E & E1 & E2 & H1 & H2);
        [done|intros z Hz; apply Hd, elem_of_app; by left|].
      erewrite bind_eq by exact E.
      eexists _, l1, (l2 ++ y :: rb_inorder r). split; [reflexivity|].
      split; [by rewrite E1, <- app_assoc|]. split; [simpl; by rewrite E2, <- app_assoc|].
      split; [done|]. intros z [Hz|[->|Hz]%elem_of_cons]%elem_of_app; [by apply H2|done|].
      rewrite Forall_map, Forall_forall in Hyr. specialize (Hyr z Hz). simpl in Hyr. lia.
    + destruct IHr as (t' & l1 & l2 & E & E1 & E2 & H1 & H2);
        [done|intros z Hz; apply Hd, elem_of_app; right; by right|].
      erewrite bind_eq by exact E.
      eexists _, (rb_inorder l ++ y :: l1), l2. split; [reflexivity|].
      split; [by rewrite E1, <- app_assoc|]. split; [simpl; by rewrite E2, <- app_assoc|].
      split; [|done]. intros z [Hz|[->|Hz]%elem_of_cons]%elem_of_app; [|done|by apply H1].
      specialize (Hlr (key z) (key y) (list_elem_of_fmap_2 _ _ _ Hz)). simpl in Hlr.
      enough (key z <= key y) by lia. apply Hlr. by left.
Qed.

(** ** Descents that may meet their key

    [cmp y] compares the key looked for with that of node [y]. *)

(** The loop of a lookup: it returns the node with an equal key. *)
Fixpoint rb_find {S} (cmp : nat -> M S comparison) (t : rb_tree) : M S (option nat) :=
  match t with
  | rb_leaf => ret None
  | rb_node _ l y r =>
    let! c := cmp y in
    match c with
    | Lt => rb_find cmp l
    | Gt => rb_find cmp r
    | Eq => ret (Some y)
    end
  end.

(** The loop of an insertion that stops at a node with an equal key ([inl]);
    else the new node is linked where the loop ended ([inr]). *)
Fixpoint rb_link {S} (cmp : nat -> M S comparison) (x : nat) (t : rb_tree) : M S (nat + rb_tree) :=
  match t with
  | rb_leaf => ret (inr (rb_node RB_RED rb_leaf x rb_leaf))
  | rb_node c l y r =>
    let! d := cmp y in
    match d with
    | Eq => ret (inl y)
    | Lt => let! res := rb_link cmp x l in
            ret (match res with inl z => inl z | inr l' => inr (rb_node c l' y r) end)
    | Gt => let! res := rb_link cmp x r in
            ret (match res with inl z => inl z | inr r' => inr (rb_node c l y r') end)
    end
  end.

(** A tree in strict key order. *)
Definition rb_keyed (key : nat -> Z) (t : rb_tree) : Prop := StronglySorted Z.lt (map key (rb_inorder t)).

Lemma rb_keyed_node key c l y r : rb_keyed key (rb_node c l y r) ->
  rb_keyed key l /\ rb_keyed key r /\
  (forall z, z ∈ rb_inorder l -> key z < key y) /\ (forall z, z ∈ rb_inorder r -> key y < key z).
Proof.
  unfold rb_keyed. simpl. rewrite map_app. intros (Hlr & Hl & Hr)%StronglySorted_app. simpl in Hr.
  apply StronglySorted_cons in Hr as [Hy Hr]. split; [done|]. split; [done|]. split; intros z Hz.
  - apply (Hlr (key z) (key y) (list_elem_of_fmap_2 _ _ _ Hz)). by left.
  - rewrite Forall_map, Forall_forall in Hy. by apply Hy.
Qed.

Lemma rb_keyed_ext (key key' : nat -> Z) t : (forall x, x ∈ rb_inorder t -> key' x = key x) ->
  rb_keyed key t -> rb_keyed key' t.
Proof.
  unfold rb_keyed. intros E. assert (map key' (rb_inorder t) = map key (rb_inorder t)) as ->; [|done].
  apply map_ext_in. intros x Hx. by apply E, list_elem_of_In.
Qed.

Lemma rb_keyed_NoDup key t : rb_keyed key t -> NoDup (rb_inorder t).
Proof.
  unfold rb_keyed. induction (rb_inorder t) as [|x l IH]; [constructor|]. simpl. intros [Hx Hs]%StronglySorted_cons.
  apply NoDup_cons. split; [|by apply IH]. intros Hin. rewrite Forall_map, Forall_forall in Hx.
  specialize (Hx x Hin). simpl in Hx. lia.
Qed.

Lemma rb_keyed_inj key t x y : rb_keyed key t -> x ∈ rb_inorder t -> y ∈ rb_inorder t ->
  key x = key y -> x = y.
Proof.
  unfold rb_keyed. induction (rb_inorder t) as [|z l IH]; [by intros _ ?%not_elem_of_nil|].
  simpl. intros [Hz Hs]%StronglySorted_cons. rewrite Forall_map, Forall_forall in Hz.
  intros [->|Hx]%elem_of_cons [->|Hy]%elem_of_cons E; [done| | |by apply IH].
  - specialize (Hz y Hy). simpl in Hz. lia.
  - specialize (Hz x Hx). simpl in Hz. lia.
Qed.

Lemma rb_find_spec {S} (cmp : nat -> M S comparison) (key : nat -> Z) k s : forall t,
  rb_keyed key t -> (forall y, y ∈ rb_inorder t -> cmp y s = Some (Z.compare k (key y), s)) ->
  exists r, rb_find cmp t s = Some (r, s) /\
    match r with
    | Some y => y ∈ rb_inorder t /\ key y = k
    | None => forall y, y ∈ rb_inorder t -> key y <> k
    end.
Proof.
  induction t as [|c l IHl y r IHr]; intros Hk Hc.
  { exists None. split; [done|]. by intros y ?%not_elem_of_nil. }
  destruct (rb_keyed_node _ _ _ _ _ Hk) as (Kl & Kr & Hl & Hr). simpl.
  erewrite bind_eq by (apply Hc, elem_of_app; right; by left).
  destruct (Z.compare_spec k (key y)) as [E|E|E].
  - exists (Some y). split; [done|]. split; [apply elem_of_app; right; by left|done].
  - destruct IHl as (r' & E' & Hr'); [done|intros z Hz; apply Hc, elem_of_app; by left|].
    exists r'. split; [done|]. destruct r' as [z|].
    + split; [apply elem_of_app; left|]; apply Hr'.
    + intros z [Hz|[->|Hz]%elem_of_cons]%elem_of_app; [by apply Hr'|lia|specialize (Hr z Hz); lia].
  - destruct IHr as (r' & E' & Hr'); [done|intros z Hz; apply Hc, elem_of_app; right; by right|].
    exists r'. split; [done|]. destruct r' as [z|].
    + split; [apply elem_of_app; right; right|]; apply Hr'.
    + intros z [Hz|[->|Hz]%elem_of_cons]%elem_of_app; [specialize (Hl z Hz); lia|lia|by apply Hr'].
Qed.

(** Linking either meets the key or puts the node at its place. *)
Lemma rb_link_spec {S} (cmp : nat -> M S comparison) (key : nat -> Z) x k s : forall t,
  rb_keyed key t -> (forall y, y ∈ rb_inorder t -> cmp y s = Some (Z.compare k (key y), s)) ->
  exists r, rb_link cmp x t s = Some (r, s) /\
    match r with
    | inl y => y ∈ rb_inorder t /\ key y = k
    | inr t' => exists l1 l2, rb_inorder t = l1 ++ l2 /\ rb_inorder t' = l1 ++ x :: l2 /\
        (forall y, y ∈ l1 -> key y < k) /\ (forall y, y ∈ l2 -> k < key y)
    end.
Proof.
  induction t as [|c l IHl y r IHr]; intros Hk Hc.
  { eexists. split; [reflexivity|]. exists [], []. do 2 (split; [done|]).
    split; by intros y ?%not_elem_of_nil. }
  destruct (rb_keyed_node _ _ _ _ _ Hk) as (Kl & Kr & Hl & Hr). simpl.
  erewrite bind_eq by (apply Hc, elem_of_app; right; by left).
  destruct (Z.compare_spec k (key y)) as [E|E|E].
  - exists (inl y). split; [done|]. split; [apply elem_of_app; right; by left|done].
  - destruct IHl as (r' & E' & Hr'); [done|intros z Hz; apply Hc, elem_of_app; by left|].
    erewrite bind_eq by exact E'. eexists. split; [reflexivity|]. destruct r' as [z|t'].
    + split; [apply elem_of_app; left|]; apply Hr'.
    + destruct Hr' as (l1 & l2 & E1 & E2 & H1 & H2). exists l1, (l2 ++ y :: rb_inorder r).
      split; [by rewrite E1, <- app_assoc|]. split; [simpl; by rewrite E2, <- app_assoc|].
      split; [done|]. intros z [Hz|[->|Hz]%elem_of_cons]%elem_of_app; [by apply H2|lia|specialize (Hr z Hz); lia].
  - destruct IHr as (r' & E' & Hr'); [done|intros z Hz; apply Hc, elem_of_app; right; by right|].
    erewrite bind_eq by exact E'. eexists. split; [reflexivity|]. destruct r' as [z|t'].
    + split; [apply elem_of_app; right; right|]; apply Hr'.
    + destruct Hr' as (l1 & l2 & E1 & E2 & H1 & H2). exists (rb_inorder l ++ y :: l1), l2.
      split; [by rewrite E1, <- app_assoc|]. split; [simpl; by rewrite E2, <- app_assoc|].
      split; [|done]. intros z [Hz|[->|Hz]%elem_of_cons]%elem_of_app; [specialize (Hl z Hz); lia|lia|by apply H1].
Qed.

(** The place found keeps the order. *)
Lemma rb_keyed_link key x t t' l1 l2 : rb_keyed key t -> rb_inorder t = l1 ++ l2 ->
  rb_inorder t' = l1 ++ x :: l2 -> (forall y, y ∈ l1 -> key y < key x) ->
  (forall y, y ∈ l2 -> key x < key y) -> rb_keyed key t'.
Proof.
  unfold rb_keyed. intros Hk E E' H1 H2. rewrite E' , map_app. rewrite E, map_app in Hk.
  apply StronglySorted_app in Hk as (H12 & Hs1 & Hs2). apply StronglySorted_app. split; [|split; [done|]].
  - intros a b Ha [->|Hb]%elem_of_cons; [|by apply H12].
    apply list_elem_of_fmap in Ha as (y & -> & Hy). by apply H1.
  - simpl. constructor; [done|]. rewrite Forall_map, Forall_forall. intros y Hy. by apply H2.
Qed.

Lemma rb_keyed_del `{RbtreeLaws} (key : nat -> Z) x t : rb_keyed key t -> x ∈ rb_inorder t ->
  rb_keyed key (rb_erase x t) /\ forall y, y ∈ rb_inorder (rb_erase x t) <-> y <> x /\ y ∈ rb_inorder t.
Proof.
  intros Hk Hx. pose proof (rb_keyed_NoDup _ _ Hk) as Hnd. split.
  - unfold rb_keyed. rewrite rb_erase_inorder by done.
    assert (Hsub : forall l l' : list Z, sublist l' l -> StronglySorted Z.lt l -> StronglySorted Z.lt l').
    { induction 1 as [|a l1 l2 Hs IH|a l1 l2 Hs IH]; intros Hss; [done| |].
      - apply StronglySorted_cons in Hss as [Ha Hss]. constructor; [by apply IH|].
        rewrite Forall_forall in *. intros b Hb. apply Ha. by eapply elem_of_sublist.
      - apply IH. by apply StronglySorted_cons in Hss as [_ ?]. }
    eapply Hsub; [|exact Hk]. apply (fmap_sublist key), sublist_filter.
  - intros y. rewrite rb_erase_inorder by done. apply elem_of_list_del.
Qed.

(** ** An instance that never rebalances, for running the code *)

Fixpoint plain_min (t : rb_tree) : option (nat * rb_tree) :=
  match t with
  | rb_leaf => None
  | rb_node c l x r =>
    match plain_min l with
    | Some (m, l') => Some (m, rb_node c l' x r)
    | None => Some (x, r)
    end
  end.

Fixpoint plain_erase (x : nat) (t : rb_tree) : rb_tree :=
  match t with
  | rb_leaf => rb_leaf
  | rb_node c l y r =>
    if decide (x = y) then
      match plain_min r with
      | Some (m, r') => rb_node c l m r'
      | None => l
      end
    else rb_node c (plain_erase x l) y (plain_erase x r)
  end.

Definition plain_rbtree : Rbtree := {| rb_insert_color _ t := t; rb_erase := plain_erase |}.

Lemma plain_min_inorder t :
  rb_inorder t = match plain_min t with Some (m, t') => m :: rb_inorder t' | None => [] end.
Proof.
  induction t as [|c l IHl x r _]; [done|]. simpl. rewrite IHl.
  destruct (plain_min l) as [[m l']|]; done.
Qed.

Lemma plain_erase_inorder x t :
  NoDup (rb_inorder t) -> rb_inorder (plain_erase x t) = list_del x (rb_inorder t).
Proof.
  induction t as [|c l IHl y r IHr]; [done|]. simpl.
  intros (Hl & Hd & [Hy Hr]%NoDup_cons)%NoDup_app. case_decide as Hxy.
  - subst y. rewrite list_del_split.
    2:{ apply NoDup_app. repeat split; try done. by apply NoDup_cons. }
    rewrite (plain_min_inorder r). destruct (plain_min r) as [[m r']|]; [done|].
    by rewrite app_nil_r.
  - simpl. rewrite IHl, IHr by done. rewrite list_del_app. f_equal.
    unfold list_del. rewrite filter_cons, decide_True by congruence. done.
Qed.

Lemma plain_rbtree_laws : @RbtreeLaws plain_rbtree.
Proof. split; [done|]. intros. by apply plain_erase_inorder. Qed.
