(* ===== verification/BinderAlloc.v ===== *)
(** * The binder buffer allocator (binder/binder_alloc.c, binder_alloc.h)

    One [binder_alloc] manages the address range a process maps: a list of
    buffers in address order that tiles the range, an rb-tree of the free ones
    by size, an rb-tree of the allocated ones by address, and the array of
    pages behind them.  Buffers are objects with identity ([store]); the list
    and the trees hold identities.

    The list_lru calls go through the macros of binder/compat.h, which expand
    to [true]; they are modelled as that.  Debug output and tracepoints are
    left out; [WARN_ON] counts. *)

From Stdlib Require Import ZArith Lia.
From stdpp Require Import base option gmap sets list.
From S2P Require Import Prelude RbTree.

(** ** Data *)

Record binder_buffer := Buffer {
  free : bool;
  allow_user_free : bool;
  async_transaction : bool;
  debug_id : Z;
  transaction : option nat;
  target_node : option nat;
  data_size : Z;
  offsets_size : Z;
  extra_buffers_size : Z;
  user_data : Z
}.

(** [page_ptr]: the bytes of the page, if one is there; [lru_empty]: what
    [list_empty(&page->lru)] answers. *)
Record binder_lru_page := LruPage { page_ptr : option (list Z); lru_empty : bool }.

Record binder_alloc := Alloc {
  store : gmap nat binder_buffer;
  vma : option nat;
  vma_vm_mm : option nat;
  buffer : Z;
  buffers : list nat;
  free_buffers : rb_tree;
  allocated_buffers : rb_tree;
  free_async_space : Z;
  pages : option (list binder_lru_page);
  buffer_size : Z;
  pages_high : Z;
  mm_users : Z;
  mm_count : Z;
  warnings : Z
}.

Definition set_store x s := Alloc x (vma s) (vma_vm_mm s) (buffer s) (buffers s) (free_buffers s)
  (allocated_buffers s) (free_async_space s) (pages s) (buffer_size s) (pages_high s) (mm_users s)
  (mm_count s) (warnings s).
Definition set_vma x y s := Alloc (store s) x y (buffer s) (buffers s) (free_buffers s)
  (allocated_buffers s) (free_async_space s) (pages s) (buffer_size s) (pages_high s) (mm_users s)
  (mm_count s) (warnings s).
Definition set_space base size s := Alloc (store s) (vma s) (vma_vm_mm s) base (buffers s)
  (free_buffers s) (allocated_buffers s) (free_async_space s) (pages s) size (pages_high s)
  (mm_users s) (mm_count s) (warnings s).
Definition set_buffers x s := Alloc (store s) (vma s) (vma_vm_mm s) (buffer s) x (free_buffers s)
  (allocated_buffers s) (free_async_space s) (pages s) (buffer_size s) (pages_high s) (mm_users s)
  (mm_count s) (warnings s).
Definition set_free x s := Alloc (store s) (vma s) (vma_vm_mm s) (buffer s) (buffers s) x
  (allocated_buffers s) (free_async_space s) (pages s) (buffer_size s) (pages_high s) (mm_users s)
  (mm_count s) (warnings s).
Definition set_allocated x s := Alloc (store s) (vma s) (vma_vm_mm s) (buffer s) (buffers s)
  (free_buffers s) x (free_async_space s) (pages s) (buffer_size s) (pages_high s) (mm_users s)
  (mm_count s) (warnings s).
Definition set_async x s := Alloc (store s) (vma s) (vma_vm_mm s) (buffer s) (buffers s)
  (free_buffers s) (allocated_buffers s) x (pages s) (buffer_size s) (pages_high s) (mm_users s)
  (mm_count s) (warnings s).
Definition set_pages x high s := Alloc (store s) (vma s) (vma_vm_mm s) (buffer s) (buffers s)
  (free_buffers s) (allocated_buffers s) (free_async_space s) x (buffer_size s) high (mm_users s)
  (mm_count s) (warnings s).
Definition set_mm users count s := Alloc (store s) (vma s) (vma_vm_mm s) (buffer s) (buffers s)
  (free_buffers s) (allocated_buffers s) (free_async_space s) (pages s) (buffer_size s)
  (pages_high s) users count (warnings s).
Definition warn_on (b : bool) : M binder_alloc unit :=
  modify (fun s => if b then Alloc (store s) (vma s) (vma_vm_mm s) (buffer s) (buffers s)
    (free_buffers s) (allocated_buffers s) (free_async_space s) (pages s) (buffer_size s)
    (pages_high s) (mm_users s) (mm_count s) (warnings s + 1) else s).

Definition SIZEOF_PTR : Z := 8.
Definition SIZEOF_BINDER_BUFFER : Z := 96.
Definition SZ_4M : Z := 4194304.

Definition buf_at (id : nat) : M binder_alloc binder_buffer :=
  let! s := get in deref (store s !! id).
Definition update_buf (id : nat) (b : binder_buffer) : M binder_alloc unit :=
  modify (fun s => set_store (<[id := b]> (store s)) s).

(** ** The list of buffers *)

Fixpoint list_next (x : nat) (l : list nat) : option nat :=
  match l with
  | [] => None
  | y :: l' => if decide (x = y) then head l' else list_next x l'
  end.
Fixpoint list_prev (x : nat) (l : list nat) : option nat :=
  match l with
  | [] => None
  | y :: l' => if decide (head l' = Some x) then Some y else list_prev x l'
  end.
Definition list_is_last (x : nat) (l : list nat) : bool := bool_decide (last l = Some x).
Definition list_is_first (x : nat) (l : list nat) : bool := bool_decide (head l = Some x).

(** The neighbours; following a link off the end of the list reads the list
    head as a buffer, which no caller survives. *)
Definition binder_buffer_next (id : nat) : M binder_alloc nat :=
  let! s := get in deref (list_next id (buffers s)).
Definition binder_buffer_prev (id : nat) : M binder_alloc nat :=
  let! s := get in deref (list_prev id (buffers s)).

Definition binder_alloc_buffer_size (id : nat) : M binder_alloc Z :=
  let! s := get in
  let! b := buf_at id in
  if list_is_last id (buffers s) then ret (u64 (buffer s + buffer_size s - user_data b))
  else let! next := binder_buffer_next id in
       let! nb := buf_at next in
       ret (u64 (user_data nb - user_data b)).

(** ** Pages *)

(** What the memory manager answers during one call: [mmget_not_zero], the
    outcome of [alloc_page] for a slot of the page array, and the result of
    [vm_insert_page] at an address. *)
Record page_env := PageEnv {
  mmget_not_zero : bool;
  alloc_page : nat -> bool;
  vm_insert_page : Z -> Z
}.

Definition zero_page : list Z := replicate (Z.to_nat PAGE_SIZE) 0.

(** [(page_addr - alloc->buffer) / PAGE_SIZE] *)
Definition page_index (page_addr : Z) : M binder_alloc nat :=
  gets (fun s => Z.to_nat (u64 (page_addr - buffer s) / PAGE_SIZE)).

(** [&alloc->pages[i]], read or written; outside the array is an oops. *)
Definition page_at (i : nat) : M binder_alloc binder_lru_page :=
  let! s := get in
  let! ps := deref (pages s) in deref (ps !! i).
Definition update_page (i : nat) (p : binder_lru_page) : M binder_alloc unit :=
  let! _ := page_at i in
  modify (fun s => set_pages (fmap (fun ps => <[i := p]> ps) (pages s)) (pages_high s) s).

(** The macros of binder/compat.h. *)
Definition compat_list_lru_add (i : nat) : M binder_alloc bool := ret true.
Definition compat_list_lru_del (i : nat) : M binder_alloc bool := ret true.

(** The first loop of [binder_update_page_range]: is some page missing? *)
Fixpoint need_mm_loop (fuel : nat) (page_addr end_ : Z) : M binder_alloc bool :=
  match fuel with
  | O => oops
  | S fuel =>
    if page_addr <? end_ then
      let! index := page_index page_addr in
      let! page := page_at index in
      match page_ptr page with
      | None => ret true
      | Some _ => need_mm_loop fuel (u64 (page_addr + PAGE_SIZE)) end_
      end
    else ret false
  end.

(** How the second loop ends: normally, or at one of the error labels. *)
Inductive map_result :=
  | Mapped
  | err_page_ptr_cleared (page_addr : Z)
  | err_alloc_page_failed (page_addr : Z)
  | err_vm_insert_page_failed (page_addr : Z).

Section alloc.
Context (E : page_env).

Fixpoint map_pages_loop (fuel : nat) (vma_ : option nat) (page_addr end_ : Z)
    : M binder_alloc map_result :=
  match fuel with
  | O => oops
  | S fuel =>
    if page_addr <? end_ then
      let! index := page_index page_addr in
      let! page := page_at index in
      match page_ptr page with
      | Some _ =>
        let! on_lru := compat_list_lru_del index in
        warn_on (negb on_lru) ;!
        map_pages_loop fuel vma_ (u64 (page_addr + PAGE_SIZE)) end_
      | None =>
        match vma_ with
        | None => warn_on true ;! ret (err_page_ptr_cleared page_addr)
        | Some _ =>
          if negb (alloc_page E index) then
            update_page index (LruPage None (lru_empty page)) ;!
            ret (err_alloc_page_failed page_addr)
          else
            update_page index (LruPage (Some zero_page) true) ;!
            if negb (vm_insert_page E page_addr =? 0)
            then ret (err_vm_insert_page_failed page_addr)
            else
              modify (fun s => set_pages (pages s)
                (Z.max (pages_high s) (Z.of_nat index + 1)) s) ;!
              map_pages_loop fuel vma_ (u64 (page_addr + PAGE_SIZE)) end_
        end
      end
    else ret Mapped
  end.
End alloc.

(** The backward loop at [free_range], from [page_addr] down to [start]. *)
Fixpoint free_range_loop (fuel : nat) (start page_addr : Z) : M binder_alloc unit :=
  match fuel with
  | O => oops
  | S fuel =>
    let! index := page_index page_addr in
    let! r := compat_list_lru_add index in
    warn_on (negb r) ;!
    if page_addr =? start then ret tt
    else free_range_loop fuel start (u64 (page_addr - PAGE_SIZE))
  end.

(** Entering that loop through an error label: the failed page is dropped if
    it was allocated, then the pages before it are freed. *)
Definition unwind (fuel : nat) (start : Z) (r : map_result) : M binder_alloc unit :=
  let rest page_addr := if page_addr =? start then ret tt
                        else free_range_loop fuel start (u64 (page_addr - PAGE_SIZE)) in
  match r with
  | Mapped => ret tt
  | err_page_ptr_cleared page_addr | err_alloc_page_failed page_addr => rest page_addr
  | err_vm_insert_page_failed page_addr =>
    let! index := page_index page_addr in
    let! page := page_at index in
    update_page index (LruPage None (lru_empty page)) ;!
    rest page_addr
  end.

Definition mmput (taken : bool) : M binder_alloc unit :=
  if taken then modify (fun s => set_mm (mm_users s - 1) (mm_count s) s) else ret tt.

(** [fuel] for a range is one more than its number of pages. *)
Definition range_fuel (start end_ : Z) : nat := S (Z.to_nat ((end_ - start) / PAGE_SIZE) + 1).

Definition binder_update_page_range (E : page_env) (allocate : bool) (start end_ : Z)
    : M binder_alloc Z :=
  let fuel := range_fuel start end_ in
  if end_ <=? start then ret 0
  else if negb allocate then
    free_range_loop fuel start (u64 (end_ - PAGE_SIZE)) ;!
    (* the exit below with [vma == NULL] *)
    ret (- ESRCH)
  else
    let! need_mm := need_mm_loop fuel start end_ in
    let! s := get in
    let mm := if need_mm && mmget_not_zero E then vma_vm_mm s else None in
    let has_mm := bool_decide (mm <> None) in
    (if has_mm then modify (fun s => set_mm (mm_users s + 1) (mm_count s) s) else ret tt) ;!
    let! s := get in
    let vma_ := if has_mm then vma s else None in
    if bool_decide (vma_ = None) && need_mm then mmput has_mm ;! ret (- ESRCH)
    else
      let! r := map_pages_loop E fuel vma_ start end_ in
      match r with
      | Mapped => mmput has_mm ;! ret 0
      | _ => unwind fuel start r ;!
             mmput has_mm ;!
             ret (if bool_decide (vma_ = None) then - ESRCH else - ENOMEM)
      end.

Definition binder_alloc_set_vma (v : option (nat * option nat)) : M binder_alloc unit :=
  match v with
  | Some (vma_, mm) => modify (fun s => set_vma (Some vma_) mm s)
  | None => modify (fun s => set_vma None (vma_vm_mm s) s)
  end.

Definition binder_alloc_get_vma : M binder_alloc (option nat) := gets vma.

Section rb.
Context `{Rbtree}.

(** ** The two trees *)

Definition binder_insert_free_buffer (new_buffer : nat) : M binder_alloc unit :=
  let! nb := buf_at new_buffer in
  bug_on (negb (free nb)) ;!
  let! new_buffer_size := binder_alloc_buffer_size new_buffer in
  let! s := get in
  let! t := rb_descend (fun id =>
      let! b := buf_at id in
      bug_on (negb (free b)) ;!
      let! size := binder_alloc_buffer_size id in
      ret (new_buffer_size <? size)) new_buffer (free_buffers s) in
  modify (set_free (rb_insert_color new_buffer t)).

Definition binder_insert_allocated_buffer_locked (new_buffer : nat) : M binder_alloc unit :=
  let! nb := buf_at new_buffer in
  bug_on (free nb) ;!
  let! s := get in
  let! t := rb_descend (fun id =>
      let! b := buf_at id in
      bug_on (free b) ;!
      if user_data nb <? user_data b then ret true
      else if user_data b <? user_data nb then ret false
      else oops) new_buffer (allocated_buffers s) in
  modify (set_allocated (rb_insert_color new_buffer t)).

(** The search of [binder_alloc_prepare_to_free_locked]. *)
Inductive lookup_result := NotFound | Found (id : nat) | LookupErr (err : Z).

Fixpoint prepare_to_free_loop (user_ptr : Z) (t : rb_tree) : M binder_alloc lookup_result :=
  match t with
  | rb_leaf => ret NotFound
  | rb_node _ l id r =>
    let! b := buf_at id in
    bug_on (free b) ;!
    if user_ptr <? user_data b then prepare_to_free_loop user_ptr l
    else if user_data b <? user_ptr then prepare_to_free_loop user_ptr r
    else if negb (allow_user_free b) then ret (LookupErr (- EPERM))
    else
      update_buf id (Buffer (free b) false (async_transaction b) (debug_id b) (transaction b)
        (target_node b) (data_size b) (offsets_size b) (extra_buffers_size b) (user_data b)) ;!
      ret (Found id)
  end.

Definition binder_alloc_prepare_to_free_locked (user_ptr : Z) : M binder_alloc lookup_result :=
  let! s := get in prepare_to_free_loop user_ptr (allocated_buffers s).

Definition binder_alloc_prepare_to_free (user_ptr : Z) : M binder_alloc lookup_result :=
  binder_alloc_prepare_to_free_locked user_ptr.

(** ** Allocating a buffer *)

(** The best-fit search: the candidate and whether it fits exactly (the
    loop left by [break], [n] not NULL). *)
Fixpoint best_fit_loop (size : Z) (t : rb_tree) (best_fit : option nat)
    : M binder_alloc (option nat * bool) :=
  match t with
  | rb_leaf => ret (best_fit, false)
  | rb_node _ l id r =>
    let! b := buf_at id in
    bug_on (negb (free b)) ;!
    let! bsize := binder_alloc_buffer_size id in
    if size <? bsize then best_fit_loop size l (Some id)
    else if bsize <? size then best_fit_loop size r best_fit
    else ret (Some id, true)
  end.

(** The totals reported when no buffer fits: number, sum and largest. *)
Record buffer_totals := Totals { tot_count : Z; tot_size : Z; tot_largest : Z }.
Fixpoint totals_loop (l : list nat) (t : buffer_totals) : M binder_alloc buffer_totals :=
  match l with
  | [] => ret t
  | id :: l' =>
    let! size := binder_alloc_buffer_size id in
    totals_loop l' (Totals (u64 (tot_count t + 1)) (u64 (tot_size t + size))
                           (if tot_largest t <? size then size else tot_largest t))
  end.

(** The sum of the three sizes, each rounded up to a pointer, or the failure
    of an overflow check. *)
Definition request_size (data_size offsets_size extra_buffers_size : Z) : option Z :=
  let data_offsets_size := u64 (ALIGN data_size SIZEOF_PTR + ALIGN offsets_size SIZEOF_PTR) in
  if (data_offsets_size <? data_size) || (data_offsets_size <? offsets_size) then None
  else
    let size := u64 (data_offsets_size + ALIGN extra_buffers_size SIZEOF_PTR) in
    if (size <? data_offsets_size) || (size <? extra_buffers_size) then None
    else Some size.

(** Cutting what is not needed off the chosen buffer; [false] when there is
    no memory for the new buffer structure ([new_struct] is [kzalloc]'s
    result). *)
Definition split_buffer (id : nat) (new_struct : option nat) (bsize size : Z)
    : M binder_alloc bool :=
  let! b := buf_at id in
  if bsize =? size then ret true
  else match new_struct with
  | None => ret false
  | Some n =>
    update_buf n (Buffer true false false 0 None None 0 0 0 (u64 (user_data b + size))) ;!
    modify (fun s => set_buffers (list_add_after (Some id) n (buffers s)) s) ;!
    binder_insert_free_buffer n ;!
    ret true
  end.

(** From [rb_erase] to the end: the chosen buffer becomes an allocated one. *)
Definition take_buffer (id : nat) (data_size offsets_size extra_buffers_size size : Z)
    (is_async : bool) : M binder_alloc (nat + Z) :=
  modify (fun s => set_free (rb_erase id (free_buffers s)) s) ;!
  let! b := buf_at id in
  update_buf id (Buffer false false (async_transaction b) (debug_id b) (transaction b)
    (target_node b) (BinderAlloc.data_size b) (BinderAlloc.offsets_size b)
    (BinderAlloc.extra_buffers_size b) (user_data b)) ;!
  binder_insert_allocated_buffer_locked id ;!
  update_buf id (Buffer false false is_async (debug_id b) (transaction b)
    (target_node b) data_size offsets_size extra_buffers_size (user_data b)) ;!
  (if is_async
   then modify (fun s => set_async
          (u64 (free_async_space s - u64 (size + SIZEOF_BINDER_BUFFER))) s)
   else ret tt) ;!
  ret (inl id).

(** The result is the buffer or the error in the returned pointer. *)
Definition binder_alloc_new_buf_locked (E : page_env) (new_struct : option nat)
    (data_size offsets_size extra_buffers_size : Z) (is_async : bool)
    : M binder_alloc (nat + Z) :=
  let! v := binder_alloc_get_vma in
  if bool_decide (v = None) then ret (inr (- ESRCH))
  else match request_size data_size offsets_size extra_buffers_size with
  | None => ret (inr (- EINVAL))
  | Some size =>
    let! s := get in
    if is_async && (free_async_space s <? u64 (size + SIZEOF_BINDER_BUFFER))
    then ret (inr (- ENOSPC))
    else
      (* Pad 0-size buffers so they get assigned unique addresses *)
      let size := Z.max size SIZEOF_PTR in
      let! fit := best_fit_loop size (free_buffers s) None in
      match fst fit with
      | None =>
        let! _ := totals_loop (rb_inorder (allocated_buffers s)) (Totals 0 0 0) in
        let! _ := totals_loop (rb_inorder (free_buffers s)) (Totals 0 0 0) in
        ret (inr (- ENOSPC))
      | Some id =>
        let! b := buf_at id in
        let! bsize := binder_alloc_buffer_size id in
        let has_page_addr := Z.land (u64 (user_data b + bsize)) PAGE_MASK in
        warn_on (snd fit && negb (bsize =? size)) ;!
        let end_page_addr := PAGE_ALIGN (u64 (user_data b + size)) in
        let end_page_addr := if has_page_addr <? end_page_addr then has_page_addr
                             else end_page_addr in
        let! r := binder_update_page_range E true (PAGE_ALIGN (user_data b)) end_page_addr in
        if negb (r =? 0) then ret (inr r)
        else
          let! split := split_buffer id new_struct bsize size in
          if negb split then
            binder_update_page_range E false (PAGE_ALIGN (user_data b)) end_page_addr ;!
            ret (inr (- ENOMEM))
          else take_buffer id data_size offsets_size extra_buffers_size size is_async
      end
  end.

Definition binder_alloc_new_buf E new_struct data_size offsets_size extra_buffers_size is_async
    : M binder_alloc (nat + Z) :=
  binder_alloc_new_buf_locked E new_struct data_size offsets_size extra_buffers_size is_async.

(** ** Freeing a buffer *)

Definition buffer_start_page (b : binder_buffer) : Z := Z.land (user_data b) PAGE_MASK.
Definition prev_buffer_end_page (b : binder_buffer) : Z :=
  Z.land (u64 (user_data b - 1)) PAGE_MASK.

Definition binder_delete_free_buffer (E : page_env) (id : nat) : M binder_alloc unit :=
  let! s := get in
  bug_on (list_is_first id (buffers s)) ;!
  let! prev := binder_buffer_prev id in
  let! pb := buf_at prev in
  bug_on (negb (free pb)) ;!
  let! b := buf_at id in
  let to_free := negb (prev_buffer_end_page pb =? buffer_start_page b) in
  let! to_free :=
    (if list_is_last id (buffers s) then ret to_free
     else let! next := binder_buffer_next id in
          let! nb := buf_at next in
          ret (to_free && negb (buffer_start_page nb =? buffer_start_page b))) in
  let to_free := to_free && negb (IS_ALIGNED (user_data b) PAGE_SIZE) in
  (if to_free
   then binder_update_page_range E false (buffer_start_page b)
          (u64 (buffer_start_page b + PAGE_SIZE)) ;! ret tt
   else ret tt) ;!
  modify (fun s => set_buffers (list_del id (buffers s)) s) ;!
  modify (fun s => set_store (delete id (store s)) s).

Definition set_buf_free (b : binder_buffer) : binder_buffer :=
  Buffer true (allow_user_free b) (async_transaction b) (debug_id b) (transaction b)
    (target_node b) (data_size b) (offsets_size b) (extra_buffers_size b) (user_data b).

Definition binder_free_buf_locked (E : page_env) (id : nat) : M binder_alloc unit :=
  let! bsize := binder_alloc_buffer_size id in
  let! b := buf_at id in
  let size := u64 (u64 (ALIGN (data_size b) SIZEOF_PTR + ALIGN (offsets_size b) SIZEOF_PTR)
                   + ALIGN (extra_buffers_size b) SIZEOF_PTR) in
  let! s := get in
  bug_on (free b) ;!
  bug_on (bsize <? size) ;!
  bug_on (bool_decide (transaction b <> None)) ;!
  bug_on (user_data b <? buffer s) ;!
  bug_on (u64 (buffer s + buffer_size s) <? user_data b) ;!
  (if async_transaction b
   then modify (fun s => set_async
          (u64 (free_async_space s + u64 (size + SIZEOF_BINDER_BUFFER))) s)
   else ret tt) ;!
  let! _ := binder_update_page_range E false (PAGE_ALIGN (user_data b))
              (Z.land (u64 (user_data b + bsize)) PAGE_MASK) in
  modify (fun s => set_allocated (rb_erase id (allocated_buffers s)) s) ;!
  update_buf id (set_buf_free b) ;!
  let! s := get in
  (if list_is_last id (buffers s) then ret tt
   else let! next := binder_buffer_next id in
        let! nb := buf_at next in
        if free nb then
          modify (fun s => set_free (rb_erase next (free_buffers s)) s) ;!
          binder_delete_free_buffer E next
        else ret tt) ;!
  let! s := get in
  let! id' :=
    (if list_is_first id (buffers s) then ret id
     else let! prev := binder_buffer_prev id in
          let! pb := buf_at prev in
          if free pb then
            binder_delete_free_buffer E id ;!
            modify (fun s => set_free (rb_erase prev (free_buffers s)) s) ;!
            ret prev
          else ret id) in
  binder_insert_free_buffer id'.

Definition binder_alloc_free_buf (E : page_env) (id : nat) : M binder_alloc unit :=
  binder_free_buf_locked E id.

(** ** The address space of a process *)

(** [vma]: the mapping's identity, its mm and its bounds; [new_pages] tells
    whether [kcalloc] succeeds, [new_struct] is [kzalloc]'s result. *)
Definition binder_alloc_mmap_handler (vma_ : nat) (vm_mm : option nat) (vm_start vm_end : Z)
    (new_pages : bool) (new_struct : option nat) : M binder_alloc Z :=
  let! s := get in
  if negb (buffer_size s =? 0) then ret (- EBUSY)
  else
    modify (fun s => set_space (buffer s) (Z.min (u64 (vm_end - vm_start)) SZ_4M) s) ;!
    modify (fun s => set_space vm_start (buffer_size s) s) ;!
    let! s := get in
    if negb new_pages then
      modify (fun s => set_pages None (pages_high s) s) ;!
      modify (set_space 0 0) ;!
      ret (- ENOMEM)
    else
      modify (fun s => set_pages (Some (replicate (Z.to_nat (buffer_size s / PAGE_SIZE))
                                          (LruPage None false))) (pages_high s) s) ;!
      match new_struct with
      | None =>
        modify (fun s => set_pages None (pages_high s) s) ;!
        modify (set_space 0 0) ;!
        ret (- ENOMEM)
      | Some id =>
        update_buf id (Buffer true false false 0 None None 0 0 0 (buffer s)) ;!
        modify (fun s => set_buffers (list_add_after None id (buffers s)) s) ;!
        binder_insert_free_buffer id ;!
        modify (fun s => set_async (buffer_size s / 2) s) ;!
        binder_alloc_set_vma (Some (vma_, vm_mm)) ;!
        modify (fun s => set_mm (mm_users s) (mm_count s + 1) s) ;!
        ret 0
      end.

(** Freeing every allocated buffer; [fuel]: one more than there are. *)
Fixpoint free_all_loop (fuel : nat) (E : page_env) (count : Z) : M binder_alloc Z :=
  match fuel with
  | O => oops
  | S fuel =>
    let! s := get in
    match rb_first (allocated_buffers s) with
    | None => ret count
    | Some id =>
      let! b := buf_at id in
      bug_on (bool_decide (transaction b <> None)) ;!
      binder_free_buf_locked E id ;!
      free_all_loop fuel E (count + 1)
    end
  end.

(** Dropping the buffer structures; [once] is set when the once-only warning
    has been issued. *)
Fixpoint drop_buffers_loop (once : bool) (l : list nat) : M binder_alloc unit :=
  match l with
  | [] => ret tt
  | id :: l' =>
    let! b := buf_at id in
    warn_on (negb (free b)) ;!
    modify (fun s => set_buffers (list_del id (buffers s)) s) ;!
    let! s := get in
    let more := negb (bool_decide (buffers s = [])) in
    warn_on (more && negb once) ;!
    modify (fun s => set_store (delete id (store s)) s) ;!
    drop_buffers_loop (once || more) l'
  end.

(** The pages dropped when the array goes away. *)
Fixpoint free_pages_loop (i : nat) (n : nat) (count : Z) : M binder_alloc Z :=
  match n with
  | O => ret count
  | S n =>
    let! page := page_at i in
    match page_ptr page with
    | None => free_pages_loop (S i) n count
    | Some _ =>
      let! _ := compat_list_lru_del i in
      update_page i (LruPage None (lru_empty page)) ;!
      free_pages_loop (S i) n (count + 1)
    end
  end.

(** Returns the two counts that are logged. *)
Definition binder_alloc_deferred_release (E : page_env) : M binder_alloc (Z * Z) :=
  let! s := get in
  bug_on (bool_decide (vma s <> None)) ;!
  let! count := free_all_loop (S (length (rb_inorder (allocated_buffers s)))) E 0 in
  let! s := get in
  drop_buffers_loop false (buffers s) ;!
  let! page_count :=
    match pages s with
    | None => ret 0
    | Some _ =>
      let! n := free_pages_loop 0 (Z.to_nat (buffer_size s / PAGE_SIZE)) 0 in
      modify (fun s => set_pages None (pages_high s) s) ;!
      ret n
    end in
  let! s := get in
  (match vma_vm_mm s with
   | Some _ => modify (fun s => set_mm (mm_users s) (mm_count s - 1) s)
   | None => ret tt
   end) ;!
  ret (count, page_count).
End rb.

Definition binder_alloc_vma_close : M binder_alloc unit := binder_alloc_set_vma None.

(** The zeroed allocator embedded in a new process. *)
Definition binder_alloc_init : binder_alloc :=
  Alloc ∅ None None 0 [] rb_leaf rb_leaf 0 None 0 0 0 0 0.

(** ** Statistics *)

Record buffer_line := BufferLine {
  bl_debug_id : Z; bl_user_data : Z; bl_data_size : Z; bl_offsets_size : Z; bl_extra : Z;
  bl_active : bool
}.

Definition print_binder_buffer (b : binder_buffer) : buffer_line :=
  BufferLine (debug_id b) (user_data b) (data_size b) (offsets_size b) (extra_buffers_size b)
    (bool_decide (transaction b <> None)).

Fixpoint print_allocated_loop (l : list nat) : M binder_alloc (list buffer_line) :=
  match l with
  | [] => ret []
  | id :: l' =>
    let! b := buf_at id in
    let! rest := print_allocated_loop l' in
    ret (print_binder_buffer b :: rest)
  end.
Definition binder_alloc_print_allocated : M binder_alloc (list buffer_line) :=
  let! s := get in print_allocated_loop (rb_inorder (allocated_buffers s)).

(** (active, lru, free) *)
Fixpoint print_pages_loop (i n : nat) (acc : Z * Z * Z) : M binder_alloc (Z * Z * Z) :=
  match n with
  | O => ret acc
  | S n =>
    let! page := page_at i in
    let '(active, lru, free_) := acc in
    print_pages_loop (S i) n
      (match page_ptr page with
       | None => (active, lru, free_ + 1)
       | Some _ => if lru_empty page then (active + 1, lru, free_) else (active, lru + 1, free_)
       end)
  end.
Definition binder_alloc_print_pages : M binder_alloc (Z * Z * Z * Z) :=
  let! v := binder_alloc_get_vma in
  let! s := get in
  let! c := (if bool_decide (v <> None)
             then print_pages_loop 0 (Z.to_nat (buffer_size s / PAGE_SIZE)) (0, 0, 0)
             else ret (0, 0, 0)) in
  ret (c, pages_high s).

Fixpoint count_loop (l : list nat) (count : Z) : Z :=
  match l with [] => count | _ :: l' => count_loop l' (count + 1) end.
Definition binder_alloc_get_allocated_count : M binder_alloc Z :=
  gets (fun s => count_loop (rb_inorder (allocated_buffers s)) 0).

(** ** The shrinker *)

Inductive lru_status := LRU_SKIP | LRU_REMOVED_RETRY.

(** The callback on page [index]: [trylock] and [mmap_trylock] are the
    outcomes of the two [trylock]s. *)
Definition binder_alloc_free_page (E : page_env) (index : nat) (trylock mmap_trylock : bool)
    : M binder_alloc lru_status :=
  if negb trylock then ret LRU_SKIP
  else
    let! page := page_at index in
    match page_ptr page with
    | None => ret LRU_SKIP
    | Some _ =>
      if negb (mmget_not_zero E) then ret LRU_SKIP
      else
        modify (fun s => set_mm (mm_users s + 1) (mm_count s) s) ;!
        if negb mmap_trylock then mmput true ;! ret LRU_SKIP
        else
          update_page index (LruPage (page_ptr page) true) ;!
          mmput true ;!
          update_page index (LruPage None true) ;!
          ret LRU_REMOVED_RETRY
    end.

Definition binder_shrink_count : Z := 0.
Definition binder_shrink_scan : Z := 0.

(** (list_lru initialised, shrinker registered) *)
Definition binder_alloc_shrinker_init (list_lru_init : Z) (dynamic shrinker_alloc : bool)
    (register_shrinker : Z) : Z * (bool * bool) :=
  let ret_ := list_lru_init in
  if ret_ =? 0 then
    if dynamic then
      if negb shrinker_alloc then (- ENOMEM, (false, false)) else (ret_, (true, true))
    else
      let ret_ := register_shrinker in
      if negb (ret_ =? 0) then (ret_, (false, false)) else (ret_, (true, true))
  else (ret_, (false, false)).

Definition binder_alloc_shrinker_exit (held : bool * bool) : bool * bool :=
  let held := (fst held, false) in (false, snd held).

(** ** Copying to and from a buffer *)

Definition check_buffer (id : nat) (offset bytes : Z) : M binder_alloc bool :=
  let! bsize := binder_alloc_buffer_size id in
  let! b := buf_at id in
  ret ((bytes <=? bsize) && (offset <=? u64 (bsize - bytes)) && IS_ALIGNED offset 4 &&
       negb (free b) && (negb (allow_user_free b) || bool_decide (transaction b = None))).

(** The slot of the page array, and the offset in the page. *)
Definition binder_alloc_get_page (id : nat) (buffer_offset : Z) : M binder_alloc (nat * Z) :=
  let! s := get in
  let! b := buf_at id in
  let buffer_space_offset := u64 (buffer_offset + u64 (user_data b - buffer s)) in
  let pgoff := Z.land buffer_space_offset (not64 PAGE_MASK) in
  let index := Z.to_nat (Z.shiftr buffer_space_offset PAGE_SHIFT) in
  let! _ := page_at index in
  ret (index, pgoff).

(** [kmap]: the bytes of the page in a slot; there must be one. *)
Definition kmap (index : nat) : M binder_alloc (list Z) :=
  let! page := page_at index in deref (page_ptr page).

(** [memcpy] of [src] into a mapped page at [pgoff]. *)
Definition write_page (index : nat) (pgoff : Z) (src : list Z) : M binder_alloc unit :=
  let! page := page_at index in
  let! bytes := deref (page_ptr page) in
  let off := Z.to_nat pgoff in
  if decide (off + length src <= length bytes)%nat
  then update_page index (LruPage (Some (take off bytes ++ src ++ drop (off + length src) bytes))
                            (lru_empty page))
  else oops.

(** [from] is the user's data from the source pointer on, [left at size] the
    number of bytes [copy_from_user] could not copy when it was asked for
    [size] bytes at [at]; it pads what is missing with zeros. *)
Fixpoint copy_user_loop (fuel : nat) (id : nat) (buffer_offset : Z) (from : list Z) (at_ : Z)
    (left_ : Z -> Z -> Z) (bytes : Z) : M binder_alloc Z :=
  match fuel with
  | O => oops
  | S fuel =>
    if bytes =? 0 then ret 0
    else
      let! pg := binder_alloc_get_page id buffer_offset in
      let size := Z.min bytes (PAGE_SIZE - snd pg) in
      let! _ := kmap (fst pg) in
      let r := left_ at_ size in
      let copied := take (Z.to_nat (size - r)) from ++ replicate (Z.to_nat r) 0 in
      write_page (fst pg) (snd pg) copied ;!
      if negb (r =? 0) then ret (u64 (bytes - size + r))
      else copy_user_loop fuel id (u64 (buffer_offset + size)) (drop (Z.to_nat size) from)
             (at_ + size) left_ (bytes - size)
  end.

(** [fuel]: every round copies at least one byte. *)
Definition binder_alloc_copy_user_to_buffer (id : nat) (buffer_offset : Z) (from : list Z)
    (left_ : Z -> Z -> Z) (bytes : Z) : M binder_alloc Z :=
  let! ok := check_buffer id buffer_offset bytes in
  if negb ok then ret bytes
  else copy_user_loop (S (Z.to_nat bytes)) id buffer_offset from 0 left_ bytes.

(** [ptr] is the kernel memory at the pointer, [done_] what precedes it: the
    source when [to_buffer], else overwritten. *)
Fixpoint buffer_copy_loop (fuel : nat) (to_buffer : bool) (id : nat) (buffer_offset : Z)
    (done_ ptr : list Z) (bytes : Z) : M binder_alloc (list Z) :=
  match fuel with
  | O => oops
  | S fuel =>
    if bytes =? 0 then ret (done_ ++ ptr)
    else
      let! pg := binder_alloc_get_page id buffer_offset in
      let size := Z.min bytes (PAGE_SIZE - snd pg) in
      let n := Z.to_nat size in
      let! page := kmap (fst pg) in
      if decide (n <= length ptr)%nat then
        let! now :=
          (if to_buffer then write_page (fst pg) (snd pg) (take n ptr) ;! ret (take n ptr)
           else ret (take n (drop (Z.to_nat (snd pg)) page))) in
        buffer_copy_loop fuel to_buffer id (u64 (buffer_offset + size)) (done_ ++ now) (drop n ptr)
          (bytes - size)
      else oops
  end.

Definition binder_alloc_do_buffer_copy (to_buffer : bool) (id : nat) (buffer_offset : Z)
    (ptr : list Z) (bytes : Z) : M binder_alloc (Z * list Z) :=
  (* All copies must be 32-bit aligned and 32-bit size *)
  let! ok := check_buffer id buffer_offset bytes in
  if negb ok then ret (- EINVAL, ptr)
  else let! ptr := buffer_copy_loop (S (Z.to_nat bytes)) to_buffer id buffer_offset [] ptr bytes in
       ret (0, ptr).

Definition binder_alloc_copy_to_buffer (id : nat) (buffer_offset : Z) (src : list Z) (bytes : Z)
    : M binder_alloc Z :=
  let! r := binder_alloc_do_buffer_copy true id buffer_offset src bytes in ret (fst r).

Definition binder_alloc_copy_from_buffer (dest : list Z) (id : nat) (buffer_offset bytes : Z)
    : M binder_alloc (Z * list Z) :=
  binder_alloc_do_buffer_copy false id buffer_offset dest bytes.
