(* ===== verification/BinderAllocFacts.v ===== *)
(** * The binder buffer allocator: invariants and the facts behind them

    [tiling]: the buffer list tiles the mapped range in pieces of at least one
    pointer.  [tree_of]: an rb-tree holds a given set of buffers, sorted by a
    key.  [pages_grow]: what [binder_update_page_range] may do to the page
    array.  [wf] puts them together. *)

From Stdlib Require Import ZArith Lia.
From stdpp Require Import base option gmap sets sorting list.
From S2P Require Import Prelude RbTree BinderAlloc.

(** ** The buffer list as a tiling *)

Definition ud (m : gmap nat binder_buffer) (id : nat) : Z :=
  match m !! id with Some b => user_data b | None => 0 end.
Definition fr (m : gmap nat binder_buffer) (id : nat) : bool :=
  match m !! id with Some b => free b | None => false end.

(** Where the buffer after [id] starts, or the end of the space. *)
Fixpoint nxt (m : gmap nat binder_buffer) (fin : Z) (l : list nat) (id : nat) : Z :=
  match l with
  | [] => fin
  | y :: l' => if decide (id = y) then match l' with [] => fin | n :: _ => ud m n end
               else nxt m fin l' id
  end.

Definition starts (m : gmap nat binder_buffer) (fin : Z) (l : list nat) : Z :=
  match l with [] => fin | n :: _ => ud m n end.

Definition fin (s : binder_alloc) : Z := buffer s + buffer_size s.
Definition bend (s : binder_alloc) (id : nat) : Z := nxt (store s) (fin s) (buffers s) id.
Definition bsize (s : binder_alloc) (id : nat) : Z := bend s id - ud (store s) id.

Lemma nxt_here m f l1 id l2 : id ∉ l1 -> nxt m f (l1 ++ id :: l2) id = starts m f l2.
Proof.
  induction l1 as [|y l1 IH]; simpl; intros Hid; [by rewrite decide_True|].
  apply not_elem_of_cons in Hid as [? ?]. rewrite decide_False by done. by apply IH.
Qed.

Lemma nxt_l m f l1 l2 j : j ∈ l1 -> nxt m f (l1 ++ l2) j = nxt m (starts m f l2) l1 j.
Proof.
  induction l1 as [|y l1 IH]; intros Hj; [by apply not_elem_of_nil in Hj|]. simpl.
  case_decide as Hjy.
  - destruct l1 as [|z l1]; simpl; [by destruct l2|done].
  - apply IH. apply elem_of_cons in Hj. tauto.
Qed.

Lemma nxt_r m f l1 l2 j : j ∉ l1 -> nxt m f (l1 ++ l2) j = nxt m f l2 j.
Proof.
  induction l1 as [|y l1 IH]; intros Hj; [done|]. apply not_elem_of_cons in Hj as [? ?].
  simpl. rewrite decide_False by done. by apply IH.
Qed.

Lemma nxt_ext m m' f l j : (forall i, i ∈ l -> ud m' i = ud m i) -> nxt m' f l j = nxt m f l j.
Proof.
  induction l as [|y l IH]; intros E; [done|]. simpl. case_decide.
  - destruct l as [|z l]; [done|]. apply E. right. by left.
  - apply IH. intros i Hi. apply E. by right.
Qed.

Lemma starts_ext m m' f l : (forall i, i ∈ l -> ud m' i = ud m i) -> starts m' f l = starts m f l.
Proof. destruct l as [|y l]; intros E; [done|]. apply E. by left. Qed.

(** Every piece is at least a pointer long. *)
Definition long (m : gmap nat binder_buffer) (f : Z) (l : list nat) : Prop :=
  forall id, id ∈ l -> SIZEOF_PTR <= nxt m f l id - ud m id /\
    (nxt m f l id - ud m id) mod SIZEOF_PTR = 0.

Lemma long_tail m f y l : y ∉ l -> long m f (y :: l) -> long m f l.
Proof.
  intros Hy H id Hid. specialize (H id). simpl in H.
  rewrite decide_False in H by (intros ->; done). apply H. by right.
Qed.

Lemma long_head m f y l : long m f (y :: l) ->
  SIZEOF_PTR <= starts m f l - ud m y /\ (starts m f l - ud m y) mod SIZEOF_PTR = 0.
Proof.
  intros H. specialize (H y). simpl in H. rewrite decide_True in H by done.
  destruct l; apply H; by left.
Qed.

(** Pieces come in address order, inside the space, at multiples of a pointer
    from its start. *)
Lemma long_bounds m f : forall l, NoDup l -> long m f l ->
  starts m f l <= f /\ forall id, id ∈ l -> starts m f l <= ud m id /\ nxt m f l id <= f /\
    (ud m id - starts m f l) mod SIZEOF_PTR = 0.
Proof.
  induction l as [|y l IH]; intros Hnd Hl; [by split; [|intros ? ?%not_elem_of_nil]|].
  apply NoDup_cons in Hnd as [Hy Hnd]. destruct (long_head m f y l Hl) as [H1 H2].
  destruct (IH Hnd (long_tail _ _ _ _ Hy Hl)) as [H3 H4]. unfold SIZEOF_PTR in *. simpl starts.
  split; [lia|]. intros id [->|Hid]%elem_of_cons.
  - rewrite Z.sub_diag. split; [lia|]. split; [|done]. simpl. rewrite decide_True by done. destruct l; simpl in *; lia.
  - destruct (H4 id Hid) as (? & ? & H7). split; [lia|]. simpl.
    rewrite decide_False by (intros ->; done). split; [done|].
    replace (ud m id - ud m y) with ((ud m id - starts m f l) + (starts m f l - ud m y)) by lia.
    rewrite Z.add_mod, H2, H7 by lia. done.
Qed.

Lemma long_order m f l1 i l2 j : NoDup (l1 ++ i :: l2) -> long m f (l1 ++ i :: l2) -> j ∈ l2 ->
  nxt m f (l1 ++ i :: l2) i <= ud m j.
Proof.
  intros Hnd Hl Hj. induction l1 as [|y l1 IH]; simpl app in *.
  - apply NoDup_cons in Hnd as [Hi Hnd]. simpl. rewrite decide_True by done.
    pose proof (long_tail _ _ _ _ Hi Hl) as Hl'.
    destruct (long_bounds m f l2 Hnd Hl') as [_ H]. destruct (H j Hj) as (H1 & _ & _). by destruct l2.
  - apply NoDup_cons in Hnd as [Hy Hnd]. simpl. rewrite decide_False.
    + apply IH; [done|]. by eapply long_tail.
    + intros ->. apply Hy, elem_of_app. right. by left.
Qed.

Record tiling (s : binder_alloc) : Prop := Tiling {
  ti_nodup : NoDup (buffers s);
  ti_store id : id ∈ buffers s <-> is_Some (store s !! id);
  ti_base : 0 <= buffer s /\ buffer s mod PAGE_SIZE = 0;
  ti_size : 0 < buffer_size s <= SZ_4M /\ buffer_size s mod PAGE_SIZE = 0;
  ti_user : fin s < 9223372036854775808;
  ti_head : starts (store s) (fin s) (buffers s) = buffer s;
  ti_long : long (store s) (fin s) (buffers s)
}.

Lemma buf_at_eq s id b : store s !! id = Some b -> buf_at id s = Some (b, s).
Proof. intros H. unfold buf_at, bind, get. by rewrite H. Qed.

Lemma ud_eq s id b : store s !! id = Some b -> ud (store s) id = user_data b.
Proof. unfold ud. by intros ->. Qed.

Lemma fr_eq s id b : store s !! id = Some b -> fr (store s) id = free b.
Proof. unfold fr. by intros ->. Qed.

Lemma tiling_get s id : tiling s -> id ∈ buffers s -> exists b, store s !! id = Some b.
Proof. intros H Hid. by apply (ti_store _ H). Qed.

(** The piece of a buffer lies in the mapped range. *)
Lemma tiling_bounds s id : tiling s -> id ∈ buffers s ->
  buffer s <= ud (store s) id /\ bend s id <= fin s /\ 8 <= bsize s id /\
  ud (store s) id mod 8 = 0 /\ bend s id mod 8 = 0.
Proof.
  intros H Hid. destruct (long_bounds _ _ _ (ti_nodup _ H) (ti_long _ H)) as [_ Hb].
  rewrite (ti_head _ H) in Hb. destruct (Hb id Hid) as (H1 & H2 & H3).
  destruct (ti_long _ H id Hid) as [H4 H5]. fold (bend s id) in *. fold (bsize s id) in *.
  unfold SIZEOF_PTR in *.
  assert (Hb8 : buffer s mod 8 = 0).
  { destruct (ti_base _ H) as [_ Hp]. unfold PAGE_SIZE in Hp.
    apply Z.mod_divide in Hp as [k Hk]; [|lia]. rewrite Hk. apply Z.mod_divide; [lia|]. exists (k * 512). lia. }
  assert (Hu8 : ud (store s) id mod 8 = 0).
  { replace (ud (store s) id) with ((ud (store s) id - buffer s) + buffer s) by lia.
    by rewrite Z.add_mod, H3, Hb8 by lia. }
  do 3 (split; [done|]). split; [done|].
  replace (bend s id) with (bsize s id + ud (store s) id) by (unfold bsize; lia).
  by rewrite Z.add_mod, H5, Hu8 by lia.
Qed.

Lemma list_is_last_spec x l1 (l2 : list nat) :
  NoDup (l1 ++ x :: l2) -> list_is_last x (l1 ++ x :: l2) = bool_decide (l2 = []).
Proof.
  intros (_ & _ & [Hx _]%NoDup_cons)%NoDup_app. unfold list_is_last. rewrite last_app_cons.
  apply bool_decide_ext. destruct l2 as [|y l2]; [done|].
  rewrite last_cons_cons. split; [|done]. intros Hl. exfalso. apply Hx.
  by apply last_Some_elem_of.
Qed.

Lemma list_is_first_spec x l1 (l2 : list nat) :
  NoDup (l1 ++ x :: l2) -> list_is_first x (l1 ++ x :: l2) = bool_decide (l1 = []).
Proof.
  intros (_ & Hd & _)%NoDup_app. unfold list_is_first. apply bool_decide_ext.
  destruct l1 as [|y l1]; [done|]. simpl. split; [|done]. intros [= ->]. exfalso.
  apply (Hd x); by left.
Qed.

Lemma list_next_spec x l1 l2 : x ∉ l1 -> list_next x (l1 ++ x :: l2) = head l2.
Proof.
  induction l1 as [|y l1 IH]; simpl; intros Hx; [by rewrite decide_True|].
  apply not_elem_of_cons in Hx as [? ?]. rewrite decide_False by done. by apply IH.
Qed.

Lemma list_prev_spec x p l1 l2 : x ∉ l1 -> x <> p -> list_prev x (l1 ++ p :: x :: l2) = Some p.
Proof.
  induction l1 as [|y l1 IH]; intros Hx Hp; [simpl; by rewrite decide_True|].
  apply not_elem_of_cons in Hx as [? Hx]. simpl app. cbn [list_prev].
  rewrite decide_False; [by apply IH|].
  destruct l1 as [|z l1]; [intros [= ->]; done|]. intros [= ->]. apply Hx. by left.
Qed.

Lemma nodup_mid {A} (x : A) l1 l2 : NoDup (l1 ++ x :: l2) -> (x ∉ l1) /\ (x ∉ l2).
Proof.
  intros (_ & Hd & [Hx _]%NoDup_cons)%NoDup_app. split; [|done].
  intros Hin. apply (Hd x Hin). by left.
Qed.

(** [binder_alloc_buffer_size] computes the length of the piece. *)
Lemma buffer_size_eq s id : tiling s -> id ∈ buffers s ->
  binder_alloc_buffer_size id s = Some (bsize s id, s).
Proof.
  intros H Hid. destruct (tiling_get s id H Hid) as [b Hb].
  destruct (tiling_bounds s id H Hid) as (H1 & H2 & H3 & _). pose proof (ti_user _ H) as Hu.
  assert (Hsmall : u64 (bsize s id) = bsize s id).
  { apply u64_small. unfold is_u64, two64, bsize in *. pose proof (ti_base _ H). lia. }
  unfold binder_alloc_buffer_size. erewrite bind_eq by reflexivity.
  erewrite bind_eq by by apply buf_at_eq. rewrite <- (ud_eq s id b Hb).
  pose proof Hid as Hid'. apply list_elem_of_split in Hid' as (l1 & l2 & E).
  pose proof (ti_nodup _ H) as Hnd. rewrite E in Hnd. destruct (nodup_mid _ _ _ Hnd) as [Hn1 _].
  assert (Hend : bend s id = starts (store s) (fin s) l2) by (unfold bend; rewrite E; by apply nxt_here).
  rewrite E, list_is_last_spec by done. destruct l2 as [|n l2].
  - rewrite bool_decide_true by done. unfold ret. rewrite <- Hsmall. unfold bsize. rewrite Hend. done.
  - rewrite bool_decide_false by done. unfold binder_buffer_next.
    erewrite bind_eq by (unfold bind, get; rewrite E, list_next_spec by done; reflexivity).
    destruct (tiling_get s n H) as [nb Hnb]; [rewrite E; apply elem_of_app; right; right; by left|].
    erewrite bind_eq by by apply buf_at_eq. unfold ret. rewrite <- Hsmall. unfold bsize.
    rewrite Hend. simpl. by rewrite (ud_eq s n nb).
Qed.

(** ** The trees *)

Definition tree_of (t : rb_tree) (key : nat -> Z) (P : nat -> Prop) : Prop :=
  NoDup (rb_inorder t) /\ (forall id, id ∈ rb_inorder t <-> P id) /\
  StronglySorted Z.le (map key (rb_inorder t)).

Lemma tree_of_ext t key key' (P P' : nat -> Prop) :
  tree_of t key P -> (forall id, P id <-> P' id) -> (forall id, P id -> key' id = key id) ->
  tree_of t key' P'.
Proof.
  intros (Hnd & Hin & Hs) HP Hk. split; [done|]. split; [intros id; by rewrite Hin|].
  enough (map key' (rb_inorder t) = map key (rb_inorder t)) as -> by done.
  apply map_ext_in. intros a Ha. apply Hk, Hin. by apply list_elem_of_In.
Qed.

Lemma sorted_sublist (l l' : list Z) : l' `sublist_of` l -> StronglySorted Z.le l -> StronglySorted Z.le l'.
Proof.
  induction 1 as [|x l1 l2 Hsub IH|x l1 l2 Hsub IH]; intros Hs; [done| |].
  - apply StronglySorted_cons in Hs as [Hx Hs]. constructor; [by apply IH|].
    rewrite Forall_forall in *. intros y Hy. apply Hx. by eapply elem_of_sublist.
  - apply IH. by apply StronglySorted_cons in Hs as [_ ?].
Qed.

Section trees.
Context `{RB : Rbtree} {RBL : RbtreeLaws}.

Lemma tree_erase t key (P : nat -> Prop) x : tree_of t key P -> P x ->
  tree_of (rb_erase x t) key (fun id => P id /\ id <> x).
Proof.
  intros (Hnd & Hin & Hs) Hx. unfold tree_of. rewrite rb_erase_inorder by (done || by apply Hin).
  split; [by apply list_del_NoDup|]. split.
  - intros id. rewrite elem_of_list_del, Hin. tauto.
  - eapply sorted_sublist; [|exact Hs]. apply (fmap_sublist key), sublist_filter.
Qed.

Lemma sorted_insert (key : nat -> Z) x l1 l2 :
  StronglySorted Z.le (map key (l1 ++ l2)) -> (forall y, y ∈ l1 -> key y <= key x) ->
  (forall y, y ∈ l2 -> key x < key y) -> StronglySorted Z.le (map key (l1 ++ x :: l2)).
Proof.
  rewrite !map_app. intros (H12 & H1 & H2)%StronglySorted_app Hl Hr.
  apply StronglySorted_app. split; [|split; [done|]].
  - intros a b Ha [->|Hb]%elem_of_cons; [|by apply H12].
    apply list_elem_of_fmap in Ha as (y & -> & Hy). by apply Hl.
  - simpl. constructor; [done|]. rewrite Forall_forall. intros b Hb.
    apply list_elem_of_fmap in Hb as (y & -> & Hy). specialize (Hr y Hy). simpl in *. lia.
Qed.

Lemma tree_insert t t' key (P : nat -> Prop) x l1 l2 :
  tree_of t key P -> ~ P x -> rb_inorder t = l1 ++ l2 -> rb_inorder t' = l1 ++ x :: l2 ->
  (forall y, y ∈ l1 -> key y <= key x) -> (forall y, y ∈ l2 -> key x < key y) ->
  tree_of (rb_insert_color x t') key (fun id => id = x \/ P id).
Proof.
  intros (Hnd & Hin & Hs) Hx E E' Hl Hr. unfold tree_of. rewrite rb_insert_color_inorder, E'.
  rewrite E in *. split; [|split].
  - rewrite <- Permutation_middle. apply NoDup_cons. split; [|done].
    intros Hxin. by apply Hx, Hin.
  - intros id. rewrite <- (Hin id), !elem_of_app, elem_of_cons. tauto.
  - by apply sorted_insert.
Qed.

(** Inserting into the free tree keeps it sorted by size. *)
Lemma insert_free_ok s n b (P : nat -> Prop) :
  tiling s -> n ∈ buffers s -> store s !! n = Some b -> free b = true ->
  tree_of (free_buffers s) (bsize s) P -> ~ P n ->
  (forall id, P id -> id ∈ buffers s /\ fr (store s) id = true) ->
  exists t, binder_insert_free_buffer n s = Some (tt, set_free t s) /\
    tree_of t (bsize s) (fun id => id = n \/ P id).
Proof.
  intros Ht Hn Hb Hf Htr HPn HP. unfold binder_insert_free_buffer.
  erewrite bind_eq by by apply buf_at_eq. rewrite Hf. simpl bug_on.
  erewrite bind_eq by reflexivity. erewrite bind_eq by by apply buffer_size_eq.
  erewrite bind_eq by reflexivity. pose proof Htr as (Hnd & Hin & Hs).
  destruct (rb_descend_sorted (fun id => let! b := buf_at id in bug_on (negb (free b)) ;!
      let! size := binder_alloc_buffer_size id in ret (bsize s n <? size))
      (bsize s) n (bsize s n) s (free_buffers s) Hs) as (t' & l1 & l2 & E & E1 & E2 & H1 & H2).
  { intros y Hy. apply Hin in Hy as [Hy1 Hy2]%HP. destruct (tiling_get s y Ht Hy1) as [yb Hyb].
    erewrite bind_eq by by apply buf_at_eq. rewrite (fr_eq s y yb Hyb) in Hy2. rewrite Hy2.
    erewrite bind_eq by reflexivity. by erewrite bind_eq by by apply buffer_size_eq. }
  erewrite bind_eq by exact E. eexists. split; [reflexivity|]. by eapply tree_insert.
Qed.

(** Inserting into the allocated tree keeps it sorted by address. *)
Lemma insert_allocated_ok s n b (P : nat -> Prop) :
  store s !! n = Some b -> free b = false ->
  tree_of (allocated_buffers s) (ud (store s)) P -> ~ P n ->
  (forall id, P id -> is_Some (store s !! id) /\ fr (store s) id = false /\ ud (store s) id <> user_data b) ->
  exists t, binder_insert_allocated_buffer_locked n s = Some (tt, set_allocated t s) /\
    tree_of t (ud (store s)) (fun id => id = n \/ P id).
Proof.
  intros Hb Hf Htr HPn HP. unfold binder_insert_allocated_buffer_locked.
  erewrite bind_eq by by apply buf_at_eq. rewrite Hf. simpl bug_on.
  erewrite bind_eq by reflexivity. erewrite bind_eq by reflexivity.
  pose proof Htr as (Hnd & Hin & Hs).
  destruct (rb_descend_sorted (fun id => let! b' := buf_at id in bug_on (free b') ;!
      if user_data b <? user_data b' then ret true
      else if user_data b' <? user_data b then ret false else oops)
      (ud (store s)) n (user_data b) s (allocated_buffers s) Hs) as (t' & l1 & l2 & E & E1 & E2 & H1 & H2).
  { intros y Hy. apply Hin in Hy as ([yb Hyb] & Hy2 & Hy3)%HP.
    erewrite bind_eq by by apply buf_at_eq. rewrite (fr_eq s y yb Hyb) in Hy2. rewrite Hy2.
    erewrite bind_eq by reflexivity. rewrite (ud_eq s y yb Hyb) in *.
    destruct (user_data b <? user_data yb) eqn:E1; [done|].
    zbool. by rewrite (proj2 (Z.ltb_lt _ _)) by lia. }
  erewrite bind_eq by exact E. eexists. split; [reflexivity|].
  rewrite <- (ud_eq s n b Hb) in *. by eapply tree_insert.
Qed.
End trees.

(** ** The page array *)

(** Present pages keep their contents; missing ones may have been filled with
    zeros. *)
Definition grow (ps ps' : list binder_lru_page) : Prop :=
  length ps' = length ps /\
  forall i p, ps !! i = Some p -> exists p', ps' !! i = Some p' /\
    (page_ptr p' = page_ptr p \/ page_ptr p = None /\ page_ptr p' = Some zero_page).

Definition present (ps : list binder_lru_page) (i : nat) : Prop :=
  exists p, ps !! i = Some p /\ page_ptr p <> None.

Lemma grow_refl ps : grow ps ps.
Proof. split; [done|]. intros i p Hp. exists p. auto. Qed.

Lemma grow_trans ps1 ps2 ps3 : grow ps1 ps2 -> grow ps2 ps3 -> grow ps1 ps3.
Proof.
  intros [L1 H1] [L2 H2]. split; [congruence|]. intros i p Hp.
  destruct (H1 i p Hp) as (q & Hq & Hpq). destruct (H2 i q Hq) as (r & Hr & Hqr).
  exists r. split; [done|]. destruct Hpq as [E|[E E']], Hqr as [F|[F F']]; rewrite ?E in *;
    first [left; congruence | right; split; congruence | congruence].
Qed.

Lemma grow_present ps ps' i : grow ps ps' -> present ps i -> present ps' i.
Proof.
  intros [_ H] (p & Hp & Hn). destruct (H i p Hp) as (p' & Hp' & [E|[E _]]); [|done].
  exists p'. split; [done|]. congruence.
Qed.

Lemma grow_set ps i p q : ps !! i = Some p -> page_ptr p = None ->
  (page_ptr q = None \/ page_ptr q = Some zero_page) -> grow ps (<[i := q]> ps).
Proof.
  intros Hp Hn Hq. split; [by rewrite length_insert|]. intros j r Hr.
  destruct (decide (j = i)) as [->|].
  - rewrite list_lookup_insert_eq by by eapply lookup_lt_Some. simplify_eq.
    exists q. split; [done|]. rewrite Hn. destruct Hq; [by left|by right].
  - rewrite list_lookup_insert_ne by done. exists r. auto.
Qed.

Definition page_addr (s : binder_alloc) (k : nat) : Z := buffer s + Z.of_nat k * PAGE_SIZE.

Section pages.
Context (E : page_env).

Lemma page_index_eq s k : 0 <= buffer s -> Z.of_nat k <= 1048576 ->
  page_index (page_addr s k) s = Some (k, s).
Proof.
  intros Hb Hk. unfold page_index, gets, page_addr, PAGE_SIZE.
  rewrite u64_small by (unfold is_u64, two64; lia).
  replace (buffer s + Z.of_nat k * 4096 - buffer s) with (Z.of_nat k * 4096) by lia.
  by rewrite Z.div_mul, Nat2Z.id by lia.
Qed.

Lemma page_addr_next s k : 0 <= buffer s < two64 - 4294967296 - 4096 -> Z.of_nat k <= 1048576 ->
  u64 (page_addr s k + PAGE_SIZE) = page_addr s (S k).
Proof.
  intros Hb Hk. rewrite u64_small; unfold page_addr, PAGE_SIZE, is_u64 in *; lia.
Qed.

Lemma page_at_eq s ps i p : pages s = Some ps -> ps !! i = Some p -> page_at i s = Some (p, s).
Proof. intros Hps Hp. unfold page_at, bind, get. rewrite Hps. simpl. by rewrite Hp. Qed.

Lemma update_page_eq s ps i p q : pages s = Some ps -> ps !! i = Some p ->
  update_page i q s = Some (tt, set_pages (Some (<[i := q]> ps)) (pages_high s) s).
Proof.
  intros Hps Hp. unfold update_page. erewrite bind_eq by by eapply page_at_eq.
  unfold modify. by rewrite Hps.
Qed.

Lemma set_pages_self s ps : pages s = Some ps -> s = set_pages (Some ps) (pages_high s) s.
Proof. destruct s. simpl. by intros ->. Qed.

(** The state has the given page array and room for the arithmetic. *)
Definition paged (s : binder_alloc) (ps : list binder_lru_page) : Prop :=
  pages s = Some ps /\ 0 <= buffer s < two64 - 4294967296 - 4096 /\ Z.of_nat (length ps) <= 1048576.

Lemma paged_set s ps ps' h : paged s ps -> length ps' = length ps -> paged (set_pages (Some ps') h s) ps'.
Proof. intros (H1 & H2 & H3) HL. split; [done|]. split; [done|]. by rewrite HL. Qed.

Lemma addr_ltb s i j : (page_addr s i <? page_addr s j) = bool_decide (i < j)%nat.
Proof.
  unfold page_addr, PAGE_SIZE. case_bool_decide; [apply Z.ltb_lt|apply Z.ltb_ge]; lia.
Qed.

Lemma need_mm_spec s ps j : paged s ps -> (j <= length ps)%nat -> forall fuel i,
  (i <= j)%nat -> (j - i < fuel)%nat ->
  exists b, need_mm_loop fuel (page_addr s i) (page_addr s j) s = Some (b, s) /\
    (b = false -> forall k, (i <= k < j)%nat -> present ps k).
Proof.
  intros (Hps & Hb & Hlen) Hj. induction fuel as [|fuel IH]; intros i Hi Hf; [lia|].
  simpl. rewrite addr_ltb. case_bool_decide as Hij; [|exists false; split; [done|lia]].
  erewrite bind_eq by (apply page_index_eq; lia).
  destruct (lookup_lt_is_Some_2 ps i) as [p Hp]; [lia|].
  erewrite bind_eq by (eapply page_at_eq; [exact Hps|exact Hp]). destruct (page_ptr p) eqn:Hpp; [|by exists true].
  rewrite page_addr_next by lia. destruct (IH (S i)) as (b & Eb & Hpr); [lia..|].
  exists b. split; [done|]. intros Hbf k Hk. destruct (decide (k = i)) as [->|].
  - exists p. split; [done|congruence].
  - apply Hpr; [done|lia].
Qed.

(** What the second loop leaves, from page [i] to page [j]. *)
Definition map_post (s : binder_alloc) (i j : nat) (ps ps' : list binder_lru_page) (r : map_result)
  : Prop :=
  match r with
  | Mapped => forall k, (i <= k < j)%nat -> present ps' k
  | err_page_ptr_cleared _ => False
  | err_alloc_page_failed a => exists k, (i <= k < j)%nat /\ a = page_addr s k
  | err_vm_insert_page_failed a => exists k p q, (i <= k < j)%nat /\ a = page_addr s k /\
      ps !! k = Some p /\ page_ptr p = None /\ ps' !! k = Some q
  end.

Lemma map_post_step s i j p ps ps1 ps' r : (i < j)%nat -> ps !! i = Some p ->
  grow ps ps1 -> present ps1 i -> grow ps1 ps' -> map_post s (S i) j ps1 ps' r ->
  (forall k, (i < k)%nat -> ps1 !! k = ps !! k) -> map_post s i j ps ps' r.
Proof.
  intros Hij Hp Hg Hpr Hg' H Hsame. destruct r as [|a|a|a]; simpl in *; [|done| |].
  - intros k Hk. destruct (decide (k = i)) as [->|]; [by eapply grow_present|]. apply H. lia.
  - destruct H as (k & Hk & ->). exists k. split; [lia|done].
  - destruct H as (k & q & q' & Hk & -> & Hq & Hq1 & Hq2). exists k, q, q'.
    rewrite Hsame in Hq by lia. split; [lia|]. done.
Qed.

(** Every allocation and insertion succeeds. *)
Definition cooperative : Prop :=
  (forall i, alloc_page E i = true) /\ (forall a, vm_insert_page E a = 0).

Lemma map_pages_spec v j : forall fuel s ps i, paged s ps -> (j <= length ps)%nat ->
  (i <= j)%nat -> (j - i < fuel)%nat ->
  (v = None -> forall k, (i <= k < j)%nat -> present ps k) ->
  exists r ps' h, map_pages_loop E fuel v (page_addr s i) (page_addr s j) s =
    Some (r, set_pages (Some ps') h s) /\ grow ps ps' /\ map_post s i j ps ps' r /\
    (cooperative -> r = Mapped).
Proof.
  induction fuel as [|fuel IH]; intros s ps i Hpg Hj Hi Hf Hv; [lia|].
  pose proof Hpg as (Hps & Hb & Hlen). simpl. rewrite addr_ltb. case_bool_decide as Hij.
  2:{ exists Mapped, ps, (pages_high s). split; [by destruct s; simpl in *; subst|].
      split; [apply grow_refl|]. split; [|done]. intros k Hk. lia. }
  erewrite bind_eq by (apply page_index_eq; lia).
  destruct (lookup_lt_is_Some_2 ps i) as [p Hp]; [lia|].
  erewrite bind_eq by (eapply page_at_eq; [exact Hps|exact Hp]). rewrite page_addr_next by lia.
  destruct (page_ptr p) as [bytes|] eqn:Hpp.
  { erewrite bind_eq by reflexivity. erewrite bind_eq by reflexivity.
    destruct (IH s ps (S i) Hpg) as (r & ps' & h & E1 & Hg & Hpost & Hco); [lia..| |].
    { intros Hvn k Hk. apply Hv; [done|lia]. }
    exists r, ps', h. split; [done|]. split; [done|]. split; [|done].
    eapply (map_post_step s i j p ps ps); try done; [apply grow_refl|].
    exists p. split; [done|congruence]. }
  destruct v as [v|]; [|by destruct (Hv eq_refl i) as (q & Hq & Hqn); [lia|congruence]].
  case_if.
  { erewrite bind_eq by (eapply update_page_eq; [exact Hps|exact Hp]). eexists _, _, _. split; [reflexivity|].
    split; [by eapply grow_set; [done..|left]|]. split; [exists i; split; [lia|done]|].
    intros [Ha _]. by rewrite Ha in *. }
  erewrite bind_eq by (eapply update_page_eq; [exact Hps|exact Hp]).
  set (ps1 := <[i := LruPage (Some zero_page) true]> ps).
  assert (Hg1 : grow ps ps1) by (eapply grow_set; [done..|by right]).
  assert (Hi1 : ps1 !! i = Some (LruPage (Some zero_page) true))
    by (apply list_lookup_insert_eq; lia).
  case_if.
  { eexists _, _, _. split; [reflexivity|]. split; [done|].
    split; [exists i, p; eexists; split; [lia|]; done|]. intros [_ Hv0]. by rewrite Hv0 in *. }
  erewrite bind_eq by reflexivity.
  set (s1 := set_pages (Some ps1) (Z.max (pages_high s) (Z.of_nat i + 1)) s).
  destruct (IH s1 ps1 (S i)) as (r & ps' & h & E1 & Hg & Hpost & Hco);
    [by apply (paged_set s ps), Hg1|by rewrite (proj1 Hg1)|lia|lia|done|].
  exists r, ps', h. split; [exact E1|]. split; [by eapply grow_trans|]. split; [|done].
  eapply (map_post_step s i j p ps ps1); try done.
  - by eexists.
  - intros k Hk. apply list_lookup_insert_ne. lia.
Qed.

(** Freeing pages does nothing here: the list_lru macros are constants. *)
Lemma free_range_noop s i : 0 <= buffer s < two64 - 4294967296 - 4096 -> forall k fuel,
  (i <= k)%nat -> Z.of_nat k <= 1048576 -> (k - i < fuel)%nat ->
  free_range_loop fuel (page_addr s i) (page_addr s k) s = Some (tt, s).
Proof.
  intros Hb. induction k as [|k IH]; intros fuel Hi Hk Hf; (destruct fuel as [|fuel]; [lia|]); simpl;
    erewrite bind_eq by (apply page_index_eq; lia);
    do 2 (erewrite bind_eq by reflexivity); case_if; zbool; try done.
  - unfold page_addr, PAGE_SIZE in *. lia.
  - replace (u64 (page_addr s (S k) - PAGE_SIZE)) with (page_addr s k).
    + assert (i <> S k) by congruence. apply IH; lia.
    + unfold page_addr, PAGE_SIZE in *. rewrite u64_small; [lia|]. unfold is_u64, two64 in *. lia.
Qed.

Lemma page_addr_prev s k : 0 <= buffer s < two64 - 4294967296 - 4096 -> Z.of_nat k <= 1048576 ->
  u64 (page_addr s (S k) - PAGE_SIZE) = page_addr s k.
Proof.
  intros. unfold page_addr, PAGE_SIZE. rewrite u64_small; [lia|]. unfold is_u64, two64 in *. lia.
Qed.

Lemma unwind_rest s i k fuel : 0 <= buffer s < two64 - 4294967296 - 4096 -> (i <= k)%nat ->
  Z.of_nat k <= 1048576 -> (k - i < fuel)%nat ->
  (if page_addr s k =? page_addr s i then ret tt
   else free_range_loop fuel (page_addr s i) (u64 (page_addr s k - PAGE_SIZE))) s = Some (tt, s).
Proof.
  intros Hb Hi Hk Hf. case_if; zbool; [done|]. destruct k as [|k].
  - replace i with O in * by lia. done.
  - rewrite page_addr_prev by lia. assert (i <> S k) by congruence. apply free_range_noop; lia.
Qed.

Lemma unwind_ok s ps0 ps i j r fuel : paged s ps -> (j <= length ps)%nat -> (j - i < fuel)%nat ->
  grow ps0 ps -> map_post s i j ps0 ps r -> exists ps',
  unwind fuel (page_addr s i) r s = Some (tt, set_pages (Some ps') (pages_high s) s) /\ grow ps0 ps'.
Proof.
  intros (Hps & Hb & Hlen) Hj Hf Hg H.
  pose proof (set_pages_self s ps Hps) as Hself.
  destruct r as [|a|a|a]; simpl in H; [|done| |].
  - exists ps. split; [|done]. simpl. unfold ret. by rewrite <- Hself.
  - destruct H as (k & Hk & ->). exists ps. split; [|done]. rewrite <- Hself.
    apply unwind_rest; [done|lia..].
  - destruct H as (k & p & q & Hk & -> & Hp & Hpn & Hq). simpl.
    erewrite bind_eq by (apply page_index_eq; lia).
    erewrite bind_eq by (eapply page_at_eq; [exact Hps|exact Hq]).
    erewrite bind_eq by (eapply update_page_eq; [exact Hps|exact Hq]).
    exists (<[k := LruPage None (lru_empty q)]> ps). split.
    + by apply (unwind_rest (set_pages _ _ s)); [|lia..].
    + destruct Hg as [HL Hg]. split; [by rewrite length_insert|]. intros l x Hx.
      destruct (decide (l = k)) as [->|].
      * rewrite list_lookup_insert_eq by lia. simplify_eq. eexists. split; [done|]. left. by rewrite Hpn.
      * rewrite list_lookup_insert_ne by done. by apply Hg.
Qed.

(** The range is given by the page numbers [i] to [j]. *)
Lemma range_fuel_ok s i j : (j - i < range_fuel (page_addr s i) (page_addr s j))%nat.
Proof.
  unfold range_fuel, page_addr, PAGE_SIZE.
  replace (buffer s + Z.of_nat j * 4096 - (buffer s + Z.of_nat i * 4096))
    with ((Z.of_nat j - Z.of_nat i) * 4096) by lia.
  rewrite Z.div_mul by lia. lia.
Qed.

Lemma set_mm_back s ps h : set_mm (mm_users s + 1 - 1) (mm_count s)
    (set_pages ps h (set_mm (mm_users s + 1) (mm_count s) s)) = set_pages ps h s.
Proof. unfold set_mm, set_pages. simpl. f_equal. lia. Qed.

Lemma update_free_ok s ps i j : paged s ps -> (j <= length ps)%nat ->
  exists r, binder_update_page_range E false (page_addr s i) (page_addr s j) s = Some (r, s).
Proof.
  intros (Hps & Hb & Hlen) Hj. unfold binder_update_page_range.
  destruct (Z.leb_spec (page_addr s j) (page_addr s i)) as [|Hij]; [by eexists|]. cbn [negb]. cbv iota zeta.
  assert ((i < j)%nat) by (unfold page_addr, PAGE_SIZE in *; lia).
  destruct j as [|j]; [lia|]. rewrite page_addr_prev by lia.
  pose proof (range_fuel_ok s i (S j)).
  erewrite bind_eq by (apply free_range_noop; [done|lia..]). by eexists.
Qed.

(** On success every page of the range is there; in every case the pages
    that were there keep their contents and nothing else changes. *)
Lemma update_alloc_ok s ps i j : paged s ps -> (j <= length ps)%nat ->
  exists r ps' h, binder_update_page_range E true (page_addr s i) (page_addr s j) s =
      Some (r, set_pages (Some ps') h s) /\ grow ps ps' /\
    (r = 0 -> forall k, (i <= k < j)%nat -> present ps' k) /\
    (r = 0 \/ r = - ESRCH \/ r = - ENOMEM) /\
    (cooperative -> mmget_not_zero E = true -> vma s <> None -> vma_vm_mm s <> None -> r = 0).
Proof.
  intros Hpg Hj. pose proof Hpg as (Hps & Hb & Hlen).
  pose proof (set_pages_self s ps Hps) as Hself.
  unfold binder_update_page_range.
  destruct (Z.leb_spec (page_addr s j) (page_addr s i)) as [Hle|Hij].
  { exists 0, ps, (pages_high s). rewrite <- Hself. split; [done|]. split; [apply grow_refl|].
    split; [|auto]. intros _ k Hk. unfold page_addr, PAGE_SIZE in *. lia. }
  cbn [negb]. cbv iota. pose proof (range_fuel_ok s i j) as Hfuel.
  assert ((i < j)%nat) by (unfold page_addr, PAGE_SIZE in *; lia).
  set (fuel := range_fuel (page_addr s i) (page_addr s j)) in *. cbv zeta.
  destruct (need_mm_spec s ps j Hpg Hj fuel i) as (need & En & Hneed); [lia..|].
  erewrite bind_eq by exact En. erewrite bind_eq by reflexivity.
  set (mm := if need && mmget_not_zero E then vma_vm_mm s else None).
  set (taken := bool_decide (mm <> None)).
  set (s1 := if taken then set_mm (mm_users s + 1) (mm_count s) s else s).
  erewrite (bind_eq _ _ s tt s1) by (unfold s1; by destruct taken).
  erewrite bind_eq by reflexivity.
  assert (Ev : vma s1 = vma s) by (unfold s1; by destruct taken). rewrite Ev.
  set (v := if taken then vma s else None).
  assert (Hput : forall (r : Z) ps' h, (mmput taken ;! ret r) (set_pages (Some ps') h s1) =
    Some (r, set_pages (Some ps') h s)).
  { intros r ps' h. unfold s1. destruct taken; [|done]. unfold mmput, bind, modify, ret. simpl.
    f_equal. f_equal. apply set_mm_back. }
  assert (Hps1 : pages s1 = Some ps) by (unfold s1; by destruct taken).
  pose proof (set_pages_self s1 ps Hps1) as Hs1.
  destruct (bool_decide (v = None) && need) eqn:Hno.
  { exists (- ESRCH), ps, (pages_high s1). rewrite Hs1 at 1. rewrite Hput.
    split; [done|]. split; [apply grow_refl|]. split; [done|]. split; [by right; left|].
    intros _ Hmm Hvma Hvmm. exfalso. apply andb_prop in Hno as [Hv%bool_decide_eq_true Hn].
    unfold v, taken, mm in Hv. rewrite Hn, Hmm in Hv. simpl in Hv. by rewrite bool_decide_true in Hv. }
  assert (Hpg1 : paged s1 ps) by (unfold s1; destruct taken; done).
  assert (Ha : forall k, page_addr s k = page_addr s1 k) by (intros; unfold s1; by destruct taken).
  rewrite !Ha.
  destruct (map_pages_spec v j fuel s1 ps i Hpg1 Hj) as (r & ps' & h & Em & Hg & Hpost & Hco); [lia..| |].
  { intros Hv. rewrite bool_decide_true in Hno by done. simpl in Hno. by apply Hneed. }
  erewrite bind_eq by exact Em.
  destruct (unwind_ok (set_pages (Some ps') h s1) ps ps' i j r fuel
    (paged_set s1 ps ps' h Hpg1 (proj1 Hg)) ltac:(rewrite (proj1 Hg); lia) Hfuel Hg Hpost)
    as (ps2 & Eu & Hg2).
  change (page_addr (set_pages (Some ps') h s1) i) with (page_addr s1 i) in Eu.
  destruct r as [|a|a|a]; [|by destruct Hpost| |].
  { exists 0, ps', h. split; [apply Hput|]. split; [done|]. split; [done|auto]. }
  all: erewrite bind_eq by exact Eu;
    eexists _, ps2, h; split; [apply Hput|]; split; [done|];
    (split; [by destruct (bool_decide (v = None))|]);
    (split; [destruct (bool_decide (v = None)); auto|]);
    intros H1; by specialize (Hco H1).
Qed.
End pages.
