(* ===== verification/BinderAllocInv.v ===== *)
(** * The binder buffer allocator: allocation and freeing keep the invariant

    [wf] is the allocator's invariant; [abs] its abstraction, the sequence of
    used and free pieces of the mapped range.  [new_buf_ok] and [free_buf_ok]
    say what the two operations do to both. *)

From Stdlib Require Import ZArith Lia.
From stdpp Require Import base option gmap sets sorting list.
From S2P Require Import Prelude RbTree BinderAlloc BinderAllocFacts.

(** Every page that an allocated buffer touches is there. *)
Definition covered (s : binder_alloc) (ps : list binder_lru_page) : Prop :=
  forall id k, id ∈ buffers s -> fr (store s) id = false ->
  ud (store s) id < page_addr s (S k) -> page_addr s k < bend s id -> present ps k.

Definition full_pages (ps : list binder_lru_page) : Prop :=
  forall k p bytes, ps !! k = Some p -> page_ptr p = Some bytes -> length bytes = Z.to_nat PAGE_SIZE.

Definition page_array (s : binder_alloc) (ps : list binder_lru_page) : Prop :=
  pages s = Some ps /\ Z.of_nat (length ps) = buffer_size s / PAGE_SIZE /\
  full_pages ps /\ covered s ps.

(** No two free buffers are neighbours. *)
Fixpoint coalesced (f : nat -> bool) (l : list nat) : Prop :=
  match l with
  | [] => True
  | x :: l' => match l' with [] => True | y :: _ => f x && f y = false end /\ coalesced f l'
  end.

Lemma coalesced_cut f x l1 l2 : f x = false ->
  coalesced f (l1 ++ x :: l2) <-> coalesced f l1 /\ coalesced f l2.
Proof.
  intros Hx. induction l1 as [|y l1 IH]; simpl.
  - destruct l2 as [|z l2]; [tauto|]. rewrite Hx. simpl. tauto.
  - destruct l1 as [|z l1]; simpl in *; [|tauto]. rewrite IH, Hx, andb_false_r. tauto.
Qed.

Lemma coalesced_mid f i j l1 l2 : coalesced f (l1 ++ i :: j :: l2) -> f i && f j = false.
Proof. induction l1 as [|y l1 IH]; simpl; [tauto|]. intros [_ H]. auto. Qed.

Lemma coalesced_ext f g l : (forall i, i ∈ l -> g i = f i) -> coalesced f l -> coalesced g l.
Proof.
  induction l as [|x l IH]; intros E; [done|]. intros [H1 H2]. split.
  - destruct l as [|y l]; [done|]. rewrite !E; [done|right; by left|by left].
  - apply IH; [|done]. intros i Hi. apply E. by right.
Qed.

Lemma coalesced_app_r f l1 l2 : coalesced f (l1 ++ l2) -> coalesced f l2.
Proof. induction l1 as [|x l1 IH]; [done|]. intros [_ H]. auto. Qed.

Lemma coalesced_app_l f l1 l2 : coalesced f (l1 ++ l2) -> coalesced f l1.
Proof.
  induction l1 as [|x l1 IH]; [done|]. intros [H1 H2]. split; [|auto]. by destruct l1.
Qed.

Record wf (s : binder_alloc) : Prop := Wf {
  wf_tiling : tiling s;
  wf_free : tree_of (free_buffers s) (bsize s) (fun id => id ∈ buffers s /\ fr (store s) id = true);
  wf_allocated : tree_of (allocated_buffers s) (ud (store s))
                   (fun id => id ∈ buffers s /\ fr (store s) id = false);
  wf_coalesced : coalesced (fr (store s)) (buffers s);
  wf_pages : exists ps, page_array s ps;
  wf_sizes id b : store s !! id = Some b -> free b = false ->
    exists size, request_size (data_size b) (offsets_size b) (extra_buffers_size b) = Some size /\
      bsize s id = Z.max size SIZEOF_PTR;
  wf_idle id b : store s !! id = Some b -> free b = true -> transaction b = None
}.

(** The used and free pieces, in address order: (start, end, free). *)
Definition piece (s : binder_alloc) (id : nat) : Z * Z * bool :=
  (ud (store s) id, bend s id, fr (store s) id).
Definition abs (s : binder_alloc) : list (Z * Z * bool) := map (piece s) (buffers s).

(** ** Request sizes *)

Definition up8 (x : Z) : Z := (x + 7) - (x + 7) mod 8.

Lemma up8_spec x : up8 x mod 8 = 0 /\ x <= up8 x < x + 8.
Proof.
  unfold up8. pose proof (Z.mod_pos_bound (x + 7) 8). split; [|lia].
  rewrite Zminus_mod_idemp_r, Z.sub_diag. done.
Qed.

Lemma u64_wrap x : 0 <= x < 2 * two64 -> u64 x = if x <? two64 then x else x - two64.
Proof.
  intros Hx. unfold u64. case_if; zbool; [apply Z.mod_small; lia|].
  symmetry. apply (Z.mod_unique _ _ 1); lia.
Qed.

Lemma up8_u64 x : is_u64 x -> 0 <= up8 x <= two64 - 8 \/ up8 x = two64.
Proof.
  intros Hx. destruct (up8_spec x) as [D1 D2]. apply Z.mod_divide in D1 as [k Hk]; [|done].
  unfold is_u64, two64 in *. lia.
Qed.

Lemma ALIGN_ptr x : is_u64 x -> ALIGN x SIZEOF_PTR = u64 (up8 x).
Proof.
  intros Hx. unfold SIZEOF_PTR. rewrite ALIGN8. unfold up8. set (y := x + 7).
  assert (Hy : 0 <= y < 2 * two64) by (unfold y, is_u64, two64 in *; lia).
  pose proof (Z.mod_pos_bound y 8 ltac:(lia)). rewrite (u64_wrap y Hy).
  destruct (Z.ltb_spec y two64).
  - rewrite u64_small; [done|]. unfold is_u64. assert (y mod 8 <= y) by (apply Z.mod_le; lia). lia.
  - assert (E8 : (y - two64) mod 8 = y mod 8).
    { unfold two64. replace (y - 18446744073709551616) with (y + (-2305843009213693952) * 8) by lia.
      by rewrite Z.mod_add by lia. }
    assert (y - two64 < 8) by (unfold y, is_u64, two64 in *; lia).
    rewrite Z.mod_small by lia. rewrite <- E8, Z.mod_small by lia.
    replace (y - (y - two64)) with two64 by lia. rewrite Z.sub_diag. done.
Qed.

(** A sum of rounded sizes wraps exactly when it ends below a summand. *)
Lemma wrap_check x X y Y :
  0 <= X <= two64 - 8 \/ X = two64 -> 0 <= Y <= two64 - 8 \/ Y = two64 ->
  x <= X < x + 8 -> y <= Y < y + 8 ->
  (u64 (X + Y) <? x) || (u64 (X + Y) <? y) = negb (X + Y <? two64).
Proof.
  intros HX HY Hx Hy. assert (8 < two64) by done.
  destruct (Z.ltb_spec (X + Y) two64) as [Hlt|Hge]; cbn [negb].
  - rewrite u64_small by (unfold is_u64; lia).
    rewrite (proj2 (Z.ltb_ge _ x)), (proj2 (Z.ltb_ge _ y)) by lia. done.
  - destruct (decide (X + Y = 2 * two64)) as [E|].
    + rewrite E. change (u64 (2 * two64)) with 0. by rewrite (proj2 (Z.ltb_lt _ x)) by lia.
    + rewrite u64_wrap by lia. rewrite (proj2 (Z.ltb_ge (X + Y) _)) by lia.
      destruct (Z.ltb_spec (X + Y - two64) x); [done|].
      by rewrite (proj2 (Z.ltb_lt _ y)) by lia.
Qed.

(** The overflow checks accept exactly the requests whose rounded sum fits. *)
Lemma request_size_ok d o e : is_u64 d -> is_u64 o -> is_u64 e ->
  request_size d o e =
    if up8 d + up8 o + up8 e <? two64 then Some (up8 d + up8 o + up8 e) else None.
Proof.
  intros Hd Ho He. unfold request_size. rewrite !ALIGN_ptr by done.
  destruct (up8_spec d) as [D1 D2], (up8_spec o) as [O1 O2], (up8_spec e) as [E1 E2].
  pose proof (up8_u64 d Hd). pose proof (up8_u64 o Ho). pose proof (up8_u64 e He).
  assert (8 < two64) by done. unfold is_u64 in *.
  rewrite u64_add_l, u64_add_r, (wrap_check d (up8 d) o (up8 o)) by lia.
  destruct (Z.ltb_spec (up8 d + up8 o) two64) as [Hdo|Hdo]; cbn [negb].
  2:{ by rewrite (proj2 (Z.ltb_ge _ _)) by lia. }
  assert (Hdo8 : (up8 d + up8 o) mod 8 = 0) by by rewrite Z.add_mod, D1, O1 by done.
  assert (up8 d + up8 o <= two64 - 8).
  { apply Z.mod_divide in Hdo8 as [k Hk]; [|done]. unfold two64 in *. lia. }
  rewrite (u64_small (up8 d + up8 o)) by (unfold is_u64; lia). rewrite u64_add_r.
  rewrite (wrap_check (up8 d + up8 o) (up8 d + up8 o) e (up8 e)) by lia.
  destruct (Z.ltb_spec (up8 d + up8 o + up8 e) two64); cbn [negb]; [|done].
  by rewrite u64_small by (unfold is_u64; lia).
Qed.

(** ** The best-fit search *)

(** The outcome of the search in a tree with in-order sequence [io]. *)
Definition fit_post (key : nat -> Z) (size : Z) (io : list nat) (best : option nat)
    (r : option nat * bool) : Prop :=
  match r with
  | (Some id, exact) =>
      (exists l1 l2, io = l1 ++ id :: l2 /\ exact = (key id =? size) /\ size <= key id /\
         (exact = false -> forall y, y ∈ l1 -> key y < size) /\
         forall y, y ∈ io -> size <= key y -> key id <= key y)
      \/ exact = false /\ best = Some id /\ forall y, y ∈ io -> key y < size
  | (None, exact) => exact = false /\ best = None /\ forall y, y ∈ io -> key y < size
  end.

Lemma best_fit_spec s size : tiling s -> forall t best,
  StronglySorted Z.le (map (bsize s) (rb_inorder t)) ->
  (forall id, id ∈ rb_inorder t -> id ∈ buffers s /\ fr (store s) id = true) ->
  exists r, best_fit_loop size t best s = Some (r, s) /\
    fit_post (bsize s) size (rb_inorder t) best r.
Proof.
  intros Ht. induction t as [|c l IHl id r IHr]; intros best Hs Hin.
  { exists (best, false). split; [done|]. destruct best; simpl;
      [right|]; (split; [done|]); (split; [done|]); by intros y ?%not_elem_of_nil. }
  simpl in *. rewrite map_app in Hs. apply StronglySorted_app in Hs as (Hlr & Hl & Hr).
  simpl in Hr. apply StronglySorted_cons in Hr as [Hidr Hr].
  assert (Hidr' : forall y, y ∈ rb_inorder r -> bsize s id <= bsize s y).
  { rewrite Forall_map, Forall_forall in Hidr. exact Hidr. }
  assert (Hlid : forall y, y ∈ rb_inorder l -> bsize s y <= bsize s id).
  { intros y Hy. apply (Hlr (bsize s y) (bsize s id)); [by apply list_elem_of_fmap_2|by left]. }
  destruct (Hin id) as [Hid1 Hid2]; [apply elem_of_app; right; by left|].
  destruct (tiling_get s id Ht Hid1) as [b Hb]. rewrite (fr_eq s id b Hb) in Hid2.
  erewrite bind_eq by by apply buf_at_eq. rewrite Hid2. simpl bug_on.
  erewrite bind_eq by reflexivity. erewrite bind_eq by by apply buffer_size_eq.
  destruct (Z.ltb_spec size (bsize s id)) as [Hlt|Hge]; [|destruct (Z.ltb_spec (bsize s id) size)].
  - destruct (IHl (Some id)) as ([[f|] ex] & E & Hp);
      [done|intros y Hy; apply Hin, elem_of_app; by left| |].
    + exists (Some f, ex). split; [done|]. simpl in *. left.
      destruct Hp as [(l1 & l2 & E1 & Hex & Hsz & Hb1 & Hmin)|(-> & [= <-] & Hall)].
      * exists l1, (l2 ++ id :: rb_inorder r). rewrite E1, <- app_assoc. simpl.
        do 4 (split; [done|]). rewrite E1 in Hmin, Hlid.
        assert (Hf : f ∈ l1 ++ f :: l2) by (apply elem_of_app; right; by left).
        specialize (Hlid f Hf).
        intros y [Hy|[->|[Hy|[->|Hy]%elem_of_cons]%elem_of_app]%elem_of_cons]%elem_of_app Hsy; try done;
          [apply Hmin; [apply elem_of_app; by left|done]
          |apply Hmin; [apply elem_of_app; right; by right|done]
          |specialize (Hidr' y Hy); lia].
      * exists (rb_inorder l), (rb_inorder r). split; [done|].
        split; [by rewrite (proj2 (Z.eqb_neq _ _)) by lia|]. split; [lia|]. split; [auto|].
        intros y [Hy|[->|Hy]%elem_of_cons]%elem_of_app Hsy; [specialize (Hall y Hy); lia|done|].
        by apply Hidr'.
    + simpl in Hp. by destruct Hp as (_ & [=] & _).
  - destruct (IHr best) as ([fo ex] & E & Hp);
      [done|intros y Hy; apply Hin, elem_of_app; right; by right|].
    exists (fo, ex). split; [done|].
    assert (Hsmall : (forall y, y ∈ rb_inorder r -> bsize s y < size) ->
      forall y, y ∈ rb_inorder l ++ id :: rb_inorder r -> bsize s y < size).
    { intros Hr' y [Hy|[->|Hy]%elem_of_cons]%elem_of_app; [specialize (Hlid y Hy); lia|done|by apply Hr']. }
    destruct fo as [f|]; simpl in *; [|destruct Hp as (? & ? & ?); auto].
    destruct Hp as [(l1 & l2 & E1 & Hex & Hsz & Hb1 & Hmin)|(-> & -> & Hall)]; [left|right; auto].
    exists (rb_inorder l ++ id :: l1), l2. split; [by rewrite E1, <- app_assoc|]. do 2 (split; [done|]).
    split.
    + intros Hexf y [Hy|[->|Hy]%elem_of_cons]%elem_of_app; [specialize (Hlid y Hy); lia|done|].
      by apply Hb1.
    + intros y [Hy|[->|Hy]%elem_of_cons]%elem_of_app Hsy; [specialize (Hlid y Hy); lia|lia|].
      by apply Hmin.
  - assert (bsize s id = size) as Eq by lia. exists (Some id, true). split; [done|]. simpl. left.
    exists (rb_inorder l), (rb_inorder r). split; [done|].
    split; [by rewrite (proj2 (Z.eqb_eq _ _))|]. split; [lia|]. split; [done|].
    intros y Hy Hsy. lia.
Qed.

(** ** Splitting and merging pieces *)

Lemma bend_ext s s' id : buffers s' = buffers s -> fin s' = fin s ->
  (forall i, i ∈ buffers s -> ud (store s') i = ud (store s) i) -> bend s' id = bend s id.
Proof. intros E1 E2 E3. unfold bend. rewrite E1, E2. by apply nxt_ext. Qed.

Lemma tiling_ext s s' : tiling s -> buffers s' = buffers s -> buffer s' = buffer s ->
  buffer_size s' = buffer_size s -> (forall id, is_Some (store s' !! id) <-> is_Some (store s !! id)) ->
  (forall id, id ∈ buffers s -> ud (store s') id = ud (store s) id) -> tiling s'.
Proof.
  intros Ht E1 E2 E3 E4 E5. assert (Ef : fin s' = fin s) by (unfold fin; congruence).
  split; rewrite ?E1, ?E2, ?E3, ?Ef; try apply Ht.
  - intros id. by rewrite E4, (ti_store _ Ht).
  - rewrite <- (ti_head _ Ht). by apply starts_ext.
  - intros id Hid. rewrite (nxt_ext (store s)), E5 by done. by apply (ti_long _ Ht).
Qed.

(** [s1] is [s] with piece [id] cut at [size] bytes, the rest being [n]. *)
Record cut (s s1 : binder_alloc) (id n : nat) (size : Z) (l1 l2 : list nat) : Prop := Cut {
  cut_nodup : NoDup (l1 ++ id :: n :: l2);
  cut_old : buffers s = l1 ++ id :: l2;
  cut_new : buffers s1 = l1 ++ id :: n :: l2;
  cut_space : buffer s1 = buffer s /\ buffer_size s1 = buffer_size s;
  cut_fresh : store s !! n = None;
  cut_store i : i <> n -> store s1 !! i = store s !! i;
  cut_rest : is_Some (store s1 !! n);
  cut_at : ud (store s1) n = ud (store s) id + size
}.

Lemma starts_app m f l1 x l2 : starts m f (l1 ++ x :: l2) = ud m (default x (head l1)).
Proof. by destruct l1. Qed.

Section cutting.
Context (s s1 : binder_alloc) (id n : nat) (size : Z) (l1 l2 : list nat).
Context (C : cut s s1 id n size l1 l2).

Lemma cut_ids : (id ∉ l1) /\ (id ∉ l2) /\ (n ∉ l1) /\ (n ∉ l2) /\ id <> n /\ NoDup (l1 ++ id :: l2).
Proof.
  pose proof (cut_nodup _ _ _ _ _ _ _ C) as Hnd. pose proof (nodup_mid _ _ _ Hnd) as [H1 H2].
  apply not_elem_of_cons in H2 as [H2 H3].
  replace (l1 ++ id :: n :: l2) with ((l1 ++ [id]) ++ n :: l2) in Hnd by by rewrite <- app_assoc.
  pose proof (nodup_mid _ _ _ Hnd) as [[H4 _]%not_elem_of_app H5].
  rewrite <- Permutation_middle, <- app_assoc in Hnd. apply NoDup_cons in Hnd as [_ Hnd]. auto 10.
Qed.

Lemma cut_fin : fin s1 = fin s.
Proof. unfold fin. destruct (cut_space _ _ _ _ _ _ _ C) as [-> ->]. done. Qed.

Lemma cut_ud i : i <> n -> ud (store s1) i = ud (store s) i.
Proof. intros Hi. unfold ud. by rewrite (cut_store _ _ _ _ _ _ _ C). Qed.

Lemma cut_fr i : i <> n -> fr (store s1) i = fr (store s) i.
Proof. intros Hi. unfold fr. by rewrite (cut_store _ _ _ _ _ _ _ C). Qed.

Lemma cut_ud_l (l : list nat) i : n ∉ l -> i ∈ l -> ud (store s1) i = ud (store s) i.
Proof. intros Hl Hi. apply cut_ud. by intros ->. Qed.

Lemma cut_bend_id : bend s1 id = ud (store s) id + size.
Proof.
  destruct cut_ids as (H1 & _). unfold bend. rewrite (cut_new _ _ _ _ _ _ _ C), nxt_here by done.
  apply C.
Qed.

Lemma cut_bend_n : bend s1 n = bend s id.
Proof.
  destruct cut_ids as (H1 & H2 & H3 & H4 & H5 & _).
  unfold bend. rewrite (cut_new _ _ _ _ _ _ _ C), (cut_old _ _ _ _ _ _ _ C), nxt_here by done.
  replace (l1 ++ id :: n :: l2) with ((l1 ++ [id]) ++ n :: l2) by by rewrite <- app_assoc.
  rewrite nxt_here.
  - rewrite cut_fin. apply starts_ext. intros i. by apply cut_ud_l.
  - intros [?|?%list_elem_of_singleton]%elem_of_app; congruence.
Qed.

Lemma cut_bend j : j ∈ l1 ++ l2 -> bend s1 j = bend s j.
Proof.
  intros Hj. destruct cut_ids as (H1 & H2 & H3 & H4 & H5 & _).
  unfold bend. rewrite (cut_new _ _ _ _ _ _ _ C), (cut_old _ _ _ _ _ _ _ C), cut_fin.
  destruct (decide (j ∈ l1)) as [Hj1|Hj1].
  - rewrite !(nxt_l _ _ l1) by done. simpl. rewrite (cut_ud id) by done.
    apply nxt_ext. intros i. by apply cut_ud_l.
  - apply elem_of_app in Hj as [?|Hj]; [done|]. rewrite !(nxt_r _ _ l1) by done.
    assert (j <> id) by (by intros ->). assert (j <> n) by (by intros ->). simpl.
    do 3 (rewrite decide_False by done). apply nxt_ext. intros i. by apply cut_ud_l.
Qed.

Lemma cut_bsize j : j ∈ l1 ++ l2 -> bsize s1 j = bsize s j.
Proof.
  intros Hj. destruct cut_ids as (H1 & H2 & H3 & H4 & H5 & _).
  unfold bsize. rewrite cut_bend by done. rewrite cut_ud; [done|].
  intros ->. by apply elem_of_app in Hj as [?|?].
Qed.

Lemma cut_sizes : bsize s1 id = size /\ bsize s1 n = bsize s id - size.
Proof.
  destruct cut_ids as (H1 & H2 & H3 & H4 & H5 & _). unfold bsize.
  rewrite cut_bend_id, cut_bend_n, cut_ud, (cut_at _ _ _ _ _ _ _ C) by done. lia.
Qed.

Lemma cut_elem i : i ∈ buffers s1 <-> i = id \/ i = n \/ i ∈ l1 ++ l2.
Proof. rewrite (cut_new _ _ _ _ _ _ _ C), !elem_of_app, !elem_of_cons. tauto. Qed.

Lemma cut_elem_old i : i ∈ buffers s <-> i = id \/ i ∈ l1 ++ l2.
Proof. rewrite (cut_old _ _ _ _ _ _ _ C), !elem_of_app, !elem_of_cons. tauto. Qed.

Lemma cut_head : starts (store s1) (fin s1) (buffers s1) = starts (store s) (fin s) (buffers s).
Proof.
  destruct cut_ids as (H1 & H2 & H3 & H4 & H5 & _).
  rewrite (cut_new _ _ _ _ _ _ _ C), (cut_old _ _ _ _ _ _ _ C).
  rewrite !starts_app. apply cut_ud. destruct (head l1) as [h|] eqn:Eh; simpl; [|done].
  apply head_Some_elem_of in Eh. by intros ->.
Qed.

(** Cutting at a multiple of a pointer, away from both ends. *)
Lemma cut_tiling : tiling s -> 8 <= size -> size mod 8 = 0 -> size < bsize s id -> tiling s1.
Proof.
  intros Ht Hs1 Hs2 Hs3. destruct (cut_space _ _ _ _ _ _ _ C) as [EB ES].
  split; rewrite ?EB, ?ES, ?cut_head, ?(cut_new _ _ _ _ _ _ _ C); try apply Ht.
  - apply C.
  - intros i. rewrite <- (cut_new _ _ _ _ _ _ _ C), cut_elem.
    destruct (decide (i = n)) as [->|Hi]; [split; [intros _; apply C|auto]|].
    rewrite (cut_store _ _ _ _ _ _ _ C), <- (ti_store _ Ht), cut_elem_old by done. tauto.
  - rewrite cut_fin. apply Ht.
  - intros i Hi. rewrite <- (cut_new _ _ _ _ _ _ _ C) in *. fold (bend s1 i). fold (bsize s1 i).
    assert (Hid : id ∈ buffers s) by (apply cut_elem_old; by left).
    destruct (ti_long _ Ht id Hid) as [_ Hsz]. fold (bend s id) (bsize s id) in Hsz.
    unfold SIZEOF_PTR in *. destruct cut_sizes as [EZ EN].
    apply cut_elem in Hi as [->|[->|Hi]].
    + by rewrite EZ.
    + rewrite EN. split; [|by rewrite Zminus_mod, Hsz, Hs2].
      apply Z.mod_divide in Hsz as [k Hk]; [|lia]. apply Z.mod_divide in Hs2 as [m Hm]; [|lia]. lia.
    + rewrite cut_bsize by done. apply (ti_long _ Ht). apply cut_elem_old. by right.
Qed.

(** Cutting read backwards: merging two neighbours. *)
Lemma uncut_tiling : tiling s1 -> tiling s.
Proof.
  intros Ht. destruct (cut_space _ _ _ _ _ _ _ C) as [EB ES].
  destruct cut_ids as (H1 & H2 & H3 & H4 & H5 & Hnd).
  split; rewrite <- ?EB, <- ?ES, <- ?cut_head; try apply Ht.
  - by rewrite (cut_old _ _ _ _ _ _ _ C).
  - intros i. destruct (decide (i = n)) as [->|Hi].
    + rewrite (cut_fresh _ _ _ _ _ _ _ C), cut_elem_old, elem_of_app.
      split; [|by intros [? ?]]. intros [?|[?|?]]; congruence.
    + rewrite <- (cut_store _ _ _ _ _ _ _ C), <- (ti_store _ Ht), cut_elem, cut_elem_old by done. tauto.
  - rewrite <- cut_fin. apply Ht.
  - intros i Hi. fold (bend s i). fold (bsize s i).
    destruct cut_sizes as [EZ EN]. unfold SIZEOF_PTR.
    apply cut_elem_old in Hi as [->|Hi].
    + assert (Hid : id ∈ buffers s1) by (apply cut_elem; by left).
      assert (Hin : n ∈ buffers s1) by (apply cut_elem; by right; left).
      destruct (ti_long _ Ht id Hid) as [A1 A2]. destruct (ti_long _ Ht n Hin) as [B1 B2].
      fold (bend s1 id) (bsize s1 id) in A1, A2. fold (bend s1 n) (bsize s1 n) in B1, B2.
      unfold SIZEOF_PTR in *. replace (bsize s id) with (bsize s1 id + bsize s1 n) by lia.
      split; [lia|]. by rewrite Z.add_mod, A2, B2 by lia.
    + rewrite <- cut_bsize by done. apply (ti_long _ Ht). apply cut_elem. by right; right.
Qed.

(** The pieces, before and after. *)
Lemma cut_pieces : abs s = map (piece s) l1 ++ piece s id :: map (piece s) l2 /\
  abs s1 = map (piece s) l1 ++
    (ud (store s) id, ud (store s) id + size, fr (store s) id) ::
    (ud (store s) id + size, bend s id, fr (store s1) n) :: map (piece s) l2.
Proof.
  destruct cut_ids as (H1 & H2 & H3 & H4 & H5 & _). unfold abs.
  rewrite (cut_new _ _ _ _ _ _ _ C), (cut_old _ _ _ _ _ _ _ C), !map_app. split; [done|].
  assert (Hsame : forall l : list nat, n ∉ l -> (forall i, i ∈ l -> i ∈ l1 ++ l2) ->
    map (piece s1) l = map (piece s) l).
  { intros l Hl Hsub. apply map_ext_in. intros i Hi%list_elem_of_In. unfold piece.
    rewrite cut_bend, cut_fr, cut_ud by (auto; by intros ->). done. }
  rewrite !Hsame by (done || intros i Hi; apply elem_of_app; auto). f_equal. simpl.
  rewrite !Hsame by (done || intros i Hi; apply elem_of_app; auto). unfold piece.
  rewrite cut_bend_id, cut_bend_n, cut_fr, cut_ud, (cut_at _ _ _ _ _ _ _ C) by done. done.
Qed.
End cutting.

(** ** Page boundaries *)

Definition pg_up (s : binder_alloc) (x : Z) : nat := Z.to_nat ((x - buffer s + 4095) / PAGE_SIZE).
Definition pg_dn (s : binder_alloc) (x : Z) : nat := Z.to_nat ((x - buffer s) / PAGE_SIZE).

Section boundaries.
Context (s : binder_alloc) (Ht : tiling s).

Lemma addr_small x : buffer s <= x <= fin s -> is_u64 x /\ is_u64 (x + 4095).
Proof.
  intros. pose proof (ti_base _ Ht). pose proof (ti_user _ Ht). unfold is_u64, two64. lia.
Qed.

Lemma mask_dn x : buffer s <= x <= fin s -> Z.land x PAGE_MASK = page_addr s (pg_dn s x).
Proof.
  intros Hx. destruct (addr_small x Hx) as [H1 _]. rewrite land_page_mask by done.
  destruct (ti_base _ Ht) as [Hb Hp]. unfold page_addr, pg_dn, PAGE_SIZE in *.
  apply Z.mod_divide in Hp as [k Hk]; [|lia].
  rewrite Z2Nat.id by (apply Z.div_pos; lia). rewrite Hk.
  replace x with (x - k * 4096 + k * 4096) at 2 by lia. rewrite Z.mod_add by lia.
  pose proof (Z.div_mod (x - k * 4096) 4096). lia.
Qed.

Lemma align_up x : buffer s <= x <= fin s -> PAGE_ALIGN x = page_addr s (pg_up s x).
Proof.
  intros Hx. destruct (addr_small x Hx) as [_ H2]. rewrite PAGE_ALIGN_spec, u64_small by done.
  destruct (ti_base _ Ht) as [Hb Hp]. unfold page_addr, pg_up, PAGE_SIZE in *.
  apply Z.mod_divide in Hp as [k Hk]; [|lia].
  rewrite Z2Nat.id by (apply Z.div_pos; lia). rewrite Hk.
  replace (x + 4095) with (x - k * 4096 + 4095 + k * 4096) at 2 by lia. rewrite Z.mod_add by lia.
  pose proof (Z.div_mod (x - k * 4096 + 4095) 4096). lia.
Qed.

Lemma lt_up x k : buffer s <= x -> (k < pg_up s x)%nat <-> page_addr s k < x.
Proof.
  intros Hx. unfold pg_up, page_addr, PAGE_SIZE.
  pose proof (Z.div_mod (x - buffer s + 4095) 4096 ltac:(lia)).
  pose proof (Z.mod_pos_bound (x - buffer s + 4095) 4096 ltac:(lia)). lia.
Qed.

Lemma lt_dn x k : buffer s <= x -> (k < pg_dn s x)%nat <-> page_addr s (S k) <= x.
Proof.
  intros Hx. unfold pg_dn, page_addr, PAGE_SIZE.
  pose proof (Z.div_mod (x - buffer s) 4096 ltac:(lia)).
  pose proof (Z.mod_pos_bound (x - buffer s) 4096 ltac:(lia)). lia.
Qed.

Lemma dn_le x (ps : list binder_lru_page) : buffer s <= x <= fin s -> Z.of_nat (length ps) = buffer_size s / PAGE_SIZE ->
  (pg_dn s x <= length ps)%nat.
Proof.
  intros Hx HL. unfold pg_dn, PAGE_SIZE, fin in *.
  assert ((x - buffer s) / 4096 <= buffer_size s / 4096) by (apply Z.div_le_mono; lia). lia.
Qed.

Lemma page_array_paged ps : page_array s ps -> paged s ps.
Proof.
  intros (Hps & HL & _). split; [done|]. pose proof (ti_base _ Ht). pose proof (ti_user _ Ht).
  destruct (ti_size _ Ht) as [[? Hm] _]. unfold fin, SZ_4M, PAGE_SIZE, two64 in *.
  split; [lia|]. rewrite HL. assert (buffer_size s / 4096 <= 4194304 / 4096) by (apply Z.div_le_mono; lia).
  change (4194304 / 4096) with 1024 in *. lia.
Qed.

Lemma page_addr_max (x y : nat) : Nat.min x y = (if page_addr s y <? page_addr s x then y else x).
Proof. unfold page_addr, PAGE_SIZE. destruct (Z.ltb_spec (buffer s + Z.of_nat y * 4096) (buffer s + Z.of_nat x * 4096)); lia. Qed.
End boundaries.

(** ** Neighbours *)

(** In a coalesced list the neighbours of a free buffer are allocated. *)
Lemma free_prev s id l1 p l2 : wf s -> buffers s = l1 ++ p :: id :: l2 ->
  fr (store s) id = true -> fr (store s) p = false /\ bend s p = ud (store s) id.
Proof.
  intros Hwf E Hf. split.
  - pose proof (wf_coalesced _ Hwf) as Hc. rewrite E in Hc. apply coalesced_mid in Hc.
    rewrite Hf, andb_true_r in Hc. done.
  - pose proof (ti_nodup _ (wf_tiling _ Hwf)) as Hnd. rewrite E in Hnd.
    destruct (nodup_mid _ _ _ Hnd) as [Hp _]. unfold bend. rewrite E. by rewrite nxt_here.
Qed.

Lemma free_next s id l1 n l2 : wf s -> buffers s = l1 ++ id :: n :: l2 ->
  fr (store s) id = true -> fr (store s) n = false /\ bend s id = ud (store s) n.
Proof.
  intros Hwf E Hf. split.
  - pose proof (wf_coalesced _ Hwf) as Hc. rewrite E in Hc. apply coalesced_mid in Hc.
    by rewrite Hf in Hc.
  - pose proof (ti_nodup _ (wf_tiling _ Hwf)) as Hnd. rewrite E in Hnd.
    destruct (nodup_mid _ _ _ Hnd) as [Hp _]. unfold bend. rewrite E. by rewrite nxt_here.
Qed.

(** The pages a new buffer of [size] bytes at the start of the free piece [id]
    touches: those mapped by the call and those its neighbours keep. *)
Lemma fit_covered s id size ps ps' k : wf s -> id ∈ buffers s -> fr (store s) id = true ->
  0 < size <= bsize s id -> page_array s ps -> grow ps ps' ->
  (forall i, (pg_up s (ud (store s) id) <= i <
       Nat.min (pg_up s (ud (store s) id + size)) (pg_dn s (bend s id)))%nat -> present ps' i) ->
  ud (store s) id < page_addr s (S k) -> page_addr s k < ud (store s) id + size -> present ps' k.
Proof.
  intros Hwf Hid Hf Hsz Hpa Hg Hpr Hk1 Hk2. pose proof (wf_tiling _ Hwf) as Ht.
  destruct (tiling_bounds s id Ht Hid) as (B1 & B2 & B3 & _).
  assert (HS : page_addr s (S k) = page_addr s k + PAGE_SIZE) by (unfold page_addr; lia).
  destruct Hpa as (Hps & HL & _ & Hcov).
  destruct (decide (pg_up s (ud (store s) id) <= k)%nat) as [Hu|Hu].
  - destruct (decide (k < pg_dn s (bend s id))%nat) as [Hd|Hd].
    + apply Hpr. split; [done|]. apply Nat.min_glb_lt; [|done]. apply lt_up; lia.
    + rewrite lt_dn in Hd by (unfold bsize in *; lia). eapply grow_present; [exact Hg|].
      apply list_elem_of_split in Hid as (l1 & l2 & E). destruct l2 as [|n l2].
      * exfalso. pose proof (ti_nodup _ Ht) as Hnd. rewrite E in Hnd. destruct (nodup_mid _ _ _ Hnd) as [Hn1 _].
        assert (Hend : bend s id = fin s) by (unfold bend; rewrite E; by rewrite nxt_here).
        destruct (ti_size _ Ht) as [_ Hm]. unfold fin, page_addr, PAGE_SIZE, bsize in *.
        apply Z.mod_divide in Hm as [q Hq]; [|lia]. lia.
      * destruct (free_next s id l1 n l2 Hwf E Hf) as [Hfn Hen].
        assert (Hn : n ∈ buffers s) by (rewrite E; apply elem_of_app; right; right; by left).
        destruct (tiling_bounds s n Ht Hn) as (N1 & N2 & N3 & _).
        apply (Hcov n); [done|done|lia|]. unfold bsize in *. lia.
  - rewrite (Nat.le_ngt _ _), lt_up in Hu by lia. eapply grow_present; [exact Hg|].
    assert (Hlt : page_addr s k < ud (store s) id) by (destruct (Z.lt_ge_cases (page_addr s k) (ud (store s) id)); [done|tauto || lia]).
    apply list_elem_of_split in Hid as (l1 & l2 & E). destruct l1 as [|p l1 _] using rev_ind.
    + exfalso. pose proof (ti_head _ Ht) as Hh. rewrite E in Hh. simpl in Hh.
      unfold page_addr, PAGE_SIZE in *. lia.
    + rewrite <- app_assoc in E. destruct (free_prev s id l1 p l2 Hwf E Hf) as [Hfp Hep].
      assert (Hp : p ∈ buffers s) by (rewrite E; apply elem_of_app; right; by left).
      destruct (tiling_bounds s p Ht Hp) as (P1 & P2 & P3 & _).
      apply (Hcov p); [done|done| |lia]. unfold bsize in *. lia.
Qed.

(** ** Allocation *)

Lemma ud_inj s i j : tiling s -> i ∈ buffers s -> j ∈ buffers s ->
  ud (store s) i = ud (store s) j -> i = j.
Proof.
  intros Ht Hi Hj E. destruct (decide (i = j)) as [|Hne]; [done|]. exfalso.
  assert (Hno : forall x y, x ∈ buffers s -> y ∈ buffers s -> x <> y ->
    (exists l1 l2, buffers s = l1 ++ x :: l2 /\ y ∈ l2) -> ud (store s) x < ud (store s) y).
  { intros x y Hx Hy _ (l1 & l2 & El & Hin).
    pose proof (long_order (store s) (fin s) l1 x l2 y) as Hord. rewrite <- El in Hord.
    specialize (Hord (ti_nodup _ Ht) (ti_long _ Ht) Hin). fold (bend s x) in Hord.
    destruct (tiling_bounds s x Ht Hx) as (_ & _ & ? & _). unfold bsize in *. lia. }
  pose proof Hi as Hi'. apply list_elem_of_split in Hi' as (l1 & l2 & El). pose proof Hj as Hj'.
  rewrite El in Hj'. apply elem_of_app in Hj' as [Hj'|[->|Hj']%elem_of_cons]; [|done|].
  - apply list_elem_of_split in Hj' as (k1 & k2 & ->). rewrite <- app_assoc in El.
    assert (ud (store s) j < ud (store s) i); [|lia].
    apply Hno; [done..|by intros ->|]. exists k1, (k2 ++ i :: l2). split; [done|].
    apply elem_of_app. right. by left.
  - assert (ud (store s) i < ud (store s) j); [|lia]. apply Hno; [done..|]. by exists l1, l2.
Qed.

(** Both trees, for a given set of buffers. *)
Definition trees_ok (s : binder_alloc) : Prop :=
  tree_of (free_buffers s) (bsize s) (fun id => id ∈ buffers s /\ fr (store s) id = true) /\
  tree_of (allocated_buffers s) (ud (store s)) (fun id => id ∈ buffers s /\ fr (store s) id = false).

Definition taken_buf (b : binder_buffer) (d o e : Z) (is_async : bool) : binder_buffer :=
  Buffer false false is_async (debug_id b) (transaction b) (target_node b) d o e (user_data b).

Definition taken_state (id : nat) (B : binder_buffer) (tf ta : rb_tree) (a : Z) (s : binder_alloc)
    : binder_alloc :=
  set_async a (set_store (<[id := B]> (store s)) (set_allocated ta (set_free tf s))).

Lemma fr_insert m id b i : fr (<[id := b]> m) i = if decide (i = id) then free b else fr m i.
Proof. unfold fr. rewrite lookup_insert. by repeat case_decide. Qed.

Lemma ud_insert m id b i : ud (<[id := b]> m) i = if decide (i = id) then user_data b else ud m i.
Proof. unfold ud. rewrite lookup_insert. by repeat case_decide. Qed.

Lemma ud_insert_same m id b b' i : m !! id = Some b -> user_data b' = user_data b ->
  ud (<[id := b']> m) i = ud m i.
Proof. intros Hb E. rewrite ud_insert. case_decide; [|done]. subst. unfold ud. by rewrite Hb. Qed.

(** Replacing a buffer's fields, its address apart, keeps the tiling. *)
Lemma tiling_taken s id b B tf ta a : tiling s -> store s !! id = Some b -> user_data B = user_data b ->
  tiling (taken_state id B tf ta a s) /\ (forall i, bend (taken_state id B tf ta a s) i = bend s i).
Proof.
  intros Ht Hb E. split.
  - apply (tiling_ext s); try done; intros i; simpl.
    + rewrite lookup_insert. case_decide; [|done]. subst. rewrite Hb. split; by eexists.
    + intros _. by apply (ud_insert_same _ _ b).
  - intros i. apply bend_ext; try done. intros j _. by apply (ud_insert_same _ _ b).
Qed.

Section ops.
Context `{RB : Rbtree} {RBL : RbtreeLaws}.

Lemma take_buffer_ok s id b d o e size (is_async : bool) :
  tiling s -> trees_ok s -> id ∈ buffers s -> store s !! id = Some b -> free b = true ->
  let a := if is_async then u64 (free_async_space s - u64 (size + SIZEOF_BINDER_BUFFER))
           else free_async_space s in
  exists tf ta, let s' := taken_state id (taken_buf b d o e is_async) tf ta a s in
    take_buffer id d o e size is_async s = Some (inl id, s') /\ tiling s' /\ trees_ok s'.
Proof.
  intros Ht [Hf Ha] Hid Hb Hfree a. unfold take_buffer.
  assert (HPid : id ∈ buffers s /\ fr (store s) id = true) by by rewrite (fr_eq s id b).
  pose proof (tree_erase _ _ _ id Hf HPid) as Hf1. set (tf := rb_erase id (free_buffers s)) in *.
  erewrite bind_eq by reflexivity. erewrite bind_eq by by apply (buf_at_eq (set_free tf s)).
  erewrite bind_eq by reflexivity.
  set (b0 := Buffer false false (async_transaction b) (debug_id b) (transaction b)
    (target_node b) (data_size b) (offsets_size b) (extra_buffers_size b) (user_data b)).
  set (s2 := set_store (<[id := b0]> (store s)) (set_free tf s)).
  destruct (insert_allocated_ok s2 id b0 (fun i => i ∈ buffers s /\ fr (store s) i = false))
    as (ta & Ei & Hta).
  { simpl. by rewrite lookup_insert_eq. }
  { done. }
  { eapply tree_of_ext; [exact Ha|done|]. intros i _. by apply (ud_insert_same _ _ b). }
  { intros [_ H]. rewrite (fr_eq s id b) in H; congruence. }
  { intros i [Hi Hfi]. assert (i <> id) by (intros ->; rewrite (fr_eq s id b) in Hfi; congruence).
    simpl. rewrite lookup_insert_ne, fr_insert, (ud_insert_same _ _ b), decide_False by done.
    split; [by apply (ti_store _ Ht)|]. split; [done|]. intros E.
    rewrite <- (ud_eq s id b Hb) in E. by apply (ud_inj s) in E. }
  change (set_store (<[id:=b0]> (store (set_free tf s))) (set_free tf s)) with s2.
  erewrite bind_eq by exact Ei. erewrite bind_eq by reflexivity.
  exists tf, ta. cbv zeta.
  destruct (tiling_taken s id b (taken_buf b d o e is_async) tf ta a Ht Hb eq_refl) as [Ht' Hbend].
  split; [|split; [done|]].
  - unfold taken_state, a, s2, taken_buf. destruct is_async; cbn; rewrite insert_insert_eq; done.
  - split.
    + eapply tree_of_ext; [exact Hf1| |].
      * intros i. simpl. rewrite fr_insert. case_decide; simpl; [|tauto]. subst. split; [tauto|by intros []].
      * intros i _. unfold bsize. rewrite Hbend. simpl. by rewrite (ud_insert_same _ _ b).
    + eapply tree_of_ext; [exact Hta| |].
      * intros i. simpl. rewrite fr_insert. case_decide; simpl; [|tauto]. subst. tauto.
      * intros i _. simpl. rewrite !(ud_insert_same _ _ b); done.
Qed.

(** Lowering the key of one element to above all that precede it keeps the
    order. *)
Lemma sorted_lower (key key' : nat -> Z) x f1 f2 :
  StronglySorted Z.le (map key (f1 ++ x :: f2)) -> key' x <= key x ->
  (forall y, y ∈ f1 -> key y < key' x) -> (forall y, y ∈ f1 ++ f2 -> key' y = key y) ->
  StronglySorted Z.le (map key' (f1 ++ x :: f2)).
Proof.
  rewrite !map_app. simpl. intros Hs Hx Hlow Hsame.
  assert (E1 : map key' f1 = map key f1).
  { apply map_ext_in. intros y Hy%list_elem_of_In. apply Hsame, elem_of_app. by left. }
  assert (E2 : map key' f2 = map key f2).
  { apply map_ext_in. intros y Hy%list_elem_of_In. apply Hsame, elem_of_app. by right. }
  rewrite E1, E2. apply StronglySorted_app in Hs as (H12 & H1 & [Hx2 H2]%StronglySorted_cons).
  apply StronglySorted_app. split; [|split; [done|]].
  - intros u v Hu [->|Hv]%elem_of_cons.
    + apply list_elem_of_fmap in Hu as (y & -> & Hy). specialize (Hlow y Hy). lia.
    + apply H12; [done|by right].
  - constructor; [done|]. rewrite Forall_forall in *. intros v Hv. specialize (Hx2 v Hv). simpl in *. lia.
Qed.

(** The state after the split. *)
Definition split_state (id n : nat) (b : binder_buffer) (size : Z) (t : rb_tree) (s : binder_alloc)
    : binder_alloc :=
  set_free t (set_buffers (list_add_after (Some id) n (buffers s))
    (set_store (<[n := Buffer true false false 0 None None 0 0 0 (u64 (user_data b + size))]> (store s)) s)).

Lemma split_cut s id n b size t l1 l2 :
  tiling s -> buffers s = l1 ++ id :: l2 -> store s !! id = Some b -> store s !! n = None ->
  0 <= size <= bsize s id -> cut s (split_state id n b size t s) id n size l1 l2.
Proof.
  intros Ht E Hb Hn Hsz. assert (Hid : id ∈ buffers s) by (rewrite E; apply elem_of_app; right; by left).
  destruct (tiling_bounds s id Ht Hid) as (B1 & B2 & _).
  assert (Hnn : n ∉ buffers s) by (rewrite (ti_store _ Ht), Hn; by intros [? ?]).
  pose proof (ti_nodup _ Ht) as Hnd. rewrite E in *. destruct (nodup_mid _ _ _ Hnd) as [H1 H2].
  split; simpl; try done.
  - replace (l1 ++ id :: n :: l2) with ((l1 ++ [id]) ++ n :: l2) by by rewrite <- app_assoc.
    rewrite <- Permutation_middle, <- app_assoc. by apply NoDup_cons.
  - rewrite E. by apply list_add_after_Some.
  - intros i Hi. by rewrite lookup_insert_ne.
  - rewrite lookup_insert_eq. by eexists.
  - unfold ud at 1. rewrite lookup_insert_eq. simpl. rewrite (ud_eq s id b Hb).
    apply u64_small. rewrite <- (ud_eq s id b Hb). unfold bsize in *. apply (addr_small s Ht). lia.
Qed.

Lemma split_buffer_ok s id n b size f1 f2 :
  tiling s -> trees_ok s -> id ∈ buffers s -> store s !! id = Some b -> free b = true ->
  store s !! n = None -> 8 <= size -> size mod 8 = 0 -> size < bsize s id ->
  rb_inorder (free_buffers s) = f1 ++ id :: f2 -> (forall y, y ∈ f1 -> bsize s y < size) ->
  exists t, let s1 := split_state id n b size t s in
    split_buffer id (Some n) (bsize s id) size s = Some (true, s1) /\ tiling s1 /\ trees_ok s1.
Proof.
  intros Ht [Hf Ha] Hid Hb Hfree Hn H8 Hm Hlt Hio Hlow. pose proof Hid as Hid'.
  apply list_elem_of_split in Hid' as (l1 & l2 & E).
  pose proof (split_cut s id n b size (free_buffers s) l1 l2 Ht E Hb Hn ltac:(lia)) as C.
  set (s0 := split_state id n b size (free_buffers s) s) in *.
  pose proof (cut_tiling _ _ _ _ _ _ _ C Ht H8 Hm Hlt) as Ht0.
  destruct (cut_ids _ _ _ _ _ _ _ C) as (I1 & I2 & I3 & I4 & I5 & _).
  destruct (cut_sizes _ _ _ _ _ _ _ C) as [Z1 Z2].
  assert (Hnn : n ∉ buffers s) by (rewrite (ti_store _ Ht), Hn; by intros [? ?]).
  assert (Hbsz : forall i, i ∈ buffers s -> i <> id -> bsize s0 i = bsize s i).
  { intros i Hi Hne. apply (cut_bsize _ _ _ _ _ _ _ C). rewrite E in Hi.
    rewrite elem_of_app, elem_of_cons in Hi. rewrite elem_of_app. tauto. }
  destruct (insert_free_ok s0 n (Buffer true false false 0 None None 0 0 0 (u64 (user_data b + size)))
    (fun i => i ∈ buffers s /\ fr (store s) i = true)) as (t & Ei & Hft); try done.
  - apply (cut_elem _ _ _ _ _ _ _ C). by right; left.
  - simpl. by rewrite lookup_insert_eq.
  - destruct Hf as (F1 & F2 & F3). split; [done|]. split; [done|]. simpl. rewrite Hio in *.
    apply (sorted_lower (bsize s)); [done|lia|by rewrite Z1|].
    intros y Hy. apply Hbsz.
    + apply F2. rewrite elem_of_app, elem_of_cons. rewrite elem_of_app in Hy. tauto.
    + intros ->. destruct (nodup_mid _ _ _ F1). by apply elem_of_app in Hy as [?|?].
  - by intros [? _].
  - intros i [Hi Hfi]. assert (i <> n) by (by intros ->).
    rewrite (cut_fr _ _ _ _ _ _ _ C), (cut_elem _ _ _ _ _ _ _ C) by done. split; [|done].
    apply (cut_elem_old _ _ _ _ _ _ _ C) in Hi. tauto.
  - exists t. cbv zeta. split; [|split].
    + unfold split_buffer. erewrite bind_eq by by apply buf_at_eq.
      rewrite (proj2 (Z.eqb_neq _ _)) by lia.
      erewrite bind_eq by reflexivity. erewrite bind_eq by reflexivity.
      change (set_buffers _ _) with s0. by erewrite bind_eq by exact Ei.
    + by apply (tiling_ext s0).
    + assert (Hfn : fr (store s0) n = true) by (unfold fr; simpl; by rewrite lookup_insert_eq).
      split.
      * eapply tree_of_ext; [exact Hft| |done]. intros i. change (buffers (split_state id n b size t s)) with (buffers s0).
        rewrite (cut_elem _ _ _ _ _ _ _ C), (cut_elem_old _ _ _ _ _ _ _ C).
        destruct (decide (i = n)) as [->|Hi]; [tauto|]. rewrite (cut_fr _ _ _ _ _ _ _ C) by done. tauto.
      * eapply tree_of_ext; [exact Ha| |].
        -- intros i. change (buffers (split_state id n b size t s)) with (buffers s0).
           change (store (split_state id n b size t s)) with (store s0).
           rewrite (cut_elem _ _ _ _ _ _ _ C), (cut_elem_old _ _ _ _ _ _ _ C).
           destruct (decide (i = n)) as [->|Hi].
           ++ rewrite Hfn. split; [|by intros []]. rewrite <- (cut_elem_old _ _ _ _ _ _ _ C). by intros [].
           ++ rewrite (cut_fr _ _ _ _ _ _ _ C) by done. tauto.
        -- intros i [Hi _]. apply (cut_ud _ _ _ _ _ _ _ C). by intros ->.
Qed.

(** The state in which the chosen buffer is exactly [size] long and still
    free, compared with the state before the call. *)
Record staged (s s1 : binder_alloc) (id : nat) (size : Z) (ps' : list binder_lru_page) : Prop := Staged {
  sg_tiling : tiling s1;
  sg_trees : trees_ok s1;
  sg_other j : j ∈ buffers s1 -> j <> id ->
    (j ∈ buffers s /\ store s1 !! j = store s !! j /\ bend s1 j = bend s j) \/
    (exists b, store s1 !! j = Some b /\ free b = true /\ transaction b = None);
  sg_id : id ∈ buffers s1 /\ store s1 !! id = store s !! id;
  sg_end : bend s1 id = ud (store s) id + size;
  sg_space : buffer s1 = buffer s /\ buffer_size s1 = buffer_size s;
  sg_pages : pages s1 = Some ps';
  sg_coalesced f : f id = false -> (forall i, i <> id -> f i = fr (store s1) i) ->
    coalesced f (buffers s1)
}.

Lemma grow_full ps ps' : grow ps ps' -> full_pages ps -> full_pages ps'.
Proof.
  intros [HL Hg] Hf k p' bytes Hp' Hb.
  destruct (lookup_lt_is_Some_2 ps k) as [p Hp]; [rewrite <- HL; by eapply lookup_lt_Some|].
  destruct (Hg k p Hp) as (q & Hq & [E|[_ E]]); simplify_eq.
  - apply (Hf k p); [done|]. congruence.
  - reflexivity.
Qed.

Lemma ud_of_lookup m m' i : m' !! i = m !! i -> ud m' i = ud m i /\ fr m' i = fr m i.
Proof. unfold ud, fr. by intros ->. Qed.

Lemma taken_wf s s1 id b size ps ps' d o e is_async tf ta a :
  wf s -> store s !! id = Some b -> free b = true -> page_array s ps -> grow ps ps' ->
  staged s s1 id size ps' -> 0 < size <= bsize s id ->
  request_size d o e = Some (size) \/ (request_size d o e = Some 0 /\ size = SIZEOF_PTR) ->
  SIZEOF_PTR <= size ->
  (forall i, (pg_up s (ud (store s) id) <= i <
     Nat.min (pg_up s (ud (store s) id + size)) (pg_dn s (bend s id)))%nat -> present ps' i) ->
  let s' := taken_state id (taken_buf b d o e is_async) tf ta a s1 in
  tiling s' -> trees_ok s' -> wf s'.
Proof.
  intros Hwf Hb Hfree Hpa Hg [_ _ Hother [Hid1 Hsid] Hend [EB ES] Hps' Hcoal] Hsz Hreq H8 Hpr s' Ht' [Hf' Ha'].
  assert (Hid : id ∈ buffers s) by (apply (ti_store _ (wf_tiling _ Hwf)); by eexists).
  assert (Hend' : forall i, bend s' i = bend s1 i).
  { intros i. apply bend_ext; try done. intros j _. apply (ud_insert_same _ _ b); [by rewrite Hsid|done]. }
  assert (Hfr' : forall i, i <> id -> fr (store s') i = fr (store s1) i)
    by (intros i Hi; simpl; by rewrite fr_insert, decide_False).
  assert (Hud' : ud (store s') id = ud (store s) id)
    by (simpl; rewrite ud_insert, decide_True by done; by rewrite (ud_eq s id b)).
  assert (Haddr : forall k, page_addr s' k = page_addr s k) by (intros k; unfold page_addr; simpl; by rewrite EB).
  split; try done.
  - apply Hcoal; [|done]. simpl. rewrite fr_insert. by rewrite decide_True.
  - exists ps'. split; [done|]. destruct Hpa as (Hps & HL & Hfull & Hcov).
    split; [simpl; rewrite ES, <- HL; f_equal; apply Hg|]. split; [by eapply grow_full|].
    intros j k Hj Hfj Hk1 Hk2. rewrite !Haddr in *. rewrite Hend' in Hk2.
    destruct (decide (j = id)) as [->|Hne].
    + rewrite Hud' in Hk1. rewrite Hend in Hk2. eapply (fit_covered s id size ps ps'); try done.
      by rewrite (fr_eq s id b).
    + rewrite Hfr' in Hfj by done. simpl in Hk1. rewrite ud_insert, decide_False in Hk1 by done.
      destruct (Hother j Hj Hne) as [(Hj0 & Ej & Ebj)|(b1 & Hb1 & Hb1f & _)].
      * destruct (ud_of_lookup _ _ _ Ej) as [E1 E2]. rewrite E1 in Hk1. rewrite E2 in Hfj. rewrite Ebj in Hk2.
        eapply grow_present; [exact Hg|]. by apply (Hcov j).
      * rewrite (fr_eq s1 j b1) in Hfj by done. congruence.
  - intros j bj Hbj Hfj. simpl in Hbj. rewrite lookup_insert in Hbj. unfold bsize. rewrite Hend'.
    case_decide as Hjid; [subst j; simplify_eq; simpl|].
    + exists (match request_size d o e with Some z => z | None => 0 end).
      rewrite ud_insert, decide_True, Hend, (ud_eq s id b Hb) by done. simpl.
      unfold SIZEOF_PTR in *. destruct Hreq as [-> |[-> ->]]; (split; [done|lia]).
    + assert (Hj : j ∈ buffers s1) by (apply (ti_store _ Ht'); simpl; rewrite lookup_insert_ne by done; by eexists).
      destruct (Hother j Hj ltac:(congruence)) as [(Hj0 & Ej & Ebj)|(b1 & Hb1 & Hb1f & _)]; [|simplify_eq; congruence].
      rewrite Ebj. simpl. rewrite ud_insert, decide_False by congruence.
      destruct (ud_of_lookup _ _ _ Ej) as [E1 _]. rewrite E1. apply (wf_sizes _ Hwf); [congruence|done].
  - intros j bj Hbj Hfj. simpl in Hbj. rewrite lookup_insert in Hbj. case_decide; [by simplify_eq|].
    assert (Hj : j ∈ buffers s1) by (apply (ti_store _ Ht'); simpl; rewrite lookup_insert_ne by done; by eexists).
    destruct (Hother j Hj ltac:(congruence)) as [(Hj0 & Ej & _)|(b1 & Hb1 & _ & Hn)]; [|by simplify_eq].
    apply (wf_idle _ Hwf j); congruence.
Qed.

(** Taking the whole free buffer. *)
Lemma staged_whole s id size ps' h : wf s -> id ∈ buffers s -> fr (store s) id = true ->
  bsize s id = size -> staged s (set_pages (Some ps') h s) id size ps'.
Proof.
  intros Hwf Hid Hf Hsz. pose proof (wf_tiling _ Hwf). split; try done.
  - by apply (tiling_ext s).
  - split; [apply (wf_free _ Hwf)|apply (wf_allocated _ Hwf)].
  - intros j Hj _. by left.
  - change (bend s id = ud (store s) id + size). unfold bsize in Hsz. lia.
  - intros f Hfid Hfo. pose proof (wf_coalesced _ Hwf) as Hc. simpl in *.
    apply list_elem_of_split in Hid as (l1 & l2 & E). rewrite E in *.
    pose proof (ti_nodup _ (wf_tiling _ Hwf)) as Hnd. rewrite E in Hnd.
    destruct (nodup_mid _ _ _ Hnd) as [H1 H2].
    apply coalesced_cut; [done|]. split; (eapply coalesced_ext; [intros i Hi; apply Hfo; by intros ->|]).
    + by eapply coalesced_app_l.
    + apply coalesced_app_r in Hc. by destruct Hc.
Qed.

(** Splitting it first. *)
Lemma staged_split s id n b size t ps' h : wf s -> store s !! id = Some b -> free b = true ->
  store s !! n = None -> 0 <= size <= bsize s id ->
  let g := set_pages (Some ps') h s in let s1 := split_state id n b size t g in
  tiling s1 -> trees_ok s1 -> staged s s1 id size ps'.
Proof.
  intros Hwf Hb Hfree Hn Hsz g s1 Ht1 Htr1. pose proof (wf_tiling _ Hwf) as Ht.
  assert (Hid : id ∈ buffers s) by (apply (ti_store _ Ht); by eexists).
  pose proof Hid as (l1 & l2 & E)%list_elem_of_split.
  assert (Htg : tiling g) by by apply (tiling_ext s).
  pose proof (split_cut g id n b size t l1 l2 Htg E Hb Hn Hsz) as C. fold s1 in C.
  destruct (cut_ids _ _ _ _ _ _ _ C) as (I1 & I2 & I3 & I4 & I5 & _).
  split; try done.
  - intros j Hj Hne. apply (cut_elem _ _ _ _ _ _ _ C) in Hj as [->|[->|Hj]]; [done|right|left].
    + eexists. simpl. rewrite lookup_insert_eq. done.
    + assert (j <> n) by (intros ->; by apply elem_of_app in Hj as [?|?]).
      split; [|split].
      * apply (cut_elem_old _ _ _ _ _ _ _ C). by right.
      * by apply (cut_store _ _ _ _ _ _ _ C).
      * by apply (cut_bend _ _ _ _ _ _ _ C).
  - split; [apply (cut_elem _ _ _ _ _ _ _ C); by left|]. by apply (cut_store _ _ _ _ _ _ _ C).
  - apply (cut_bend_id _ _ _ _ _ _ _ C).
  - intros f Hfid Hfo. rewrite (cut_new _ _ _ _ _ _ _ C). apply coalesced_cut; [done|].
    pose proof (wf_coalesced _ Hwf) as Hc. rewrite E in Hc.
    assert (Hold : forall i, i <> id -> i <> n -> f i = fr (store s) i).
    { intros i ? ?. rewrite Hfo by done. by apply (cut_fr _ _ _ _ _ _ _ C). }
    split.
    + eapply coalesced_ext; [intros i Hi; apply Hold; intros ->; done|]. by eapply coalesced_app_l.
    + destruct l2 as [|m l2]; [done|]. apply not_elem_of_cons in I2 as [? I2], I4 as [? I4].
      split; [|eapply coalesced_ext; [intros i Hi; apply Hold; intros ->; by apply elem_of_cons in Hi as [?|?]|]].
      * rewrite (Hold m) by done. apply coalesced_mid in Hc. rewrite (fr_eq s id b), Hfree in Hc by done.
        simpl in Hc. by rewrite Hc, andb_false_r.
      * apply coalesced_app_r in Hc. by destruct Hc.
Qed.

(** Only the page array may have grown. *)
Definition pages_only (s s' : binder_alloc) : Prop :=
  exists ps ps' h, pages s = Some ps /\ s' = set_pages (Some ps') h s /\ grow ps ps'.

Lemma pages_only_refl s : wf s -> pages_only s s.
Proof.
  intros Hwf. destruct (wf_pages _ Hwf) as (ps & Hps & _). exists ps, ps, (pages_high s).
  split; [done|]. split; [by apply (set_pages_self s)|apply grow_refl].
Qed.

Lemma wf_pages_only s s' : wf s -> pages_only s s' -> wf s'.
Proof.
  intros Hwf (ps & ps' & h & Hps & -> & Hg). destruct (wf_pages _ Hwf) as (ps0 & Hps0 & HL & Hfull & Hcov).
  simplify_eq. pose proof (wf_tiling _ Hwf). split; try apply Hwf.
  - by apply (tiling_ext s).
  - exists ps'. split; [done|]. split; [simpl; rewrite <- HL; f_equal; apply Hg|].
    split; [by eapply grow_full|]. intros j k Hj Hfj Hk1 Hk2. eapply grow_present; [exact Hg|].
    by apply (Hcov j).
Qed.

(** What a successful allocation of [size] bytes in buffer [id] has done. *)
Record alloc_post (s s' : binder_alloc) (id : nat) (d o e size : Z) (is_async : bool) : Prop := AllocPost {
  ap_wf : wf s';
  ap_buf : exists b, store s !! id = Some b /\ free b = true /\
    store s' !! id = Some (taken_buf b d o e is_async);
  ap_fit : size <= bsize s id;
  ap_best j : j ∈ buffers s -> fr (store s) j = true -> size <= bsize s j -> bsize s id <= bsize s j;
  ap_abs : exists A B, abs s = A ++ (ud (store s) id, bend s id, true) :: B /\
    abs s' = A ++ (ud (store s) id, ud (store s) id + size, false) ::
      (if bsize s id =? size then [] else [(ud (store s) id + size, bend s id, true)]) ++ B;
  ap_async : free_async_space s' =
    if is_async then u64 (free_async_space s - u64 (size + SIZEOF_BINDER_BUFFER)) else free_async_space s;
  ap_pages : exists ps ps', pages s = Some ps /\ pages s' = Some ps' /\ grow ps ps';
  ap_space : buffer s' = buffer s /\ buffer_size s' = buffer_size s /\ vma s' = vma s /\
    vma_vm_mm s' = vma_vm_mm s /\ mm_users s' = mm_users s /\ mm_count s' = mm_count s /\
    warnings s' = warnings s;
  ap_others j : j ∈ buffers s -> j <> id -> store s' !! j = store s !! j
}.

(** The process has its mapping and the kernel has memory. *)
Definition helpful (E : page_env) (s : binder_alloc) (new_struct : option nat) : Prop :=
  cooperative E /\ mmget_not_zero E = true /\ vma s <> None /\ vma_vm_mm s <> None /\ new_struct <> None.

(** Why an allocation failed. *)
Definition alloc_error (E : page_env) (s : binder_alloc) (new_struct : option nat) (d o e : Z)
    (is_async : bool) (err : Z) : Prop :=
  (err = - ESRCH /\ ~ helpful E s new_struct) \/
  (err = - EINVAL /\ request_size d o e = None) \/
  (err = - ENOSPC /\ exists size, request_size d o e = Some size /\
     ((is_async = true /\ free_async_space s < size + SIZEOF_BINDER_BUFFER) \/
      forall j, j ∈ buffers s -> fr (store s) j = true -> bsize s j < Z.max size SIZEOF_PTR)) \/
  (err = - ENOMEM /\ ~ helpful E s new_struct).

Lemma abs_taken s1 id b B tf ta a l1 l2 : tiling s1 -> store s1 !! id = Some b -> free b = true ->
  user_data B = user_data b -> free B = false -> buffers s1 = l1 ++ id :: l2 ->
  abs s1 = map (piece s1) l1 ++ (ud (store s1) id, bend s1 id, true) :: map (piece s1) l2 /\
  abs (taken_state id B tf ta a s1) =
    map (piece s1) l1 ++ (ud (store s1) id, bend s1 id, false) :: map (piece s1) l2.
Proof.
  intros Ht Hb Hf Eu HfB E. unfold abs at 1 2. simpl. rewrite E, !map_app. simpl.
  pose proof (ti_nodup _ Ht) as Hnd. rewrite E in Hnd. destruct (nodup_mid _ _ _ Hnd) as [H1 H2].
  destruct (tiling_taken s1 id b B tf ta a Ht Hb Eu) as [_ Hbend].
  assert (Hsame : forall l : list nat, id ∉ l -> map (piece (taken_state id B tf ta a s1)) l = map (piece s1) l).
  { intros l Hl. apply map_ext_in. intros i Hi%list_elem_of_In. unfold piece. rewrite Hbend. simpl.
    rewrite (ud_insert_same _ _ b), fr_insert, decide_False by (done || by intros ->). done. }
  assert (P1 : piece s1 id = (ud (store s1) id, bend s1 id, true))
    by (unfold piece; by rewrite (fr_eq s1 id b), Hf).
  assert (P2 : piece (taken_state id B tf ta a s1) id = (ud (store s1) id, bend s1 id, false)).
  { unfold piece. rewrite Hbend. simpl.
    by rewrite (ud_insert_same _ _ b), fr_insert, decide_True, HfB. }
  by rewrite !Hsame, P1, P2.
Qed.

Section finish.
Context (s : binder_alloc) (id : nat) (b : binder_buffer) (d o e size : Z) (is_async : bool)
  (ps ps' : list binder_lru_page) (h : Z).
Context (Hwf : wf s) (Hb : store s !! id = Some b) (Hfree : free b = true)
  (Hpa : page_array s ps) (Hg : grow ps ps') (Hfit : size <= bsize s id)
  (Hreq : request_size d o e = Some size \/ request_size d o e = Some 0 /\ size = SIZEOF_PTR)
  (H8 : SIZEOF_PTR <= size) (Hm : size mod 8 = 0)
  (Hbest : forall j, j ∈ buffers s -> fr (store s) j = true -> size <= bsize s j ->
     bsize s id <= bsize s j)
  (Hpr : forall i, (pg_up s (ud (store s) id) <= i <
     Nat.min (pg_up s (ud (store s) id + size)) (pg_dn s (bend s id)))%nat -> present ps' i).

Let g := set_pages (Some ps') h s.

Lemma finish_id : id ∈ buffers s /\ fr (store s) id = true.
Proof. split; [apply (ti_store _ (wf_tiling _ Hwf)); by eexists|by rewrite (fr_eq s id b)]. Qed.

Lemma finish_whole : bsize s id = size ->
  exists s', take_buffer id d o e size is_async g = Some (inl id, s') /\
    alloc_post s s' id d o e size is_async.
Proof.
  intros Hsz. destruct finish_id as [Hid Hfid]. unfold SIZEOF_PTR in *.
  pose proof (staged_whole s id size ps' h Hwf Hid Hfid Hsz) as Hst. fold g in Hst.
  destruct (take_buffer_ok g id b d o e size is_async) as (tf & ta & Et & Ht' & Htr'); try apply Hst; try done.
  eexists. split; [exact Et|].
  pose proof Hid as (l1 & l2 & E)%list_elem_of_split.
  destruct (abs_taken g id b (taken_buf b d o e is_async) tf ta
    (if is_async then u64 (free_async_space g - u64 (size + SIZEOF_BINDER_BUFFER)) else free_async_space g)
    l1 l2) as [A1 A2]; try apply Hst; try done.
  assert (ud (store s) id + size = bend s id) as Hend by (unfold bsize in Hsz; lia).
  split; try done.
  - by apply (taken_wf s g id b size ps ps'); try done; try lia.
  - exists b. split; [done|]. split; [done|]. simpl. by rewrite lookup_insert_eq.
  - exists (map (piece g) l1), (map (piece g) l2). split; [exact A1|].
    rewrite (proj2 (Z.eqb_eq _ _)), Hend by done. exact A2.
  - exists ps, ps'. destruct Hpa as [Hps _]. done.
  - intros j Hj Hne. simpl. by rewrite lookup_insert_ne.
Qed.

Lemma finish_split n f1 f2 : bsize s id <> size -> store s !! n = None ->
  rb_inorder (free_buffers s) = f1 ++ id :: f2 -> (forall y, y ∈ f1 -> bsize s y < size) ->
  exists s1 s', split_buffer id (Some n) (bsize s id) size g = Some (true, s1) /\
    take_buffer id d o e size is_async s1 = Some (inl id, s') /\
    alloc_post s s' id d o e size is_async.
Proof.
  intros Hne Hn Hio Hlow. destruct finish_id as [Hid Hfid]. pose proof (wf_tiling _ Hwf) as Ht.
  unfold SIZEOF_PTR in *. assert (Htg : tiling g) by by apply (tiling_ext s).
  destruct (split_buffer_ok g id n b size f1 f2) as (t & Es & Ht1 & Htr1); try done;
    [split; [apply (wf_free _ Hwf)|apply (wf_allocated _ Hwf)]|change (size < bsize s id); lia|].
  set (s1 := split_state id n b size t g) in *.
  pose proof Hid as (l1 & l2 & E)%list_elem_of_split.
  pose proof (split_cut g id n b size t l1 l2 Htg E Hb Hn ltac:(change (bsize g id) with (bsize s id); lia)) as C.
  fold s1 in C.
  pose proof (staged_split s id n b size t ps' h Hwf Hb Hfree Hn ltac:(lia) Ht1 Htr1) as Hst.
  fold g s1 in Hst. destruct (cut_ids _ _ _ _ _ _ _ C) as (I1 & I2 & I3 & I4 & I5 & _).
  assert (Hb1 : store s1 !! id = Some b) by (rewrite (cut_store _ _ _ _ _ _ _ C) by done; exact Hb).
  destruct (take_buffer_ok s1 id b d o e size is_async) as (tf & ta & Et & Ht' & Htr'); try apply Hst; try done.
  exists s1. eexists. split; [exact Es|]. split; [exact Et|].
  destruct (abs_taken s1 id b (taken_buf b d o e is_async) tf ta
    (if is_async then u64 (free_async_space s1 - u64 (size + SIZEOF_BINDER_BUFFER)) else free_async_space s1)
    l1 (n :: l2) Ht1 Hb1 Hfree eq_refl eq_refl (cut_new _ _ _ _ _ _ _ C)) as [_ A2].
  destruct (cut_pieces _ _ _ _ _ _ _ C) as [P1 P2]. unfold abs in P2.
  rewrite (cut_new _ _ _ _ _ _ _ C), map_app in P2. apply app_inj_1 in P2 as [Q1 Q2]; [|by rewrite !length_map].
  apply (f_equal (drop 2)) in Q2. cbn [map drop] in Q2. rewrite !drop_0 in Q2.
  assert (Hfn : fr (store s1) n = true) by (unfold fr; simpl; by rewrite lookup_insert_eq).
  split; try done.
  - by apply (taken_wf s s1 id b size ps ps'); try done; try lia.
  - exists b. split; [done|]. split; [done|]. simpl. by rewrite lookup_insert_eq.
  - exists (map (piece g) l1), (map (piece g) l2). split.
    + rewrite <- Hfid. exact P1.
    + rewrite (proj2 (Z.eqb_neq _ _)) by done. rewrite A2, Q1. cbn [map app]. rewrite Q2.
      rewrite (cut_bend_id _ _ _ _ _ _ _ C), (cut_ud _ _ _ _ _ _ _ C) by done.
      assert (Pn : piece s1 n = (ud (store s) id + size, bend s id, true)); [|by rewrite Pn].
      unfold piece. rewrite (cut_at _ _ _ _ _ _ _ C), (cut_bend_n _ _ _ _ _ _ _ C), Hfn. done.
  - exists ps, ps'. destruct Hpa as [Hps _]. done.
  - intros j Hj Hnej. simpl. rewrite lookup_insert_ne by done.
    apply lookup_insert_ne. intros <-. apply (ti_store _ Ht) in Hj as [? ?]. congruence.
Qed.
End finish.

Lemma totals_total s l t : tiling s -> (forall i, i ∈ l -> i ∈ buffers s) ->
  exists r, totals_loop l t s = Some (r, s).
Proof.
  intros Ht. revert t. induction l as [|x l IH]; intros t Hl; [by eexists|]. simpl.
  erewrite bind_eq by (apply buffer_size_eq; [done|]; apply Hl; by left).
  apply IH. intros i Hi. apply Hl. by right.
Qed.

Lemma page_min (s : binder_alloc) (x y : nat) :
  (if page_addr s y <? page_addr s x then page_addr s y else page_addr s x) = page_addr s (Nat.min x y).
Proof. rewrite (page_addr_max s). by destruct (_ <? _). Qed.

Lemma request_size_pos d o e size : is_u64 d -> is_u64 o -> is_u64 e ->
  request_size d o e = Some size -> 0 <= size < two64 - 7 /\ size mod 8 = 0.
Proof.
  intros Hd Ho He. rewrite request_size_ok by done. case_if; [|done]. intros [= <-]. zbool.
  destruct (up8_spec d) as [D1 D2], (up8_spec o) as [O1 O2], (up8_spec e) as [E1 E2].
  unfold is_u64 in *.
  assert (Hm : (up8 d + up8 o + up8 e) mod 8 = 0).
  { rewrite Z.add_mod, E1, (Z.add_mod (up8 d)), D1, O1 by done. done. }
  split; [|done]. split; [lia|]. apply Z.mod_divide in Hm as [k Hk]; [|done]. unfold two64 in *. lia.
Qed.

Definition new_buf_post (E : page_env) (s : binder_alloc) (ns : option nat) (d o e : Z)
    (is_async : bool) (r : nat + Z) (s' : binder_alloc) : Prop :=
  match r with
  | inl id => vma s <> None /\ exists size, request_size d o e = Some size /\
      alloc_post s s' id d o e (Z.max size SIZEOF_PTR) is_async
  | inr err => pages_only s s' /\ alloc_error E s ns d o e is_async err
  end.

(** From the chosen buffer on. *)
Lemma new_buf_fit_ok E s ns d o e is_async size0 size id exact f1 f2 :
  wf s -> (forall n, ns = Some n -> store s !! n = None) ->
  is_u64 d -> is_u64 o -> is_u64 e -> request_size d o e = Some size0 ->
  size = Z.max size0 SIZEOF_PTR -> vma s <> None ->
  rb_inorder (free_buffers s) = f1 ++ id :: f2 -> exact = (bsize s id =? size) ->
  size <= bsize s id -> (exact = false -> forall y, y ∈ f1 -> bsize s y < size) ->
  (forall y, y ∈ rb_inorder (free_buffers s) -> size <= bsize s y -> bsize s id <= bsize s y) ->
  exists r s',
    (let! b := buf_at id in
     let! bsize := binder_alloc_buffer_size id in
     let has_page_addr := Z.land (u64 (user_data b + bsize)) PAGE_MASK in
     warn_on (exact && negb (bsize =? size)) ;!
     let end_page_addr := PAGE_ALIGN (u64 (user_data b + size)) in
     let end_page_addr := if has_page_addr <? end_page_addr then has_page_addr
                          else end_page_addr in
     let! r := binder_update_page_range E true (PAGE_ALIGN (user_data b)) end_page_addr in
     if negb (r =? 0) then ret (inr r)
     else
       let! split := split_buffer id ns bsize size in
       if negb split then
         binder_update_page_range E false (PAGE_ALIGN (user_data b)) end_page_addr ;!
         ret (inr (- ENOMEM))
       else take_buffer id d o e size is_async) s = Some (r, s') /\
    new_buf_post E s ns d o e is_async r s'.
Proof.
  intros Hwf Hns Hd Ho He Hreq Hsize Hvma Hio Hex Hle Hlow Hmin.
  destruct (request_size_pos d o e size0 Hd Ho He Hreq) as [Hs0 Hs8]. unfold SIZEOF_PTR in *.
  assert (Hm : size mod 8 = 0) by (subst size; destruct (Z.max_spec size0 8) as [[_ ->]|[_ ->]]; done).
  pose proof (wf_tiling _ Hwf) as Ht. pose proof (wf_free _ Hwf) as (F1 & F2 & F3).
  assert (Hin : id ∈ rb_inorder (free_buffers s)) by (rewrite Hio; apply elem_of_app; right; by left).
  apply F2 in Hin as [Hid Hfid]. destruct (tiling_get s id Ht Hid) as [b Hb].
  rewrite (fr_eq s id b Hb) in Hfid. destruct (tiling_bounds s id Ht Hid) as (B1 & B2 & B3 & _).
  erewrite bind_eq by by apply buf_at_eq. erewrite bind_eq by by apply buffer_size_eq.
  cbv zeta. rewrite <- (ud_eq s id b Hb).
  assert (Hend : ud (store s) id + bsize s id = bend s id) by (unfold bsize; lia).
  rewrite Hend, !(u64_small) by (apply (addr_small s Ht); lia).
  erewrite (bind_eq (warn_on _) _ s tt s); [|unfold warn_on, modify; rewrite Hex; by destruct (_ =? _)].
  rewrite (mask_dn s Ht), !(align_up s Ht), page_min by lia.
  destruct (wf_pages _ Hwf) as (ps & Hpa). pose proof (page_array_paged s Ht ps Hpa) as Hpg.
  pose proof Hpa as (Hps & HL & _).
  set (i := pg_up s (ud (store s) id)). set (j := Nat.min (pg_up s (ud (store s) id + size)) (pg_dn s (bend s id))).
  assert (Hj : (j <= length ps)%nat).
  { unfold j. pose proof (dn_le s (bend s id) ps ltac:(lia) HL). lia. }
  destruct (update_alloc_ok E s ps i j Hpg Hj) as (r & ps' & h & Eu & Hg & Hpr & Hr & Hco).
  erewrite bind_eq by exact Eu. set (g := set_pages (Some ps') h s).
  assert (Hpo : pages_only s g) by (by exists ps, ps', h).
  destruct (Z.eqb_spec r 0) as [->|Hrne]; cbn [negb].
  2:{ exists (inr r), g. split; [done|]. split; [done|].
      assert (~ helpful E s ns) by (intros (H1 & H2 & H3 & H4 & H5); by specialize (Hco H1 H2 H3 H4)).
      destruct Hr as [?|[->| ->]]; [done|by left|by right; right; right]. }
  specialize (Hpr eq_refl). assert (Hb8 : 8 <= size) by lia.
  assert (Hreq' : request_size d o e = Some size \/ request_size d o e = Some 0 /\ size = 8).
  { destruct (decide (size0 = 0)) as [->|]; [right; split; [done|lia]|left; rewrite Hreq; f_equal].
    apply Z.mod_divide in Hs8 as [k Hk]; lia. }
  assert (Hbest : forall j, j ∈ buffers s -> fr (store s) j = true -> size <= bsize s j -> bsize s id <= bsize s j).
  { intros y Hy Hfy. apply Hmin. by apply F2. }
  destruct (Z.eqb_spec (bsize s id) size) as [Heq|Hne].
  - destruct (finish_whole s id b d o e size is_async ps ps' h) as (s' & Et & Hpost); try done.
    unfold split_buffer at 1. erewrite (bind_eq _ _ g true g).
    2:{ erewrite bind_eq by by apply (buf_at_eq g id b). by rewrite (proj2 (Z.eqb_eq _ _)). }
    exists (inl id), s'. split; [exact Et|]. split; [done|]. exists size0. split; [done|]. by rewrite Hsize in *.
  - destruct ns as [n|].
    + destruct (finish_split s id b d o e size is_async ps ps' h) with (n := n) (f1 := f1) (f2 := f2)
        as (s1 & s' & Es & Et & Hpost); try done; [by apply Hns|by apply Hlow|].
      erewrite bind_eq by exact Es. exists (inl id), s'. split; [exact Et|]. split; [done|].
      exists size0. split; [done|]. by rewrite Hsize in *.
    + erewrite (bind_eq _ _ g false g).
      2:{ unfold split_buffer. erewrite bind_eq by by apply (buf_at_eq g id b).
          by rewrite (proj2 (Z.eqb_neq _ _)). }
      cbn [negb]. cbv iota.
      destruct (update_free_ok E g ps' i j) as [r' Ef].
      { by apply (paged_set s ps), Hg. }
      { by rewrite (proj1 Hg). }
      change (page_addr g) with (page_addr s) in Ef. erewrite bind_eq by exact Ef.
      exists (inr (- ENOMEM)), g. split; [done|]. split; [done|]. right; right; right.
      split; [done|]. by intros (_ & _ & _ & _ & ?).
Qed.

Lemma new_buf_ok E s ns d o e is_async :
  wf s -> (forall n, ns = Some n -> store s !! n = None) -> is_u64 d -> is_u64 o -> is_u64 e ->
  exists r s', binder_alloc_new_buf E ns d o e is_async s = Some (r, s') /\
    new_buf_post E s ns d o e is_async r s'.
Proof.
  intros Hwf Hns Hd Ho He. pose proof (pages_only_refl s Hwf) as Hpo.
  unfold binder_alloc_new_buf, binder_alloc_new_buf_locked. erewrite bind_eq by reflexivity.
  case_bool_decide as Hvma.
  { exists (inr (- ESRCH)), s. split; [done|]. split; [done|]. left. split; [done|].
    by intros (_ & _ & ? & _). }
  destruct (request_size d o e) as [size0|] eqn:Hreq.
  2:{ exists (inr (- EINVAL)), s. split; [done|]. split; [done|]. right; left. done. }
  erewrite bind_eq by reflexivity.
  destruct (is_async && (free_async_space s <? u64 (size0 + SIZEOF_BINDER_BUFFER))) eqn:Has.
  { exists (inr (- ENOSPC)), s. split; [done|]. split; [done|]. right; right; left. split; [done|].
    exists size0. split; [done|]. left. zbool. split; [done|].
    destruct (request_size_pos d o e size0 Hd Ho He Hreq) as [Hs0 _].
    assert (u64 (size0 + SIZEOF_BINDER_BUFFER) <= size0 + SIZEOF_BINDER_BUFFER).
    { unfold u64. apply Z.mod_le; [unfold SIZEOF_BINDER_BUFFER; lia|done]. } lia. }
  cbv zeta. pose proof (wf_tiling _ Hwf) as Ht. pose proof (wf_free _ Hwf) as (F1 & F2 & F3).
  destruct (best_fit_spec s (Z.max size0 SIZEOF_PTR) Ht (free_buffers s) None F3) as ([[id|] exact] & Ef & Hp);
    [intros i Hi; by apply F2| |]; erewrite bind_eq by exact Ef; cbn [fst snd].
  - destruct Hp as [(l1 & l2 & Hio & Hex & Hle & Hlow & Hmin)|(_ & [=] & _)].
    by eapply new_buf_fit_ok.
  - destruct Hp as (_ & _ & Hall).
    destruct (totals_total s (rb_inorder (allocated_buffers s)) (Totals 0 0 0) Ht) as [r1 E1].
    { intros i Hi. by apply (wf_allocated _ Hwf) in Hi as [? _]. }
    destruct (totals_total s (rb_inorder (free_buffers s)) (Totals 0 0 0) Ht) as [r2 E2].
    { intros i Hi. by apply F2 in Hi as [? _]. }
    erewrite bind_eq by exact E1. erewrite bind_eq by exact E2.
    exists (inr (- ENOSPC)), s. split; [done|]. split; [done|]. right; right; left. split; [done|].
    exists size0. split; [done|]. right. intros j Hj Hfj. apply Hall. by apply F2.
Qed.
End ops.
