(* ===== verification/BinderAllocFree.v ===== *)
(** * The binder buffer allocator: freeing a buffer

    [binder_free_buf_locked] merges the freed piece with its free neighbours
    through [binder_delete_free_buffer].  [loose] is the invariant between its
    steps: one free buffer is in neither tree. *)

From Stdlib Require Import ZArith Lia.
From stdpp Require Import base option gmap sets sorting list.
From S2P Require Import Prelude RbTree BinderAlloc BinderAllocFacts BinderAllocInv.

(** Merging is cutting read backwards. *)
Definition merge_state (n : nat) (s : binder_alloc) : binder_alloc :=
  set_store (delete n (store s)) (set_buffers (list_del n (buffers s)) s).

Lemma merge_cut s id n l1 l2 : tiling s -> buffers s = l1 ++ id :: n :: l2 ->
  cut (merge_state n s) s id n (bsize s id) l1 l2.
Proof.
  intros Ht E. pose proof (ti_nodup _ Ht) as Hnd. rewrite E in Hnd.
  assert (E' : buffers s = (l1 ++ [id]) ++ n :: l2) by by rewrite <- app_assoc.
  pose proof Hnd as Hnd'. replace (l1 ++ id :: n :: l2) with ((l1 ++ [id]) ++ n :: l2) in Hnd' by by rewrite <- app_assoc.
  destruct (nodup_mid _ _ _ Hnd) as [H1 H2]. apply not_elem_of_cons in H2 as [H2 _].
  assert (Hn : n ∈ buffers s) by (rewrite E'; apply elem_of_app; right; by left).
  split; try done; simpl.
  - by rewrite E', list_del_split, <- app_assoc.
  - apply lookup_delete_eq.
  - intros i Hi. by rewrite lookup_delete_ne.
  - by apply (ti_store _ Ht).
  - unfold ud at 2. simpl. rewrite lookup_delete_ne by done. fold (ud (store s) id).
    unfold bsize, bend. rewrite E, nxt_here by done. simpl. lia.
Qed.

Section delete.
Context (E : page_env).

Lemma mask_start s id : tiling s -> id ∈ buffers s ->
  (pg_dn s (ud (store s) id) < Z.to_nat (buffer_size s / PAGE_SIZE))%nat.
Proof.
  intros Ht Hid. destruct (tiling_bounds s id Ht Hid) as (B1 & B2 & B3 & _).
  destruct (ti_size _ Ht) as [[? _] Hm]. unfold pg_dn, bsize, fin, PAGE_SIZE in *.
  apply Z.mod_divide in Hm as [k Hk]; [|lia]. rewrite Hk, Z.div_mul by lia.
  assert ((ud (store s) id - buffer s) / 4096 < k) by (apply Z.div_lt_upper_bound; lia).
  assert (0 <= (ud (store s) id - buffer s) / 4096) by (apply Z.div_pos; lia). lia.
Qed.

(** Deleting a free buffer whose predecessor is free: the structure goes,
    nothing happens to the pages. *)
Lemma delete_free_buffer_ok s p n l1 l2 ps :
  tiling s -> paged s ps -> Z.of_nat (length ps) = buffer_size s / PAGE_SIZE ->
  buffers s = l1 ++ p :: n :: l2 -> fr (store s) p = true ->
  binder_delete_free_buffer E n s = Some (tt, merge_state n s).
Proof.
  intros Ht Hpg HL El Hf. pose proof (ti_nodup _ Ht) as Hnd.
  assert (E' : buffers s = (l1 ++ [p]) ++ n :: l2) by by rewrite <- app_assoc.
  assert (Hnd' : NoDup ((l1 ++ [p]) ++ n :: l2)) by by rewrite <- E'.
  destruct (nodup_mid _ _ _ Hnd') as [Hn1p Hn2].
  pose proof Hn1p as [Hn1 [Hnp _]%not_elem_of_cons]%not_elem_of_app.
  assert (Hn : n ∈ buffers s) by (rewrite E'; apply elem_of_app; right; by left).
  assert (Hp : p ∈ buffers s) by (rewrite El; apply elem_of_app; right; by left).
  destruct (tiling_get s n Ht Hn) as [nb Hnb]. destruct (tiling_get s p Ht Hp) as [pb Hpb].
  unfold binder_delete_free_buffer. erewrite bind_eq by reflexivity.
  rewrite E' at 1. rewrite list_is_first_spec, bool_decide_false by (done || by destruct l1).
  erewrite bind_eq by reflexivity.
  erewrite bind_eq by (unfold binder_buffer_prev, bind, get; rewrite El, list_prev_spec by done; reflexivity).
  erewrite bind_eq by by apply buf_at_eq. rewrite (fr_eq s p pb Hpb) in Hf. rewrite Hf.
  erewrite bind_eq by reflexivity. erewrite bind_eq by by apply buf_at_eq.
  cbv zeta. match goal with |- context [bind (if ?c then ret ?x else ?k)] =>
    assert (Hnext : exists y, (if c then ret x else k) s = Some (y, s)) end.
  { destruct (list_is_last n (buffers s)) eqn:Hlast; [by eexists|].
    rewrite E', list_is_last_spec in Hlast by done. apply bool_decide_eq_false in Hlast.
    destruct l2 as [|m l2]; [done|].
    erewrite bind_eq by (unfold binder_buffer_next, bind, get; rewrite E', list_next_spec by done; reflexivity).
    destruct (tiling_get s m Ht) as [mb Hmb]; [rewrite El; apply elem_of_app; right; do 2 right; by left|].
    erewrite bind_eq by by apply buf_at_eq. by eexists. }
  destruct Hnext as [y Ey]. erewrite bind_eq by exact Ey.
  erewrite (bind_eq _ _ s tt s); [reflexivity|]. case_if; [|done].
  unfold buffer_start_page. destruct (tiling_bounds s n Ht Hn) as (B1 & B2 & B3 & _).
  rewrite <- (ud_eq s n nb Hnb). rewrite (mask_dn s Ht) by (unfold bsize in *; lia).
  pose proof (mask_start s n Ht Hn). destruct Hpg as (Hps & Hb & Hlen).
  rewrite page_addr_next by lia.
  destruct (update_free_ok E s ps (pg_dn s (ud (store s) n)) (S (pg_dn s (ud (store s) n)))) as [r Er];
    [done|lia|]. by erewrite bind_eq by exact Er.
Qed.
End delete.

(** Between the steps of freeing [x]: [x] is free and in neither tree. *)
Record loose (x : nat) (s : binder_alloc) : Prop := Loose {
  lo_tiling : tiling s;
  lo_free : tree_of (free_buffers s) (bsize s)
              (fun id => (id ∈ buffers s /\ fr (store s) id = true) /\ id <> x);
  lo_allocated : tree_of (allocated_buffers s) (ud (store s))
                   (fun id => id ∈ buffers s /\ fr (store s) id = false);
  lo_x : x ∈ buffers s /\ fr (store s) x = true
}.

Section free.
Context `{RB : Rbtree} {RBL : RbtreeLaws} (E : page_env).

(** Merging the free successor. *)
Lemma merge_next_ok s x n l1 l2 ps :
  loose x s -> paged s ps -> Z.of_nat (length ps) = buffer_size s / PAGE_SIZE ->
  buffers s = l1 ++ x :: n :: l2 -> fr (store s) n = true ->
  let s' := merge_state n (set_free (rb_erase n (free_buffers s)) s) in
  (modify (fun s => set_free (rb_erase n (free_buffers s)) s) ;!
   binder_delete_free_buffer E n) s = Some (tt, s') /\ loose x s' /\
  cut s' s x n (bsize s x) l1 l2.
Proof.
  intros [Ht Hf Ha [Hx Hfx]] Hpg HL El Hfn s'.
  set (s0 := set_free (rb_erase n (free_buffers s)) s) in *.
  assert (Ht0 : tiling s0) by by apply (tiling_ext s).
  pose proof (merge_cut s0 x n l1 l2 Ht0 El) as C0.
  assert (C : cut s' s x n (bsize s x) l1 l2) by (destruct C0; split; assumption).
  split; [erewrite bind_eq by reflexivity; by apply (delete_free_buffer_ok E s0 x n l1 l2 ps)|].
  split; [|done]. destruct (cut_ids _ _ _ _ _ _ _ C) as (I1 & I2 & I3 & I4 & I5 & _).
  assert (Hn : n ∈ buffers s) by (apply (cut_elem _ _ _ _ _ _ _ C); by right; left).
  assert (Hold : forall i, i <> n -> i ∈ buffers s' <-> i ∈ buffers s).
  { intros i Hi. rewrite (cut_elem _ _ _ _ _ _ _ C), (cut_elem_old _ _ _ _ _ _ _ C). tauto. }
  assert (Hnn : n ∉ buffers s').
  { rewrite (cut_elem_old _ _ _ _ _ _ _ C), elem_of_app. intros [?|[?|?]]; congruence. }
  assert (Hfr : forall i, i <> n -> fr (store s') i = fr (store s) i)
    by (intros i Hi; by rewrite <- (cut_fr _ _ _ _ _ _ _ C)).
  assert (Hbs : forall i, i ∈ buffers s -> i <> n -> i <> x -> bsize s' i = bsize s i).
  { intros i Hi Hin Hix. symmetry. apply (cut_bsize _ _ _ _ _ _ _ C).
    apply (cut_elem _ _ _ _ _ _ _ C) in Hi. tauto. }
  split.
  - by apply (uncut_tiling _ _ _ _ _ _ _ C).
  - eapply tree_of_ext; [apply (tree_erase _ _ _ n Hf); auto| |].
    + intros i. destruct (decide (i = n)) as [->|Hi]; [tauto|]. rewrite Hold, Hfr by done. tauto.
    + intros i [[[Hi _] Hix] Hin]. by apply Hbs.
  - eapply tree_of_ext; [exact Ha| |].
    + intros i. destruct (decide (i = n)) as [->|Hi]; [rewrite Hfn; split; [by intros []|tauto]|].
      by rewrite Hold, Hfr.
    + intros i [_ Hfi]. symmetry. apply (cut_ud _ _ _ _ _ _ _ C). intros ->. congruence.
  - by rewrite Hold, Hfr.
Qed.

(** Merging into the free predecessor [p]. *)
Lemma merge_prev_ok s x p l1 l2 ps :
  loose x s -> paged s ps -> Z.of_nat (length ps) = buffer_size s / PAGE_SIZE ->
  buffers s = l1 ++ p :: x :: l2 -> fr (store s) p = true ->
  let s' := set_free (rb_erase p (free_buffers s)) (merge_state x s) in
  (binder_delete_free_buffer E x ;!
   modify (fun s => set_free (rb_erase p (free_buffers s)) s) ;!
   ret p) s = Some (p, s') /\ loose p s' /\ cut s' s p x (bsize s p) l1 l2.
Proof.
  intros [Ht Hf Ha [Hx Hfx]] Hpg HL El Hfp s'.
  pose proof (merge_cut s p x l1 l2 Ht El) as C0.
  assert (C : cut s' s p x (bsize s p) l1 l2) by (destruct C0; split; assumption).
  split.
  { erewrite bind_eq by by apply (delete_free_buffer_ok E s p x l1 l2 ps). reflexivity. }
  split; [|done]. destruct (cut_ids _ _ _ _ _ _ _ C) as (I1 & I2 & I3 & I4 & I5 & _).
  assert (Hp : p ∈ buffers s) by (apply (cut_elem _ _ _ _ _ _ _ C); by left).
  assert (Hold : forall i, i <> x -> i ∈ buffers s' <-> i ∈ buffers s).
  { intros i Hi. rewrite (cut_elem _ _ _ _ _ _ _ C), (cut_elem_old _ _ _ _ _ _ _ C). tauto. }
  assert (Hnn : x ∉ buffers s').
  { rewrite (cut_elem_old _ _ _ _ _ _ _ C), elem_of_app. intros [?|[?|?]]; congruence. }
  assert (Hfr : forall i, i <> x -> fr (store s') i = fr (store s) i)
    by (intros i Hi; by rewrite <- (cut_fr _ _ _ _ _ _ _ C)).
  split.
  - by apply (uncut_tiling _ _ _ _ _ _ _ C).
  - eapply tree_of_ext; [apply (tree_erase _ _ _ p Hf); auto| |].
    + intros i. destruct (decide (i = x)) as [->|Hi]; [tauto|]. rewrite Hold, Hfr by done. tauto.
    + intros i [[[Hi _] Hix] Hip]. symmetry. apply (cut_bsize _ _ _ _ _ _ _ C).
      apply (cut_elem _ _ _ _ _ _ _ C) in Hi. tauto.
  - eapply tree_of_ext; [exact Ha| |].
    + intros i. destruct (decide (i = x)) as [->|Hi]; [rewrite Hfx; split; [by intros []|tauto]|].
      by rewrite Hold, Hfr.
    + intros i [_ Hfi]. symmetry. apply (cut_ud _ _ _ _ _ _ _ C). intros ->. congruence.
  - by rewrite Hold, Hfr.
Qed.

(** Putting [x] into the free tree. *)
Lemma loose_insert_ok s x : loose x s ->
  exists t, binder_insert_free_buffer x s = Some (tt, set_free t s) /\
    tiling (set_free t s) /\ trees_ok (set_free t s).
Proof.
  intros [Ht Hf Ha [Hx Hfx]]. destruct (tiling_get s x Ht Hx) as [b Hb].
  destruct (insert_free_ok s x b (fun id => (id ∈ buffers s /\ fr (store s) id = true) /\ id <> x) Ht Hx Hb)
    as (t & Ei & Htr); [by rewrite <- (fr_eq s x b)|exact Hf|tauto|tauto|].
  exists t. split; [done|]. split; [by apply (tiling_ext s)|]. split; [|exact Ha].
  eapply tree_of_ext; [exact Htr| |done]. intros i. simpl.
  destruct (decide (i = x)) as [->|]; tauto.
Qed.

(** While [x] is being freed: the list is [A], [x], [B]; every other buffer
    is as it was in [s]. *)
Record mid (s s' : binder_alloc) (x : nat) (A B : list nat) : Prop := Mid {
  md_loose : loose x s';
  md_buffers : buffers s' = A ++ x :: B;
  md_same j : j ∈ A ++ B -> j ∈ buffers s /\ store s' !! j = store s !! j /\ bend s' j = bend s j;
  md_x : exists b, store s' !! x = Some b /\ free b = true /\ transaction b = None;
  md_space : buffer s' = buffer s /\ buffer_size s' = buffer_size s;
  md_pages : pages s' = pages s
}.

Lemma mid_paged s s' x A B ps : mid s s' x A B -> paged s ps ->
  Z.of_nat (length ps) = buffer_size s / PAGE_SIZE ->
  paged s' ps /\ Z.of_nat (length ps) = buffer_size s' / PAGE_SIZE.
Proof.
  intros M (H1 & H2 & H3) HL. destruct (md_space _ _ _ _ _ M) as [EB ES].
  unfold paged. rewrite (md_pages _ _ _ _ _ M), EB, ES. done.
Qed.

Lemma mid_fr s s' x A B j : mid s s' x A B -> j ∈ A ++ B -> fr (store s') j = fr (store s) j.
Proof.
  intros M Hj. destruct (md_same _ _ _ _ _ M j Hj) as (_ & E1 & _).
  by apply ud_of_lookup.
Qed.

Lemma mid_next s s' x A n B ps : mid s s' x A (n :: B) -> paged s ps ->
  Z.of_nat (length ps) = buffer_size s / PAGE_SIZE -> fr (store s) n = true ->
  exists s'', (modify (fun s => set_free (rb_erase n (free_buffers s)) s) ;!
    binder_delete_free_buffer E n) s' = Some (tt, s'') /\ mid s s'' x A B /\
    ud (store s'') x = ud (store s') x /\ bend s'' x = bend s n /\
    free_async_space s'' = free_async_space s' /\ warnings s'' = warnings s' /\
    vma s'' = vma s' /\ vma_vm_mm s'' = vma_vm_mm s' /\ mm_count s'' = mm_count s' /\
    allocated_buffers s'' = allocated_buffers s'.
Proof.
  intros M Hpg HL Hfn. destruct (mid_paged _ _ _ _ _ _ M Hpg HL) as [Hpg' HL'].
  assert (Hn : n ∈ A ++ n :: B) by (apply elem_of_app; right; by left).
  destruct (md_same _ _ _ _ _ M n Hn) as (_ & _ & Hbn).
  destruct (merge_next_ok s' x n A B ps (md_loose _ _ _ _ _ M) Hpg' HL' (md_buffers _ _ _ _ _ M))
    as (Er & Hlo & C); [by rewrite (mid_fr _ _ _ _ _ n M)|].
  eexists. split; [exact Er|]. destruct (cut_ids _ _ _ _ _ _ _ C) as (I1 & I2 & I3 & I4 & I5 & _).
  split; [split; try done|].
  - apply C.
  - intros j Hj. assert (Hjn : j <> n) by (intros ->; by apply elem_of_app in Hj as [?|?]).
    destruct (md_same _ _ _ _ _ M j) as (H1 & H2 & H3).
    { apply elem_of_app in Hj as [?|?]; apply elem_of_app; [by left|right; by right]. }
    split; [done|]. split.
    + rewrite <- H2. symmetry. by apply (cut_store _ _ _ _ _ _ _ C).
    + rewrite <- H3. symmetry. by apply (cut_bend _ _ _ _ _ _ _ C).
  - destruct (md_x _ _ _ _ _ M) as (b & Hb & ?). exists b.
    split; [|done]. rewrite <- Hb. symmetry. by apply (cut_store _ _ _ _ _ _ _ C).
  - apply (md_space _ _ _ _ _ M).
  - apply (md_pages _ _ _ _ _ M).
  - split; [symmetry; by apply (cut_ud _ _ _ _ _ _ _ C)|].
    split; [by rewrite <- Hbn, (cut_bend_n _ _ _ _ _ _ _ C)|]. done.
Qed.

Lemma mid_prev s s' x A p B ps : mid s s' x (A ++ [p]) B -> paged s ps ->
  Z.of_nat (length ps) = buffer_size s / PAGE_SIZE -> wf s -> fr (store s) p = true ->
  exists s'', (binder_delete_free_buffer E x ;!
    modify (fun s => set_free (rb_erase p (free_buffers s)) s) ;! ret p) s' = Some (p, s'') /\
    mid s s'' p A B /\ ud (store s'') p = ud (store s) p /\ bend s'' p = bend s' x /\
    free_async_space s'' = free_async_space s' /\ warnings s'' = warnings s' /\
    vma s'' = vma s' /\ vma_vm_mm s'' = vma_vm_mm s' /\ mm_count s'' = mm_count s' /\
    allocated_buffers s'' = allocated_buffers s'.
Proof.
  intros M Hpg HL Hwf Hfp. destruct (mid_paged _ _ _ _ _ _ M Hpg HL) as [Hpg' HL'].
  assert (Hp : p ∈ (A ++ [p]) ++ B) by (rewrite !elem_of_app, list_elem_of_singleton; auto).
  destruct (md_same _ _ _ _ _ M p Hp) as (Hps & Hsp & Hbp).
  destruct (merge_prev_ok s' x p A B ps (md_loose _ _ _ _ _ M) Hpg' HL') as (Er & Hlo & C);
    [by rewrite (md_buffers _ _ _ _ _ M), <- app_assoc|by rewrite (mid_fr _ _ _ _ _ p M)|].
  eexists. split; [exact Er|]. destruct (cut_ids _ _ _ _ _ _ _ C) as (I1 & I2 & I3 & I4 & I5 & _).
  split; [split; try done|].
  - apply C.
  - intros j Hj. assert (Hjn : j <> x) by (intros ->; by apply elem_of_app in Hj as [?|?]).
    destruct (md_same _ _ _ _ _ M j) as (H1 & H2 & H3).
    { rewrite !elem_of_app. apply elem_of_app in Hj. tauto. }
    split; [done|]. split.
    + rewrite <- H2. symmetry. by apply (cut_store _ _ _ _ _ _ _ C).
    + rewrite <- H3. symmetry. by apply (cut_bend _ _ _ _ _ _ _ C).
  - destruct (tiling_get s p (wf_tiling _ Hwf) Hps) as [pb Hpb]. exists pb.
    rewrite (fr_eq s p pb Hpb) in Hfp. split; [|split; [done|by eapply wf_idle]].
    rewrite <- Hpb, <- Hsp. symmetry. by apply (cut_store _ _ _ _ _ _ _ C).
  - apply (md_space _ _ _ _ _ M).
  - apply (md_pages _ _ _ _ _ M).
  - split; [|split; [by rewrite (cut_bend_n _ _ _ _ _ _ _ C)|done]].
    rewrite <- (cut_ud _ _ _ _ _ _ _ C) by done. by apply ud_of_lookup.
Qed.

(** When nothing is left to merge, putting [x] into its tree restores the
    invariant. *)
Lemma mid_wf s s' x A B t ps :
  mid s s' x A B -> wf s -> page_array s ps ->
  coalesced (fr (store s)) A -> coalesced (fr (store s)) B ->
  (forall y, last A = Some y -> fr (store s) y = false) ->
  (forall y, head B = Some y -> fr (store s) y = false) ->
  tiling (set_free t s') -> trees_ok (set_free t s') -> wf (set_free t s').
Proof.
  intros M Hwf Hpa HcA HcB HlA HhB Ht' [Hf' Ha']. split; try done.
  - simpl. rewrite (md_buffers _ _ _ _ _ M).
    assert (HA : coalesced (fr (store s')) A).
    { eapply coalesced_ext; [|exact HcA]. intros i Hi. apply (mid_fr _ _ _ _ _ i M), elem_of_app. by left. }
    assert (HB : coalesced (fr (store s')) (x :: B)).
    { split; [|eapply coalesced_ext; [|exact HcB]; intros i Hi; apply (mid_fr _ _ _ _ _ i M), elem_of_app; by right].
      destruct B as [|y B]; [done|]. rewrite (mid_fr _ _ _ _ _ y M) by (apply elem_of_app; right; by left).
      by rewrite (HhB y), andb_false_r. }
    destruct A as [|y A _] using rev_ind; [done|]. rewrite <- app_assoc.
    assert (Hy : fr (store s') y = false).
    { rewrite (mid_fr _ _ _ _ _ y M) by (rewrite !elem_of_app, list_elem_of_singleton; auto).
      apply HlA. by rewrite last_snoc. }
    apply coalesced_cut; [done|]. split; [by eapply coalesced_app_l|done].
  - exists ps. destruct Hpa as (Hps & HL & Hfull & Hcov). destruct (md_space _ _ _ _ _ M) as [EB ES].
    split; [simpl; by rewrite (md_pages _ _ _ _ _ M)|]. split; [simpl; by rewrite ES|]. split; [done|].
    intros j k Hj Hfj Hk1 Hk2. simpl in *. rewrite (md_buffers _ _ _ _ _ M) in Hj.
    unfold page_addr in *. simpl in *. rewrite EB in *.
    assert (Hj' : j ∈ A ++ B).
    { apply elem_of_app in Hj as [?|[->|?]%elem_of_cons]; [apply elem_of_app; by left| |apply elem_of_app; by right].
      destruct (md_x _ _ _ _ _ M) as (b & Hb & Hbf & _). rewrite (fr_eq s' x b) in Hfj by done. congruence. }
    destruct (md_same _ _ _ _ _ M j Hj') as (Hjs & Ej & Hbj). destruct (ud_of_lookup _ _ _ Ej) as [E1 E2].
    apply (Hcov j); [done|congruence|by rewrite <- E1|]. rewrite <- Hbj. exact Hk2.
  - intros j bj Hbj Hfj. simpl in Hbj.
    assert (Hj : j ∈ A ++ x :: B) by (rewrite <- (md_buffers _ _ _ _ _ M); apply (ti_store _ Ht'); by eexists).
    assert (Hj' : j ∈ A ++ B).
    { apply elem_of_app in Hj as [?|[->|?]%elem_of_cons]; [apply elem_of_app; by left| |apply elem_of_app; by right].
      destruct (md_x _ _ _ _ _ M) as (b & Hb & Hbf & _). congruence. }
    destruct (md_same _ _ _ _ _ M j Hj') as (Hjs & Ej & Hbj'). destruct (ud_of_lookup _ _ _ Ej) as [E1 _].
    unfold bsize. change (bend (set_free t s') j) with (bend s' j). simpl. rewrite Hbj', E1.
    apply (wf_sizes _ Hwf); congruence.
  - intros j bj Hbj Hfj. simpl in Hbj.
    assert (Hj : j ∈ A ++ x :: B) by (rewrite <- (md_buffers _ _ _ _ _ M); apply (ti_store _ Ht'); by eexists).
    destruct (decide (j = x)) as [->|Hne].
    + destruct (md_x _ _ _ _ _ M) as (b & Hb & _ & Htr). congruence.
    + assert (Hj' : j ∈ A ++ B) by (rewrite elem_of_app, elem_of_cons in Hj; rewrite elem_of_app; tauto).
      destruct (md_same _ _ _ _ _ M j Hj') as (_ & Ej & _). apply (wf_idle _ Hwf j); congruence.
Qed.

(** The abstract effect: the piece becomes free and absorbs the free pieces
    next to it. *)
Definition absorb_next (en : Z) (PB : list (Z * Z * bool)) : Z * list (Z * Z * bool) :=
  match PB with (_, en2, true) :: PB' => (en2, PB') | _ => (en, PB) end.
Definition absorb_prev (st : Z) (PA : list (Z * Z * bool)) : Z * list (Z * Z * bool) :=
  match last PA with Some (st0, _, true) => (st0, take (length PA - 1) PA) | _ => (st, PA) end.
Definition spec_free (PA : list (Z * Z * bool)) (st en : Z) (PB : list (Z * Z * bool))
    : list (Z * Z * bool) :=
  let '(en', PB') := absorb_next en PB in
  let '(st', PA') := absorb_prev st PA in
  PA' ++ (st', en', true) :: PB'.

Definition async_back (b : binder_buffer) (s : binder_alloc) : Z :=
  if async_transaction b then
    let size := u64 (u64 (ALIGN (data_size b) SIZEOF_PTR + ALIGN (offsets_size b) SIZEOF_PTR)
                     + ALIGN (extra_buffers_size b) SIZEOF_PTR) in
    u64 (free_async_space s + u64 (size + SIZEOF_BINDER_BUFFER))
  else free_async_space s.

Record free_post (s s' : binder_alloc) (id : nat) (b : binder_buffer) : Prop := FreePost {
  fp_wf : wf s';
  fp_abs : exists PA PB, abs s = PA ++ (ud (store s) id, bend s id, false) :: PB /\
    abs s' = spec_free PA (ud (store s) id) (bend s id) PB;
  fp_async : free_async_space s' = async_back b s;
  fp_pages : pages s' = pages s;
  fp_space : buffer s' = buffer s /\ buffer_size s' = buffer_size s /\ vma s' = vma s /\
    vma_vm_mm s' = vma_vm_mm s /\ warnings s' = warnings s /\ mm_count s' = mm_count s;
  fp_allocated : allocated_buffers s' = rb_erase id (allocated_buffers s);
  fp_others j bj : j <> id -> store s !! j = Some bj -> free bj = false -> store s' !! j = Some bj
}.

(** The state after the buffer has been unlinked from the allocated tree. *)
Definition unlinked_state (id : nat) (b : binder_buffer) (s : binder_alloc) : binder_alloc :=
  set_store (<[id := set_buf_free b]> (store s))
    (set_allocated (rb_erase id (allocated_buffers s)) (set_async (async_back b s) s)).

Lemma mid_start s id b l1 l2 : wf s -> store s !! id = Some b -> free b = false ->
  transaction b = None -> buffers s = l1 ++ id :: l2 -> mid s (unlinked_state id b s) id l1 l2.
Proof.
  intros Hwf Hb Hfree Htr El. pose proof (wf_tiling _ Hwf) as Ht.
  pose proof (ti_nodup _ Ht) as Hnd. rewrite El in Hnd. destruct (nodup_mid _ _ _ Hnd) as [H1 H2].
  set (s2 := unlinked_state id b s).
  assert (Ht2 : tiling s2 /\ forall i, bend s2 i = bend s i).
  { destruct (tiling_taken s id b (set_buf_free b) (free_buffers s) (rb_erase id (allocated_buffers s))
      (async_back b s) Ht Hb eq_refl) as [T1 T2]. done. }
  destruct Ht2 as [Ht2 Hbend].
  assert (Hud : forall i, ud (store s2) i = ud (store s) i) by (intros i; by apply (ud_insert_same _ _ b)).
  assert (Hfr : forall i, fr (store s2) i = if decide (i = id) then true else fr (store s) i)
    by (intros i; apply fr_insert).
  assert (Hid : id ∈ buffers s) by (rewrite El; apply elem_of_app; right; by left).
  assert (Hfid : fr (store s) id = false) by by rewrite (fr_eq s id b).
  split; try done.
  - split; [done| | |].
    + eapply tree_of_ext; [apply (wf_free _ Hwf)| |].
      * intros i. rewrite Hfr. case_decide; [subst; rewrite Hfid; split; [by intros []|tauto]|tauto].
      * intros i _. unfold bsize. by rewrite Hbend, Hud.
    + eapply tree_of_ext; [apply (tree_erase _ _ _ id (wf_allocated _ Hwf)); done| |intros i _; apply Hud].
      intros i. rewrite Hfr. case_decide; [subst; split; [by intros []|by intros []]|tauto].
    + rewrite Hfr. by rewrite decide_True.
  - intros j Hj. assert (j <> id) by (intros ->; by apply elem_of_app in Hj as [?|?]).
    split; [rewrite El, elem_of_app, elem_of_cons; apply elem_of_app in Hj; tauto|].
    split; [simpl; by rewrite lookup_insert_ne|done].
  - eexists. simpl. rewrite lookup_insert_eq. done.
Qed.

Lemma mid_pieces s s' x A B : mid s s' x A B ->
  abs s' = map (piece s) A ++ (ud (store s') x, bend s' x, true) :: map (piece s) B.
Proof.
  intros M. unfold abs. rewrite (md_buffers _ _ _ _ _ M), map_app. simpl.
  assert (Hs : forall l : list nat, (forall i, i ∈ l -> i ∈ A ++ B) -> map (piece s') l = map (piece s) l).
  { intros l Hl. apply map_ext_in. intros i Hi%list_elem_of_In%Hl.
    destruct (md_same _ _ _ _ _ M i Hi) as (_ & Ei & Eb). destruct (ud_of_lookup _ _ _ Ei) as [E1 E2].
    unfold piece. congruence. }
  rewrite !Hs by (intros i Hi; apply elem_of_app; auto). f_equal. f_equal.
  unfold piece. f_equal. by apply (lo_x _ _ (md_loose _ _ _ _ _ M)).
Qed.

Definition same_rest (s s' : binder_alloc) : Prop :=
  free_async_space s' = free_async_space s /\ warnings s' = warnings s /\
  vma s' = vma s /\ vma_vm_mm s' = vma_vm_mm s /\ mm_count s' = mm_count s /\
  allocated_buffers s' = allocated_buffers s.

Lemma same_rest_trans s1 s2 s3 : same_rest s1 s2 -> same_rest s2 s3 -> same_rest s1 s3.
Proof. intros (? & ? & ? & ? & ? & ?) (? & ? & ? & ? & ? & ?). repeat split; congruence. Qed.

Section phases.
Context (s : binder_alloc) (id : nat) (ps : list binder_lru_page).
Context (Hwf : wf s) (Hpg : paged s ps) (HL : Z.of_nat (length ps) = buffer_size s / PAGE_SIZE).

Lemma phase_next s2 l1 l2 : mid s s2 id l1 l2 -> coalesced (fr (store s)) l2 ->
  ud (store s2) id = ud (store s) id -> bend s2 id = bend s id ->
  exists s3 B,
    (if list_is_last id (buffers s2) then ret tt
     else let! next := binder_buffer_next id in
          let! nb := buf_at next in
          if free nb then
            modify (fun s => set_free (rb_erase next (free_buffers s)) s) ;!
            binder_delete_free_buffer E next
          else ret tt) s2 = Some (tt, s3) /\ mid s s3 id l1 B /\ coalesced (fr (store s)) B /\
    (forall y, head B = Some y -> fr (store s) y = false) /\
    absorb_next (bend s id) (map (piece s) l2) = (bend s3 id, map (piece s) B) /\
    ud (store s3) id = ud (store s) id /\ same_rest s2 s3 /\
    (forall j, j ∈ l2 -> fr (store s) j = false -> j ∈ B).
Proof.
  intros M Hc Hud Hb. pose proof (lo_tiling _ _ (md_loose _ _ _ _ _ M)) as Ht2.
  pose proof (ti_nodup _ Ht2) as Hnd. pose proof (md_buffers _ _ _ _ _ M) as El. rewrite El in *.
  rewrite list_is_last_spec by done. destruct l2 as [|n l2].
  { exists s2, []. rewrite bool_decide_true by done. split; [done|]. split; [done|].
    split; [done|]. split; [done|]. split; [by rewrite Hb|]. done. }
  rewrite bool_decide_false by done. destruct (nodup_mid _ _ _ Hnd) as [H1 _].
  erewrite bind_eq by (unfold binder_buffer_next, bind, get; rewrite El, list_next_spec by done; reflexivity).
  assert (Hn : n ∈ l1 ++ n :: l2) by (apply elem_of_app; right; by left).
  destruct (md_same _ _ _ _ _ M n Hn) as (Hns & En & Ebn).
  destruct (tiling_get s n (wf_tiling _ Hwf) Hns) as [nb Hnb].
  erewrite bind_eq by (apply buf_at_eq; rewrite En; exact Hnb).
  pose proof (fr_eq s n nb Hnb) as Hfn. 
  assert (Pn : piece s n = (ud (store s) n, bend s n, free nb)) by (unfold piece; by rewrite Hfn).
  simpl map. rewrite Pn.
  destruct (free nb) eqn:Hfnb.
  - destruct (mid_next s s2 id l1 n l2 ps M Hpg HL Hfn) as (s3 & Er & M3 & U & Be & R1 & R2 & R3 & R4 & R5 & R6).
    exists s3, l2. split; [done|]. split; [done|]. destruct Hc as [Hc1 Hc2]. split; [done|].
    split; [intros y Hy; destruct l2; simplify_eq/=; by rewrite Hfn in Hc1|].
    simpl. rewrite Be. split; [done|]. split; [congruence|]. split; [done|].
    intros j [->|?]%elem_of_cons Hj; [congruence|done].
  - exists s2, (n :: l2). split; [done|]. split; [done|]. split; [done|].
    split; [by intros y [= <-]|]. simpl. rewrite Pn, Hb. done.
Qed.

Lemma phase_prev s3 l1 B : mid s s3 id l1 B -> coalesced (fr (store s)) l1 ->
  ud (store s3) id = ud (store s) id ->
  exists s4 x A,
    (if list_is_first id (buffers s3) then ret id
     else let! prev := binder_buffer_prev id in
          let! pb := buf_at prev in
          if free pb then
            binder_delete_free_buffer E id ;!
            modify (fun s => set_free (rb_erase prev (free_buffers s)) s) ;!
            ret prev
          else ret id) s3 = Some (x, s4) /\ mid s s4 x A B /\ coalesced (fr (store s)) A /\
    (forall y, last A = Some y -> fr (store s) y = false) /\
    absorb_prev (ud (store s) id) (map (piece s) l1) = (ud (store s4) x, map (piece s) A) /\
    bend s4 x = bend s3 id /\ same_rest s3 s4 /\
    (forall j, j ∈ l1 -> fr (store s) j = false -> j ∈ A).
Proof.
  intros M Hc Hud. pose proof (lo_tiling _ _ (md_loose _ _ _ _ _ M)) as Ht3.
  pose proof (ti_nodup _ Ht3) as Hnd. pose proof (md_buffers _ _ _ _ _ M) as El. rewrite El in *.
  rewrite list_is_first_spec by done. destruct l1 as [|p l1 _] using rev_ind.
  { exists s3, id, []. rewrite bool_decide_true by done. split; [done|]. split; [done|].
    split; [done|]. split; [done|]. unfold absorb_prev. simpl. rewrite Hud.
    split; [done|]. split; [done|]. split; [done|]. done. }
  rewrite bool_decide_false by (by destruct l1).
  pose proof (nodup_mid _ _ _ Hnd) as [[H1 [Hp1 _]%not_elem_of_cons]%not_elem_of_app _].
  assert (El' : buffers s3 = l1 ++ p :: id :: B) by by rewrite El, <- app_assoc.
  erewrite bind_eq by (unfold binder_buffer_prev, bind, get; rewrite El', list_prev_spec by done; reflexivity).
  assert (Hp : p ∈ (l1 ++ [p]) ++ B) by (rewrite !elem_of_app, list_elem_of_singleton; auto).
  destruct (md_same _ _ _ _ _ M p Hp) as (Hps & Ep & Ebp).
  destruct (tiling_get s p (wf_tiling _ Hwf) Hps) as [pb Hpb].
  erewrite bind_eq by (apply buf_at_eq; rewrite Ep; exact Hpb).
  pose proof (fr_eq s p pb Hpb) as Hfp. 
  assert (Pp : piece s p = (ud (store s) p, bend s p, free pb)) by (unfold piece; by rewrite Hfp).
  unfold absorb_prev. rewrite map_app. cbn [map].
  rewrite Pp, last_snoc, length_app, length_map. cbn [length]. destruct (free pb) eqn:Hfpb.
  - destruct (mid_prev s s3 id l1 p B ps M Hpg HL Hwf Hfp) as (s4 & Er & M4 & U & Be & R1 & R2 & R3 & R4 & R5 & R6).
    exists s4, p, l1. split; [done|]. split; [done|]. split; [by eapply coalesced_app_l|].
    split.
    { intros y Hy. apply last_Some in Hy as [l1' ->]. rewrite <- app_assoc in Hc.
      apply coalesced_mid in Hc. by rewrite Hfp, andb_true_r in Hc. }
    split; [|split; [done|split; [done|]]].
    2:{ intros j [?| ->%list_elem_of_singleton]%elem_of_app Hj; [done|congruence]. }
    rewrite U. f_equal.
    replace (length l1 + 1 - 1)%nat with (length (map (piece s) l1)) by (rewrite length_map; lia).
    by rewrite take_app_length.
  - exists s3, id, (l1 ++ [p]). split; [done|]. split; [done|]. split; [done|].
    split; [intros y; rewrite last_snoc; by intros [= <-]|].
    rewrite Hud, map_app. cbn [map]. rewrite Pp. split; [done|]. split; [done|]. split; [done|]. done.
Qed.
End phases.

(** The rounded sizes recomputed at free time are the ones of the request. *)
(** The size a free recomputes is the one the allocation rounded to. *)
Lemma request_size_sum d o e size : request_size d o e = Some size ->
  u64 (u64 (ALIGN d SIZEOF_PTR + ALIGN o SIZEOF_PTR) + ALIGN e SIZEOF_PTR) = size.
Proof. unfold request_size. intros H. repeat case_match; try done. by injection H. Qed.

Lemma free_size_ok s id b : wf s -> store s !! id = Some b -> free b = false ->
  let size := u64 (u64 (ALIGN (data_size b) SIZEOF_PTR + ALIGN (offsets_size b) SIZEOF_PTR)
                   + ALIGN (extra_buffers_size b) SIZEOF_PTR) in
  request_size (data_size b) (offsets_size b) (extra_buffers_size b) = Some size /\
  size <= bsize s id.
Proof.
  intros Hwf Hb Hf size. destruct (wf_sizes _ Hwf id b Hb Hf) as (sz & Hreq & Hsz).
  assert (sz = size) as ->; [|split; [done|lia]]. symmetry. by apply request_size_sum.
Qed.

(** The part before the merging. *)
Lemma free_unlink_ok s id b l1 l2 ps : wf s -> page_array s ps -> store s !! id = Some b ->
  free b = false -> transaction b = None -> buffers s = l1 ++ id :: l2 ->
  binder_free_buf_locked E id s =
    (let! s := get in
     (if list_is_last id (buffers s) then ret tt
      else let! next := binder_buffer_next id in
           let! nb := buf_at next in
           if free nb then
             modify (fun s => set_free (rb_erase next (free_buffers s)) s) ;!
             binder_delete_free_buffer E next
           else ret tt) ;!
     let! s := get in
     let! id' :=
       (if list_is_first id (buffers s) then ret id
        else let! prev := binder_buffer_prev id in
             let! pb := buf_at prev in
             if free pb then
               binder_delete_free_buffer E id ;!
               modify (fun s => set_free (rb_erase prev (free_buffers s)) s) ;!
               ret prev
             else ret id) in
     binder_insert_free_buffer id') (unlinked_state id b s).
Proof.
  intros Hwf Hpa Hb Hf Htr El. pose proof (wf_tiling _ Hwf) as Ht.
  assert (Hid : id ∈ buffers s) by (rewrite El; apply elem_of_app; right; by left).
  destruct (tiling_bounds s id Ht Hid) as (B1 & B2 & B3 & _).
  destruct (free_size_ok s id b Hwf Hb Hf) as [_ Hle].
  unfold binder_free_buf_locked. erewrite bind_eq by by apply buffer_size_eq.
  erewrite bind_eq by by apply buf_at_eq. cbv zeta. erewrite bind_eq by reflexivity.
  rewrite Hf, (bool_decide_false (transaction b <> None)) by (intros H; by apply H).
  rewrite (proj2 (Z.ltb_ge _ _) Hle). rewrite <- (ud_eq s id b Hb) in *.
  assert (Hend : ud (store s) id + bsize s id = bend s id) by (unfold bsize; lia).
  assert (Hfin : u64 (buffer s + buffer_size s) = fin s).
  { apply u64_small. apply (addr_small s Ht). split; [|reflexivity]. unfold bsize in *. lia. }
  rewrite Hfin, (proj2 (Z.ltb_ge _ _) B1), (proj2 (Z.ltb_ge (fin s) _)) by (unfold bsize in *; lia).
  do 5 (erewrite bind_eq by reflexivity).
  set (s1 := set_async (async_back b s) s).
  erewrite (bind_eq _ _ s tt s1).
  2:{ unfold s1, async_back. destruct (async_transaction b); [done|]. unfold ret. by destruct s. }
  rewrite Hend, (u64_small (bend s id)) by (apply (addr_small s Ht); unfold bsize in *; lia).
  rewrite (mask_dn s Ht), (align_up s Ht) by (unfold bsize in *; lia).
  pose proof (page_array_paged s Ht ps Hpa) as Hpg. destruct Hpa as (Hps & HL & _).
  destruct (update_free_ok E s1 ps (pg_up s (ud (store s) id)) (pg_dn s (bend s id))) as [r Er];
    [exact Hpg|apply (dn_le s); [unfold bsize in *; lia|done]|].
  erewrite bind_eq by exact Er. erewrite bind_eq by reflexivity. erewrite bind_eq by reflexivity.
  reflexivity.
Qed.

Lemma free_buf_ok s id b : wf s -> store s !! id = Some b -> free b = false -> transaction b = None ->
  exists s', binder_alloc_free_buf E id s = Some (tt, s') /\ free_post s s' id b.
Proof.
  intros Hwf Hb Hf Htr. pose proof (wf_tiling _ Hwf) as Ht.
  assert (Hid : id ∈ buffers s) by (apply (ti_store _ Ht); by eexists).
  pose proof Hid as (l1 & l2 & El)%list_elem_of_split.
  destruct (wf_pages _ Hwf) as (ps & Hpa). pose proof (page_array_paged s Ht ps Hpa) as Hpg.
  pose proof Hpa as (Hps & HL & _).
  pose proof (wf_coalesced _ Hwf) as Hc. rewrite El in Hc.
  apply coalesced_cut in Hc as [Hc1 Hc2]; [|by rewrite (fr_eq s id b)].
  pose proof (mid_start s id b l1 l2 Hwf Hb Hf Htr El) as M.
  unfold binder_alloc_free_buf. rewrite (free_unlink_ok s id b l1 l2 ps) by done.
  set (s2 := unlinked_state id b s) in *. erewrite bind_eq by reflexivity.
  assert (Hud2 : ud (store s2) id = ud (store s) id) by by apply (ud_insert_same _ _ b).
  assert (Hb2 : bend s2 id = bend s id).
  { apply bend_ext; try done. intros i _. by apply (ud_insert_same _ _ b). }
  destruct (phase_next s id ps Hwf Hpg HL s2 l1 l2 M Hc2 Hud2 Hb2)
    as (s3 & B & E3 & M3 & HcB & HhB & AbsB & Hud3 & Hr3 & HinB).
  erewrite bind_eq by exact E3. erewrite bind_eq by reflexivity.
  destruct (phase_prev s id ps Hwf Hpg HL s3 l1 B M3 Hc1 Hud3)
    as (s4 & x & A & E4 & M4 & HcA & HlA & AbsA & Hbe4 & Hr4 & HinA).
  erewrite bind_eq by exact E4.
  destruct (loose_insert_ok s4 x (md_loose _ _ _ _ _ M4)) as (t & Ei & Ht5 & Htr5).
  exists (set_free t s4). split; [done|].
  destruct (same_rest_trans _ _ _ Hr3 Hr4) as (R1 & R2 & R3 & R4 & R5 & R6).
  pose proof (md_space _ _ _ _ _ M4) as [S1 S2]. split; try done.
  - by eapply mid_wf.
  - exists (map (piece s) l1), (map (piece s) l2). split.
    + unfold abs. rewrite El, map_app. cbn [map]. f_equal. f_equal. unfold piece. by rewrite (fr_eq s id b), Hf.
    + unfold spec_free. rewrite AbsB, AbsA. change (abs (set_free t s4)) with (abs s4).
      by rewrite (mid_pieces _ _ _ _ _ M4), Hbe4.
  - apply (md_pages _ _ _ _ _ M4).
  - intros j bj Hne Hbj Hfj. simpl.
    assert (Hj : j ∈ buffers s) by (apply (ti_store _ Ht); by eexists).
    rewrite <- Hbj. apply (md_same _ _ _ _ _ M4 j).
    pose proof (fr_eq s j bj Hbj) as Hfrj. rewrite Hfj in Hfrj.
    rewrite El, elem_of_app, elem_of_cons in Hj. apply elem_of_app.
    destruct Hj as [Hj|[?|Hj]]; [left; auto|done|right; auto].
Qed.
End free.
