(* ===== verification/BinderAllocLife.v ===== *)
(** * The binder buffer allocator: mapping, handing out, releasing

    The life of an address space around allocation and freeing: what
    [binder_alloc_mmap_handler] sets up, how a user pointer is turned into the
    buffer it may free, and that [binder_alloc_deferred_release] gives
    everything back. *)

From Stdlib Require Import ZArith Lia.
From stdpp Require Import base option gmap sets sorting list.
From S2P Require Import Prelude RbTree BinderAlloc BinderAllocFacts BinderAllocInv BinderAllocFree.

(** No address space yet. *)
Record unmapped (s : binder_alloc) : Prop := Unmapped {
  um_size : buffer_size s = 0;
  um_buffers : buffers s = [];
  um_store : store s = ∅;
  um_free : free_buffers s = rb_leaf;
  um_allocated : allocated_buffers s = rb_leaf
}.

Lemma unmapped_init : unmapped binder_alloc_init.
Proof. by split. Qed.

(** ** Changing fields the allocator does not look at *)

Lemma wf_touch s id b B : wf s -> store s !! id = Some b -> free b = false -> free B = false ->
  user_data B = user_data b -> data_size B = data_size b -> offsets_size B = offsets_size b ->
  extra_buffers_size B = extra_buffers_size b -> wf (set_store (<[id := B]> (store s)) s).
Proof.
  intros Hwf Hb Hf HfB Eu Ed Eo Ee. pose proof (wf_tiling _ Hwf) as Ht.
  set (s' := set_store (<[id := B]> (store s)) s).
  assert (Hud : forall i, ud (store s') i = ud (store s) i) by (intros i; by apply (ud_insert_same _ _ b)).
  assert (Hfr : forall i, fr (store s') i = fr (store s) i).
  { intros i. simpl. rewrite fr_insert. case_decide; [|done]. subst. by rewrite (fr_eq s id b), Hf. }
  assert (Hbend : forall i, bend s' i = bend s i) by (intros i; by apply bend_ext).
  assert (Hbs : forall i, bsize s' i = bsize s i) by (intros i; unfold bsize; by rewrite Hbend, Hud).
  split.
  - apply (tiling_ext s); try done. intros i. simpl. rewrite lookup_insert. case_decide; [|done].
    subst. rewrite Hb. split; by eexists.
  - eapply tree_of_ext; [apply (wf_free _ Hwf)| |done]. intros i. by rewrite Hfr.
  - eapply tree_of_ext; [apply (wf_allocated _ Hwf)| |done]. intros i. by rewrite Hfr.
  - eapply coalesced_ext; [|apply (wf_coalesced _ Hwf)]. done.
  - destruct (wf_pages _ Hwf) as (ps & Hps & HL & Hfull & Hcov). exists ps. do 3 (split; [done|]).
    intros j k Hj Hfj. rewrite Hbend, Hud. rewrite Hfr in Hfj. by apply Hcov.
  - intros j bj Hbj Hfj. rewrite Hbs. simpl in Hbj. rewrite lookup_insert in Hbj.
    case_decide; [|by apply (wf_sizes _ Hwf)]. subst. simplify_eq. rewrite Ed, Eo, Ee.
    by apply (wf_sizes _ Hwf).
  - intros j bj Hbj Hfj. simpl in Hbj. rewrite lookup_insert in Hbj.
    case_decide; [|by eapply wf_idle]. subst. simplify_eq. congruence.
Qed.

(** ** Looking a buffer up by its user pointer *)

Definition handed_out (b : binder_buffer) : binder_buffer :=
  Buffer (free b) false (async_transaction b) (debug_id b) (transaction b) (target_node b)
    (data_size b) (offsets_size b) (extra_buffers_size b) (user_data b).

Definition lookup_post (s : binder_alloc) (user_ptr : Z) (io : list nat) (r : lookup_result)
    (s' : binder_alloc) : Prop :=
  match r with
  | NotFound => s' = s /\ forall id, id ∈ io -> ud (store s) id <> user_ptr
  | LookupErr err => s' = s /\ err = - EPERM /\ exists id b, id ∈ io /\ store s !! id = Some b /\
      user_data b = user_ptr /\ allow_user_free b = false
  | Found id => exists b, id ∈ io /\ store s !! id = Some b /\ user_data b = user_ptr /\
      allow_user_free b = true /\ s' = set_store (<[id := handed_out b]> (store s)) s
  end.

Lemma prepare_loop_ok s user_ptr : forall t,
  StronglySorted Z.le (map (ud (store s)) (rb_inorder t)) ->
  (forall id, id ∈ rb_inorder t -> exists b, store s !! id = Some b /\ free b = false) ->
  exists r s', prepare_to_free_loop user_ptr t s = Some (r, s') /\
    lookup_post s user_ptr (rb_inorder t) r s'.
Proof.
  induction t as [|c l IHl id r IHr]; intros Hs Hin.
  { exists NotFound, s. split; [done|]. split; [done|]. by intros id ?%not_elem_of_nil. }
  simpl in *. rewrite map_app in Hs. apply StronglySorted_app in Hs as (Hlr & Hl & Hr).
  simpl in Hr. apply StronglySorted_cons in Hr as [Hidr Hr].
  rewrite Forall_map, Forall_forall in Hidr.
  destruct (Hin id) as (b & Hb & Hf); [apply elem_of_app; right; by left|].
  erewrite bind_eq by by apply buf_at_eq. rewrite Hf. simpl bug_on.
  erewrite bind_eq by reflexivity. rewrite <- (ud_eq s id b Hb) in *.
  assert (Hsub : forall io r' s', lookup_post s user_ptr io r' s' ->
    (forall i, i ∈ io -> i ∈ rb_inorder l ++ id :: rb_inorder r) ->
    (forall i, i ∈ rb_inorder l ++ id :: rb_inorder r -> i ∉ io -> ud (store s) i <> user_ptr) ->
    lookup_post s user_ptr (rb_inorder l ++ id :: rb_inorder r) r' s').
  { intros io r' s' Hp H1 H2. destruct r' as [|i|err]; simpl in *.
    - destruct Hp as [-> Hp]. split; [done|]. intros i Hi. destruct (decide (i ∈ io)); auto.
    - destruct Hp as (bi & Hi & ?). exists bi. auto.
    - destruct Hp as (? & ? & i & bi & Hi & ?). split; [done|]. split; [done|]. exists i, bi. auto. }
  destruct (Z.ltb_spec user_ptr (ud (store s) id)) as [Hlt|Hge].
  - destruct IHl as (r' & s' & E & Hp); [done|intros i Hi; apply Hin, elem_of_app; by left|].
    exists r', s'. split; [done|]. apply (Hsub _ _ _ Hp); [intros i Hi; apply elem_of_app; by left|].
    intros i [?|[->|Hi]%elem_of_cons]%elem_of_app Hn; [done|lia|]. specialize (Hidr i Hi). simpl in *. lia.
  - destruct (Z.ltb_spec (ud (store s) id) user_ptr) as [Hgt|Hle].
    + destruct IHr as (r' & s' & E & Hp); [done|intros i Hi; apply Hin, elem_of_app; right; by right|].
      exists r', s'. split; [done|]. apply (Hsub _ _ _ Hp); [intros i Hi; apply elem_of_app; right; by right|].
      intros i [Hi|[->|?]%elem_of_cons]%elem_of_app Hn; [|lia|done].
      specialize (Hlr (ud (store s) i) (ud (store s) id) (list_elem_of_fmap_2 _ _ _ Hi)). simpl in Hlr.
      assert (ud (store s) i <= ud (store s) id) by (apply Hlr; by left). lia.
    + assert (ud (store s) id = user_ptr) as Eq by lia. rewrite (ud_eq s id b Hb) in Eq.
      assert (Hm : id ∈ rb_inorder l ++ id :: rb_inorder r) by (apply elem_of_app; right; by left).
      destruct (allow_user_free b) eqn:Ha; cbn [negb].
      * eexists (Found id), _. split; [reflexivity|]. exists b. do 4 (split; [done|]).
        unfold handed_out. by rewrite Hf, (ud_eq s id b Hb).
      * exists (LookupErr (- EPERM)), s. split; [done|]. split; [done|]. split; [done|]. by exists id, b.
Qed.

(** Exactly the allocated buffer at that address, once. *)
Lemma prepare_to_free_ok s user_ptr : wf s ->
  exists r s', binder_alloc_prepare_to_free user_ptr s = Some (r, s') /\
    lookup_post s user_ptr (rb_inorder (allocated_buffers s)) r s' /\ wf s'.
Proof.
  intros Hwf. pose proof (wf_allocated _ Hwf) as (A1 & A2 & A3).
  assert (Hin : forall id, id ∈ rb_inorder (allocated_buffers s) -> exists b, store s !! id = Some b /\ free b = false).
  { intros id [Hid Hf]%A2. destruct (tiling_get s id (wf_tiling _ Hwf) Hid) as [b Hb].
    exists b. split; [done|]. by rewrite <- (fr_eq s id b). }
  destruct (prepare_loop_ok s user_ptr _ A3 Hin) as (r & s' & E & Hp).
  exists r, s'. split; [exact E|]. split; [done|]. destruct r as [|id|err]; simpl in Hp.
  - by destruct Hp as [-> _].
  - destruct Hp as (b & Hid & Hb & Hu & Ha & ->). destruct (Hin id Hid) as (b' & Hb' & Hf). simplify_eq.
    by apply (wf_touch s id b).
  - by destruct Hp as [-> _].
Qed.

(** ** Mapping *)

Section life.
Context `{RB : Rbtree} {RBL : RbtreeLaws}.

(** A user mapping: page aligned, not empty, below the kernel's half. *)
Definition user_range (vm_start vm_end : Z) : Prop :=
  0 <= vm_start < vm_end /\ vm_end < 9223372036854775808 /\
  vm_start mod PAGE_SIZE = 0 /\ vm_end mod PAGE_SIZE = 0.

Lemma mmap_space vm_start vm_end : user_range vm_start vm_end ->
  let size := Z.min (u64 (vm_end - vm_start)) SZ_4M in
  0 < size <= SZ_4M /\ size mod PAGE_SIZE = 0 /\ vm_start + size <= vm_end.
Proof.
  intros (H1 & H2 & H3 & H4) size. unfold size, SZ_4M, PAGE_SIZE in *.
  rewrite u64_small by (unfold is_u64, two64; lia). split; [lia|]. split; [|lia].
  destruct (Z.min_spec (vm_end - vm_start) 4194304) as [[_ ->]|[_ ->]]; [|done].
  by rewrite Zminus_mod, H3, H4.
Qed.

Definition mapped_state (v : nat) (mm : option nat) (vm_start size : Z) (id : nat) (t : rb_tree)
    (s : binder_alloc) : binder_alloc :=
  Alloc {[id := Buffer true false false 0 None None 0 0 0 vm_start]} (Some v) mm vm_start [id] t rb_leaf
    (size / 2) (Some (replicate (Z.to_nat (size / PAGE_SIZE)) (LruPage None false))) size
    (pages_high s) (mm_users s) (mm_count s + 1) (warnings s).

Section mapped.
Context (v : nat) (mm : option nat) (vm_start vm_end : Z) (id : nat) (t : rb_tree) (s : binder_alloc).
Context (Hr : user_range vm_start vm_end).
Let size := Z.min (u64 (vm_end - vm_start)) SZ_4M.
Let s' := mapped_state v mm vm_start size id t s.

Lemma mapped_store : store s' !! id = Some (Buffer true false false 0 None None 0 0 0 vm_start).
Proof. apply lookup_singleton_eq. Qed.

Lemma mapped_in i : i ∈ buffers s' <-> i = id.
Proof. apply list_elem_of_singleton. Qed.

Lemma mapped_only i b : store s' !! i = Some b -> i = id /\ free b = true /\ transaction b = None.
Proof. simpl. by intros [<- <-]%lookup_singleton_Some. Qed.

Lemma mapped_bend : bend s' id = vm_start + size.
Proof. unfold bend. simpl. by rewrite decide_True. Qed.

Lemma tiling_mapped : tiling s'.
Proof.
  destruct (mmap_space vm_start vm_end Hr) as (Hsz & Hm & Hend). fold size in Hsz, Hm, Hend.
  pose proof Hr as (R1 & R2 & R3 & R4). pose proof mapped_in as Hin.
  unfold PAGE_SIZE in *. apply Z.mod_divide in Hm as [k Hk]; [|lia]. split; try done.
  - apply NoDup_singleton.
  - intros i. rewrite Hin. split; [intros ->; rewrite mapped_store; by eexists|].
    intros [b Hb]. by apply mapped_only in Hb as [? _].
  - split; [simpl; lia|done].
  - split; [done|]. simpl. rewrite Hk. by apply Z.mod_mul.
  - unfold fin. simpl. lia.
  - exact (ud_eq s' id _ mapped_store).
  - intros i ->%Hin. fold (bend s' id). rewrite mapped_bend, (ud_eq s' id _ mapped_store). simpl.
    unfold SIZEOF_PTR. replace (vm_start + size - vm_start) with size by lia.
    split; [lia|]. apply Z.mod_divide; [lia|]. exists (k * 512). lia.
Qed.

Lemma wf_mapped : tree_of t (bsize s') (fun i => i = id) -> wf s'.
Proof.
  intros Htr. pose proof mapped_in as Hin. pose proof tiling_mapped as Ht.
  assert (Hfid : fr (store s') id = true) by by rewrite (fr_eq s' id _ mapped_store).
  split; try done.
  - eapply tree_of_ext; [exact Htr| |done]. intros i. rewrite Hin. split; [by intros ->|by intros []].
  - split; [constructor|]. split; [|constructor]. intros i. split; [by intros ?%not_elem_of_nil|].
    intros [->%Hin Hf]. congruence.
  - destruct (ti_size _ Ht) as [[H1 _] _]. eexists. split; [reflexivity|]. split.
    + rewrite length_replicate, Z2Nat.id; [done|]. apply Z.div_pos; unfold PAGE_SIZE; simpl in *; lia.
    + split; [by intros k p bytes [-> _]%lookup_replicate|].
      intros j k ->%Hin Hf. congruence.
  - intros i b Hb Hf. apply mapped_only in Hb as (_ & Hf' & _). congruence.
  - intros i b Hb Hf. by apply mapped_only in Hb as (_ & _ & ?).
Qed.
End mapped.

(** The three outcomes of [binder_alloc_mmap_handler]. *)
Lemma mmap_handler_ok s v mm vm_start vm_end new_pages ns :
  user_range vm_start vm_end -> unmapped s ->
  exists r s', binder_alloc_mmap_handler v mm vm_start vm_end new_pages ns s = Some (r, s') /\
    ((r = 0 /\ wf s' /\ vma s' = Some v /\ vma_vm_mm s' = mm /\ buffer s' = vm_start /\
      buffer_size s' = Z.min (u64 (vm_end - vm_start)) SZ_4M /\
      abs s' = [(vm_start, vm_start + buffer_size s', true)] /\
      free_async_space s' = buffer_size s' / 2 /\ warnings s' = warnings s) \/
     (r = - ENOMEM /\ unmapped s' /\ vma s' = vma s /\ warnings s' = warnings s /\
       (new_pages = false \/ ns = None))).
Proof.
  intros Hr [Us Ub Ust Uf Ua]. unfold binder_alloc_mmap_handler. erewrite bind_eq by reflexivity.
  rewrite Us. cbn [Z.eqb negb]. erewrite bind_eq by reflexivity. erewrite bind_eq by reflexivity.
  erewrite bind_eq by reflexivity. destruct new_pages; cbn [negb].
  2:{ eexists _, _. split; [reflexivity|]. right. split; [done|]. split; [by split|]. do 2 (split; [done|]). by left. }
  erewrite bind_eq by reflexivity. destruct ns as [id|].
  2:{ eexists _, _. split; [reflexivity|]. right. split; [done|]. split; [by split|]. do 2 (split; [done|]). by right. }
  set (size := Z.min (u64 (vm_end - vm_start)) SZ_4M).
  erewrite bind_eq by reflexivity. erewrite bind_eq by reflexivity.
  match goal with |- context [bind (binder_insert_free_buffer id) _ ?x] => set (s1 := x) end.
  pose proof (tiling_mapped v mm vm_start vm_end id rb_leaf s Hr) as Ht.
  set (sm := mapped_state v mm vm_start _ id rb_leaf s) in Ht.
  assert (Est : store s1 = store sm) by (subst s1 sm; simpl; by rewrite Ust).
  assert (Ebu : buffers s1 = buffers sm) by (subst s1 sm; simpl; by rewrite Ub).
  assert (Ht1 : tiling s1) by (apply (tiling_ext sm); try done; by rewrite Est).
  destruct (insert_free_ok s1 id (Buffer true false false 0 None None 0 0 0 vm_start) (fun _ => False))
    as (t & Ei & Htr); try done.
  { rewrite Ebu. by left. }
  { rewrite Est. apply mapped_store. }
  { subst s1. simpl. rewrite Uf. split; [constructor|]. split; [|constructor].
    intros i. split; [by intros ?%not_elem_of_nil|done]. }
  { tauto. }
  erewrite bind_eq by exact Ei. eexists 0, _. split; [reflexivity|]. left. split; [done|].
  match goal with |- wf ?x /\ _ => assert (Ex : x = mapped_state v mm vm_start size id t s) end.
  { subst s1. clear -Ub Ust Ua. destruct s. simpl in *. by subst. }
  rewrite Ex. split.
  - apply wf_mapped; [done|]. eapply tree_of_ext; [exact Htr|intros i; tauto|].
    intros i _. unfold bsize, bend. by rewrite Est, Ebu.
  - do 4 (split; [done|]). split; [|done]. unfold abs. simpl. unfold piece.
    change size with (Z.min (u64 (vm_end - vm_start)) SZ_4M).
    rewrite mapped_bend, (ud_eq (mapped_state _ _ _ _ id _ _) id _ (mapped_store _ _ _ _ id _ _)).
    by rewrite (fr_eq (mapped_state _ _ _ _ id _ _) id _ (mapped_store _ _ _ _ id _ _)).
Qed.

(** ** Releasing *)

(** Every transaction of the process is over. *)
Definition no_transactions (s : binder_alloc) : Prop :=
  forall id b, store s !! id = Some b -> free b = false -> transaction b = None.

Definition kept (s s' : binder_alloc) : Prop :=
  pages s' = pages s /\ buffer s' = buffer s /\ buffer_size s' = buffer_size s /\ vma s' = vma s /\
  vma_vm_mm s' = vma_vm_mm s /\ warnings s' = warnings s /\ mm_count s' = mm_count s.

Lemma free_all_ok E : forall fuel s count, wf s -> no_transactions s ->
  (length (rb_inorder (allocated_buffers s)) < fuel)%nat ->
  exists s', free_all_loop fuel E count s =
      Some (count + Z.of_nat (length (rb_inorder (allocated_buffers s))), s') /\
    wf s' /\ rb_inorder (allocated_buffers s') = [] /\ kept s s'.
Proof.
  induction fuel as [|fuel IH]; intros s count Hwf Hno Hlen; [lia|]. simpl.
  erewrite bind_eq by reflexivity. pose proof (wf_allocated _ Hwf) as (A1 & A2 & A3).
  unfold rb_first. destruct (rb_inorder (allocated_buffers s)) as [|id rest] eqn:Eio; cbn [head].
  { exists s. split; [unfold ret; do 2 f_equal; simpl; lia|]. done. }
  destruct (proj1 (A2 id) ltac:(by left)) as [Hid Hfid].
  destruct (tiling_get s id (wf_tiling _ Hwf) Hid) as [b Hb]. rewrite (fr_eq s id b Hb) in Hfid.
  erewrite bind_eq by by apply buf_at_eq. rewrite (Hno id b Hb Hfid).
  erewrite bind_eq by reflexivity.
  destruct (free_buf_ok E s id b Hwf Hb Hfid (Hno id b Hb Hfid)) as (s1 & E1 & [Hwf1 _ _ Hp1 Hs1 Hal1 Hoth1]).
  erewrite bind_eq by exact E1.
  assert (Eio1 : rb_inorder (allocated_buffers s1) = rest).
  { rewrite Hal1, rb_erase_inorder by (rewrite Eio; first [done|by left]).
    rewrite Eio. apply (list_del_split id [] rest A1). }
  destruct (IH s1 (count + 1) Hwf1) as (s' & E' & Hwf' & Hemp & Hk).
  - intros j bj Hbj Hfj.
    assert (Hj : j ∈ rest).
    { rewrite <- Eio1. apply (wf_allocated _ Hwf1). split; [apply (ti_store _ (wf_tiling _ Hwf1)); by eexists|].
      by rewrite (fr_eq s1 j bj). }
    assert (j <> id) by (intros ->; by apply NoDup_cons in A1 as [? _]).
    destruct (proj1 (A2 j) ltac:(by right)) as [Hj' Hfj'].
    destruct (tiling_get s j (wf_tiling _ Hwf) Hj') as [b0 Hb0]. rewrite (fr_eq s j b0 Hb0) in Hfj'.
    pose proof (Hoth1 j b0 ltac:(done) Hb0 Hfj'). simplify_eq. by eapply Hno.
  - rewrite Eio1. simpl in Hlen. lia.
  - exists s'. rewrite E', Eio1. split; [do 2 f_equal; simpl; lia|]. split; [done|]. split; [done|].
    destruct Hk as (K1 & K2 & K3 & K4 & K5 & K6 & K7). destruct Hs1 as (S1 & S2 & S3 & S4 & S5 & S6).
    repeat split; congruence.
Qed.

(** With nothing allocated, one free buffer spans the space. *)
Lemma one_free_buffer s : wf s -> rb_inorder (allocated_buffers s) = [] ->
  exists x b, buffers s = [x] /\ store s !! x = Some b /\ free b = true /\
    store s = {[x := b]}.
Proof.
  intros Hwf Hemp. pose proof (wf_tiling _ Hwf) as Ht. pose proof (wf_allocated _ Hwf) as (_ & A2 & _).
  rewrite Hemp in A2.
  assert (Hall : forall i, i ∈ buffers s -> fr (store s) i = true).
  { intros i Hi. destruct (fr (store s) i) eqn:Hf; [done|]. exfalso.
    assert (i ∈ []) as ?%not_elem_of_nil; [by apply A2|done]. }
  pose proof (ti_head _ Ht) as Hh. pose proof (wf_coalesced _ Hwf) as Hc.
  destruct (buffers s) as [|x [|y l]] eqn:El.
  - exfalso. simpl in Hh. destruct (ti_size _ Ht) as [[? _] _]. unfold fin in Hh. lia.
  - destruct (tiling_get s x Ht) as [b Hb]; [rewrite El; by left|]. exists x, b.
    assert (Hf : free b = true) by (rewrite <- (fr_eq s x b) by done; apply Hall; by left).
    split; [done|]. split; [done|]. split; [done|]. apply map_eq. intros i.
    destruct (decide (i = x)) as [->|Hne]; [by rewrite lookup_singleton_eq|].
    rewrite lookup_singleton_ne by done. destruct (store s !! i) eqn:Hi; [|done]. exfalso.
    assert (i ∈ buffers s) as Hin by (apply (ti_store _ Ht); by eexists).
    rewrite El in Hin. by apply list_elem_of_singleton in Hin.
  - exfalso. destruct Hc as [Hc _]. rewrite !Hall in Hc; [done|right; by left|by left].
Qed.

Definition present_count (l : list binder_lru_page) : Z :=
  sum_over (fun p => match page_ptr p with Some _ => 1 | None => 0 end) l.

Lemma free_pages_ok : forall n i count s ps, pages s = Some ps -> (i + n <= length ps)%nat ->
  exists ps', free_pages_loop i n count s =
    Some (count + present_count (take n (drop i ps)), set_pages (Some ps') (pages_high s) s).
Proof.
  induction n as [|n IH]; intros i count s ps Hps Hlen.
  { exists ps. simpl. rewrite Z.add_0_r, <- (set_pages_self s ps Hps). done. }
  destruct (lookup_lt_is_Some_2 ps i) as [p Hp]; [lia|].
  simpl. erewrite bind_eq by (eapply page_at_eq; [exact Hps|exact Hp]).
  rewrite (drop_S ps p i Hp). cbn [take present_count sum_over].
  destruct (page_ptr p) as [bytes|] eqn:Hpp.
  - erewrite bind_eq by reflexivity.
    erewrite bind_eq by (eapply update_page_eq; [exact Hps|exact Hp]).
    destruct (IH (S i) (count + 1) (set_pages (Some (<[i:=LruPage None (lru_empty p)]> ps)) (pages_high s) s)
      (<[i:=LruPage None (lru_empty p)]> ps)) as [ps' E']; [done|by rewrite length_insert; lia|].
    exists ps'. rewrite E'. rewrite drop_insert_lt by lia. do 2 f_equal. unfold present_count. simpl. lia.
  - destruct (IH (S i) count s ps Hps ltac:(lia)) as [ps' E']. exists ps'. rewrite E'. done.
Qed.

(** Everything is given back: the buffers, the pages, the reference on the
    address space; no warning is raised. *)
Record released (s s' : binder_alloc) : Prop := Released {
  re_buffers : buffers s' = [];
  re_store : store s' = ∅;
  re_pages : pages s' = None;
  re_warnings : warnings s' = warnings s;
  re_mm : mm_count s' = mm_count s - match vma_vm_mm s with Some _ => 1 | None => 0 end
}.

Lemma deferred_release_ok E s ps : wf s -> vma s = None -> no_transactions s -> pages s = Some ps ->
  exists s', binder_alloc_deferred_release E s =
      Some ((Z.of_nat (length (rb_inorder (allocated_buffers s))), present_count ps), s') /\
    released s s'.
Proof.
  intros Hwf Hv Hno Hps. unfold binder_alloc_deferred_release. erewrite bind_eq by reflexivity.
  rewrite Hv, bool_decide_false by (intros H; by apply H). erewrite bind_eq by reflexivity.
  destruct (free_all_ok E (S (length (rb_inorder (allocated_buffers s)))) s 0 Hwf Hno ltac:(lia))
    as (s1 & E1 & Hwf1 & Hemp & K1 & K2 & K3 & K4 & K5 & K6 & K7).
  erewrite bind_eq by exact E1. erewrite bind_eq by reflexivity.
  destruct (one_free_buffer s1 Hwf1 Hemp) as (x & b & Hbu & Hx & Hf & Hst). rewrite Hbu.
  set (s2 := set_store ∅ (set_buffers [] s1)).
  erewrite (bind_eq (drop_buffers_loop false [x]) _ s1 tt s2).
  2:{ simpl. erewrite bind_eq by by apply buf_at_eq. rewrite Hf.
      do 3 (erewrite bind_eq by reflexivity). simpl. rewrite Hbu.
      replace (list_del x [x]) with (@nil nat) by (symmetry; apply (list_del_split x [] []), NoDup_singleton).
      rewrite bool_decide_true by done. do 2 (erewrite bind_eq by reflexivity).
      unfold ret, s2. simpl. do 2 f_equal. by rewrite Hst, delete_singleton_eq. }
  assert (Hps2 : pages s2 = Some ps) by (simpl; congruence).
  destruct (wf_pages _ Hwf) as (ps0 & Hps0 & HL & _).
  assert (ps0 = ps) as -> by congruence.
  assert (Hps1 : pages s1 = Some ps) by congruence.
  rewrite Hps1.
  destruct (free_pages_ok (Z.to_nat (buffer_size s1 / PAGE_SIZE)) 0 0 s2 ps Hps2) as [ps' Ep].
  { rewrite K3. lia. }
  erewrite (bind_eq (bind _ _)) by (erewrite bind_eq by exact Ep; reflexivity).
  erewrite bind_eq by reflexivity.
  assert (Etk : take (Z.to_nat (buffer_size s1 / PAGE_SIZE)) (drop 0 ps) = ps).
  { rewrite drop_0, take_ge; [done|]. rewrite K3. lia. }
  rewrite Etk. simpl. rewrite K5.
  destruct (vma_vm_mm s) eqn:Hmm; (eexists; split; [reflexivity|]); split; simpl; try done; try congruence; rewrite Hmm; lia.
Qed.
End life.
