(* ===== verification/BinderAllocCopy.v ===== *)
(** * The binder buffer allocator: copying to and from buffers

    The bytes behind the mapped range as one array ([space_byte]), and what
    the page-by-page copy loops do to it: a copy into a buffer writes exactly
    the addressed bytes, a copy out reads them, neither touches a page that is
    missing. *)

From Stdlib Require Import ZArith Lia.
From stdpp Require Import base option gmap sets sorting list.
From S2P Require Import Prelude RbTree BinderAlloc BinderAllocFacts BinderAllocInv.

Abbreviation page := 4096%nat (only parsing).

(** The byte at an offset from the start of the mapping. *)
Definition space_byte (ps : list binder_lru_page) (x : nat) : option Z :=
  p ← ps !! (x / page)%nat; bytes ← page_ptr p; bytes !! (x mod page)%nat.

(** [ps'] is [ps] with [src] written at offset [o]. *)
Record written (ps ps' : list binder_lru_page) (o : nat) (src : list Z) : Prop := Written {
  wr_length : length ps' = length ps;
  wr_present k : present ps' k <-> present ps k;
  wr_full : full_pages ps -> full_pages ps';
  wr_in i b : src !! i = Some b -> space_byte ps' (o + i) = Some b;
  wr_out x : (x < o \/ o + length src <= x)%nat -> space_byte ps' x = space_byte ps x
}.

Lemma written_nil ps o : written ps ps o [].
Proof. split; try done. Qed.

Lemma written_app ps1 ps2 ps3 o l1 l2 :
  written ps1 ps2 o l1 -> written ps2 ps3 (o + length l1) l2 -> written ps1 ps3 o (l1 ++ l2).
Proof.
  intros [L1 P1 F1 I1 O1] [L2 P2 F2 I2 O2]. split.
  - congruence.
  - intros k. by rewrite P2.
  - auto.
  - intros i b Hi. destruct (decide (i < length l1)%nat) as [Hlt|Hge].
    + rewrite O2 by lia. apply I1. by rewrite lookup_app_l in Hi.
    + rewrite lookup_app_r in Hi by lia. apply I2 in Hi.
      replace (o + length l1 + (i - length l1))%nat with (o + i)%nat in Hi by lia. done.
  - intros x Hx. rewrite length_app in Hx. rewrite O2 by lia. apply O1. lia.
Qed.

(** Overwriting part of one page. *)
Lemma written_page ps k p bytes off src :
  ps !! k = Some p -> page_ptr p = Some bytes -> length bytes = page -> (off + length src <= page)%nat ->
  written ps (<[k := LruPage (Some (take off bytes ++ src ++ drop (off + length src) bytes)) (lru_empty p)]> ps)
    (k * page + off) src.
Proof.
  intros Hp Hb HL Hoff. pose proof (lookup_lt_Some _ _ _ Hp) as Hk.
  set (q := LruPage _ _). set (ps' := <[k := q]> ps).
  assert (Hq : ps' !! k = Some q) by (by apply list_lookup_insert_eq).
  assert (Hne : forall j, j <> k -> ps' !! j = ps !! j) by (intros j Hj; by apply list_lookup_insert_ne).
  assert (Hbyte : forall x, space_byte ps' x = if decide (x / page = k)%nat
     then (take off bytes ++ src ++ drop (off + length src) bytes) !! (x mod page)%nat else space_byte ps x).
  { intros x. unfold space_byte. case_decide as Hx; [by rewrite Hx, Hq|by rewrite Hne]. }
  split.
  - apply length_insert.
  - intros j. unfold present. destruct (decide (j = k)) as [->|Hj]; [|by rewrite Hne].
    rewrite Hq, Hp. split; intros _; eexists; split; try done. congruence.
  - intros Hf j r bs Hr Hbs. destruct (decide (j = k)) as [->|Hj]; [|rewrite Hne in Hr by done; by eapply Hf].
    rewrite Hq in Hr. injection Hr as <-. injection Hbs as <-.
    rewrite !length_app, length_take, length_drop. unfold PAGE_SIZE. lia.
  - intros i b Hi. rewrite Hbyte. pose proof (lookup_lt_Some _ _ _ Hi).
    replace (k * page + off + i)%nat with (off + i + k * page)%nat by lia.
    rewrite Nat.div_add, Nat.div_small, Nat.add_0_l by lia. rewrite decide_True by done.
    rewrite Nat.Div0.mod_add, Nat.mod_small by lia.
    rewrite lookup_app_r by (rewrite length_take; lia). rewrite length_take.
    replace (off + i - off `min` length bytes)%nat with i by lia. by rewrite lookup_app_l by lia.
  - intros x Hx. rewrite Hbyte. case_decide as Hxk; [|done].
    assert (E : space_byte ps x = bytes !! (x mod page)%nat).
    { unfold space_byte. rewrite Hxk, Hp. unfold mbind at 1, option_bind. by rewrite Hb. }
    rewrite E. clear E.
    pose proof (Nat.div_mod_eq x page) as Hdm. pose proof (Nat.mod_upper_bound x page ltac:(lia)).
    destruct Hx as [Hx|Hx].
    + rewrite lookup_app_l by (rewrite length_take; lia). apply lookup_take_lt. lia.
    + rewrite lookup_app_r by (rewrite length_take; lia). rewrite length_take.
      rewrite lookup_app_r by lia. rewrite lookup_drop. f_equal. lia.
Qed.

(** ** One round of a copy loop *)

Section copy.
Context (s : binder_alloc) (id : nat) (b : binder_buffer) (ps : list binder_lru_page).
Context (Ht : tiling s) (Hb : store s !! id = Some b) (Hps : pages s = Some ps).

(** The offset of the buffer in the space. *)
Definition base_off : nat := Z.to_nat (user_data b - buffer s).

Lemma base_off_Z : Z.of_nat base_off = user_data b - buffer s /\ user_data b - buffer s < 4194304.
Proof.
  assert (Hid : id ∈ buffers s) by (apply (ti_store _ Ht); by eexists).
  destruct (tiling_bounds s id Ht Hid) as (B1 & B2 & B3 & _). rewrite (ud_eq s id b Hb) in B1.
  destruct (ti_size _ Ht) as [[_ Hm] _].
  unfold bsize, fin, SZ_4M in *. rewrite (ud_eq s id b Hb) in B3. unfold base_off. lia.
Qed.

Lemma get_page_eq (s' : binder_alloc) (ps' : list binder_lru_page) (bo : nat) :
  buffer s' = buffer s -> store s' = store s -> pages s' = Some ps' ->
  Z.of_nat bo < 4194304 -> ((base_off + bo) / page < length ps')%nat ->
  binder_alloc_get_page id (Z.of_nat bo) s' =
    Some (((base_off + bo) / page, Z.of_nat ((base_off + bo) mod page))%nat, s').
Proof.
  intros EB ES Ep Hbo Hin. destruct base_off_Z as [Hbase Hlt].
  unfold binder_alloc_get_page. erewrite bind_eq by reflexivity.
  erewrite bind_eq by (apply buf_at_eq; rewrite ES; exact Hb). cbv zeta. rewrite EB.
  rewrite u64_add_r, <- Hbase, <- Nat2Z.inj_add, u64_small by (unfold is_u64, two64; lia).
  change (not64 PAGE_MASK) with (Z.ones 12). rewrite Z.land_ones by lia.
  unfold PAGE_SHIFT. rewrite Z.shiftr_div_pow2 by lia. change (2 ^ 12) with (Z.of_nat page).
  rewrite <- Nat2Z.inj_div, <- Nat2Z.inj_mod, Nat2Z.id, (Nat.add_comm bo).
  destruct (lookup_lt_is_Some_2 ps' ((base_off + bo) / page)%nat Hin) as [p Hp].
  erewrite bind_eq by (eapply page_at_eq; [exact Ep|exact Hp]). done.
Qed.

(** [n] bytes from offset [o] on are in pages that are there, and whole. *)
Definition backed (ps' : list binder_lru_page) (o n : nat) : Prop :=
  full_pages ps' /\ forall x, (o <= x < o + n)%nat -> present ps' (x / page).

Lemma kmap_eq (s' : binder_alloc) ps' k p bytes : pages s' = Some ps' -> ps' !! k = Some p ->
  page_ptr p = Some bytes -> kmap k s' = Some (bytes, s').
Proof.
  intros Ep Hp Hbs. unfold kmap. erewrite bind_eq by (eapply page_at_eq; [exact Ep|exact Hp]).
  by rewrite Hbs.
Qed.

Lemma write_page_eq (s' : binder_alloc) ps' k p bytes off src :
  pages s' = Some ps' -> ps' !! k = Some p -> page_ptr p = Some bytes ->
  (off + length src <= length bytes)%nat ->
  write_page k (Z.of_nat off) src s' = Some (tt, set_pages (Some (<[k := LruPage (Some
    (take off bytes ++ src ++ drop (off + length src) bytes)) (lru_empty p)]> ps')) (pages_high s') s').
Proof.
  intros Ep Hp Hbs Hle. unfold write_page. erewrite bind_eq by (eapply page_at_eq; [exact Ep|exact Hp]).
  rewrite Hbs. erewrite bind_eq by reflexivity. cbv zeta. rewrite Nat2Z.id, decide_True by done.
  by eapply update_page_eq.
Qed.

(** The page under offset [o], and how much of it the round covers. *)
Lemma backed_page ps' o n : backed ps' o n -> (0 < n)%nat -> exists p bytes,
  ps' !! (o / page)%nat = Some p /\ page_ptr p = Some bytes /\ length bytes = page.
Proof.
  intros [Hf Hp] Hn. destruct (Hp o ltac:(lia)) as (p & Hp' & Hpp).
  destruct (page_ptr p) as [bytes|] eqn:Hb'; [|done]. exists p, bytes.
  split; [done|]. split; [done|]. by apply (Hf (o / page)%nat p).
Qed.

Definition round (o n : nat) : nat := Nat.min n (page - o mod page).

Lemma round_facts o n : (0 < n)%nat -> (0 < round o n <= n)%nat /\ (o mod page + round o n <= page)%nat.
Proof. intros Hn. unfold round. pose proof (Nat.mod_upper_bound o page ltac:(lia)). lia. Qed.

Lemma round_Z o n : Z.min (Z.of_nat n) (PAGE_SIZE - Z.of_nat (o mod page)) = Z.of_nat (round o n).
Proof. unfold round, PAGE_SIZE. pose proof (Nat.mod_upper_bound o page ltac:(lia)). lia. Qed.

Lemma backed_sub ps' ps2 o n k : backed ps' o n -> (k <= n)%nat ->
  (full_pages ps' -> full_pages ps2) -> (forall j, present ps2 j <-> present ps' j) -> backed ps2 (o + k) (n - k).
Proof. intros [Hf Hp] Hk Hf2 Hp2. split; [auto|]. intros x Hx. apply Hp2, Hp. lia. Qed.

Lemma copy_to_loop : forall fuel ps' h (bo n : nat) done_ ptr, let s' := set_pages (Some ps') h s in
  backed ps' (base_off + bo) n -> (n <= length ptr)%nat -> (n < fuel)%nat ->
  Z.of_nat (bo + n) <= 4194304 ->
  exists ps2, buffer_copy_loop fuel true id (Z.of_nat bo) done_ ptr (Z.of_nat n) s' =
      Some (done_ ++ ptr, set_pages (Some ps2) h s) /\
    written ps' ps2 (base_off + bo) (take n ptr).
Proof.
  induction fuel as [|fuel IH]; intros ps' h bo n done_ ptr s' Hbk Hn Hf Hbo; [lia|]. simpl.
  destruct (Z.eqb_spec (Z.of_nat n) 0) as [Hz|Hz].
  { exists ps'. split; [done|]. replace n with O by lia. apply written_nil. }
  destruct (backed_page _ _ _ Hbk ltac:(lia)) as (p & bytes & Hp & Hpb & HL).
  erewrite bind_eq by (apply (get_page_eq s' ps'); [done..|lia|by eapply lookup_lt_Some]).
  cbn [fst snd]. rewrite round_Z, Nat2Z.id.
  destruct (round_facts (base_off + bo) n ltac:(lia)) as [Hr1 Hr2]. set (r := round (base_off + bo) n) in *.
  erewrite bind_eq by (by eapply kmap_eq). rewrite decide_True by lia.
  assert (Hlen : length (take r ptr) = r) by (rewrite length_take; lia).
  erewrite bind_eq.
  2:{ erewrite bind_eq by (eapply (write_page_eq s' ps'); [done|exact Hp|exact Hpb|lia]). reflexivity. }
  pose proof (written_page ps' _ p bytes ((base_off + bo) mod page) (take r ptr) Hp Hpb HL ltac:(lia)) as W.
  set (ps1 := <[_ := _]> ps') in *.
  replace ((base_off + bo) / page * page + (base_off + bo) mod page)%nat with (base_off + bo)%nat in W
    by (pose proof (Nat.div_mod_eq (base_off + bo) page); lia).
  rewrite u64_small by (unfold is_u64, two64; lia). rewrite <- Nat2Z.inj_add.
  replace (Z.of_nat n - Z.of_nat r) with (Z.of_nat (n - r)) by lia.
  destruct (IH ps1 h (bo + r)%nat (n - r)%nat (done_ ++ take r ptr) (drop r ptr)) as (ps2 & E2 & W2).
  - rewrite Nat.add_assoc. apply (backed_sub ps'); [done|lia|apply W|apply W].
  - rewrite length_drop. lia.
  - lia.
  - lia.
  - exists ps2. split.
    + rewrite <- app_assoc, take_drop in E2. exact E2.
    + rewrite <- (take_drop r (take n ptr)), take_take, Nat.min_l by lia.
      eapply written_app; [exact W|]. rewrite Hlen, <- Nat.add_assoc.
      replace (drop r (take n ptr)) with (take (n - r) (drop r ptr)) by (rewrite take_drop_commute; do 2 f_equal; lia).
      exact W2.
Qed.

Lemma space_byte_page ps' k p bytes i : ps' !! k = Some p -> page_ptr p = Some bytes ->
  (i < page)%nat -> space_byte ps' (k * page + i) = bytes !! i.
Proof.
  intros Hp Hpb Hi. unfold space_byte. rewrite (Nat.add_comm (k * page)).
  rewrite Nat.div_add, Nat.div_small, Nat.add_0_l, Nat.Div0.mod_add, Nat.mod_small by lia.
  rewrite Hp. unfold mbind at 1, option_bind. by rewrite Hpb.
Qed.

(** What a copy out has put into the caller's memory. *)
Definition read_out (ps' : list binder_lru_page) (o n : nat) (ptr out : list Z) : Prop :=
  length out = length ptr /\ drop n out = drop n ptr /\
  forall i, (i < n)%nat -> out !! i = space_byte ps' (o + i).

Lemma copy_from_loop : forall fuel ps' h (bo n : nat) done_ ptr, let s' := set_pages (Some ps') h s in
  backed ps' (base_off + bo) n -> (n <= length ptr)%nat -> (n < fuel)%nat ->
  Z.of_nat (bo + n) <= 4194304 ->
  exists out, buffer_copy_loop fuel false id (Z.of_nat bo) done_ ptr (Z.of_nat n) s' =
      Some (done_ ++ out, s') /\ read_out ps' (base_off + bo) n ptr out.
Proof.
  induction fuel as [|fuel IH]; intros ps' h bo n done_ ptr s' Hbk Hn Hf Hbo; [lia|]. simpl.
  destruct (Z.eqb_spec (Z.of_nat n) 0) as [Hz|Hz].
  { exists ptr. split; [done|]. replace n with O by lia. split; [done|]. split; [done|]. intros i Hi. lia. }
  destruct (backed_page _ _ _ Hbk ltac:(lia)) as (p & bytes & Hp & Hpb & HL).
  erewrite bind_eq by (apply (get_page_eq s' ps'); [done..|lia|by eapply lookup_lt_Some]).
  cbn [fst snd]. rewrite round_Z, !Nat2Z.id.
  destruct (round_facts (base_off + bo) n ltac:(lia)) as [Hr1 Hr2]. set (r := round (base_off + bo) n) in *.
  erewrite bind_eq by (by eapply kmap_eq). rewrite decide_True by lia.
  erewrite bind_eq by reflexivity.
  set (now := take r (drop ((base_off + bo) mod page) bytes)).
  assert (Hnow : length now = r) by (unfold now; rewrite length_take, length_drop; lia).
  rewrite u64_small by (unfold is_u64, two64; lia). rewrite <- Nat2Z.inj_add.
  replace (Z.of_nat n - Z.of_nat r) with (Z.of_nat (n - r)) by lia.
  destruct (IH ps' h (bo + r)%nat (n - r)%nat (done_ ++ now) (drop r ptr)) as (out & E2 & Ho1 & Ho2 & Ho3).
  - rewrite Nat.add_assoc. by apply (backed_sub ps'); [|lia|..].
  - rewrite length_drop. lia.
  - lia.
  - lia.
  - exists (now ++ out). split; [etrans; [exact E2|by rewrite <- app_assoc]|]. split; [|split].
    + rewrite length_app, Ho1, length_drop. lia.
    + rewrite drop_app_ge, Hnow, Ho2, drop_drop by lia. f_equal. lia.
    + intros i Hi. destruct (decide (i < r)%nat) as [Hlt|Hge].
      * rewrite lookup_app_l by lia. unfold now. rewrite lookup_take_lt, lookup_drop by lia.
        rewrite <- (space_byte_page ps' _ p bytes) by (done || lia). apply (f_equal (space_byte ps')).
        pose proof (Nat.div_mod_eq (base_off + bo) page). lia.
      * rewrite lookup_app_r, Hnow, Ho3 by lia. apply (f_equal (space_byte ps')). lia.
Qed.

Lemma copy_user_loop_ok left_ : (forall a n, 0 <= n -> 0 <= left_ a n <= n) ->
  forall fuel ps' h (bo n : nat) from at_, let s' := set_pages (Some ps') h s in
  backed ps' (base_off + bo) n -> (n <= length from)%nat -> (n < fuel)%nat ->
  Z.of_nat (bo + n) <= 4194304 ->
  exists ps2 m pad, copy_user_loop fuel id (Z.of_nat bo) from at_ left_ (Z.of_nat n) s' =
      Some (Z.of_nat (n - m), set_pages (Some ps2) h s) /\ (m + pad <= n)%nat /\
    written ps' ps2 (base_off + bo) (take m from ++ replicate pad 0) /\
    ((forall a k, left_ a k = 0) -> m = n).
Proof.
  intros Hleft. induction fuel as [|fuel IH]; intros ps' h bo n from at_ s' Hbk Hn Hf Hbo; [lia|]. simpl.
  destruct (Z.eqb_spec (Z.of_nat n) 0) as [Hz|Hz].
  { exists ps', O, O. replace n with O by lia. split; [done|]. split; [done|]. split; [apply written_nil|done]. }
  destruct (backed_page _ _ _ Hbk ltac:(lia)) as (p & bytes & Hp & Hpb & HL).
  erewrite bind_eq by (apply (get_page_eq s' ps'); [done..|lia|by eapply lookup_lt_Some]).
  cbn [fst snd]. rewrite round_Z.
  destruct (round_facts (base_off + bo) n ltac:(lia)) as [Hr1 Hr2]. set (r := round (base_off + bo) n) in *.
  erewrite bind_eq by (by eapply kmap_eq). cbv zeta.
  specialize (Hleft at_ (Z.of_nat r) ltac:(lia)) as Hl. set (q := left_ at_ (Z.of_nat r)) in *.
  set (src := take (Z.to_nat (Z.of_nat r - q)) from ++ replicate (Z.to_nat q) 0).
  assert (Hsrc : length src = r).
  { unfold src. rewrite length_app, length_take, length_replicate. lia. }
  erewrite bind_eq by (eapply (write_page_eq s' ps'); [done|exact Hp|exact Hpb|lia]).
  pose proof (written_page ps' _ p bytes ((base_off + bo) mod page) src Hp Hpb HL ltac:(lia)) as W.
  set (ps1 := <[_ := _]> ps') in *.
  replace ((base_off + bo) / page * page + (base_off + bo) mod page)%nat with (base_off + bo)%nat in W
    by (pose proof (Nat.div_mod_eq (base_off + bo) page); lia).
  destruct (Z.eqb_spec q 0) as [Hq|Hq]; cbn [negb].
  - rewrite u64_small by (unfold is_u64, two64; lia). rewrite <- Nat2Z.inj_add, Nat2Z.id.
    replace (Z.of_nat n - Z.of_nat r) with (Z.of_nat (n - r)) by lia.
    destruct (IH ps1 h (bo + r)%nat (n - r)%nat (drop r from) (at_ + Z.of_nat r)) as (ps2 & m & pad & E2 & Hm & W2 & Hall).
    + rewrite Nat.add_assoc. apply (backed_sub ps'); [done|lia|apply W|apply W].
    + rewrite length_drop. lia.
    + lia.
    + lia.
    + exists ps2, (r + m)%nat, pad. split; [etrans; [exact E2|do 3 f_equal; lia]|]. split; [lia|].
      split; [|intros H0; specialize (Hall H0); lia].
      replace (take (r + m) from) with (take r from ++ take m (drop r from))
        by (rewrite <- (take_drop r from) at 3; rewrite take_app_ge by (rewrite length_take; lia);
            rewrite length_take; f_equal; f_equal; lia).
      rewrite <- app_assoc. eapply written_app.
      * replace src with (take r from) in W; [exact W|]. unfold src. rewrite Hq, Z.sub_0_r, Nat2Z.id.
        by rewrite app_nil_r.
      * rewrite length_take, Nat.min_l, <- Nat.add_assoc by lia. exact W2.
  - exists ps1, (Z.to_nat (Z.of_nat r - q)), (Z.to_nat q).
    split; [unfold ret; rewrite u64_small by (unfold is_u64, two64; lia); do 3 f_equal; lia|].
    split; [lia|]. split; [exact W|]. intros H0. by specialize (H0 at_ (Z.of_nat r)).
Qed.
End copy.

(** ** The operations *)

Lemma wf_written s ps ps' o src h : wf s -> pages s = Some ps -> written ps ps' o src ->
  wf (set_pages (Some ps') h s).
Proof.
  intros Hwf Hps [L P F I O]. destruct (wf_pages _ Hwf) as (ps0 & Hps0 & HL & Hfull & Hcov).
  assert (ps0 = ps) as -> by congruence. pose proof (wf_tiling _ Hwf). split; try apply Hwf.
  - by apply (tiling_ext s).
  - exists ps'. split; [done|]. split; [simpl; by rewrite <- HL, L|]. split; [auto|].
    intros j k Hj Hfj Hk1 Hk2. apply P. by apply (Hcov j).
Qed.

Lemma backed_buffer s id b ps (bo n : nat) : wf s -> store s !! id = Some b -> free b = false ->
  pages s = Some ps -> Z.of_nat (bo + n) <= bsize s id -> backed ps (base_off s b + bo) n.
Proof.
  intros Hwf Hb Hf Hps Hle. pose proof (wf_tiling _ Hwf) as Ht.
  assert (Hid : id ∈ buffers s) by (apply (ti_store _ Ht); by eexists).
  destruct (wf_pages _ Hwf) as (ps0 & Hps0 & HL & Hfull & Hcov). assert (ps0 = ps) as -> by congruence.
  split; [done|]. intros x Hx. destruct (base_off_Z s id b Ht Hb) as [Hbase _].
  apply (Hcov id); [done|by rewrite (fr_eq s id b)| |]; unfold page_addr, PAGE_SIZE, bsize in *;
    rewrite (ud_eq s id b Hb) in *; pose proof (Nat.div_mod_eq x page); pose proof (Nat.mod_upper_bound x page ltac:(lia)); lia.
Qed.

(** [check_buffer] accepts exactly the accesses inside an active buffer. *)
Definition access_ok (s : binder_alloc) (id : nat) (b : binder_buffer) (offset bytes : Z) : Prop :=
  offset + bytes <= bsize s id /\ offset mod 4 = 0 /\ free b = false /\
  (allow_user_free b = false \/ transaction b = None).

Lemma check_buffer_ok s id b offset bytes : tiling s -> store s !! id = Some b ->
  is_u64 offset -> is_u64 bytes ->
  exists r, check_buffer id offset bytes s = Some (r, s) /\ (r = true <-> access_ok s id b offset bytes).
Proof.
  intros Ht Hb Ho Hby. assert (Hid : id ∈ buffers s) by (apply (ti_store _ Ht); by eexists).
  destruct (tiling_bounds s id Ht Hid) as (B1 & B2 & B3 & _). pose proof (ti_base _ Ht). pose proof (ti_user _ Ht).
  unfold check_buffer. erewrite bind_eq by by apply buffer_size_eq.
  erewrite bind_eq by by apply buf_at_eq. eexists. split; [reflexivity|].
  rewrite !andb_true_iff, orb_true_iff, !negb_true_iff, bool_decide_eq_true. unfold access_ok.
  assert (Ha : IS_ALIGNED offset 4 = true <-> offset mod 4 = 0).
  { unfold IS_ALIGNED. change (4 - 1) with (Z.ones 2). rewrite Z.land_ones, Z.eqb_eq by lia. done. }
  rewrite Ha, !Z.leb_le. unfold is_u64 in *.
  destruct (Z.le_gt_cases bytes (bsize s id)) as [Hle|Hgt].
  - rewrite u64_small by (unfold is_u64, two64, bsize in *; lia). intuition lia.
  - split; [intuition lia|]. intros (? & _). lia.
Qed.

(** A range of an active buffer, as bytes of the space. *)
Lemma access_range s id b offset bytes : wf s -> store s !! id = Some b ->
  is_u64 offset -> is_u64 bytes -> access_ok s id b offset bytes ->
  exists ps, pages s = Some ps /\
    backed ps (base_off s b + Z.to_nat offset) (Z.to_nat bytes) /\
    Z.of_nat (Z.to_nat offset + Z.to_nat bytes) <= 4194304.
Proof.
  intros Hwf Hb Ho Hby (Hin & _ & Hf & _). unfold is_u64 in *.
  destruct (wf_pages _ Hwf) as (ps & Hps & _). exists ps. split; [done|].
  split; [apply (backed_buffer s id); [done..|lia]|].
  pose proof (wf_tiling _ Hwf) as Ht. assert (Hid : id ∈ buffers s) by (apply (ti_store _ Ht); by eexists).
  destruct (tiling_bounds s id Ht Hid) as (B1 & B2 & B3 & _). destruct (ti_size _ Ht) as [[_ Hm] _].
  unfold bsize, fin, SZ_4M in *. lia.
Qed.

Lemma check_buffer_pass s id b offset bytes : tiling s -> store s !! id = Some b ->
  is_u64 offset -> is_u64 bytes -> access_ok s id b offset bytes ->
  check_buffer id offset bytes s = Some (true, s).
Proof.
  intros Ht Hb Ho Hby Ha. destruct (check_buffer_ok s id b offset bytes Ht Hb Ho Hby) as (r & E & Hr).
  rewrite E. by rewrite (proj2 Hr Ha).
Qed.

Lemma copy_to_ok s id b offset bytes src : wf s -> store s !! id = Some b ->
  is_u64 offset -> is_u64 bytes -> access_ok s id b offset bytes -> bytes <= Z.of_nat (length src) ->
  exists ps ps', pages s = Some ps /\
    binder_alloc_copy_to_buffer id offset src bytes s = Some (0, set_pages (Some ps') (pages_high s) s) /\
    written ps ps' (base_off s b + Z.to_nat offset) (take (Z.to_nat bytes) src).
Proof.
  intros Hwf Hb Ho Hby Ha Hlen. pose proof (wf_tiling _ Hwf) as Ht.
  destruct (access_range s id b offset bytes Hwf Hb Ho Hby Ha) as (ps & Hps & Hbk & Hlt).
  unfold is_u64 in *.
  destruct (copy_to_loop s id b Ht Hb (S (Z.to_nat bytes)) ps (pages_high s) (Z.to_nat offset)
    (Z.to_nat bytes) [] src Hbk ltac:(lia) ltac:(lia) Hlt) as (ps' & E & W).
  exists ps, ps'. split; [done|]. split; [|done].
  rewrite !Z2Nat.id, <- (set_pages_self s ps Hps) in E by lia.
  unfold binder_alloc_copy_to_buffer. apply bind_Some. exists (0, src), (set_pages (Some ps') (pages_high s) s).
  split; [|done]. unfold binder_alloc_do_buffer_copy.
  erewrite bind_eq by by apply (check_buffer_pass s id b). cbn [negb]. cbv iota. by erewrite bind_eq by exact E.
Qed.

Lemma copy_from_ok s id b offset bytes dest : wf s -> store s !! id = Some b ->
  is_u64 offset -> is_u64 bytes -> access_ok s id b offset bytes -> bytes <= Z.of_nat (length dest) ->
  exists ps out, pages s = Some ps /\
    binder_alloc_copy_from_buffer dest id offset bytes s = Some ((0, out), s) /\
    read_out ps (base_off s b + Z.to_nat offset) (Z.to_nat bytes) dest out.
Proof.
  intros Hwf Hb Ho Hby Ha Hlen. pose proof (wf_tiling _ Hwf) as Ht.
  destruct (access_range s id b offset bytes Hwf Hb Ho Hby Ha) as (ps & Hps & Hbk & Hlt).
  unfold is_u64 in *.
  destruct (copy_from_loop s id b Ht Hb (S (Z.to_nat bytes)) ps (pages_high s) (Z.to_nat offset)
    (Z.to_nat bytes) [] dest Hbk ltac:(lia) ltac:(lia) Hlt) as (out & E & R).
  exists ps, out. split; [done|]. split; [|done].
  rewrite !Z2Nat.id, <- (set_pages_self s ps Hps) in E by lia.
  unfold binder_alloc_copy_from_buffer, binder_alloc_do_buffer_copy.
  erewrite bind_eq by by apply (check_buffer_pass s id b).
  cbn [negb]. cbv iota. by erewrite bind_eq by exact E.
Qed.

Lemma copy_user_ok s id b offset bytes from left_ : wf s -> store s !! id = Some b ->
  is_u64 offset -> is_u64 bytes -> access_ok s id b offset bytes -> bytes <= Z.of_nat (length from) ->
  (forall a n, 0 <= n -> 0 <= left_ a n <= n) ->
  exists ps ps' (m pad : nat), pages s = Some ps /\
    binder_alloc_copy_user_to_buffer id offset from left_ bytes s =
      Some (bytes - Z.of_nat m, set_pages (Some ps') (pages_high s) s) /\
    Z.of_nat (m + pad) <= bytes /\
    written ps ps' (base_off s b + Z.to_nat offset) (take m from ++ replicate pad 0) /\
    ((forall a n, left_ a n = 0) -> Z.of_nat m = bytes).
Proof.
  intros Hwf Hb Ho Hby Ha Hlen Hl. pose proof (wf_tiling _ Hwf) as Ht.
  destruct (access_range s id b offset bytes Hwf Hb Ho Hby Ha) as (ps & Hps & Hbk & Hlt).
  unfold is_u64 in *.
  destruct (copy_user_loop_ok s id b Ht Hb left_ Hl (S (Z.to_nat bytes)) ps (pages_high s)
    (Z.to_nat offset) (Z.to_nat bytes) from 0 Hbk ltac:(lia) ltac:(lia) Hlt) as (ps' & m & pad & E & Hm & W & Hall).
  exists ps, ps', m, pad. split; [done|].
  split; [|split; [lia|split; [done|intros H0; specialize (Hall H0); lia]]].
  rewrite !Z2Nat.id, <- (set_pages_self s ps Hps) in E by lia.
  unfold binder_alloc_copy_user_to_buffer. erewrite bind_eq by by apply (check_buffer_pass s id b).
  cbn [negb]. cbv iota. rewrite E. do 2 f_equal. lia.
Qed.

(** A refused access touches nothing. *)
Lemma check_buffer_refuse s id b offset bytes : tiling s -> store s !! id = Some b ->
  is_u64 offset -> is_u64 bytes -> ~ access_ok s id b offset bytes ->
  check_buffer id offset bytes s = Some (false, s).
Proof.
  intros Ht Hb Ho Hby Ha. destruct (check_buffer_ok s id b offset bytes Ht Hb Ho Hby) as (r & E & Hr).
  rewrite E. destruct r; [|done]. exfalso. by apply Ha, Hr.
Qed.

(** ** Reading after writing *)

Lemma read_out_unique ps o n ptr out out' :
  read_out ps o n ptr out -> read_out ps o n ptr out' -> out = out'.
Proof.
  intros (L1 & D1 & R1) (L2 & D2 & R2). rewrite <- (take_drop n out), <- (take_drop n out'), D1, D2.
  f_equal. apply list_eq. intros i. destruct (decide (i < n)%nat) as [Hi|Hi].
  - by rewrite !lookup_take_lt, R1, R2 by done.
  - by rewrite !lookup_ge_None_2 by (rewrite length_take; lia).
Qed.

Lemma read_written ps ps' o src dest out : written ps ps' o src -> length dest = length src ->
  read_out ps' o (length src) dest out -> out = src.
Proof.
  intros W Hd (L & _ & R). apply list_eq. intros i. destruct (decide (i < length src)%nat) as [Hi|Hi].
  - destruct (lookup_lt_is_Some_2 src i Hi) as [x Hx]. by rewrite R, (wr_in _ _ _ _ W i x), Hx.
  - by rewrite !lookup_ge_None_2 by lia.
Qed.

Lemma read_apart ps ps' o o2 n2 src dest out out' : written ps ps' o src ->
  read_out ps o2 n2 dest out -> read_out ps' o2 n2 dest out' ->
  (o2 + n2 <= o \/ o + length src <= o2)%nat -> out' = out.
Proof.
  intros W R (L' & D' & R') Hdis. apply (read_out_unique ps o2 n2 dest); [|done].
  split; [done|]. split; [done|]. intros i Hi. rewrite R' by done. apply (wr_out _ _ _ _ W). lia.
Qed.
