(* ===== verification/BinderAllocTheorems.v ===== *)
(** * The binder buffer allocator: the properties

    The life of an allocator as a step relation with its invariant, and the
    theorems about [src/binder/binder_alloc.c], each with a concrete instance
    on a small mapping ([demo]). *)

From Stdlib Require Import ZArith Lia.
From stdpp Require Import base option gmap sets sorting list.
From S2P Require Import Prelude RbTree BinderAlloc BinderAllocFacts BinderAllocInv BinderAllocFree.
From S2P Require Import BinderAllocLife BinderAllocCopy.

(** ** Reachable allocators *)

Section system.
Context `{RB : Rbtree} {RBL : RbtreeLaws}.

(** What the driver may write into a buffer it was given: whose it is, and
    whether user space may free it. *)
Definition owned_by (b : binder_buffer) (allow : bool) (dbg : Z) (tr nd : option nat) : binder_buffer :=
  Buffer (free b) allow (async_transaction b) dbg tr nd (data_size b) (offsets_size b)
    (extra_buffers_size b) (user_data b).

(** One call on an allocator; the hypotheses are the callers' obligations. *)
Inductive alloc_step (s : binder_alloc) : binder_alloc -> Prop :=
  | as_mmap v mm vm_start vm_end new_pages ns r s' :
      user_range vm_start vm_end ->
      binder_alloc_mmap_handler v mm vm_start vm_end new_pages ns s = Some (r, s') -> alloc_step s s'
  | as_new_buf E ns d o e is_async r s' :
      (forall n, ns = Some n -> store s !! n = None) -> is_u64 d -> is_u64 o -> is_u64 e ->
      binder_alloc_new_buf E ns d o e is_async s = Some (r, s') -> alloc_step s s'
  | as_own id b allow dbg tr nd :
      store s !! id = Some b -> free b = false ->
      alloc_step s (set_store (<[id := owned_by b allow dbg tr nd]> (store s)) s)
  | as_prepare ptr r s' :
      binder_alloc_prepare_to_free ptr s = Some (r, s') -> alloc_step s s'
  | as_free E id b s' :
      store s !! id = Some b -> free b = false -> transaction b = None ->
      binder_alloc_free_buf E id s = Some (tt, s') -> alloc_step s s'
  | as_write id b offset bytes src r s' :
      store s !! id = Some b -> is_u64 offset -> is_u64 bytes -> bytes <= Z.of_nat (length src) ->
      binder_alloc_copy_to_buffer id offset src bytes s = Some (r, s') -> alloc_step s s'
  | as_write_user id b offset bytes from left_ r s' :
      store s !! id = Some b -> is_u64 offset -> is_u64 bytes -> bytes <= Z.of_nat (length from) ->
      (forall a n, 0 <= n -> 0 <= left_ a n <= n) ->
      binder_alloc_copy_user_to_buffer id offset from left_ bytes s = Some (r, s') -> alloc_step s s'
  | as_close s' :
      binder_alloc_vma_close s = Some (tt, s') -> alloc_step s s'.

(** Mapped and well formed, or not mapped; never a warning. *)
Record alloc_inv (s : binder_alloc) : Prop := AllocInv {
  ai_state : wf s \/ unmapped s /\ vma s = None;
  ai_quiet : warnings s = 0
}.

Lemma alloc_inv_init : alloc_inv binder_alloc_init.
Proof. split; [right; split; [apply unmapped_init|done]|done]. Qed.

Lemma wf_set_vma v s : wf s -> wf (set_vma v (vma_vm_mm s) s).
Proof.
  intros Hwf. destruct (wf_pages _ Hwf) as (ps & HA). split; try apply Hwf.
  by apply (tiling_ext s); [apply wf_tiling|..].
Qed.

Lemma unmapped_no_buffer s id b : unmapped s -> store s !! id = Some b -> False.
Proof. intros [_ _ -> _ _] H. by rewrite lookup_empty in H. Qed.

Lemma new_buf_inv E ns d o e is_async s r s' : alloc_inv s ->
  (forall n, ns = Some n -> store s !! n = None) -> is_u64 d -> is_u64 o -> is_u64 e ->
  binder_alloc_new_buf E ns d o e is_async s = Some (r, s') -> alloc_inv s'.
Proof.
  intros [[Hwf|[Hun Hv]] Hq] Hns Hd Ho He Er.
  - destruct (new_buf_ok E s ns d o e is_async Hwf Hns Hd Ho He) as (r1 & s1 & E1 & Hp).
    rewrite Er in E1. injection E1 as <- <-. destruct r as [id|err].
    + destruct Hp as (_ & size & _ & Ha). split; [left; apply Ha|].
      destruct (ap_space _ _ _ _ _ _ _ _ Ha) as (_ & _ & _ & _ & _ & _ & Hw). congruence.
    + destruct Hp as [Hpo _]. split; [left; by apply (wf_pages_only s)|].
      by destruct Hpo as (ps & ps' & h & _ & -> & _).
  - unfold binder_alloc_new_buf, binder_alloc_new_buf_locked in Er.
    erewrite bind_eq in Er by reflexivity. rewrite Hv, bool_decide_true in Er by done.
    injection Er as <- <-. split; [by right|done].
Qed.

Lemma mmap_inv s v mm vm_start vm_end new_pages ns r s' : alloc_inv s -> user_range vm_start vm_end ->
  binder_alloc_mmap_handler v mm vm_start vm_end new_pages ns s = Some (r, s') -> alloc_inv s'.
Proof.
  intros [[Hwf|[Hun Hv]] Hq] Hr Em.
  - destruct (ti_size _ (wf_tiling _ Hwf)) as [[H1 _] _]. unfold binder_alloc_mmap_handler in Em.
    erewrite bind_eq in Em by reflexivity. rewrite (proj2 (Z.eqb_neq _ _)) in Em by lia.
    injection Em as <- <-. split; [by left|done].
  - destruct (mmap_handler_ok s v mm vm_start vm_end new_pages ns Hr Hun) as (r1 & s1 & E1 & Hp).
    rewrite Em in E1. injection E1 as <- <-.
    destruct Hp as [(_ & Hwf & _ & _ & _ & _ & _ & _ & Hw)|(_ & Hun' & Hv' & Hw & _)]; split; try congruence.
    + by left.
    + right. split; [done|congruence].
Qed.

Lemma write_inv s id b offset bytes src r s' : wf s -> store s !! id = Some b ->
  is_u64 offset -> is_u64 bytes -> bytes <= Z.of_nat (length src) ->
  binder_alloc_copy_to_buffer id offset src bytes s = Some (r, s') -> wf s' /\ warnings s' = warnings s.
Proof.
  intros Hwf Hb Ho Hby Hlen E. destruct (check_buffer_ok s id b offset bytes (wf_tiling _ Hwf) Hb Ho Hby)
    as ([] & Ec & Hr).
  - destruct (copy_to_ok s id b offset bytes src) as (ps & ps' & Hps & E' & W); [done..|by apply Hr|done|].
    rewrite E in E'. injection E' as -> ->. split; [by eapply wf_written|done].
  - unfold binder_alloc_copy_to_buffer, binder_alloc_do_buffer_copy in E.
    erewrite bind_eq in E by (erewrite bind_eq by exact Ec; reflexivity). by injection E as <- <-.
Qed.

Lemma write_user_inv s id b offset bytes from left_ r s' : wf s -> store s !! id = Some b ->
  is_u64 offset -> is_u64 bytes -> bytes <= Z.of_nat (length from) ->
  (forall a n, 0 <= n -> 0 <= left_ a n <= n) ->
  binder_alloc_copy_user_to_buffer id offset from left_ bytes s = Some (r, s') ->
  wf s' /\ warnings s' = warnings s.
Proof.
  intros Hwf Hb Ho Hby Hlen Hl E. destruct (check_buffer_ok s id b offset bytes (wf_tiling _ Hwf) Hb Ho Hby)
    as ([] & Ec & Hr).
  - destruct (copy_user_ok s id b offset bytes from left_) as (ps & ps' & m & pad & Hps & E' & _ & W & _);
      [done..|by apply Hr|done|done|].
    rewrite E in E'. injection E' as -> ->. split; [by eapply wf_written|done].
  - unfold binder_alloc_copy_user_to_buffer in E. erewrite bind_eq in E by exact Ec.
    by injection E as <- <-.
Qed.

Lemma alloc_inv_step s s' : alloc_inv s -> alloc_step s s' -> alloc_inv s'.
Proof.
  intros Hi H. pose proof Hi as [Hs Hq]. destruct H.
  - by eapply mmap_inv.
  - by apply (new_buf_inv E ns d o e is_async s r).
  - destruct Hs as [Hwf|[Hun _]]; [|by edestruct unmapped_no_buffer].
    split; [left; by apply (wf_touch s id b)|done].
  - destruct Hs as [Hwf|[Hun Hv]].
    + destruct (prepare_to_free_ok s ptr Hwf) as (r1 & s1 & E1 & Hp & Hwf1).
      rewrite H in E1. injection E1 as <- <-. split; [by left|].
      destruct r as [|id|err]; [by destruct Hp as [-> _]| |by destruct Hp as [-> _]].
      by destruct Hp as (b & _ & _ & _ & _ & ->).
    + unfold binder_alloc_prepare_to_free, binder_alloc_prepare_to_free_locked in H.
      erewrite bind_eq in H by reflexivity. rewrite (um_allocated _ Hun) in H. by injection H as <- <-.
  - destruct Hs as [Hwf|[Hun _]]; [|by edestruct unmapped_no_buffer].
    destruct (free_buf_ok E s id b Hwf) as (s1 & E1 & Hp); [done..|]. rewrite H2 in E1. injection E1 as <-.
    split; [left; apply Hp|]. destruct (fp_space _ _ _ _ Hp) as (_ & _ & _ & _ & Hw & _). congruence.
  - destruct Hs as [Hwf|[Hun _]]; [|by edestruct unmapped_no_buffer].
    destruct (write_inv s id b offset bytes src r s') as [? Hw]; try done. split; [by left|by rewrite Hw].
  - destruct Hs as [Hwf|[Hun _]]; [|by edestruct unmapped_no_buffer].
    destruct (write_user_inv s id b offset bytes from left_ r s') as [? Hw]; try done.
    split; [by left|by rewrite Hw].
  - injection H as <-. split; [|done]. destruct Hs as [Hwf|[Hun _]].
    + left. by apply (wf_set_vma None).
    + right. split; [by destruct Hun|done].
Qed.

Lemma alloc_reachable s : star alloc_step binder_alloc_init s -> alloc_inv s.
Proof. intros H. eapply star_invariant; [apply alloc_inv_step|apply alloc_inv_init|exact H]. Qed.
End system.

(** ** The demonstration space *)

#[local] Existing Instance plain_rbtree.
#[local] Existing Instance plain_rbtree_laws.

Definition after {A} (m : M binder_alloc A) (s : binder_alloc) : binder_alloc :=
  match m s with Some (_, s') => s' | None => s end.

Lemma after_step {A} (m : M binder_alloc A) s : is_Some (m s) -> exists a, m s = Some (a, after m s).
Proof. intros [[a s'] E]. exists a. unfold after. by rewrite E. Qed.

(** All the memory it asks for. *)
Definition demo_env : page_env := PageEnv true (fun _ => true) (fun _ => 0).
Lemma demo_cooperative : cooperative demo_env.
Proof. done. Qed.

(** Four pages; 112 bytes used (one free buffer behind them); 5000 more. *)
Definition demo_mapped : binder_alloc :=
  after (binder_alloc_mmap_handler 1 (Some 2%nat) 1048576 1064960 true (Some 0%nat)) binder_alloc_init.
Definition demo_one : binder_alloc := after (binder_alloc_new_buf demo_env (Some 1%nat) 100 8 0 false) demo_mapped.
Definition demo_two : binder_alloc := after (binder_alloc_new_buf demo_env (Some 2%nat) 5000 0 0 true) demo_one.

Lemma demo_range : user_range 1048576 1064960.
Proof. unfold user_range. split; [lia|]. by split; [lia|]. Qed.

Lemma demo_mapped_inv : alloc_inv demo_mapped.
Proof.
  apply (mmap_inv binder_alloc_init 1 (Some 2%nat) 1048576 1064960 true (Some 0%nat) 0);
    [apply alloc_inv_init|apply demo_range|vm_compute; reflexivity].
Qed.

Lemma demo_mapped_wf : wf demo_mapped.
Proof. destruct demo_mapped_inv as [[?|[[H _ _ _ _] _]] _]; [done|]. by vm_compute in H. Qed.

(** An allocation that succeeded on a well-formed space. *)
Lemma new_buf_wf E n d o e is_async s id s' : wf s -> store s !! n = None ->
  is_u64 d -> is_u64 o -> is_u64 e ->
  binder_alloc_new_buf E (Some n) d o e is_async s = Some (inl id, s') -> wf s'.
Proof.
  intros Hwf Hn Hd Ho He Er.
  destruct (new_buf_ok E s (Some n) d o e is_async Hwf) as (r1 & s1 & E1 & Hp); [by intros ? [= <-]|done..|].
  rewrite Er in E1. injection E1 as <- <-. destruct Hp as (_ & size & _ & Ha). apply Ha.
Qed.

Lemma demo_one_wf : wf demo_one.
Proof.
  apply (new_buf_wf demo_env 1 100 8 0 false demo_mapped 0); [apply demo_mapped_wf|vm_compute; reflexivity|by split..|].
  vm_compute. reflexivity.
Qed.

Lemma demo_two_wf : wf demo_two.
Proof.
  apply (new_buf_wf demo_env 2 5000 0 0 true demo_one 1); [apply demo_one_wf|vm_compute; reflexivity|by split..|].
  vm_compute. reflexivity.
Qed.

(** ** Allocating and freeing again *)

Lemma abs_split_unique s A B A' B' st e e' f f' : tiling s ->
  abs s = A ++ (st, e, f) :: B -> abs s = A' ++ (st, e', f') :: B' -> A = A' /\ e = e' /\ f = f' /\ B = B'.
Proof.
  intros Ht E E'. rewrite E in E'.
  destruct (nodup_key_split (fun p : Z * Z * bool => fst (fst p)) A B A' B' (st, e, f) (st, e', f'))
    as (-> & Ex & ->); [|done|done|by injection Ex as -> ->].
  rewrite <- E. unfold abs. rewrite map_map. cbn [piece fst].
  apply NoDup_fmap_2_strong; [|apply (ti_nodup _ Ht)]. intros i j Hi Hj. by apply ud_inj.
Qed.

(** The pieces next to a free one are not free. *)
Lemma free_alone s id A B : wf s -> id ∈ buffers s -> fr (store s) id = true ->
  abs s = A ++ (ud (store s) id, bend s id, true) :: B ->
  (forall st e, last A <> Some (st, e, true)) /\ (forall st e, head B <> Some (st, e, true)).
Proof.
  intros Hwf Hid Hf E. pose proof Hid as (l1 & l2 & El)%list_elem_of_split.
  assert (E2 : abs s = map (piece s) l1 ++ (ud (store s) id, bend s id, true) :: map (piece s) l2).
  { unfold abs. rewrite El, map_app. cbn [map]. unfold piece at 2. by rewrite Hf. }
  destruct (abs_split_unique s _ _ _ _ _ _ _ _ _ (wf_tiling _ Hwf) E E2) as (-> & _ & _ & ->).
  pose proof (wf_coalesced _ Hwf) as Hc. rewrite El in Hc. split; intros st e Hx.
  - destruct l1 as [|y l1 _] using rev_ind; [done|].
    rewrite map_app in Hx. cbn [map] in Hx. rewrite last_snoc in Hx. injection Hx as _ _ Hfy.
    rewrite <- app_assoc in Hc. apply coalesced_mid in Hc. rewrite Hfy, Hf in Hc. done.
  - destruct l2 as [|y l2]; [done|]. injection Hx as _ _ Hfy.
    apply coalesced_mid in Hc. by rewrite Hfy, Hf in Hc.
Qed.

Lemma spec_free_back A B st en (rest : list (Z * Z * bool)) e :
  (forall x y, last A <> Some (x, y, true)) -> (forall x y, head B <> Some (x, y, true)) ->
  rest = [] /\ e = en \/ rest = [(e, en, true)] ->
  spec_free A st e (rest ++ B) = A ++ (st, en, true) :: B.
Proof.
  intros HA HB Hr. unfold spec_free, absorb_prev, absorb_next.
  assert (Hp : match last A with Some (st0, _, true) => (st0, take (length A - 1) A) | _ => (st, A) end = (st, A)).
  { destruct (last A) as [[[x y] []]|] eqn:Hl; [by destruct (HA x y)|done..]. }
  rewrite Hp. destruct Hr as [[-> ->]| ->]; [|done].
  destruct B as [|[[x y] []] B]; [done|by destruct (HB x y)|done].
Qed.

(** What a free gives back to the asynchronous space after the allocation
    took its share. *)
Lemma async_back_ok (s s1 : binder_alloc) (b : binder_buffer) (d o e : Z) (is_async : bool) (size : Z) : is_u64 (free_async_space s) ->
  is_u64 d -> is_u64 o -> is_u64 e -> request_size d o e = Some size ->
  free_async_space s1 = (if is_async
    then u64 (free_async_space s - u64 (Z.max size SIZEOF_PTR + SIZEOF_BINDER_BUFFER)) else free_async_space s) ->
  async_back (taken_buf b d o e is_async) s1 =
    if is_async && (size =? 0) then u64 (free_async_space s - 8) else free_async_space s.
Proof.
  intros Hu Hd Ho He Hreq Ha. unfold async_back. cbn [taken_buf async_transaction data_size offsets_size extra_buffers_size].
  destruct is_async; [|done]. cbn [andb]. destruct (request_size_pos d o e size Hd Ho He Hreq) as [Hs Hs8].
  rewrite (request_size_sum d o e size Hreq), Ha.
  rewrite u64_sub_r, u64_add_r, u64_add_l. unfold SIZEOF_PTR, SIZEOF_BINDER_BUFFER.
  destruct (Z.eqb_spec size 0) as [->|Hne].
  - f_equal. change (Z.max 0 8) with 8. lia.
  - rewrite Z.max_l; [rewrite <- (u64_small (free_async_space s)) at 2 by done; f_equal; lia|].
    apply Z.mod_divide in Hs8 as [k Hk]; lia.
Qed.

Lemma abs_touch s id b B : wf s -> store s !! id = Some b -> user_data B = user_data b -> free B = free b ->
  abs (set_store (<[id := B]> (store s)) s) = abs s.
Proof.
  intros Hwf Hb Hu Hf. unfold abs. apply map_ext. intros i. unfold piece.
  destruct (tiling_taken s id b B (free_buffers s) (allocated_buffers s) (free_async_space s)
    (wf_tiling _ Hwf) Hb Hu) as [_ Hbend].
  assert (E1 : ud (store (set_store (<[id := B]> (store s)) s)) i = ud (store s) i)
    by by apply (ud_insert_same _ _ b).
  assert (E2 : fr (store (set_store (<[id := B]> (store s)) s)) i = fr (store s) i).
  { simpl. rewrite fr_insert. case_decide; [|done]. subst. by rewrite Hf, (fr_eq s id b). }
  rewrite E1, E2. do 2 f_equal. exact (Hbend i).
Qed.

(** A buffer whose permission is gone is found and refused. *)
Lemma prepare_again s id b ptr : wf s -> store s !! id = Some b -> free b = false -> user_data b = ptr ->
  let s1 := set_store (<[id := handed_out b]> (store s)) s in
  binder_alloc_prepare_to_free ptr s1 = Some (LookupErr (- EPERM), s1).
Proof.
  intros Hwf Hb Hf Hu s1. assert (Hwf1 : wf s1) by by apply (wf_touch s id b).
  assert (Hb1 : store s1 !! id = Some (handed_out b)) by apply lookup_insert_eq.
  assert (Hid1 : id ∈ buffers s1) by (apply (ti_store _ (wf_tiling _ Hwf1)); by eexists).
  destruct (prepare_to_free_ok s1 ptr Hwf1) as (r & s2 & E & Hp & _). rewrite E.
  pose proof (wf_allocated _ Hwf1) as (_ & A2 & _).
  assert (Hin : id ∈ rb_inorder (allocated_buffers s1)) by (apply A2; by rewrite (fr_eq s1 id _ Hb1)).
  destruct r as [|i|err].
  - destruct Hp as [_ Hp]. destruct (Hp id Hin). by rewrite (ud_eq s1 id _ Hb1).
  - destruct Hp as (bi & Hi & Hbi & Hui & Hai & _). apply A2 in Hi as [Hi _].
    assert (i = id) as ->; [|rewrite Hb1 in Hbi; by injection Hbi as <-]. apply (ud_inj s1); [apply wf_tiling, Hwf1|done..|].
    by rewrite (ud_eq s1 i bi), (ud_eq s1 id _ Hb1), Hui.
  - by destruct Hp as (-> & -> & _).
Qed.

(** ** Allocation *)

Section theorems.
Context `{RB : Rbtree} {RBL : RbtreeLaws}.

(** C19: a successful allocation takes a free buffer that is large enough and
    of which no smaller large enough one exists, cuts exactly the rounded
    request (at least 8 bytes) off its start and leaves the rest free behind
    it, changes no other buffer, keeps the allocator's invariant, and has put
    a page behind every byte of the buffer it returns. *)
Theorem new_buf_best_fit E ns d o e is_async s id s' :
  wf s -> (forall n, ns = Some n -> store s !! n = None) -> is_u64 d -> is_u64 o -> is_u64 e ->
  binder_alloc_new_buf E ns d o e is_async s = Some (inl id, s') ->
  exists size b ps A B, request_size d o e = Some size /\
    let len := Z.max size 8 in
    wf s' /\
    (fr (store s) id = true /\ len <= bsize s id /\
     forall j, j ∈ buffers s -> fr (store s) j = true -> len <= bsize s j -> bsize s id <= bsize s j) /\
    abs s = A ++ (ud (store s) id, bend s id, true) :: B /\
    abs s' = A ++ (ud (store s) id, ud (store s) id + len, false) ::
      (if bsize s id =? len then [] else [(ud (store s) id + len, bend s id, true)]) ++ B /\
    (forall j, j ∈ buffers s -> j <> id -> store s' !! j = store s !! j) /\
    store s' !! id = Some b /\ (data_size b, offsets_size b, extra_buffers_size b) = (d, o, e) /\
    allow_user_free b = false /\ async_transaction b = is_async /\
    pages s' = Some ps /\ backed ps (base_off s' b) (Z.to_nat len).
Proof.
  intros Hwf Hns Hd Ho He Er.
  destruct (new_buf_ok E s ns d o e is_async Hwf Hns Hd Ho He) as (r1 & s1 & E1 & Hp).
  rewrite Er in E1. injection E1 as <- <-.
  destruct Hp as (_ & size & Hreq & [Hwf' (b & Hb & Hf & Hb') Hfit Hbest (A & B & EA & EB) _ _ _ Hoth]).
  set (B' := taken_buf b d o e is_async) in *. destruct (wf_pages _ Hwf') as (ps & Hps & _).
  exists size, B', ps, A, B. unfold SIZEOF_PTR in *.
  assert (Hlen : bsize s' id = Z.max size 8).
  { destruct (wf_sizes _ Hwf' id B' Hb' eq_refl) as (z & Hz & ->).
    unfold B' in Hz. cbn [data_size offsets_size extra_buffers_size taken_buf] in Hz.
    rewrite Hreq in Hz. by injection Hz as ->. }
  split; [done|]. split; [done|]. split; [by rewrite (fr_eq s id b)|].
  do 8 (split; [done|]).
  replace (base_off s' B') with (base_off s' B' + 0)%nat by lia.
  apply (backed_buffer s' id); [done..|rewrite Hlen; lia].
Qed.

(** C20: when the process still has its mapping and the kernel has memory,
    every request whose rounded size does not overflow and that some free
    buffer can hold (and, for an asynchronous one, that the asynchronous space
    can hold) succeeds. *)
Theorem new_buf_succeeds E ns d o e is_async s size j :
  wf s -> (forall n, ns = Some n -> store s !! n = None) -> is_u64 d -> is_u64 o -> is_u64 e ->
  helpful E s ns -> request_size d o e = Some size ->
  (is_async = true -> size + SIZEOF_BINDER_BUFFER <= free_async_space s) ->
  j ∈ buffers s -> fr (store s) j = true -> Z.max size 8 <= bsize s j ->
  exists id s', binder_alloc_new_buf E ns d o e is_async s = Some (inl id, s').
Proof.
  intros Hwf Hns Hd Ho He Hh Hreq Has Hj Hf Hle.
  destruct (new_buf_ok E s ns d o e is_async Hwf Hns Hd Ho He) as ([id|err] & s' & Er & Hp); [by exists id, s'|].
  exfalso. destruct Hp as [_ [[_ Hn]|[[_ Hn]|[(_ & size' & Hreq' & Hn)|[_ Hn]]]]]; [done|congruence| |done].
  rewrite Hreq in Hreq'. injection Hreq' as <-. unfold SIZEOF_PTR in *. destruct Hn as [[-> Hn]|Hn].
  - specialize (Has eq_refl). lia.
  - specialize (Hn j Hj Hf). lia.
Qed.


(** C22: freeing an allocated buffer whose transaction is over succeeds and
    makes exactly its piece of the space free, absorbing the free piece behind
    it and then the one before it; every other allocated buffer and every page
    is kept, and the invariant (no two free neighbours) holds again. *)
Theorem free_buf_coalesces E s id b :
  wf s -> store s !! id = Some b -> free b = false -> transaction b = None ->
  exists s' A B, binder_alloc_free_buf E id s = Some (tt, s') /\ wf s' /\
    abs s = A ++ (ud (store s) id, bend s id, false) :: B /\
    abs s' = spec_free A (ud (store s) id) (bend s id) B /\
    (forall j bj, j <> id -> store s !! j = Some bj -> free bj = false -> store s' !! j = Some bj) /\
    pages s' = pages s /\ warnings s' = warnings s.
Proof.
  intros Hwf Hb Hf Ht. destruct (free_buf_ok E s id b Hwf Hb Hf Ht) as (s' & Ef & Hp).
  destruct Hp as [Hwf' (A & B & EA & EB) _ Hps (_ & _ & _ & _ & Hw & _) _ Hoth].
  by exists s', A, B.
Qed.

(** C23: every state an allocator reaches through mapping attempts,
    allocations, ownership changes, lookups, frees, copies and the unmapping of
    its vma is either still unmapped or well formed (the buffers tile the
    range, the trees hold exactly the free and the allocated ones in their
    orders, no two free neighbours, pages behind every allocated byte), and no
    WARN has fired. *)
Theorem alloc_reachable_wf s :
  star alloc_step binder_alloc_init s ->
  warnings s = 0 /\ (wf s \/ buffer_size s = 0 /\ store s = ∅ /\ vma s = None).
Proof.
  intros H%alloc_reachable. destruct H as [[Hwf|[[? ? ? ? ?] Hv]] Hq]; split; try done; [by left|by right].
Qed.
(** freeing the buffer that an allocation just returned gives back exactly
    the partition from before, whatever it was; the asynchronous space comes
    back too, except that an asynchronous request of size 0 loses 8 bytes of
    it each time. *)
Theorem alloc_then_free E E' ns d o e is_async s id s1 :
  wf s -> (forall n, ns = Some n -> store s !! n = None) -> is_u64 d -> is_u64 o -> is_u64 e ->
  is_u64 (free_async_space s) -> (forall b, store s !! id = Some b -> transaction b = None) ->
  binder_alloc_new_buf E ns d o e is_async s = Some (inl id, s1) ->
  exists s2 size, binder_alloc_free_buf E' id s1 = Some (tt, s2) /\ wf s2 /\ abs s2 = abs s /\
    request_size d o e = Some size /\
    free_async_space s2 =
      if is_async && (size =? 0) then u64 (free_async_space s - 8) else free_async_space s.
Proof.
  intros Hwf Hns Hd Ho He Hu Htr Er.
  destruct (new_buf_ok E s ns d o e is_async Hwf Hns Hd Ho He) as (r1 & sx & E1 & Hp).
  rewrite Er in E1. injection E1 as <- <-.
  destruct Hp as (_ & size & Hreq & [Hwf1 (b & Hb & Hf & Hb1) Hfit _ (A & B & EA & EB) Ha _ _ _]).
  assert (Hid : id ∈ buffers s) by (apply (ti_store _ (wf_tiling _ Hwf)); by eexists).
  assert (Hfr : fr (store s) id = true) by by rewrite (fr_eq s id b).
  destruct (free_alone s id A B Hwf Hid Hfr EA) as [HA HB].
  destruct (free_buf_ok E' s1 id _ Hwf1 Hb1 eq_refl) as (s2 & Ef & Hpost); [by apply (Htr b)|].
  destruct Hpost as [Hwf2 (PA & PB & EPA & EPB) Has _ _ _ _].
  rewrite (ud_eq s1 id _ Hb1) in EPA, EPB. cbn [user_data taken_buf] in EPA, EPB.
  rewrite <- (ud_eq s id b Hb) in EPA, EPB.
  destruct (abs_split_unique s1 _ _ _ _ _ _ _ _ _ (wf_tiling _ Hwf1) EB EPA) as (<- & Een & _ & <-).
  exists s2, size. split; [done|]. split; [done|]. split; [|split; [done|]].
  - rewrite EPB, EA, <- Een. apply spec_free_back; [done..|].
    destruct (Z.eqb_spec (bsize s id) (Z.max size SIZEOF_PTR)) as [Heq|Hne]; [left|by right].
    split; [done|]. rewrite <- Heq. unfold bsize. lia.
  - rewrite Has. by apply (async_back_ok s s1 b d o e).
Qed.

(** C24: a user pointer is accepted for freeing exactly when it is the start of
    an allocated buffer that user space may free; accepting it withdraws the
    permission, so the same pointer is refused with -EPERM the second time;
    a refusal changes nothing, and an unknown pointer finds nothing. *)
Theorem prepare_to_free_once s ptr : wf s ->
  exists r s1, binder_alloc_prepare_to_free ptr s = Some (r, s1) /\ wf s1 /\
    match r with
    | Found id => exists b, store s !! id = Some b /\ free b = false /\ user_data b = ptr /\
        allow_user_free b = true /\ abs s1 = abs s /\
        binder_alloc_prepare_to_free ptr s1 = Some (LookupErr (- EPERM), s1)
    | LookupErr err => err = - EPERM /\ s1 = s /\ exists id b, store s !! id = Some b /\
        free b = false /\ user_data b = ptr /\ allow_user_free b = false
    | NotFound => s1 = s /\ forall id b, store s !! id = Some b -> free b = false -> user_data b <> ptr
    end.
Proof.
  intros Hwf. destruct (prepare_to_free_ok s ptr Hwf) as (r & s1 & E & Hp & Hwf1).
  pose proof (wf_allocated _ Hwf) as (_ & A2 & _).
  assert (Hal : forall id b, store s !! id = Some b ->
    id ∈ rb_inorder (allocated_buffers s) <-> free b = false).
  { intros id b Hb. rewrite A2, (fr_eq s id b Hb). split; [by intros []|].
    intros Hf. split; [apply (ti_store _ (wf_tiling _ Hwf)); by eexists|done]. }
  exists r, s1. split; [done|]. split; [done|]. destruct r as [|id|err].
  - destruct Hp as [-> Hp]. split; [done|]. intros id b Hb Hf%(Hal id b Hb).
    rewrite <- (ud_eq s id b Hb). by apply Hp.
  - destruct Hp as (b & Hid & Hb & Hu & Ha & ->). exists b.
    assert (Hf : free b = false) by by apply (Hal id b Hb).
    split; [done|]. split; [done|]. split; [done|]. split; [done|]. split.
    + by apply abs_touch with (b := b).
    + by apply (prepare_again s id b ptr).
  - destruct Hp as (-> & -> & id & b & Hid & Hb & Hu & Ha). split; [done|]. split; [done|].
    exists id, b. split; [done|]. split; [by apply (Hal id b Hb)|done].
Qed.

(** Mapping an address space either sets up one free buffer that spans
    the whole range (at most 4 MiB) and half of it as asynchronous space, or
    returns -ENOMEM and leaves the allocator as unmapped as it was, or returns
    -EBUSY for a space that is already mapped and changes nothing. *)
Theorem mmap_handler_outcomes s v mm vm_start vm_end new_pages ns :
  user_range vm_start vm_end -> alloc_inv s ->
  exists r s', binder_alloc_mmap_handler v mm vm_start vm_end new_pages ns s = Some (r, s') /\
    alloc_inv s' /\
    ((r = 0 /\ wf s' /\ buffer s' = vm_start /\ vma s' = Some v /\
      buffer_size s' = Z.min (u64 (vm_end - vm_start)) SZ_4M /\
      abs s' = [(vm_start, vm_start + buffer_size s', true)] /\
      free_async_space s' = buffer_size s' / 2) \/
     (r = - ENOMEM /\ unmapped s /\ unmapped s' /\ (new_pages = false \/ ns = None)) \/
     (r = - EBUSY /\ wf s /\ s' = s)).
Proof.
  intros Hr Hi. pose proof Hi as [[Hwf|[Hun Hv]] Hq].
  - destruct (ti_size _ (wf_tiling _ Hwf)) as [[H1 _] _]. exists (- EBUSY), s.
    split; [|split; [done|right; right; done]]. unfold binder_alloc_mmap_handler.
    erewrite bind_eq by reflexivity. by rewrite (proj2 (Z.eqb_neq _ _)) by lia.
  - destruct (mmap_handler_ok s v mm vm_start vm_end new_pages ns Hr Hun) as (r & s' & Em & Hp).
    exists r, s'. split; [done|]. split; [by eapply mmap_inv|].
    destruct Hp as [(? & ? & ? & ? & ? & ? & ? & ? & ?)|(? & ? & _ & _ & ?)]; [by left|right; by left].
Qed.

(** C25: releasing the allocator after its vma is gone and every transaction
    is over frees each remaining allocated buffer (the returned count is their
    number), every buffer structure and every page (the returned page count is
    the number of pages that were there), drops its reference on the address
    space and raises no warning. *)
Theorem deferred_release_returns_all E s :
  wf s -> vma s = None -> no_transactions s ->
  exists s' ps, pages s = Some ps /\ binder_alloc_deferred_release E s =
      Some ((Z.of_nat (length (rb_inorder (allocated_buffers s))), present_count ps), s') /\
    buffers s' = [] /\ store s' = ∅ /\ pages s' = None /\ warnings s' = warnings s /\
    mm_count s' = mm_count s - match vma_vm_mm s with Some _ => 1 | None => 0 end.
Proof.
  intros Hwf Hv Hno. destruct (wf_pages _ Hwf) as (ps & Hps & _).
  destruct (deferred_release_ok E s ps Hwf Hv Hno Hps) as (s' & Er & []). by exists s', ps.
Qed.
End theorems.

Lemma new_buf_best_fit_witness : exists s' size A B,
  binder_alloc_new_buf demo_env (Some 2%nat) 5000 0 0 true demo_one = Some (inl 1%nat, s') /\
  request_size 5000 0 0 = Some size /\
  abs s' = A ++ (1048688, 1048688 + Z.max size 8, false) :: [(1048688 + Z.max size 8, 1064960, true)] ++ B.
Proof.
  assert (Er : binder_alloc_new_buf demo_env (Some 2%nat) 5000 0 0 true demo_one = Some (inl 1%nat, demo_two))
    by (vm_compute; reflexivity).
  destruct (new_buf_best_fit demo_env (Some 2%nat) 5000 0 0 true demo_one 1 demo_two demo_one_wf)
    as (size & b & ps & A & B & Hs & _ & _ & EA & EB & _); [|by split..|exact Er|].
  - intros n [= <-]. vm_compute. reflexivity.
  - exists demo_two, size, A, B. split; [exact Er|]. split; [exact Hs|].
    assert (E1 : ud (store demo_one) 1 = 1048688) by (vm_compute; reflexivity).
    assert (E2 : bend demo_one 1 = 1064960) by (vm_compute; reflexivity).
    assert (E3 : bsize demo_one 1 = 16272) by (vm_compute; reflexivity).
    rewrite E1, E2, E3 in EB. assert (E5 : request_size 5000 0 0 = Some 5000) by (vm_compute; reflexivity).
    rewrite E5 in Hs. injection Hs as <-. exact EB.
Defined.

Lemma new_buf_succeeds_witness : exists id s',
  binder_alloc_new_buf demo_env (Some 2%nat) 5000 0 0 true demo_one = Some (inl id, s').
Proof.
  apply (new_buf_succeeds demo_env (Some 2%nat) 5000 0 0 true demo_one 5000 1 demo_one_wf).
  - intros n [= <-]. vm_compute. reflexivity.
  - by split.
  - by split.
  - by split.
  - split; [done|]. split; [reflexivity|]. split; [vm_compute; discriminate|]. split; [vm_compute; discriminate|done].
  - vm_compute. reflexivity.
  - intros _. vm_compute. discriminate.
  - apply (bool_decide_unpack _). vm_compute. exact I.
  - vm_compute. reflexivity.
  - vm_compute. discriminate.
Defined.


Lemma free_buf_coalesces_witness : exists s', binder_alloc_free_buf demo_env 1 demo_two = Some (tt, s') /\ wf s'.
Proof.
  destruct (store demo_two !! 1%nat) as [b|] eqn:Hb; [|vm_compute in Hb; discriminate].
  destruct (free_buf_coalesces demo_env demo_two 1 b demo_two_wf Hb) as (s' & A & B & Ef & Hwf & _).
  - vm_compute in Hb. injection Hb as <-. reflexivity.
  - vm_compute in Hb. injection Hb as <-. reflexivity.
  - exists s'. split; [exact Ef|exact Hwf].
Defined.

Lemma alloc_reachable_wf_witness : warnings demo_mapped = 0.
Proof.
  refine (proj1 (alloc_reachable_wf demo_mapped _)). eapply star_step; [apply star_refl|].
  apply (as_mmap _ 1 (Some 2%nat) 1048576 1064960 true (Some 0%nat) 0);
    [apply demo_range|vm_compute; reflexivity].
Defined.

Lemma alloc_then_free_witness : exists s2,
  binder_alloc_free_buf demo_env 1 demo_two = Some (tt, s2) /\ abs s2 = abs demo_one.
Proof.
  destruct (alloc_then_free demo_env demo_env (Some 2%nat) 5000 0 0 true demo_one 1 demo_two demo_one_wf)
    as (s2 & size & Ef & _ & Ea & _); [|by split..| | | |].
  - intros n [= <-]. vm_compute. reflexivity.
  - split; vm_compute; [discriminate|reflexivity].
  - intros b Hb. vm_compute in Hb. by injection Hb as <-.
  - vm_compute. reflexivity.
  - exists s2. split; [exact Ef|exact Ea].
Defined.

(** The driver hands the second buffer to user space. *)
Definition demo_handed : binder_alloc :=
  set_store (<[1%nat := owned_by (default (Buffer true false false 0 None None 0 0 0 0)
    (store demo_two !! 1%nat)) true 7 None None]> (store demo_two)) demo_two.

Lemma demo_handed_wf : wf demo_handed.
Proof.
  destruct (store demo_two !! 1%nat) as [b|] eqn:Hb; [|vm_compute in Hb; discriminate].
  unfold demo_handed. rewrite Hb. cbn [default].
  assert (Hf : free b = false) by (vm_compute in Hb; by injection Hb as <-).
  by apply (wf_touch demo_two 1 b); [apply demo_two_wf|..].
Qed.

Lemma prepare_to_free_once_witness : exists r s1,
  binder_alloc_prepare_to_free 1048688 demo_handed = Some (r, s1) /\
  (r = Found 1 -> binder_alloc_prepare_to_free 1048688 s1 = Some (LookupErr (- EPERM), s1)).
Proof.
  destruct (prepare_to_free_once demo_handed 1048688 demo_handed_wf) as (r & s1 & E & _ & Hr).
  exists r, s1. split; [exact E|]. intros ->. destruct Hr as (b & _ & _ & _ & _ & _ & H). exact H.
Defined.

Lemma mmap_handler_outcomes_witness : exists r s',
  binder_alloc_mmap_handler 1 (Some 2%nat) 1048576 1064960 true (Some 0%nat) demo_mapped = Some (r, s') /\
  alloc_inv s'.
Proof.
  destruct (mmap_handler_outcomes demo_mapped 1 (Some 2%nat) 1048576 1064960 true (Some 0%nat)
    demo_range demo_mapped_inv) as (r & s' & E & Hi & _). exists r, s'. split; [exact E|exact Hi].
Defined.

Definition demo_closed : binder_alloc := after binder_alloc_vma_close demo_two.

Lemma deferred_release_returns_all_witness : exists counts s',
  binder_alloc_deferred_release demo_env demo_closed = Some (counts, s') /\ store s' = ∅.
Proof.
  destruct (deferred_release_returns_all demo_env demo_closed) as (s' & ps & _ & E & _ & Hs & _).
  - apply (wf_set_vma None), demo_two_wf.
  - vm_compute. reflexivity.
  - intros id b Hb _.
    refine (bool_decide_unpack (map_Forall (fun _ b => transaction b = None) (store demo_closed)) _ id b Hb).
    vm_compute. exact I.
  - eexists _, s'. split; [exact E|exact Hs].
Defined.

(** ** Copies *)

(** C26: what the driver writes into a buffer it reads back: after copying
    [src] to an accepted range, copying that range out returns [src]; every
    other accepted range, of this or any other buffer, that does not overlap
    reads as it did before. *)
Theorem copy_roundtrip s id b offset src dest :
  wf s -> store s !! id = Some b -> is_u64 offset -> is_u64 (Z.of_nat (length src)) ->
  access_ok s id b offset (Z.of_nat (length src)) -> length dest = length src ->
  let n := Z.of_nat (length src) in
  exists s', binder_alloc_copy_to_buffer id offset src n s = Some (0, s') /\ wf s' /\
    binder_alloc_copy_from_buffer dest id offset n s' = Some ((0, src), s') /\
    forall id2 b2 offset2 n2 dest2, store s !! id2 = Some b2 -> is_u64 offset2 -> is_u64 n2 ->
      access_ok s id2 b2 offset2 n2 -> n2 <= Z.of_nat (length dest2) ->
      (user_data b2 + offset2 + n2 <= user_data b + offset \/
       user_data b + offset + n <= user_data b2 + offset2) ->
      exists out, binder_alloc_copy_from_buffer dest2 id2 offset2 n2 s = Some ((0, out), s) /\
        binder_alloc_copy_from_buffer dest2 id2 offset2 n2 s' = Some ((0, out), s').
Proof.
  intros Hwf Hb Ho Hn Ha Hd n.
  destruct (copy_to_ok s id b offset n src Hwf Hb Ho Hn Ha) as (ps & ps' & Hps & E & W); [lia|].
  assert (Etk : take (Z.to_nat n) src = src) by (apply take_ge; lia). rewrite Etk in W.
  set (s' := set_pages (Some ps') (pages_high s) s) in *.
  assert (Hwf' : wf s') by by eapply wf_written.
  exists s'. split; [done|]. split; [done|].
  assert (Hread : forall id2 b2 offset2 n2 dest2, store s !! id2 = Some b2 -> is_u64 offset2 -> is_u64 n2 ->
    access_ok s id2 b2 offset2 n2 -> n2 <= Z.of_nat (length dest2) ->
    exists out, binder_alloc_copy_from_buffer dest2 id2 offset2 n2 s' = Some ((0, out), s') /\
      read_out ps' (base_off s b2 + Z.to_nat offset2) (Z.to_nat n2) dest2 out).
  { intros id2 b2 offset2 n2 dest2 Hb2 Ho2 Hn2 Ha2 Hd2.
    destruct (copy_from_ok s' id2 b2 offset2 n2 dest2 Hwf' Hb2 Ho2 Hn2 Ha2 Hd2) as (q & out & Hq & Eo & R).
    injection Hq as <-. by exists out. }
  split.
  - destruct (Hread id b offset n dest Hb Ho Hn Ha ltac:(lia)) as (out & Eo & R).
    unfold n in R. rewrite Nat2Z.id in R. by rewrite Eo, (read_written _ _ _ src dest out W Hd R).
  - intros id2 b2 offset2 n2 dest2 Hb2 Ho2 Hn2 Ha2 Hd2 Hdis.
    destruct (copy_from_ok s id2 b2 offset2 n2 dest2 Hwf Hb2 Ho2 Hn2 Ha2 Hd2) as (q & out & Hq & Eo & R).
    assert (q = ps) as -> by congruence. exists out. split; [done|].
    destruct (Hread id2 b2 offset2 n2 dest2 Hb2 Ho2 Hn2 Ha2 Hd2) as (out' & Eo' & R').
    rewrite Eo', (read_apart ps ps' (base_off s b + Z.to_nat offset)
      (base_off s b2 + Z.to_nat offset2) (Z.to_nat n2) src dest2 out out' W R R'); [done|].
    destruct (base_off_Z s id b (wf_tiling _ Hwf) Hb) as [Z1 _].
    destruct (base_off_Z s id2 b2 (wf_tiling _ Hwf) Hb2) as [Z2 _].
    unfold is_u64, n in *. lia.
Qed.

(** The refused write of 8 bytes at offset 4 of a 100-byte buffer reads back. *)
Lemma copy_roundtrip_witness : exists s',
  binder_alloc_copy_to_buffer 1 4096 [1; 2; 3; 4] 4 demo_two = Some (0, s') /\
  binder_alloc_copy_from_buffer [0; 0; 0; 0] 1 4096 4 s' = Some ((0, [1; 2; 3; 4]), s').
Proof.
  destruct (store demo_two !! 1%nat) as [b|] eqn:Hb; [|vm_compute in Hb; discriminate].
  destruct (copy_roundtrip demo_two 1 b 4096 [1; 2; 3; 4] [0; 0; 0; 0] demo_two_wf Hb)
    as (s' & E1 & _ & E2 & _); [by split|by split| |reflexivity|].
  - assert (Hsz : bsize demo_two 1 = 5000) by (vm_compute; reflexivity).
    split; [rewrite Hsz; by compute|]. split; [reflexivity|].
    vm_compute in Hb. injection Hb as <-. split; [reflexivity|]. left. reflexivity.
  - exists s'. split; [exact E1|exact E2].
Defined.

(** copying user data reports exactly how many bytes did not arrive:
    what it counts as copied is in the buffer as a prefix of the data, at most
    zeros follow within the range, nothing outside the range changes, and with
    no fault everything arrives and 0 is returned; a refused range reports all
    of it and changes nothing. *)
Theorem copy_user_reports s id b offset from left_ bytes :
  wf s -> store s !! id = Some b -> is_u64 offset -> is_u64 bytes ->
  bytes <= Z.of_nat (length from) -> (forall a n, 0 <= n -> 0 <= left_ a n <= n) ->
  exists r s', binder_alloc_copy_user_to_buffer id offset from left_ bytes s = Some (r, s') /\ wf s' /\
    (~ access_ok s id b offset bytes -> r = bytes /\ s' = s) /\
    (access_ok s id b offset bytes -> exists ps ps' (pad : nat),
       pages s = Some ps /\ pages s' = Some ps' /\ 0 <= r /\ Z.of_nat pad <= r <= bytes /\
       written ps ps' (base_off s b + Z.to_nat offset)
         (take (Z.to_nat (bytes - r)) from ++ replicate pad 0) /\
       ((forall a n, left_ a n = 0) -> r = 0)).
Proof.
  intros Hwf Hb Ho Hby Hlen Hl.
  destruct (check_buffer_ok s id b offset bytes (wf_tiling _ Hwf) Hb Ho Hby) as ([] & Ec & Hr).
  - assert (Ha : access_ok s id b offset bytes) by by apply Hr.
    destruct (copy_user_ok s id b offset bytes from left_ Hwf Hb Ho Hby Ha Hlen Hl)
      as (ps & ps' & m & pad & Hps & E & Hm & W & Hall).
    exists (bytes - Z.of_nat m), (set_pages (Some ps') (pages_high s) s). split; [done|].
    split; [by eapply wf_written|]. split; [done|]. intros _. exists ps, ps', pad.
    split; [done|]. split; [done|]. split; [lia|]. split; [lia|]. split.
    + by replace (Z.to_nat (bytes - (bytes - Z.of_nat m))) with m by lia.
    + intros H0. specialize (Hall H0). lia.
  - exists bytes, s. split; [|split; [done|split; [done|]]].
    + unfold binder_alloc_copy_user_to_buffer. by erewrite bind_eq by exact Ec.
    + intros Ha. exfalso. by apply Hr in Ha.
Qed.

Lemma copy_user_reports_witness : exists r s',
  binder_alloc_copy_user_to_buffer 1 4096 [1; 2; 3; 4] (fun _ n => n) 4 demo_two = Some (r, s') /\ wf s'.
Proof.
  destruct (store demo_two !! 1%nat) as [b|] eqn:Hb; [|vm_compute in Hb; discriminate].
  destruct (copy_user_reports demo_two 1 b 4096 [1; 2; 3; 4] (fun _ n => n) 4 demo_two_wf Hb)
    as (r & s' & E & Hwf & _); [by split|by split|by compute|intros; lia|].
  exists r, s'. split; [exact E|exact Hwf].
Defined.

(** C27: [check_buffer] accepts exactly the ranges that lie in the buffer,
    start on a 32-bit boundary, and belong to a buffer that is allocated and
    not both user-freeable and bound to a transaction: its subtraction never
    wraps into acceptance.  The length need not be a multiple of 4. *)
Theorem check_buffer_exact s id b offset bytes :
  wf s -> store s !! id = Some b -> is_u64 offset -> is_u64 bytes ->
  exists r, check_buffer id offset bytes s = Some (r, s) /\
    (r = true <-> offset + bytes <= bsize s id /\ offset mod 4 = 0 /\ free b = false /\
       (allow_user_free b = false \/ transaction b = None)).
Proof. intros Hwf. apply check_buffer_ok, wf_tiling, Hwf. Qed.

Lemma check_buffer_exact_witness : exists r,
  check_buffer 1 4096 (two64 - 4096) demo_two = Some (r, demo_two) /\ r = false.
Proof.
  destruct (store demo_two !! 1%nat) as [b|] eqn:Hb; [|vm_compute in Hb; discriminate].
  destruct (check_buffer_exact demo_two 1 b 4096 (two64 - 4096) demo_two_wf Hb) as (r & E & Hr); [by split..|].
  exists r. split; [exact E|]. destruct r; [|reflexivity]. exfalso.
  destruct (proj1 Hr eq_refl) as [Hle _].
  assert (Hsz : bsize demo_two 1 = 5000) by (vm_compute; reflexivity).
  rewrite Hsz in Hle. unfold two64 in Hle. clear - Hle. lia.
Defined.

(** The overflow checks of the allocator accept a request exactly when
    the sum of its three sizes, each rounded up to 8 bytes, is below 2^64, and
    then return that sum: no wrapped size is ever allocated. *)
Theorem request_size_exact d o e : is_u64 d -> is_u64 o -> is_u64 e ->
  request_size d o e =
    if up8 d + up8 o + up8 e <? two64 then Some (up8 d + up8 o + up8 e) else None.
Proof. apply request_size_ok. Qed.

Lemma request_size_exact_witness : request_size (two64 - 8) 1 0 = None.
Proof. rewrite (request_size_exact (two64 - 8) 1 0); [vm_compute; reflexivity|by split..]. Defined.

(** An asynchronous request of size 0 passes the space check with
    96 bytes left, although it takes 104: the asynchronous space wraps below
    zero and from then on bounds nothing. *)
Theorem async_space_wraps : exists s s' id,
  star alloc_step binder_alloc_init s /\ free_async_space s = 96 /\
  binder_alloc_new_buf demo_env (Some 3%nat) 0 0 0 true s = Some (inl id, s') /\
  free_async_space s' = two64 - 8.
Proof.
  set (s1 := after (binder_alloc_mmap_handler 1 (Some 2%nat) 1048576 1052672 true (Some 0%nat)) binder_alloc_init).
  set (s2 := after (binder_alloc_new_buf demo_env (Some 1%nat) 1856 0 0 true) s1).
  exists s2, (after (binder_alloc_new_buf demo_env (Some 3%nat) 0 0 0 true) s2), 1%nat.
  split; [|split; [|split]; vm_compute; reflexivity].
  eapply star_step; [eapply star_step; [apply star_refl|]|].
  - apply (as_mmap _ 1 (Some 2%nat) 1048576 1052672 true (Some 0%nat) 0); [|vm_compute; reflexivity].
    unfold user_range. split; [lia|]. by split; [lia|].
  - apply (as_new_buf _ demo_env (Some 1%nat) 1856 0 0 true (inl 0%nat)); [|by split..|vm_compute; reflexivity].
    intros n [= <-]. vm_compute. reflexivity.
Qed.
