(* ===== verification/BinderNode.v ===== *)
(** * Binder nodes, references and work lists

    The object graph of [src/binder/binder.c]: a process owns nodes (the
    objects it exports) and references (handles on other processes' nodes);
    work items wait on the todo lists of processes and threads.  Every
    function below runs with the locks the code takes, so it is one atomic
    step; what happens between two critical sections of one call is another
    step. *)

From Stdlib Require Import ZArith Lia.
From stdpp Require Import base option gmap sets list countable.
From S2P Require Import Prelude RbTree.

(** ** Objects *)

(** The lists a work item can be on. *)
Inductive worklist :=
  | proc_todo (p : nat)
  | thread_todo (t : nat)
  | async_todo (n : nat)
  | delivered_death (p : nat).

#[export] Instance worklist_eq_dec : EqDecision worklist.
Proof. solve_decision. Defined.

#[export] Instance worklist_countable : Countable worklist.
Proof.
  apply (inj_countable'
    (fun l => match l with
              | proc_todo p => inl (inl p) | thread_todo t => inl (inr t)
              | async_todo n => inr (inl n) | delivered_death p => inr (inr p) end)
    (fun x => match x with
              | inl (inl p) => proc_todo p | inl (inr t) => thread_todo t
              | inr (inl n) => async_todo n | inr (inr p) => delivered_death p end)).
  by intros [].
Defined.

(** A [struct binder_work], named by the object it is embedded in; a thread
    has two errors, [return_error] and [reply_error]. *)
Inductive binder_work :=
  | WTransaction (t : nat)
  | WTransactionComplete (c : nat)
  | WReturnError (t : nat)
  | WReplyError (t : nat)
  | WNode (n : nat)
  | WDeath (d : nat).

#[export] Instance binder_work_eq_dec : EqDecision binder_work.
Proof. solve_decision. Defined.

(** [node->proc] is [None] when the process is gone; [node_refs] is the hlist
    of references to the node, first entry first. *)
Record binder_node := Node {
  node_debug_id : Z;
  node_proc : option nat;
  node_refs : list nat;
  internal_strong_refs : Z;
  local_weak_refs : Z;
  local_strong_refs : Z;
  tmp_refs : Z;
  node_ptr : Z;
  node_cookie : Z;
  has_strong_ref : bool;
  pending_strong_ref : bool;
  has_weak_ref : bool;
  pending_weak_ref : bool;
  has_async_transaction : bool;
  accept_fds : bool;
  txn_security_ctx : bool;
  min_priority : Z
}.

(** What [work.type] of a death notification says. *)
Inductive death_type :=
  | BINDER_WORK_DEAD_BINDER | BINDER_WORK_DEAD_BINDER_AND_CLEAR
  | BINDER_WORK_CLEAR_DEATH_NOTIFICATION.

#[export] Instance death_type_eq_dec : EqDecision death_type.
Proof. solve_decision. Defined.

(** A fresh notification has the zeroed type, which is none of the three. *)
Record binder_ref_death := Death { death_cookie : Z; death_work_type : option death_type }.

Record binder_ref_data := RefData { rdata_debug_id : Z; desc : Z; strong : Z; weak : Z }.

Record binder_ref := Ref {
  ref_data : binder_ref_data;
  ref_proc : nat;
  ref_node : option nat;
  ref_death : option nat
}.

Record binder_proc := Proc {
  proc_threads : rb_tree;
  proc_nodes : rb_tree;
  refs_by_desc : rb_tree;
  refs_by_node : rb_tree;
  waiting_threads : list nat;
  proc_context : nat;
  proc_pid : Z;
  proc_is_dead : bool;
  max_threads : Z;
  requested_threads : Z;
  requested_threads_started : Z;
  proc_tmp_ref : Z
}.

Definition BINDER_LOOPER_STATE_REGISTERED : Z := 1.
Definition BINDER_LOOPER_STATE_ENTERED : Z := 2.
Definition BINDER_LOOPER_STATE_EXITED : Z := 4.
Definition BINDER_LOOPER_STATE_INVALID : Z := 8.
Definition BINDER_LOOPER_STATE_WAITING : Z := 16.
Definition BINDER_LOOPER_STATE_POLL : Z := 32.

(** [return_error] and [reply_error] are the [cmd] of each. *)
Record binder_thread := Thread {
  thread_proc : nat;
  thread_pid : Z;
  looper : Z;
  looper_need_return : bool;
  transaction_stack : option nat;
  process_todo : bool;
  return_error : Z;
  reply_error : Z;
  thread_tmp_ref : Z;
  thread_is_dead : bool
}.

Definition BR_OK : Z := 29185.

Inductive binder_stat_types :=
  | BINDER_STAT_PROC | BINDER_STAT_THREAD | BINDER_STAT_NODE | BINDER_STAT_REF | BINDER_STAT_DEATH
  | BINDER_STAT_TRANSACTION | BINDER_STAT_TRANSACTION_COMPLETE.
#[export] Instance binder_stat_types_eq_dec : EqDecision binder_stat_types.
Proof. solve_decision. Defined.

(** The driver's state: the objects, the contents of every work list, the
    context managers and their uids, the dead nodes, the id counter, the wake-ups issued
    (thread, synchronous), the counters of objects created
    and deleted, and how often a [WARN] fired. *)
Record binder := Binder {
  nodes : gmap nat binder_node;
  refs : gmap nat binder_ref;
  deaths : gmap nat binder_ref_death;
  procs : gmap nat binder_proc;
  threads : gmap nat binder_thread;
  works : gmap worklist (list binder_work);
  binder_context_mgr_node : gmap nat nat;
  binder_context_mgr_uid : gmap nat Z;
  binder_dead_nodes : list nat;
  binder_last_id : Z;
  woken : list (nat * bool);
  obj_created : binder_stat_types -> Z;
  obj_deleted : binder_stat_types -> Z;
  binder_warnings : Z
}.

(** ** Field updates *)

Definition set_nodes x s := Binder x (refs s) (deaths s) (procs s) (threads s) (works s)
  (binder_context_mgr_node s) (binder_context_mgr_uid s) (binder_dead_nodes s) (binder_last_id s) (woken s) (obj_created s) (obj_deleted s) (binder_warnings s).
Definition set_refs x s := Binder (nodes s) x (deaths s) (procs s) (threads s) (works s)
  (binder_context_mgr_node s) (binder_context_mgr_uid s) (binder_dead_nodes s) (binder_last_id s) (woken s) (obj_created s) (obj_deleted s) (binder_warnings s).
Definition set_deaths x s := Binder (nodes s) (refs s) x (procs s) (threads s) (works s)
  (binder_context_mgr_node s) (binder_context_mgr_uid s) (binder_dead_nodes s) (binder_last_id s) (woken s) (obj_created s) (obj_deleted s) (binder_warnings s).
Definition set_procs x s := Binder (nodes s) (refs s) (deaths s) x (threads s) (works s)
  (binder_context_mgr_node s) (binder_context_mgr_uid s) (binder_dead_nodes s) (binder_last_id s) (woken s) (obj_created s) (obj_deleted s) (binder_warnings s).
Definition set_threads x s := Binder (nodes s) (refs s) (deaths s) (procs s) x (works s)
  (binder_context_mgr_node s) (binder_context_mgr_uid s) (binder_dead_nodes s) (binder_last_id s) (woken s) (obj_created s) (obj_deleted s) (binder_warnings s).
Definition set_works x s := Binder (nodes s) (refs s) (deaths s) (procs s) (threads s) x
  (binder_context_mgr_node s) (binder_context_mgr_uid s) (binder_dead_nodes s) (binder_last_id s) (woken s) (obj_created s) (obj_deleted s) (binder_warnings s).
Definition set_mgr x s := Binder (nodes s) (refs s) (deaths s) (procs s) (threads s) (works s)
  x (binder_context_mgr_uid s) (binder_dead_nodes s) (binder_last_id s) (woken s) (obj_created s) (obj_deleted s) (binder_warnings s).
Definition set_mgr_uid x s := Binder (nodes s) (refs s) (deaths s) (procs s) (threads s) (works s)
  (binder_context_mgr_node s) x (binder_dead_nodes s) (binder_last_id s) (woken s) (obj_created s) (obj_deleted s) (binder_warnings s).
Definition set_dead_nodes x s := Binder (nodes s) (refs s) (deaths s) (procs s) (threads s) (works s)
  (binder_context_mgr_node s) (binder_context_mgr_uid s) x (binder_last_id s) (woken s) (obj_created s) (obj_deleted s) (binder_warnings s).
Definition set_last_id x s := Binder (nodes s) (refs s) (deaths s) (procs s) (threads s) (works s)
  (binder_context_mgr_node s) (binder_context_mgr_uid s) (binder_dead_nodes s) x (woken s) (obj_created s) (obj_deleted s) (binder_warnings s).
Definition set_woken x s := Binder (nodes s) (refs s) (deaths s) (procs s) (threads s) (works s)
  (binder_context_mgr_node s) (binder_context_mgr_uid s) (binder_dead_nodes s) (binder_last_id s) x (obj_created s) (obj_deleted s) (binder_warnings s).
Definition set_stats x y s := Binder (nodes s) (refs s) (deaths s) (procs s) (threads s) (works s)
  (binder_context_mgr_node s) (binder_context_mgr_uid s) (binder_dead_nodes s) (binder_last_id s) (woken s) x y (binder_warnings s).
Definition set_warnings x s := Binder (nodes s) (refs s) (deaths s) (procs s) (threads s) (works s)
  (binder_context_mgr_node s) (binder_context_mgr_uid s) (binder_dead_nodes s) (binder_last_id s) (woken s) (obj_created s) (obj_deleted s) x.

Definition set_node_proc x N := Node (node_debug_id N) x (node_refs N) (internal_strong_refs N)
  (local_weak_refs N) (local_strong_refs N) (tmp_refs N) (node_ptr N) (node_cookie N) (has_strong_ref N)
  (pending_strong_ref N) (has_weak_ref N) (pending_weak_ref N) (has_async_transaction N) (accept_fds N) (txn_security_ctx N) (min_priority N).
Definition set_node_refs x N := Node (node_debug_id N) (node_proc N) x (internal_strong_refs N)
  (local_weak_refs N) (local_strong_refs N) (tmp_refs N) (node_ptr N) (node_cookie N) (has_strong_ref N)
  (pending_strong_ref N) (has_weak_ref N) (pending_weak_ref N) (has_async_transaction N) (accept_fds N) (txn_security_ctx N) (min_priority N).
(** The four counters: internal strong, local weak, local strong, temporary. *)
Definition set_counts i lw ls t N := Node (node_debug_id N) (node_proc N) (node_refs N) i lw ls t
  (node_ptr N) (node_cookie N) (has_strong_ref N) (pending_strong_ref N) (has_weak_ref N)
  (pending_weak_ref N) (has_async_transaction N) (accept_fds N) (txn_security_ctx N) (min_priority N).
(** The four flags: has strong, pending strong, has weak, pending weak. *)
Definition set_flags hs ps hw pw N := Node (node_debug_id N) (node_proc N) (node_refs N)
  (internal_strong_refs N) (local_weak_refs N) (local_strong_refs N) (tmp_refs N) (node_ptr N)
  (node_cookie N) hs ps hw pw (has_async_transaction N) (accept_fds N) (txn_security_ctx N) (min_priority N).

Definition set_proc_nodes (t : rb_tree) (P : binder_proc) : binder_proc :=
  Proc (proc_threads P) t (refs_by_desc P) (refs_by_node P) (waiting_threads P) (proc_context P) (proc_pid P)
    (proc_is_dead P) (max_threads P) (requested_threads P) (requested_threads_started P) (proc_tmp_ref P).
Definition set_refs_trees (by_desc by_node : rb_tree) (P : binder_proc) : binder_proc :=
  Proc (proc_threads P) (proc_nodes P) by_desc by_node (waiting_threads P) (proc_context P) (proc_pid P)
    (proc_is_dead P) (max_threads P) (requested_threads P) (requested_threads_started P) (proc_tmp_ref P).
Definition set_waiting (l : list nat) (P : binder_proc) : binder_proc :=
  Proc (proc_threads P) (proc_nodes P) (refs_by_desc P) (refs_by_node P) l (proc_context P) (proc_pid P)
    (proc_is_dead P) (max_threads P) (requested_threads P) (requested_threads_started P) (proc_tmp_ref P).

Definition set_proc_tmp_ref (x : Z) (P : binder_proc) : binder_proc :=
  Proc (proc_threads P) (proc_nodes P) (refs_by_desc P) (refs_by_node P) (waiting_threads P) (proc_context P) (proc_pid P)
    (proc_is_dead P) (max_threads P) (requested_threads P) (requested_threads_started P) x.

Definition set_process_todo_flag (b : bool) (T : binder_thread) : binder_thread :=
  Thread (thread_proc T) (thread_pid T) (looper T) (looper_need_return T) (transaction_stack T) b
    (return_error T) (reply_error T) (thread_tmp_ref T) (thread_is_dead T).

(** ** Dereferences *)

Definition node_at (n : nat) : M binder binder_node := let! s := get in deref (nodes s !! n).
Definition ref_at (r : nat) : M binder binder_ref := let! s := get in deref (refs s !! r).
Definition death_at (d : nat) : M binder binder_ref_death := let! s := get in deref (deaths s !! d).
Definition proc_at (p : nat) : M binder binder_proc := let! s := get in deref (procs s !! p).
Definition thread_at (t : nat) : M binder binder_thread := let! s := get in deref (threads s !! t).

Definition put_node_at (n : nat) (N : binder_node) : M binder unit :=
  modify (fun s => set_nodes (<[n := N]> (nodes s)) s).
Definition put_ref_at (r : nat) (R : binder_ref) : M binder unit :=
  modify (fun s => set_refs (<[r := R]> (refs s)) s).
Definition put_death_at (d : nat) (D : binder_ref_death) : M binder unit :=
  modify (fun s => set_deaths (<[d := D]> (deaths s)) s).
Definition put_proc_at (p : nat) (P : binder_proc) : M binder unit :=
  modify (fun s => set_procs (<[p := P]> (procs s)) s).
Definition put_thread_at (t : nat) (T : binder_thread) : M binder unit :=
  modify (fun s => set_threads (<[t := T]> (threads s)) s).

Definition upd_node (n : nat) (f : binder_node -> binder_node) : M binder unit :=
  let! N := node_at n in put_node_at n (f N).

Definition warn_on_b (b : bool) : M binder unit :=
  modify (fun s => if b then set_warnings (binder_warnings s + 1) s else s).

Definition bump (t : binder_stat_types) (f : binder_stat_types -> Z) : binder_stat_types -> Z :=
  fun t' => if decide (t' = t) then f t' + 1 else f t'.
Definition binder_stats_deleted (t : binder_stat_types) : M binder unit :=
  modify (fun s => set_stats (obj_created s) (bump t (obj_deleted s)) s).
Definition binder_stats_created (t : binder_stat_types) : M binder unit :=
  modify (fun s => set_stats (bump t (obj_created s)) (obj_deleted s) s).

(** [atomic_inc_return(&binder_last_id)] *)
Definition next_id : M binder Z :=
  let! s := get in
  let id := s32 (binder_last_id s + 1) in
  modify (set_last_id id) ;! ret id.

(** ** Work lists *)

Definition queue (l : worklist) (s : binder) : list binder_work := default [] (works s !! l).

(** [!list_empty(&work->entry)]: the item is on some list. *)
Definition on_list (w : binder_work) (s : binder) : bool :=
  existsb (fun q : worklist * list binder_work => bool_decide (w ∈ snd q)) (map_to_list (works s)).

Definition binder_worklist_empty_ilocked (l : worklist) : M binder bool :=
  gets (fun s => bool_decide (queue l s = [])).
Definition binder_worklist_empty (l : worklist) : M binder bool := binder_worklist_empty_ilocked l.

Definition binder_enqueue_work_ilocked (w : binder_work) (target_list : option worklist)
    : M binder unit :=
  let! l := deref target_list in
  let! s := get in
  bug_on (on_list w s) ;!
  modify (fun s => set_works (<[l := queue l s ++ [w]]> (works s)) s).

(** [!list_empty(&thread->waiting_thread_node)] *)
Definition is_waiting (t : nat) : M binder bool :=
  let! T := thread_at t in
  let! s := get in
  ret (match procs s !! thread_proc T with
       | Some P => bool_decide (t ∈ waiting_threads P)
       | None => false
       end).

Definition binder_enqueue_deferred_thread_work_ilocked (t : nat) (w : binder_work) : M binder unit :=
  let! waits := is_waiting t in
  warn_on_b waits ;!
  binder_enqueue_work_ilocked w (Some (thread_todo t)).

Definition set_process_todo (t : nat) : M binder unit :=
  let! T := thread_at t in
  put_thread_at t (set_process_todo_flag true T).

Definition binder_enqueue_thread_work_ilocked (t : nat) (w : binder_work) : M binder unit :=
  let! waits := is_waiting t in
  warn_on_b waits ;!
  binder_enqueue_work_ilocked w (Some (thread_todo t)) ;!
  set_process_todo t.
Definition binder_enqueue_thread_work (t : nat) (w : binder_work) : M binder unit :=
  binder_enqueue_thread_work_ilocked t w.

(** [list_del_init(&work->entry)], whatever list it is on. *)
Definition binder_dequeue_work_ilocked (w : binder_work) : M binder unit :=
  modify (fun s => set_works (list_del w <$> works s) s).
Definition binder_dequeue_work (w : binder_work) : M binder unit := binder_dequeue_work_ilocked w.

Definition binder_dequeue_work_head_ilocked (l : worklist) : M binder (option binder_work) :=
  let! s := get in
  match queue l s with
  | [] => ret None
  | w :: _ => binder_dequeue_work_ilocked w ;! ret (Some w)
  end.

(** ** Waking threads *)

Definition binder_has_work_ilocked (t : nat) (do_proc_work : bool) : M binder bool :=
  let! T := thread_at t in
  let! empty := binder_worklist_empty_ilocked (proc_todo (thread_proc T)) in
  ret (process_todo T || looper_need_return T || (do_proc_work && negb empty)).
Definition binder_has_work (t : nat) (do_proc_work : bool) : M binder bool :=
  binder_has_work_ilocked t do_proc_work.

Definition binder_available_for_proc_work_ilocked (t : nat) : M binder bool :=
  let! T := thread_at t in
  let! empty := binder_worklist_empty_ilocked (thread_todo t) in
  ret (bool_decide (transaction_stack T = None) && empty &&
       negb (Z.land (looper T) (Z.lor BINDER_LOOPER_STATE_ENTERED BINDER_LOOPER_STATE_REGISTERED) =? 0)).

Definition wake_up (t : nat) (sync : bool) : M binder unit :=
  modify (fun s => set_woken (woken s ++ [(t, sync)]) s).

Fixpoint wakeup_poll_loop (l : list nat) (sync : bool) : M binder unit :=
  match l with
  | [] => ret tt
  | t :: l' =>
    let! T := thread_at t in
    let! avail := (if Z.land (looper T) BINDER_LOOPER_STATE_POLL =? 0 then ret false
                   else binder_available_for_proc_work_ilocked t) in
    (if avail : bool then wake_up t sync else ret tt) ;!
    wakeup_poll_loop l' sync
  end.
Definition binder_wakeup_poll_threads_ilocked (p : nat) (sync : bool) : M binder unit :=
  let! P := proc_at p in wakeup_poll_loop (rb_inorder (proc_threads P)) sync.

Definition binder_select_thread_ilocked (p : nat) : M binder (option nat) :=
  let! P := proc_at p in
  match waiting_threads P with
  | [] => ret None
  | t :: rest =>
    put_proc_at p (set_waiting rest P) ;!
    ret (Some t)
  end.

Definition binder_wakeup_thread_ilocked (p : nat) (thread : option nat) (sync : bool) : M binder unit :=
  match thread with
  | Some t => wake_up t sync
  | None => binder_wakeup_poll_threads_ilocked p sync
  end.

Definition binder_wakeup_proc_ilocked (p : nat) : M binder unit :=
  let! thread := binder_select_thread_ilocked p in
  binder_wakeup_thread_ilocked p thread false.

(** ** Nodes *)

Section rb.
Context `{RB : Rbtree}.

(** The comparison of the node loops: [ptr] against [node->ptr]. *)
Definition cmp_node_ptr (ptr : Z) (n : nat) : M binder comparison :=
  let! N := node_at n in ret (Z.compare ptr (node_ptr N)).

Definition binder_inc_node_tmpref_ilocked (n : nat) : M binder unit :=
  upd_node n (fun N => set_counts (internal_strong_refs N) (local_weak_refs N) (local_strong_refs N)
                         (s32 (tmp_refs N + 1)) N).
Definition binder_inc_node_tmpref (n : nat) : M binder unit := binder_inc_node_tmpref_ilocked n.

Definition binder_get_node_ilocked (p : nat) (ptr : Z) : M binder (option nat) :=
  let! P := proc_at p in
  let! found := rb_find (cmp_node_ptr ptr) (proc_nodes P) in
  match found with
  | Some n => binder_inc_node_tmpref_ilocked n ;! ret (Some n)
  | None => ret None
  end.
Definition binder_get_node (p : nat) (ptr : Z) : M binder (option nat) := binder_get_node_ilocked p ptr.

(** What [binder_init_node_ilocked] reads of a [struct flat_binder_object]. *)
Record flat_binder_object := Fbo { fbo_binder : Z; fbo_cookie : Z; fbo_flags : Z }.
Definition FLAT_BINDER_FLAG_PRIORITY_MASK : Z := 255.
Definition FLAT_BINDER_FLAG_ACCEPTS_FDS : Z := 256.
Definition FLAT_BINDER_FLAG_TXN_SECURITY_CTX : Z := 4096.

Definition binder_init_node_ilocked (p new_node : nat) (fp : option flat_binder_object) : M binder nat :=
  let ptr := match fp with Some f => fbo_binder f | None => 0 end in
  let cookie := match fp with Some f => fbo_cookie f | None => 0 end in
  let flags := match fp with Some f => fbo_flags f | None => 0 end in
  let! P := proc_at p in
  let! found := rb_link (cmp_node_ptr ptr) new_node (proc_nodes P) in
  match found with
  | inl n => binder_inc_node_tmpref_ilocked n ;! ret n
  | inr t =>
    binder_stats_created BINDER_STAT_NODE ;!
    put_proc_at p (set_proc_nodes (rb_insert_color new_node t) P) ;!
    let! id := next_id in
    put_node_at new_node (Node id (Some p) [] 0 0 0 1 ptr cookie false false false false false
      (negb (Z.land flags FLAT_BINDER_FLAG_ACCEPTS_FDS =? 0))
      (negb (Z.land flags FLAT_BINDER_FLAG_TXN_SECURITY_CTX =? 0))
      (Z.land flags FLAT_BINDER_FLAG_PRIORITY_MASK)) ;!
    ret new_node
  end.

(** [new_node]: [kzalloc]'s result. *)
Definition binder_new_node (p : nat) (new_node : option nat) (fp : option flat_binder_object)
    : M binder (option nat) :=
  match new_node with
  | None => ret None
  | Some n => let! node := binder_init_node_ilocked p n fp in ret (Some node)
  end.

Definition binder_free_node (n : nat) : M binder unit :=
  let! _ := node_at n in
  modify (fun s => set_nodes (delete n (nodes s)) s) ;!
  binder_stats_deleted BINDER_STAT_NODE.

(** [node == node->proc->context->binder_context_mgr_node] *)
Definition is_context_mgr (n : nat) (N : binder_node) : M binder bool :=
  match node_proc N with
  | None => ret false
  | Some p =>
    let! P := proc_at p in
    let! s := get in
    ret (bool_decide (binder_context_mgr_node s !! proc_context P = Some n))
  end.

(** [container_of(target_list, struct binder_thread, todo)]: only the todo
    list of a thread is in a thread. *)
Definition thread_of_list (l : worklist) : M binder nat :=
  match l with thread_todo t => ret t | _ => oops end.

Definition binder_inc_node_nilocked (n : nat) (strong internal : bool) (target_list : option worklist)
    : M binder Z :=
  let! N := node_at n in
  if strong then
    let! mgr := is_context_mgr n N in
    if internal && bool_decide (target_list = None) && (internal_strong_refs N =? 0)
       && negb (mgr && has_strong_ref N)
    then ret (- EINVAL)
    else
      put_node_at n (if internal
        then set_counts (s32 (internal_strong_refs N + 1)) (local_weak_refs N) (local_strong_refs N) (tmp_refs N) N
        else set_counts (internal_strong_refs N) (local_weak_refs N) (s32 (local_strong_refs N + 1)) (tmp_refs N) N) ;!
      match target_list with
      | Some l =>
        if negb (has_strong_ref N) then
          let! t := thread_of_list l in
          binder_dequeue_work_ilocked (WNode n) ;!
          binder_enqueue_deferred_thread_work_ilocked t (WNode n) ;!
          ret 0
        else ret 0
      | None => ret 0
      end
  else
    (if internal then ret tt
     else put_node_at n (set_counts (internal_strong_refs N) (s32 (local_weak_refs N + 1))
            (local_strong_refs N) (tmp_refs N) N)) ;!
    let! s := get in
    if negb (has_weak_ref N) && negb (on_list (WNode n) s) then
      match target_list with
      | None => ret (- EINVAL)
      | Some l => binder_enqueue_work_ilocked (WNode n) (Some l) ;! ret 0
      end
    else ret 0.

Definition binder_inc_node (n : nat) (strong internal : bool) (target_list : option worklist) : M binder Z :=
  binder_inc_node_nilocked n strong internal target_list.

(** The second half of [binder_dec_node_nilocked], once the kind of
    reference dropped is gone: tell the owner, or unlink the node and return
    [true] when nothing holds it. *)
Definition dec_node_tail (n : nat) (N : binder_node) : M binder bool :=
  match node_proc N with
  | Some p =>
    if has_strong_ref N || has_weak_ref N then
      let! s := get in
      (if on_list (WNode n) s then ret tt
       else binder_enqueue_work_ilocked (WNode n) (Some (proc_todo p)) ;! binder_wakeup_proc_ilocked p) ;!
      ret false
    else if bool_decide (node_refs N = []) && (local_strong_refs N =? 0) && (local_weak_refs N =? 0)
            && (tmp_refs N =? 0)
    then
      binder_dequeue_work_ilocked (WNode n) ;!
      let! P := proc_at p in
      put_proc_at p (set_proc_nodes (rb_erase n (proc_nodes P)) P) ;!
      ret true
    else ret false
  | None =>
    if bool_decide (node_refs N = []) && (local_strong_refs N =? 0) && (local_weak_refs N =? 0)
       && (tmp_refs N =? 0)
    then
      let! s := get in
      bug_on (on_list (WNode n) s) ;!
      modify (fun s => set_dead_nodes (list_del n (binder_dead_nodes s)) s) ;!
      ret true
    else ret false
  end.

Definition binder_dec_node_nilocked (n : nat) (strong internal : bool) : M binder bool :=
  let! N := node_at n in
  if strong then
    let N := if internal
      then set_counts (s32 (internal_strong_refs N - 1)) (local_weak_refs N) (local_strong_refs N) (tmp_refs N) N
      else set_counts (internal_strong_refs N) (local_weak_refs N) (s32 (local_strong_refs N - 1)) (tmp_refs N) N in
    put_node_at n N ;!
    if negb (local_strong_refs N =? 0) || negb (internal_strong_refs N =? 0) then ret false
    else dec_node_tail n N
  else
    let N := if internal then N
      else set_counts (internal_strong_refs N) (s32 (local_weak_refs N - 1)) (local_strong_refs N) (tmp_refs N) N in
    put_node_at n N ;!
    if negb (local_weak_refs N =? 0) || negb (tmp_refs N =? 0) || negb (bool_decide (node_refs N = []))
    then ret false
    else dec_node_tail n N.

Definition binder_dec_node (n : nat) (strong internal : bool) : M binder unit :=
  let! free_node := binder_dec_node_nilocked n strong internal in
  if free_node : bool then binder_free_node n else ret tt.

Definition binder_dec_node_tmpref (n : nat) : M binder unit :=
  let! N := node_at n in
  let tmp := s32 (tmp_refs N - 1) in
  put_node_at n (set_counts (internal_strong_refs N) (local_weak_refs N) (local_strong_refs N) tmp N) ;!
  bug_on (tmp <? 0) ;!
  let! free_node := binder_dec_node_nilocked n false true in
  if free_node : bool then binder_free_node n else ret tt.

Definition binder_put_node (n : nat) : M binder unit := binder_dec_node_tmpref n.

(** ** References *)

Definition cmp_ref_desc (d : Z) (r : nat) : M binder comparison :=
  let! R := ref_at r in ret (Z.compare d (desc (ref_data R))).

(** Pointers compare by address; [ref->node] is not NULL in the tree. *)
Definition cmp_ref_node (n : nat) (r : nat) : M binder comparison :=
  let! R := ref_at r in
  let! n' := deref (ref_node R) in
  ret (Z.compare (Z.of_nat n) (Z.of_nat n')).

Definition binder_get_ref_olocked (p : nat) (d : Z) (need_strong_ref : bool) : M binder (option nat) :=
  let! P := proc_at p in
  let! found := rb_find (cmp_ref_desc d) (refs_by_desc P) in
  match found with
  | None => ret None
  | Some r =>
    let! R := ref_at r in
    if need_strong_ref && (strong (ref_data R) =? 0) then ret None else ret (Some r)
  end.

(** The descriptor for a new reference: the references in descriptor order. *)
Fixpoint next_desc (l : list nat) (d : Z) : M binder Z :=
  match l with
  | [] => ret d
  | r :: l' =>
    let! R := ref_at r in
    if d <? desc (ref_data R) then ret d else next_desc l' (u32 (desc (ref_data R) + 1))
  end.

(** The insertion of a new reference, after the lookup has found none and
    linked it into [by_node]. *)
Definition insert_new_ref (p n new_ref : nat) (by_node : rb_tree) : M binder nat :=
  binder_stats_created BINDER_STAT_REF ;!
  let! id := next_id in
  let! P := proc_at p in
  put_proc_at p (set_refs_trees (refs_by_desc P) (rb_insert_color new_ref by_node) P) ;!
  let! s := get in
  let d0 := if bool_decide (binder_context_mgr_node s !! proc_context P = Some n) then 0 else 1 in
  let! d := next_desc (rb_inorder (refs_by_desc P)) d0 in
  put_ref_at new_ref (Ref (RefData id d 0 0) p (Some n) None) ;!
  let! linked := rb_link (cmp_ref_desc d) new_ref (refs_by_desc P) in
  match linked with
  | inl _ => oops
  | inr t =>
    put_proc_at p (set_refs_trees (rb_insert_color new_ref t) (rb_insert_color new_ref by_node) P) ;!
    upd_node n (fun N => set_node_refs (new_ref :: node_refs N) N) ;!
    ret new_ref
  end.

(** [new_ref] is a zeroed allocation, linked into the node tree by the loop. *)
Definition binder_get_ref_for_node_olocked (p n : nat) (new_ref : option nat) : M binder (option nat) :=
  let! P := proc_at p in
  let! found := rb_link (cmp_ref_node n) (default 0%nat new_ref) (refs_by_node P) in
  match found, new_ref with
  | inl r, _ => ret (Some r)
  | inr _, None => ret None
  | inr t, Some r => let! r := insert_new_ref p n r t in ret (Some r)
  end.

Definition binder_cleanup_ref_olocked (r : nat) : M binder unit :=
  let! R := ref_at r in
  let! P := proc_at (ref_proc R) in
  put_proc_at (ref_proc R) (set_refs_trees (rb_erase r (refs_by_desc P)) (rb_erase r (refs_by_node P)) P) ;!
  let! n := deref (ref_node R) in
  (if negb (strong (ref_data R) =? 0)
   then binder_dec_node_nilocked n true true ;! ret tt
   else ret tt) ;!
  upd_node n (fun N => set_node_refs (list_del r (node_refs N)) N) ;!
  let! delete_node := binder_dec_node_nilocked n false true in
  (if delete_node : bool then ret tt
   else put_ref_at r (Ref (ref_data R) (ref_proc R) None (ref_death R))) ;!
  (match ref_death R with
   | Some d => binder_dequeue_work (WDeath d) ;! binder_stats_deleted BINDER_STAT_DEATH
   | None => ret tt
   end) ;!
  binder_stats_deleted BINDER_STAT_REF.

Definition set_ref_counts (st wk : Z) (R : binder_ref) : binder_ref :=
  Ref (RefData (rdata_debug_id (ref_data R)) (desc (ref_data R)) st wk) (ref_proc R) (ref_node R) (ref_death R).

Definition binder_inc_ref_olocked (r : nat) (strong_ : bool) (target_list : option worklist) : M binder Z :=
  let! R := ref_at r in
  let! n := deref (ref_node R) in
  if strong_ then
    let! rv := (if strong (ref_data R) =? 0 then binder_inc_node n true true target_list else ret 0) in
    if negb (rv =? 0) then ret rv
    else put_ref_at r (set_ref_counts (s32 (strong (ref_data R) + 1)) (weak (ref_data R)) R) ;! ret 0
  else
    let! rv := (if weak (ref_data R) =? 0 then binder_inc_node n false true target_list else ret 0) in
    if negb (rv =? 0) then ret rv
    else put_ref_at r (set_ref_counts (strong (ref_data R)) (s32 (weak (ref_data R) + 1)) R) ;! ret 0.

Definition binder_dec_ref_olocked (r : nat) (strong_ : bool) : M binder bool :=
  let! R := ref_at r in
  let! n := deref (ref_node R) in
  let finish (R : binder_ref) : M binder bool :=
    if (strong (ref_data R) =? 0) && (weak (ref_data R) =? 0)
    then binder_cleanup_ref_olocked r ;! ret true else ret false in
  if strong_ then
    if strong (ref_data R) =? 0 then ret false
    else
      let R := set_ref_counts (s32 (strong (ref_data R) - 1)) (weak (ref_data R)) R in
      put_ref_at r R ;!
      (if strong (ref_data R) =? 0 then binder_dec_node n true true else ret tt) ;!
      finish R
  else
    if weak (ref_data R) =? 0 then ret false
    else
      let R := set_ref_counts (strong (ref_data R)) (s32 (weak (ref_data R) - 1)) R in
      put_ref_at r R ;! finish R.

Definition binder_get_node_from_ref (p : nat) (d : Z) (need_strong_ref : bool)
    : M binder (option (nat * binder_ref_data)) :=
  let! found := binder_get_ref_olocked p d need_strong_ref in
  match found with
  | None => ret None
  | Some r =>
    let! R := ref_at r in
    let! n := deref (ref_node R) in
    binder_inc_node_tmpref n ;!
    ret (Some (n, ref_data R))
  end.

Definition binder_free_ref (r : nat) : M binder unit :=
  let! R := ref_at r in
  (match ref_node R with Some n => binder_free_node n | None => ret tt end) ;!
  (match ref_death R with
   | Some d => modify (fun s => set_deaths (delete d (deaths s)) s)
   | None => ret tt
   end) ;!
  modify (fun s => set_refs (delete r (refs s)) s).

(** The result is the error code and the reference's data after the change
    ([None] when there is no such reference). *)
Definition binder_update_ref_for_handle (p : nat) (d : Z) (increment strong_ : bool)
    : M binder (Z * option binder_ref_data) :=
  let! found := binder_get_ref_olocked p d strong_ in
  match found with
  | None => ret (- EINVAL, None)
  | Some r =>
    let! res :=
      (if increment then let! rv := binder_inc_ref_olocked r strong_ None in ret (rv, false)
       else let! del := binder_dec_ref_olocked r strong_ in ret (0, del)) in
    let! R := ref_at r in
    (if snd res : bool then binder_free_ref r else ret tt) ;!
    ret (fst res, Some (ref_data R))
  end.

Definition binder_dec_ref_for_handle (p : nat) (d : Z) (strong_ : bool) : M binder (Z * option binder_ref_data) :=
  binder_update_ref_for_handle p d false strong_.

(** The second critical section of [binder_inc_ref_for_node]: [new_ref] is the
    allocation made between the two; another thread may have created the
    reference meanwhile. *)
Definition inc_ref_for_node_locked (p n : nat) (strong_ : bool) (target_list : option worklist)
    (new_ref : option nat) : M binder (option (Z * binder_ref_data)) :=
  let! found := binder_get_ref_for_node_olocked p n new_ref in
  match found with
  | None => ret None
  | Some r =>
    let! rv := binder_inc_ref_olocked r strong_ target_list in
    let! R := ref_at r in
    ret (Some (rv, ref_data R))
  end.

(** [kz]: the result of [kzalloc]. *)
Definition binder_inc_ref_for_node (p n : nat) (strong_ : bool) (target_list : option worklist)
    (kz : option nat) : M binder (Z * option binder_ref_data) :=
  let! first := inc_ref_for_node_locked p n strong_ target_list None in
  match first with
  | Some (rv, rd) => ret (rv, Some rd)
  | None =>
    match kz with
    | None => ret (- ENOMEM, None)
    | Some new_ref =>
      let! second := inc_ref_for_node_locked p n strong_ target_list (Some new_ref) in
      let! res := deref second in
      ret (fst res, Some (snd res))
    end
  end.

(** ** Commands and ioctls on references *)

(** BC_INCREFS, BC_ACQUIRE, BC_RELEASE, BC_DECREFS on handle [target].  The
    result is [Some err] when [binder_thread_write] returns [err], else [None]
    (a refused change is only logged); [kz] is the allocation made for a
    reference to the context manager. *)
Definition bc_refs (p : nat) (increment strong_ : bool) (target : Z) (kz : option nat)
    : M binder (option Z) :=
  let! P := proc_at p in
  let! s := get in
  let mgr := if increment && (target =? 0) then binder_context_mgr_node s !! proc_context P else None in
  let! first :=
    match mgr with
    | None => ret (inl (-1))
    | Some n =>
      let! N := node_at n in
      if bool_decide (node_proc N = Some p) then ret (inr (- EINVAL))
      else let! r := binder_inc_ref_for_node p n strong_ None kz in ret (inl (fst r))
    end in
  match first with
  | inr err => ret (Some err)
  | inl rv =>
    (if negb (rv =? 0)
     then let! _ := binder_update_ref_for_handle p target increment strong_ in ret tt
     else ret tt) ;!
    ret None
  end.

(** BC_INCREFS_DONE ([strong_ = false]) and BC_ACQUIRE_DONE. *)
Definition bc_refs_done (p : nat) (strong_ : bool) (ptr cookie : Z) : M binder unit :=
  let! found := binder_get_node p ptr in
  match found with
  | None => ret tt
  | Some n =>
    let! N := node_at n in
    if negb (cookie =? node_cookie N) then binder_put_node n
    else if negb (if strong_ then pending_strong_ref N else pending_weak_ref N) then binder_put_node n
    else
      put_node_at n (if strong_
        then set_flags (has_strong_ref N) false (has_weak_ref N) (pending_weak_ref N) N
        else set_flags (has_strong_ref N) (pending_strong_ref N) (has_weak_ref N) false N) ;!
      let! free_node := binder_dec_node_nilocked n strong_ false in
      warn_on_b free_node ;!
      binder_put_node n
  end.

(** The commands written to the owner of a node. *)
Inductive br_node := BR_INCREFS | BR_ACQUIRE | BR_RELEASE | BR_DECREFS.

(** The puts of [binder_thread_read] in order: each is attempted while none
    has failed; [put_user c] tells whether writing command [c] succeeds. *)
Fixpoint put_node_cmds (put_user : br_node -> bool) (l : list (bool * br_node)) : Z * list br_node :=
  match l with
  | [] => (0, [])
  | (false, _) :: l' => put_node_cmds put_user l'
  | (true, c) :: l' =>
    if put_user c then let '(rv, out) := put_node_cmds put_user l' in (rv, c :: out)
    else (- EFAULT, [])
  end.

(** [binder_thread_read] on a node's work item that it has just taken off a
    list: bring the owner's view up to date, or drop the node. *)
Definition read_work_node (p n : nat) (put_user : br_node -> bool) : M binder (Z * list br_node) :=
  let! N := node_at n in
  bug_on (bool_decide (node_proc N <> Some p)) ;!
  let strong_ := negb (internal_strong_refs N =? 0) || negb (local_strong_refs N =? 0) in
  let weak_ := negb (bool_decide (node_refs N = [])) || negb (local_weak_refs N =? 0)
               || negb (tmp_refs N =? 0) || strong_ in
  let hs := has_strong_ref N in
  let hw := has_weak_ref N in
  let N := if weak_ && negb hw
    then set_flags (has_strong_ref N) (pending_strong_ref N) true true
           (set_counts (internal_strong_refs N) (s32 (local_weak_refs N + 1)) (local_strong_refs N) (tmp_refs N) N)
    else N in
  let N := if strong_ && negb hs
    then set_flags true true (has_weak_ref N) (pending_weak_ref N)
           (set_counts (internal_strong_refs N) (local_weak_refs N) (s32 (local_strong_refs N + 1)) (tmp_refs N) N)
    else N in
  let N := if negb strong_ && hs
    then set_flags false (pending_strong_ref N) (has_weak_ref N) (pending_weak_ref N) N else N in
  let N := if negb weak_ && hw
    then set_flags (has_strong_ref N) (pending_strong_ref N) false (pending_weak_ref N) N else N in
  put_node_at n N ;!
  (if negb weak_ && negb strong_
   then let! P := proc_at p in
        put_proc_at p (set_proc_nodes (rb_erase n (proc_nodes P)) P) ;!
        binder_free_node n
   else ret tt) ;!
  ret (put_node_cmds put_user
    [(weak_ && negb hw, BR_INCREFS); (strong_ && negb hs, BR_ACQUIRE);
     (negb strong_ && hs, BR_RELEASE); (negb weak_ && hw, BR_DECREFS)]).

(** The first process that may become manager fixes the uid for later ones. *)
Definition check_mgr_uid (c : nat) (curr_euid : Z) : M binder bool :=
  let! s := get in
  match binder_context_mgr_uid s !! c with
  | Some uid => ret (uid =? curr_euid)
  | None => modify (fun s => set_mgr_uid (<[c := curr_euid]> (binder_context_mgr_uid s)) s) ;! ret true
  end.

(** [security] is the security module's answer. *)
Definition binder_ioctl_set_ctx_mgr (p : nat) (security curr_euid : Z) (kz : option nat)
    (fbo : option flat_binder_object) : M binder Z :=
  let! P := proc_at p in
  let! s := get in
  if bool_decide (binder_context_mgr_node s !! proc_context P <> None) then ret (- EBUSY)
  else if security <? 0 then ret security
  else
    let! uid_ok := check_mgr_uid (proc_context P) curr_euid in
    if negb uid_ok then ret (- EPERM)
    else
      let! new_node := binder_new_node p kz fbo in
      match new_node with
      | None => ret (- ENOMEM)
      | Some n =>
        upd_node n (fun N => set_flags true (pending_strong_ref N) true (pending_weak_ref N)
          (set_counts (internal_strong_refs N) (s32 (local_weak_refs N + 1)) (s32 (local_strong_refs N + 1))
             (tmp_refs N) N)) ;!
        modify (fun s => set_mgr (<[proc_context P := n]> (binder_context_mgr_node s)) s) ;!
        binder_put_node n ;!
        ret security
      end.

(** [zeroed]: the fields other than the handle are zero. The result is the
    error code with the strong and weak counts. *)
Definition binder_ioctl_get_node_info_for_ref (p : nat) (handle : Z) (zeroed : bool)
    : M binder (Z * (Z * Z)) :=
  if negb zeroed then ret (- EINVAL, (0, 0))
  else
    let! P := proc_at p in
    let! s := get in
    let! is_mgr :=
      match binder_context_mgr_node s !! proc_context P with
      | None => ret false
      | Some m => let! N := node_at m in ret (bool_decide (node_proc N = Some p))
      end in
    if negb is_mgr then ret (- EPERM, (0, 0))
    else
      let! found := binder_get_node_from_ref p handle true in
      match found with
      | None => ret (- EINVAL, (0, 0))
      | Some (n, _) =>
        let! N := node_at n in
        binder_put_node n ;!
        ret (0, (s32 (local_strong_refs N + internal_strong_refs N), local_weak_refs N))
      end.

(** The first node of the process whose pointer is above [ptr]. *)
Fixpoint node_debug_loop (l : list nat) (ptr : Z) : M binder (option binder_node) :=
  match l with
  | [] => ret None
  | n :: l' =>
    let! N := node_at n in
    if ptr <? node_ptr N then ret (Some N) else node_debug_loop l' ptr
  end.
Definition binder_ioctl_get_node_debug_info (p : nat) (ptr : Z) : M binder (option binder_node) :=
  let! P := proc_at p in node_debug_loop (rb_inorder (proc_nodes P)) ptr.

(** ** Death notifications *)

Definition set_ref_death (d : option nat) (R : binder_ref) : binder_ref :=
  Ref (ref_data R) (ref_proc R) (ref_node R) d.

(** BC_REQUEST_DEATH_NOTIFICATION; [kz] is the notification allocated. *)
Definition bc_request_death (p : nat) (target cookie : Z) (kz : nat) : M binder unit :=
  let! found := binder_get_ref_olocked p target false in
  match found with
  | None => ret tt
  | Some r =>
    let! R := ref_at r in
    match ref_death R with
    | Some _ => ret tt
    | None =>
      binder_stats_created BINDER_STAT_DEATH ;!
      put_ref_at r (set_ref_death (Some kz) R) ;!
      let! n := deref (ref_node R) in
      let! N := node_at n in
      match node_proc N with
      | Some _ => put_death_at kz (Death cookie None)
      | None =>
        put_death_at kz (Death cookie (Some BINDER_WORK_DEAD_BINDER)) ;!
        binder_enqueue_work_ilocked (WDeath kz) (Some (proc_todo p)) ;!
        binder_wakeup_proc_ilocked p
      end
    end
  end.

(** Queue a notification for the thread if it is a looper, else for the
    process. *)
Definition queue_death (p t d : nat) : M binder unit :=
  let! T := thread_at t in
  if negb (Z.land (looper T) (Z.lor BINDER_LOOPER_STATE_REGISTERED BINDER_LOOPER_STATE_ENTERED) =? 0)
  then binder_enqueue_thread_work_ilocked t (WDeath d)
  else binder_enqueue_work_ilocked (WDeath d) (Some (proc_todo p)) ;! binder_wakeup_proc_ilocked p.

(** BC_CLEAR_DEATH_NOTIFICATION *)
Definition bc_clear_death (p t : nat) (target cookie : Z) : M binder unit :=
  let! found := binder_get_ref_olocked p target false in
  match found with
  | None => ret tt
  | Some r =>
    let! R := ref_at r in
    match ref_death R with
    | None => ret tt
    | Some d =>
      let! D := death_at d in
      if negb (death_cookie D =? cookie) then ret tt
      else
        put_ref_at r (set_ref_death None R) ;!
        let! s := get in
        if negb (on_list (WDeath d) s) then
          put_death_at d (Death (death_cookie D) (Some BINDER_WORK_CLEAR_DEATH_NOTIFICATION)) ;!
          queue_death p t d
        else
          bug_on (negb (bool_decide (death_work_type D = Some BINDER_WORK_DEAD_BINDER))) ;!
          put_death_at d (Death (death_cookie D) (Some BINDER_WORK_DEAD_BINDER_AND_CLEAR))
    end
  end.

Fixpoint find_delivered (l : list binder_work) (cookie : Z) : M binder (option nat) :=
  match l with
  | [] => ret None
  | WDeath d :: l' =>
    let! D := death_at d in
    if death_cookie D =? cookie then ret (Some d) else find_delivered l' cookie
  | _ :: _ => oops
  end.

(** BC_DEAD_BINDER_DONE *)
Definition bc_dead_binder_done (p t : nat) (cookie : Z) : M binder unit :=
  let! s := get in
  let! found := find_delivered (queue (delivered_death p) s) cookie in
  match found with
  | None => ret tt
  | Some d =>
    binder_dequeue_work_ilocked (WDeath d) ;!
    let! D := death_at d in
    if bool_decide (death_work_type D = Some BINDER_WORK_DEAD_BINDER_AND_CLEAR) then
      put_death_at d (Death (death_cookie D) (Some BINDER_WORK_CLEAR_DEATH_NOTIFICATION)) ;!
      queue_death p t d
    else ret tt
  end.

Inductive br_death := BR_DEAD_BINDER | BR_CLEAR_DEATH_NOTIFICATION_DONE.

(** [binder_thread_read] on a notification it has just taken off a list: the
    command and the cookie it writes. *)
Definition read_work_death (p d : nat) : M binder (br_death * Z) :=
  let! D := death_at d in
  if bool_decide (death_work_type D = Some BINDER_WORK_CLEAR_DEATH_NOTIFICATION) then
    modify (fun s => set_deaths (delete d (deaths s)) s) ;!
    binder_stats_deleted BINDER_STAT_DEATH ;!
    ret (BR_CLEAR_DEATH_NOTIFICATION_DONE, death_cookie D)
  else
    binder_enqueue_work_ilocked (WDeath d) (Some (delivered_death p)) ;!
    ret (BR_DEAD_BINDER, death_cookie D).

(** ** Taking work *)

(** The list [binder_thread_read] takes work from. *)
Definition read_list (t : nat) (wait_for_proc_work : bool) : M binder (option worklist) :=
  let! T := thread_at t in
  let! own := binder_worklist_empty_ilocked (thread_todo t) in
  let! shared := binder_worklist_empty_ilocked (proc_todo (thread_proc T)) in
  ret (if negb own then Some (thread_todo t)
       else if negb shared && wait_for_proc_work then Some (proc_todo (thread_proc T)) else None).

Definition clear_process_todo (t : nat) : M binder unit :=
  let! T := thread_at t in
  put_thread_at t (set_process_todo_flag false T).

(** What a round of [binder_thread_read] found: nothing, what it wrote for a
    node (with its error) or for a notification, or an item of a transaction,
    whose delivery is not in this graph. *)
Inductive read_result :=
  | ReadNothing
  | ReadNode (r : Z * list br_node)
  | ReadDeath (r : br_death * Z)
  | ReadOther (w : binder_work).

(** One round of the loop of [binder_thread_read]: take the head of the list
    and deliver it. *)
Definition read_work (t : nat) (wait_for_proc_work : bool) (put_user : br_node -> bool) : M binder read_result :=
  let! list := read_list t wait_for_proc_work in
  match list with
  | None => ret ReadNothing
  | Some l =>
    let! w := binder_dequeue_work_head_ilocked l in
    let! empty := binder_worklist_empty_ilocked (thread_todo t) in
    (if empty : bool then clear_process_todo t else ret tt) ;!
    let! T := thread_at t in
    let! w := deref w in
    match w with
    | WNode n => let! r := read_work_node (thread_proc T) n put_user in ret (ReadNode r)
    | WDeath d => let! r := read_work_death (thread_proc T) d in ret (ReadDeath r)
    | _ => ret (ReadOther w)
    end
  end.

(** ** The end of a process *)

(** The references to a dead node: count them and queue their
    notifications. *)
Fixpoint node_release_loop (l : list nat) (count : Z) : M binder Z :=
  match l with
  | [] => ret count
  | r :: l' =>
    let! R := ref_at r in
    (match ref_death R with
     | None => ret tt
     | Some d =>
       let! s := get in
       bug_on (on_list (WDeath d) s) ;!
       let! D := death_at d in
       put_death_at d (Death (death_cookie D) (Some BINDER_WORK_DEAD_BINDER)) ;!
       binder_enqueue_work_ilocked (WDeath d) (Some (proc_todo (ref_proc R))) ;!
       binder_wakeup_proc_ilocked (ref_proc R)
     end) ;!
    node_release_loop l' (count + 1)
  end.

(** After [binder_release_work] has emptied [node->async_todo]. *)
Definition binder_node_release (n : nat) (count : Z) : M binder Z :=
  let! N := node_at n in
  binder_dequeue_work_ilocked (WNode n) ;!
  bug_on (tmp_refs N =? 0) ;!
  if bool_decide (node_refs N = []) && (tmp_refs N =? 1) then
    binder_free_node n ;! ret count
  else
    put_node_at n (set_counts (internal_strong_refs N) 0 0 (tmp_refs N) (set_node_proc None N)) ;!
    modify (fun s => set_dead_nodes (n :: binder_dead_nodes s) s) ;!
    let! count := node_release_loop (node_refs N) count in
    binder_put_node n ;!
    ret count.

(** The context loses its manager if it was this process's. *)
Definition release_context_mgr (p : nat) : M binder unit :=
  let! P := proc_at p in
  let! s := get in
  match binder_context_mgr_node s !! proc_context P with
  | None => ret tt
  | Some m =>
    let! N := node_at m in
    if bool_decide (node_proc N = Some p)
    then modify (fun s => set_mgr (delete (proc_context P) (binder_context_mgr_node s)) s) else ret tt
  end.

(** The node part of [binder_deferred_release]: one round of its loop; [None]
    when the tree is empty. *)
Definition release_one_node (p : nat) (count : Z) : M binder (option Z) :=
  let! P := proc_at p in
  match rb_first (proc_nodes P) with
  | None => ret None
  | Some n =>
    binder_inc_node_tmpref_ilocked n ;!
    put_proc_at p (set_proc_nodes (rb_erase n (proc_nodes P)) P) ;!
    let! c := binder_node_release n count in
    ret (Some c)
  end.

(** The reference part: one round of its loop; [false] when the tree is empty. *)
Definition release_one_ref (p : nat) : M binder bool :=
  let! P := proc_at p in
  match rb_first (refs_by_desc P) with
  | None => ret false
  | Some r => binder_cleanup_ref_olocked r ;! binder_free_ref r ;! ret true
  end.

(** The two loops; [fuel]: one more than there are entries. *)
Fixpoint release_nodes (fuel : nat) (p : nat) (count : Z) : M binder Z :=
  match fuel with
  | O => oops
  | S fuel =>
    let! r := release_one_node p count in
    match r with None => ret count | Some count => release_nodes fuel p count end
  end.
Fixpoint release_refs (fuel : nat) (p : nat) (outgoing : Z) : M binder Z :=
  match fuel with
  | O => oops
  | S fuel =>
    let! more := release_one_ref p in
    if more : bool then release_refs fuel p (outgoing + 1) else ret outgoing
  end.

(** The nodes and references of [binder_deferred_release], in its order; the
    counts it reports. *)
Definition release_objects (fuel : nat) (p : nat) : M binder (Z * Z) :=
  release_context_mgr p ;!
  let! incoming_refs := release_nodes fuel p 0 in
  let! outgoing_refs := release_refs fuel p 0 in
  ret (incoming_refs, outgoing_refs).
End rb.
