(* ===== verification/BinderNodeFacts.v ===== *)
(** * Binder nodes and references: facts about the single operations

    Queues as functions, wake-ups that change nothing the object graph
    depends on, and what each counting operation does to the state. *)

From Stdlib Require Import ZArith Lia.
From stdpp Require Import base option gmap sets list.
From S2P Require Import Prelude RbTree BinderNode.

(** ** Dereferences *)

Lemma node_at_eq n N s : nodes s !! n = Some N -> node_at n s = Some (N, s).
Proof. intros H. unfold node_at, bind, get. by rewrite H. Qed.
Lemma ref_at_eq r R s : refs s !! r = Some R -> ref_at r s = Some (R, s).
Proof. intros H. unfold ref_at, bind, get. by rewrite H. Qed.
Lemma death_at_eq d D s : deaths s !! d = Some D -> death_at d s = Some (D, s).
Proof. intros H. unfold death_at, bind, get. by rewrite H. Qed.
Lemma proc_at_eq p P s : procs s !! p = Some P -> proc_at p s = Some (P, s).
Proof. intros H. unfold proc_at, bind, get. by rewrite H. Qed.
Lemma thread_at_eq t T s : threads s !! t = Some T -> thread_at t s = Some (T, s).
Proof. intros H. unfold thread_at, bind, get. by rewrite H. Qed.

Lemma upd_node_eq n f N s : nodes s !! n = Some N -> upd_node n f s = Some (tt, set_nodes (<[n := f N]> (nodes s)) s).
Proof. intros H. unfold upd_node. by erewrite bind_eq by by apply node_at_eq. Qed.

Lemma next_id_eq s : next_id s = Some (s32 (binder_last_id s + 1), set_last_id (s32 (binder_last_id s + 1)) s).
Proof. reflexivity. Qed.

(** ** Queues *)

Lemma on_list_true w s : on_list w s = true <-> exists l, w ∈ queue l s.
Proof.
  unfold on_list. rewrite existsb_exists. split.
  - intros ([l q] & Hin%list_elem_of_In%elem_of_map_to_list & Hw%bool_decide_eq_true). exists l.
    unfold queue. by rewrite Hin.
  - intros (l & Hw). unfold queue in Hw. destruct (works s !! l) as [q|] eqn:Hl; [|by apply not_elem_of_nil in Hw].
    exists (l, q). split; [by apply list_elem_of_In, elem_of_map_to_list|by apply bool_decide_eq_true].
Qed.

Lemma on_list_false w s : on_list w s = false <-> forall l, w ∉ queue l s.
Proof.
  rewrite <- not_true_iff_false, on_list_true. split; [|by intros H [l Hl]; apply (H l)].
  intros H l Hl. apply H. by exists l.
Qed.

Definition enqueued (l : worklist) (w : binder_work) (s : binder) : binder :=
  set_works (<[l := queue l s ++ [w]]> (works s)) s.
Definition dequeued (w : binder_work) (s : binder) : binder := set_works (list_del w <$> works s) s.

Lemma queue_enqueued l w l' s : queue l' (enqueued l w s) = if decide (l' = l) then queue l s ++ [w] else queue l' s.
Proof. unfold queue, enqueued. simpl. rewrite lookup_insert. case_decide; case_decide; by subst. Qed.

Lemma queue_dequeued w l s : queue l (dequeued w s) = list_del w (queue l s).
Proof. unfold queue, dequeued. simpl. rewrite lookup_fmap. by destruct (works s !! l). Qed.

Lemma elem_enqueued l w l' x s : x ∈ queue l' (enqueued l w s) <-> x ∈ queue l' s \/ l' = l /\ x = w.
Proof.
  rewrite queue_enqueued. case_decide; [subst; rewrite elem_of_app, list_elem_of_singleton; tauto|tauto].
Qed.

Lemma elem_dequeued w l x s : x ∈ queue l (dequeued w s) <-> x <> w /\ x ∈ queue l s.
Proof. rewrite queue_dequeued. apply elem_of_list_del. Qed.

Lemma enqueue_eq l w s : (forall l, w ∉ queue l s) ->
  binder_enqueue_work_ilocked w (Some l) s = Some (tt, enqueued l w s).
Proof.
  intros Hw. unfold binder_enqueue_work_ilocked. erewrite bind_eq by reflexivity.
  erewrite bind_eq by reflexivity. by rewrite (proj2 (on_list_false w s) Hw).
Qed.

(** ** Wake-ups *)

(** Same process but for the threads waiting for work. *)
Definition same_proc (P P' : binder_proc) : Prop :=
  proc_threads P' = proc_threads P /\ proc_nodes P' = proc_nodes P /\ refs_by_desc P' = refs_by_desc P /\
  refs_by_node P' = refs_by_node P /\ proc_context P' = proc_context P /\
  (forall t, t ∈ waiting_threads P' -> t ∈ waiting_threads P).

Record woke (s s' : binder) : Prop := Woke {
  wk_nodes : nodes s' = nodes s;
  wk_refs : refs s' = refs s;
  wk_deaths : deaths s' = deaths s;
  wk_threads : threads s' = threads s;
  wk_works : works s' = works s;
  wk_mgr : binder_context_mgr_node s' = binder_context_mgr_node s;
  wk_dead : binder_dead_nodes s' = binder_dead_nodes s;
  wk_created : obj_created s' = obj_created s;
  wk_deleted : obj_deleted s' = obj_deleted s;
  wk_warnings : binder_warnings s' = binder_warnings s;
  wk_proc p P : procs s !! p = Some P -> exists P', procs s' !! p = Some P' /\ same_proc P P';
  wk_proc_back p P' : procs s' !! p = Some P' -> exists P, procs s !! p = Some P /\ same_proc P P'
}.

Lemma same_proc_refl P : same_proc P P.
Proof. by repeat split. Qed.

Lemma woke_refl s : woke s s.
Proof. split; try done; intros p P HP; exists P; (split; [done|apply same_proc_refl]). Qed.

Lemma woke_queue s s' l : woke s s' -> queue l s' = queue l s.
Proof. intros W. unfold queue. by rewrite (wk_works _ _ W). Qed.

(** The threads of every process exist. *)
Definition threads_there (s : binder) : Prop :=
  forall p P t, procs s !! p = Some P -> t ∈ rb_inorder (proc_threads P) -> is_Some (threads s !! t).

Lemma set_woken_woke x s : woke s (set_woken x s).
Proof. split; try done; intros p P HP; exists P; (split; [done|apply same_proc_refl]). Qed.

Lemma wakeup_poll_ok sync : forall l s, (forall t, t ∈ l -> is_Some (threads s !! t)) ->
  exists s', wakeup_poll_loop l sync s = Some (tt, s') /\ exists x, s' = set_woken x s.
Proof.
  induction l as [|t l IH]; intros s Ht.
  { exists s. split; [done|]. exists (woken s). by destruct s. }
  destruct (Ht t ltac:(by left)) as [T HT]. cbn [wakeup_poll_loop].
  erewrite bind_eq by by apply thread_at_eq.
  assert (Ha : exists b, (if Z.land (looper T) BINDER_LOOPER_STATE_POLL =? 0 then ret false
    else binder_available_for_proc_work_ilocked t) s = Some (b, s)).
  { case_if; [by eexists|]. unfold binder_available_for_proc_work_ilocked.
    erewrite bind_eq by by apply thread_at_eq. by eexists. }
  destruct Ha as [b Ha]. erewrite bind_eq by exact Ha.
  assert (Hw : exists x, (if b : bool then wake_up t sync else ret tt) s = Some (tt, set_woken x s)).
  { destruct b; [by eexists|]. exists (woken s). by destruct s. }
  destruct Hw as [x Hw]. erewrite bind_eq by exact Hw.
  destruct (IH (set_woken x s)) as (s' & E & y & ->); [intros t' Ht'; apply Ht; by right|].
  exists (set_woken y (set_woken x s)). split; [done|]. by exists y.
Qed.

Lemma wakeup_proc_ok p P s : procs s !! p = Some P -> threads_there s ->
  exists s', binder_wakeup_proc_ilocked p s = Some (tt, s') /\ woke s s'.
Proof.
  intros HP Hth. unfold binder_wakeup_proc_ilocked, binder_select_thread_ilocked.
  destruct (waiting_threads P) as [|t rest] eqn:Hw.
  all: erewrite (bind_eq (bind _ _)) by (erewrite bind_eq by (by apply proc_at_eq); rewrite Hw; reflexivity).
  - unfold binder_wakeup_thread_ilocked, binder_wakeup_poll_threads_ilocked.
    erewrite bind_eq by by apply proc_at_eq.
    destruct (wakeup_poll_ok false (rb_inorder (proc_threads P)) s) as (s' & E & x & ->).
    { intros t Ht. by eapply Hth. }
    eexists. split; [exact E|]. apply set_woken_woke.
  - cbn [binder_wakeup_thread_ilocked]. eexists. split; [reflexivity|].
    set (P1 := set_waiting rest P).
    assert (Hsame : same_proc P P1) by (repeat split; simpl; rewrite Hw; by right).
    split; try done; intros q Q; simpl; rewrite lookup_insert; case_decide as Hq; subst.
    + intros HQ. simplify_eq. by exists P1.
    + intros HQ. exists Q. split; [done|apply same_proc_refl].
    + intros [= <-]. by exists P.
    + intros HQ. exists Q. split; [done|apply same_proc_refl].
Qed.

(** ** What dropping a reference does *)

Definition dropped (strong_ internal : bool) (N : binder_node) : binder_node :=
  if strong_ then
    if internal then set_counts (s32 (internal_strong_refs N - 1)) (local_weak_refs N) (local_strong_refs N) (tmp_refs N) N
    else set_counts (internal_strong_refs N) (local_weak_refs N) (s32 (local_strong_refs N - 1)) (tmp_refs N) N
  else
    if internal then N
    else set_counts (internal_strong_refs N) (s32 (local_weak_refs N - 1)) (local_strong_refs N) (tmp_refs N) N.

(** Something keeps the node from being freed. *)
Definition held (N : binder_node) : Prop :=
  node_refs N <> [] \/ local_strong_refs N <> 0 \/ local_weak_refs N <> 0 \/ tmp_refs N <> 0.

(** The node has been taken out of its owner's tree, or off the list of dead
    nodes, and off any work list. *)
Definition unlinked `{Rbtree} (n : nat) (N : binder_node) (s s' : binder) : Prop :=
  match node_proc N with
  | Some p => exists P, procs s !! p = Some P /\
      s' = set_procs (<[p := set_proc_nodes (rb_erase n (proc_nodes P)) P]> (procs s)) (dequeued (WNode n) s)
  | None => s' = set_dead_nodes (list_del n (binder_dead_nodes s)) s
  end.

(** The owner has been told, if it was not already. *)
Definition told (n : nat) (N : binder_node) (s s' : binder) : Prop :=
  s' = s \/ exists p, node_proc N = Some p /\ (forall l, WNode n ∉ queue l s) /\
    woke (enqueued (proc_todo p) (WNode n) s) s'.

Definition dec_post `{Rbtree} (n : nat) (N : binder_node) (s : binder) (r : bool) (s' : binder) : Prop :=
  if r then ~ held N /\ (node_proc N <> None -> has_strong_ref N = false /\ has_weak_ref N = false) /\
            unlinked n N s s'
  else told n N s s' /\ (held N \/ internal_strong_refs N <> 0 \/ exists l, WNode n ∈ queue l s').

Section dec.
Context `{RB : Rbtree}.

Lemma held_test N :
  (bool_decide (node_refs N = []) && (local_strong_refs N =? 0) && (local_weak_refs N =? 0) && (tmp_refs N =? 0))
    = false <-> held N.
Proof. unfold held. rewrite !andb_false_iff, bool_decide_eq_false, !Z.eqb_neq. tauto. Qed.

Lemma not_held_test N :
  (bool_decide (node_refs N = []) && (local_strong_refs N =? 0) && (local_weak_refs N =? 0) && (tmp_refs N =? 0))
    = true <-> ~ held N.
Proof. rewrite <- held_test. by destruct (_ && _). Qed.

(** The owner exists, and a node without owner is on no list. *)
Definition owner_ok (n : nat) (N : binder_node) (s : binder) : Prop :=
  match node_proc N with
  | Some p => is_Some (procs s !! p)
  | None => forall l, WNode n ∉ queue l s
  end.

Lemma dec_node_tail_ok n N s : threads_there s -> owner_ok n N s ->
  exists r s', dec_node_tail n N s = Some (r, s') /\ dec_post n N s r s'.
Proof.
  intros Hth Ho. unfold owner_ok, dec_node_tail, dec_post, unlinked, told in *.
  destruct (node_proc N) as [p|] eqn:Hp.
  - destruct Ho as [P HP]. destruct (has_strong_ref N || has_weak_ref N) eqn:Hf.
    + erewrite bind_eq by reflexivity. destruct (on_list (WNode n) s) eqn:Hon.
      * erewrite bind_eq by reflexivity. exists false, s. split; [done|]. split; [by left|].
        right; right. by apply on_list_true.
      * pose proof (proj1 (on_list_false _ _) Hon) as Hno.
        destruct (wakeup_proc_ok p P (enqueued (proc_todo p) (WNode n) s)) as (s' & E & W); [done|done|].
        erewrite (bind_eq (bind _ _)) by (erewrite bind_eq by (by apply enqueue_eq); exact E).
        exists false, s'. split; [done|]. split; [right; by exists p|]. right; right. exists (proc_todo p).
        rewrite (woke_queue _ _ _ W), elem_enqueued. by right.
    + destruct (bool_decide _ && _ && _ && _) eqn:Hh.
      * apply not_held_test in Hh. apply orb_false_elim in Hf.
        erewrite bind_eq by reflexivity. erewrite bind_eq by by apply (proc_at_eq p P).
        erewrite bind_eq by reflexivity. eexists true, _. split; [reflexivity|]. split; [done|]. split; [done|].
        by exists P.
      * apply held_test in Hh. exists false, s. split; [done|]. split; [by left|by left].
  - destruct (bool_decide _ && _ && _ && _) eqn:Hh.
    + apply not_held_test in Hh. erewrite bind_eq by reflexivity.
      rewrite (proj2 (on_list_false _ _) Ho). erewrite bind_eq by reflexivity.
      eexists true, _. split; [reflexivity|]. split; [done|]. split; [done|]. reflexivity.
    + apply held_test in Hh. exists false, s. split; [done|]. split; [by left|by left].
Qed.

Lemma dropped_same strong_ internal N : node_proc (dropped strong_ internal N) = node_proc N /\
  node_refs (dropped strong_ internal N) = node_refs N /\ node_ptr (dropped strong_ internal N) = node_ptr N.
Proof. by destruct strong_, internal. Qed.

(** [binder_dec_node_nilocked]: the counter goes down; then the node is kept,
    or its owner told, or it is unlinked for its caller to free. *)
Lemma dec_node_ok n N strong_ internal s : nodes s !! n = Some N -> threads_there s -> owner_ok n N s ->
  let N1 := dropped strong_ internal N in let s1 := set_nodes (<[n := N1]> (nodes s)) s in
  exists r s', binder_dec_node_nilocked n strong_ internal s = Some (r, s') /\ dec_post n N1 s1 r s'.
Proof.
  intros HN Hth Ho N1 s1. unfold binder_dec_node_nilocked. erewrite bind_eq by by apply node_at_eq.
  assert (Hkeep : held N1 \/ internal_strong_refs N1 <> 0 ->
    exists r s', ret false s1 = Some (r, s') /\ dec_post n N1 s1 r s').
  { intros Hk. exists false, s1. split; [done|]. split; [by left|]. tauto. }
  assert (Htail : exists r s', dec_node_tail n N1 s1 = Some (r, s') /\ dec_post n N1 s1 r s').
  { apply dec_node_tail_ok; [done|]. unfold owner_ok in *.
    assert (EP : node_proc N1 = node_proc N) by apply dropped_same. by rewrite EP. }
  destruct strong_.
  - change (if internal then _ else _) with N1. cbv zeta. erewrite bind_eq by reflexivity.
    fold s1. destruct (_ || _) eqn:E; [|exact Htail]. apply Hkeep. apply orb_true_iff in E.
    rewrite !negb_true_iff, !Z.eqb_neq in E. unfold held. tauto.
  - change (if internal then _ else _) with N1. cbv zeta. erewrite bind_eq by reflexivity.
    fold s1. destruct (_ || _) eqn:E; [|exact Htail]. apply Hkeep. left.
    rewrite !orb_true_iff, !negb_true_iff, !Z.eqb_neq, bool_decide_eq_false in E. unfold held. tauto.
Qed.
End dec.
