(* ===== verification/BinderNodeInv.v ===== *)
(** * Binder nodes and references: the invariant

    [inv] says that the object graph is consistent: trees, lists and counters
    all tell the same story.  While one operation is under way, a reference
    being cleaned up ([xr]), an unlinked node waiting to be freed ([xn]) or a
    node whose last count has just gone ([lo]) may be exempt from parts of it;
    between operations nothing is. *)

From Stdlib Require Import ZArith Lia.
From stdpp Require Import base option gmap sets list.
From S2P Require Import Prelude RbTree BinderNode BinderNodeFacts.

Definition two31 : Z := 2147483648.
Definition is_int (x : Z) : Prop := - two31 <= x < two31.

Lemma s32_int x : is_int x -> s32 x = x.
Proof.
  unfold s32, u32, is_int, two31, two32. intros H.
  destruct (Z.le_gt_cases 0 x).
  - rewrite Z.mod_small by lia. case_if; zbool; lia.
  - replace (x mod 4294967296) with (x + 4294967296) by (apply (Z.mod_unique _ _ (-1)); lia).
    case_if; zbool; lia.
Qed.

(** ** Keys *)

Definition nptr (s : binder) (n : nat) : Z := match nodes s !! n with Some N => node_ptr N | None => 0 end.
Definition rdesc (s : binder) (r : nat) : Z := match refs s !! r with Some R => desc (ref_data R) | None => 0 end.
Definition rnode (s : binder) (r : nat) : Z :=
  match refs s !! r with Some R => Z.of_nat (default 0%nat (ref_node R)) | None => 0 end.
(** Whether the reference holds its node strongly. *)
Definition rstrong (s : binder) (r : nat) : Z :=
  match refs s !! r with Some R => if strong (ref_data R) =? 0 then 0 else 1 | None => 0 end.

(** The tree holds exactly the elements of [P], in strict key order. *)
Definition holds_set (key : nat -> Z) (t : rb_tree) (P : nat -> Prop) : Prop :=
  rb_keyed key t /\ forall x, x ∈ rb_inorder t <-> P x.

Definition is_mgr (s : binder) (n : nat) : Prop := exists c, binder_context_mgr_node s !! c = Some n.

Definition b2z (b : bool) : Z := if b then 1 else 0.

(** The counts taken back when the owner answers; a dead node's owner never
    does. *)
Definition owed (N : binder_node) (pending : bool) : Z :=
  match node_proc N with Some _ => b2z pending | None => 0 end.

(** The process whose threads may handle a list. *)
Definition list_owner (s : binder) (l : worklist) : option nat :=
  match l with
  | proc_todo p => Some p
  | thread_todo t => T ← threads s !! t; Some (thread_proc T)
  | _ => None
  end.

Section inv.
Context (xr xn lo : option nat).

Record graph (s : binder) : Prop := Graph {
  g_nodes p P : procs s !! p = Some P -> holds_set (nptr s) (proc_nodes P)
    (fun n => xn <> Some n /\ exists N, nodes s !! n = Some N /\ node_proc N = Some p);
  g_desc p P : procs s !! p = Some P -> holds_set (rdesc s) (refs_by_desc P)
    (fun r => xr <> Some r /\ exists R, refs s !! r = Some R /\ ref_proc R = p);
  g_byno p P : procs s !! p = Some P -> holds_set (rnode s) (refs_by_node P)
    (fun r => xr <> Some r /\ exists R, refs s !! r = Some R /\ ref_proc R = p);
  g_ref r R : refs s !! r = Some R -> xr <> Some r -> is_Some (procs s !! ref_proc R) /\
    exists n N, ref_node R = Some n /\ nodes s !! n = Some N /\ r ∈ node_refs N;
  g_refs n N : nodes s !! n = Some N -> NoDup (node_refs N) /\
    forall r, r ∈ node_refs N -> xr <> Some r /\ exists R, refs s !! r = Some R /\ ref_node R = Some n;
  g_proc n N p : nodes s !! n = Some N -> node_proc N = Some p -> is_Some (procs s !! p);
  g_dead : NoDup (binder_dead_nodes s) /\ forall n, n ∈ binder_dead_nodes s <->
    xn <> Some n /\ exists N, nodes s !! n = Some N /\ node_proc N = None;
  g_threads : threads_there s /\ forall t T, threads s !! t = Some T -> is_Some (procs s !! thread_proc T);
  g_udesc r R : refs s !! r = Some R -> is_u32 (desc (ref_data R));
  g_mgr c n : binder_context_mgr_node s !! c = Some n -> xn <> Some n /\ exists N p P,
    nodes s !! n = Some N /\ node_proc N = Some p /\ procs s !! p = Some P /\ proc_context P = c;
  g_free : match xn with Some n => exists N, nodes s !! n = Some N /\ node_refs N = [] | None => True end
}.

Record node_counts (s : binder) (n : nat) (N : binder_node) : Prop := NodeCounts {
  nc_internal : internal_strong_refs N = sum_over (rstrong s) (node_refs N);
  nc_bound : internal_strong_refs N < two31;
  nc_strong : owed N (pending_strong_ref N) <= local_strong_refs N < two31;
  nc_weak : owed N (pending_weak_ref N) <= local_weak_refs N < two31;
  nc_tmp : 0 <= tmp_refs N < two31;
  nc_mgr : is_mgr s n -> owed N (pending_strong_ref N) + 1 <= local_strong_refs N /\
    owed N (pending_weak_ref N) + 1 <= local_weak_refs N /\ has_strong_ref N = true /\ has_weak_ref N = true
}.

Record counted (s : binder) : Prop := Counted {
  c_ref r R : refs s !! r = Some R -> 0 <= strong (ref_data R) < two31 /\ 0 <= weak (ref_data R) < two31;
  c_node n N : nodes s !! n = Some N -> node_counts s n N
}.

Record queued (s : binder) : Prop := Queued {
  q_nodup l : NoDup (queue l s);
  q_once w l l' : w ∈ queue l s -> w ∈ queue l' s -> l' = l;
  q_node n l : WNode n ∈ queue l s -> xn <> Some n /\
    exists N p, nodes s !! n = Some N /\ node_proc N = Some p /\ list_owner s l = Some p;
  q_held n N : nodes s !! n = Some N -> xn <> Some n -> lo <> Some n ->
    held N \/ exists l, WNode n ∈ queue l s
}.

Record notified (s : binder) : Prop := Notified {
  d_ref r R d : refs s !! r = Some R -> ref_death R = Some d -> exists D, deaths s !! d = Some D /\
    (xr <> Some r -> forall l, WDeath d ∈ queue l s ->
       death_work_type D = Some BINDER_WORK_DEAD_BINDER /\
       exists n N, ref_node R = Some n /\ nodes s !! n = Some N /\ node_proc N = None);
  d_own r R r' R' d : refs s !! r = Some R -> ref_death R = Some d ->
    refs s !! r' = Some R' -> ref_death R' = Some d -> r' = r;
  d_queue d l : WDeath d ∈ queue l s -> is_Some (deaths s !! d);
  d_deliv w p : w ∈ queue (delivered_death p) s -> exists d D, w = WDeath d /\ deaths s !! d = Some D /\
    (death_work_type D = Some BINDER_WORK_DEAD_BINDER \/ death_work_type D = Some BINDER_WORK_DEAD_BINDER_AND_CLEAR);
  d_free d D : deaths s !! d = Some D ->
    (exists r R, refs s !! r = Some R /\ ref_death R = Some d) \/
    (exists l, WDeath d ∈ queue l s) /\
      (death_work_type D = Some BINDER_WORK_DEAD_BINDER_AND_CLEAR \/
       death_work_type D = Some BINDER_WORK_CLEAR_DEATH_NOTIFICATION)
}.

Record inv_ (s : binder) : Prop := Inv {
  i_graph : graph s;
  i_counted : counted s;
  i_queued : queued s;
  i_notified : notified s
}.
End inv.

Abbreviation inv := (inv_ None None None).

(** ** The invariant does not look at wake-ups and statistics *)

Lemma holds_set_ext key key' t (P Q : nat -> Prop) : holds_set key t P -> (forall x, P x <-> Q x) ->
  (forall x, P x -> key' x = key x) -> holds_set key' t Q.
Proof.
  intros [Hk Hin] HPQ Hkey. split; [|intros x; by rewrite Hin].
  eapply rb_keyed_ext; [|exact Hk]. intros x Hx. by apply Hkey, Hin.
Qed.

Lemma list_owner_ext s s' l : threads s' = threads s -> list_owner s' l = list_owner s l.
Proof. intros E. unfold list_owner. by rewrite E. Qed.

(** Two states the invariant cannot tell apart. *)
Record alike (s s' : binder) : Prop := Alike {
  al_nodes : nodes s' = nodes s;
  al_refs : refs s' = refs s;
  al_deaths : deaths s' = deaths s;
  al_threads : threads s' = threads s;
  al_queue l : queue l s' = queue l s;
  al_mgr : binder_context_mgr_node s' = binder_context_mgr_node s;
  al_dead : binder_dead_nodes s' = binder_dead_nodes s;
  al_proc p P : procs s !! p = Some P -> exists P', procs s' !! p = Some P' /\ same_proc P P';
  al_proc_back p P' : procs s' !! p = Some P' -> exists P, procs s !! p = Some P /\ same_proc P P'
}.

Lemma woke_alike s s' : woke s s' -> alike s s'.
Proof. intros W. split; try apply W. intros l. by apply woke_queue. Qed.

(** The id counter, the wake-ups, the statistics and the warnings. *)
Lemma alike_same s s' : nodes s' = nodes s -> refs s' = refs s -> deaths s' = deaths s -> threads s' = threads s ->
  works s' = works s -> binder_context_mgr_node s' = binder_context_mgr_node s ->
  binder_dead_nodes s' = binder_dead_nodes s -> procs s' = procs s -> alike s s'.
Proof.
  intros ?????? ? E. split; try done; [intros l; unfold queue; congruence| |]; intros p P; rewrite E; intros HP;
    exists P; (split; [done|apply same_proc_refl]).
Qed.

(** A process whose graph fields stay as they are. *)
Lemma alike_proc p P P' s : procs s !! p = Some P -> same_proc P P' -> alike s (set_procs (<[p := P']> (procs s)) s).
Proof.
  intros HP Hsame. split; try done; intros q Q; simpl; rewrite lookup_insert; case_decide; subst.
  - intros HQ. simplify_eq. by exists P'.
  - intros HQ. exists Q. split; [done|apply same_proc_refl].
  - intros [= <-]. by exists P.
  - intros HQ. exists Q. split; [done|apply same_proc_refl].
Qed.

Lemma inv_alike xr xn lo s s' : inv_ xr xn lo s -> alike s s' -> inv_ xr xn lo s'.
Proof.
  intros [G C Q D] [An Ar Ad At Aq Am Ade Ap Apb].
  assert (Esome : forall p, is_Some (procs s !! p) -> is_Some (procs s' !! p)).
  { intros p [P HP]. destruct (Ap p P HP) as (P' & HP' & _). by exists P'. }
  assert (Ekey : forall x, nptr s' x = nptr s x /\ rdesc s' x = rdesc s x /\ rnode s' x = rnode s x /\
    rstrong s' x = rstrong s x).
  { intros x. unfold nptr, rdesc, rnode, rstrong. by rewrite An, Ar. }
  split.
  - destruct G. split; rewrite ?An, ?Ar, ?Ade, ?Am; try done.
    + intros p P' HP'. destruct (Apb p P' HP') as (P & HP & _ & -> & _).
      eapply holds_set_ext; [by apply g_nodes0|done|intros x _; apply Ekey].
    + intros p P' HP'. destruct (Apb p P' HP') as (P & HP & _ & _ & -> & _).
      eapply holds_set_ext; [by apply g_desc0|done|intros x _; apply Ekey].
    + intros p P' HP'. destruct (Apb p P' HP') as (P & HP & _ & _ & _ & -> & _).
      eapply holds_set_ext; [by apply g_byno0|done|intros x _; apply Ekey].
    + intros r R HR Hx. destruct (g_ref0 r R HR Hx) as [? ?]. split; [by apply Esome|done].
    + intros n N p HN Hp. apply Esome. by eapply g_proc0.
    + destruct g_threads0 as [T1 T2]. split.
      * intros p P' t HP'. destruct (Apb p P' HP') as (P & HP & -> & _). rewrite At. by eapply T1.
      * intros t T. rewrite At. intros HT. apply Esome. by eapply T2.
    + intros c n Hc. destruct (g_mgr0 c n Hc) as (? & N & p & P & HN & Hp & HP & Hctx). split; [done|].
      destruct (Ap p P HP) as (P' & HP' & _ & _ & _ & _ & Ec & _). exists N, p, P'. by rewrite Ec.
  - destruct C. split; rewrite ?An, ?Ar; [done|]. intros n N HN. destruct (c_node0 n N HN). split; try done.
    + rewrite nc_internal0. apply sum_over_ext. intros x _. symmetry. apply Ekey.
    + unfold is_mgr in *. by rewrite Am.
  - destruct Q. split; intros *; rewrite ?An, ?Aq; try done.
    + apply q_once0.
    + intros H. rewrite (list_owner_ext s s' l At). by apply q_node0.
    + intros HN Hx Hl. destruct (q_held0 n N HN Hx Hl) as [?|[l Hq]]; [by left|right; exists l; by rewrite Aq].
  - destruct D. split; intros *; rewrite ?An, ?Ar, ?Ad, ?Aq; try done.
    + intros HR Hd. destruct (d_ref0 r R d HR Hd) as (D & HD & H). exists D. split; [done|].
      intros Hx l. rewrite Aq. by apply H.
    + by apply d_own0.
    + by apply d_queue0.
    + apply d_deliv0.
    + intros HD. destruct (d_free0 d D HD) as [?|[[l Hl] ?]]; [by left|right; split; [exists l; by rewrite Aq|done]].
Qed.

(** ** Elementary changes *)

(** Counters and flags of one node. *)
Lemma inv_node_upd xr xn lo lo' n N N' s : inv_ xr xn lo s -> nodes s !! n = Some N -> xn <> Some n ->
  lo = None \/ lo = Some n ->
  node_proc N' = node_proc N -> node_ptr N' = node_ptr N -> node_refs N' = node_refs N ->
  node_counts s n N' -> (lo' <> Some n -> held N' \/ exists l, WNode n ∈ queue l s) ->
  inv_ xr xn lo' (set_nodes (<[n := N']> (nodes s)) s).
Proof.
  intros [G C Q D] HN Hx Hlo Ep Et Er Hc Hh. set (s' := set_nodes _ s).
  assert (Hl : forall m M', nodes s' !! m = Some M' -> exists M, nodes s !! m = Some M /\
    node_proc M' = node_proc M /\ node_ptr M' = node_ptr M /\ node_refs M' = node_refs M).
  { intros m M' HM. simpl in HM. rewrite lookup_insert in HM. case_decide; simplify_eq; [by exists N|by exists M']. }
  assert (Hl' : forall m M, nodes s !! m = Some M -> exists M', nodes s' !! m = Some M' /\
    node_proc M' = node_proc M /\ node_ptr M' = node_ptr M /\ node_refs M' = node_refs M).
  { intros m M HM. simpl. rewrite lookup_insert. case_decide; simplify_eq; [by exists N'|by exists M]. }
  assert (Hptr : forall m, nptr s' m = nptr s m).
  { intros m. unfold nptr. simpl. rewrite lookup_insert. case_decide; [subst; by rewrite HN|done]. }
  assert (Hset : forall p m, (xn <> Some m /\ exists M, nodes s' !! m = Some M /\ node_proc M = p) <->
    (xn <> Some m /\ exists M, nodes s !! m = Some M /\ node_proc M = p)).
  { intros p m. split; intros (? & M & HM & Hp); (split; [done|]).
    - destruct (Hl m M HM) as (M0 & ? & ? & _). exists M0. split; [done|congruence].
    - destruct (Hl' m M HM) as (M0 & ? & ? & _). exists M0. split; [done|congruence]. }
  split.
  - destruct G. split; try done.
    + intros p P HP. eapply holds_set_ext; [by apply g_nodes0|intros m; symmetry; apply Hset|intros m _; apply Hptr].
    + intros r R HR Hxr. destruct (g_ref0 r R HR Hxr) as (? & m & M & Hm & HM & Hin). split; [done|].
      destruct (Hl' m M HM) as (M' & HM' & _ & _ & E). exists m, M'. by rewrite E.
    + intros m M HM. destruct (Hl m M HM) as (M0 & HM0 & _ & _ & ->). by apply g_refs0.
    + intros m M p HM Hp. destruct (Hl m M HM) as (M0 & HM0 & E & _). rewrite E in Hp. by eapply g_proc0.
    + destruct g_dead0 as [? Hd]. split; [done|]. intros m. rewrite Hset. apply Hd.
    + intros c m Hm. destruct (g_mgr0 c m Hm) as (? & M & p & P & HM & Hp & ? & ?). split; [done|].
      destruct (Hl' m M HM) as (M' & HM' & E & _). exists M', p, P. by rewrite E.
    + destruct xn as [m|]; [|done]. destruct g_free0 as (M & HM & E).
      destruct (Hl' m M HM) as (M' & HM' & _ & _ & E'). exists M'. by rewrite E'.
  - destruct C. split; [done|]. intros m M HM. simpl in HM. rewrite lookup_insert in HM.
    case_decide; [simplify_eq; by destruct Hc|]. by destruct (c_node0 m M HM).
  - destruct Q. split; try done.
    + intros m l Hm. destruct (q_node0 m l Hm) as (? & M & p & HM & Hp & ?). split; [done|].
      destruct (Hl' m M HM) as (M' & HM' & E & _). exists M', p. by rewrite E.
    + intros m M HM Hxm Hlm. simpl in HM. rewrite lookup_insert in HM. case_decide as Hm.
      * simplify_eq. by apply Hh.
      * apply (q_held0 m M HM Hxm). destruct Hlo as [->| ->]; congruence.
  - destruct D. split; try done. intros r R d HR Hd. destruct (d_ref0 r R d HR Hd) as (D & HD & H).
    exists D. split; [done|]. intros Hxr l Hq. destruct (H Hxr l Hq) as (? & m & M & Hm & HM & Hp).
    split; [done|]. destruct (Hl' m M HM) as (M' & HM' & E & _). exists m, M'. by rewrite E.
Qed.

(** A node's work item joins a list of its owner. *)
Lemma inv_enqueue_node xr xn lo n N p l s : inv_ xr xn lo s -> nodes s !! n = Some N -> xn <> Some n ->
  lo = None \/ lo = Some n ->
  node_proc N = Some p -> list_owner s l = Some p -> (forall l, WNode n ∉ queue l s) ->
  inv_ xr xn None (enqueued l (WNode n) s).
Proof.
  intros [G C Q D] HN Hx Hlo Hp Hl Hno. split; [by destruct G; split|by destruct C; split; [|intros m M HM; destruct (c_node0 m M HM)]| |].
  - destruct Q. split.
    + intros l'. rewrite queue_enqueued. case_decide; [|done]. apply NoDup_app. split; [done|].
      split; [|apply NoDup_singleton]. intros x Hx' ->%list_elem_of_singleton. by apply (Hno l).
    + intros w l1 l2. rewrite !elem_enqueued.
      intros [H1|[-> ->]] [H2|[-> E]]; try done; [by eapply q_once0| |].
      * subst. by destruct (Hno l1).
      * by destruct (Hno l2).
    + intros m l' Hm. apply elem_enqueued in Hm as [Hm|[-> [= ->]]]; [by apply q_node0|].
      split; [done|]. by exists N, p.
    + intros m M HM Hxm Hlm. destruct (decide (m = n)) as [->|Hne].
      { right. exists l. apply elem_enqueued. by right. }
      destruct (q_held0 m M HM Hxm) as [?|[l' Hq]]; [destruct Hlo as [->| ->]; congruence|by left|].
      right. exists l'. apply elem_enqueued. by left.
  - destruct D. assert (Hd : forall d l', WDeath d ∈ queue l' (enqueued l (WNode n) s) <-> WDeath d ∈ queue l' s).
    { intros d l'. rewrite elem_enqueued. split; [by intros [?|[_ ?]]|by left]. }
    split; try done.
    + intros r R d HR Hrd. destruct (d_ref0 r R d HR Hrd) as (D & HD & H). exists D. split; [done|].
      intros Hxr l'. rewrite Hd. by apply H.
    + intros d l'. rewrite Hd. by apply d_queue0.
    + intros w q. rewrite elem_enqueued. intros [H|[E _]]; [by apply d_deliv0 in H|].
      subst l. by simpl in Hl.
    + intros d D HD. destruct (d_free0 d D HD) as [?|[[l' Hl'] ?]]; [by left|right].
      split; [exists l'; by apply Hd|done].
Qed.

(** Taking a node's work item off its list. *)
Lemma inv_dequeue_node xr xn lo n s : inv_ xr xn lo s -> lo = None \/ lo = Some n ->
  inv_ xr xn (Some n) (dequeued (WNode n) s).
Proof.
  intros [G C Q D] Hlo. split; [by destruct G; split|by destruct C; split; [|intros m M HM; destruct (c_node0 m M HM)]| |].
  - destruct Q. split.
    + intros l. rewrite queue_dequeued. by apply list_del_NoDup.
    + intros w l1 l2 [_ H1]%elem_dequeued [_ H2]%elem_dequeued. by eapply q_once0.
    + intros m l [_ Hm]%elem_dequeued. by apply q_node0.
    + intros m M HM Hxm Hlm. destruct (q_held0 m M HM Hxm) as [?|[l Hq]];
        [destruct Hlo as [->| ->]; congruence|by left|]. right. exists l. apply elem_dequeued. split; [congruence|done].
  - destruct D. assert (Hd : forall d l, WDeath d ∈ queue l (dequeued (WNode n) s) <-> WDeath d ∈ queue l s).
    { intros d l. rewrite elem_dequeued. split; [by intros [_ ?]|by split]. }
    split; try done.
    + intros r R d HR Hrd. destruct (d_ref0 r R d HR Hrd) as (D & HD & H). exists D. split; [done|].
      intros Hxr l. rewrite Hd. by apply H.
    + intros d l. rewrite Hd. by apply d_queue0.
    + intros w q [_ H]%elem_dequeued. by apply d_deliv0 in H.
    + intros d D HD. destruct (d_free0 d D HD) as [?|[[l' Hl'] ?]]; [by left|right].
      split; [exists l'; by apply Hd|done].
Qed.

(** ** Unlinking and freeing a node *)

Section laws.
Context `{RB : Rbtree} {RBL : RbtreeLaws}.

Lemma owed_range N b : 0 <= owed N b <= 1.
Proof. unfold owed, b2z. destruct (node_proc N), b; lia. Qed.

Lemma not_held_not_mgr s n N : node_counts s n N -> ~ held N -> ~ is_mgr s n.
Proof.
  intros H Hh Hm. apply Hh. right; left. destruct (nc_mgr _ _ _ H Hm) as [H1 _].
  pose proof (owed_range N (pending_strong_ref N)). lia.
Qed.

Lemma not_held_refs N : ~ held N -> node_refs N = [].
Proof. intros H. destruct (node_refs N) eqn:E; [done|]. destruct H. left. by rewrite E. Qed.

(** Erasing one node from its tree. *)
Lemma holds_set_erase key t P x (Q : nat -> Prop) : holds_set key t P -> P x ->
  (forall y, Q y <-> y <> x /\ P y) -> holds_set key (rb_erase x t) Q.
Proof.
  intros [Hk Hin] Hx HQ. destruct (rb_keyed_del key x t Hk) as [H1 H2]; [by apply Hin|].
  split; [done|]. intros y. by rewrite H2, HQ, Hin.
Qed.

Lemma inv_unlink_free xr n N s s' : inv_ xr None (Some n) s -> nodes s !! n = Some N -> node_refs N = [] ->
  ~ is_mgr s n -> unlinked n N s s' -> inv_ xr (Some n) None s'.
Proof.
  intros I HN Hrefs Hmgr Hu.
  unfold unlinked in Hu. destruct (node_proc N) as [p|] eqn:Hp.
  - destruct Hu as (P & HP & ->).
    pose proof (inv_dequeue_node _ _ _ n s I (or_intror eq_refl)) as [G C Q D].
    set (s0 := dequeued (WNode n) s) in *. set (P' := set_proc_nodes _ P). set (s' := set_procs _ s0).
    assert (Hpr : forall q Q', procs s' !! q = Some Q' -> exists Q0, procs s0 !! q = Some Q0 /\
      (q = p /\ Q' = P' /\ Q0 = P \/ q <> p /\ Q' = Q0)).
    { intros q Q'. simpl. rewrite lookup_insert. intros H. case_decide; simplify_eq.
      - exists P. split; [done|]. by left.
      - exists Q'. split; [done|]. by right. }
    assert (Hsome : forall q, is_Some (procs s0 !! q) -> is_Some (procs s' !! q)).
    { intros q [Q' HQ]. simpl. rewrite lookup_insert. case_decide; by eexists. }
    assert (Hno : forall l, WNode n ∉ queue l s') by (intros l Hl; apply elem_dequeued in Hl as [? _]; done).
    split.
    + destruct G. split; try done.
      * intros q Q' HQ. destruct (Hpr q Q' HQ) as (Q0 & HQ0 & [(-> & -> & ->)|(Hne & ->)]).
        -- eapply (holds_set_erase _ _ _ n); [by apply g_nodes0|split; [done|by exists N]|].
           intros y. split; [intros (? & M & HM & HMp)|intros (? & _ & M & HM & HMp)].
           ++ split; [congruence|]. split; [done|by exists M].
           ++ split; [congruence|by exists M].
        -- eapply holds_set_ext; [by apply g_nodes0| |done]. intros y.
           split; intros (? & M & HM & HMp); (split; [|by exists M]); [|done]. intros [= <-]. simpl in *. congruence.
      * intros q Q' HQ. destruct (Hpr q Q' HQ) as (Q0 & HQ0 & [(-> & -> & ->)|(Hne & ->)]); exact (g_desc0 _ _ HQ0).
      * intros q Q' HQ. destruct (Hpr q Q' HQ) as (Q0 & HQ0 & [(-> & -> & ->)|(Hne & ->)]); exact (g_byno0 _ _ HQ0).
      * intros r R HR Hx. destruct (g_ref0 r R HR Hx). split; [by apply Hsome|done].
      * intros m M q HM Hq. by eapply Hsome, g_proc0.
      * destruct g_dead0 as [? Hd]. split; [done|]. intros m. etrans; [apply Hd|].
        split; intros (? & M & HM & HMp); (split; [|by exists M]); [|done]. intros [= <-]. simpl in *. congruence.
      * destruct g_threads0 as [T1 T2]. split; [|intros t T HT; by eapply Hsome, T2].
        intros q Q' t HQ. destruct (Hpr q Q' HQ) as (Q0 & HQ0 & [(-> & -> & ->)|(Hne & ->)]); by apply (T1 _ _ t HQ0).
      * intros c m Hc. destruct (g_mgr0 c m Hc) as (_ & M & q & Q0 & HM & Hq & HQ0 & Hctx).
        split; [intros [= <-]; by destruct Hmgr; exists c|]. exists M, q. simpl. rewrite lookup_insert.
        case_decide; [subst q|by exists Q0]. exists P'. replace Q0 with P in Hctx; [done|].
        change (procs s !! p = Some Q0) in HQ0. congruence.
      * by exists N.
    + by destruct C; split; [|intros m M HM; destruct (c_node0 m M HM)].
    + destruct Q. split; try done.
      * intros m l Hm. destruct (q_node0 m l Hm). split; [|done]. intros [= <-]. by apply (Hno l).
      * intros m M HM Hx _. apply (q_held0 m M HM); [done|]. intros [= <-]. done.
    + by destruct D.
  - subst s'. destruct I as [G C Q D].
    assert (Hno : forall l, WNode n ∉ queue l s).
    { intros l Hl. destruct (q_node _ _ _ Q n l Hl) as (_ & M & q & HM & Hq & _). congruence. }
    split.
    + destruct G. split; try done.
      * intros q Q' HQ. eapply holds_set_ext; [by apply g_nodes0| |done]. intros y.
        split; intros (? & M & HM & HMp); (split; [|by exists M]); [|done]. intros [= <-]. congruence.
      * destruct g_dead0 as [Hnd Hd]. split; [by apply list_del_NoDup|]. intros m. simpl.
        rewrite elem_of_list_del, Hd. split; [intros (? & _ & ?)|intros (? & ?)]; (split; [congruence|done]).
      * intros c m Hc. destruct (g_mgr0 c m Hc) as [_ H]. split; [|done]. intros [= <-]. by destruct Hmgr; exists c.
      * by exists N.
    + by destruct C; split; [|intros m M HM; destruct (c_node0 m M HM)].
    + destruct Q. split; try done.
      * intros m l Hm. destruct (q_node0 m l Hm). split; [|done]. intros [= <-]. by apply (Hno l).
      * intros m M HM Hx _. apply (q_held0 m M HM); [done|]. intros [= <-]. done.
    + by destruct D.
Qed.

Lemma inv_unlink xr n N s s' : inv_ xr None (Some n) s -> nodes s !! n = Some N -> ~ held N ->
  unlinked n N s s' -> inv_ xr (Some n) None s'.
Proof.
  intros I HN Hh. apply inv_unlink_free; [done..|by apply not_held_refs|].
  exact (not_held_not_mgr s n N (c_node _ (i_counted _ _ _ _ I) n N HN) Hh).
Qed.

(** Freeing the unlinked node. *)
Lemma inv_free_node xr n s : inv_ xr (Some n) None s -> inv_ xr None None (set_nodes (delete n (nodes s)) s).
Proof.
  intros [G C Q D]. set (s' := set_nodes _ s).
  assert (Hl : forall m M, nodes s' !! m = Some M <-> Some n <> Some m /\ nodes s !! m = Some M).
  { intros m M. simpl. rewrite lookup_delete_Some. split; intros [? ?]; split; congruence. }
  assert (Hset : forall q m, (None <> Some m /\ exists M, nodes s' !! m = Some M /\ node_proc M = q) <->
    (Some n <> Some m /\ exists M, nodes s !! m = Some M /\ node_proc M = q)).
  { intros q m. split; intros (? & M & HM & HMp).
    - apply Hl in HM as [? HM]. split; [done|by exists M].
    - split; [done|]. exists M. by rewrite Hl. }
  assert (Hlive : forall r R m M, refs s !! r = Some R -> xr <> Some r -> ref_node R = Some m ->
    nodes s !! m = Some M -> r ∈ node_refs M -> Some n <> Some m).
  { intros r R m M _ _ _ HM Hin [= <-]. destruct (g_free _ _ _ G) as (N & HN & E). simplify_eq.
    rewrite E in Hin. by apply not_elem_of_nil in Hin. }
  split.
  - destruct G. split; try done.
    + intros p P HP. eapply holds_set_ext; [by apply g_nodes0|intros m; symmetry; apply Hset|].
      intros m [Hm _]. unfold nptr. simpl. by rewrite lookup_delete_ne by congruence.
    + intros r R HR Hx. destruct (g_ref0 r R HR Hx) as (? & m & M & Hm & HM & Hin). split; [done|].
      exists m, M. split; [done|]. rewrite Hl. split; [split; [|done]|done]. by eapply Hlive.
    + intros m M [? HM]%Hl. by apply g_refs0.
    + intros m M p [? HM]%Hl ?. by eapply g_proc0.
    + destruct g_dead0 as [? Hd]. split; [done|]. intros m. etrans; [apply Hd|]. symmetry. apply Hset.
    + intros c m Hc. destruct (g_mgr0 c m Hc) as (? & M & p & P & HM & ?). split; [done|]. exists M, p, P. by rewrite Hl.
  - destruct C. split; [done|]. intros m M [? HM]%Hl. by destruct (c_node0 m M HM).
  - destruct Q. split; try done.
    + intros m l Hm. destruct (q_node0 m l Hm) as (? & M & p & HM & ?). split; [done|]. exists M, p. by rewrite Hl.
    + intros m M [? HM]%Hl _ _. by apply (q_held0 m M HM).
  - destruct D. split; try done. intros r R d HR Hrd. destruct (d_ref0 r R d HR Hrd) as (D & HD & H).
    exists D. split; [done|]. intros Hx l Hq. destruct (H Hx l Hq) as (? & m & M & Hm & HM & Hp). split; [done|].
    exists m, M. rewrite Hl. split; [done|]. split; [|done]. split; [|done].
    destruct (g_ref _ _ _ G r R HR Hx) as (_ & m' & M' & Hm' & HM' & Hin). simplify_eq. by eapply Hlive.
Qed.

(** ** Dropping a count *)

(** What an operation on one node's counters leaves alone. *)
Record dec_frame (n : nat) (s s' : binder) : Prop := DecFrame {
  df_nodes m : m <> n -> nodes s' !! m = nodes s !! m;
  df_refs : refs s' = refs s;
  df_deaths : deaths s' = deaths s;
  df_threads : threads s' = threads s;
  df_mgr : binder_context_mgr_node s' = binder_context_mgr_node s;
  df_created : obj_created s' = obj_created s;
  df_deleted : obj_deleted s' = obj_deleted s;
  df_warnings : binder_warnings s' = binder_warnings s;
  df_queue l w : w <> WNode n -> w ∈ queue l s' <-> w ∈ queue l s;
  df_proc p P : procs s !! p = Some P -> exists P', procs s' !! p = Some P' /\
    refs_by_desc P' = refs_by_desc P /\ refs_by_node P' = refs_by_node P /\
    proc_context P' = proc_context P
}.

Lemma told_frame n N s s' : told n N s s' -> dec_frame n s s'.
Proof.
  intros [->|(p & _ & _ & W)].
  { split; try done. intros p P HP. by exists P. }
  split; try apply W; [by intros; rewrite (wk_nodes _ _ W)| |].
  - intros l w Hw. rewrite (woke_queue _ _ l W), elem_enqueued. split; [intros [?|[_ ?]]; done|by left].
  - intros q Q HQ. destruct (wk_proc _ _ W q Q HQ) as (Q' & HQ' & _ & _ & E1 & E2 & E3 & _). by exists Q'.
Qed.

Lemma unlinked_frame n N s s' : unlinked n N s s' -> dec_frame n s s'.
Proof.
  unfold unlinked. destruct (node_proc N) as [p|].
  - intros (P & HP & ->). split; try done.
    + intros l w Hw. etrans; [apply (elem_dequeued (WNode n) l w s)|]. tauto.
    + intros q Q HQ. simpl. rewrite lookup_insert. case_decide; [subst|by exists Q].
      simplify_eq. eexists. by split.
  - intros ->. split; try done. intros p P HP. by exists P.
Qed.

Lemma dec_post_frame n N s r s' : dec_post n N s r s' -> dec_frame n s s' /\ nodes s' = nodes s.
Proof.
  destruct r; intros H.
  - destruct H as (_ & _ & H). split; [by eapply unlinked_frame|]. unfold unlinked in H.
    destruct (node_proc N); [destruct H as (P & _ & ->)|subst s']; done.
  - destruct H as (H & _). split; [by eapply told_frame|]. destruct H as [->|(p & _ & _ & W)]; [done|].
    by rewrite (wk_nodes _ _ W).
Qed.

Lemma inv_settle xr n s : inv_ xr None (Some n) s ->
  (forall N, nodes s !! n = Some N -> held N \/ exists l, WNode n ∈ queue l s) -> inv_ xr None None s.
Proof.
  intros [G C Q D] H. split; try done. destruct Q. split; try done.
  intros m M HM Hx _. destruct (decide (m = n)) as [->|Hne]; [by apply H|].
  apply (q_held0 m M HM Hx). congruence.
Qed.

Lemma inv_loosen xr xn n s : inv_ xr xn None s -> inv_ xr xn (Some n) s.
Proof.
  intros [G C Q D]. split; try done. destruct Q. split; try done.
  intros m M HM Hx _. by apply (q_held0 m M HM Hx).
Qed.

Lemma internal_held s n N : node_counts s n N -> internal_strong_refs N <> 0 -> held N.
Proof.
  intros H Hi. left. intros E. apply Hi. by rewrite (nc_internal _ _ _ H), E.
Qed.

Lemma inv_dec_post xr n N s r s' : inv_ xr None (Some n) s -> nodes s !! n = Some N -> dec_post n N s r s' ->
  inv_ xr (if r : bool then Some n else None) None s'.
Proof.
  intros I HN Hp. pose proof (c_node _ (i_counted _ _ _ _ I) n N HN) as Hc. destruct r.
  - destruct Hp as (Hh & _ & Hu). by eapply inv_unlink.
  - destruct Hp as (Ht & Hwhy).
    assert (Hwhy' : held N \/ exists l, WNode n ∈ queue l s').
    { destruct Hwhy as [?|[?|?]]; [by left|left; by eapply internal_held|by right]. }
    destruct Ht as [->|(p & Hpr & Hno & W)].
    + apply (inv_settle _ n); [done|]. intros M HM. by simplify_eq.
    + eapply inv_alike; [|by apply woke_alike].
      eapply inv_enqueue_node; [exact I|exact HN|done|by right|exact Hpr|done|done].
Qed.

Lemma owner_ok_inv xr lo s n N : inv_ xr None lo s -> nodes s !! n = Some N -> owner_ok n N s.
Proof.
  intros I HN. unfold owner_ok. destruct (node_proc N) as [p|] eqn:E.
  - by apply (g_proc _ _ _ (i_graph _ _ _ _ I) n N p).
  - intros l Hl. destruct (q_node _ _ _ (i_queued _ _ _ _ I) n l Hl) as (_ & M & q & HM & Hq & _). congruence.
Qed.

(** [binder_dec_node_nilocked] when the invariant holds once the counter has
    gone down. *)
Lemma dec_node_inv xr n N strong_ internal s : nodes s !! n = Some N ->
  let s1 := set_nodes (<[n := dropped strong_ internal N]> (nodes s)) s in
  inv_ xr None (Some n) s1 ->
  exists r s', binder_dec_node_nilocked n strong_ internal s = Some (r, s') /\
    inv_ xr (if r : bool then Some n else None) None s' /\ dec_frame n s s' /\
    nodes s' !! n = Some (dropped strong_ internal N) /\
    (r = true -> ~ held (dropped strong_ internal N)).
Proof.
  intros HN s1 I. destruct (dropped_same strong_ internal N) as (Ep & _ & _).
  assert (HN1 : nodes s1 !! n = Some (dropped strong_ internal N)) by (simpl; by rewrite lookup_insert_eq).
  pose proof (owner_ok_inv _ _ _ _ _ I HN1) as Ho.
  destruct (dec_node_ok n N strong_ internal s HN) as (r & s' & E & Hp).
  - apply (g_threads _ _ _ (i_graph _ _ _ _ I)).
  - unfold owner_ok in *. by rewrite <- Ep.
  - exists r, s'. split; [done|]. destruct (dec_post_frame _ _ _ _ _ Hp) as [F En].
    split; [by eapply inv_dec_post|]. split; [|split; [by rewrite En|intros ->; apply Hp]].
    destruct F. split; try done. intros m Hm. rewrite df_nodes0 by done. simpl. by rewrite lookup_insert_ne.
Qed.

(** [binder_free_node] of the node just unlinked. *)
Lemma free_node_inv xr n s : inv_ xr (Some n) None s ->
  exists s', binder_free_node n s = Some (tt, s') /\ inv_ xr None None s' /\
    s' = set_stats (obj_created s) (bump BINDER_STAT_NODE (obj_deleted s)) (set_nodes (delete n (nodes s)) s).
Proof.
  intros I. destruct (g_free _ _ _ (i_graph _ _ _ _ I)) as (N & HN & _).
  eexists. split; [|split; [|reflexivity]].
  - unfold binder_free_node. erewrite bind_eq by (by apply node_at_eq). reflexivity.
  - eapply inv_alike; [by apply inv_free_node|]. by apply alike_same.
Qed.
End laws.
