(* ===== verification/BinderNodeOps.v ===== *)
(** * Binder nodes: every operation on a node keeps the invariant

    Looking a node up, creating one, dropping a temporary count, answering
    BR_INCREFS and BR_ACQUIRE, and delivering a node's work item. *)

From Stdlib Require Import ZArith Lia.
From stdpp Require Import base option gmap sets list.
From S2P Require Import Prelude RbTree BinderNode BinderNodeFacts BinderNodeInv.

(** No counter is about to pass INT_MAX. *)
Definition node_room (N : binder_node) : Prop :=
  internal_strong_refs N + 1 < two31 /\ local_strong_refs N + 1 < two31 /\ local_weak_refs N + 1 < two31 /\
  tmp_refs N + 1 < two31.
Definition room (s : binder) : Prop := forall n N, nodes s !! n = Some N -> node_room N.

Definition add_tmp (k : Z) (N : binder_node) : binder_node :=
  set_counts (internal_strong_refs N) (local_weak_refs N) (local_strong_refs N) (tmp_refs N + k) N.

(** [s'] has node [n] changed to [N'] and is otherwise as [s]. *)
Definition node_set (n : nat) (N' : binder_node) (s : binder) : binder := set_nodes (<[n := N']> (nodes s)) s.

Lemma node_set_lookup n N' s m : nodes (node_set n N' s) !! m = if decide (m = n) then Some N' else nodes s !! m.
Proof. simpl. rewrite lookup_insert. case_decide; case_decide; by subst. Qed.

Lemma node_set_set n A B s : node_set n B (node_set n A s) = node_set n B s.
Proof. unfold node_set. simpl. by rewrite insert_insert_eq. Qed.

Lemma node_set_same n N s : nodes s !! n = Some N -> node_set n N s = s.
Proof. intros H. unfold node_set. rewrite insert_id by done. by destruct s. Qed.

Lemma node_set_frame n N' s : dec_frame n s (node_set n N' s).
Proof. split; try done; [intros m Hm; simpl; by rewrite lookup_insert_ne|]. intros p P HP. by exists P. Qed.

Lemma dec_frame_trans n s1 s2 s3 : dec_frame n s1 s2 -> dec_frame n s2 s3 -> dec_frame n s1 s3.
Proof.
  intros [A1 A2 A3 A4 A5 A6 A7 A8 A9 A10] [B1 B2 B3 B4 B5 B6 B7 B8 B9 B10].
  split; try congruence.
  - intros m Hm. by rewrite B1, A1.
  - intros l w Hw. by rewrite B9, A9.
  - intros p P HP. destruct (A10 p P HP) as (P1 & HP1 & ? & ? & ?).
    destruct (B10 p P1 HP1) as (P2 & HP2 & ? & ? & ?). exists P2. split; [done|]. split_and!; congruence.
Qed.

(** The same after a node may have been freed: statistics of nodes aside. *)
Definition gone_or (n : nat) (N' : binder_node) (s : binder) : Prop :=
  nodes s !! n = Some N' \/ nodes s !! n = None /\ ~ held N'.

Section ops.
Context `{RB : Rbtree} {RBL : RbtreeLaws}.

Lemma counts_tmp s n N k : node_counts s n N -> 0 <= tmp_refs N + k < two31 -> node_counts s n (add_tmp k N).
Proof. intros [] ?. by split. Qed.

(** ** Temporary references *)

Lemma inc_tmpref_inv xr lo n N s : inv_ xr None lo s -> lo = None \/ lo = Some n ->
  nodes s !! n = Some N -> tmp_refs N + 1 < two31 ->
  binder_inc_node_tmpref n s = Some (tt, node_set n (add_tmp 1 N) s) /\ inv_ xr None None (node_set n (add_tmp 1 N) s).
Proof.
  intros I Hlo HN Ht. pose proof (c_node _ (i_counted _ _ _ _ I) n N HN) as C. pose proof (nc_tmp _ _ _ C). split.
  - unfold binder_inc_node_tmpref, binder_inc_node_tmpref_ilocked. erewrite upd_node_eq by exact HN.
    by rewrite s32_int by (unfold is_int; lia).
  - eapply inv_node_upd; [exact I|done..|apply counts_tmp; [done|lia]|].
    intros _. left. right; right; right. simpl. lia.
Qed.

(** Dropping one: the node stays with one less, or it was unheld and is gone. *)
Lemma put_node_inv xr n N s : inv_ xr None None s -> nodes s !! n = Some N -> 1 <= tmp_refs N ->
  exists s', binder_put_node n s = Some (tt, s') /\ inv_ xr None None s' /\ gone_or n (add_tmp (-1) N) s' /\
    (forall m, m <> n -> nodes s' !! m = nodes s !! m) /\ refs s' = refs s /\ deaths s' = deaths s /\
    threads s' = threads s /\ binder_context_mgr_node s' = binder_context_mgr_node s /\
    binder_warnings s' = binder_warnings s /\
    (forall l w, w <> WNode n -> w ∈ queue l s' <-> w ∈ queue l s) /\
    (forall p P, procs s !! p = Some P -> exists P', procs s' !! p = Some P' /\ proc_context P' = proc_context P).
Proof.
  intros I HN Ht. pose proof (c_node _ (i_counted _ _ _ _ I) n N HN) as C. pose proof (nc_tmp _ _ _ C) as Ht2.
  unfold binder_put_node, binder_dec_node_tmpref. erewrite bind_eq by by apply node_at_eq. cbv zeta.
  rewrite s32_int by (unfold is_int; lia). change (set_counts _ _ _ _ N) with (add_tmp (-1) N).
  set (s1 := node_set n (add_tmp (-1) N) s).
  erewrite bind_eq by reflexivity. fold (node_set n (add_tmp (-1) N) s). fold s1.
  destruct (Z.ltb_spec (tmp_refs N - 1) 0); [lia|]. erewrite bind_eq by reflexivity.
  assert (HN1 : nodes s1 !! n = Some (add_tmp (-1) N)) by (unfold s1; rewrite node_set_lookup; by rewrite decide_True).
  pose proof (node_set_same n _ s1 HN1) as Hs1. unfold node_set in Hs1.
  destruct (dec_node_inv xr n _ false true s1 HN1) as (b & s2 & E & I2 & F & HN2 & Hb).
  { cbn [dropped]. rewrite Hs1. eapply inv_node_upd; [exact I|done|done|by left|done..| |done]. apply counts_tmp; [done|lia]. }
  erewrite bind_eq by exact E. pose proof (dec_frame_trans _ _ _ _ (node_set_frame n _ s) F) as F2.
  destruct b.
  - destruct (free_node_inv xr n s2 I2) as (s3 & E3 & I3 & ->). eexists. split; [exact E3|]. split; [done|].
    split; [right; split; [by simpl; rewrite lookup_delete_eq|by apply Hb]|].
    split; [intros m Hm; simpl; rewrite lookup_delete_ne by done; by apply (df_nodes _ _ _ F2)|].
    split_and!; try apply F2. intros q Q HQ. destruct (df_proc _ _ _ F2 q Q HQ) as (Q' & ? & _ & _ & ?). by exists Q'.
  - exists s2. split; [done|]. split; [done|]. split; [by left|]. split; [apply F2|]. split_and!; try apply F2.
    intros q Q HQ. destruct (df_proc _ _ _ F2 q Q HQ) as (Q' & ? & _ & _ & ?). by exists Q'.
Qed.

(** ** Looking a node up *)

Lemma cmp_node_ptr_eq ptr s xr xn lo p P : inv_ xr xn lo s -> procs s !! p = Some P ->
  forall y, y ∈ rb_inorder (proc_nodes P) -> cmp_node_ptr ptr y s = Some (Z.compare ptr (nptr s y), s).
Proof.
  intros I HP y Hy. apply (g_nodes _ _ _ (i_graph _ _ _ _ I) p P HP) in Hy as (_ & N & HN & _).
  unfold cmp_node_ptr, nptr. erewrite bind_eq by by apply node_at_eq. by rewrite HN.
Qed.

(** [binder_get_node] finds the process's node at that address, and only it. *)
Lemma get_node_inv p P ptr s : inv s -> procs s !! p = Some P -> room s ->
  exists r s', binder_get_node p ptr s = Some (r, s') /\ inv s' /\
    match r with
    | Some n => exists N, nodes s !! n = Some N /\ node_proc N = Some p /\ node_ptr N = ptr /\
        s' = node_set n (add_tmp 1 N) s
    | None => s' = s /\ forall n N, nodes s !! n = Some N -> node_proc N = Some p -> node_ptr N <> ptr
    end.
Proof.
  intros I HP Hr. pose proof (g_nodes _ _ _ (i_graph _ _ _ _ I) p P HP) as [Hk Hin].
  unfold binder_get_node, binder_get_node_ilocked. erewrite bind_eq by by apply proc_at_eq.
  destruct (rb_find_spec (cmp_node_ptr ptr) (nptr s) ptr s (proc_nodes P) Hk) as (r & E & Hres);
    [by eapply cmp_node_ptr_eq|].
  erewrite bind_eq by exact E. destruct r as [n|].
  - destruct Hres as [Hn Hptr]. apply Hin in Hn as (_ & N & HN & Hp).
    unfold nptr in Hptr. rewrite HN in Hptr.
    destruct (inc_tmpref_inv None None n N s I) as [E1 I1]; [by left|done|by apply (Hr n N)|].
    erewrite bind_eq by exact E1. eexists (Some n), _. split; [reflexivity|]. split; [done|]. by exists N.
  - exists None, s. split; [done|]. split; [done|]. split; [done|]. intros n N HN Hp Hptr. apply (Hres n).
    + apply Hin. split; [done|by exists N].
    + unfold nptr. by rewrite HN.
Qed.

(** ** Creating a node *)

Definition fresh_node (id p : Z) (q : nat) (fp : option flat_binder_object) : binder_node :=
  let ptr := match fp with Some f => fbo_binder f | None => 0 end in
  let cookie := match fp with Some f => fbo_cookie f | None => 0 end in
  let flags := match fp with Some f => fbo_flags f | None => 0 end in
  Node id (Some q) [] 0 0 0 p ptr cookie false false false false false
    (negb (Z.land flags FLAT_BINDER_FLAG_ACCEPTS_FDS =? 0))
    (negb (Z.land flags FLAT_BINDER_FLAG_TXN_SECURITY_CTX =? 0)) (Z.land flags FLAT_BINDER_FLAG_PRIORITY_MASK).

(** A process gains a node. *)
Lemma inv_add_node p P t n N s : inv s -> procs s !! p = Some P -> nodes s !! n = None ->
  node_proc N = Some p -> node_refs N = [] -> internal_strong_refs N = 0 ->
  local_strong_refs N = 0 -> local_weak_refs N = 0 -> 1 <= tmp_refs N < two31 ->
  pending_strong_ref N = false -> pending_weak_ref N = false ->
  rb_keyed (fun m => if decide (m = n) then node_ptr N else nptr s m) t ->
  (forall m, m ∈ rb_inorder t <-> m = n \/ m ∈ rb_inorder (proc_nodes P)) ->
  inv (set_procs (<[p := set_proc_nodes t P]> (procs s)) (node_set n N s)).
Proof.
  intros [G C Q D] HP Hfree Hpr Hrefs Hi Hls Hlw Ht Hps Hpw Hk Hin. set (s' := set_procs _ _).
  assert (Hl : forall m M, nodes s' !! m = Some M <-> m = n /\ M = N \/ m <> n /\ nodes s !! m = Some M).
  { intros m M. unfold s'. cbn [nodes set_procs]. rewrite node_set_lookup. split.
    - intros HM. case_decide; simplify_eq; [by left|by right].
    - intros [[-> ->]|[Hne HM]]; [by rewrite decide_True|by rewrite decide_False]. }
  assert (Hkeep : forall m M, nodes s !! m = Some M -> nodes s' !! m = Some M).
  { intros m M HM. apply Hl. right. split; [congruence|done]. }
  assert (Hprocs : forall q Q', procs s' !! q = Some Q' -> q = p /\ Q' = set_proc_nodes t P \/ q <> p /\ procs s !! q = Some Q').
  { intros q Q'. simpl. rewrite lookup_insert. intros HQ. case_decide; simplify_eq; [by left|by right]. }
  assert (Hsome : forall q, is_Some (procs s !! q) -> is_Some (procs s' !! q)).
  { intros q [Q' HQ]. simpl. rewrite lookup_insert. case_decide; by eexists. }
  assert (Hptr : forall m, nptr s' m = if decide (m = n) then node_ptr N else nptr s m).
  { intros m. unfold nptr, s'. cbn [nodes set_procs]. rewrite node_set_lookup. by case_decide. }
  split.
  - destruct G. split; try done.
    + intros q Q' HQ. destruct (Hprocs q Q' HQ) as [[-> ->]|[Hne HQ0]].
      * split; [by eapply rb_keyed_ext; [intros; apply Hptr|]|].
        intros m. simpl. rewrite Hin. destruct (g_nodes p P HP) as [_ Hm]. rewrite Hm. split.
        -- intros [->|(_ & M & HM & HMp)]; (split; [done|]); [exists N; split; [by apply Hl; left|done]|].
           exists M. split; [by apply Hkeep|done].
        -- intros (_ & M & HM & HMp). apply Hl in HM as [[-> ->]|[_ HM]]; [by left|right].
           split; [done|by exists M].
      * eapply holds_set_ext; [by apply g_nodes| |].
        -- intros m. split; intros (_ & M & HM & HMp); (split; [done|]).
           ++ exists M. split; [by apply Hkeep|done].
           ++ exists M. apply Hl in HM as [[-> ->]|[_ HM]]; [congruence|done].
        -- intros m (_ & M & HM & _). rewrite Hptr. case_decide; [congruence|done].
    + intros q Q' HQ. destruct (Hprocs q Q' HQ) as [[-> ->]|[_ HQ0]]; [exact (g_desc _ _ HP)|exact (g_desc _ _ HQ0)].
    + intros q Q' HQ. destruct (Hprocs q Q' HQ) as [[-> ->]|[_ HQ0]]; [exact (g_byno _ _ HP)|exact (g_byno _ _ HQ0)].
    + intros r R HR Hx. destruct (g_ref r R HR Hx) as (? & m & M & Hm & HM & ?). split; [by apply Hsome|].
      exists m, M. split; [done|]. split; [by apply Hkeep|done].
    + intros m M [[-> ->]|[_ HM]]%Hl; [|by apply g_refs]. rewrite Hrefs. split; [constructor|].
      by intros r ?%not_elem_of_nil.
    + intros m M q [[-> ->]|[_ HM]]%Hl Hq; [|by eapply Hsome, g_proc]. simplify_eq. apply Hsome. by eexists.
    + destruct g_dead as [? Hd]. split; [done|]. intros m. etrans; [apply Hd|].
      split; intros (_ & M & HM & HMp); (split; [done|]).
      * exists M. split; [by apply Hkeep|done].
      * exists M. apply Hl in HM as [[-> ->]|[_ HM]]; [congruence|done].
    + destruct g_threads as [T1 T2]. split; [|intros u U HU; by eapply Hsome, T2].
      intros q Q' u HQ. destruct (Hprocs q Q' HQ) as [[-> ->]|[_ HQ0]]; [by apply (T1 p P)|by apply (T1 q Q')].
    + intros c m Hc. destruct (g_mgr c m Hc) as (_ & M & q & Q0 & HM & Hq & HQ & Hctx). split; [done|].
      exists M, q. unfold s' at 2. cbn [procs set_procs]. rewrite lookup_insert. case_decide as Hqp.
      * subst q. eexists. split; [by apply Hkeep|]. split; [done|]. split; [reflexivity|]. simpl. congruence.
      * exists Q0. split; [by apply Hkeep|done].
  - destruct C. split; [done|]. intros m M [[-> ->]|[_ HM]]%Hl; [|by destruct (c_node m M HM)].
    split; rewrite ?Hi, ?Hrefs, ?Hls, ?Hlw, ?Hps, ?Hpw; unfold owed, b2z, two31 in *; rewrite ?Hpr; try (done || lia).
    intros [c Hc]. destruct (g_mgr _ _ _ G c n Hc) as (_ & M & _ & _ & HM & _). congruence.
  - destruct Q. split; try done.
    + intros m l Hm. destruct (q_node m l Hm) as (_ & M & q & HM & ?). split; [done|].
      exists M, q. split; [by apply Hkeep|done].
    + intros m M [[-> ->]|[_ HM]]%Hl _ _; [|by apply (q_held m M HM)]. left. right; right; right. lia.
  - destruct D. split; try done. intros r R d HR Hd. destruct (d_ref r R d HR Hd) as (D & HD & H).
    exists D. split; [done|]. intros Hx l Hq. destruct (H Hx l Hq) as (? & m & M & Hm & HM & ?).
    split; [done|]. exists m, M. split; [done|]. split; [by apply Hkeep|done].
Qed.

(** [binder_new_node]: the process's node at that address if it has one, else
    the new one; either way with a temporary count for the caller. *)
Lemma new_node_inv p P n fp s : inv s -> procs s !! p = Some P -> room s -> nodes s !! n = None ->
  let ptr := match fp with Some f => fbo_binder f | None => 0 end in
  exists m M s', binder_new_node p (Some n) fp s = Some (Some m, s') /\ inv s' /\ nodes s' !! m = Some M /\
    node_proc M = Some p /\ node_ptr M = ptr /\ 1 <= tmp_refs M /\
    local_strong_refs M + 1 < two31 /\ local_weak_refs M + 1 < two31 /\
    (forall q, q <> p -> procs s' !! q = procs s !! q) /\
    (exists P', procs s' !! p = Some P' /\ proc_context P' = proc_context P /\ refs_by_desc P' = refs_by_desc P) /\
    binder_context_mgr_node s' = binder_context_mgr_node s /\ refs s' = refs s /\ threads s' = threads s /\
    internal_strong_refs M + 1 < two31 /\ (forall k, k <> m -> nodes s' !! k = nodes s !! k) /\
    (m <> n -> s' = node_set m M s /\ exists M0, nodes s !! m = Some M0 /\ M = add_tmp 1 M0) /\
    (m = n -> forall k K, nodes s !! k = Some K -> node_proc K = Some p -> node_ptr K <> ptr).
Proof.
  intros I HP Hr Hn ptr. pose proof (g_nodes _ _ _ (i_graph _ _ _ _ I) p P HP) as [Hk Hin].
  unfold binder_new_node, binder_init_node_ilocked. cbv beta iota zeta. fold ptr.
  assert (Hlink : exists r, rb_link (cmp_node_ptr ptr) n (proc_nodes P) s = Some (r, s) /\
    match r with
    | inl y => y ∈ rb_inorder (proc_nodes P) /\ nptr s y = ptr
    | inr t' => exists l1 l2, rb_inorder (proc_nodes P) = l1 ++ l2 /\ rb_inorder t' = l1 ++ n :: l2 /\
        (forall y, y ∈ l1 -> nptr s y < ptr) /\ (forall y, y ∈ l2 -> ptr < nptr s y)
    end) by (apply rb_link_spec; [done|by eapply cmp_node_ptr_eq]).
  destruct Hlink as (r & E & Hres). destruct r as [m|t].
  - destruct Hres as [(_ & M & HM & HMp)%Hin Hptr]. unfold nptr in Hptr. rewrite HM in Hptr.
    destruct (Hr m M HM) as (? & ? & ? & ?). destruct (inc_tmpref_inv None None m M s I) as [E1 I1]; [by left|done..|].
    exists m, (add_tmp 1 M), (node_set m (add_tmp 1 M) s). split.
    { erewrite (bind_eq (bind _ _)); [reflexivity|]. erewrite bind_eq by by apply proc_at_eq.
      erewrite bind_eq by exact E. cbv beta iota. by erewrite bind_eq by exact E1. }
    pose proof (nc_tmp _ _ _ (c_node _ (i_counted _ _ _ _ I) m M HM)).
    split; [done|]. split; [rewrite node_set_lookup; by rewrite decide_True|].
    split_and!; try done; [simpl; lia|by exists P| |split; [done|by exists M]|congruence].
    intros k Hk'. rewrite node_set_lookup. by rewrite decide_False.
  - destruct Hres as (l1 & l2 & E1 & E2 & Hl1 & Hl2). set (id := s32 (binder_last_id s + 1)).
    set (N := fresh_node id 1 p fp). set (s' := set_last_id id (set_stats (bump BINDER_STAT_NODE (obj_created s))
      (obj_deleted s) (set_procs (<[p := set_proc_nodes (rb_insert_color n t) P]> (procs s)) (node_set n N s)))).
    assert (Hnin : (n ∉ l1) /\ (n ∉ l2)).
    { split; intros H; assert (Hx : n ∈ rb_inorder (proc_nodes P)) by (rewrite E1; apply elem_of_app; tauto);
        apply Hin in Hx as (_ & M & HM & _); congruence. }
    exists n, N, s'. split.
    { erewrite (bind_eq (bind _ _)); [reflexivity|]. erewrite bind_eq by by apply proc_at_eq.
      by erewrite bind_eq by exact E. }
    split.
    + eapply inv_alike; [|by apply (alike_same (set_procs (<[p := set_proc_nodes (rb_insert_color n t) P]> (procs s))
        (node_set n N s)))].
      apply (inv_add_node p P); try done.
      * eapply (rb_keyed_link _ n (proc_nodes P) _ l1 l2); [|exact E1|by rewrite rb_insert_color_inorder| |].
        -- eapply rb_keyed_ext; [|exact Hk]. intros x Hx. simpl. case_decide; [subst x|done].
           apply Hin in Hx as (_ & M & HM & _). congruence.
        -- intros y Hy. simpl. rewrite (decide_True (P := n = n)), decide_False by (done || (intros ->; by destruct Hnin)). by apply Hl1.
        -- intros y Hy. simpl. rewrite (decide_True (P := n = n)), decide_False by (done || (intros ->; by destruct Hnin)). by apply Hl2.
      * intros m. rewrite rb_insert_color_inorder, E1, E2, !elem_of_app, elem_of_cons. tauto.
    + split; [unfold s'; cbn [nodes set_last_id set_stats set_procs]; rewrite node_set_lookup; by rewrite decide_True|].
      split_and!; try done.
      * intros q Hq. unfold s'. simpl. by rewrite lookup_insert_ne.
      * eexists. unfold s'. simpl. rewrite lookup_insert_eq. by split_and!.
      * intros k Hk'. unfold s'. cbn [nodes set_last_id set_stats set_procs]. rewrite node_set_lookup. by rewrite decide_False.
      * intros _ k K HK Hp. intros Hptr. assert (Hx : k ∈ l1 \/ k ∈ l2).
        { apply elem_of_app. rewrite <- E1. apply Hin. split; [done|by exists K]. }
        unfold nptr in Hl1, Hl2. destruct Hx as [Hx|Hx]; [specialize (Hl1 k Hx)|specialize (Hl2 k Hx)];
          rewrite HK in *; lia.
Qed.

(** ** Answers of the owner *)

(** A node after BC_INCREFS_DONE or BC_ACQUIRE_DONE. *)
Definition answered (strong_ : bool) (N : binder_node) : binder_node :=
  if strong_
  then set_flags (has_strong_ref N) false (has_weak_ref N) (pending_weak_ref N)
         (set_counts (internal_strong_refs N) (local_weak_refs N) (local_strong_refs N - 1) (tmp_refs N) N)
  else set_flags (has_strong_ref N) (pending_strong_ref N) (has_weak_ref N) false
         (set_counts (internal_strong_refs N) (local_weak_refs N - 1) (local_strong_refs N) (tmp_refs N) N).

Definition pending (strong_ : bool) (N : binder_node) : bool :=
  if strong_ then pending_strong_ref N else pending_weak_ref N.

Lemma counts_answered s n N strong_ : node_counts s n N -> pending strong_ N = true -> node_proc N <> None ->
  node_counts s n (answered strong_ N).
Proof.
  intros [] Hp Hown. destruct (node_proc N) as [p|] eqn:E; [|done].
  destruct strong_; simpl in Hp; rewrite Hp in *; unfold owed, b2z in *; split; unfold owed, b2z; simpl; rewrite ?E in *;
    try done; try lia; intros Hm; specialize (nc_mgr Hm); simpl in *; destruct nc_mgr as (? & ? & ? & ?); split_and!; done || lia.
Qed.

(** The drop of the count BR_ACQUIRE or BR_INCREFS took, while the caller
    holds the node. *)
Lemma answer_inv n N strong_ s : inv s -> nodes s !! n = Some N -> 1 <= tmp_refs N -> pending strong_ N = true ->
  node_proc N <> None ->
  exists s', binder_dec_node_nilocked n strong_ false (node_set n (if strong_
      then set_flags (has_strong_ref N) false (has_weak_ref N) (pending_weak_ref N) N
      else set_flags (has_strong_ref N) (pending_strong_ref N) (has_weak_ref N) false N) s) = Some (false, s') /\
    inv s' /\ dec_frame n s s' /\ nodes s' !! n = Some (answered strong_ N).
Proof.
  intros I HN Ht Hp Hown. pose proof (c_node _ (i_counted _ _ _ _ I) n N HN) as C.
  pose proof (counts_answered s n N strong_ C Hp Hown) as C'. set (N1 := if strong_ then _ else _).
  assert (HN1 : nodes (node_set n N1 s) !! n = Some N1) by (rewrite node_set_lookup; by rewrite decide_True).
  assert (Ed : dropped strong_ false N1 = answered strong_ N).
  { pose proof (owed_range N (pending_strong_ref N)). pose proof (owed_range N (pending_weak_ref N)).
    destruct C, strong_; simpl in Hp |- *; unfold answered; rewrite Hp in *; simpl in *;
      rewrite s32_int by (unfold is_int, two31 in *; lia); done. }
  destruct (dec_node_inv None n N1 strong_ false _ HN1) as (b & s' & E & I' & F & HN' & Hb).
  { rewrite Ed. fold (node_set n (answered strong_ N) (node_set n N1 s)). rewrite node_set_set.
    eapply (inv_node_upd _ _ None _ n N); [done|done|done|by left|by destruct strong_..|done|].
    intros _. left. right; right; right. destruct strong_; simpl; lia. }
  rewrite Ed in HN', Hb. destruct b.
  { exfalso. apply (Hb eq_refl). right; right; right. destruct strong_; simpl; lia. }
  exists s'. split; [done|]. split; [done|]. split; [|done]. eapply dec_frame_trans; [apply node_set_frame|done].
Qed.

(** BC_INCREFS_DONE and BC_ACQUIRE_DONE: nothing but a node of the caller, at
    that address, with that cookie and with the answer outstanding, changes;
    its count goes back and no [WARN] fires. *)
Lemma refs_done_inv p P strong_ ptr cookie s : inv s -> procs s !! p = Some P -> room s ->
  exists s', bc_refs_done p strong_ ptr cookie s = Some (tt, s') /\ inv s' /\
    binder_warnings s' = binder_warnings s /\ refs s' = refs s /\ deaths s' = deaths s /\
    ((exists n N, nodes s !! n = Some N /\ node_proc N = Some p /\ node_ptr N = ptr /\
        (forall m, m <> n -> nodes s' !! m = nodes s !! m) /\
        if (cookie =? node_cookie N) && pending strong_ N then gone_or n (answered strong_ N) s' else gone_or n N s') \/
     s' = s /\ forall n N, nodes s !! n = Some N -> node_proc N = Some p -> node_ptr N <> ptr).
Proof.
  intros I HP Hr. unfold bc_refs_done.
  destruct (get_node_inv p P ptr s I HP Hr) as (r & s1 & E1 & I1 & Hres). erewrite bind_eq by exact E1.
  destruct r as [n|]; [|destruct Hres as [-> Hres]; exists s; split; [done|split; [done|]]; split_and!; try done; by right].
  destruct Hres as (N & HN & Hp & Hptr & ->). set (N1 := add_tmp 1 N) in *. set (s1 := node_set n N1 s) in *.
  pose proof (nc_tmp _ _ _ (c_node _ (i_counted _ _ _ _ I) n N HN)) as Htmp.
  assert (HN1 : nodes s1 !! n = Some N1) by (unfold s1; rewrite node_set_lookup; by rewrite decide_True).
  assert (Hback : add_tmp (-1) N1 = N).
  { unfold N1, add_tmp. destruct N. unfold set_counts. simpl. f_equal. lia. }
  assert (Hoth : forall m, m <> n -> nodes s1 !! m = nodes s !! m).
  { intros m Hm. unfold s1. rewrite node_set_lookup. by rewrite decide_False. }
  erewrite bind_eq by by apply node_at_eq.
  change (node_cookie N1) with (node_cookie N). 
  change (if strong_ then pending_strong_ref N1 else pending_weak_ref N1) with (pending strong_ N).
  destruct (cookie =? node_cookie N) eqn:Hck; cbn [negb andb].
  2:{ destruct (put_node_inv None n N1 s1 I1 HN1) as (s2 & E2 & I2 & G2 & O2 & R2 & D2 & _ & _ & W2 & _); [simpl; lia|].
      rewrite Hback in G2. exists s2. split; [done|]. split; [done|]. split_and!; try done. left. exists n, N.
      rewrite ?Hck, ?Hpend. split_and!; try done. intros m Hm. by rewrite O2, Hoth. }
  destruct (pending strong_ N) eqn:Hpend; cbn [negb].
  2:{ destruct (put_node_inv None n N1 s1 I1 HN1) as (s2 & E2 & I2 & G2 & O2 & R2 & D2 & _ & _ & W2 & _); [simpl; lia|].
      rewrite Hback in G2. exists s2. split; [done|]. split; [done|]. split_and!; try done. left. exists n, N.
      rewrite ?Hck, ?Hpend. split_and!; try done. intros m Hm. by rewrite O2, Hoth. }
  erewrite bind_eq by reflexivity.
  destruct (answer_inv n N1 strong_ s1 I1 HN1) as (s2 & E2 & I2 & F2 & HN2);
    [simpl; lia|by destruct strong_|simpl; congruence|].
  erewrite bind_eq by exact E2. erewrite bind_eq by reflexivity.
  destruct (put_node_inv None n _ s2 I2 HN2) as (s3 & E3 & I3 & G3 & O3 & R3 & D3 & _ & _ & W3 & _);
    [destruct strong_; simpl; lia|].
  exists s3. split; [done|]. split; [done|].
  split; [rewrite W3; apply F2|]. split; [rewrite R3; apply F2|]. split; [rewrite D3; apply F2|].
  left. exists n, N. rewrite Hck, Hpend. split_and!; try done.
  - intros m Hm. by rewrite O3, (df_nodes _ _ _ F2), Hoth.
  - replace (answered strong_ N) with (add_tmp (-1) (answered strong_ N1)); [done|].
    rewrite <- Hback. by destruct strong_.
Qed.

(** ** Delivering a node's work item *)

Definition wants_strong (N : binder_node) : bool :=
  negb (internal_strong_refs N =? 0) || negb (local_strong_refs N =? 0).
Definition wants_weak (N : binder_node) : bool :=
  negb (bool_decide (node_refs N = [])) || negb (local_weak_refs N =? 0) || negb (tmp_refs N =? 0) || wants_strong N.

(** What the owner is told: the commands, in the order they are written. *)
Definition owner_cmds (N : binder_node) : list (bool * br_node) :=
  [(wants_weak N && negb (has_weak_ref N), BR_INCREFS); (wants_strong N && negb (has_strong_ref N), BR_ACQUIRE);
   (negb (wants_strong N) && has_strong_ref N, BR_RELEASE); (negb (wants_weak N) && has_weak_ref N, BR_DECREFS)].

(** The node once its owner has been told. *)
Definition synced (N : binder_node) : binder_node :=
  let new_strong := wants_strong N && negb (has_strong_ref N) in
  let new_weak := wants_weak N && negb (has_weak_ref N) in
  set_flags (wants_strong N) (pending_strong_ref N || new_strong) (wants_weak N) (pending_weak_ref N || new_weak)
    (set_counts (internal_strong_refs N) (local_weak_refs N + b2z new_weak) (local_strong_refs N + b2z new_strong)
       (tmp_refs N) N).

Lemma wants_weak_held s n N : node_counts s n N -> wants_weak N = true <-> held N.
Proof.
  intros C. pose proof (internal_held _ _ _ C) as Hi. unfold wants_weak, wants_strong, held in *.
  rewrite !orb_true_iff, !negb_true_iff, !Z.eqb_neq, bool_decide_eq_false. tauto.
Qed.

Lemma owed_or N a b : owed N (a || b) <= owed N a + b2z b.
Proof. unfold owed, b2z. destruct (node_proc N), a, b; simpl; lia. Qed.

Lemma wants_strong_count s n N : node_counts s n N -> 1 <= local_strong_refs N -> wants_strong N = true /\ wants_weak N = true.
Proof.
  intros _ H. assert (Hs : wants_strong N = true).
  { unfold wants_strong. apply orb_true_iff. right. apply negb_true_iff, Z.eqb_neq. lia. }
  split; [done|]. unfold wants_weak. by rewrite Hs, !orb_true_r.
Qed.

Lemma counts_synced s n N : node_counts s n N -> node_room N -> node_counts s n (synced N).
Proof.
  intros C (? & ? & ? & ?). pose proof (wants_strong_count s n N C) as Hw. destruct C.
  set (ns := wants_strong N && negb (has_strong_ref N)). set (nw := wants_weak N && negb (has_weak_ref N)).
  pose proof (owed_or N (pending_strong_ref N) ns). pose proof (owed_or N (pending_weak_ref N) nw).
  assert (0 <= b2z ns <= 1 /\ 0 <= b2z nw <= 1) by (unfold b2z; destruct ns, nw; lia).
  split; try done; [split; [|simpl; fold ns; lia]|split; [|simpl; fold nw; lia]|].
  - change (owed N (pending_strong_ref N || ns) <= local_strong_refs N + b2z ns). lia.
  - change (owed N (pending_weak_ref N || nw) <= local_weak_refs N + b2z nw). lia.
  - intros Hm. specialize (nc_mgr Hm). pose proof (owed_range N (pending_strong_ref N)).
    destruct (Hw ltac:(lia)) as [E1 E2]. split_and!; try done.
    + change (owed N (pending_strong_ref N || ns) + 1 <= local_strong_refs N + b2z ns). lia.
    + change (owed N (pending_weak_ref N || nw) + 1 <= local_weak_refs N + b2z nw). lia.
Qed.

Lemma held_synced N : held N -> 0 <= local_strong_refs N -> 0 <= local_weak_refs N -> held (synced N).
Proof.
  unfold held, synced, b2z. simpl. intros [?|[?|[?|?]]] ? ?; [by left|right; left|right; right; left|by right; right; right];
    [destruct (wants_strong N && negb (has_strong_ref N))|destruct (wants_weak N && negb (has_weak_ref N))]; lia.
Qed.

(** A node's state once [binder_thread_read] has brought it up to date. *)
Lemma synced_eq N : node_room N -> 0 <= local_strong_refs N -> 0 <= local_weak_refs N ->
  let strong_ := wants_strong N in let weak_ := wants_weak N in
  let N1 := if weak_ && negb (has_weak_ref N)
    then set_flags (has_strong_ref N) (pending_strong_ref N) true true
           (set_counts (internal_strong_refs N) (s32 (local_weak_refs N + 1)) (local_strong_refs N) (tmp_refs N) N)
    else N in
  let N2 := if strong_ && negb (has_strong_ref N)
    then set_flags true true (has_weak_ref N1) (pending_weak_ref N1)
           (set_counts (internal_strong_refs N1) (local_weak_refs N1) (s32 (local_strong_refs N1 + 1)) (tmp_refs N1) N1)
    else N1 in
  let N3 := if negb strong_ && has_strong_ref N
    then set_flags false (pending_strong_ref N2) (has_weak_ref N2) (pending_weak_ref N2) N2 else N2 in
  (if negb weak_ && has_weak_ref N
    then set_flags (has_strong_ref N3) (pending_strong_ref N3) false (pending_weak_ref N3) N3 else N3) = synced N.
Proof.
  intros (? & ? & ? & ?) ? ?. unfold synced. cbv zeta. destruct N as [? ? ? i lw ls t ? ? hs ps hw pw ? ? ? ?].
  set (M := Node _ _ _ i lw ls t _ _ hs ps hw pw _ _ _ _) in *.
  destruct (wants_strong M), (wants_weak M), hs, ps, hw, pw; simpl in *;
    rewrite ?s32_int by (unfold is_int, two31 in *; lia); unfold set_flags, set_counts; simpl; f_equal; lia.
Qed.

(** The owner is told of every change; a node nobody wants is freed. *)
Lemma read_node_inv p n N put_user s : inv_ None None (Some n) s -> (forall l, WNode n ∉ queue l s) ->
  nodes s !! n = Some N -> node_proc N = Some p -> node_room N ->
  exists s', read_work_node p n put_user s = Some (put_node_cmds put_user (owner_cmds N), s') /\ inv s' /\
    (forall m, m <> n -> nodes s' !! m = nodes s !! m) /\
    nodes s' !! n = (if wants_weak N then Some (synced N) else None) /\
    refs s' = refs s /\ deaths s' = deaths s /\ binder_warnings s' = binder_warnings s.
Proof.
  intros I Hq HN Hp Hr. pose proof (c_node _ (i_counted _ _ _ _ I) n N HN) as C.
  pose proof (nc_strong _ _ _ C). pose proof (nc_weak _ _ _ C).
  assert (0 <= local_strong_refs N /\ 0 <= local_weak_refs N) as [Hls Hlw].
  { pose proof (owed_range N (pending_strong_ref N)). pose proof (owed_range N (pending_weak_ref N)). lia. }
  unfold read_work_node. erewrite bind_eq by by apply node_at_eq.
  rewrite bool_decide_eq_false_2 by tauto. erewrite bind_eq by reflexivity.
  change (negb (internal_strong_refs N =? 0) || negb (local_strong_refs N =? 0)) with (wants_strong N).
  change (negb (bool_decide (node_refs N = [])) || negb (local_weak_refs N =? 0) || negb (tmp_refs N =? 0)
    || wants_strong N) with (wants_weak N).
  cbv zeta. pose proof (synced_eq N Hr Hls Hlw) as Es. cbv zeta in Es. rewrite Es. clear Es.
  erewrite bind_eq by reflexivity. fold (node_set n (synced N) s). set (s1 := node_set n (synced N) s).
  assert (HN1 : nodes s1 !! n = Some (synced N)) by (unfold s1; rewrite node_set_lookup; by rewrite decide_True).
  assert (Hsw : wants_strong N = true -> wants_weak N = true).
  { intros E. unfold wants_weak. by rewrite E, !orb_true_r. }
  assert (I1 : inv_ None None (if wants_weak N then None else Some n) s1).
  { eapply (inv_node_upd _ _ (Some n) _ n N); [done|done|done|by right|done..|by apply counts_synced|].
    destruct (wants_weak N) eqn:Hw; [|done]. intros _. left. apply held_synced; [|done..].
    by apply (wants_weak_held s n N C). }
  destruct (wants_weak N) eqn:Hw; cbn [negb andb].
  - erewrite bind_eq by reflexivity. exists s1. split; [unfold owner_cmds; by rewrite Hw|]. split; [done|].
    split_and!; try done. intros m Hm. unfold s1. rewrite node_set_lookup. by rewrite decide_False.
  - destruct (wants_strong N) eqn:Hs; [by specialize (Hsw eq_refl)|]. cbn [negb andb].
    destruct (g_proc _ _ _ (i_graph _ _ _ _ I1) n _ p HN1 Hp) as [P HP].
    assert (Hno : ~ held (synced N)).
    { assert (H2 : ~ held N) by (rewrite <- (wants_weak_held s n N C); congruence).
      intros Hh. apply H2. unfold held, synced in *. rewrite Hw, Hs in Hh. simpl in Hh. by rewrite !Z.add_0_r in Hh. }
    pose proof (inv_unlink None n (synced N) s1 (set_procs (<[p := set_proc_nodes (rb_erase n (proc_nodes P)) P]>
      (procs s1)) (dequeued (WNode n) s1)) I1 HN1 Hno) as I2.
    assert (Hu : unlinked n (synced N) s1 (set_procs (<[p := set_proc_nodes (rb_erase n (proc_nodes P)) P]> (procs s1))
      (dequeued (WNode n) s1))).
    { unfold unlinked. change (node_proc (synced N)) with (node_proc N). rewrite Hp. by exists P. }
    specialize (I2 Hu). set (s2 := set_procs (<[p := set_proc_nodes (rb_erase n (proc_nodes P)) P]> (procs s1)) s1).
    assert (I3 : inv_ None (Some n) None s2).
    { eapply inv_alike; [exact I2|]. split; try done.
      - intros l. unfold s2. change (queue l s1 = queue l (dequeued (WNode n) s1)). rewrite queue_dequeued. symmetry.
        exact (list_del_notin _ _ (Hq l)).
      - intros q Q HQ. exists Q. split; [done|apply same_proc_refl].
      - intros q Q HQ. exists Q. split; [done|apply same_proc_refl]. }
    destruct (free_node_inv None n s2 I3) as (s3 & E3 & I4 & ->).
    erewrite (bind_eq (bind _ _)).
    2:{ erewrite bind_eq by by apply proc_at_eq. erewrite bind_eq by reflexivity. exact E3. }
    eexists. split; [unfold owner_cmds; by rewrite Hw, Hs|]. split; [done|].
    split_and!; try done; simpl; [|by rewrite lookup_delete_eq].
    intros m Hm. by rewrite lookup_delete_ne, lookup_insert_ne.
Qed.

(** ** The context manager *)

Lemma inv_set_mgr c n N p P s : inv s -> nodes s !! n = Some N -> node_proc N = Some p -> procs s !! p = Some P ->
  proc_context P = c -> owed N (pending_strong_ref N) + 1 <= local_strong_refs N ->
  owed N (pending_weak_ref N) + 1 <= local_weak_refs N -> has_strong_ref N = true -> has_weak_ref N = true ->
  inv (set_mgr (<[c := n]> (binder_context_mgr_node s)) s).
Proof.
  intros [G C Q D] HN Hp HP Hc Hs Hw Hfs Hfw. split; [| |by destruct Q|by destruct D].
  - destruct G. split; try done. intros c' m. simpl. rewrite lookup_insert. intros Hm. case_decide.
    + simplify_eq. split; [done|]. by exists N, p, P.
    + by apply g_mgr.
  - destruct C. split; [done|]. intros m M HM. simpl in HM. destruct (c_node m M HM). split; try done.
    intros [c' Hm]. simpl in Hm. rewrite lookup_insert in Hm. case_decide; simplify_eq; [done|].
    apply nc_mgr. by exists c'.
Qed.

(** The uid that may manage a context from now on. *)
Definition mgr_uid_fixed (c : nat) (euid : Z) (s : binder) : binder :=
  match binder_context_mgr_uid s !! c with
  | Some _ => s
  | None => set_mgr_uid (<[c := euid]> (binder_context_mgr_uid s)) s
  end.

Lemma check_mgr_uid_eq c euid s : check_mgr_uid c euid s =
  Some (match binder_context_mgr_uid s !! c with Some uid => uid =? euid | None => true end, mgr_uid_fixed c euid s).
Proof.
  unfold check_mgr_uid, mgr_uid_fixed. erewrite bind_eq by reflexivity. by destruct (binder_context_mgr_uid s !! c).
Qed.

Lemma mgr_uid_fixed_same c euid s : let s' := mgr_uid_fixed c euid s in
  alike s s' /\ nodes s' = nodes s /\ procs s' = procs s /\ binder_context_mgr_node s' = binder_context_mgr_node s.
Proof.
  unfold mgr_uid_fixed. simpl. destruct (binder_context_mgr_uid s !! c); (split; [by apply alike_same|done]).
Qed.

(** What BINDER_SET_CONTEXT_MGR does: at most one manager per context, of the
    context's uid, and then a node of the caller with a strong and a weak
    count of its own. *)
Definition ctx_mgr_outcome (p : nat) (P : binder_proc) (security euid : Z) (kz : option nat) (rv : Z) (s s' : binder) : Prop :=
  let c := proc_context P in
  (binder_context_mgr_node s !! c <> None /\ rv = - EBUSY /\ s' = s) \/
  binder_context_mgr_node s !! c = None /\
  (security < 0 /\ rv = security /\ s' = s \/
   0 <= security /\ (exists uid, binder_context_mgr_uid s !! c = Some uid /\ uid <> euid) /\ rv = - EPERM /\ s' = s \/
   0 <= security /\ (forall uid, binder_context_mgr_uid s !! c = Some uid -> uid = euid) /\
   (kz = None /\ rv = - ENOMEM /\ s' = mgr_uid_fixed c euid s \/
    rv = security /\ exists n N, binder_context_mgr_node s' = <[c := n]> (binder_context_mgr_node s) /\
      nodes s' !! n = Some N /\ node_proc N = Some p /\ has_strong_ref N = true /\ has_weak_ref N = true)).

Lemma set_ctx_mgr_inv p P security euid kz fbo s : inv s -> procs s !! p = Some P -> room s ->
  (forall n, kz = Some n -> nodes s !! n = None) ->
  exists rv s', binder_ioctl_set_ctx_mgr p security euid kz fbo s = Some (rv, s') /\ inv s' /\
    ctx_mgr_outcome p P security euid kz rv s s'.
Proof.
  intros I HP Hr Hfree. unfold binder_ioctl_set_ctx_mgr, ctx_mgr_outcome. erewrite bind_eq by by apply proc_at_eq.
  erewrite bind_eq by reflexivity. case_bool_decide as Hmgr; [exists (- EBUSY), s; split; [done|split; [done|by left]]|].
  assert (Hnone : binder_context_mgr_node s !! proc_context P = None).
  { destruct (binder_context_mgr_node s !! proc_context P); [|done]. by destruct Hmgr. }
  destruct (security <? 0) eqn:Hsec; [exists security, s; split; [done|split; [done|]]|].
  { right. split; [done|left]. split; [lia|done]. }
  apply Z.ltb_ge in Hsec. erewrite bind_eq by apply check_mgr_uid_eq.
  destruct (match binder_context_mgr_uid s !! proc_context P with Some uid => uid =? euid | None => true end) eqn:Huid; cbn [negb].
  2: { unfold mgr_uid_fixed. destruct (binder_context_mgr_uid s !! proc_context P) as [uid|] eqn:Hu; [|done].
       exists (- EPERM), s. split; [done|]. split; [done|]. right. split; [done|right; left]. split; [done|]. split; [|done].
       exists uid. split; [done|]. by apply Z.eqb_neq. }
  assert (Hu : forall uid, binder_context_mgr_uid s !! proc_context P = Some uid -> uid = euid).
  { intros uid E. rewrite E in Huid. by apply Z.eqb_eq. }
  destruct (mgr_uid_fixed_same (proc_context P) euid s) as (Hal & Hn0 & Hp0 & Hm0).
  pose proof (inv_alike _ _ _ _ _ I Hal) as I0. set (s0 := mgr_uid_fixed _ _ s) in *.
  destruct kz as [k|].
  2: { exists (- ENOMEM), s0. split; [done|]. split; [done|]. right. split; [done|]. right; right. split; [done|]. split; [done|by left]. }
  destruct (new_node_inv p P k fbo s0 I0) as
    (n & N & s1 & E & I1 & HN & Hp & _ & Ht & Hls & Hlw & _ & (P1 & HP1 & Hctx & _) & Hmg & _);
    [by rewrite Hp0|intros m M; rewrite Hn0; apply Hr|rewrite Hn0; by apply Hfree|].
  erewrite bind_eq by exact E. cbv beta iota.
  pose proof (c_node _ (i_counted _ _ _ _ I1) n N HN) as C. destruct (nc_strong _ _ _ C), (nc_weak _ _ _ C).
  pose proof (owed_range N (pending_strong_ref N)) as Ho1. pose proof (owed_range N (pending_weak_ref N)) as Ho2.
  erewrite bind_eq by (by apply (upd_node_eq n _ N)). cbv beta. rewrite !s32_int by (unfold is_int, two31 in *; lia).
  set (N1 := set_flags true _ true _ _).
  assert (C1 : node_counts s1 n N1).
  { change (owed N1 (pending_strong_ref N1)) with (owed N (pending_strong_ref N)).
    destruct C. split; try done.
    - change (owed N (pending_strong_ref N) <= local_strong_refs N + 1 < two31). lia.
    - change (owed N (pending_weak_ref N) <= local_weak_refs N + 1 < two31). lia.
    - intros Hm. specialize (nc_mgr Hm). split_and!; try done.
      + change (owed N (pending_strong_ref N) + 1 <= local_strong_refs N + 1). lia.
      + change (owed N (pending_weak_ref N) + 1 <= local_weak_refs N + 1). lia. }
  fold (node_set n N1 s1). set (s2 := node_set n N1 s1).
  assert (I2 : inv s2).
  { eapply (inv_node_upd _ _ None _ n N); [done|done|done|by left|done..|]. intros _. left. right; right; right. simpl. lia. }
  assert (HN2 : nodes s2 !! n = Some N1) by (unfold s2; rewrite node_set_lookup; by rewrite decide_True).
  pose proof (inv_set_mgr (proc_context P) n N1 p P1 s2 I2 HN2 Hp HP1 Hctx) as I3.
  erewrite bind_eq by reflexivity.
  destruct (put_node_inv None n N1 (set_mgr (<[proc_context P := n]> (binder_context_mgr_node s2)) s2))
    as (s3 & E3 & I4 & Hg & _ & _ & _ & _ & Em & _); [|done|simpl; lia|].
  { apply I3; try done.
    - change (owed N (pending_strong_ref N) + 1 <= local_strong_refs N + 1). lia.
    - change (owed N (pending_weak_ref N) + 1 <= local_weak_refs N + 1). lia. }
  erewrite bind_eq by exact E3. exists security, s3. split; [done|]. split; [done|]. right. split; [done|]. right; right.
  split; [done|]. split; [done|]. right. split; [done|].
  exists n, (add_tmp (-1) N1). split; [rewrite Em; unfold s2; simpl; by rewrite Hmg, Hm0|]. split_and!; try done.
  destruct Hg as [Hg|[_ Hg]]; [done|]. exfalso. apply Hg. right; left. simpl. lia.
Qed.
End ops.
