(* ===== verification/BinderNodeRef.v ===== *)
(** * Binder references: every operation on a reference keeps the invariant

    Looking a handle up, taking and dropping its counts, creating a reference
    under the least free handle, and cleaning one up. *)

From Stdlib Require Import ZArith Lia.
From stdpp Require Import base option gmap sets list sorting.
From S2P Require Import Prelude RbTree BinderNode BinderNodeFacts BinderNodeInv BinderNodeOps.

Definition ref_room (s : binder) : Prop := forall r R, refs s !! r = Some R ->
  strong (ref_data R) + 1 < two31 /\ weak (ref_data R) + 1 < two31.

(** [s'] has reference [r] changed to [R'] and is otherwise as [s]. *)
Definition ref_set (r : nat) (R' : binder_ref) (s : binder) : binder := set_refs (<[r := R']> (refs s)) s.

Lemma ref_set_lookup r R' s q : refs (ref_set r R' s) !! q = if decide (q = r) then Some R' else refs s !! q.
Proof. simpl. rewrite lookup_insert. case_decide; case_decide; by subst. Qed.

Definition add_internal (k : Z) (N : binder_node) : binder_node :=
  set_counts (internal_strong_refs N + k) (local_weak_refs N) (local_strong_refs N) (tmp_refs N) N.

(** Whether a strong count is there, as the node counts it. *)
Definition holds_strong (st : Z) : Z := if st =? 0 then 0 else 1.

Section refs.
Context `{RB : Rbtree} {RBL : RbtreeLaws}.

Lemma rstrong_set r R R' s : refs s !! r = Some R ->
  (forall q, q <> r -> rstrong (ref_set r R' s) q = rstrong s q) /\
  rstrong (ref_set r R' s) r = holds_strong (strong (ref_data R')) /\ rstrong s r = holds_strong (strong (ref_data R)).
Proof.
  intros HR. split; [|split]; unfold rstrong.
  - intros q Hq. rewrite ref_set_lookup. by rewrite decide_False.
  - rewrite ref_set_lookup. by rewrite decide_True.
  - by rewrite HR.
Qed.

(** A reference's counts and the count its node keeps of them. *)
Lemma inv_ref_counts xr lo r R n N st wk s : inv_ xr None lo s -> lo = None \/ lo = Some n ->
  refs s !! r = Some R -> xr <> Some r -> ref_node R = Some n -> nodes s !! n = Some N ->
  0 <= st < two31 -> 0 <= wk < two31 ->
  internal_strong_refs N + (holds_strong st - holds_strong (strong (ref_data R))) < two31 ->
  inv_ xr None None (ref_set r (set_ref_counts st wk R)
    (node_set n (add_internal (holds_strong st - holds_strong (strong (ref_data R))) N) s)).
Proof.
  intros I Hlo HR Hx Hn HN Hst Hwk Hint. set (N' := add_internal _ N). set (R' := set_ref_counts st wk R).
  destruct (g_ref _ _ _ (i_graph _ _ _ _ I) r R HR Hx) as (_ & n' & N0 & Hn' & HN0 & Hin). simplify_eq.
  destruct I as [G C Q D]. set (s' := ref_set _ _ _).
  destruct (rstrong_set r R R' (node_set n N' s) HR) as (Ho & Hr' & Hr).
  assert (Hl : forall m M', nodes s' !! m = Some M' -> exists M, nodes s !! m = Some M /\
    node_proc M' = node_proc M /\ node_refs M' = node_refs M /\ (m = n /\ M' = N' /\ M = N \/ m <> n /\ M' = M)).
  { intros m M' HM. unfold s' in HM. cbn [nodes ref_set set_refs] in HM. rewrite node_set_lookup in HM.
    case_decide; simplify_eq; [exists N|exists M']; split_and!; try done; [by left|by right]. }
  assert (Hl' : forall m M, nodes s !! m = Some M -> exists M', nodes s' !! m = Some M' /\
    node_proc M' = node_proc M /\ node_refs M' = node_refs M).
  { intros m M HM. unfold s'. cbn [nodes ref_set set_refs]. rewrite node_set_lookup.
    case_decide; simplify_eq; [by exists N'|by exists M]. }
  assert (Hptr : forall m, nptr s' m = nptr s m).
  { intros m. unfold nptr, s'. cbn [nodes ref_set set_refs]. rewrite node_set_lookup. case_decide; [|done]. subst. by rewrite HN. }
  assert (Hq : forall q Q', refs s' !! q = Some Q' -> exists Q, refs s !! q = Some Q /\ ref_proc Q' = ref_proc Q /\
    ref_node Q' = ref_node Q /\ ref_death Q' = ref_death Q /\ desc (ref_data Q') = desc (ref_data Q) /\
    (Q' = Q \/ Q' = R')).
  { intros q Q' HQ. unfold s' in HQ. rewrite ref_set_lookup in HQ.
    case_decide; simplify_eq; [exists R|exists Q']; split_and!; try done; [by right|by left]. }
  assert (Hq' : forall q Q, refs s !! q = Some Q -> exists Q', refs s' !! q = Some Q' /\ ref_proc Q' = ref_proc Q /\
    ref_node Q' = ref_node Q /\ ref_death Q' = ref_death Q).
  { intros q Q' HQ. unfold s'. rewrite ref_set_lookup. case_decide; simplify_eq; [by exists R'|by exists Q']. }
  assert (Hkey : forall q, rdesc s' q = rdesc s q /\ rnode s' q = rnode s q).
  { intros q. unfold rdesc, rnode, s'. rewrite ref_set_lookup. case_decide; [subst; by rewrite HR|done]. }
  assert (Hset : forall p m, (None <> Some m /\ exists M, nodes s' !! m = Some M /\ node_proc M = p) <->
    (None <> Some m /\ exists M, nodes s !! m = Some M /\ node_proc M = p)).
  { intros p m. split; intros (? & M & HM & Hp); (split; [done|]).
    - destruct (Hl m M HM) as (M0 & ? & ? & _). exists M0. split; [done|congruence].
    - destruct (Hl' m M HM) as (M0 & ? & ? & _). exists M0. split; [done|congruence]. }
  assert (Hrset : forall p q, (xr <> Some q /\ exists Q, refs s !! q = Some Q /\ ref_proc Q = p) <->
    (xr <> Some q /\ exists Q, refs s' !! q = Some Q /\ ref_proc Q = p)).
  { intros p q. split; intros (? & M & HM & Hp); (split; [done|]).
    - destruct (Hq' q M HM) as (M0 & ? & ? & _). exists M0. split; [done|congruence].
    - destruct (Hq q M HM) as (M0 & ? & ? & _). exists M0. split; [done|congruence]. }
  split.
  - destruct G. split; try done.
    + intros p P HP. eapply holds_set_ext; [by apply g_nodes|intros m; symmetry; apply Hset|intros m _; apply Hptr].
    + intros p P HP. eapply holds_set_ext; [by apply g_desc|apply Hrset|intros q _; apply Hkey].
    + intros p P HP. eapply holds_set_ext; [by apply g_byno|apply Hrset|intros q _; apply Hkey].
    + intros q Q' HQ Hxq. destruct (Hq q Q' HQ) as (Q0 & HQ0 & -> & -> & _).
      destruct (g_ref q Q0 HQ0 Hxq) as (? & m & M & Hm & HM & Hi). split; [done|].
      destruct (Hl' m M HM) as (M' & HM' & _ & E). exists m, M'. by rewrite E.
    + intros m M' HM. destruct (Hl m M' HM) as (M & HM0 & _ & -> & _). destruct (g_refs m M HM0) as [? H].
      split; [done|]. intros q Hi. destruct (H q Hi) as (? & Q0 & HQ0 & E). split; [done|].
      destruct (Hq' q Q0 HQ0) as (Q' & HQ' & _ & E' & _). exists Q'. by rewrite E'.
    + intros m M' p HM Hp. destruct (Hl m M' HM) as (M & HM0 & E & _). rewrite E in Hp. by eapply g_proc.
    + destruct g_dead as [? Hd]. split; [done|]. intros m. rewrite Hset. apply Hd.
    + intros q Q' HQ. destruct (Hq q Q' HQ) as (Q0 & HQ0 & _ & _ & _ & -> & _). by eapply g_udesc.
    + intros c m Hm. destruct (g_mgr c m Hm) as (? & M & p & P & HM & Hp & ? & ?). split; [done|].
      destruct (Hl' m M HM) as (M' & HM' & E & _). exists M', p, P. by rewrite E.
  - destruct C as [Cr Cn]. split.
    + intros q Q' HQ. destruct (Hq q Q' HQ) as (Q0 & HQ0 & _ & _ & _ & _ & [->| ->]); [by eapply Cr|done].
    + intros m M' HM. destruct (Hl m M' HM) as (M & HM0 & _ & Er & [(-> & -> & ->)|(Hne & ->)]).
      * destruct (Cn n N HM0). split; try done. simpl. rewrite nc_internal.
        rewrite (sum_over_update (rstrong s) (rstrong s') r (node_refs N)).
        -- change (rstrong s' r) with (rstrong (ref_set r R' (node_set n N' s)) r). rewrite Hr'.
           change (rstrong (node_set n N' s) r) with (rstrong s r) in Hr. rewrite Hr. simpl. lia.
        -- by apply (g_refs _ _ _ G n).
        -- done.
        -- intros y Hy. symmetry. by apply Ho.
      * destruct (Cn m M HM0). split; try done. rewrite nc_internal. apply sum_over_ext. intros y Hy. symmetry.
        apply Ho. intros ->. destruct (proj2 (g_refs _ _ _ G m M HM0) r Hy) as (_ & Q0 & HQ0 & E). congruence.
  - destruct Q. split; try done.
    + intros m l Hm. destruct (q_node m l Hm) as (? & M & p & HM & Hp & ?). split; [done|].
      destruct (Hl' m M HM) as (M' & HM' & E & _). exists M', p. by rewrite E.
    + intros m M' HM Hxm _. destruct (Hl m M' HM) as (M & HM0 & _ & _ & [(-> & -> & ->)|(Hne & ->)]).
      * left. left. intros E. simpl in E. rewrite E in Hin. by apply not_elem_of_nil in Hin.
      * apply (q_held m M HM0 Hxm). destruct Hlo as [->| ->]; congruence.
  - destruct D. split; try done.
    + intros q Q' d HQ Hd. destruct (Hq q Q' HQ) as (Q0 & HQ0 & _ & E1 & E2 & _). rewrite E2 in Hd.
      destruct (d_ref q Q0 d HQ0 Hd) as (D & HD & H). exists D. split; [done|]. intros Hxq l Hi.
      destruct (H Hxq l Hi) as (? & m & M & Hm & HM & Hp). split; [done|].
      destruct (Hl' m M HM) as (M' & HM' & E & _). exists m, M'. by rewrite E1, E.
    + intros q1 Q1 q2 Q2 d H1 Hd1 H2 Hd2. destruct (Hq q1 Q1 H1) as (R1 & HR1 & _ & _ & E1 & _).
      destruct (Hq q2 Q2 H2) as (R2 & HR2 & _ & _ & E2 & _). apply (d_own q1 R1 q2 R2 d); congruence.
    + intros d D HD. destruct (d_free d D HD) as [(q & Q0 & HQ & Hd)|?]; [left|by right].
      destruct (Hq' q Q0 HQ) as (Q' & HQ' & _ & _ & E). exists q, Q'. split; [done|congruence].
Qed.

(** ** Looking a handle up *)

Lemma cmp_ref_desc_eq d s xr xn lo p P : inv_ xr xn lo s -> procs s !! p = Some P ->
  forall y, y ∈ rb_inorder (refs_by_desc P) -> cmp_ref_desc d y s = Some (Z.compare d (rdesc s y), s).
Proof.
  intros I HP y Hy. apply (g_desc _ _ _ (i_graph _ _ _ _ I) p P HP) in Hy as (_ & R & HR & _).
  unfold cmp_ref_desc, rdesc. erewrite bind_eq by by apply ref_at_eq. by rewrite HR.
Qed.

(** [binder_get_ref_olocked] finds the process's reference under the handle;
    a weak one is refused when a strong one is asked for. *)
Lemma get_ref_inv p P d need s : inv s -> procs s !! p = Some P ->
  exists r, binder_get_ref_olocked p d need s = Some (r, s) /\
    match r with
    | Some r => exists R n N, refs s !! r = Some R /\ ref_proc R = p /\ desc (ref_data R) = d /\
        ref_node R = Some n /\ nodes s !! n = Some N /\ r ∈ node_refs N /\
        (need = true -> strong (ref_data R) <> 0)
    | None => forall r R, refs s !! r = Some R -> ref_proc R = p -> desc (ref_data R) = d ->
        need = true /\ strong (ref_data R) = 0
    end.
Proof.
  intros I HP. pose proof (g_desc _ _ _ (i_graph _ _ _ _ I) p P HP) as [Hk Hin].
  unfold binder_get_ref_olocked. erewrite bind_eq by by apply proc_at_eq.
  destruct (rb_find_spec (cmp_ref_desc d) (rdesc s) d s (refs_by_desc P) Hk) as (r & E & Hres);
    [by eapply cmp_ref_desc_eq|].
  erewrite bind_eq by exact E. destruct r as [r|].
  - destruct Hres as [Hi Hd]. apply Hin in Hi as (Hx & R & HR & Hp).
    unfold rdesc in Hd. rewrite HR in Hd. erewrite bind_eq by by apply ref_at_eq.
    destruct (need && (strong (ref_data R) =? 0)) eqn:Ht.
    + exists None. split; [done|]. apply andb_true_iff in Ht as [-> Hs%Z.eqb_eq].
      intros q Q HQ HpQ HdQ. split; [done|]. assert (q = r) as ->; [|by simplify_eq].
      apply (rb_keyed_inj (rdesc s) (refs_by_desc P)); [done|apply Hin; split; [done|by exists Q]| |].
      * apply Hin. split; [done|by exists R].
      * unfold rdesc. by rewrite HQ, HR, HdQ.
    + exists (Some r). split; [done|]. destruct (g_ref _ _ _ (i_graph _ _ _ _ I) r R HR Hx) as (_ & n & N & Hn & HN & Hi).
      exists R, n, N. split_and!; try done. intros ->. simpl in Ht. by apply Z.eqb_neq.
  - exists None. split; [done|]. intros q Q HQ HpQ HdQ. exfalso. apply (Hres q).
    + apply Hin. split; [done|by exists Q].
    + unfold rdesc. by rewrite HQ.
Qed.

(** ** Taking a count *)

(** The list the owner is to be told on belongs to one of its threads. *)
Definition target_ok (s : binder) (N : binder_node) (target : option worklist) : Prop :=
  match target with
  | None => True
  | Some l => exists t T, l = thread_todo t /\ threads s !! t = Some T /\ node_proc N = Some (thread_proc T)
  end.

(** The node's work item now waits for that thread. *)
Definition moved (t n : nat) (s : binder) : binder := enqueued (thread_todo t) (WNode n) (dequeued (WNode n) s).

Lemma inv_moved xr lo t T n N s : inv_ xr None lo s -> lo = None \/ lo = Some n -> nodes s !! n = Some N ->
  threads s !! t = Some T -> node_proc N = Some (thread_proc T) -> inv_ xr None None (moved t n s).
Proof.
  intros I Hlo HN HT Hp. eapply inv_enqueue_node; [by apply (inv_dequeue_node xr None lo n)|exact HN|done|by right|exact Hp| |].
  - simpl. by rewrite HT.
  - intros l [? _]%elem_dequeued. done.
Qed.

Lemma alike_node_set n N s s' : alike s s' -> alike (node_set n N s) (node_set n N s').
Proof. intros []. split; try done. simpl. by f_equal. Qed.
Lemma alike_ref_set r R s s' : alike s s' -> alike (ref_set r R s) (ref_set r R s').
Proof. intros []. split; try done. simpl. by f_equal. Qed.
Lemma alike_trans s1 s2 s3 : alike s1 s2 -> alike s2 s3 -> alike s1 s3.
Proof.
  assert (Hsp : forall P1 P2 P3, same_proc P1 P2 -> same_proc P2 P3 -> same_proc P1 P3).
  { intros P1 P2 P3 (?&?&?&?&?&Ha) (?&?&?&?&?&Hb). split_and!; try congruence. intros t Ht. by apply Ha, Hb. }
  intros A B. split.
  - by rewrite (al_nodes _ _ B), (al_nodes _ _ A).
  - by rewrite (al_refs _ _ B), (al_refs _ _ A).
  - by rewrite (al_deaths _ _ B), (al_deaths _ _ A).
  - by rewrite (al_threads _ _ B), (al_threads _ _ A).
  - intros l. by rewrite (al_queue _ _ B), (al_queue _ _ A).
  - by rewrite (al_mgr _ _ B), (al_mgr _ _ A).
  - by rewrite (al_dead _ _ B), (al_dead _ _ A).
  - intros p P HP. destruct (al_proc _ _ A p P HP) as (P1 & HP1 & S1).
    destruct (al_proc _ _ B p P1 HP1) as (P2 & HP2 & S2). exists P2. split; [done|by eapply Hsp].
  - intros p P HP. destruct (al_proc_back _ _ B p P HP) as (P1 & HP1 & S1).
    destruct (al_proc_back _ _ A p P1 HP1) as (P2 & HP2 & S2). exists P2. split; [done|by eapply Hsp].
Qed.

Lemma deferred_eq t T n s : threads s !! t = Some T -> (forall l, WNode n ∉ queue l s) ->
  exists s', binder_enqueue_deferred_thread_work_ilocked t (WNode n) s = Some (tt, s') /\
    alike (enqueued (thread_todo t) (WNode n) s) s'.
Proof.
  intros HT Hq. unfold binder_enqueue_deferred_thread_work_ilocked, is_waiting.
  assert (Hw : exists b, (let! T := thread_at t in let! s := get in
    ret (match procs s !! thread_proc T with Some P => bool_decide (t ∈ waiting_threads P) | None => false end)) s
    = Some (b, s)).
  { erewrite bind_eq by by apply thread_at_eq. eexists. reflexivity. }
  destruct Hw as [b Hw]. erewrite bind_eq by exact Hw. erewrite bind_eq by reflexivity.
  set (s1 := if b then set_warnings (binder_warnings s + 1) s else s).
  eexists. split; [apply enqueue_eq; intros l; destruct b; exact (Hq l)|]. destruct b; by apply alike_same.
Qed.

(** The state once the owner has been told of a first count. *)
Definition counted_in (n : nat) (N : binder_node) (strong_ : bool) (s s' : binder) : Prop :=
  exists s0, (s0 = s \/ exists t T, threads s !! t = Some T /\ node_proc N = Some (thread_proc T) /\ s0 = moved t n s) /\
    alike (node_set n (add_internal (b2z strong_) N) s0) s'.

Lemma add_internal_0 N : add_internal 0 N = N.
Proof. destruct N. unfold add_internal, set_counts. simpl. by rewrite Z.add_0_r. Qed.

(** [binder_inc_node] for a reference's first count. *)
Lemma inc_node_internal n N strong_ target s : inv s -> nodes s !! n = Some N -> target_ok s N target ->
  internal_strong_refs N + 1 < two31 ->
  exists rv s', binder_inc_node n strong_ true target s = Some (rv, s') /\
    (rv = - EINVAL /\ s' = s /\ target = None /\
       (if strong_ then internal_strong_refs N = 0 /\ ~ (is_mgr s n /\ has_strong_ref N = true)
        else has_weak_ref N = false /\ (forall l, WNode n ∉ queue l s)) \/
     rv = 0 /\ counted_in n N strong_ s s').
Proof.
  intros I HN Ht Hi. unfold binder_inc_node, binder_inc_node_nilocked.
  pose proof (c_node _ (i_counted _ _ _ _ I) n N HN) as C.
  assert (Hi0 : 0 <= internal_strong_refs N).
  { rewrite (nc_internal _ _ _ C). induction (node_refs N) as [|r l IH]; simpl; [lia|]. unfold rstrong at 1.
    destruct (refs s !! r); [case_if|]; lia. }
  erewrite bind_eq by by apply node_at_eq. destruct strong_.
  - assert (Hm : exists b, is_context_mgr n N s = Some (b, s) /\ (b = true <-> is_mgr s n)).
    { unfold is_context_mgr. destruct (node_proc N) as [p|] eqn:Hp.
      - destruct (g_proc _ _ _ (i_graph _ _ _ _ I) n N p HN Hp) as [P HP]. erewrite bind_eq by by apply proc_at_eq.
        eexists. split; [reflexivity|]. rewrite bool_decide_eq_true. split; [intros ?; by exists (proc_context P)|].
        intros [c Hc]. destruct (g_mgr _ _ _ (i_graph _ _ _ _ I) c n Hc) as (_ & ? & ? & ? & ? & ? & ? & <-). by simplify_eq.
      - exists false. split; [done|]. split; [done|]. intros [c Hc].
        destruct (g_mgr _ _ _ (i_graph _ _ _ _ I) c n Hc) as (_ & ? & ? & ? & ? & ? & _). congruence. }
    destruct Hm as (b & Em & Hb). erewrite bind_eq by exact Em. destruct (true && _ && _ && _) eqn:Hno.
    { exists (- EINVAL), s. split; [done|]. left. rewrite !andb_true_iff, bool_decide_eq_true, Z.eqb_eq, negb_true_iff in Hno.
      destruct Hno as [[[_ ?] ?] Hn]. split_and!; try done. intros [Hmg Hs]. apply Hb in Hmg as ->. by rewrite Hs in Hn. }
    erewrite bind_eq by reflexivity. rewrite s32_int by (unfold is_int, two31 in *; lia).
    change (set_counts (internal_strong_refs N + 1) _ _ _ N) with (add_internal (b2z true) N).
    fold (node_set n (add_internal (b2z true) N) s). set (s1 := node_set n _ s).
    destruct target as [l|].
    2:{ exists 0, s1. split; [done|]. right. split; [done|]. exists s. split; [by left|]. by apply alike_same. }
    destruct (has_strong_ref N); cbn [negb].
    { exists 0, s1. split; [done|]. right. split; [done|]. exists s. split; [by left|]. by apply alike_same. }
    destruct Ht as (t & T & -> & HT & Hp). erewrite bind_eq by reflexivity. erewrite bind_eq by reflexivity.
    destruct (deferred_eq t T n (dequeued (WNode n) s1)) as (s' & E & A); [done|intros l [? _]%elem_dequeued; done|].
    change (set_works (list_del (WNode n) <$> works s1) s1) with (dequeued (WNode n) s1).
    erewrite bind_eq by exact E. exists 0, s'. split; [done|]. right. split; [done|]. exists (moved t n s).
    split; [right; by exists t, T|]. eapply alike_trans; [|exact A]. by apply alike_same.
  - erewrite bind_eq by reflexivity. erewrite bind_eq by reflexivity.
    destruct (negb (has_weak_ref N) && negb (on_list (WNode n) s)) eqn:Hno.
    + apply andb_true_iff in Hno as [Hw%negb_true_iff Ho%negb_true_iff]. destruct target as [l|].
      * destruct Ht as (t & T & -> & HT & Hp). pose proof (proj1 (on_list_false _ _) Ho) as Hq.
        erewrite bind_eq by by apply enqueue_eq. exists 0, (enqueued (thread_todo t) (WNode n) s). split; [done|].
        right. split; [done|]. exists (moved t n s). split; [right; by exists t, T|]. simpl. rewrite add_internal_0.
        unfold moved. split; try done.
        -- unfold enqueued, dequeued, node_set. simpl. rewrite insert_id by done. done.
        -- intros l. rewrite queue_enqueued.
           change (queue l (node_set n N (enqueued (thread_todo t) (WNode n) (dequeued (WNode n) s))))
             with (queue l (enqueued (thread_todo t) (WNode n) (dequeued (WNode n) s))).
           by rewrite queue_enqueued, !queue_dequeued, !list_del_notin.
        -- intros p P HP. exists P. split; [done|apply same_proc_refl].
        -- intros p P HP. exists P. split; [done|apply same_proc_refl].
      * exists (- EINVAL), s. split; [done|]. left. split_and!; try done. by apply on_list_false.
    + exists 0, s. split; [done|]. right. split; [done|]. exists s. split; [by left|]. simpl. rewrite add_internal_0.
      rewrite node_set_same by done. by apply alike_same.
Qed.

(** A reference with [k] added to one of its counts. *)
Definition bumped (k : Z) (strong_ : bool) (R : binder_ref) : binder_ref :=
  if strong_ then set_ref_counts (strong (ref_data R) + k) (weak (ref_data R)) R
  else set_ref_counts (strong (ref_data R)) (weak (ref_data R) + k) R.

(** The count the driver keeps in the reference: what it is asked for. *)
Definition count_of (strong_ : bool) (R : binder_ref) : Z := if strong_ then strong (ref_data R) else weak (ref_data R).

(** What counting a reference leaves alone. *)
Definition counting_frame (s s' : binder) : Prop :=
  deaths s' = deaths s /\ threads s' = threads s /\ binder_context_mgr_node s' = binder_context_mgr_node s /\
  (forall p P, procs s !! p = Some P -> exists P', procs s' !! p = Some P' /\ proc_context P' = proc_context P).

Lemma alike_frame s s' : alike s s' -> counting_frame s s'.
Proof.
  intros A. split_and!; try apply A. intros p P HP. destruct (al_proc _ _ A p P HP) as (P' & HP' & S). exists P'.
  split; [done|apply S].
Qed.

Lemma put_counted r R n N strong_ s s1 : inv s -> refs s !! r = Some R -> ref_node R = Some n ->
  nodes s !! n = Some N -> 0 <= strong (ref_data R) + 1 < two31 -> 0 <= weak (ref_data R) + 1 < two31 ->
  internal_strong_refs N + 1 < two31 -> counted_in n N (strong_ && (strong (ref_data R) =? 0)) s s1 ->
  inv (ref_set r (bumped 1 strong_ R) s1) /\ counting_frame s (ref_set r (bumped 1 strong_ R) s1) /\
  refs s1 = refs s /\ nodes s1 = <[n := add_internal (b2z (strong_ && (strong (ref_data R) =? 0))) N]> (nodes s).
Proof.
  intros I HR Hn HN Hst Hwk Hint (s0 & Hs0 & A). destruct (c_ref _ (i_counted _ _ _ _ I) r R HR) as [? ?].
  assert (I0 : inv s0 /\ nodes s0 = nodes s /\ refs s0 = refs s /\ counting_frame s s0).
  { destruct Hs0 as [->|(t & T & HT & Hp & ->)].
    - split; [done|]. split; [done|]. split; [done|]. by apply alike_frame, alike_same.
    - split; [by eapply (inv_moved _ None t T n N); [|left|..]|]. split; [done|]. split; [done|].
      split_and!; try done. intros p P HP. by exists P. }
  destruct I0 as (I0 & En & Er & F).
  assert (Hb : add_internal (b2z (strong_ && (strong (ref_data R) =? 0))) N =
    add_internal (holds_strong (strong (ref_data (bumped 1 strong_ R))) - holds_strong (strong (ref_data R))) N).
  { unfold bumped, holds_strong, b2z. destruct strong_; simpl; [|f_equal; lia].
    destruct (Z.eqb_spec (strong (ref_data R)) 0), (Z.eqb_spec (strong (ref_data R) + 1) 0); f_equal; lia. }
  pose proof (alike_ref_set r (bumped 1 strong_ R) _ _ A) as A'. split; [|split; [|split]].
  - eapply inv_alike; [|exact A']. rewrite Hb.
    assert (Eb : bumped 1 strong_ R = set_ref_counts (strong (ref_data (bumped 1 strong_ R)))
      (weak (ref_data (bumped 1 strong_ R))) R) by by destruct strong_.
    rewrite Eb at 1. apply (inv_ref_counts None None r R n N); try done; [by left|by rewrite Er|by rewrite En|..];
      unfold holds_strong; destruct strong_; simpl; repeat case_if; lia.
  - destruct F as (F1 & F2 & F3 & F4), (alike_frame _ _ A') as (B1 & B2 & B3 & B4).
    split_and!; [by rewrite B1|by rewrite B2|by rewrite B3|]. intros p P HP. destruct (F4 p P HP) as (P1 & HP1 & E1).
    destruct (B4 p P1 HP1) as (P2 & HP2 & E2). exists P2. split; [done|congruence].
  - by rewrite (al_refs _ _ A).
  - rewrite (al_nodes _ _ A). simpl. by rewrite En.
Qed.

(** [binder_inc_ref_olocked]: one more count, or -EINVAL and nothing changed,
    which takes a first count, no list to tell the owner on, and an owner who
    does not know. *)
Lemma inc_ref_inv r R n N strong_ target s : inv s -> refs s !! r = Some R -> ref_node R = Some n ->
  nodes s !! n = Some N -> target_ok s N target ->
  internal_strong_refs N + 1 < two31 ->
  strong (ref_data R) + 1 < two31 -> weak (ref_data R) + 1 < two31 ->
  exists rv s', binder_inc_ref_olocked r strong_ target s = Some (rv, s') /\ inv s' /\ counting_frame s s' /\
    (rv = - EINVAL /\ s' = s /\ target = None /\ count_of strong_ R = 0 /\
       (if strong_ then internal_strong_refs N = 0 /\ ~ (is_mgr s n /\ has_strong_ref N = true)
        else has_weak_ref N = false /\ (forall l, WNode n ∉ queue l s)) \/
     rv = 0 /\ refs s' = <[r := bumped 1 strong_ R]> (refs s) /\
       nodes s' = <[n := add_internal (b2z (strong_ && (strong (ref_data R) =? 0))) N]> (nodes s)).
Proof.
  intros I HR Hn HN Ht Hroom Hst Hwk. destruct (c_ref _ (i_counted _ _ _ _ I) r R HR) as [? ?].
  unfold binder_inc_ref_olocked. erewrite bind_eq by by apply ref_at_eq. rewrite Hn. erewrite bind_eq by reflexivity.
  assert (Hput : forall s1, counted_in n N (strong_ && (strong (ref_data R) =? 0)) s s1 ->
    exists rv s', (put_ref_at r (bumped 1 strong_ R) ;! ret 0) s1 = Some (rv, s') /\ inv s' /\ counting_frame s s' /\
    (rv = 0 /\ refs s' = <[r := bumped 1 strong_ R]> (refs s) /\
       nodes s' = <[n := add_internal (b2z (strong_ && (strong (ref_data R) =? 0))) N]> (nodes s))).
  { intros s1 Hc. destruct (put_counted r R n N strong_ s s1 I HR Hn HN) as (I' & F & Er & En); [lia|lia|done|done|].
    exists 0, (ref_set r (bumped 1 strong_ R) s1). split; [done|]. split; [done|]. split; [done|].
    split; [done|]. split; [simpl; by rewrite Er|done]. }
  assert (Hself : forall b, b = false -> counted_in n N b s s).
  { intros b ->. exists s. split; [by left|]. simpl. rewrite add_internal_0, node_set_same by done. by apply alike_same. }
  destruct strong_; cbn [andb count_of] in *.
  - rewrite s32_int by (unfold is_int, two31 in *; lia).
    change (set_ref_counts (strong (ref_data R) + 1) (weak (ref_data R)) R) with (bumped 1 true R).
    destruct (Z.eqb_spec (strong (ref_data R)) 0) as [Hs|Hs].
    + destruct (inc_node_internal n N true target s I HN Ht Hroom) as (rv & s1 & E & Hres).
      erewrite bind_eq by exact E. destruct Hres as [(-> & -> & -> & Hno)|(-> & Hc)].
      * exists (- EINVAL), s. split; [done|]. split; [done|]. split; [by apply alike_frame, alike_same|]. by left.
      * destruct (Hput s1 Hc) as (rv & s' & E' & I' & F & Hr). exists rv, s'. split_and!; try done. by right.
    + erewrite bind_eq by reflexivity. destruct (Hput s (Hself _ eq_refl)) as (rv & s' & E' & I' & F & Hr).
      exists rv, s'. split_and!; try done. by right.
  - rewrite s32_int by (unfold is_int, two31 in *; lia).
    change (set_ref_counts (strong (ref_data R)) (weak (ref_data R) + 1) R) with (bumped 1 false R).
    destruct (Z.eqb_spec (weak (ref_data R)) 0) as [Hs|Hs].
    + destruct (inc_node_internal n N false target s I HN Ht Hroom) as (rv & s1 & E & Hres).
      erewrite bind_eq by exact E. destruct Hres as [(-> & -> & -> & Hno)|(-> & Hc)].
      * exists (- EINVAL), s. split; [done|]. split; [done|]. split; [by apply alike_frame, alike_same|]. by left.
      * destruct (Hput s1 Hc) as (rv & s' & E' & I' & F & Hr). exists rv, s'. split_and!; try done. by right.
    + erewrite bind_eq by reflexivity. destruct (Hput s (Hself _ eq_refl)) as (rv & s' & E' & I' & F & Hr).
      exists rv, s'. split_and!; try done. by right.
Qed.

(** ** Creating a reference *)

(** The loop stops at the least handle from [d] on that no reference has; an
    entry 0 is skipped when the search starts at 1. *)
Lemma next_desc_ok s : forall l d, StronglySorted Z.lt (map (rdesc s) l) ->
  (forall r, r ∈ l -> is_Some (refs s !! r)) -> 0 <= d -> d + Z.of_nat (length l) < two32 ->
  (forall r, r ∈ l -> d <= rdesc s r \/ rdesc s r = 0 /\ d = 1) ->
  exists d', next_desc l d s = Some (d', s) /\ d <= d' <= d + Z.of_nat (length l) /\
    (forall r, r ∈ l -> rdesc s r <> d') /\ (forall x, d <= x < d' -> exists r, r ∈ l /\ rdesc s r = x).
Proof.
  induction l as [|r l IH]; intros d Hs Hin Hd Hlen Hge.
  { exists d. split; [done|]. split; [simpl; lia|]. split; [by intros r ?%not_elem_of_nil|]. intros x Hx. lia. }
  simpl in Hs. apply StronglySorted_cons in Hs as [Hr Hs].
  assert (Hgt : forall q, q ∈ l -> rdesc s r < rdesc s q).
  { intros q Hq. rewrite Forall_map, Forall_forall in Hr. by apply Hr. }
  destruct (Hin r ltac:(left)) as [R HR]. assert (Er : desc (ref_data R) = rdesc s r) by (unfold rdesc; by rewrite HR).
  cbn [next_desc]. erewrite bind_eq by by apply ref_at_eq. rewrite Er. simpl length in *.
  destruct (Z.ltb_spec d (rdesc s r)) as [Hlt|Hle].
  - exists d. split; [done|]. split; [lia|]. split; [|intros x Hx; lia].
    intros q [->|Hq]%elem_of_cons; [lia|]. specialize (Hgt q Hq). lia.
  - assert (Hu : u32 (rdesc s r + 1) = rdesc s r + 1).
    { unfold u32. apply Z.mod_small. destruct (Hge r ltac:(left)); lia. }
    destruct (IH (rdesc s r + 1)) as (d' & E & Hb & Hno & Hall).
    + done.
    + intros q Hq. apply Hin. by right.
    + destruct (Hge r ltac:(left)); lia.
    + lia.
    + intros q Hq. specialize (Hgt q Hq). left. lia.
    + rewrite Hu. exists d'. split; [done|]. destruct (Hge r ltac:(left)) as [Hr1|[Hr1 ->]].
      * split; [lia|]. split.
        -- intros q [->|Hq]%elem_of_cons; [lia|by apply Hno].
        -- intros x Hx. destruct (decide (x = rdesc s r)) as [->|Hne]; [exists r; split; [left|done]|].
           destruct (Hall x) as (q & Hq & E'); [lia|]. exists q. split; [by right|done].
      * split; [lia|]. split.
        -- intros q [->|Hq]%elem_of_cons; [lia|by apply Hno].
        -- intros x Hx. destruct (Hall x) as (q & Hq & E'); [lia|]. exists q. split; [by right|done].
Qed.

Definition new_ref_at (id d : Z) (p n : nat) : binder_ref := Ref (RefData id d 0 0) p (Some n) None.

(** A process gains a reference. *)
Lemma inv_add_ref p P td tn r n N id d s : inv s -> procs s !! p = Some P -> refs s !! r = None ->
  nodes s !! n = Some N -> is_u32 d ->
  rb_keyed (fun q => if decide (q = r) then d else rdesc s q) td ->
  (forall q, q ∈ rb_inorder td <-> q = r \/ q ∈ rb_inorder (refs_by_desc P)) ->
  rb_keyed (fun q => if decide (q = r) then Z.of_nat n else rnode s q) tn ->
  (forall q, q ∈ rb_inorder tn <-> q = r \/ q ∈ rb_inorder (refs_by_node P)) ->
  inv (set_procs (<[p := set_refs_trees td tn P]> (procs s)) (ref_set r (new_ref_at id d p n)
    (node_set n (set_node_refs (r :: node_refs N) N) s))).
Proof.
  intros I HP Hfree HN Hd Hkd Hind Hkn Hinn. set (R0 := new_ref_at id d p n).
  set (N' := set_node_refs _ N). set (s' := set_procs _ _). destruct I as [G C Q D].
  assert (Hl : forall m M', nodes s' !! m = Some M' -> exists M, nodes s !! m = Some M /\ node_proc M' = node_proc M /\
    (m = n /\ M' = N' /\ M = N \/ m <> n /\ M' = M)).
  { intros m M' HM. unfold s' in HM. cbn [nodes ref_set set_refs set_procs] in HM. rewrite node_set_lookup in HM.
    case_decide; simplify_eq; [exists N|exists M']; split_and!; try done; [by left|by right]. }
  assert (Hl' : forall m M, nodes s !! m = Some M -> exists M', nodes s' !! m = Some M' /\
    node_proc M' = node_proc M /\ forall q, q ∈ node_refs M -> q ∈ node_refs M').
  { intros m M HM. unfold s'. cbn [nodes ref_set set_refs set_procs]. rewrite node_set_lookup.
    case_decide; simplify_eq; [exists N'|by exists M]. split_and!; try done. intros q Hq. by right. }
  assert (Hptr : forall m, nptr s' m = nptr s m).
  { intros m. unfold nptr, s'. cbn [nodes ref_set set_refs set_procs]. rewrite node_set_lookup.
    case_decide; [subst; by rewrite HN|done]. }
  assert (Hq : forall q Q', refs s' !! q = Some Q' -> q = r /\ Q' = R0 \/ q <> r /\ refs s !! q = Some Q').
  { intros q Q' HQ. unfold s' in HQ. cbn [refs set_procs] in HQ. rewrite ref_set_lookup in HQ.
    case_decide; simplify_eq; [by left|by right]. }
  assert (Hr0 : refs s' !! r = Some R0).
  { unfold s'. cbn [refs set_procs]. rewrite ref_set_lookup. by rewrite decide_True. }
  assert (Hq' : forall q Q, refs s !! q = Some Q -> q <> r /\ refs s' !! q = Some Q).
  { intros q Q' HQ. split; [congruence|]. unfold s'. cbn [refs set_procs]. rewrite ref_set_lookup.
    rewrite decide_False; [done|congruence]. }
  assert (Hkey : forall q, rdesc s' q = (if decide (q = r) then d else rdesc s q) /\
    rnode s' q = (if decide (q = r) then Z.of_nat n else rnode s q) /\
    rstrong s' q = (if decide (q = r) then 0 else rstrong s q)).
  { intros q. unfold rdesc, rnode, rstrong, s'. cbn [refs set_procs]. rewrite ref_set_lookup. by case_decide. }
  assert (Hprocs : forall q Q', procs s' !! q = Some Q' -> q = p /\ Q' = set_refs_trees td tn P \/ q <> p /\ procs s !! q = Some Q').
  { intros q Q'. unfold s'. cbn [procs set_procs]. rewrite lookup_insert. intros HQ. case_decide; simplify_eq; [by left|by right]. }
  assert (Hsome : forall q, is_Some (procs s !! q) -> is_Some (procs s' !! q)).
  { intros q [Q' HQ]. unfold s'. cbn [procs set_procs]. rewrite lookup_insert. case_decide; by eexists. }
  assert (Hset : forall p m, (None <> Some m /\ exists M, nodes s' !! m = Some M /\ node_proc M = p) <->
    (None <> Some m /\ exists M, nodes s !! m = Some M /\ node_proc M = p)).
  { intros q m. split; intros (? & M & HM & Hp); (split; [done|]).
    - destruct (Hl m M HM) as (M0 & ? & ? & _). exists M0. split; [done|congruence].
    - destruct (Hl' m M HM) as (M0 & ? & ? & _). exists M0. split; [done|congruence]. }
  assert (Hown : forall q x, (None <> Some x /\ exists X, refs s' !! x = Some X /\ ref_proc X = q) <->
    q = p /\ x = r \/ (None <> Some x /\ exists X, refs s !! x = Some X /\ ref_proc X = q)).
  { intros q x. split.
    - intros (_ & X & HX & Hp). apply Hq in HX as [[-> ->]|[Hne HX]]; [by left|right]. split; [done|by exists X].
    - intros [[-> ->]|(_ & X & HX & Hp)]; (split; [done|]); [by exists R0|]. exists X. split; [by apply Hq'|done]. }
  assert (Hrn : r ∉ node_refs N).
  { intros Hi. destruct (proj2 (g_refs _ _ _ G n N HN) r Hi) as (_ & X & HX & _). congruence. }
  split.
  - destruct G. split; try done.
    + intros q Q' HQ. assert (HQ0 : exists Q0, procs s !! q = Some Q0 /\ proc_nodes Q' = proc_nodes Q0).
      { destruct (Hprocs q Q' HQ) as [[-> ->]|[_ HQ0]]; [by exists P|by exists Q']. }
      destruct HQ0 as (Q0 & HQ0 & ->).
      eapply holds_set_ext; [by apply g_nodes|intros m; symmetry; apply Hset|intros m _; apply Hptr].
    + intros q Q' HQ. destruct (Hprocs q Q' HQ) as [[-> ->]|[Hne HQ0]].
      * split; [by eapply rb_keyed_ext; [intros; apply Hkey|]|]. intros x. cbn [refs_by_desc set_refs_trees].
        rewrite Hind, Hown. rewrite (proj2 (g_desc p P HP) x). tauto.
      * eapply holds_set_ext; [by apply g_desc| |].
        -- intros x. rewrite Hown. split; [by right|intros [[? _]|?]; done].
        -- intros x (_ & X & HX & _). rewrite (proj1 (Hkey x)). rewrite decide_False by congruence. done.
    + intros q Q' HQ. destruct (Hprocs q Q' HQ) as [[-> ->]|[Hne HQ0]].
      * split; [by eapply rb_keyed_ext; [intros; apply Hkey|]|]. intros x. cbn [refs_by_node set_refs_trees].
        rewrite Hinn, Hown. rewrite (proj2 (g_byno p P HP) x). tauto.
      * eapply holds_set_ext; [by apply g_byno| |].
        -- intros x. rewrite Hown. split; [by right|intros [[? _]|?]; done].
        -- intros x (_ & X & HX & _). rewrite (proj1 (proj2 (Hkey x))). rewrite decide_False by congruence. done.
    + intros x X [[-> ->]|[_ HX]]%Hq _.
      * split; [apply Hsome; by eexists|]. exists n, N'. split; [done|]. split; [|left].
        unfold s'. cbn [nodes ref_set set_refs set_procs]. rewrite node_set_lookup. by rewrite decide_True.
      * destruct (g_ref x X HX ltac:(done)) as (? & m & M & Hm & HM & Hi). split; [by apply Hsome|].
        destruct (Hl' m M HM) as (M' & HM' & _ & Hsub). exists m, M'. split_and!; try done. by apply Hsub.
    + intros m M' HM. destruct (Hl m M' HM) as (M & HM0 & _ & [(-> & -> & ->)|(Hne & ->)]).
      * destruct (g_refs n N HM0) as [Hnd H]. split; [by constructor|]. intros x [->|Hi]%elem_of_cons.
        -- split; [done|]. by exists R0.
        -- destruct (H x Hi) as (_ & X & HX & E). split; [done|]. exists X. split; [by apply Hq'|done].
      * destruct (g_refs m M HM0) as [Hnd H]. split; [done|]. intros x Hi. destruct (H x Hi) as (_ & X & HX & E).
        split; [done|]. exists X. split; [by apply Hq'|done].
    + intros m M' q HM Hp. destruct (Hl m M' HM) as (M & HM0 & E & _). rewrite E in Hp. by eapply Hsome, g_proc.
    + destruct g_dead as [? Hdd]. split; [done|]. intros m. rewrite Hset. apply Hdd.
    + destruct g_threads as [T1 T2]. split; [|intros u U HU; by eapply Hsome, T2].
      intros q Q' u HQ. destruct (Hprocs q Q' HQ) as [[-> ->]|[_ HQ0]]; [by apply (T1 p P)|by apply (T1 q Q')].
    + intros x X [[-> ->]|[_ HX]]%Hq; [done|by eapply g_udesc].
    + intros c m Hc. destruct (g_mgr c m Hc) as (_ & M & q & Q0 & HM & Hqq & HQ & Hctx). split; [done|].
      destruct (Hl' m M HM) as (M' & HM' & E & _). exists M', q.
      destruct (decide (q = p)) as [->|Hne].
      * exists (set_refs_trees td tn P). unfold s' at 2. cbn [procs set_procs]. rewrite lookup_insert_eq, E.
        simplify_eq. done.
      * exists Q0. unfold s' at 2. cbn [procs set_procs]. rewrite lookup_insert_ne, E by done. done.
  - destruct C as [Cr Cn]. split.
    + intros x X [[-> ->]|[_ HX]]%Hq; [simpl; unfold two31; lia|by eapply Cr].
    + intros m M' HM. destruct (Hl m M' HM) as (M & HM0 & _ & Hc).
      assert (Hsum : sum_over (rstrong s') (node_refs M) = sum_over (rstrong s) (node_refs M)).
      { apply sum_over_ext. intros x Hx. rewrite (proj2 (proj2 (Hkey x))).
        destruct (proj2 (g_refs _ _ _ G m M HM0) x Hx) as (_ & X & HX & _).
        rewrite decide_False by congruence. done. }
      destruct Hc as [(-> & -> & ->)|(Hne & ->)]; destruct (Cn _ _ HM0); split; try done.
      * simpl. rewrite Hsum, (proj2 (proj2 (Hkey r))). rewrite decide_True by done. simpl. lia.
      * by rewrite Hsum.
  - destruct Q. split; try done.
    + intros m l Hm. destruct (q_node m l Hm) as (_ & M & q & HM & Hp & ?). split; [done|].
      destruct (Hl' m M HM) as (M' & HM' & E & _). exists M', q. by rewrite E.
    + intros m M' HM _ _. destruct (Hl m M' HM) as (M & HM0 & _ & [(-> & -> & ->)|(Hne & ->)]).
      * left. by left.
      * by apply (q_held m M HM0).
  - destruct D. split; try done.
    + intros x X e [[-> ->]|[_ HX]]%Hq He; [done|]. destruct (d_ref x X e HX He) as (E & HE & H).
      exists E. split; [done|]. intros Hx l Hi. destruct (H Hx l Hi) as (? & m & M & Hm & HM & Hp). split; [done|].
      destruct (Hl' m M HM) as (M' & HM' & E' & _). exists m, M'. by rewrite E'.
    + intros x X y Y e [[-> ->]|[_ HX]]%Hq He [[-> ->]|[_ HY]]%Hq He'; [done..|]. by eapply d_own.
    + intros e E HE. destruct (d_free e E HE) as [(x & X & HX & He)|?]; [left|by right]. exists x, X.
      split; [by apply Hq'|done].
Qed.

Lemma cmp_ref_node_eq n s xr xn lo p P : inv_ xr xn lo s -> procs s !! p = Some P ->
  forall y, y ∈ rb_inorder (refs_by_node P) -> cmp_ref_node n y s = Some (Z.compare (Z.of_nat n) (rnode s y), s).
Proof.
  intros I HP y Hy. apply (g_byno _ _ _ (i_graph _ _ _ _ I) p P HP) in Hy as (Hx & R & HR & _).
  destruct (g_ref _ _ _ (i_graph _ _ _ _ I) y R HR Hx) as (_ & m & _ & Hm & _).
  unfold cmp_ref_node, rnode. erewrite bind_eq by by apply ref_at_eq. rewrite Hm.
  erewrite bind_eq by reflexivity. by rewrite HR, Hm.
Qed.

(** The handles in use in a process. *)
Definition has_desc (s : binder) (p : nat) (d : Z) : Prop :=
  exists r R, refs s !! r = Some R /\ ref_proc R = p /\ desc (ref_data R) = d.

(** The handle a new reference gets: the least free one, from 0 on for the
    context manager, from 1 on for any other node. *)
Definition least_desc (s : binder) (p n : nat) (P : binder_proc) (d : Z) : Prop :=
  let d0 := if bool_decide (binder_context_mgr_node s !! proc_context P = Some n) then 0 else 1 in
  d0 <= d /\ ~ has_desc s p d /\ forall x, d0 <= x < d -> has_desc s p x.

(** A process's handles leave one free. *)
Definition desc_room (P : binder_proc) : Prop := Z.of_nat (length (rb_inorder (refs_by_desc P))) + 1 < two32.

(** The state with the new reference in place. *)
Definition ref_added (p n r : nat) (N : binder_node) (td tn : rb_tree) (P : binder_proc) (d : Z) (s : binder) : binder :=
  let id := s32 (binder_last_id s + 1) in
  set_last_id id (set_stats (bump BINDER_STAT_REF (obj_created s)) (obj_deleted s)
    (set_procs (<[p := set_refs_trees td tn P]> (procs s))
      (ref_set r (new_ref_at id d p n) (node_set n (set_node_refs (r :: node_refs N) N) s)))).

Lemma insert_new_ref_ok p P n N r tn s : inv s -> procs s !! p = Some P -> refs s !! r = None ->
  nodes s !! n = Some N -> desc_room P ->
  exists d td, insert_new_ref p n r tn s = Some (r, ref_added p n r N td (rb_insert_color r tn) P d s) /\
    least_desc s p n P d /\ is_u32 d /\ rb_keyed (fun q => if decide (q = r) then d else rdesc s q) td /\
    (forall q, q ∈ rb_inorder td <-> q = r \/ q ∈ rb_inorder (refs_by_desc P)).
Proof.
  intros I HP Hfree HN Hroom. pose proof (g_desc _ _ _ (i_graph _ _ _ _ I) p P HP) as [Hk Hin].
  unfold insert_new_ref. set (id := s32 (binder_last_id s + 1)).
  set (s1 := set_last_id id (set_stats (bump BINDER_STAT_REF (obj_created s)) (obj_deleted s) s)).
  set (s2 := set_procs (<[p := set_refs_trees (refs_by_desc P) (rb_insert_color r tn) P]> (procs s)) s1).
  erewrite bind_eq by reflexivity. erewrite bind_eq by apply next_id_eq. erewrite bind_eq by by apply (proc_at_eq p P).
  erewrite bind_eq by reflexivity. erewrite bind_eq by reflexivity.
  set (d0 := if bool_decide (binder_context_mgr_node s !! proc_context P = Some n) then 0 else 1).
  assert (Hlive : forall q, q ∈ rb_inorder (refs_by_desc P) -> exists Q, refs s !! q = Some Q /\ ref_proc Q = p).
  { intros q (_ & Q & HQ & Hp)%Hin. by exists Q. }
  assert (Hu : forall q, q ∈ rb_inorder (refs_by_desc P) -> is_u32 (rdesc s q)).
  { intros q Hq. destruct (Hlive q Hq) as (Q & HQ & _). unfold rdesc. rewrite HQ.
    by apply (g_udesc _ _ _ (i_graph _ _ _ _ I) q). }
  destruct (next_desc_ok s2 (rb_inorder (refs_by_desc P)) d0) as (d & Ed & Hb & Hno & Hall).
  { exact Hk. } { intros q Hq. destruct (Hlive q Hq) as (Q & HQ & _). by exists Q. }
  { unfold d0. case_if; lia. } { unfold d0, desc_room in *. case_if; lia. }
  { intros q Hq. specialize (Hu q Hq). unfold is_u32 in Hu. change (rdesc s2 q) with (rdesc s q). unfold d0. case_if; lia. }
  erewrite bind_eq by exact Ed. erewrite bind_eq by reflexivity. set (R0 := Ref _ _ _ _).
  assert (Hnr : r ∉ rb_inorder (refs_by_desc P)) by (intros Hr; destruct (Hlive r Hr) as (Q & HQ & _); congruence).
  destruct (rb_link_spec (cmp_ref_desc d) (rdesc s) r d (set_refs (<[r := R0]> (refs s2)) s2) (refs_by_desc P) Hk)
    as (res & El & Hres).
  { intros y Hy. destruct (Hlive y Hy) as (Q & HQ & _). unfold cmp_ref_desc, rdesc. rewrite HQ.
    erewrite bind_eq by (apply ref_at_eq; cbn [refs set_refs]; rewrite lookup_insert_ne by congruence; exact HQ). done. }
  erewrite bind_eq by exact El. destruct res as [y|t].
  { destruct Hres as [Hy1 Hy2]. by destruct (Hno y Hy1). }
  destruct Hres as (l1 & l2 & E1 & E2 & H1 & H2).
  exists d, (rb_insert_color r t). split.
  { erewrite bind_eq by reflexivity. erewrite bind_eq by (by apply (upd_node_eq n _ N)). unfold ret, ref_added.
    fold id. apply (f_equal (fun x => Some (r, x))). unfold s2, s1. simpl.
    by rewrite insert_insert_eq. }
  assert (Hd0 : 0 <= d0 <= 1) by (unfold d0; case_if; lia).
  assert (Hdu : is_u32 d) by (unfold is_u32, desc_room in *; lia).
  split; [|split; [done|split]].
  - split; [exact (proj1 Hb)|]. split.
    + intros (q & Q & HQ & Hp & Hd). apply (Hno q); [apply Hin; split; [done|by exists Q]|].
      unfold rdesc. simpl. by rewrite HQ.
    + intros x Hx. destruct (Hall x Hx) as (q & Hq & Hd). destruct (Hlive q Hq) as (Q & HQ & Hp).
      exists q, Q. split_and!; try done. unfold rdesc in Hd. simpl in Hd. by rewrite HQ in Hd.
  - eapply (rb_keyed_link _ r (refs_by_desc P) _ l1 l2); [|exact E1|by rewrite rb_insert_color_inorder| |].
    + eapply rb_keyed_ext; [|exact Hk]. intros q Hq. simpl. rewrite decide_False; [done|]. by intros ->.
    + intros y Hy. rewrite (decide_True (P := r = r)), decide_False; [by apply H1| |done].
      intros ->. apply Hnr. rewrite E1. apply elem_of_app. by left.
    + intros y Hy. rewrite (decide_True (P := r = r)), decide_False; [by apply H2| |done].
      intros ->. apply Hnr. rewrite E1. apply elem_of_app. by right.
  - intros q. rewrite rb_insert_color_inorder, E1, E2, !elem_of_app, elem_of_cons. tauto.
Qed.

(** [binder_get_ref_for_node_olocked]: the process's reference to the node, a
    new one if there is none and an allocation is at hand. *)
Lemma get_ref_for_node_inv p P n N new_ref s : inv s -> procs s !! p = Some P -> nodes s !! n = Some N ->
  desc_room P -> (forall r, new_ref = Some r -> refs s !! r = None) ->
  exists res s', binder_get_ref_for_node_olocked p n new_ref s = Some (res, s') /\ inv s' /\
    match res with
    | None => s' = s /\ new_ref = None /\
        forall r R, refs s !! r = Some R -> ref_proc R = p -> ref_node R <> Some n
    | Some r => (exists R, s' = s /\ refs s !! r = Some R /\ ref_proc R = p /\ ref_node R = Some n) \/
        new_ref = Some r /\ (forall r R, refs s !! r = Some R -> ref_proc R = p -> ref_node R <> Some n) /\
        exists d td tn, least_desc s p n P d /\ s' = ref_added p n r N td tn P d s
    end.
Proof.
  intros I HP HN Hroom Hfree. pose proof (g_byno _ _ _ (i_graph _ _ _ _ I) p P HP) as [Hk Hin].
  unfold binder_get_ref_for_node_olocked. erewrite bind_eq by by apply proc_at_eq.
  destruct (rb_link_spec (cmp_ref_node n) (rnode s) (default 0%nat new_ref) (Z.of_nat n) s (refs_by_node P) Hk)
    as (res & E & Hres); [by eapply cmp_ref_node_eq|].
  erewrite bind_eq by exact E. destruct res as [r|t].
  { destruct Hres as [Hr Hkey]. apply Hin in Hr as (Hx & R & HR & Hp).
    destruct (g_ref _ _ _ (i_graph _ _ _ _ I) r R HR Hx) as (_ & m & _ & Hm & _).
    unfold rnode in Hkey. rewrite HR, Hm in Hkey. simpl in Hkey.
    exists (Some r), s. split; [done|]. split; [done|]. left. exists R. split_and!; try done. rewrite Hm. f_equal. lia. }
  destruct Hres as (l1 & l2 & E1 & E2 & H1 & H2).
  assert (Hnone : forall r R, refs s !! r = Some R -> ref_proc R = p -> ref_node R <> Some n).
  { intros r R HR Hp Hn. assert (Hr : r ∈ l1 \/ r ∈ l2).
    { apply elem_of_app. rewrite <- E1. apply Hin. split; [done|by exists R]. }
    assert (Hkey : rnode s r = Z.of_nat n) by (unfold rnode; by rewrite HR, Hn).
    destruct Hr as [Hr|Hr]; [specialize (H1 r Hr)|specialize (H2 r Hr)]; lia. }
  destruct new_ref as [r|]; [|by exists None, s].
  specialize (Hfree r eq_refl). simpl in E2.
  assert (Hnr : r ∉ rb_inorder (refs_by_node P)) by (intros (_ & R & HR & _)%Hin; congruence).
  destruct (insert_new_ref_ok p P n N r t s I HP Hfree HN Hroom) as (d & td & Ei & Hl & Hdu & Hkd & Hind).
  erewrite bind_eq by exact Ei. eexists (Some r), _. split; [reflexivity|].
  split; [|right; split; [done|split; [done|by exists d, td, (rb_insert_color r t)]]].
  eapply inv_alike; [apply (inv_add_ref p P td (rb_insert_color r t) r n N (s32 (binder_last_id s + 1)) d s)|by apply alike_same];
    try done.
  - eapply (rb_keyed_link _ r (refs_by_node P) _ l1 l2); [|exact E1|by rewrite rb_insert_color_inorder| |].
    + eapply rb_keyed_ext; [|exact Hk]. intros q Hq. simpl. rewrite decide_False; [done|]. by intros ->.
    + intros y Hy. rewrite (decide_True (P := r = r)), decide_False; [by apply H1| |done].
      intros ->. apply Hnr. rewrite E1. apply elem_of_app. by left.
    + intros y Hy. rewrite (decide_True (P := r = r)), decide_False; [by apply H2| |done].
      intros ->. apply Hnr. rewrite E1. apply elem_of_app. by right.
  - intros q. rewrite rb_insert_color_inorder, E1, E2, !elem_of_app, elem_of_cons. tauto.
Qed.

(** Counting reference [r] (whose data is [R]) of node [n] ([N]): done, or
    refused because the owner would have to be told and there is no list. *)
Definition counted_ref (r : nat) (R : binder_ref) (n : nat) (N : binder_node) (strong_ : bool)
    (target : option worklist) (s : binder) (rv : Z) (rd : binder_ref_data) (s' : binder) : Prop :=
  (rv = - EINVAL /\ s' = s /\ target = None /\ count_of strong_ R = 0 /\ rd = ref_data R /\
     (if strong_ then internal_strong_refs N = 0 /\ ~ (is_mgr s n /\ has_strong_ref N = true)
      else has_weak_ref N = false /\ (forall l, WNode n ∉ queue l s))) \/
  (rv = 0 /\ rd = ref_data (bumped 1 strong_ R) /\ refs s' = <[r := bumped 1 strong_ R]> (refs s) /\
     nodes s' = <[n := add_internal (b2z (strong_ && (strong (ref_data R) =? 0))) N]> (nodes s)).

(** Where the reference comes from. *)
Definition ref_source (p : nat) (P : binder_proc) (n : nat) (N : binder_node) (kz : option nat) (s : binder)
    (r : nat) (R : binder_ref) (N1 : binder_node) (s1 : binder) : Prop :=
  (s1 = s /\ refs s !! r = Some R /\ ref_proc R = p /\ ref_node R = Some n /\ N1 = N) \/
  (kz = Some r /\ (forall r R, refs s !! r = Some R -> ref_proc R = p -> ref_node R <> Some n) /\
     N1 = set_node_refs (r :: node_refs N) N /\
     exists d td tn, least_desc s p n P d /\ R = new_ref_at (s32 (binder_last_id s + 1)) d p n /\
       s1 = ref_added p n r N td tn P d s).

Lemma inc_ref_for_node_locked_inv p P n N strong_ target new_ref s : inv s -> procs s !! p = Some P ->
  nodes s !! n = Some N -> desc_room P -> (forall r, new_ref = Some r -> refs s !! r = None) ->
  internal_strong_refs N + 1 < two31 -> ref_room s -> target_ok s N target ->
  exists res s', inc_ref_for_node_locked p n strong_ target new_ref s = Some (res, s') /\ inv s' /\
    match res with
    | None => s' = s /\ new_ref = None /\
        forall r R, refs s !! r = Some R -> ref_proc R = p -> ref_node R <> Some n
    | Some (rv, rd) => exists r R N1 s1, ref_source p P n N new_ref s r R N1 s1 /\ counting_frame s1 s' /\
        counted_ref r R n N1 strong_ target s1 rv rd s'
    end.
Proof.
  intros I HP HN Hroom Hfree Hnr Hrr Ht. unfold inc_ref_for_node_locked.
  destruct (get_ref_for_node_inv p P n N new_ref s I HP HN Hroom Hfree) as (res & s1 & E & I1 & Hres).
  erewrite bind_eq by exact E. destruct res as [r|]; [|destruct Hres as (-> & ? & ?); by exists None, s].
  assert (Hsrc : exists R N1, ref_source p P n N new_ref s r R N1 s1 /\ refs s1 !! r = Some R /\ ref_node R = Some n /\
    nodes s1 !! n = Some N1 /\ internal_strong_refs N1 + 1 < two31 /\ target_ok s1 N1 target /\
    strong (ref_data R) + 1 < two31 /\ weak (ref_data R) + 1 < two31).
  { destruct Hres as [(R & -> & HR & Hp & Hn)|(-> & Hno & d & td & tn & Hl & ->)].
    - destruct (Hrr r R HR). exists R, N. split; [by left|]. done.
    - exists (new_ref_at (s32 (binder_last_id s + 1)) d p n), (set_node_refs (r :: node_refs N) N).
      split; [right; split_and!; try done; by exists d, td, tn|].
      split; [unfold ref_added; simpl; by rewrite lookup_insert_eq|]. split; [done|].
      split; [unfold ref_added; simpl; by rewrite lookup_insert_eq|]. split; [done|]. split; [done|].
      simpl. unfold two31. lia. }
  destruct Hsrc as (R & N1 & Hsrc & HR & Hn & HN1 & Hnr1 & Ht1 & Hs1 & Hw1).
  destruct (inc_ref_inv r R n N1 strong_ target s1 I1 HR Hn HN1 Ht1 Hnr1 Hs1 Hw1) as (rv & s2 & E2 & I2 & F2 & Hres2).
  erewrite bind_eq by exact E2.
  assert (HR2 : exists R2, refs s2 !! r = Some R2 /\ counted_ref r R n N1 strong_ target s1 rv (ref_data R2) s2).
  { destruct Hres2 as [(-> & -> & -> & ? & ?)|(-> & Er & ?)].
    - exists R. split; [done|]. by left.
    - exists (bumped 1 strong_ R). split; [by rewrite Er, lookup_insert_eq|]. by right. }
  destruct HR2 as (R2 & HR2 & Hc). erewrite bind_eq by by apply ref_at_eq.
  eexists (Some (rv, ref_data R2)), s2. split; [done|]. split; [done|]. by exists r, R, N1, s1.
Qed.

(** [binder_inc_ref_for_node]: an existing reference is used as it is; a new
    one needs an allocation. *)
Lemma inc_ref_for_node_inv p P n N strong_ target kz s : inv s -> procs s !! p = Some P ->
  nodes s !! n = Some N -> desc_room P -> (forall r, kz = Some r -> refs s !! r = None) ->
  internal_strong_refs N + 1 < two31 -> ref_room s -> target_ok s N target ->
  exists rv rd s', binder_inc_ref_for_node p n strong_ target kz s = Some ((rv, rd), s') /\ inv s' /\
    ((rv = - ENOMEM /\ rd = None /\ s' = s /\ kz = None /\
        forall r R, refs s !! r = Some R -> ref_proc R = p -> ref_node R <> Some n) \/
     exists r R N1 s1 rd', ref_source p P n N kz s r R N1 s1 /\ counting_frame s1 s' /\ rd = Some rd' /\
       counted_ref r R n N1 strong_ target s1 rv rd' s').
Proof.
  intros I HP HN Hroom Hfree Hnr Hrr Ht. unfold binder_inc_ref_for_node.
  destruct (inc_ref_for_node_locked_inv p P n N strong_ target None s I HP HN Hroom) as (res & s1 & E & I1 & Hres);
    [done..|].
  erewrite bind_eq by exact E. destruct res as [[rv rd]|].
  { destruct Hres as (r & R & N1 & s2 & Hsrc & F & Hc). exists rv, (Some rd), s1. split; [done|]. split; [done|]. right.
    exists r, R, N1, s2, rd. split_and!; try done. destruct Hsrc as [?|[? _]]; [by left|done]. }
  destruct Hres as (-> & _ & Hno). destruct kz as [k|].
  2:{ exists (- ENOMEM), None, s. split; [done|]. split; [done|]. by left. }
  destruct (inc_ref_for_node_locked_inv p P n N strong_ target (Some k) s I HP HN Hroom) as (res & s1 & E2 & I2 & Hres);
    [done..|].
  erewrite bind_eq by exact E2. destruct res as [[rv rd]|]; [|by destruct Hres as (_ & ? & _)].
  erewrite bind_eq by reflexivity. destruct Hres as (r & R & N1 & s2 & Hsrc & F & Hc).
  exists rv, (Some rd), s1. split; [done|]. split; [done|]. right. by exists r, R, N1, s2, rd.
Qed.
End refs.
