(* ===== verification/BinderNodeDrop.v ===== *)
(** * Binder references: dropping counts and cleaning up

    A reference whose last count goes is unlinked from its process and its
    node, its pending notification is withdrawn, and with it may go the node. *)

From Stdlib Require Import ZArith Lia.
From stdpp Require Import base option gmap sets list sorting.
From S2P Require Import Prelude RbTree BinderNode BinderNodeFacts BinderNodeInv BinderNodeOps.
From S2P Require Import BinderNodeRef.

Section drop.
Context `{RB : Rbtree} {RBL : RbtreeLaws}.

(** ** Taking a reference out of the graph *)

(** The node without the reference. *)
Definition without (r : nat) (R : binder_ref) (N : binder_node) : binder_node :=
  set_node_refs (list_del r (node_refs N)) (add_internal (- holds_strong (strong (ref_data R))) N).

Definition erased (p : nat) (P : binder_proc) (r : nat) (s : binder) : binder :=
  set_procs (<[p := set_refs_trees (rb_erase r (refs_by_desc P)) (rb_erase r (refs_by_node P)) P]> (procs s)) s.

Definition detached (p : nat) (P : binder_proc) (r : nat) (R : binder_ref) (n : nat) (N : binder_node) (s : binder) : binder :=
  erased p P r (node_set n (without r R N) s).

Lemma graph_detached p P r R n N s : inv s -> refs s !! r = Some R -> ref_proc R = p -> ref_node R = Some n ->
  procs s !! p = Some P -> nodes s !! n = Some N -> graph (Some r) None (detached p P r R n N s).
Proof.
  intros I HR Hp Hn HP HN. set (s' := detached _ _ _ _ _ _ _). pose proof (i_graph _ _ _ _ I) as G.
  assert (Hl : forall m M', nodes s' !! m = Some M' -> exists M, nodes s !! m = Some M /\ node_proc M' = node_proc M /\
    (m = n /\ M' = without r R N /\ M = N \/ m <> n /\ M' = M)).
  { intros m M' HM. unfold s' in HM. cbn [nodes detached erased set_procs] in HM. rewrite node_set_lookup in HM.
    case_decide; simplify_eq; [exists N|exists M']; split_and!; try done; [by left|by right]. }
  assert (Hl' : forall m M, nodes s !! m = Some M -> exists M', nodes s' !! m = Some M' /\ node_proc M' = node_proc M /\
    forall q, q <> r -> q ∈ node_refs M -> q ∈ node_refs M').
  { intros m M HM. unfold s'. cbn [nodes detached erased set_procs]. rewrite node_set_lookup.
    case_decide; [|by exists M]. subst m. exists (without r R N). assert (M = N) as -> by congruence. split_and!; try done.
    intros q Hq Hi. simpl. by apply elem_of_list_del. }
  assert (Hset : forall q m, (None <> Some m /\ exists M, nodes s' !! m = Some M /\ node_proc M = q) <->
    (None <> Some m /\ exists M, nodes s !! m = Some M /\ node_proc M = q)).
  { intros q m. split; intros (? & M & HM & Hq); (split; [done|]).
    - destruct (Hl m M HM) as (M0 & ? & ? & _). exists M0. split; [done|congruence].
    - destruct (Hl' m M HM) as (M0 & ? & ? & _). exists M0. split; [done|congruence]. }
  assert (Hprocs : forall q Q', procs s' !! q = Some Q' -> q = p /\ Q' = set_refs_trees (rb_erase r (refs_by_desc P))
    (rb_erase r (refs_by_node P)) P \/ q <> p /\ procs s !! q = Some Q').
  { intros q Q'. unfold s'. cbn [procs detached erased set_procs node_set set_nodes]. rewrite lookup_insert.
    intros HQ. case_decide; simplify_eq; [by left|by right]. }
  assert (Hsome : forall q, is_Some (procs s !! q) -> is_Some (procs s' !! q)).
  { intros q [Q' HQ]. unfold s'. cbn [procs detached erased set_procs node_set set_nodes]. rewrite lookup_insert.
    case_decide; by eexists. }
  assert (Hown : forall q x, (Some r <> Some x /\ exists X, refs s !! x = Some X /\ ref_proc X = q) <->
    x <> r /\ None <> Some x /\ exists X, refs s !! x = Some X /\ ref_proc X = q).
  { intros q x. split; [intros [Hx H]; split; [congruence|done]|intros (Hx & _ & H); split; [congruence|done]]. }
  assert (Hother : forall q x, q <> p -> (None <> Some x /\ exists X, refs s !! x = Some X /\ ref_proc X = q) <->
    (Some r <> Some x /\ exists X, refs s !! x = Some X /\ ref_proc X = q)).
  { intros q x Hq. rewrite Hown. split; [|by intros [_ H]]. intros (Hx & X & HX & HXq). split; [congruence|].
    split; [done|by exists X]. }
  destruct G. split; try done.
  - intros q Q' HQ. assert (HQ0 : exists Q0, procs s !! q = Some Q0 /\ proc_nodes Q' = proc_nodes Q0).
    { destruct (Hprocs q Q' HQ) as [[-> ->]|[_ HQ0]]; [by exists P|by exists Q']. }
    destruct HQ0 as (Q0 & HQ0 & ->). eapply holds_set_ext; [by apply g_nodes|intros m; symmetry; apply Hset|].
    intros m _. unfold nptr, s'. cbn [nodes detached erased set_procs]. rewrite node_set_lookup.
    case_decide; [subst m; by rewrite HN|done].
  - intros q Q' HQ. destruct (Hprocs q Q' HQ) as [[-> ->]|[Hne HQ0]].
    + eapply (holds_set_erase _ _ _ r); [exact (g_desc p P HP)|split; [done|by exists R]|apply Hown].
    + eapply holds_set_ext; [by apply g_desc|intros x; exact (Hother q x Hne)|done].
  - intros q Q' HQ. destruct (Hprocs q Q' HQ) as [[-> ->]|[Hne HQ0]].
    + eapply (holds_set_erase _ _ _ r); [exact (g_byno p P HP)|split; [done|by exists R]|apply Hown].
    + eapply holds_set_ext; [by apply g_byno|intros x; exact (Hother q x Hne)|done].
  - intros x X HX Hx. destruct (g_ref x X HX ltac:(done)) as (? & m & M & Hm & HM & Hi). split; [by apply Hsome|].
    destruct (Hl' m M HM) as (M' & HM' & _ & Hsub). exists m, M'. split_and!; try done. apply Hsub; [congruence|done].
  - intros m M' HM. destruct (Hl m M' HM) as (M & HM0 & _ & [(-> & -> & ->)|(Hne & ->)]);
      destruct (g_refs _ _ HM0) as [Hnd H].
    + split; [by apply list_del_NoDup|]. intros x [Hx Hi]%elem_of_list_del. destruct (H x Hi) as [_ ?].
      split; [congruence|done].
    + split; [done|]. intros x Hi. destruct (H x Hi) as (_ & X & HX & E). split; [|by exists X].
      intros [= <-]. congruence.
  - intros m M' q HM Hq. destruct (Hl m M' HM) as (M & HM0 & E & _). rewrite E in Hq. by eapply Hsome, g_proc.
  - destruct g_dead as [? Hd]. split; [done|]. intros m. rewrite Hset. apply Hd.
  - destruct g_threads as [T1 T2]. split; [|intros u U HU; by eapply Hsome, T2].
    intros q Q' u HQ. destruct (Hprocs q Q' HQ) as [[-> ->]|[_ HQ0]]; [by apply (T1 p P)|by apply (T1 q Q')].
  - intros c m Hc. destruct (g_mgr c m Hc) as (_ & M & q & Q0 & HM & Hq & HQ & Hctx). split; [done|].
    destruct (Hl' m M HM) as (M' & HM' & E & _). exists M', q. destruct (decide (q = p)) as [->|Hne].
    + eexists. unfold s' at 2. cbn [procs detached erased set_procs]. rewrite lookup_insert_eq, E.
      split_and!; try done. simpl. congruence.
    + exists Q0. unfold s' at 2. cbn [procs detached erased set_procs]. rewrite lookup_insert_ne, E by done. done.
Qed.

Lemma inv_detached p P r R n N s : inv s -> refs s !! r = Some R -> ref_proc R = p -> ref_node R = Some n ->
  procs s !! p = Some P -> nodes s !! n = Some N -> inv_ (Some r) None (Some n) (detached p P r R n N s).
Proof.
  intros I HR Hp Hn HP HN. split; [by apply graph_detached|..].
  - destruct (i_counted _ _ _ _ I) as [Cr Cn]. split; [done|]. intros m M HM.
    cbn [nodes detached erased set_procs] in HM. rewrite node_set_lookup in HM. case_decide as Hm; simplify_eq.
    + destruct (Cn n N HN), (g_ref _ _ _ (i_graph _ _ _ _ I) r R HR ltac:(done)) as (_ & ? & ? & ? & ? & Hi).
      simplify_eq. split; try done; [|simpl; unfold holds_strong; case_if; lia]. simpl. rewrite nc_internal.
      change (rstrong (detached (ref_proc R) P r R n N s)) with (rstrong s).
      rewrite sum_over_del; [|by apply (g_refs _ _ _ (i_graph _ _ _ _ I) n)|done].
      unfold rstrong at 3. rewrite HR. unfold holds_strong. lia.
    + by destruct (Cn m M HM).
  - destruct (i_queued _ _ _ _ I). split; try done.
    + intros m l Hm. destruct (q_node m l Hm) as (_ & M & q & HM & Hq & ?). split; [done|].
      cbn [nodes detached erased set_procs]. rewrite node_set_lookup. case_decide; simplify_eq; [by eexists _, q|by exists M, q].
    + intros m M HM _ Hlo. cbn [nodes detached erased set_procs] in HM. rewrite node_set_lookup in HM.
      case_decide; [congruence|]. by apply (q_held m M HM).
  - destruct (i_notified _ _ _ _ I). split; try done. intros x X d HX Hd.
    destruct (d_ref x X d HX Hd) as (D & HD & H). exists D. split; [done|]. intros Hx l Hi.
    destruct (H ltac:(done) l Hi) as (? & m & M & Hm & HM & Hq). split; [done|].
    cbn [nodes detached erased set_procs]. exists m. rewrite node_set_lookup.
    case_decide; simplify_eq; [by eexists|by exists M].
Qed.

(** The cleaned-up reference loses its node. *)
Lemma inv_ref_unbound r R xn lo s : inv_ (Some r) xn lo s -> refs s !! r = Some R ->
  inv_ (Some r) xn lo (ref_set r (Ref (ref_data R) (ref_proc R) None (ref_death R)) s).
Proof.
  intros I HR. set (R' := Ref _ _ _ _). set (s' := ref_set _ _ _).
  assert (Hq : forall q Q', refs s' !! q = Some Q' -> exists Q, refs s !! q = Some Q /\ ref_proc Q' = ref_proc Q /\
    ref_data Q' = ref_data Q /\ ref_death Q' = ref_death Q /\ (q <> r -> Q' = Q)).
  { intros q Q' HQ. unfold s' in HQ. rewrite ref_set_lookup in HQ.
    case_decide; simplify_eq; [exists R|exists Q']; split_and!; done. }
  assert (Hq' : forall q Q, refs s !! q = Some Q -> exists Q', refs s' !! q = Some Q' /\ ref_proc Q' = ref_proc Q /\
    ref_death Q' = ref_death Q /\ (q <> r -> Q' = Q)).
  { intros q Q HQ. unfold s'. rewrite ref_set_lookup. case_decide; simplify_eq; [exists R'|exists Q]; split_and!; done. }
  assert (Hrset : forall p q, (Some r <> Some q /\ exists Q, refs s !! q = Some Q /\ ref_proc Q = p) <->
    (Some r <> Some q /\ exists Q, refs s' !! q = Some Q /\ ref_proc Q = p)).
  { intros p q. split; intros (? & M & HM & Hp); (split; [done|]).
    - destruct (Hq' q M HM) as (M0 & ? & ? & _). exists M0. split; [done|congruence].
    - destruct (Hq q M HM) as (M0 & ? & ? & _). exists M0. split; [done|congruence]. }
  assert (Hkey : forall q, rdesc s' q = rdesc s q /\ rstrong s' q = rstrong s q /\ (q <> r -> rnode s' q = rnode s q)).
  { intros q. unfold rdesc, rnode, rstrong, s'. rewrite ref_set_lookup. case_decide; [subst; by rewrite HR|done]. }
  destruct I as [G C Q D]. split.
  - destruct G. split; try done.
    + intros p P HP. eapply holds_set_ext; [by apply g_desc|apply Hrset|intros q _; apply Hkey].
    + intros p P HP. eapply holds_set_ext; [by apply g_byno|apply Hrset|intros q [? _]; apply Hkey; congruence].
    + intros q Q' HQ Hx. destruct (Hq q Q' HQ) as (Q0 & HQ0 & _ & _ & _ & E). rewrite E by congruence. by apply g_ref.
    + intros m M HM. destruct (g_refs m M HM) as [? H]. split; [done|]. intros q Hi.
      destruct (H q Hi) as (Hx & Q0 & HQ0 & E). split; [done|]. destruct (Hq' q Q0 HQ0) as (Q' & HQ' & _ & _ & E').
      rewrite E' in HQ' by congruence. by exists Q0.
    + intros q Q' HQ. destruct (Hq q Q' HQ) as (Q0 & HQ0 & _ & -> & _). by eapply g_udesc.
  - destruct C as [Cr Cn]. split.
    + intros q Q' HQ. destruct (Hq q Q' HQ) as (Q0 & HQ0 & _ & -> & _). by eapply Cr.
    + intros m M HM. destruct (Cn m M HM). split; try done. rewrite nc_internal. apply sum_over_ext.
      intros q _. symmetry. apply Hkey.
  - by destruct Q.
  - destruct D. split; try done.
    + intros q Q' d HQ Hd. destruct (Hq q Q' HQ) as (Q0 & HQ0 & _ & _ & E & E'). rewrite E in Hd.
      destruct (d_ref q Q0 d HQ0 Hd) as (D & HD & H). exists D. split; [done|]. intros Hx. rewrite E' by congruence. by apply H.
    + intros q1 Q1 q2 Q2 d H1 Hd1 H2 Hd2. destruct (Hq q1 Q1 H1) as (R1 & HR1 & _ & _ & E1 & _).
      destruct (Hq q2 Q2 H2) as (R2 & HR2 & _ & _ & E2 & _). apply (d_own q1 R1 q2 R2 d); congruence.
    + intros d D HD. destruct (d_free d D HD) as [(q & Q0 & HQ & Hd)|?]; [left|by right].
      destruct (Hq' q Q0 HQ) as (Q' & HQ' & _ & E & _). exists q, Q'. split; [done|congruence].
Qed.

(** Its notification leaves whatever list it is on. *)
Lemma inv_dequeue_death xr xn lo r R d s : inv_ xr xn lo s -> refs s !! r = Some R -> ref_death R = Some d ->
  inv_ xr xn lo (dequeued (WDeath d) s).
Proof.
  intros [G C Q D] HR Hd. split; [by destruct G; split|by destruct C; split; [|intros m M HM; destruct (c_node m M HM)]|..].
  - destruct Q. split.
    + intros l. rewrite queue_dequeued. by apply list_del_NoDup.
    + intros w l1 l2 [_ H1]%elem_dequeued [_ H2]%elem_dequeued. by eapply q_once.
    + intros m l [_ Hm]%elem_dequeued. by apply q_node.
    + intros m M HM Hx Hlo. destruct (q_held m M HM Hx Hlo) as [?|[l Hq]]; [by left|right].
      exists l. by apply elem_dequeued.
  - destruct D. split; try done.
    + intros q Q' e HQ He. destruct (d_ref q Q' e HQ He) as (E & HE & H). exists E. split; [done|].
      intros Hx l [_ Hi]%elem_dequeued. by apply (H Hx l).
    + intros e l [_ Hi]%elem_dequeued. by eapply d_queue.
    + intros w p [_ Hi]%elem_dequeued. by eapply d_deliv.
    + intros e E HE. destruct (decide (e = d)) as [->|Hne]; [left; by exists r, R|].
      destruct (d_free e E HE) as [?|[[l Hi] ?]]; [by left|right]. split; [|done].
      exists l. apply elem_dequeued. split; [congruence|done].
Qed.

(** The cleaned-up reference and its notification are freed. *)
Lemma inv_free_ref r R s : inv_ (Some r) None None s -> refs s !! r = Some R ->
  (forall d, ref_death R = Some d -> forall l, WDeath d ∉ queue l s) ->
  inv (set_refs (delete r (refs s)) (set_deaths
    (match ref_death R with Some d => delete d (deaths s) | None => deaths s end) s)).
Proof.
  intros I HR Hno. set (s' := set_refs _ _).
  assert (Hq : forall q Q, refs s' !! q = Some Q <-> q <> r /\ refs s !! q = Some Q).
  { intros q Q. unfold s'. simpl. rewrite lookup_delete_Some. split; intros [? ?]; split; congruence. }
  assert (Hrset : forall p q, (Some r <> Some q /\ exists Q, refs s !! q = Some Q /\ ref_proc Q = p) <->
    (None <> Some q /\ exists Q, refs s' !! q = Some Q /\ ref_proc Q = p)).
  { intros p q. split.
    - intros (? & M & HM & Hp). split; [done|]. exists M. rewrite Hq. split; [split; [congruence|done]|done].
    - intros (_ & M & HM & Hp). apply Hq in HM as [? HM]. split; [congruence|by exists M]. }
  assert (Hkey : forall q, q <> r -> rdesc s' q = rdesc s q /\ rnode s' q = rnode s q /\ rstrong s' q = rstrong s q).
  { intros q Hne. unfold rdesc, rnode, rstrong, s'. simpl. by rewrite lookup_delete_ne by congruence. }
  destruct I as [G C Q D]. split.
  - destruct G. split; try done.
    + intros p P HP. eapply holds_set_ext; [by apply g_desc|apply Hrset|intros q [? _]; apply Hkey; congruence].
    + intros p P HP. eapply holds_set_ext; [by apply g_byno|apply Hrset|intros q [? _]; apply Hkey; congruence].
    + intros q Q' [? HQ]%Hq _. apply g_ref; [done|congruence].
    + intros m M HM. destruct (g_refs m M HM) as [? H]. split; [done|]. intros q Hi.
      destruct (H q Hi) as (Hx & Q0 & HQ0 & E). split; [done|]. exists Q0. split; [apply Hq; split; [congruence|done]|done].
    + intros q Q' [_ HQ]%Hq. by eapply g_udesc.
  - destruct C as [Cr Cn]. split; [intros q Q' [_ HQ]%Hq; by eapply Cr|]. intros m M HM. destruct (Cn m M HM).
    split; try done. rewrite nc_internal. apply sum_over_ext. intros q Hi. symmetry. apply Hkey.
    destruct (proj2 (g_refs _ _ _ G m M HM) q Hi) as [Hx _]. congruence.
  - by destruct Q.
  - destruct D. assert (Hd : forall e E, deaths s' !! e = Some E <-> ref_death R <> Some e /\ deaths s !! e = Some E).
    { intros e E. unfold s'. simpl. destruct (ref_death R) as [d|]; [|split; [by intros ?|by intros [_ ?]]].
      rewrite lookup_delete_Some. split; intros [? ?]; split; congruence. }
    split.
    + intros q Q' e [Hne HQ]%Hq He. destruct (d_ref q Q' e HQ He) as (E & HE & H). exists E.
      split; [apply Hd; split; [|done]; intros Hr; apply Hne; by eapply d_own|].
      intros _. apply H. congruence.
    + intros q1 Q1 q2 Q2 d [_ H1]%Hq Hd1 [_ H2]%Hq Hd2. by eapply d_own.
    + intros e l Hi. destruct (d_queue e l Hi) as [E HE]. exists E. apply Hd. split; [|done].
      intros Hr. by apply (Hno e Hr l).
    + intros w p Hi. destruct (d_deliv w p Hi) as (e & E & -> & HE & H). exists e, E. split; [done|]. split; [|done].
      apply Hd. split; [|done]. intros Hr. by apply (Hno e Hr _ Hi).
    + intros e E [Hr HE]%Hd. destruct (d_free e E HE) as [(q & Q0 & HQ & Hqd)|?]; [left|by right].
      exists q, Q0. split; [apply Hq; split; [congruence|done]|done].
Qed.

(** ** The clean-up *)

(** The node's owner may have been told, on its own list. *)
Definition maybe_told (n : nat) (N : binder_node) (s s0 : binder) : Prop :=
  s0 = s \/ exists p, node_proc N = Some p /\ (forall l, WNode n ∉ queue l s) /\ s0 = enqueued (proc_todo p) (WNode n) s.

Lemma inv_maybe_told n N s s0 : inv s -> nodes s !! n = Some N -> maybe_told n N s s0 -> inv s0 /\
  nodes s0 = nodes s /\ refs s0 = refs s /\ procs s0 = procs s /\ deaths s0 = deaths s /\ threads s0 = threads s /\
  binder_context_mgr_node s0 = binder_context_mgr_node s.
Proof.
  intros I HN [->|(p & Hp & Hno & ->)]; [done|]. split; [|done].
  eapply inv_enqueue_node; [exact I|exact HN|done|by left|exact Hp|done|done].
Qed.

(** The strong count the reference held goes back; the node stays. *)
Lemma cleanup_unref p P r R n N s : inv s -> refs s !! r = Some R -> ref_proc R = p -> ref_node R = Some n ->
  procs s !! p = Some P -> nodes s !! n = Some N ->
  exists s0 s2, (if negb (strong (ref_data R) =? 0) then binder_dec_node_nilocked n true true ;! ret tt else ret tt)
      (erased p P r s) = Some (tt, s2) /\ maybe_told n N s s0 /\
    alike (erased p P r (node_set n (add_internal (- holds_strong (strong (ref_data R))) N) s0)) s2 /\
    obj_created s2 = obj_created s /\ obj_deleted s2 = obj_deleted s /\ binder_warnings s2 = binder_warnings s.
Proof.
  intros I HR Hp Hn HP HN. pose proof (i_graph _ _ _ _ I) as G. unfold holds_strong.
  destruct (Z.eqb_spec (strong (ref_data R)) 0) as [Hs|Hs]; cbn [negb].
  { exists s, (erased p P r s). split; [done|]. split; [by left|]. change (- (0)) with 0.
    rewrite add_internal_0, node_set_same by done. split; [by apply alike_same|done]. }
  destruct (g_ref _ _ _ G r R HR ltac:(done)) as (_ & ? & ? & ? & ? & Hi). simplify_eq.
  pose proof (c_node _ (i_counted _ _ _ _ I) n N HN) as C.
  assert (Hint : 1 <= internal_strong_refs N).
  { rewrite (nc_internal _ _ _ C). clear -HR Hs Hi. apply list_elem_of_split in Hi as (l1 & l2 & ->).
    rewrite sum_over_app. simpl. assert (H0 : forall l, 0 <= sum_over (rstrong s) l).
    { induction l as [|x l IH]; simpl; [lia|]. unfold rstrong at 1. destruct (refs s !! x); [case_if|]; lia. }
    pose proof (H0 l1). pose proof (H0 l2). unfold rstrong at 2. rewrite HR. case_if; zbool; lia. }
  set (s1 := erased (ref_proc R) P r s).
  assert (Hth : threads_there s1).
  { intros q Q t HQ. unfold s1 in HQ. cbn [erased procs set_procs] in HQ. rewrite lookup_insert in HQ.
    case_decide; simplify_eq; [exact (proj1 (g_threads _ _ _ G) _ P t HP)|exact (proj1 (g_threads _ _ _ G) _ Q t HQ)]. }
  assert (Ho : owner_ok n N s1).
  { pose proof (owner_ok_inv _ _ _ _ _ I HN) as Ho. unfold owner_ok in *. destruct (node_proc N) as [q|]; [|exact Ho].
    destruct Ho as [Q HQ]. unfold s1. cbn [erased procs set_procs]. rewrite lookup_insert. case_decide; by eexists. }
  destruct (dec_node_ok n N true true s1 HN Hth Ho) as (b & s2 & E & Hpost).
  set (N1 := dropped true true N) in *. set (s1' := set_nodes (<[n := N1]> (nodes s1)) s1) in *.
  assert (Hheld : held N1) by (left; intros E0; simpl in E0; rewrite E0 in Hi; by apply not_elem_of_nil in Hi).
  destruct b; [by destruct Hpost as [? _]|]. destruct Hpost as [Ht _]. erewrite bind_eq by exact E.
  assert (EN : N1 = add_internal (- (1)) N).
  { unfold N1, dropped, add_internal. pose proof (nc_bound _ _ _ C).
    rewrite s32_int by (unfold is_int, two31 in *; lia). done. }
  destruct Ht as [->|(q & Hq & Hno & W)].
  - exists s, s1'. split; [done|]. split; [by left|]. split; [|done]. rewrite <- EN. by apply alike_same.
  - exists (enqueued (proc_todo q) (WNode n) s), s2. split; [done|]. split; [right; exists q; split_and!; done|].
    split; [|split_and!; apply W]. eapply alike_trans; [|by apply woke_alike]. rewrite <- EN. by apply alike_same.
Qed.

(** [binder_cleanup_ref_olocked], with [b] telling whether the node has to be
    freed along with the reference. *)
Definition cleaned (r : nat) (R : binder_ref) (n : nat) (N : binder_node) (b : bool) (s s' : binder) : Prop :=
  inv_ (Some r) (if b then Some n else None) None s' /\
  refs s' = <[r := Ref (ref_data R) (ref_proc R) (if b then Some n else None) (ref_death R)]> (refs s) /\
  (forall m, m <> n -> nodes s' !! m = nodes s !! m) /\ nodes s' !! n = Some (without r R N) /\
  (b = true -> ~ held (without r R N)) /\ deaths s' = deaths s /\ threads s' = threads s /\
  binder_context_mgr_node s' = binder_context_mgr_node s /\ binder_warnings s' = binder_warnings s /\
  (forall d, ref_death R = Some d -> forall l, WDeath d ∉ queue l s') /\
  (forall p P, procs s !! p = Some P -> exists P', procs s' !! p = Some P' /\ proc_context P' = proc_context P).

(** The last step: the reference's notification, and the statistics. *)
Lemma cleanup_tail r R n (b : bool) s s1 : inv_ (Some r) (if b then Some n else None) None s1 ->
  refs s1 = <[r := R]> (refs s) -> ref_node R = (if b then Some n else None) ->
  exists s', ((match ref_death R with
     | Some d => binder_dequeue_work (WDeath d) ;! binder_stats_deleted BINDER_STAT_DEATH | None => ret tt end) ;!
     binder_stats_deleted BINDER_STAT_REF) s1 = Some (tt, s') /\
  inv_ (Some r) (if b then Some n else None) None s' /\ refs s' = refs s1 /\ nodes s' = nodes s1 /\
  deaths s' = deaths s1 /\ threads s' = threads s1 /\ binder_context_mgr_node s' = binder_context_mgr_node s1 /\
  binder_warnings s' = binder_warnings s1 /\ procs s' = procs s1 /\
  (forall d, ref_death R = Some d -> forall l, WDeath d ∉ queue l s').
Proof.
  intros I Er Hn. destruct (ref_death R) as [d|] eqn:Hd.
  - assert (HR : refs s1 !! r = Some R) by (by rewrite Er, lookup_insert_eq).
    pose proof (inv_dequeue_death _ _ _ r R d s1 I HR Hd) as I2.
    eexists. split; [reflexivity|]. split; [eapply inv_alike; [exact I2|by apply alike_same]|].
    split_and!; try done. intros e [= <-] l. intros H. apply (elem_dequeued (WDeath d) l) in H as [H _]. done.
  - eexists. split; [reflexivity|]. split; [eapply inv_alike; [exact I|by apply alike_same]|]. by split_and!.
Qed.

Lemma cleanup_ref_inv r R n N s : inv s -> refs s !! r = Some R -> ref_node R = Some n -> nodes s !! n = Some N ->
  exists b s', binder_cleanup_ref_olocked r s = Some (tt, s') /\ cleaned r R n N b s s'.
Proof.
  intros I HR Hn HN. destruct (g_ref _ _ _ (i_graph _ _ _ _ I) r R HR ltac:(done)) as ([P HP] & _).
  unfold binder_cleanup_ref_olocked. erewrite bind_eq by by apply ref_at_eq. erewrite bind_eq by by apply (proc_at_eq _ P).
  erewrite bind_eq by reflexivity. rewrite Hn. erewrite bind_eq by reflexivity.
  fold (erased (ref_proc R) P r s).
  destruct (cleanup_unref _ P r R n N s I HR eq_refl Hn HP HN) as (s0 & s2 & E2 & Hs0 & A2 & _ & _ & W2).
  erewrite bind_eq by exact E2. set (N1 := add_internal _ N) in *.
  destruct (inv_maybe_told n N s s0 I HN Hs0) as (I0 & En0 & Er0 & Ep0 & Ed0 & Et0 & Em0).
  assert (HN2 : nodes s2 !! n = Some N1).
  { rewrite (al_nodes _ _ A2). cbn [nodes erased set_procs]. rewrite node_set_lookup. by rewrite decide_True. }
  erewrite bind_eq by (by apply (upd_node_eq n _ N1)). cbv beta.
  change (set_node_refs (list_del r (node_refs N1)) N1) with (without r R N).
  fold (node_set n (without r R N) s2). set (s3 := node_set n (without r R N) s2).
  assert (A3 : alike (detached (ref_proc R) P r R n N s0) s3).
  { eapply alike_trans; [|by apply alike_node_set]. unfold detached, erased. apply alike_same; try done.
    cbn [nodes node_set set_nodes set_procs]. by rewrite insert_insert_eq. }
  assert (I3 : inv_ (Some r) None (Some n) s3).
  { eapply inv_alike; [|exact A3]. apply inv_detached; try done; congruence. }
  assert (HN3 : nodes s3 !! n = Some (without r R N)) by (unfold s3; rewrite node_set_lookup; by rewrite decide_True).
  destruct (dec_node_inv (Some r) n (without r R N) false true s3 HN3) as (b & s4 & E4 & I4 & F4 & HN4 & Hb).
  { pose proof (node_set_same n _ s3 HN3) as Hs3. unfold node_set in Hs3. cbn [dropped]. by rewrite Hs3. }
  erewrite bind_eq by exact E4. exists b.
  assert (Er4 : refs s4 = refs s).
  { rewrite (df_refs _ _ _ F4). unfold s3. cbn [refs node_set set_nodes]. rewrite (al_refs _ _ A2). simpl. done. }
  set (R1 := Ref (ref_data R) (ref_proc R) (if b then Some n else None) (ref_death R)).
  set (s5 := if b then s4 else ref_set r R1 s4).
  assert (H5 : (if b then ret tt else put_ref_at r (Ref (ref_data R) (ref_proc R) None (ref_death R))) s4 = Some (tt, s5)).
  { unfold s5, R1. by destruct b. }
  assert (ER1 : b = true -> R1 = R) by (intros ->; unfold R1; rewrite <- Hn; by destruct R).
  assert (I5 : inv_ (Some r) (if b then Some n else None) None s5 /\ refs s5 = <[r := R1]> (refs s)).
  { unfold s5. destruct b; [split; [done|]|split].
    - rewrite ER1 by done. by rewrite Er4, insert_id.
    - apply inv_ref_unbound; [done|]. by rewrite Er4.
    - simpl. by rewrite Er4. }
  destruct I5 as [I5 Er5]. erewrite bind_eq by exact H5. change (ref_death R) with (ref_death R1).
  destruct (cleanup_tail r R1 n b s s5 I5 Er5 eq_refl) as (s' & E' & I' & Er' & En' & Ed' & Et' & Em' & Ew' & Ep' & Hq).
  exists s'. split; [exact E'|]. assert (Es5 : nodes s5 = nodes s4 /\ deaths s5 = deaths s4 /\ threads s5 = threads s4 /\
    binder_context_mgr_node s5 = binder_context_mgr_node s4 /\ binder_warnings s5 = binder_warnings s4 /\
    procs s5 = procs s4) by (unfold s5; by destruct b).
  destruct Es5 as (Z1 & Z2 & Z3 & Z4 & Z5 & Z6).
  split; [done|]. split; [by rewrite Er'|]. split_and!.
  - intros m Hm. rewrite En', Z1, (df_nodes _ _ _ F4) by done. unfold s3. rewrite node_set_lookup, decide_False by done.
    rewrite (al_nodes _ _ A2). cbn [nodes erased set_procs]. rewrite node_set_lookup, decide_False by done. by rewrite En0.
  - by rewrite En', Z1.
  - done.
  - rewrite Ed', Z2, (df_deaths _ _ _ F4). unfold s3. cbn [deaths node_set set_nodes]. by rewrite (al_deaths _ _ A2).
  - rewrite Et', Z3, (df_threads _ _ _ F4). unfold s3. cbn [threads node_set set_nodes]. by rewrite (al_threads _ _ A2).
  - rewrite Em', Z4, (df_mgr _ _ _ F4). unfold s3. cbn [binder_context_mgr_node node_set set_nodes]. by rewrite (al_mgr _ _ A2).
  - by rewrite Ew', Z5, (df_warnings _ _ _ F4).
  - exact Hq.
  - intros q Q HQ. assert (H2 : exists Q2, procs s2 !! q = Some Q2 /\ proc_context Q2 = proc_context Q).
    { destruct (decide (q = ref_proc R)) as [->|Hne].
      - destruct (al_proc _ _ A2 (ref_proc R) (set_refs_trees (rb_erase r (refs_by_desc P)) (rb_erase r (refs_by_node P)) P))
          as (Q2 & HQ2 & S2); [cbn [procs erased set_procs node_set set_nodes]; by rewrite lookup_insert_eq|].
        exists Q2. split; [done|]. destruct S2 as (_ & _ & _ & _ & E & _). rewrite E. simpl. congruence.
      - destruct (al_proc _ _ A2 q Q) as (Q2 & HQ2 & S2).
        { cbn [procs erased set_procs node_set set_nodes]. rewrite lookup_insert_ne by done. by rewrite Ep0. }
        exists Q2. split; [done|]. by destruct S2 as (_ & _ & _ & _ & E & _). }
    destruct H2 as (Q2 & HQ2 & E2'). destruct (df_proc _ _ _ F4 q Q2 HQ2) as (Q4 & HQ4 & _ & _ & E4').
    exists Q4. split; [by rewrite Ep', Z6|congruence].
Qed.

(** ** The end of a reference *)

(** [s'] is [s] without reference [r]; its notification is gone with it, its
    node has one reference less or, if nothing else held it, is gone too. *)
Definition ref_gone (r : nat) (R : binder_ref) (n : nat) (N : binder_node) (s s' : binder) : Prop :=
  refs s' = delete r (refs s) /\ (forall m, m <> n -> nodes s' !! m = nodes s !! m) /\
  gone_or n (without r R N) s' /\
  deaths s' = match ref_death R with Some d => delete d (deaths s) | None => deaths s end.

Definition same_world (s s' : binder) : Prop :=
  threads s' = threads s /\ binder_context_mgr_node s' = binder_context_mgr_node s /\
  binder_warnings s' = binder_warnings s /\
  (forall p P, procs s !! p = Some P -> exists P', procs s' !! p = Some P' /\ proc_context P' = proc_context P).

Lemma same_world_same s s' : threads s' = threads s -> binder_context_mgr_node s' = binder_context_mgr_node s ->
  binder_warnings s' = binder_warnings s -> procs s' = procs s -> same_world s s'.
Proof. intros ??? E. split_and!; try done. intros p P HP. exists P. by rewrite E. Qed.

Lemma same_world_trans s1 s2 s3 : same_world s1 s2 -> same_world s2 s3 -> same_world s1 s3.
Proof.
  intros (A1 & A2 & A3 & A4) (B1 & B2 & B3 & B4). split_and!; try congruence. intros p P HP.
  destruct (A4 p P HP) as (P1 & HP1 & E1). destruct (B4 p P1 HP1) as (P2 & HP2 & E2). exists P2. split; [done|congruence].
Qed.

Lemma free_ref_inv r R n N b s s' : refs s !! r = Some R -> cleaned r R n N b s s' ->
  exists s'', binder_free_ref r s' = Some (tt, s'') /\ inv s'' /\ ref_gone r R n N s s'' /\ same_world s s''.
Proof.
  intros HR (I & Er & En & HN & Hb & Ed & Et & Em & Ew & Hq & Hp). set (R1 := Ref _ _ _ _) in Er.
  assert (HR1 : refs s' !! r = Some R1) by (by rewrite Er, lookup_insert_eq).
  unfold binder_free_ref. erewrite bind_eq by by apply ref_at_eq.
  assert (H1 : exists s1, (match ref_node R1 with Some n => binder_free_node n | None => ret tt end) s' = Some (tt, s1) /\
    inv_ (Some r) None None s1 /\ refs s1 = refs s' /\ deaths s1 = deaths s' /\ works s1 = works s' /\
    (forall m, m <> n -> nodes s1 !! m = nodes s !! m) /\ gone_or n (without r R N) s1 /\ threads s1 = threads s' /\
    binder_context_mgr_node s1 = binder_context_mgr_node s' /\ binder_warnings s1 = binder_warnings s' /\ procs s1 = procs s').
  { unfold R1. cbn [ref_node]. destruct b.
    - destruct (free_node_inv (Some r) n s' I) as (s1 & E1 & I1 & ->). eexists. split; [exact E1|]. split; [done|].
      split_and!; try done.
      + intros m Hm. simpl. rewrite lookup_delete_ne by done. by apply En.
      + right. split; [simpl; by rewrite lookup_delete_eq|by apply Hb].
    - exists s'. split; [done|]. split; [done|]. split_and!; try done. by left. }
  destruct H1 as (s1 & E1 & I1 & Er1 & Ed1 & Ewk & En1 & Hg & Et1 & Em1 & Ew1 & Ep1).
  erewrite bind_eq by exact E1. change (ref_death R1) with (ref_death R).
  set (ds := match ref_death R with Some d => delete d (deaths s1) | None => deaths s1 end).
  exists (set_refs (delete r (refs s1)) (set_deaths ds s1)). split.
  { unfold ds. destruct (ref_death R); [reflexivity|]. unfold bind, ret, modify. by destruct s1. }
  split; [|split].
  - apply (inv_free_ref r R1 s1 I1); [by rewrite Er1|]. intros d Hd l. unfold queue. rewrite Ewk. by apply (Hq d Hd l).
  - split; [simpl; rewrite Er1, Er, delete_insert_eq; done|]. split; [done|]. split; [done|].
    simpl. unfold ds. by rewrite Ed1, Ed.
  - split_and!; simpl; try congruence. by rewrite Ep1.
Qed.

(** ** Dropping a count *)

(** The strong count of the reference goes from one to none: its node's count
    follows, and the node, still referenced, stays. *)
Lemma last_strong_inv r R n N s : inv s -> refs s !! r = Some R -> ref_node R = Some n -> nodes s !! n = Some N ->
  strong (ref_data R) = 1 ->
  exists s', binder_dec_node n true true (ref_set r (bumped (-1) true R) s) = Some (tt, s') /\ inv s' /\
    refs s' = <[r := bumped (-1) true R]> (refs s) /\ (forall m, m <> n -> nodes s' !! m = nodes s !! m) /\
    nodes s' !! n = Some (add_internal (-1) N) /\ deaths s' = deaths s /\ same_world s s'.
Proof.
  intros I HR Hn HN Hst. destruct (c_ref _ (i_counted _ _ _ _ I) r R HR) as [? ?].
  destruct (g_ref _ _ _ (i_graph _ _ _ _ I) r R HR ltac:(done)) as (_ & ? & ? & ? & ? & Hi). simplify_eq.
  pose proof (c_node _ (i_counted _ _ _ _ I) n N HN) as C. pose proof (nc_bound _ _ _ C).
  set (s1 := ref_set r (bumped (-1) true R) s). change (nodes s) with (nodes s1) in HN.
  assert (I1 : inv (node_set n (add_internal (-1) N) s1)).
  { pose proof (inv_ref_counts None None r R n N 0 (weak (ref_data R)) s I) as Hc. rewrite Hst in Hc.
    unfold s1, bumped. rewrite Hst. apply Hc; try done; [by left|unfold holds_strong; simpl; lia]. }
  assert (Hint : 1 <= internal_strong_refs N).
  { pose proof (nc_internal _ _ _ (c_node _ (i_counted _ _ _ _ I1) n (add_internal (-1) N)
      ltac:(rewrite node_set_lookup; by rewrite decide_True))) as Hs. simpl in Hs.
    assert (Hsum : forall l, 0 <= sum_over (rstrong (node_set n (add_internal (-1) N) s1)) l).
    { induction l as [|x l IH]; simpl; [lia|]. unfold rstrong at 1. destruct (refs _ !! x); [case_if|]; lia. }
    specialize (Hsum (node_refs N)). lia. }
  assert (Ed : dropped true true N = add_internal (-1) N).
  { unfold dropped, add_internal. rewrite s32_int by (unfold is_int, two31 in *; lia). done. }
  destruct (dec_node_inv None n N true true s1 HN) as (b & s2 & E2 & I2 & F2 & HN2 & Hb).
  { rewrite Ed. by apply inv_loosen. }
  unfold binder_dec_node. erewrite bind_eq by exact E2. rewrite Ed in Hb, HN2. destruct b.
  { exfalso. apply (Hb eq_refl). left. intros E0. simpl in E0. rewrite E0 in Hi. by apply not_elem_of_nil in Hi. }
  exists s2. split; [done|]. split; [done|]. split; [by rewrite (df_refs _ _ _ F2)|]. split; [apply F2|]. split; [done|].
  split; [apply F2|]. split_and!; try apply F2. intros p P HP. destruct (df_proc _ _ _ F2 p P HP) as (P' & ? & _ & _ & ?).
  by exists P'.
Qed.

(** The node once a count of its reference has been dropped. *)
Definition node_after (strong_ : bool) (R : binder_ref) (N : binder_node) : binder_node :=
  add_internal (if strong_ && (strong (ref_data R) =? 1) then -1 else 0) N.

Definition no_counts (R : binder_ref) : bool := (strong (ref_data R) =? 0) && (weak (ref_data R) =? 0).

(** The first half of [binder_dec_ref_olocked]: the count goes down. *)
Definition ref_dropped (r : nat) (R : binder_ref) (n : nat) (N : binder_node) (strong_ : bool) (s s' : binder) : Prop :=
  inv s' /\ refs s' = <[r := bumped (-1) strong_ R]> (refs s) /\ (forall m, m <> n -> nodes s' !! m = nodes s !! m) /\
  nodes s' !! n = Some (node_after strong_ R N) /\ deaths s' = deaths s /\ same_world s s'.

Lemma ref_put_dropped r R n N strong_ s : inv s -> refs s !! r = Some R -> ref_node R = Some n -> nodes s !! n = Some N ->
  0 < count_of strong_ R -> (strong_ && (strong (ref_data R) =? 1)) = false ->
  ref_dropped r R n N strong_ s (ref_set r (bumped (-1) strong_ R) s).
Proof.
  intros I HR Hn HN Hc Hne. destruct (c_ref _ (i_counted _ _ _ _ I) r R HR) as [? ?].
  pose proof (nc_bound _ _ _ (c_node _ (i_counted _ _ _ _ I) n N HN)) as Hb.
  unfold ref_dropped, node_after. rewrite Hne, add_internal_0. split.
  2:{ split; [done|]. split; [done|]. split; [done|]. split; [done|]. by apply same_world_same. }
  assert (Hst : holds_strong (strong (ref_data (bumped (-1) strong_ R))) - holds_strong (strong (ref_data R)) = 0).
  { unfold holds_strong. destruct strong_; simpl in *; [|lia]. apply Z.eqb_neq in Hne. repeat case_if; zbool; lia. }
  pose proof (inv_ref_counts None None r R n N (strong (ref_data (bumped (-1) strong_ R)))
    (weak (ref_data (bumped (-1) strong_ R))) s I) as Hi. rewrite Hst, add_internal_0, node_set_same in Hi by done.
  assert (E : set_ref_counts (strong (ref_data (bumped (-1) strong_ R))) (weak (ref_data (bumped (-1) strong_ R))) R =
    bumped (-1) strong_ R) by by destruct strong_.
  rewrite E in Hi. apply Hi; try done; [by left|..|lia]; destruct strong_; simpl in *; lia.
Qed.

Lemma dec_ref_inv r R n N strong_ s : inv s -> refs s !! r = Some R -> ref_node R = Some n -> nodes s !! n = Some N ->
  exists del s', binder_dec_ref_olocked r strong_ s = Some (del, s') /\
    if count_of strong_ R =? 0 then del = false /\ s' = s
    else del = no_counts (bumped (-1) strong_ R) /\ exists s1, ref_dropped r R n N strong_ s s1 /\
      (if del : bool then exists b, cleaned r (bumped (-1) strong_ R) n (node_after strong_ R N) b s1 s' else s' = s1).
Proof.
  intros I HR Hn HN. destruct (c_ref _ (i_counted _ _ _ _ I) r R HR) as [? ?].
  unfold binder_dec_ref_olocked. erewrite bind_eq by by apply ref_at_eq. rewrite Hn. erewrite bind_eq by reflexivity.
  set (R' := bumped (-1) strong_ R).
  assert (Hfin : forall s1, ref_dropped r R n N strong_ s s1 -> exists del s', (if no_counts R'
      then binder_cleanup_ref_olocked r ;! ret true else ret false) s1 = Some (del, s') /\
    del = no_counts R' /\ exists s1, ref_dropped r R n N strong_ s s1 /\
      (if del : bool then exists b, cleaned r R' n (node_after strong_ R N) b s1 s' else s' = s1)).
  { intros s1 (I1 & Er & En & HN1 & Hrest). destruct (no_counts R') eqn:Hz.
    - assert (HR1 : refs s1 !! r = Some R') by (by rewrite Er, lookup_insert_eq).
      destruct (cleanup_ref_inv r R' n _ s1 I1 HR1 ltac:(by unfold R'; destruct strong_) HN1) as (b & s2 & E2 & Hcl).
      erewrite bind_eq by exact E2. exists true, s2. split; [done|]. split; [done|]. exists s1. split; [done|]. by exists b.
    - exists false, s1. split; [done|]. split; [done|]. by exists s1. }
  destruct strong_; cbn [count_of].
  - destruct (Z.eqb_spec (strong (ref_data R)) 0) as [Hz|Hz]; [by exists false, s|]. cbv zeta.
    rewrite s32_int by (unfold is_int, two31 in *; lia).
    change (set_ref_counts (strong (ref_data R) - 1) (weak (ref_data R)) R) with R'. erewrite bind_eq by reflexivity.
    fold (ref_set r R' s). change (strong (ref_data R')) with (strong (ref_data R) - 1).
    destruct (Z.eqb_spec (strong (ref_data R) - 1) 0) as [H1|H1].
    + destruct (last_strong_inv r R n N s I HR Hn HN ltac:(lia)) as (s1 & E1 & I1 & Er & En & HN1 & Ed & Hw).
      erewrite bind_eq by exact E1. destruct (Hfin s1) as (del & s' & E' & Hres).
      { split_and!; try done. rewrite HN1. unfold node_after. cbn [andb]. by replace (strong (ref_data R) =? 1) with true by lia. }
      exists del, s'. split; [|done]. unfold no_counts in E'. change (strong (ref_data R')) with (strong (ref_data R) - 1) in E'.
      rewrite (proj2 (Z.eqb_eq _ _) H1) in E'. done.
    + erewrite bind_eq by reflexivity. destruct (Hfin (ref_set r R' s)) as (del & s' & E' & Hres).
      { apply ref_put_dropped; try done; simpl; lia. }
      exists del, s'. split; [|done]. unfold no_counts in E'. change (strong (ref_data R')) with (strong (ref_data R) - 1) in E'.
      rewrite (proj2 (Z.eqb_neq _ _) H1) in E'. done.
  - destruct (Z.eqb_spec (weak (ref_data R)) 0) as [Hz|Hz]; [by exists false, s|]. cbv zeta.
    rewrite s32_int by (unfold is_int, two31 in *; lia).
    change (set_ref_counts (strong (ref_data R)) (weak (ref_data R) - 1) R) with R'. erewrite bind_eq by reflexivity.
    fold (ref_set r R' s). apply (Hfin (ref_set r R' s)). apply ref_put_dropped; try done; simpl; lia.
Qed.

(** A count dropped through a handle. *)
Definition handle_dropped (r : nat) (R : binder_ref) (n : nat) (N : binder_node) (strong_ : bool)
    (rd : binder_ref_data) (s s' : binder) : Prop :=
  if count_of strong_ R =? 0 then rd = ref_data R /\ s' = s
  else let R' := bumped (-1) strong_ R in let N' := node_after strong_ R N in
    rd = ref_data R' /\
    if no_counts R' then ref_gone r R' n N' s s'
    else refs s' = <[r := R']> (refs s) /\ (forall m, m <> n -> nodes s' !! m = nodes s !! m) /\
      nodes s' !! n = Some N' /\ deaths s' = deaths s.

Lemma update_ref_dec_inv p P d strong_ s : inv s -> procs s !! p = Some P ->
  exists rv rd s', binder_update_ref_for_handle p d false strong_ s = Some ((rv, rd), s') /\ inv s' /\ same_world s s' /\
    ((rv = - EINVAL /\ rd = None /\ s' = s /\ forall r R, refs s !! r = Some R -> ref_proc R = p ->
        desc (ref_data R) = d -> strong_ = true /\ strong (ref_data R) = 0) \/
     exists r R n N rd', refs s !! r = Some R /\ ref_proc R = p /\ desc (ref_data R) = d /\ ref_node R = Some n /\
       nodes s !! n = Some N /\ rv = 0 /\ rd = Some rd' /\ handle_dropped r R n N strong_ rd' s s').
Proof.
  intros I HP. assert (Hrefl : same_world s s) by by apply same_world_same.
  unfold binder_update_ref_for_handle.
  destruct (get_ref_inv p P d strong_ s I HP) as (found & E & Hres). erewrite bind_eq by exact E.
  destruct found as [r|]; [|exists (- EINVAL), None, s; split; [done|]; split; [done|]; split; [done|]; by left].
  destruct Hres as (R & n & N & HR & Hp & Hd & Hn & HN & Hi & Hs).
  destruct (dec_ref_inv r R n N strong_ s I HR Hn HN) as (del & s1 & E1 & Hdec).
  erewrite bind_eq by (erewrite bind_eq by exact E1; reflexivity). cbn [fst snd].
  destruct (Z.eqb_spec (count_of strong_ R) 0) as [Hz|Hz].
  { destruct Hdec as [-> ->]. erewrite bind_eq by by apply ref_at_eq. erewrite bind_eq by reflexivity.
    exists 0, (Some (ref_data R)), s. split; [done|]. split; [done|]. split; [done|]. right.
    exists r, R, n, N, (ref_data R). split_and!; try done. unfold handle_dropped. by rewrite (proj2 (Z.eqb_eq _ _) Hz). }
  set (R' := bumped (-1) strong_ R) in *. destruct Hdec as (-> & s0 & (I0 & Er0 & En0 & HN0 & Ed0 & W0) & Hc).
  assert (Hd' : handle_dropped r R n N strong_ (ref_data R') s = fun s' => ref_data R' = ref_data R' /\
    if no_counts R' then ref_gone r R' n (node_after strong_ R N) s s'
    else refs s' = <[r := R']> (refs s) /\ (forall m, m <> n -> nodes s' !! m = nodes s !! m) /\
      nodes s' !! n = Some (node_after strong_ R N) /\ deaths s' = deaths s).
  { unfold handle_dropped. by rewrite (proj2 (Z.eqb_neq _ _) Hz). }
  destruct (no_counts R') eqn:Hno.
  - destruct Hc as [b Hcl]. assert (HR0 : refs s0 !! r = Some R') by (by rewrite Er0, lookup_insert_eq).
    destruct (free_ref_inv r R' n _ b s0 s1 HR0 Hcl) as (s2 & E2 & I2 & (Hg1 & Hg2 & Hg3 & Hg4) & W2).
    destruct Hcl as (_ & Er1 & _). erewrite bind_eq by (apply ref_at_eq; rewrite Er1; apply lookup_insert_eq).
    erewrite bind_eq by exact E2. exists 0, (Some (ref_data R')), s2. split; [done|]. split; [done|].
    split; [by eapply same_world_trans|]. right. exists r, R, n, N, (ref_data R'). split_and!; try done. rewrite Hd'.
    split; [done|]. split; [by rewrite Hg1, Er0, delete_insert_eq|]. split; [|split; [done|by rewrite Hg4, Ed0]].
    intros m Hm. by rewrite Hg2, En0.
  - subst s1. erewrite bind_eq by (apply ref_at_eq; rewrite Er0; apply lookup_insert_eq). erewrite bind_eq by reflexivity.
    exists 0, (Some (ref_data R')), s0. split; [done|]. split; [done|]. split; [done|]. right.
    exists r, R, n, N, (ref_data R'). split_and!; try done. rewrite Hd'. by split_and!.
Qed.
End drop.
