(* ===== verification/BinderNodeCmds.v ===== *)
(** * Binder references: the commands and ioctls on handles

    BC_INCREFS, BC_ACQUIRE, BC_RELEASE and BC_DECREFS, and the two queries. *)

From Stdlib Require Import ZArith Lia.
From stdpp Require Import base option gmap sets list sorting.
From S2P Require Import Prelude RbTree BinderNode BinderNodeFacts BinderNodeInv BinderNodeOps.
From S2P Require Import BinderNodeRef BinderNodeDrop.

(** A count taken through a handle: done, or refused as a first count nobody
    can be told of. *)
Definition handle_counted (r : nat) (R : binder_ref) (n : nat) (N : binder_node) (strong_ : bool)
    (rv : Z) (rd : binder_ref_data) (s s' : binder) : Prop :=
  counted_ref r R n N strong_ None s rv rd s'.

Section cmds.
Context `{RB : Rbtree} {RBL : RbtreeLaws}.

Lemma update_ref_inc_inv p P d strong_ s : inv s -> procs s !! p = Some P -> room s -> ref_room s ->
  exists rv rd s', binder_update_ref_for_handle p d true strong_ s = Some ((rv, rd), s') /\ inv s' /\ counting_frame s s' /\
    ((rv = - EINVAL /\ rd = None /\ s' = s /\ forall r R, refs s !! r = Some R -> ref_proc R = p ->
        desc (ref_data R) = d -> strong_ = true /\ strong (ref_data R) = 0) \/
     exists r R n N rd', refs s !! r = Some R /\ ref_proc R = p /\ desc (ref_data R) = d /\ ref_node R = Some n /\
       nodes s !! n = Some N /\ (strong_ = true -> strong (ref_data R) <> 0) /\ rd = Some rd' /\
       handle_counted r R n N strong_ rv rd' s s').
Proof.
  intros I HP Hroom Hrr. unfold binder_update_ref_for_handle.
  destruct (get_ref_inv p P d strong_ s I HP) as (found & E & Hres). erewrite bind_eq by exact E.
  destruct found as [r|].
  2:{ exists (- EINVAL), None, s. split; [done|]. split; [done|]. split; [by apply alike_frame, alike_same|]. by left. }
  destruct Hres as (R & n & N & HR & Hp & Hd & Hn & HN & Hi & Hs). destruct (Hrr r R HR) as [Hst Hwk].
  destruct (inc_ref_inv r R n N strong_ None s I HR Hn HN ltac:(done) (proj1 (Hroom n N HN)) Hst Hwk)
    as (rv & s1 & E1 & I1 & F1 & Hres).
  erewrite bind_eq by (erewrite bind_eq by exact E1; reflexivity). cbn [fst snd].
  assert (HR1 : exists R1, refs s1 !! r = Some R1 /\ handle_counted r R n N strong_ rv (ref_data R1) s s1).
  { destruct Hres as [(-> & -> & _ & ? & ?)|(-> & Er & En)].
    - exists R. split; [done|]. by left.
    - exists (bumped 1 strong_ R). split; [by rewrite Er, lookup_insert_eq|]. by right. }
  destruct HR1 as (R1 & HR1 & Hc). erewrite bind_eq by by apply ref_at_eq. erewrite bind_eq by reflexivity.
  exists rv, (Some (ref_data R1)), s1. split; [done|]. split; [done|]. split; [done|]. right.
  by exists r, R, n, N, (ref_data R1).
Qed.

(** The first reference through handle 0 counts the context manager itself. *)
Definition names_mgr (s : binder) (P : binder_proc) (increment : bool) (target : Z) : option nat :=
  if increment && (target =? 0) then binder_context_mgr_node s !! proc_context P else None.

Lemma ref_source_room p P n N kz s r R N1 s1 : ref_source p P n N kz s r R N1 s1 -> nodes s !! n = Some N ->
  room s -> ref_room s -> procs s !! p = Some P ->
  room s1 /\ ref_room s1 /\ exists P1, procs s1 !! p = Some P1 /\ proc_context P1 = proc_context P.
Proof.
  intros [(-> & _)|(-> & _ & -> & d & td & tn & _ & -> & ->)] HN Hr Hrr HP; [split_and!; try done; by exists P|].
  unfold ref_added. split; [|split].
  - intros m M. cbn [nodes set_last_id set_stats set_procs ref_set set_refs]. rewrite node_set_lookup.
    case_decide; intros ?; simplify_eq; [exact (Hr n N HN)|by eapply Hr].
  - intros q Q. cbn [refs set_last_id set_stats set_procs]. rewrite ref_set_lookup.
    case_decide; intros ?; simplify_eq; [simpl; unfold two31; lia|by eapply Hrr].
  - eexists. simpl. rewrite lookup_insert_eq. by split.
Qed.

(** The four commands: [binder_thread_write] stops only for a context manager
    that refers to itself; the graph stays consistent whatever happens. *)
Lemma bc_refs_inv p P increment strong_ target kz s : inv s -> procs s !! p = Some P -> room s -> ref_room s ->
  desc_room P -> (forall r, kz = Some r -> refs s !! r = None) ->
  exists res s', bc_refs p increment strong_ target kz s = Some (res, s') /\ inv s' /\
    match names_mgr s P increment target with
    | Some n => exists N, nodes s !! n = Some N /\
        (res = Some (- EINVAL) /\ node_proc N = Some p /\ s' = s \/ res = None /\ node_proc N <> Some p)
    | None => res = None /\ exists rd, binder_update_ref_for_handle p target increment strong_ s = Some (rd, s')
    end.
Proof.
  intros I HP Hroom Hrr Hdesc Hfree. unfold bc_refs. erewrite bind_eq by by apply proc_at_eq.
  erewrite bind_eq by reflexivity. cbv zeta. fold (names_mgr s P increment target).
  assert (Hupd : forall s1 P1, inv s1 -> procs s1 !! p = Some P1 -> room s1 -> ref_room s1 ->
    exists rd s', binder_update_ref_for_handle p target increment strong_ s1 = Some (rd, s') /\ inv s').
  { intros s1 P1 I1 HP1 Hr1 Hrr1. destruct increment.
    - destruct (update_ref_inc_inv p P1 target strong_ s1 I1 HP1 Hr1 Hrr1) as (rv & rd & s' & E & I' & _).
      by exists (rv, rd), s'.
    - destruct (update_ref_dec_inv p P1 target strong_ s1 I1 HP1) as (rv & rd & s' & E & I' & _).
      by exists (rv, rd), s'. }
  destruct (names_mgr s P increment target) as [n|] eqn:Hmgr.
  - assert (Hm : binder_context_mgr_node s !! proc_context P = Some n).
    { unfold names_mgr in Hmgr. by destruct (increment && (target =? 0)). }
    destruct (g_mgr _ _ _ (i_graph _ _ _ _ I) _ n Hm) as (_ & N & q & Q & HN & Hq & HQ & _).
    destruct (decide (node_proc N = Some p)) as [Hself|Hself].
    + erewrite (bind_eq (bind _ _)).
      2:{ erewrite bind_eq by by apply node_at_eq. by rewrite bool_decide_eq_true_2. }
      exists (Some (- EINVAL)), s. split; [done|]. split; [done|]. exists N. split; [done|]. by left.
    + destruct (inc_ref_for_node_inv p P n N strong_ None kz s I HP HN Hdesc Hfree (proj1 (Hroom n N HN)) Hrr ltac:(done))
        as (rv & rd & s1 & E1 & I1 & Hres).
      erewrite (bind_eq (bind _ _)).
      2:{ erewrite bind_eq by by apply node_at_eq. rewrite bool_decide_eq_false_2 by done.
          erewrite bind_eq by exact E1. reflexivity. }
      cbn [fst]. destruct (Z.eqb_spec rv 0) as [Hz|Hz]; cbn [negb].
      { erewrite bind_eq by reflexivity. exists None, s1. split; [done|]. split; [done|]. exists N. split; [done|]. by right. }
      assert (H1 : exists P1, procs s1 !! p = Some P1 /\ room s1 /\ ref_room s1).
      { destruct Hres as [(_ & _ & -> & _)|(r & R & N1 & s2 & rd' & Hsrc & _ & _ & Hc)]; [by exists P|].
        destruct Hc as [(_ & -> & _)|(-> & _)]; [|done].
        destruct (ref_source_room _ _ _ _ _ _ _ _ _ _ Hsrc HN Hroom Hrr HP) as (? & ? & P1 & ? & _). by exists P1. }
      destruct H1 as (P1 & HP1 & Hr1 & Hrr1). destruct (Hupd s1 P1 I1 HP1 Hr1 Hrr1) as (x & s2 & E2 & I2).
      erewrite bind_eq by (erewrite bind_eq by exact E2; reflexivity).
      exists None, s2. split; [done|]. split; [done|]. exists N. split; [done|]. by right.
  - erewrite bind_eq by reflexivity. cbv beta iota. change (negb (-1 =? 0)) with true. cbv iota. destruct (Hupd s P I HP Hroom Hrr) as (x & s2 & E2 & I2).
    erewrite bind_eq by (erewrite bind_eq by exact E2; reflexivity).
    exists None, s2. split; [done|]. split; [done|]. split; [done|]. by exists x.
Qed.

(** ** A count taken and given back *)

(** A process's handles are distinct. *)
Lemma desc_unique s r R r' R' : inv s -> refs s !! r = Some R -> refs s !! r' = Some R' ->
  ref_proc R' = ref_proc R -> desc (ref_data R') = desc (ref_data R) -> r' = r.
Proof.
  intros I HR HR' Hp Hd. destruct (g_ref _ _ _ (i_graph _ _ _ _ I) r R HR ltac:(done)) as ([P HP] & _).
  destruct (g_desc _ _ _ (i_graph _ _ _ _ I) _ P HP) as [Hk Hin].
  apply (rb_keyed_inj (rdesc s) (refs_by_desc P)); [done|apply Hin; split; [done|by exists R']|apply Hin; split; [done|by exists R]|].
  unfold rdesc. by rewrite HR, HR', Hd.
Qed.

(** And so are the nodes they name. *)
Lemma node_unique s r R r' R' : inv s -> refs s !! r = Some R -> refs s !! r' = Some R' ->
  ref_proc R' = ref_proc R -> ref_node R' = ref_node R -> r' = r.
Proof.
  intros I HR HR' Hp Hn. destruct (g_ref _ _ _ (i_graph _ _ _ _ I) r R HR ltac:(done)) as ([P HP] & _).
  destruct (g_byno _ _ _ (i_graph _ _ _ _ I) _ P HP) as [Hk Hin].
  apply (rb_keyed_inj (rnode s) (refs_by_node P)); [done|apply Hin; split; [done|by exists R']|apply Hin; split; [done|by exists R]|].
  unfold rnode. by rewrite HR, HR', Hn.
Qed.

Lemma bumped_back strong_ R : bumped (-1) strong_ (bumped 1 strong_ R) = R.
Proof. destruct R as [[i d st wk] ? ? ?], strong_; unfold bumped, set_ref_counts; simpl; repeat f_equal; lia. Qed.

(** After [binder_inc_ref_for_node] and [binder_dec_ref_for_handle] on the
    handle it returned, every reference is as before. *)
Lemma inc_dec_refs p P n N strong_ target kz rd s s1 : inv s -> procs s !! p = Some P -> nodes s !! n = Some N ->
  desc_room P -> (forall r, kz = Some r -> refs s !! r = None) -> internal_strong_refs N + 1 < two31 -> ref_room s ->
  target_ok s N target -> (forall r R, refs s !! r = Some R -> no_counts R = false) ->
  binder_inc_ref_for_node p n strong_ target kz s = Some ((0, Some rd), s1) ->
  exists rd' s2, binder_dec_ref_for_handle p (desc rd) strong_ s1 = Some ((0, Some rd'), s2) /\ refs s2 = refs s /\
    (forall m, m <> n -> nodes s2 !! m = nodes s !! m).
Proof.
  intros I HP HN Hd Hf Hi Hrr Ht Hcnt E.
  destruct (inc_ref_for_node_inv p P n N strong_ target kz s I HP HN Hd Hf Hi Hrr Ht) as (rv & rdo & s' & E' & I1 & Hres).
  rewrite E in E'. simplify_eq. destruct Hres as [(? & _)|(r & R & N1 & s0 & rd' & Hsrc & F & [= <-] & Hc)]; [done|].
  destruct Hc as [(? & _)|(_ & -> & Er & En)]; [done|]. set (R1 := bumped 1 strong_ R) in *.
  assert (HR1 : refs s' !! r = Some R1) by (by rewrite Er, lookup_insert_eq).
  assert (Hsrc' : ref_proc R = p /\ nodes s0 !! n = Some N1 /\ (forall m, m <> n -> nodes s0 !! m = nodes s !! m) /\
    (exists P0, procs s0 !! p = Some P0) /\ 0 <= count_of strong_ R /\
    (if no_counts R then delete r (refs s0) = refs s else refs s0 = refs s /\ refs s !! r = Some R)).
  { destruct Hsrc as [(-> & HR & Hp & Hn & ->)|(Hk & _ & -> & d & td & tn & _ & -> & ->)].
    - rewrite (Hcnt r R HR). destruct (c_ref _ (i_counted _ _ _ _ I) r R HR). split_and!; try done; [by exists P|].
      destruct strong_; simpl; lia.
    - unfold ref_added. split_and!; try done.
      + simpl. by rewrite lookup_insert_eq.
      + intros m Hm. simpl. by rewrite lookup_insert_ne.
      + simpl. rewrite lookup_insert_eq. by eexists.
      + by destruct strong_.
      + simpl. rewrite delete_insert_eq. apply delete_id. by apply Hf. }
  destruct Hsrc' as (Hp & HN1 & Hoth & [P0 HP0] & Hc0 & Hrefs).
  destruct F as (_ & _ & _ & Fp). destruct (Fp p P0 HP0) as (P1 & HP1 & _).
  destruct (update_ref_dec_inv p P1 (desc (ref_data R1)) strong_ s' I1 HP1) as (rv & rdo & s2 & E2 & I2 & _ & Hdec).
  assert (Hc1 : count_of strong_ R1 = count_of strong_ R + 1) by by destruct strong_.
  assert (Hp1 : ref_proc R1 = p) by by destruct strong_.
  destruct Hdec as [(_ & _ & _ & Hno)|(q & Q & n2 & N2 & rd2 & HQ & HQp & HQd & HQn & HN2 & -> & -> & Hd2)].
  { exfalso. destruct (Hno r R1 HR1 Hp1 eq_refl) as [-> Hz]. simpl in Hc1, Hz, Hc0. lia. }
  assert (q = r) as -> by (eapply (desc_unique s' r R1 q Q I1); [done|done|congruence|done]).
  assert (Q = R1) as -> by congruence. unfold handle_dropped in Hd2.
  rewrite (proj2 (Z.eqb_neq (count_of strong_ R1) 0)) in Hd2 by lia. unfold R1 in Hd2. rewrite bumped_back in Hd2.
  destruct Hd2 as [-> Hd2]. exists (ref_data R), s2. split; [exact E2|].
  assert (Hn2 : n2 = n).
  { destruct (g_ref _ _ _ (i_graph _ _ _ _ I1) r R1 HR1 ltac:(done)) as (_ & n3 & N3 & Hn3 & HN3 & Hi3).
    assert (n3 = n2) as -> by congruence. destruct (decide (n2 = n)) as [|Hne]; [done|].
    assert (HRn : ref_node R = Some n).
    { destruct Hsrc as [(_ & _ & _ & ? & _)|(_ & _ & _ & d & td & tn & _ & -> & _)]; done. }
    assert (ref_node R1 = ref_node R) by by destruct strong_. congruence. }
  subst n2. assert (Hnodes : forall m, m <> n -> nodes s' !! m = nodes s !! m).
  { intros m Hm. rewrite En, lookup_insert_ne by done. by apply Hoth. }
  destruct (no_counts R).
  - destruct Hd2 as (Er2 & En2 & _). split; [by rewrite Er2, Er, delete_insert_eq|].
    intros m Hm. by rewrite En2, Hnodes.
  - destruct Hd2 as (Er2 & En2 & _). destruct Hrefs as [Hrefs HR]. split.
    + rewrite Er2, Er, insert_insert_eq, Hrefs. by apply insert_id.
    + intros m Hm. by rewrite En2, Hnodes.
Qed.
End cmds.
