(* ===== verification/BinderNodeDeath.v ===== *)
(** * Death notifications

    A notification belongs to a reference until it is cleared; it is on at
    most one list, and an unowned one is always on its way to being freed. *)

From Stdlib Require Import ZArith Lia.
From stdpp Require Import base option gmap sets list sorting.
From S2P Require Import Prelude RbTree BinderNode BinderNodeFacts BinderNodeInv BinderNodeOps.
From S2P Require Import BinderNodeRef BinderNodeDrop.

(** Each list and each item once. *)
Definition lists_ok (s : binder) : Prop :=
  (forall l, NoDup (queue l s)) /\ forall w l l', w ∈ queue l s -> w ∈ queue l' s -> l' = l.

Lemma lists_enqueued l w s : lists_ok s -> (forall l, w ∉ queue l s) -> lists_ok (enqueued l w s).
Proof.
  intros [Hnd Hone] Hw. split.
  - intros l'. rewrite queue_enqueued. case_decide; [|done]. apply NoDup_app. split; [done|].
    split; [|apply NoDup_singleton]. intros x Hx ->%list_elem_of_singleton. by apply (Hw l).
  - intros x l1 l2. rewrite !elem_enqueued.
    intros [H1|[-> ->]] [H2|[-> E]]; [by eapply Hone|subst x; by destruct (Hw l1)|by destruct (Hw l2)|done].
Qed.

Lemma lists_dequeued w s : lists_ok s -> lists_ok (dequeued w s).
Proof.
  intros [Hnd Hone]. split; [intros l; rewrite queue_dequeued; by apply list_del_NoDup|].
  intros x l1 l2 [_ H1]%elem_dequeued [_ H2]%elem_dequeued. by eapply Hone.
Qed.

Lemma inv_lists xr xn lo s : inv_ xr xn lo s -> lists_ok s.
Proof. intros [_ _ [] _]. by split. Qed.

(** The same reference but for its notification. *)
Definition same_ref (R R' : binder_ref) : Prop :=
  ref_data R' = ref_data R /\ ref_proc R' = ref_proc R /\ ref_node R' = ref_node R.

(** Notifications may change under a consistent graph. *)
Lemma inv_notified s s' : inv s -> nodes s' = nodes s -> procs s' = procs s -> threads s' = threads s ->
  binder_context_mgr_node s' = binder_context_mgr_node s -> binder_dead_nodes s' = binder_dead_nodes s ->
  (forall r R', refs s' !! r = Some R' -> exists R, refs s !! r = Some R /\ same_ref R R') ->
  (forall r R, refs s !! r = Some R -> exists R', refs s' !! r = Some R' /\ same_ref R R') ->
  (forall n l, WNode n ∈ queue l s' <-> WNode n ∈ queue l s) -> lists_ok s' -> notified None s' -> inv s'.
Proof.
  intros [G C Q _] En Ep Et Em Ed Hr Hr' Hq [Hnd Hone] Hn.
  assert (Hkey : forall r, rdesc s' r = rdesc s r /\ rnode s' r = rnode s r /\ rstrong s' r = rstrong s r).
  { intros r. unfold rdesc, rnode, rstrong. destruct (refs s !! r) as [R|] eqn:HR.
    - destruct (Hr' r R HR) as (R' & -> & -> & _ & ->). done.
    - destruct (refs s' !! r) as [R'|] eqn:HR'; [|done]. destruct (Hr r R' HR') as (? & ? & _). congruence. }
  assert (Hset : forall p r, (None <> Some r /\ exists R, refs s !! r = Some R /\ ref_proc R = p) <->
    (None <> Some r /\ exists R, refs s' !! r = Some R /\ ref_proc R = p)).
  { intros p r. split; intros (? & R & HR & Hp); (split; [done|]).
    - destruct (Hr' r R HR) as (R' & ? & _ & ? & _). exists R'. split; [done|congruence].
    - destruct (Hr r R HR) as (R0 & ? & _ & ? & _). exists R0. split; [done|congruence]. }
  split; [| | |done].
  - destruct G. split; rewrite ?En, ?Ep, ?Ed, ?Em, ?Et; try done.
    + intros p P HP. eapply holds_set_ext; [by apply g_nodes|done|]. intros m _. unfold nptr. by rewrite En.
    + intros p P HP. eapply holds_set_ext; [by apply g_desc|apply Hset|intros r _; apply Hkey].
    + intros p P HP. eapply holds_set_ext; [by apply g_byno|apply Hset|intros r _; apply Hkey].
    + intros r R' HR' _. destruct (Hr r R' HR') as (R & HR & _ & -> & ->). by apply g_ref.
    + intros n N HN. destruct (g_refs n N HN) as [? H]. split; [done|]. intros r Hi.
      destruct (H r Hi) as (_ & R & HR & Hn0). split; [done|]. destruct (Hr' r R HR) as (R' & HR' & _ & _ & E).
      exists R'. split; [done|congruence].
    + unfold threads_there in *. by rewrite Ep, Et.
    + intros r R' HR'. destruct (Hr r R' HR') as (R & HR & -> & _). by eapply g_udesc.
  - destruct C as [Cr Cn]. split; rewrite ?En.
    + intros r R' HR'. destruct (Hr r R' HR') as (R & HR & -> & _). by eapply Cr.
    + intros n N HN. destruct (Cn n N HN). split; try done.
      * rewrite nc_internal. apply sum_over_ext. intros r _. symmetry. apply Hkey.
      * unfold is_mgr in *. by rewrite Em.
  - destruct Q. split; rewrite ?En; try done.
    + intros n l Hi%Hq. rewrite (list_owner_ext s s' l Et). by apply q_node.
    + intros n N HN Hx Hlo. destruct (q_held n N HN Hx Hlo) as [?|[l Hl]]; [by left|right; exists l; by apply Hq].
Qed.

(** ** Facts about the notifications of a consistent state *)

Lemma queued_type s d D l : inv s -> WDeath d ∈ queue l s -> deaths s !! d = Some D ->
  (exists r R, refs s !! r = Some R /\ ref_death R = Some d) /\ death_work_type D = Some BINDER_WORK_DEAD_BINDER \/
  (forall r R, refs s !! r = Some R -> ref_death R <> Some d) /\
    (death_work_type D = Some BINDER_WORK_DEAD_BINDER_AND_CLEAR \/
     death_work_type D = Some BINDER_WORK_CLEAR_DEATH_NOTIFICATION).
Proof.
  intros [_ _ _ Dn] Hl HD. destruct (d_free _ _ Dn d D HD) as [(r & R & HR & Hd)|[_ Ht]].
  - left. split; [by exists r, R|]. destruct (d_ref _ _ Dn r R d HR Hd) as (D' & HD' & H). simplify_eq.
    by apply (H ltac:(done) l).
  - right. split; [|done]. intros r R HR Hd. destruct (d_ref _ _ Dn r R d HR Hd) as (D' & HD' & H). simplify_eq.
    destruct (H ltac:(done) l Hl) as [E _]. rewrite E in Ht. by destruct Ht.
Qed.

(** A dead node's reference with a notification, or an unowned one. *)
Definition may_queue (s : binder) (d : nat) (t : option death_type) : Prop :=
  (forall r R, refs s !! r = Some R -> ref_death R = Some d -> t = Some BINDER_WORK_DEAD_BINDER /\
     exists n N, ref_node R = Some n /\ nodes s !! n = Some N /\ node_proc N = None) /\
  ((exists r R, refs s !! r = Some R /\ ref_death R = Some d) \/
   t = Some BINDER_WORK_DEAD_BINDER_AND_CLEAR \/ t = Some BINDER_WORK_CLEAR_DEATH_NOTIFICATION).

(** A notification moves to the end of a list. *)
Lemma inv_move_death d D t l s : inv s -> deaths s !! d = Some D -> may_queue s d t ->
  (forall p, l = delivered_death p -> t <> Some BINDER_WORK_CLEAR_DEATH_NOTIFICATION) ->
  inv (enqueued l (WDeath d) (set_deaths (<[d := Death (death_cookie D) t]> (deaths s)) (dequeued (WDeath d) s))).
Proof.
  intros I HD [Ht1 Ht2] Hl. set (D' := Death _ t). set (s1 := set_deaths _ _).
  assert (Hq : forall w l', w ∈ queue l' (enqueued l (WDeath d) s1) <-> w <> WDeath d /\ w ∈ queue l' s \/ l' = l /\ w = WDeath d).
  { intros w l'. rewrite elem_enqueued. change (queue l' s1) with (queue l' (dequeued (WDeath d) s)). by rewrite elem_dequeued. }
  assert (Hd : forall e E, deaths (enqueued l (WDeath d) s1) !! e = Some E <-> e = d /\ E = D' \/ e <> d /\ deaths s !! e = Some E).
  { intros e E. simpl. rewrite lookup_insert_Some. split; [intros [[-> ->]|[? ?]]; [by left|right; done]|].
    intros [[-> ->]|[? ?]]; [by left|right; done]. }
  apply (inv_notified s); try done.
  - intros r R HR. by exists R.
  - intros r R HR. by exists R.
  - intros n l'. rewrite Hq. split; [intros [[_ ?]|[_ ?]]; done|intros ?; by left].
  - apply lists_enqueued; [apply (lists_dequeued (WDeath d) s), (inv_lists _ _ _ _ I)|].
    intros l' Hi. change (queue l' s1) with (queue l' (dequeued (WDeath d) s)) in Hi. by apply elem_dequeued in Hi as [? _].
  - destruct I as [_ _ _ []]. split.
    + intros r R e HR He. destruct (d_ref r R e HR He) as (E & HE & H). destruct (decide (e = d)) as [->|Hne].
      * exists D'. split; [apply Hd; by left|]. intros _ l' _. simplify_eq. by apply (Ht1 r R).
      * exists E. split; [apply Hd; by right|]. intros Hx l' [[_ Hi]|[_ [= ->]]]%Hq; [|done]. by apply (H Hx l').
    + done.
    + intros e l' [[_ Hi]|[_ [= ->]]]%Hq; [|exists D'; apply Hd; by left]. destruct (d_queue e l' Hi) as [E HE].
      destruct (decide (e = d)) as [->|Hne]; [exists D'; apply Hd; by left|exists E; apply Hd; by right].
    + intros w p [[Hne Hi]|[E ->]]%Hq.
      * destruct (d_deliv w p Hi) as (e & E & -> & HE & H). exists e, E. split; [done|]. split; [|done].
        apply Hd. right. split; [congruence|done].
      * exists d, D'. split; [done|]. split; [apply Hd; by left|]. simpl. specialize (Hl p (eq_sym E)).
        destruct Ht2 as [(r & R & HR & Hr)|[?|?]]; [left|by right|done]. by destruct (Ht1 r R HR Hr).
    + intros e E [[-> ->]|[Hne HE]]%Hd.
      * destruct Ht2 as [?|?]; [by left|right]. split; [|done]. exists l. apply Hq. by right.
      * destruct (d_free e E HE) as [?|[[l' Hi] ?]]; [by left|right]. split; [|done]. exists l'. apply Hq. left.
        split; [congruence|done].
Qed.

(** A cleared notification that has been read is freed. *)
Lemma inv_delete_death d s : inv s -> (forall r R, refs s !! r = Some R -> ref_death R <> Some d) ->
  inv (set_deaths (delete d (deaths s)) (dequeued (WDeath d) s)).
Proof.
  intros I Hno. set (s' := set_deaths _ _).
  assert (Hq : forall w l', w ∈ queue l' s' <-> w <> WDeath d /\ w ∈ queue l' s).
  { intros w l'. change (queue l' s') with (queue l' (dequeued (WDeath d) s)). apply elem_dequeued. }
  assert (Hd : forall e E, deaths s' !! e = Some E <-> e <> d /\ deaths s !! e = Some E).
  { intros e E. simpl. rewrite lookup_delete_Some. split; intros [? ?]; split; congruence. }
  apply (inv_notified s); try done.
  - intros r R HR. by exists R.
  - intros r R HR. by exists R.
  - intros n l'. rewrite Hq. split; [by intros [_ ?]|by intros ?].
  - apply (lists_dequeued (WDeath d) s), (inv_lists _ _ _ _ I).
  - destruct I as [_ _ _ []]. split.
    + intros r R e HR He. destruct (d_ref r R e HR He) as (E & HE & H). exists E. split.
      { apply Hd. split; [|done]. intros ->. by apply (Hno r R HR). }
      intros Hx l' [_ Hi]%Hq. by apply (H Hx l').
    + done.
    + intros e l' [Hne Hi]%Hq. destruct (d_queue e l' Hi) as [E HE]. exists E. apply Hd. split; [congruence|done].
    + intros w p [Hne Hi]%Hq. destruct (d_deliv w p Hi) as (e & E & -> & HE & H). exists e, E. split; [done|].
      split; [|done]. apply Hd. split; [congruence|done].
    + intros e E [Hne HE]%Hd. destruct (d_free e E HE) as [?|[[l' Hi] ?]]; [by left|right]. split; [|done].
      exists l'. apply Hq. split; [congruence|done].
Qed.

(** A reference asks for a notification. *)
Lemma inv_request r R d c t s : inv s -> refs s !! r = Some R -> ref_death R = None -> deaths s !! d = None ->
  inv (set_deaths (<[d := Death c t]> (deaths s)) (ref_set r (set_ref_death (Some d) R) s)).
Proof.
  intros I HR Hnone Hd. set (s' := set_deaths _ _). set (R' := set_ref_death (Some d) R).
  assert (Hr : forall q Q, refs s' !! q = Some Q <-> q = r /\ Q = R' \/ q <> r /\ refs s !! q = Some Q).
  { intros q Q. unfold s'. cbn [refs set_deaths]. rewrite ref_set_lookup. split.
    - intros H. case_decide; simplify_eq; [by left|by right].
    - intros [[-> ->]|[? ?]]; [by rewrite decide_True|by rewrite decide_False]. }
  assert (He : forall e E, deaths s' !! e = Some E <-> e = d /\ E = Death c t \/ e <> d /\ deaths s !! e = Some E).
  { intros e E. simpl. rewrite lookup_insert_Some. split; [intros [[-> ->]|[? ?]]; [by left|right; done]|].
    intros [[-> ->]|[? ?]]; [by left|right; done]. }
  apply (inv_notified s); try done.
  - intros q Q [[-> ->]|[_ HQ]]%Hr; [by exists R|by exists Q].
  - intros q Q HQ. destruct (decide (q = r)) as [->|Hne]; [exists R'|exists Q]; (split; [apply Hr|]); simplify_eq; auto; done.
  - apply (inv_lists _ _ _ _ I).
  - destruct I as [_ _ _ []].
    assert (Hfresh : forall q Q, refs s !! q = Some Q -> ref_death Q <> Some d).
    { intros q Q HQ Hq. destruct (d_ref q Q d HQ Hq) as (D & HD & _). congruence. }
    assert (Hnq : forall l, WDeath d ∉ queue l s) by (intros l [D HD]%d_queue; congruence).
    split.
    + intros q Q e [[-> ->]|[_ HQ]]%Hr Hqe.
      * simpl in Hqe. simplify_eq. exists (Death c t). split; [apply He; by left|]. intros _ l Hi. by destruct (Hnq l).
      * destruct (d_ref q Q e HQ Hqe) as (E & HE & H). exists E. split; [|done]. apply He. right. split; [congruence|done].
    + intros q1 Q1 q2 Q2 e [[-> ->]|[_ H1]]%Hr Hd1 [[-> ->]|[_ H2]]%Hr Hd2; simpl in *; simplify_eq; try done.
      * by destruct (Hfresh q2 Q2).
      * by destruct (Hfresh q1 Q1).
      * by eapply d_own.
    + intros e l Hi. destruct (d_queue e l Hi) as [E HE]. exists E. apply He. right. split; [congruence|done].
    + intros w p Hi. destruct (d_deliv w p Hi) as (e & E & -> & HE & ?). exists e, E. split; [done|]. split; [|done].
      apply He. right. split; [congruence|done].
    + intros e E [[-> ->]|[_ HE]]%He.
      * left. exists r, R'. split; [apply Hr; by left|done].
      * destruct (d_free e E HE) as [(q & Q & HQ & Hqe)|?]; [left|by right]. exists q, Q. split; [|done].
        apply Hr. right. split; [congruence|done].
Qed.

(** A reference gives its notification up: it must then be on a list, of a
    type that gets it freed. *)
Lemma inv_disown r R d D t l s : inv s -> refs s !! r = Some R -> ref_death R = Some d -> deaths s !! d = Some D ->
  (t = BINDER_WORK_DEAD_BINDER_AND_CLEAR /\ WDeath d ∈ queue l s \/
   t = BINDER_WORK_CLEAR_DEATH_NOTIFICATION /\ (forall l, WDeath d ∉ queue l s) /\ forall p, l <> delivered_death p) ->
  inv (set_deaths (<[d := Death (death_cookie D) (Some t)]> (deaths s)) (ref_set r (set_ref_death None R)
    (if decide (t = BINDER_WORK_CLEAR_DEATH_NOTIFICATION) then enqueued l (WDeath d) s else s))).
Proof.
  intros I HR Hrd HD Hcase. set (s0 := if decide _ then _ else s). set (D' := Death _ (Some t)).
  set (s' := set_deaths _ _). set (R' := set_ref_death None R).
  assert (Hr : forall q Q, refs s' !! q = Some Q <-> q = r /\ Q = R' \/ q <> r /\ refs s !! q = Some Q).
  { intros q Q. unfold s'. cbn [refs set_deaths]. rewrite ref_set_lookup.
    replace (refs s0) with (refs s) by (unfold s0; by case_decide). split.
    - intros H. case_decide; simplify_eq; [by left|by right].
    - intros [[-> ->]|[? ?]]; [by rewrite decide_True|by rewrite decide_False]. }
  assert (He : forall e E, deaths s' !! e = Some E <-> e = d /\ E = D' \/ e <> d /\ deaths s !! e = Some E).
  { intros e E. simpl. rewrite lookup_insert_Some. split; [intros [[-> ->]|[? ?]]; [by left|right; done]|].
    intros [[-> ->]|[? ?]]; [by left|right; done]. }
  assert (Hq : forall w l', w ∈ queue l' s' -> w ∈ queue l' s \/ w = WDeath d /\ l' = l).
  { intros w l' Hi. change (queue l' s') with (queue l' s0) in Hi. unfold s0 in Hi. case_decide; [|by left].
    apply elem_enqueued in Hi as [?|[-> ->]]; [by left|by right]. }
  assert (Hq' : forall w l', w ∈ queue l' s -> w ∈ queue l' s').
  { intros w l' Hi. change (queue l' s') with (queue l' s0). unfold s0. case_decide; [|done]. apply elem_enqueued. by left. }
  assert (Hdl : WDeath d ∈ queue l s').
  { destruct Hcase as [[-> Hi]|[-> _]]; [by apply Hq'|]. change (queue l s') with (queue l s0). unfold s0.
    rewrite decide_True by done. apply elem_enqueued. by right. }
  assert (Hlists : lists_ok s').
  { change (lists_ok s0). unfold s0. case_decide as E; [|apply (inv_lists _ _ _ _ I)].
    apply lists_enqueued; [apply (inv_lists _ _ _ _ I)|]. destruct Hcase as [[-> _]|(_ & ? & _)]; done. }
  apply (inv_notified s); try done; try (unfold s', s0; by case_decide).
  - intros q Q [[-> ->]|[_ HQ]]%Hr; [by exists R|by exists Q].
  - intros q Q HQ. destruct (decide (q = r)) as [->|Hne]; [exists R'|exists Q]; (split; [apply Hr|]); simplify_eq; auto; done.
  - intros n l'. split; [intros [?|[? _]]%Hq; done|apply Hq'].
  - destruct I as [_ _ _ []].
    assert (Hoth : forall q Q, refs s' !! q = Some Q -> ref_death Q <> Some d).
    { intros q Q [[-> ->]|[Hne HQ]]%Hr Hqd; [done|]. apply Hne. by eapply d_own. }
    split.
    + intros q Q e HQ Hqe. pose proof (Hoth q Q HQ) as Hne. apply Hr in HQ as [[-> ->]|[_ HQ]]; [done|].
      destruct (d_ref q Q e HQ Hqe) as (E & HE & H). exists E. split; [apply He; right; split; [congruence|done]|].
      intros Hx l' [Hi|[? _]]%Hq; [|congruence]. destruct (H Hx l' Hi) as (? & n & N & ? & HN & ?). split; [done|].
      exists n, N. split; [done|]. split; [|done]. unfold s', s0. by case_decide.
    + intros q1 Q1 q2 Q2 e [[-> ->]|[_ H1]]%Hr Hd1 [[-> ->]|[_ H2]]%Hr Hd2; try done. by eapply d_own.
    + intros e l' [Hi|[[= ->] _]]%Hq; [|exists D'; apply He; by left]. destruct (d_queue e l' Hi) as [E HE].
      destruct (decide (e = d)) as [->|Hne]; [exists D'; apply He; by left|exists E; apply He; by right].
    + intros w p [Hi|[-> E]]%Hq.
      * destruct (d_deliv w p Hi) as (e & E & -> & HE & H). destruct (decide (e = d)) as [->|Hne].
        -- exists d, D'. split; [done|]. split; [apply He; by left|]. right. simpl.
           destruct Hcase as [[-> _]|(_ & Hno & _)]; [done|by destruct (Hno (delivered_death p))].
        -- exists e, E. split; [done|]. split; [|done]. apply He. by right.
      * exists d, D'. split; [done|]. split; [apply He; by left|]. right. simpl.
        destruct Hcase as [[-> _]|(_ & _ & Hl)]; [done|by destruct (Hl p)].
    + intros e E [[-> ->]|[Hne HE]]%He.
      * right. split; [by exists l|]. simpl. destruct Hcase as [[-> _]|[-> _]]; [by left|by right].
      * destruct (d_free e E HE) as [(q & Q & HQ & Hqe)|[[l' Hi] ?]]; [left|right].
        -- exists q, Q. split; [|done]. apply Hr. right. split; [congruence|done].
        -- split; [|done]. exists l'. by apply Hq'.
Qed.

(** ** Queueing a notification *)

(** The same objects and lists; threads may have been woken or flagged. *)
Record quiet (s s' : binder) : Prop := Quiet {
  qt_nodes : nodes s' = nodes s;
  qt_refs : refs s' = refs s;
  qt_deaths : deaths s' = deaths s;
  qt_queue l : queue l s' = queue l s;
  qt_mgr : binder_context_mgr_node s' = binder_context_mgr_node s;
  qt_inv : inv s -> inv s'
}.

Lemma alike_quiet s s' : alike s s' -> quiet s s'.
Proof. intros A. split; try apply A. intros I. by eapply inv_alike. Qed.

Lemma inv_set_thread t T T' s : inv s -> threads s !! t = Some T -> thread_proc T' = thread_proc T ->
  inv (set_threads (<[t := T']> (threads s)) s).
Proof.
  intros [G C Q D] HT E.
  assert (Hl : forall u U, <[t := T']> (threads s) !! u = Some U ->
    exists U0, threads s !! u = Some U0 /\ thread_proc U = thread_proc U0).
  { intros u U. rewrite lookup_insert. intros H. case_decide; simplify_eq; [by exists T|by exists U]. }
  assert (Ho : forall l, list_owner (set_threads (<[t := T']> (threads s)) s) l = list_owner s l).
  { intros [p|u|n|p]; simpl; try done. rewrite lookup_insert. case_decide; [|done]. subst. by rewrite HT; simpl; rewrite E. }
  split; [| |by destruct Q; split; try done; intros n l Hi; rewrite Ho; apply q_node|by destruct D].
  - destruct G. split; try done. destruct g_threads as [T1 T2]. split.
    + intros p P u HP Hu. simpl. rewrite lookup_insert. case_decide; [by eexists|by eapply T1].
    + intros u U HU. destruct (Hl u U HU) as (U0 & HU0 & ->). by eapply T2.
  - destruct C as [Cr Cn]. split; [done|]. intros n N HN. by destruct (Cn n N HN).
Qed.

Lemma is_waiting_eq t T s : threads s !! t = Some T -> exists b, is_waiting t s = Some (b, s).
Proof.
  intros HT. unfold is_waiting. erewrite bind_eq by by apply thread_at_eq. erewrite bind_eq by reflexivity. by eexists.
Qed.

Lemma thread_work_ok t T w s : threads s !! t = Some T -> (forall l, w ∉ queue l s) ->
  exists s', binder_enqueue_thread_work_ilocked t w s = Some (tt, s') /\ quiet (enqueued (thread_todo t) w s) s'.
Proof.
  intros HT Hw. unfold binder_enqueue_thread_work_ilocked. destruct (is_waiting_eq t T s HT) as [b Eb].
  erewrite bind_eq by exact Eb. erewrite bind_eq by reflexivity.
  set (s1 := if b then set_warnings (binder_warnings s + 1) s else s).
  erewrite bind_eq by (apply enqueue_eq; intros l; destruct b; exact (Hw l)). set (s2 := enqueued _ w s1).
  assert (A : alike (enqueued (thread_todo t) w s) s2) by (unfold s2, s1; destruct b; by apply alike_same).
  unfold set_process_todo. assert (HT2 : threads s2 !! t = Some T) by (by rewrite (al_threads _ _ A)).
  erewrite bind_eq by by apply (thread_at_eq t T). eexists. split; [reflexivity|]. destruct (alike_quiet _ _ A).
  split; try done. intros I. by apply (inv_set_thread t T); [apply qt_inv0|..].
Qed.

Lemma proc_work_ok p P w s : procs s !! p = Some P -> threads_there s -> (forall l, w ∉ queue l s) ->
  exists s', (binder_enqueue_work_ilocked w (Some (proc_todo p)) ;! binder_wakeup_proc_ilocked p) s = Some (tt, s') /\
    quiet (enqueued (proc_todo p) w s) s' /\ alike (enqueued (proc_todo p) w s) s'.
Proof.
  intros HP Hth Hw. erewrite bind_eq by by apply enqueue_eq.
  destruct (wakeup_proc_ok p P (enqueued (proc_todo p) w s)) as (s' & E & W); [done|done|].
  exists s'. split; [done|]. split; [by apply alike_quiet, woke_alike|by apply woke_alike].
Qed.

(** The notification joins the thread's list, or its process's. *)
Lemma queue_death_ok p P t T d s : procs s !! p = Some P -> threads s !! t = Some T -> threads_there s ->
  (forall l, WDeath d ∉ queue l s) ->
  exists l s', queue_death p t d s = Some (tt, s') /\ (l = thread_todo t \/ l = proc_todo p) /\
    quiet (enqueued l (WDeath d) s) s'.
Proof.
  intros HP HT Hth Hw. unfold queue_death. erewrite bind_eq by by apply thread_at_eq. destruct (negb _).
  - destruct (thread_work_ok t T (WDeath d) s HT Hw) as (s' & E & Q). exists (thread_todo t), s'.
    split; [done|]. split; [by left|done].
  - destruct (proc_work_ok p P (WDeath d) s HP Hth Hw) as (s' & E & Q & _). exists (proc_todo p), s'.
    split; [done|]. split; [by right|done].
Qed.

(** ** The commands *)

Section cmds.
Context `{RB : Rbtree} {RBL : RbtreeLaws}.

Lemma dequeued_noop w s : (forall l, w ∉ queue l s) -> alike s (dequeued w s).
Proof.
  intros H. split; try done.
  - intros l. rewrite queue_dequeued. by apply list_del_notin.
  - intros p P HP. exists P. split; [done|apply same_proc_refl].
  - intros p P HP. exists P. split; [done|apply same_proc_refl].
Qed.

(** BC_REQUEST_DEATH_NOTIFICATION: the first request on a reference gets the
    new notification; if the node is already dead it is on its way. *)
Lemma request_death_inv p P target cookie kz s : inv s -> procs s !! p = Some P -> deaths s !! kz = None ->
  exists s', bc_request_death p target cookie kz s = Some (tt, s') /\ inv s' /\ nodes s' = nodes s /\
    (s' = s \/ exists r R n N, refs s !! r = Some R /\ ref_proc R = p /\ desc (ref_data R) = target /\
       ref_death R = None /\ ref_node R = Some n /\ nodes s !! n = Some N /\
       refs s' = <[r := set_ref_death (Some kz) R]> (refs s) /\
       match node_proc N with
       | Some _ => deaths s' = <[kz := Death cookie None]> (deaths s) /\ forall l, WDeath kz ∉ queue l s'
       | None => deaths s' = <[kz := Death cookie (Some BINDER_WORK_DEAD_BINDER)]> (deaths s) /\
           WDeath kz ∈ queue (proc_todo p) s'
       end).
Proof.
  intros I HP Hkz. unfold bc_request_death. destruct (get_ref_inv p P target false s I HP) as (found & E & Hres).
  erewrite bind_eq by exact E. destruct found as [r|]; [|exists s; split_and!; try done; by left].
  destruct Hres as (R & n & N & HR & Hp & Hd & Hn & HN & Hi & _). erewrite bind_eq by by apply ref_at_eq.
  destruct (ref_death R) as [d|] eqn:Hrd; [exists s; split_and!; try done; by left|].
  assert (Hnq : forall l, WDeath kz ∉ queue l s).
  { intros l Hl. destruct (d_queue _ _ (i_notified _ _ _ _ I) kz l Hl) as [D HD]. congruence. }
  set (s0 := set_stats (bump BINDER_STAT_DEATH (obj_created s)) (obj_deleted s) s).
  assert (I0 : inv s0) by (eapply inv_alike; [exact I|by apply alike_same]).
  erewrite bind_eq by reflexivity. erewrite bind_eq by reflexivity. rewrite Hn. erewrite bind_eq by reflexivity.
  erewrite bind_eq by (by apply (node_at_eq n N)). set (R' := set_ref_death (Some kz) R).
  change (set_refs (<[r := R']> (refs s0)) s0) with (ref_set r R' s0).
  destruct (node_proc N) as [q|] eqn:Hq.
  - pose proof (inv_request r R kz cookie None s0 I0 HR Hrd Hkz) as I1.
    eexists. split; [reflexivity|]. split; [exact I1|]. split; [done|]. right. exists r, R, n, N.
    rewrite Hq. split_and!; try done.
  - pose proof (inv_request r R kz cookie (Some BINDER_WORK_DEAD_BINDER) s0 I0 HR Hrd Hkz) as I1.
    set (s1 := set_deaths _ _) in I1. erewrite bind_eq by reflexivity.
    change (set_deaths _ (ref_set r R' s0)) with s1.
    destruct (proc_work_ok p P (WDeath kz) s1) as (s' & E' & Q & A); [done|apply (g_threads _ _ _ (i_graph _ _ _ _ I1))|done|].
    exists s'. split; [exact E'|].
    assert (HD1 : deaths s1 !! kz = Some (Death cookie (Some BINDER_WORK_DEAD_BINDER))) by (simpl; by rewrite lookup_insert_eq).
    assert (HR1 : refs s1 !! r = Some R') by (simpl; by rewrite lookup_insert_eq).
    split; [|split; [by rewrite (qt_nodes _ _ Q)|]].
    + apply (qt_inv _ _ Q). eapply inv_alike.
      { apply (inv_move_death kz _ (Some BINDER_WORK_DEAD_BINDER) (proc_todo p) s1 I1 HD1); [|done]. split.
        - intros x X HX HxX. split; [done|]. assert (x = r) as -> by (by eapply (d_own _ _ (i_notified _ _ _ _ I1))).
          assert (X = R') as -> by congruence. by exists n, N.
        - left. by exists r, R'. }
      split; try done.
      * simpl. by rewrite insert_insert_eq.
      * intros l. rewrite !queue_enqueued. change (queue ?l0 (set_deaths ?x ?y)) with (queue l0 y).
        rewrite !queue_dequeued. rewrite !list_del_notin by apply Hnq. done.
      * intros x X HX. exists X. split; [done|apply same_proc_refl].
      * intros x X HX. exists X. split; [done|apply same_proc_refl].
    + right. exists r, R, n, N. rewrite Hq. split_and!; try done; [by rewrite (qt_refs _ _ Q)|by rewrite (qt_deaths _ _ Q)|].
      rewrite (qt_queue _ _ Q). apply elem_enqueued. by right.
Qed.

(** BC_CLEAR_DEATH_NOTIFICATION: with the right cookie the reference gives
    its notification up; if it is being delivered, it is freed after the
    acknowledgement, else its end is reported at once. *)
Lemma clear_death_inv p P t T target cookie s : inv s -> procs s !! p = Some P -> threads s !! t = Some T ->
  exists s', bc_clear_death p t target cookie s = Some (tt, s') /\ inv s' /\ nodes s' = nodes s /\
    (s' = s \/ exists r R d D, refs s !! r = Some R /\ ref_proc R = p /\ desc (ref_data R) = target /\
       ref_death R = Some d /\ deaths s !! d = Some D /\ death_cookie D = cookie /\
       refs s' = <[r := set_ref_death None R]> (refs s) /\
       ((exists l, WDeath d ∈ queue l s /\ WDeath d ∈ queue l s') /\
          deaths s' = <[d := Death cookie (Some BINDER_WORK_DEAD_BINDER_AND_CLEAR)]> (deaths s) \/
        (forall l, WDeath d ∉ queue l s) /\ (WDeath d ∈ queue (thread_todo t) s' \/ WDeath d ∈ queue (proc_todo p) s') /\
          deaths s' = <[d := Death cookie (Some BINDER_WORK_CLEAR_DEATH_NOTIFICATION)]> (deaths s))).
Proof.
  intros I HP HT. unfold bc_clear_death. destruct (get_ref_inv p P target false s I HP) as (found & E & Hres).
  erewrite bind_eq by exact E. destruct found as [r|]; [|exists s; split_and!; try done; by left].
  destruct Hres as (R & n & N & HR & Hp & Hd & Hn & HN & Hi & _). erewrite bind_eq by by apply ref_at_eq.
  destruct (ref_death R) as [d|] eqn:Hrd; [|exists s; split_and!; try done; by left].
  destruct (d_ref _ _ (i_notified _ _ _ _ I) r R d HR Hrd) as (D & HD & Hq). erewrite bind_eq by by apply death_at_eq.
  destruct (Z.eqb_spec (death_cookie D) cookie) as [Hc|Hc]; cbn [negb]; [|exists s; split_and!; try done; by left].
  erewrite bind_eq by reflexivity. erewrite bind_eq by reflexivity.
  fold (ref_set r (set_ref_death None R) s). set (s1 := ref_set r (set_ref_death None R) s).
  change (on_list (WDeath d) s1) with (on_list (WDeath d) s).
  destruct (on_list (WDeath d) s) eqn:Hon; cbn [negb].
  - destruct (proj1 (on_list_true _ _) Hon) as [l Hl]. destruct (Hq ltac:(done) l Hl) as [Ht _].
    rewrite bool_decide_eq_true_2 by done. cbn [negb]. erewrite bind_eq by reflexivity.
    eexists. split; [reflexivity|]. split.
    { pose proof (inv_disown r R d D BINDER_WORK_DEAD_BINDER_AND_CLEAR l s I HR Hrd HD ltac:(by left)) as I2. exact I2. }
    split; [done|]. right. exists r, R, d, D. split_and!; try done. left. split; [by exists l|]. simpl. by rewrite Hc.
  - pose proof (proj1 (on_list_false _ _) Hon) as Hno. erewrite bind_eq by reflexivity.
    set (D' := Death (death_cookie D) (Some BINDER_WORK_CLEAR_DEATH_NOTIFICATION)).
    change (set_deaths (<[d := D']> (deaths s1)) s1) with (set_deaths (<[d := D']> (deaths s)) s1).
    set (s2 := set_deaths (<[d := D']> (deaths s)) s1).
    destruct (queue_death_ok p P t T d s2) as (l & s' & E' & Hl & Q); [done|done|apply (g_threads _ _ _ (i_graph _ _ _ _ I))|done|].
    exists s'. split; [exact E'|]. split; [|split; [by rewrite (qt_nodes _ _ Q)|]].
    + apply (qt_inv _ _ Q).
      pose proof (inv_disown r R d D BINDER_WORK_CLEAR_DEATH_NOTIFICATION l s I HR Hrd HD) as I2.
      rewrite decide_True in I2 by done. apply I2. right. split_and!; try done. destruct Hl as [->| ->]; done.
    + right. exists r, R, d, D. split_and!; try done; [by rewrite (qt_refs _ _ Q)|]. right. split; [done|]. split.
      * rewrite !(qt_queue _ _ Q). destruct Hl as [->| ->]; [left|right]; apply elem_enqueued; by right.
      * rewrite (qt_deaths _ _ Q). simpl. unfold D'. by rewrite Hc.
Qed.

(** The list of delivered notifications holds nothing else. *)
Lemma find_delivered_ok cookie p s : forall l, (forall w, w ∈ l -> w ∈ queue (delivered_death p) s) -> inv s ->
  exists r, find_delivered l cookie s = Some (r, s) /\
    match r with
    | Some d => WDeath d ∈ l /\ exists D, deaths s !! d = Some D /\ death_cookie D = cookie
    | None => forall d D, WDeath d ∈ l -> deaths s !! d = Some D -> death_cookie D <> cookie
    end.
Proof.
  intros l Hl I. induction l as [|w l IH].
  { exists None. split; [done|]. by intros d D ?%not_elem_of_nil. }
  destruct (d_deliv _ _ (i_notified _ _ _ _ I) w p (Hl w ltac:(left))) as (d & D & -> & HD & _).
  cbn [find_delivered]. erewrite bind_eq by by apply death_at_eq.
  destruct (Z.eqb_spec (death_cookie D) cookie) as [Hc|Hc].
  - exists (Some d). split; [done|]. split; [left|by exists D].
  - destruct IH as (r & E & Hres); [intros w Hw; apply Hl; by right|]. exists r. split; [done|]. destruct r as [d'|].
    + destruct Hres as [? ?]. split; [by right|done].
    + intros e E' [He|He]%elem_of_cons HE; [|by eapply Hres]. congruence.
Qed.

(** BC_DEAD_BINDER_DONE: the acknowledged notification leaves the list; a
    cleared one is reported as such. *)
Lemma dead_binder_done_inv p P t T cookie s : inv s -> procs s !! p = Some P -> threads s !! t = Some T ->
  exists s', bc_dead_binder_done p t cookie s = Some (tt, s') /\ inv s' /\ nodes s' = nodes s /\ refs s' = refs s /\
    (s' = s /\ (forall d D, WDeath d ∈ queue (delivered_death p) s -> deaths s !! d = Some D -> death_cookie D <> cookie) \/
     exists d D, WDeath d ∈ queue (delivered_death p) s /\ deaths s !! d = Some D /\ death_cookie D = cookie /\
       if decide (death_work_type D = Some BINDER_WORK_DEAD_BINDER_AND_CLEAR)
       then (WDeath d ∈ queue (thread_todo t) s' \/ WDeath d ∈ queue (proc_todo p) s') /\
         deaths s' = <[d := Death cookie (Some BINDER_WORK_CLEAR_DEATH_NOTIFICATION)]> (deaths s)
       else (forall l, WDeath d ∉ queue l s') /\ deaths s' = deaths s /\
         exists r R, refs s !! r = Some R /\ ref_death R = Some d).
Proof.
  intros I HP HT. unfold bc_dead_binder_done. erewrite bind_eq by reflexivity.
  destruct (find_delivered_ok cookie p s (queue (delivered_death p) s) ltac:(done) I) as (r & E & Hres).
  erewrite bind_eq by exact E. destruct r as [d|]; [|exists s; split_and!; try done; by left].
  destruct Hres as (Hi & D & HD & Hc). erewrite bind_eq by reflexivity.
  fold (dequeued (WDeath d) s). set (s1 := dequeued (WDeath d) s).
  assert (Hno : forall l, WDeath d ∉ queue l s1) by (intros l [? _]%elem_dequeued; done).
  erewrite bind_eq by (by apply (death_at_eq d D)).
  pose proof (queued_type s d D _ I Hi HD) as Hty.
  destruct (decide (death_work_type D = Some BINDER_WORK_DEAD_BINDER_AND_CLEAR)) as [Ht|Ht].
  - rewrite bool_decide_eq_true_2 by done. erewrite bind_eq by reflexivity.
    set (D' := Death (death_cookie D) _). set (s2 := set_deaths _ s1).
    destruct (queue_death_ok p P t T d s2) as (l & s' & E' & Hl & Q); [done|done|apply (g_threads _ _ _ (i_graph _ _ _ _ I))|done|].
    exists s'. split; [exact E'|]. split; [|split; [by rewrite (qt_nodes _ _ Q)|split; [by rewrite (qt_refs _ _ Q)|]]].
    + apply (qt_inv _ _ Q). apply (inv_move_death d D (Some BINDER_WORK_CLEAR_DEATH_NOTIFICATION) l s I HD).
      * destruct Hty as [[_ E2]|[Hun _]]; [congruence|]. split; [|right; by right].
        intros x X HX HxX. by destruct (Hun x X HX).
      * intros q ->. by destruct Hl.
    + right. exists d, D. split_and!; try done. rewrite decide_True by done. split.
      * rewrite !(qt_queue _ _ Q). destruct Hl as [->| ->]; [left|right]; apply elem_enqueued; by right.
      * rewrite (qt_deaths _ _ Q). simpl. unfold D'. by rewrite Hc.
  - rewrite bool_decide_eq_false_2 by done. exists s1. split; [done|].
    assert (Hown : exists r R, refs s !! r = Some R /\ ref_death R = Some d).
    { destruct Hty as [[? _]|[Hun [?|Hcl]]]; [done|done|]. exfalso.
      destruct (d_deliv _ _ (i_notified _ _ _ _ I) _ p Hi) as (e & E0 & [= <-] & HE & [?|?]); congruence. }
    split; [|split_and!; try done].
    + destruct Hown as (r & R & HR & Hr). by apply (inv_dequeue_death None None None r R d).
    + right. exists d, D. split_and!; try done. by rewrite decide_False.
Qed.

(** Reading a notification: a death is reported and waits for its
    acknowledgement, the end of a notification is reported and frees it. *)
Lemma read_death_inv p d l s : inv s -> WDeath d ∈ queue l s -> exists D s', deaths s !! d = Some D /\
    inv s' /\ nodes s' = nodes s /\ refs s' = refs s /\
    if decide (death_work_type D = Some BINDER_WORK_CLEAR_DEATH_NOTIFICATION)
    then read_work_death p d (dequeued (WDeath d) s) = Some ((BR_CLEAR_DEATH_NOTIFICATION_DONE, death_cookie D), s') /\
      deaths s' = delete d (deaths s) /\ forall l, WDeath d ∉ queue l s'
    else read_work_death p d (dequeued (WDeath d) s) = Some ((BR_DEAD_BINDER, death_cookie D), s') /\
      deaths s' = deaths s /\ WDeath d ∈ queue (delivered_death p) s'.
Proof.
  intros I Hi. destruct (d_queue _ _ (i_notified _ _ _ _ I) d l Hi) as [D HD]. exists D.
  pose proof (queued_type s d D l I Hi HD) as Hty. unfold read_work_death. set (s1 := dequeued (WDeath d) s).
  assert (Hno : forall l, WDeath d ∉ queue l s1) by (intros l' [? _]%elem_dequeued; done).
  rewrite (bind_eq _ _ s1 D s1) by (by apply (death_at_eq d D)).
  destruct (decide (death_work_type D = Some BINDER_WORK_CLEAR_DEATH_NOTIFICATION)) as [Ht|Ht].
  - rewrite bool_decide_eq_true_2 by done.
    eexists. split; [done|]. split; [|split; [|split; [|split; [reflexivity|]]]]; try done.
    eapply inv_alike; [apply (inv_delete_death d s I)|by apply alike_same].
    destruct Hty as [[_ ?]|[? _]]; [congruence|done].
  - rewrite bool_decide_eq_false_2 by done. exists (enqueued (delivered_death p) (WDeath d) s1).
    split; [done|]. split.
    + eapply inv_alike; [apply (inv_move_death d D (death_work_type D) (delivered_death p) s I HD)|].
      * destruct Hty as [[Hown E]|[Hun E]].
        -- split; [|by left]. intros r R HR Hr. split; [done|].
           destruct (d_ref _ _ (i_notified _ _ _ _ I) r R d HR Hr) as (D2 & HD2 & H). by destruct (H ltac:(done) l Hi).
        -- split; [|by right]. intros r R HR Hr. by destruct (Hun r R HR).
      * by intros q _.
      * apply alike_same; try done. simpl. rewrite insert_id; [done|]. rewrite HD. by destruct D.
    + split; [done|]. split; [done|]. rewrite (bind_eq _ _ s1 tt (enqueued (delivered_death p) (WDeath d) s1)) by by apply enqueue_eq.
      split; [done|]. split; [done|]. apply elem_enqueued. by right.
Qed.
End cmds.
