(* ===== verification/BinderNodeRelease.v ===== *)
(** * The end of a process: its nodes and references

    [binder_deferred_release] gives up the context manager, kills the
    process's nodes and drops its references. *)

From Stdlib Require Import ZArith Lia.
From stdpp Require Import base option gmap sets list sorting.
From S2P Require Import Prelude RbTree BinderNode BinderNodeFacts BinderNodeInv BinderNodeOps.
From S2P Require Import BinderNodeRef BinderNodeDrop BinderNodeDeath.

Section release.
Context `{RB : Rbtree} {RBL : RbtreeLaws}.

(** ** The context manager *)

Lemma inv_del_mgr c s : inv s -> inv (set_mgr (delete c (binder_context_mgr_node s)) s).
Proof.
  intros [G C Q D]. split; [| |by destruct Q|by destruct D].
  - destruct G. split; try done. intros c' m. simpl. intros [_ Hm]%lookup_delete_Some. by apply g_mgr.
  - destruct C as [Cr Cn]. split; [done|]. intros n N HN. destruct (Cn n N HN). split; try done.
    intros [c' Hm]. simpl in Hm. apply lookup_delete_Some in Hm as [_ Hm]. apply nc_mgr. by exists c'.
Qed.

(** None of the process's nodes is a context manager. *)
Definition no_mgr_of (p : nat) (s : binder) : Prop :=
  forall n N, nodes s !! n = Some N -> node_proc N = Some p -> ~ is_mgr s n.

Lemma release_mgr_inv p P s : inv s -> procs s !! p = Some P ->
  exists s', release_context_mgr p s = Some (tt, s') /\ inv s' /\ no_mgr_of p s' /\ nodes s' = nodes s /\ refs s' = refs s /\
    procs s' = procs s /\ deaths s' = deaths s /\ works s' = works s /\ threads s' = threads s.
Proof.
  intros I HP. unfold release_context_mgr. erewrite bind_eq by by apply proc_at_eq. erewrite bind_eq by reflexivity.
  assert (Hctx : forall c n N, binder_context_mgr_node s !! c = Some n -> nodes s !! n = Some N ->
    node_proc N = Some p -> c = proc_context P).
  { intros c n N Hc HN Hp. destruct (g_mgr _ _ _ (i_graph _ _ _ _ I) c n Hc) as (_ & ? & q & Q & ? & ? & ? & <-).
    simplify_eq. done. }
  destruct (binder_context_mgr_node s !! proc_context P) as [m|] eqn:Hm.
  2:{ exists s. split; [done|]. split; [done|]. split; [|done]. intros n N HN Hp [c Hc].
      assert (c = proc_context P) as -> by (by eapply Hctx). congruence. }
  destruct (g_mgr _ _ _ (i_graph _ _ _ _ I) _ m Hm) as (_ & N & q & Q & HN & Hq & _).
  erewrite bind_eq by by apply node_at_eq. case_bool_decide as Hself.
  - eexists. split; [reflexivity|]. split; [by apply inv_del_mgr|]. split; [|done]. intros n M HM Hp [c Hc].
    simpl in Hc. apply lookup_delete_Some in Hc as [Hne Hc]. apply Hne. symmetry. by eapply Hctx.
  - exists s. split; [done|]. split; [done|]. split; [|done]. intros n M HM Hp [c Hc].
    assert (c = proc_context P) as -> by (by eapply Hctx). congruence.
Qed.

(** ** Killing a node *)

Definition killed (N : binder_node) : binder_node := set_counts (internal_strong_refs N) 0 0 (tmp_refs N) (set_node_proc None N).

Definition kill (p : nat) (P : binder_proc) (n : nat) (N : binder_node) (s : binder) : binder :=
  set_dead_nodes (n :: binder_dead_nodes s) (node_set n (killed N)
    (set_procs (<[p := set_proc_nodes (rb_erase n (proc_nodes P)) P]> (procs s)) (dequeued (WNode n) s))).

Lemma graph_kill p P n N s : inv s -> nodes s !! n = Some N -> node_proc N = Some p -> procs s !! p = Some P ->
  ~ is_mgr s n -> graph None None (kill p P n N s).
Proof.
  intros I HN Hp HP Hmgr. pose proof (i_graph _ _ _ _ I) as G. set (s' := kill _ _ _ _ _).
  assert (Hl : forall m M', nodes s' !! m = Some M' -> exists M, nodes s !! m = Some M /\ node_refs M' = node_refs M /\
    (m = n /\ node_proc M' = None /\ M = N \/ m <> n /\ M' = M)).
  { intros m M' HM. unfold s', kill in HM. cbn [nodes set_dead_nodes] in HM. rewrite node_set_lookup in HM.
    case_decide; simplify_eq; [exists N|exists M']; split_and!; try done; [by left|by right]. }
  assert (Hl' : forall m M, nodes s !! m = Some M -> exists M', nodes s' !! m = Some M' /\ node_refs M' = node_refs M /\
    (m <> n -> M' = M)).
  { intros m M HM. unfold s', kill. cbn [nodes set_dead_nodes]. rewrite node_set_lookup.
    case_decide; [subst m; exists (killed N); assert (M = N) as -> by congruence; done|by exists M]. }
  assert (Hprocs : forall q Q', procs s' !! q = Some Q' -> exists Q, procs s !! q = Some Q /\
    (q = p /\ Q' = set_proc_nodes (rb_erase n (proc_nodes P)) P /\ Q = P \/ q <> p /\ Q' = Q)).
  { intros q Q'. unfold s', kill. cbn [procs set_dead_nodes node_set set_nodes set_procs]. rewrite lookup_insert.
    intros HQ. case_decide; simplify_eq; [exists P|exists Q']; (split; [done|]); [by left|by right]. }
  assert (Hsome : forall q, is_Some (procs s !! q) -> is_Some (procs s' !! q)).
  { intros q [Q' HQ]. unfold s', kill. cbn [procs set_dead_nodes node_set set_nodes set_procs]. rewrite lookup_insert.
    case_decide; by eexists. }
  assert (Hown : forall q m, (None <> Some m /\ exists M, nodes s' !! m = Some M /\ node_proc M = Some q) <->
    m <> n /\ None <> Some m /\ exists M, nodes s !! m = Some M /\ node_proc M = Some q).
  { intros q m. split.
    - intros (_ & M' & HM & Hq). destruct (Hl m M' HM) as (M & HM0 & _ & [(-> & E & _)|(Hne & ->)]); [congruence|].
      split; [done|]. split; [done|]. by exists M.
    - intros (Hne & _ & M & HM & Hq). split; [done|]. destruct (Hl' m M HM) as (M' & HM' & _ & E).
      exists M'. rewrite E by done. split; [|done]. by rewrite E in HM'. }
  assert (Hptr : forall m, nptr s' m = nptr s m).
  { intros m. unfold nptr, s', kill. cbn [nodes set_dead_nodes]. rewrite node_set_lookup. case_decide; [|done].
    subst m. by rewrite HN. }
  destruct G. split; try done.
  - intros q Q' HQ. destruct (Hprocs q Q' HQ) as (Q & HQ0 & [(-> & -> & ->)|(Hne & ->)]).
    + eapply (holds_set_erase _ _ (fun m => None <> Some m /\ exists M, nodes s !! m = Some M /\ node_proc M = Some p) n);
        [|split; [done|by exists N]|apply Hown]. eapply holds_set_ext; [exact (g_nodes p P HP)|done|intros m _; apply Hptr].
    + eapply holds_set_ext; [by apply g_nodes| |intros m _; apply Hptr]. intros m. rewrite Hown. split; [|by intros [_ H]].
      intros (Hx & M & HM & HMq). split; [congruence|]. split; [done|by exists M].
  - intros q Q' HQ. destruct (Hprocs q Q' HQ) as (Q & HQ0 & [(-> & -> & ->)|(Hne & ->)]); exact (g_desc _ _ HQ0).
  - intros q Q' HQ. destruct (Hprocs q Q' HQ) as (Q & HQ0 & [(-> & -> & ->)|(Hne & ->)]); exact (g_byno _ _ HQ0).
  - intros r R HR Hx. destruct (g_ref r R HR Hx) as (? & m & M & Hm & HM & Hi). split; [by apply Hsome|].
    destruct (Hl' m M HM) as (M' & HM' & E & _). exists m, M'. by rewrite E.
  - intros m M' HM. destruct (Hl m M' HM) as (M & HM0 & -> & _). by apply g_refs.
  - intros m M' q HM Hq. destruct (Hl m M' HM) as (M & HM0 & _ & [(-> & E & _)|(Hne & ->)]); [congruence|].
    by eapply Hsome, g_proc.
  - destruct g_dead as [Hnd Hd]. split.
    + constructor; [|done]. intros Hi. apply Hd in Hi as (_ & M & HM & HMp). congruence.
    + intros m. simpl. rewrite elem_of_cons, Hd. split.
      * intros [->|(_ & M & HM & HMp)]; (split; [done|]).
        -- exists (killed N). split; [|done]. apply lookup_insert_eq.
        -- destruct (Hl' m M HM) as (M' & HM' & _ & E). assert (m <> n) by congruence. exists M'. by rewrite E in * by done.
      * intros (_ & M' & HM & HMp). destruct (Hl m M' HM) as (M & HM0 & _ & [(-> & _)|(Hne & ->)]); [by left|right].
        split; [done|by exists M].
  - destruct g_threads as [T1 T2]. split; [|intros u U HU; by eapply Hsome, T2].
    intros q Q' u HQ. destruct (Hprocs q Q' HQ) as (Q & HQ0 & [(-> & -> & ->)|(Hne & ->)]); by apply (T1 _ _ u HQ0).
  - intros c m Hc. destruct (g_mgr c m Hc) as (_ & M & q & Q & HM & Hq & HQ & Hctx). split; [done|].
    assert (m <> n) by (intros ->; apply Hmgr; by exists c). destruct (Hl' m M HM) as (M' & HM' & _ & E).
    rewrite E in HM' by done. exists M, q. destruct (decide (q = p)) as [->|Hne].
    + eexists. unfold s', kill. cbn [procs set_dead_nodes node_set set_nodes set_procs]. rewrite lookup_insert_eq.
      split_and!; try done. simpl. congruence.
    + exists Q. unfold s' at 2. unfold kill. cbn [procs set_dead_nodes node_set set_nodes set_procs].
      by rewrite lookup_insert_ne.
Qed.

Lemma inv_kill p P n N s : inv s -> nodes s !! n = Some N -> node_proc N = Some p -> procs s !! p = Some P ->
  ~ is_mgr s n -> 1 <= tmp_refs N -> inv (kill p P n N s).
Proof.
  intros I HN Hp HP Hmgr Ht. split; [by apply graph_kill|..].
  - destruct (i_counted _ _ _ _ I) as [Cr Cn]. split; [done|]. intros m M HM. unfold kill in HM.
    cbn [nodes set_dead_nodes] in HM. rewrite node_set_lookup in HM. case_decide; simplify_eq.
    + destruct (Cn n N HN). split; unfold owed, two31 in *; simpl; done || lia.
    + by destruct (Cn m M HM).
  - destruct (i_queued _ _ _ _ I). split.
    + intros l. change (NoDup (queue l (dequeued (WNode n) s))). rewrite queue_dequeued. by apply list_del_NoDup.
    + intros w l1 l2 H1 H2. apply (elem_dequeued (WNode n) l1) in H1 as [_ H1].
      apply (elem_dequeued (WNode n) l2) in H2 as [_ H2]. by eapply q_once.
    + intros m l Hm. apply (elem_dequeued (WNode n) l) in Hm as [Hne Hm].
      destruct (q_node m l Hm) as (_ & M & q & HM & Hq & Ho). split; [done|]. exists M, q. unfold kill.
      cbn [nodes set_dead_nodes]. rewrite node_set_lookup, decide_False by congruence. done.
    + intros m M HM _ _. unfold kill in HM. cbn [nodes set_dead_nodes] in HM. rewrite node_set_lookup in HM.
      case_decide; simplify_eq.
      * left. right; right; right. simpl. lia.
      * destruct (q_held m M HM ltac:(done) ltac:(done)) as [?|[l Hl]]; [by left|right]. exists l.
        apply (elem_dequeued (WNode n) l). split; [congruence|done].
  - destruct (i_notified _ _ _ _ I).
    assert (Hq : forall d l, WDeath d ∈ queue l (kill p P n N s) <-> WDeath d ∈ queue l s).
    { intros d l. change (WDeath d ∈ queue l (dequeued (WNode n) s) <-> WDeath d ∈ queue l s). rewrite elem_dequeued.
      split; [by intros [_ ?]|by split]. }
    split; try done.
    + intros r R d HR Hd. destruct (d_ref r R d HR Hd) as (D & HD & H). exists D. split; [done|]. intros Hx l Hi%Hq.
      destruct (H Hx l Hi) as (? & m & M & Hm & HM & HMp). split; [done|]. exists m, M.
      assert (m <> n) by congruence. unfold kill. cbn [nodes set_dead_nodes]. rewrite node_set_lookup, decide_False by done.
      done.
    + intros d l Hi%Hq. by eapply d_queue.
    + intros w q Hi. apply (elem_dequeued (WNode n)) in Hi as [_ Hi]. by eapply d_deliv.
    + intros d D HD. destruct (d_free d D HD) as [?|[[l Hi] ?]]; [by left|right]. split; [|done]. exists l. by apply Hq.
Qed.

(** ** Telling the references *)

(** Lists and notifications only grow from [s] to [s']. *)
Record notifying (s s' : binder) : Prop := Notifying {
  nf_refs : refs s' = refs s;
  nf_mgr : binder_context_mgr_node s' = binder_context_mgr_node s;
  nf_death d D : deaths s !! d = Some D -> exists D', deaths s' !! d = Some D' /\ death_cookie D' = death_cookie D /\
    ((exists l, WDeath d ∈ queue l s) -> D' = D);
  nf_queue d l : WDeath d ∈ queue l s -> WDeath d ∈ queue l s';
  nf_proc p P : procs s !! p = Some P -> exists P', procs s' !! p = Some P' /\ proc_context P' = proc_context P
}.

Lemma notifying_refl s : notifying s s.
Proof. split; try done; [intros d D HD; by exists D|intros p P HP; by exists P]. Qed.

Lemma notifying_trans s1 s2 s3 : notifying s1 s2 -> notifying s2 s3 -> notifying s1 s3.
Proof.
  intros A B. split.
  - by rewrite (nf_refs _ _ B), (nf_refs _ _ A).
  - by rewrite (nf_mgr _ _ B), (nf_mgr _ _ A).
  - intros d D HD. destruct (nf_death _ _ A d D HD) as (D1 & HD1 & E1 & H1).
    destruct (nf_death _ _ B d D1 HD1) as (D2 & HD2 & E2 & H2). exists D2. split; [done|]. split; [congruence|].
    intros [l Hl]. rewrite H2; [by apply H1; exists l|]. exists l. by apply (nf_queue _ _ A).
  - intros d l Hl. by apply (nf_queue _ _ B), (nf_queue _ _ A).
  - intros p P HP. destruct (nf_proc _ _ A p P HP) as (P1 & HP1 & E1).
    destruct (nf_proc _ _ B p P1 HP1) as (P2 & HP2 & E2). exists P2. split; [done|congruence].
Qed.

(** The notification of reference [r] is on its way. *)
Definition notified_ref (s : binder) (r : nat) : Prop := forall R d, refs s !! r = Some R -> ref_death R = Some d ->
  WDeath d ∈ queue (proc_todo (ref_proc R)) s /\
  exists D, deaths s !! d = Some D /\ death_work_type D = Some BINDER_WORK_DEAD_BINDER.

Lemma notified_ref_mono s s' r : notifying s s' -> notified_ref s r -> notified_ref s' r.
Proof.
  intros A H R d HR Hd. rewrite (nf_refs _ _ A) in HR. destruct (H R d HR Hd) as (Hq & D & HD & Ht).
  split; [by apply (nf_queue _ _ A)|]. destruct (nf_death _ _ A d D HD) as (D' & HD' & _ & E). exists D'.
  split; [done|]. rewrite E by by eexists. done.
Qed.

(** One reference of a dead node. *)
Lemma notify_one r R d D n N s : inv s -> refs s !! r = Some R -> ref_death R = Some d -> deaths s !! d = Some D ->
  ref_node R = Some n -> nodes s !! n = Some N -> node_proc N = None -> (forall l, WDeath d ∉ queue l s) ->
  exists s', (put_death_at d (Death (death_cookie D) (Some BINDER_WORK_DEAD_BINDER)) ;!
      binder_enqueue_work_ilocked (WDeath d) (Some (proc_todo (ref_proc R))) ;!
      binder_wakeup_proc_ilocked (ref_proc R)) s = Some (tt, s') /\ inv s' /\ notifying s s' /\ nodes s' = nodes s /\
    notified_ref s' r /\ (forall e l, e <> d -> WDeath e ∈ queue l s' -> WDeath e ∈ queue l s).
Proof.
  intros I HR Hrd HD Hn HN Hp Hno. destruct (g_ref _ _ _ (i_graph _ _ _ _ I) r R HR ltac:(done)) as ([P HP] & _).
  erewrite bind_eq by reflexivity. set (D' := Death (death_cookie D) _). set (s1 := set_deaths _ s).
  destruct (proc_work_ok (ref_proc R) P (WDeath d) s1 HP) as (s' & E & Q & A);
    [apply (g_threads _ _ _ (i_graph _ _ _ _ I))|done|].
  exists s'. split; [exact E|]. assert (Hq : forall l w, w ∈ queue l s' <-> w ∈ queue l s \/ l = proc_todo (ref_proc R) /\ w = WDeath d).
  { intros l w. rewrite (qt_queue _ _ Q). exact (elem_enqueued (proc_todo (ref_proc R)) (WDeath d) l w s1). }
  assert (HD' : deaths s' !! d = Some D') by (rewrite (qt_deaths _ _ Q); simpl; by rewrite lookup_insert_eq).
  split; [|split; [|split; [by rewrite (qt_nodes _ _ Q)|split]]].
  - apply (qt_inv _ _ Q). eapply inv_alike.
    { apply (inv_move_death d D (Some BINDER_WORK_DEAD_BINDER) (proc_todo (ref_proc R)) s I HD); [|done]. split.
      - intros x X HX HxX. split; [done|]. assert (x = r) as -> by (by eapply (d_own _ _ (i_notified _ _ _ _ I))).
        assert (X = R) as -> by congruence. by exists n, N.
      - left. by exists r, R. }
    split; try done.
    + intros l. rewrite !queue_enqueued. change (queue ?l0 (set_deaths ?x ?y)) with (queue l0 y).
      unfold s1. rewrite !queue_dequeued. rewrite !list_del_notin by apply Hno. done.
    + intros x X HX. exists X. split; [done|apply same_proc_refl].
    + intros x X HX. exists X. split; [done|apply same_proc_refl].
  - split.
    + by rewrite (qt_refs _ _ Q).
    + by rewrite (qt_mgr _ _ Q).
    + intros e E0 HE. destruct (decide (e = d)) as [->|Hne].
      * exists D'. split; [done|]. split; [simpl; congruence|]. intros [l Hl]. by destruct (Hno l).
      * exists E0. split; [rewrite (qt_deaths _ _ Q); simpl; by rewrite lookup_insert_ne|done].
    + intros e l Hl. apply Hq. by left.
    + intros p P0 HP0. destruct (al_proc _ _ A p P0 HP0) as (P' & HP' & S). exists P'. split; [done|apply S].
  - intros X e HX He. rewrite (qt_refs _ _ Q) in HX. change (refs s !! r = Some X) in HX. simplify_eq.
    split; [apply Hq; by right|by exists D'].
  - intros e l Hne [?|[_ [= ?]]]%Hq; [done|congruence].
Qed.

Lemma release_loop_inv n N : forall l s count, inv s -> NoDup l -> nodes s !! n = Some N -> node_proc N = None ->
  (forall r, r ∈ l -> exists R, refs s !! r = Some R /\ ref_node R = Some n) ->
  (forall r R d l', r ∈ l -> refs s !! r = Some R -> ref_death R = Some d -> WDeath d ∉ queue l' s) ->
  exists s', node_release_loop l count s = Some (count + Z.of_nat (length l), s') /\ inv s' /\ notifying s s' /\
    nodes s' = nodes s /\ forall r, r ∈ l -> notified_ref s' r.
Proof.
  induction l as [|r l IH]; intros s count I Hnd HN Hp Hl Hno.
  { exists s. split; [simpl; by rewrite Z.add_0_r|]. split; [done|]. split; [apply notifying_refl|]. split; [done|].
    by intros r ?%not_elem_of_nil. }
  apply NoDup_cons in Hnd as [Hr Hnd]. destruct (Hl r ltac:(left)) as (R & HR & Hn). cbn [node_release_loop].
  erewrite bind_eq by by apply ref_at_eq.
  assert (Hstep : exists s1, (match ref_death R with None => ret tt | Some d => let! s := get in
      bug_on (on_list (WDeath d) s) ;! let! D := death_at d in
      put_death_at d (Death (death_cookie D) (Some BINDER_WORK_DEAD_BINDER)) ;!
      binder_enqueue_work_ilocked (WDeath d) (Some (proc_todo (ref_proc R))) ;!
      binder_wakeup_proc_ilocked (ref_proc R) end) s = Some (tt, s1) /\ inv s1 /\ notifying s s1 /\ nodes s1 = nodes s /\
    notified_ref s1 r /\ (forall e l, ref_death R <> Some e -> WDeath e ∈ queue l s1 -> WDeath e ∈ queue l s)).
  { destruct (ref_death R) as [d|] eqn:Hd.
    - assert (Hq : forall l', WDeath d ∉ queue l' s) by (intros l'; apply (Hno r R d l' ltac:(left) HR Hd)).
      destruct (d_ref _ _ (i_notified _ _ _ _ I) r R d HR Hd) as (D & HD & _).
      destruct (notify_one r R d D n N s I HR Hd HD Hn HN Hp Hq) as (s1 & E & I1 & A & En & H1 & H2).
      exists s1. split.
      { erewrite bind_eq by reflexivity. rewrite (proj2 (on_list_false _ _) Hq). erewrite bind_eq by reflexivity.
        erewrite bind_eq by by apply death_at_eq. exact E. }
      split_and!; try done. intros e l' Hne. apply H2. congruence.
    - exists s. split; [done|]. split; [done|]. split; [apply notifying_refl|]. split; [done|]. split; [|done].
      intros X d HX Hd'. congruence. }
  destruct Hstep as (s1 & E1 & I1 & A1 & En1 & Hr1 & Hback). erewrite bind_eq by exact E1.
  destruct (IH s1 (count + 1) I1 Hnd) as (s' & E' & I' & A' & En' & Hrest).
  - by rewrite En1.
  - done.
  - intros q Hq. rewrite (nf_refs _ _ A1). apply Hl. by right.
  - intros q Q d l' Hq HQ Hd. rewrite (nf_refs _ _ A1) in HQ. intros Hi. apply Hback in Hi.
    + by apply (Hno q Q d l' ltac:(by right) HQ Hd).
    + intros Hrd. apply Hr. assert (r = q) as ->; [|done]. by eapply (d_own _ _ (i_notified _ _ _ _ I) q Q r R).
  - exists s'. split; [rewrite E'; f_equal; f_equal; simpl length; lia|]. split; [done|].
    split; [by eapply notifying_trans|]. split; [by rewrite En'|].
    intros q [->|Hq]%elem_of_cons; [by eapply notified_ref_mono|by apply Hrest].
Qed.

(** ** One node of the process *)

(** The node is gone, or dead with its references kept. *)
Definition node_dead (n : nat) (N : binder_node) (s : binder) : Prop :=
  forall M, nodes s !! n = Some M -> node_proc M = None /\ node_refs M = node_refs N.

Lemma release_node_inv p P n N count s : inv s -> procs s !! p = Some P -> nodes s !! n = Some N ->
  node_proc N = Some p -> ~ is_mgr s n -> tmp_refs N + 1 < two31 ->
  let s1 := node_set n (add_tmp 1 N) s in
  exists s', binder_node_release n count (set_procs (<[p := set_proc_nodes (rb_erase n (proc_nodes P)) P]> (procs s1)) s1)
      = Some (count + Z.of_nat (length (node_refs N)), s') /\ inv s' /\ notifying s s' /\
    (forall m, m <> n -> nodes s' !! m = nodes s !! m) /\ node_dead n N s' /\
    forall r, r ∈ node_refs N -> notified_ref s' r.
Proof.
  intros I HP HN Hp Hmgr Hroom s1. set (N1 := add_tmp 1 N) in *.
  pose proof (nc_tmp _ _ _ (c_node _ (i_counted _ _ _ _ I) n N HN)) as Ht.
  destruct (inc_tmpref_inv None None n N s I ltac:(by left) HN Hroom) as [_ I1]. fold N1 s1 in I1.
  assert (HN1 : nodes s1 !! n = Some N1) by (unfold s1; rewrite node_set_lookup; by rewrite decide_True).
  set (s2 := set_procs _ s1). unfold binder_node_release.
  erewrite bind_eq by (by apply (node_at_eq n N1)). erewrite bind_eq by reflexivity.
  change (tmp_refs N1) with (tmp_refs N + 1). change (node_refs N1) with (node_refs N).
  rewrite (proj2 (Z.eqb_neq (tmp_refs N + 1) 0)) by lia. erewrite bind_eq by reflexivity.
  fold (dequeued (WNode n) s2). set (s3 := dequeued (WNode n) s2).
  destruct (bool_decide (node_refs N = []) && (tmp_refs N + 1 =? 1)) eqn:Hfree.
  - apply andb_true_iff in Hfree as [Hrefs%bool_decide_eq_true Htmp%Z.eqb_eq].
    assert (I3 : inv_ None (Some n) None s3).
    { apply (inv_unlink_free None n N1 s1); [by apply inv_loosen|done|done|done|].
      unfold unlinked. change (node_proc N1) with (node_proc N). rewrite Hp. by exists P. }
    destruct (free_node_inv None n s3 I3) as (s4 & E4 & I4 & ->). erewrite bind_eq by exact E4.
    eexists. split; [rewrite Hrefs; simpl; rewrite Z.add_0_r; reflexivity|]. split; [done|].
    rewrite Hrefs. split; [|split; [|split]].
    + split; try done.
      * intros d D HD. by exists D.
      * intros d l Hl. apply (elem_dequeued (WNode n) l). split; [done|exact Hl].
      * intros q Q HQ. simpl. rewrite lookup_insert. case_decide; [|by exists Q]. subst q. simplify_eq.
        eexists. split; [reflexivity|done].
    + intros m Hm. simpl. by rewrite lookup_delete_ne, lookup_insert_ne.
    + intros M HM. simpl in HM. by rewrite lookup_delete_eq in HM.
    + by intros r ?%not_elem_of_nil.
  - erewrite bind_eq by reflexivity. erewrite bind_eq by reflexivity.
    pose proof (inv_kill p P n N1 s1 I1 HN1 Hp HP Hmgr ltac:(simpl; lia)) as I4.
    set (s4 := kill p P n N1 s1) in I4.
    assert (HN4 : nodes s4 !! n = Some (killed N1)) by apply lookup_insert_eq.
    destruct (release_loop_inv n (killed N1) (node_refs N) s4 count I4) as (s5 & E5 & I5 & A5 & En5 & Hno5).
    + by apply (g_refs _ _ _ (i_graph _ _ _ _ I) n).
    + done.
    + done.
    + intros r Hr. destruct (proj2 (g_refs _ _ _ (i_graph _ _ _ _ I) n N HN) r Hr) as (_ & R & HR & Hn). by exists R.
    + intros r R d l' Hr HR Hd Hi. apply (elem_dequeued (WNode n) l') in Hi as [_ Hi].
      destruct (proj2 (g_refs _ _ _ (i_graph _ _ _ _ I) n N HN) r Hr) as (_ & R0 & HR0 & Hn).
      change (refs s !! r = Some R) in HR. simplify_eq.
      destruct (d_ref _ _ (i_notified _ _ _ _ I) r R d HR Hd) as (D & _ & H).
      destruct (H ltac:(done) l' Hi) as (_ & n' & N' & Hn' & HN' & Hdead). congruence.
    + erewrite bind_eq by exact E5.
      assert (HN5 : nodes s5 !! n = Some (killed N1)) by (by rewrite En5).
      destruct (put_node_inv None n (killed N1) s5 I5 HN5 ltac:(simpl; lia)) as
        (s6 & E6 & I6 & G6 & O6 & R6 & D6 & _ & M6 & _ & Q6 & P6).
      erewrite bind_eq by exact E6. exists s6. split; [done|]. split; [done|].
      assert (A6 : notifying s5 s6).
      { split; [done|done| | |done].
        - intros d D HD. exists D. by rewrite D6.
        - intros d l Hl. by apply Q6. }
      assert (A4 : notifying s s4).
      { split; try done.
        - intros d D HD. by exists D.
        - intros d l Hl. apply (elem_dequeued (WNode n) l). split; [done|exact Hl].
        - intros q Q HQ. simpl. rewrite lookup_insert. case_decide; [|by exists Q]. subst q. simplify_eq.
          eexists. split; [reflexivity|done]. }
      split; [eapply notifying_trans; [exact A4|by eapply notifying_trans]|].
      split; [|split].
      * intros m Hm. rewrite O6, En5 by done. unfold s4, kill. cbn [nodes set_dead_nodes].
        rewrite node_set_lookup, decide_False by done. unfold s1. cbn [nodes set_procs dequeued set_works].
        by rewrite node_set_lookup, decide_False.
      * intros M HM. destruct G6 as [G6|[G6 _]]; rewrite G6 in HM; [|done]. simplify_eq. done.
      * intros r Hr. eapply notified_ref_mono; [exact A6|by apply Hno5].
Qed.

(** Another temporary count still fits. *)
Definition tmp_room (p : nat) (s : binder) : Prop :=
  forall n N, nodes s !! n = Some N -> node_proc N = Some p -> tmp_refs N + 1 < two31.

Lemma release_one_node_inv p P count s : inv s -> procs s !! p = Some P -> no_mgr_of p s -> tmp_room p s ->
  match rb_inorder (proc_nodes P) with
  | [] => release_one_node p count s = Some (None, s)
  | n :: _ => exists N s', nodes s !! n = Some N /\ node_proc N = Some p /\
      release_one_node p count s = Some (Some (count + Z.of_nat (length (node_refs N))), s') /\
      inv s' /\ notifying s s' /\ (forall m, m <> n -> nodes s' !! m = nodes s !! m) /\ node_dead n N s' /\
      forall r, r ∈ node_refs N -> notified_ref s' r
  end.
Proof.
  intros I HP Hmgr Hroom. unfold release_one_node, rb_first. erewrite bind_eq by by apply proc_at_eq.
  destruct (rb_inorder (proc_nodes P)) as [|n l] eqn:Hino; [done|]. cbn [head].
  assert (Hn : n ∈ rb_inorder (proc_nodes P)) by (rewrite Hino; left).
  apply (g_nodes _ _ _ (i_graph _ _ _ _ I) p P HP) in Hn as (_ & N & HN & Hp).
  pose proof (Hroom n N HN Hp) as Ht.
  destruct (inc_tmpref_inv None None n N s I ltac:(by left) HN Ht) as [E1 _].
  destruct (release_node_inv p P n N count s I HP HN Hp (Hmgr n N HN Hp) Ht) as (s' & E & I' & A & Hoth & Hd & Hno).
  exists N, s'. split; [done|]. split; [done|]. split; [|done].
  erewrite bind_eq by exact E1. erewrite bind_eq by reflexivity. by erewrite bind_eq by exact E.
Qed.

(** ** All of them *)

(** How many references point to a node. *)
Definition incoming (s : binder) (n : nat) : Z :=
  match nodes s !! n with Some N => Z.of_nat (length (node_refs N)) | None => 0 end.

(** The nodes of a process, as its tree has them. *)
Lemma owned_perm p P s (l : list nat) : inv s -> procs s !! p = Some P -> NoDup l ->
  (forall n, n ∈ l <-> exists N, nodes s !! n = Some N /\ node_proc N = Some p) -> rb_inorder (proc_nodes P) ≡ₚ l.
Proof.
  intros I HP Hnd Hl. destruct (g_nodes _ _ _ (i_graph _ _ _ _ I) p P HP) as [Hk Hin].
  apply NoDup_Permutation; [by eapply rb_keyed_NoDup|done|]. intros n. rewrite Hin, Hl.
  split; [by intros [_ ?]|by intros ?].
Qed.

Lemma release_nodes_inv p : forall fuel P count s, inv s -> procs s !! p = Some P -> no_mgr_of p s -> tmp_room p s ->
  (length (rb_inorder (proc_nodes P)) < fuel)%nat ->
  exists s', release_nodes fuel p count s = Some (count + sum_over (incoming s) (rb_inorder (proc_nodes P)), s') /\
    inv s' /\ notifying s s' /\ (forall n N, nodes s' !! n = Some N -> node_proc N <> Some p) /\
    (forall n N, nodes s !! n = Some N -> node_proc N <> Some p -> nodes s' !! n = Some N) /\
    (forall n N r, nodes s !! n = Some N -> node_proc N = Some p -> r ∈ node_refs N -> notified_ref s' r).
Proof.
  induction fuel as [|fuel IH]; intros P count s I HP Hmgr Hroom Hlen; [lia|]. cbn [release_nodes].
  destruct (g_nodes _ _ _ (i_graph _ _ _ _ I) p P HP) as [Hk Hin].
  pose proof (release_one_node_inv p P count s I HP Hmgr Hroom) as H.
  destruct (rb_inorder (proc_nodes P)) as [|n l] eqn:Hino.
  { erewrite bind_eq by exact H. assert (Hnone : forall n N, nodes s !! n = Some N -> node_proc N <> Some p).
    { intros n N HN Hp. apply (not_elem_of_nil n), Hin. split; [done|by exists N]. }
    exists s. split; [simpl; by rewrite Z.add_0_r|]. split; [done|]. split; [apply notifying_refl|].
    split; [done|]. split; [done|]. intros n N r HN Hp. by destruct (Hnone n N HN). }
  destruct H as (N & s1 & HN & Hp & E1 & I1 & A1 & Hoth & Hdead & Hno). erewrite bind_eq by exact E1. cbv beta iota.
  destruct (nf_proc _ _ A1 p P HP) as (P1 & HP1 & _).
  assert (Hold : forall m M, nodes s1 !! m = Some M -> node_proc M = Some p -> m <> n /\ nodes s !! m = Some M).
  { intros m M HM HMp. assert (m <> n) as Hne by (intros ->; destruct (Hdead M HM); congruence).
    split; [done|]. by rewrite <- Hoth. }
  pose proof (rb_keyed_NoDup _ _ Hk) as Hnd. rewrite Hino in Hnd. apply NoDup_cons in Hnd as [Hn Hnd].
  assert (Hperm : rb_inorder (proc_nodes P1) ≡ₚ l).
  { apply (owned_perm p P1 s1); [done..|]. intros m. split.
    - intros Hm. assert (Hm' : m ∈ n :: l) by by right. apply Hin in Hm' as (_ & M & HM & HMp). exists M.
      rewrite Hoth by (by intros ->). done.
    - intros (M & HM & HMp). destruct (Hold m M HM HMp) as [Hne HM0].
      assert (Hm : m ∈ n :: l) by (apply Hin; split; [done|by exists M]). by apply elem_of_cons in Hm as [?|?]. }
  destruct (IH P1 (count + Z.of_nat (length (node_refs N))) s1 I1 HP1) as (s' & E' & I' & A' & Hgone & Hkeep & Hall).
  - intros m M HM HMp Hm. destruct (Hold m M HM HMp) as [_ HM0]. apply (Hmgr m M HM0 HMp).
    unfold is_mgr in *. by rewrite (nf_mgr _ _ A1) in Hm.
  - intros m M HM HMp. destruct (Hold m M HM HMp) as [_ HM0]. by eapply Hroom.
  - rewrite (Permutation_length Hperm). simpl in Hlen. lia.
  - exists s'. split.
    { rewrite E'. f_equal. f_equal. simpl. unfold incoming at 2. rewrite HN.
      rewrite (sum_over_perm _ _ _ Hperm), (sum_over_ext (incoming s1) (incoming s) l); [lia|].
      intros m Hm. unfold incoming. rewrite Hoth by (by intros ->). done. }
    split; [done|]. split; [by eapply notifying_trans|]. split; [done|]. split.
    + intros m M HM HMp. apply Hkeep; [|done]. rewrite Hoth; [done|]. intros ->. congruence.
    + intros m M r HM HMp Hr. destruct (decide (m = n)) as [->|Hne].
      * simplify_eq. eapply notified_ref_mono; [exact A'|by apply Hno].
      * apply (Hall m M r); [by rewrite Hoth|done|done].
Qed.

Lemma release_one_ref_inv p P s : inv s -> procs s !! p = Some P ->
  match rb_inorder (refs_by_desc P) with
  | [] => release_one_ref p s = Some (false, s)
  | r :: _ => exists R n N s', refs s !! r = Some R /\ ref_proc R = p /\ nodes s !! n = Some N /\
      release_one_ref p s = Some (true, s') /\ inv s' /\ ref_gone r R n N s s' /\ same_world s s'
  end.
Proof.
  intros I HP. unfold release_one_ref, rb_first. erewrite bind_eq by by apply proc_at_eq.
  destruct (rb_inorder (refs_by_desc P)) as [|r l] eqn:Hino; [done|]. cbn [head].
  assert (Hr : r ∈ rb_inorder (refs_by_desc P)) by (rewrite Hino; left).
  apply (g_desc _ _ _ (i_graph _ _ _ _ I) p P HP) in Hr as (_ & R & HR & Hp).
  destruct (g_ref _ _ _ (i_graph _ _ _ _ I) r R HR ltac:(done)) as (_ & n & N & Hn & HN & _).
  destruct (cleanup_ref_inv r R n N s I HR Hn HN) as (b & s1 & E1 & Hcl).
  destruct (free_ref_inv r R n N b s s1 HR Hcl) as (s2 & E2 & I2 & G2 & W2).
  exists R, n, N, s2. split; [done|]. split; [done|]. split; [done|]. split; [|done].
  erewrite bind_eq by exact E1. by erewrite bind_eq by exact E2.
Qed.

Lemma release_refs_inv p : forall fuel P outgoing s, inv s -> procs s !! p = Some P ->
  (length (rb_inorder (refs_by_desc P)) < fuel)%nat ->
  exists s', release_refs fuel p outgoing s = Some (outgoing + Z.of_nat (length (rb_inorder (refs_by_desc P))), s') /\
    inv s' /\ (forall r R, refs s' !! r = Some R <-> refs s !! r = Some R /\ ref_proc R <> p) /\
    (forall r R d, refs s !! r = Some R -> ref_proc R = p -> ref_death R = Some d -> deaths s' !! d = None) /\
    (forall d D, deaths s' !! d = Some D -> deaths s !! d = Some D) /\
    (forall n N, nodes s' !! n = Some N -> exists N0, nodes s !! n = Some N0 /\ node_proc N = node_proc N0) /\
    same_world s s'.
Proof.
  induction fuel as [|fuel IH]; intros P outgoing s I HP Hlen; [lia|]. cbn [release_refs].
  destruct (g_desc _ _ _ (i_graph _ _ _ _ I) p P HP) as [Hk Hin].
  pose proof (release_one_ref_inv p P s I HP) as H.
  destruct (rb_inorder (refs_by_desc P)) as [|r l] eqn:Hino.
  { erewrite bind_eq by exact H. assert (Hnone : forall r R, refs s !! r = Some R -> ref_proc R <> p).
    { intros r R HR Hp. apply (not_elem_of_nil r), Hin. split; [done|by exists R]. }
    exists s. split; [simpl; by rewrite Z.add_0_r|]. split; [done|]. split.
    { intros r R. split; [intros HR; split; [done|by eapply Hnone]|by intros [? _]]. }
    split; [intros r R d HR Hp; by destruct (Hnone r R HR)|]. split; [done|]. split; [intros n N HN; by exists N|].
    by apply same_world_same. }
  destruct H as (R & n & N & s1 & HR & Hp & HN & E1 & I1 & (Gr & Gn & Gg & Gd) & W1). erewrite bind_eq by exact E1. cbv beta iota.
  destruct (proj2 (proj2 (proj2 W1)) p P HP) as (P1 & HP1 & _).
  destruct (g_desc _ _ _ (i_graph _ _ _ _ I1) p P1 HP1) as [Hk1 Hin1].
  pose proof (rb_keyed_NoDup _ _ Hk) as Hnd. rewrite Hino in Hnd. apply NoDup_cons in Hnd as [Hr Hnd].
  assert (Href : forall q Q, refs s1 !! q = Some Q <-> q <> r /\ refs s !! q = Some Q).
  { intros q Q. rewrite Gr, lookup_delete_Some. split; intros [? ?]; split; congruence. }
  assert (Hperm : rb_inorder (refs_by_desc P1) ≡ₚ l).
  { apply NoDup_Permutation; [by eapply rb_keyed_NoDup|done|]. intros q. rewrite Hin1. split.
    - intros (_ & Q & [Hne HQ]%Href & Hq). assert (Hm : q ∈ r :: l) by (apply Hin; split; [done|by exists Q]).
      by apply elem_of_cons in Hm as [?|?].
    - intros Hq. assert (Hm : q ∈ r :: l) by by right. apply Hin in Hm as (_ & Q & HQ & HQp). split; [done|].
      exists Q. split; [|done]. apply Href. split; [by intros ->|done]. }
  destruct (IH P1 (outgoing + 1) s1 I1 HP1) as (s' & E' & I' & Hrefs & Hdead & Hds & Hns & W').
  { rewrite (Permutation_length Hperm). simpl in Hlen. lia. }
  exists s'. split.
  { rewrite E', (Permutation_length Hperm). f_equal. f_equal. simpl length. lia. }
  assert (Hd1 : forall d D, deaths s1 !! d = Some D -> ref_death R <> Some d /\ deaths s !! d = Some D).
  { intros d D HD. rewrite Gd in HD. destruct (ref_death R) as [e|]; [|done].
    apply lookup_delete_Some in HD as [? ?]. split; congruence. }
  split; [done|]. split; [|split; [|split; [|split; [|by eapply same_world_trans]]]].
  - intros q Q. rewrite Hrefs, Href. split; [tauto|]. intros [HQ Hq]. split; [|done]. split; [|done]. congruence.
  - intros q Q d HQ Hq Hd. destruct (decide (q = r)) as [->|Hne].
    + simplify_eq. destruct (deaths s' !! d) as [D|] eqn:HD; [|done]. apply Hds in HD. by apply Hd1 in HD as [? _].
    + apply (Hdead q Q d); [by apply Href|done|done].
  - intros d D HD. apply Hds in HD. by apply Hd1 in HD as [_ ?].
  - intros m M HM. destruct (Hns m M HM) as (M1 & HM1 & E). destruct (decide (m = n)) as [->|Hne].
    + destruct Gg as [Gg|[Gg _]]; rewrite Gg in HM1; [|done]. simplify_eq. by exists N.
    + rewrite Gn in HM1 by done. by exists M1.
Qed.

Lemma refs_perm p s P s' P' : inv s -> inv s' -> refs s' = refs s -> procs s !! p = Some P -> procs s' !! p = Some P' ->
  rb_inorder (refs_by_desc P') ≡ₚ rb_inorder (refs_by_desc P).
Proof.
  intros I I' Er HP HP'. destruct (g_desc _ _ _ (i_graph _ _ _ _ I) p P HP) as [Hk Hin].
  destruct (g_desc _ _ _ (i_graph _ _ _ _ I') p P' HP') as [Hk' Hin'].
  apply NoDup_Permutation; [by eapply rb_keyed_NoDup..|]. intros r. by rewrite Hin, Hin', Er.
Qed.

(** The whole of it: afterwards the process has no node and no reference
    left, and everyone who asked has been told. *)
Lemma release_objects_inv p P fuel s : inv s -> procs s !! p = Some P -> tmp_room p s ->
  (length (rb_inorder (proc_nodes P)) < fuel)%nat ->
  (length (rb_inorder (refs_by_desc P)) < fuel)%nat ->
  exists s', release_objects fuel p s = Some ((sum_over (incoming s) (rb_inorder (proc_nodes P)),
      Z.of_nat (length (rb_inorder (refs_by_desc P)))), s') /\ inv s' /\
    (forall n N, nodes s' !! n = Some N -> node_proc N <> Some p) /\
    (forall r R, refs s' !! r = Some R <-> refs s !! r = Some R /\ ref_proc R <> p).
Proof.
  intros I HP Hroom Hf1 Hf2. unfold release_objects.
  destruct (release_mgr_inv p P s I HP) as (s1 & E1 & I1 & Hm1 & En1 & Er1 & Ep1 & _). erewrite bind_eq by exact E1.
  assert (HP1 : procs s1 !! p = Some P) by (by rewrite Ep1).
  destruct (release_nodes_inv p fuel P 0 s1 I1 HP1 Hm1) as (s2 & E2 & I2 & A2 & Hg2 & _ & _); [|done|].
  { intros n N HN. rewrite En1 in HN. by apply (Hroom n N). }
  erewrite bind_eq by exact E2. destruct (nf_proc _ _ A2 p P HP1) as (P2 & HP2 & _).
  destruct (release_refs_inv p fuel P2 0 s2 I2 HP2) as (s3 & E3 & I3 & Hr3 & _ & _ & Hn3 & _).
  { by rewrite (Permutation_length (refs_perm p s P s2 P2 I I2 ltac:(by rewrite (nf_refs _ _ A2)) HP HP2)). }
  erewrite bind_eq by exact E3. exists s3. split; [|split; [done|split]].
  - unfold ret. rewrite !Z.add_0_l.
    rewrite (Permutation_length (refs_perm p s P s2 P2 I I2 ltac:(by rewrite (nf_refs _ _ A2)) HP HP2)).
    rewrite (sum_over_ext (incoming s1) (incoming s)); [done|]. intros n _. unfold incoming. by rewrite En1.
  - intros n N HN. destruct (Hn3 n N HN) as (N0 & HN0 & ->). by eapply Hg2.
  - intros r R. rewrite Hr3, (nf_refs _ _ A2), Er1. done.
Qed.
End release.
