(* ===== verification/BinderTranslate.v ===== *)
(** * Objects in transactions

    A transaction carries binders and handles; the driver replaces each by
    what names the same node in the receiving process, and takes the counts
    that keep the node alive until the buffer is released. *)

From Stdlib Require Import ZArith Lia.
From stdpp Require Import base option gmap sets list.
From S2P Require Import Prelude RbTree BinderNode.

Inductive hdr_type :=
  | BINDER_TYPE_BINDER | BINDER_TYPE_WEAK_BINDER | BINDER_TYPE_HANDLE | BINDER_TYPE_WEAK_HANDLE.

#[export] Instance hdr_type_eq_dec : EqDecision hdr_type.
Proof. solve_decision. Defined.

(** A [struct flat_binder_object]: its header's type, and its other fields;
    [binder] and [handle] share their storage. *)
Record binder_object := Object { hdr : hdr_type; flat : flat_binder_object }.

Definition obj_binder (o : binder_object) : Z := fbo_binder (flat o).
Definition obj_handle (o : binder_object) : Z := u32 (fbo_binder (flat o)).
Definition obj_cookie (o : binder_object) : Z := fbo_cookie (flat o).

(** [fp->binder = 0; fp->handle = desc; fp->cookie = 0] *)
Definition as_handle (t : hdr_type) (d : Z) (o : binder_object) : binder_object :=
  Object t (Fbo d 0 (fbo_flags (flat o))).
Definition as_binder (t : hdr_type) (ptr cookie : Z) (o : binder_object) : binder_object :=
  Object t (Fbo ptr cookie (fbo_flags (flat o))).

Section rb.
Context `{RB : Rbtree}.

(** [thread] sends to process [target_proc]; [denied] is the security
    module's answer, [kz_node] and [kz_ref] are the allocations. *)
Definition binder_translate_binder (thread target_proc : nat) (denied : bool) (kz_node kz_ref : option nat)
    (fp : binder_object) : M binder (Z * binder_object) :=
  let! T := thread_at thread in
  let p := thread_proc T in
  let! found := binder_get_node p (obj_binder fp) in
  let! node :=
    match found with
    | Some n => ret (Some n)
    | None => binder_new_node p kz_node (Some (flat fp))
    end in
  match node with
  | None => ret (- ENOMEM, fp)
  | Some n =>
    let! N := node_at n in
    let! res :=
      (if negb (obj_cookie fp =? node_cookie N) then ret (- EINVAL, fp)
       else if denied then ret (- EPERM, fp)
       else
         let! r := binder_inc_ref_for_node target_proc n (bool_decide (hdr fp = BINDER_TYPE_BINDER))
                     (Some (thread_todo thread)) kz_ref in
         match r with
         | (0, Some rdata) =>
           ret (0, as_handle (if decide (hdr fp = BINDER_TYPE_BINDER) then BINDER_TYPE_HANDLE
                              else BINDER_TYPE_WEAK_HANDLE) (desc rdata) fp)
         | (rv, _) => ret (rv, fp)
         end) in
    binder_put_node n ;!
    ret res
  end.

Definition binder_translate_handle (thread target_proc : nat) (denied : bool) (kz_ref : option nat)
    (fp : binder_object) : M binder (Z * binder_object) :=
  let! T := thread_at thread in
  let p := thread_proc T in
  let! found := binder_get_node_from_ref p (obj_handle fp) (bool_decide (hdr fp = BINDER_TYPE_HANDLE)) in
  match found with
  | None => ret (- EINVAL, fp)
  | Some (n, _) =>
    let! res :=
      (if denied then ret (- EPERM, fp)
       else
         let! N := node_at n in
         if bool_decide (node_proc N = Some target_proc) then
           let ty := if decide (hdr fp = BINDER_TYPE_HANDLE) then BINDER_TYPE_BINDER else BINDER_TYPE_WEAK_BINDER in
           binder_inc_node_nilocked n (bool_decide (ty = BINDER_TYPE_BINDER)) false None ;!
           ret (0, as_binder ty (node_ptr N) (node_cookie N) fp)
         else
           let! r := binder_inc_ref_for_node target_proc n (bool_decide (hdr fp = BINDER_TYPE_HANDLE)) None kz_ref in
           match r with
           | (0, Some dest_rdata) => ret (0, as_handle (hdr fp) (desc dest_rdata) fp)
           | (rv, _) => ret (rv, fp)
           end) in
    binder_put_node n ;!
    ret res
  end.

(** The node part of the release of one object of a delivered (or failed)
    transaction; [p] is the process the buffer belongs to. *)
Definition release_object (p : nat) (fp : binder_object) : M binder unit :=
  match hdr fp with
  | BINDER_TYPE_BINDER | BINDER_TYPE_WEAK_BINDER =>
    let! found := binder_get_node p (obj_binder fp) in
    match found with
    | None => ret tt
    | Some n =>
      binder_dec_node n (bool_decide (hdr fp = BINDER_TYPE_BINDER)) false ;!
      binder_put_node n
    end
  | BINDER_TYPE_HANDLE | BINDER_TYPE_WEAK_HANDLE =>
    binder_dec_ref_for_handle p (obj_handle fp) (bool_decide (hdr fp = BINDER_TYPE_HANDLE)) ;! ret tt
  end.

(** The counts a transaction takes on its target, and the process it goes
    to; [None] when that has died. *)
Definition binder_get_node_refs_for_txn (n : nat) : M binder (option nat) :=
  let! N := node_at n in
  match node_proc N with
  | Some p =>
    binder_inc_node_nilocked n true false None ;!
    binder_inc_node_tmpref_ilocked n ;!
    let! P := proc_at p in
    put_proc_at p (set_proc_tmp_ref (s32 (proc_tmp_ref P + 1)) P) ;!
    ret (Some p)
  | None => ret None
  end.
End rb.
