(* ===== verification/BinderTranslateFacts.v ===== *)
(** * Objects in transactions: the graph stays consistent

    Local counts of a node, translation of binders and handles, and the
    release of a translated object. *)

From Stdlib Require Import ZArith Lia.
From stdpp Require Import base option gmap sets list.
From S2P Require Import Prelude RbTree BinderNode BinderNodeFacts BinderNodeInv BinderNodeOps.
From S2P Require Import BinderNodeRef BinderNodeDrop BinderTranslate.

(** A local count of the node that neither the owner's pending answer nor the
    context manager accounts for. *)
Definition spare (s : binder) (n : nat) (N : binder_node) (strong_ : bool) : Prop :=
  if strong_
  then owed N (pending_strong_ref N) + 1 <= local_strong_refs N /\
       (is_mgr s n -> owed N (pending_strong_ref N) + 2 <= local_strong_refs N)
  else owed N (pending_weak_ref N) + 1 <= local_weak_refs N /\
       (is_mgr s n -> owed N (pending_weak_ref N) + 2 <= local_weak_refs N).

(** Another local count fits. *)
Definition local_room (N : binder_node) : Prop := local_strong_refs N + 1 < two31 /\ local_weak_refs N + 1 < two31.

(** One more local count. *)
Definition add_local (strong_ : bool) (k : Z) (N : binder_node) : binder_node :=
  if strong_
  then set_counts (internal_strong_refs N) (local_weak_refs N) (local_strong_refs N + k) (tmp_refs N) N
  else set_counts (internal_strong_refs N) (local_weak_refs N + k) (local_strong_refs N) (tmp_refs N) N.

Section facts.
Context `{RB : Rbtree} {RBL : RbtreeLaws}.

Lemma counts_local s n N strong_ k : node_counts s n N -> (k = 1 /\ local_room N \/ k = -1 /\ spare s n N strong_) ->
  node_counts s n (add_local strong_ k N).
Proof.
  intros [] H. pose proof (owed_range N (pending_strong_ref N)). pose proof (owed_range N (pending_weak_ref N)).
  assert (Hk : (if strong_ then owed N (pending_strong_ref N) <= local_strong_refs N + k < two31 /\
      (is_mgr s n -> owed N (pending_strong_ref N) + 1 <= local_strong_refs N + k)
    else owed N (pending_weak_ref N) <= local_weak_refs N + k < two31 /\
      (is_mgr s n -> owed N (pending_weak_ref N) + 1 <= local_weak_refs N + k))).
  { destruct H as [[-> (? & ?)]|[-> Hs]]; destruct strong_; simpl in *.
    - split; [lia|]. intros Hm. specialize (nc_mgr Hm). lia.
    - split; [lia|]. intros Hm. specialize (nc_mgr Hm). lia.
    - destruct Hs as [? Hs]. split; [lia|]. intros Hm. specialize (Hs Hm). lia.
    - destruct Hs as [? Hs]. split; [lia|]. intros Hm. specialize (Hs Hm). lia. }
  destruct strong_; split; try done; try apply Hk; intros Hm; specialize (nc_mgr Hm); destruct Hk as [_ Hk];
    specialize (Hk Hm); destruct nc_mgr as (? & ? & ? & ?); split_and!; done.
Qed.

(** Taking a local count: what a transaction does to its target, and to a
    binder that comes home. *)
Lemma inc_local_inv n N strong_ s : inv s -> nodes s !! n = Some N -> local_room N -> 1 <= tmp_refs N ->
  exists rv s', binder_inc_node_nilocked n strong_ false None s = Some (rv, s') /\ s' = node_set n (add_local strong_ 1 N) s /\
    inv s' /\ (strong_ = true -> rv = 0).
Proof.
  intros I HN Hroom Ht. pose proof (c_node _ (i_counted _ _ _ _ I) n N HN) as C.
  assert (C' : node_counts s n (add_local strong_ 1 N)) by (apply counts_local; [done|by left]).
  assert (I' : inv (node_set n (add_local strong_ 1 N) s)).
  { eapply (inv_node_upd _ _ None _ n N); [done|done|done|by left|by destruct strong_..|done|].
    intros _. left. right; right; right. destruct strong_; simpl; lia. }
  destruct Hroom as (? & ?). pose proof (owed_range N (pending_strong_ref N)). pose proof (owed_range N (pending_weak_ref N)).
  pose proof (nc_strong _ _ _ C). pose proof (nc_weak _ _ _ C).
  unfold binder_inc_node_nilocked. erewrite bind_eq by by apply node_at_eq. destruct strong_.
  - assert (Hm : exists b, is_context_mgr n N s = Some (b, s)).
    { unfold is_context_mgr. destruct (node_proc N) as [p|] eqn:Hp; [|by eexists].
      destruct (g_proc _ _ _ (i_graph _ _ _ _ I) n N p HN Hp) as [P HP]. erewrite bind_eq by by apply proc_at_eq.
      by eexists. }
    destruct Hm as [b Hm]. erewrite bind_eq by exact Hm. cbn [andb]. erewrite bind_eq by reflexivity.
    rewrite s32_int by (unfold is_int, two31 in *; lia). eexists 0, _. split; [reflexivity|]. by split_and!.
  - erewrite bind_eq by reflexivity. rewrite s32_int by (unfold is_int, two31 in *; lia).
    erewrite bind_eq by reflexivity. destruct (_ && _); (eexists _, _; split; [reflexivity|]; by split_and!).
Qed.

(** Giving one back. *)
Lemma dec_local_inv n N strong_ s : inv s -> nodes s !! n = Some N -> spare s n N strong_ ->
  exists s', binder_dec_node n strong_ false s = Some (tt, s') /\ inv s' /\ gone_or n (add_local strong_ (-1) N) s' /\
    (forall m, m <> n -> nodes s' !! m = nodes s !! m) /\ refs s' = refs s /\ deaths s' = deaths s /\ same_world s s'.
Proof.
  intros I HN Hs. pose proof (c_node _ (i_counted _ _ _ _ I) n N HN) as C.
  assert (C' : node_counts s n (add_local strong_ (-1) N)) by (apply counts_local; [done|by right]).
  pose proof (owed_range N (pending_strong_ref N)). pose proof (owed_range N (pending_weak_ref N)).
  pose proof (nc_strong _ _ _ C). pose proof (nc_weak _ _ _ C).
  assert (Ed : dropped strong_ false N = add_local strong_ (-1) N).
  { destruct strong_; simpl in *; rewrite s32_int by (unfold is_int, two31 in *; lia); done. }
  destruct (dec_node_inv None n N strong_ false s HN) as (b & s1 & E1 & I1 & F1 & HN1 & Hb).
  { rewrite Ed. eapply (inv_node_upd _ _ None _ n N); [done|done|done|by left|by destruct strong_..|done|done]. }
  rewrite Ed in HN1, Hb. unfold binder_dec_node. erewrite bind_eq by exact E1.
  assert (W : same_world s s1).
  { split_and!; try apply F1. intros p P HP. destruct (df_proc _ _ _ F1 p P HP) as (P' & ? & _ & _ & ?). by exists P'. }
  destruct b.
  - destruct (free_node_inv None n s1 I1) as (s2 & E2 & I2 & ->). eexists. split; [exact E2|]. split; [done|].
    split; [right; split; [by simpl; rewrite lookup_delete_eq|by apply Hb]|].
    split; [intros m Hm; simpl; rewrite lookup_delete_ne by done; by apply (df_nodes _ _ _ F1)|].
    split; [apply F1|]. split; [apply F1|]. destruct W as (? & ? & ? & ?). by split_and!.
  - exists s1. split; [done|]. split; [done|]. split; [by left|]. split; [apply F1|]. split; [apply F1|]. split; [apply F1|done].
Qed.

(** ** Translation *)

Lemma get_node_from_ref_inv p P d need s : inv s -> procs s !! p = Some P -> room s ->
  exists res s', binder_get_node_from_ref p d need s = Some (res, s') /\ inv s' /\
    match res with
    | Some (n, rd) => exists r R N, refs s !! r = Some R /\ ref_proc R = p /\ desc (ref_data R) = d /\ rd = ref_data R /\
        ref_node R = Some n /\ nodes s !! n = Some N /\ r ∈ node_refs N /\ (need = true -> strong (ref_data R) <> 0) /\
        s' = node_set n (add_tmp 1 N) s
    | None => s' = s /\ forall r R, refs s !! r = Some R -> ref_proc R = p -> desc (ref_data R) = d ->
        need = true /\ strong (ref_data R) = 0
    end.
Proof.
  intros I HP Hroom. unfold binder_get_node_from_ref.
  destruct (get_ref_inv p P d need s I HP) as (r & E & Hres). erewrite bind_eq by exact E.
  destruct r as [r|]; [|by exists None, s]. destruct Hres as (R & n & N & HR & Hp & Hd & Hn & HN & Hi & Hs).
  erewrite bind_eq by by apply ref_at_eq. rewrite Hn. erewrite bind_eq by reflexivity.
  destruct (inc_tmpref_inv None None n N s I ltac:(by left) HN) as [E1 I1]; [by apply (Hroom n N)|].
  erewrite bind_eq by exact E1. eexists (Some (n, ref_data R)), _. split; [reflexivity|]. split; [done|]. by exists r, R, N.
Qed.

(** A reference of process [p] to the node, under handle [d], with a count of
    the wanted kind. *)
Definition handle_to (s : binder) (p : nat) (d : Z) (n : nat) (strong_ : bool) : Prop :=
  exists r R, refs s !! r = Some R /\ ref_proc R = p /\ desc (ref_data R) = d /\ ref_node R = Some n /\
    0 < count_of strong_ R.

(** The handle names the node, strongly if that is asked for. *)
Definition names (s : binder) (p : nat) (d : Z) (n : nat) (strong_ : bool) : Prop :=
  exists r R, refs s !! r = Some R /\ ref_proc R = p /\ desc (ref_data R) = d /\ ref_node R = Some n /\
    (strong_ = true -> strong (ref_data R) <> 0).

(** What [binder_inc_ref_for_node] leaves of the node, and the handle. *)
Lemma inc_ref_result p P n N strong_ target kz s r R N1 s1 rv rd s' :
  inv s -> ref_source p P n N kz s r R N1 s1 -> nodes s !! n = Some N ->
  counted_ref r R n N1 strong_ target s1 rv rd s' -> inv s' ->
  exists N', nodes s' !! n = Some N' /\ tmp_refs N' = tmp_refs N /\ node_ptr N' = node_ptr N /\
    node_proc N' = node_proc N /\ node_cookie N' = node_cookie N /\ r ∈ node_refs N' /\
    (forall m, m <> n -> nodes s' !! m = nodes s !! m) /\
    (rv = - EINVAL /\ target = None \/ rv = 0 /\ handle_to s' p (desc rd) n strong_).
Proof.
  intros I Hsrc HN Hc I'.
  assert (H1 : refs s1 !! r = Some R /\ nodes s1 !! n = Some N1 /\ r ∈ node_refs N1 /\ tmp_refs N1 = tmp_refs N /\
    node_ptr N1 = node_ptr N /\ node_proc N1 = node_proc N /\ node_cookie N1 = node_cookie N /\ ref_proc R = p /\ ref_node R = Some n /\
    0 <= count_of strong_ R /\ forall m, m <> n -> nodes s1 !! m = nodes s !! m).
  { destruct Hsrc as [(-> & HR & Hp & Hn & ->)|(-> & _ & -> & d & td & tn & _ & -> & ->)].
    - destruct (g_ref _ _ _ (i_graph _ _ _ _ I) r R HR ltac:(done)) as (_ & ? & ? & ? & ? & ?). simplify_eq.
      destruct (c_ref _ (i_counted _ _ _ _ I) r R HR). split_and!; try done. destruct strong_; simpl; lia.
    - unfold ref_added. split_and!; try done.
      + simpl. by rewrite lookup_insert_eq.
      + simpl. by rewrite lookup_insert_eq.
      + left.
      + by destruct strong_.
      + intros m Hm. simpl. by rewrite lookup_insert_ne. }
  destruct H1 as (HR & HN1 & Hi & Ht & Hptr & Hpr & Hck & Hp & Hn & Hc0 & Hoth).
  destruct Hc as [(-> & -> & -> & _)|(-> & -> & Er & En)].
  - exists N1. split_and!; try done. by left.
  - eexists. split; [by rewrite En, lookup_insert_eq|]. split_and!; try done.
    + intros m Hm. rewrite En, lookup_insert_ne by done. by apply Hoth.
    + right. split; [done|]. exists r, (bumped 1 strong_ R). rewrite Er, lookup_insert_eq.
      split_and!; try done; destruct strong_; simpl in *; try done; lia.
Qed.

(** The node a binder names: the process's own, created if need be. *)
Lemma named_node_inv p P ptr kz fbo s : inv s -> procs s !! p = Some P -> room s -> fbo_binder fbo = ptr ->
  (forall n, kz = Some n -> nodes s !! n = None) ->
  exists res s1, (let! found := binder_get_node p ptr in
      match found with Some n => ret (Some n) | None => binder_new_node p kz (Some fbo) end) s = Some (res, s1) /\ inv s1 /\
    match res with
    | None => s1 = s /\ kz = None
    | Some n => exists N, nodes s1 !! n = Some N /\ node_proc N = Some p /\ node_ptr N = ptr /\ 1 <= tmp_refs N /\
        internal_strong_refs N + 1 < two31 /\ refs s1 = refs s /\ threads s1 = threads s /\
        (forall m, m <> n -> nodes s1 !! m = nodes s !! m) /\
        (forall q Q, procs s !! q = Some Q -> exists Q', procs s1 !! q = Some Q' /\
           proc_context Q' = proc_context Q /\ refs_by_desc Q' = refs_by_desc Q)
    end.
Proof.
  intros I HP Hroom Hptr Hkz. destruct (get_node_inv p P ptr s I HP Hroom) as (res & s1 & E & I1 & Hres).
  erewrite bind_eq by exact E. destruct res as [n|].
  - destruct Hres as (N & HN & Hp & Hpt & ->). exists (Some n), (node_set n (add_tmp 1 N) s). split; [done|]. split; [done|].
    pose proof (nc_tmp _ _ _ (c_node _ (i_counted _ _ _ _ I) n N HN)).
    exists (add_tmp 1 N). split; [rewrite node_set_lookup; by rewrite decide_True|].
    split_and!; try done; [simpl; lia|apply (Hroom n N HN)| |].
    + intros m Hm. rewrite node_set_lookup. by rewrite decide_False.
    + intros q Q HQ. by exists Q.
  - destruct Hres as [-> Hno]. destruct kz as [k|]; [|by exists None, s].
    destruct (new_node_inv p P k (Some fbo) s I HP Hroom (Hkz k eq_refl)) as
      (n & N & s2 & E2 & I2 & HN & Hp & Hpt & Ht & _ & _ & Hq & (P' & HP' & Hc & Hd) & _ & Er & Et & Hi & Hn & _).
    exists (Some n), s2. split; [done|]. split; [done|]. exists N. split_and!; try done; [by rewrite Hpt|].
    intros q Q HQ. destruct (decide (q = p)) as [->|Hne]; [simplify_eq; by exists P'|]. exists Q. by rewrite Hq.
Qed.

(** BINDER_TYPE_BINDER and its weak form become a handle of the receiver to
    the node the sender named, with a count of the same kind; any failure
    leaves the object alone. *)
Lemma translate_binder_inv t T P tp TP denied kz_node kz_ref fp s : inv s -> threads s !! t = Some T ->
  procs s !! thread_proc T = Some P -> procs s !! tp = Some TP -> room s -> ref_room s -> desc_room TP ->
  (forall n, kz_node = Some n -> nodes s !! n = None) -> (forall r, kz_ref = Some r -> refs s !! r = None) ->
  exists rv fp' s', binder_translate_binder t tp denied kz_node kz_ref fp s = Some ((rv, fp'), s') /\ inv s' /\
    (rv = 0 /\ denied = false /\ (exists n N d, nodes s' !! n = Some N /\ node_proc N = Some (thread_proc T) /\
       node_ptr N = obj_binder fp /\ node_cookie N = obj_cookie fp /\ is_u32 d /\
       handle_to s' tp d n (bool_decide (hdr fp = BINDER_TYPE_BINDER)) /\
       fp' = as_handle (if decide (hdr fp = BINDER_TYPE_BINDER) then BINDER_TYPE_HANDLE else BINDER_TYPE_WEAK_HANDLE) d fp) \/
     fp' = fp /\ (rv = - ENOMEM /\ (kz_node = None \/ kz_ref = None) \/ rv = - EINVAL \/ rv = - EPERM /\ denied = true)).
Proof.
  intros I HT HP HTP Hroom Hrr Hdesc Hkn Hkr. unfold binder_translate_binder.
  erewrite bind_eq by by apply thread_at_eq. cbv zeta. set (p := thread_proc T) in *.
  destruct (named_node_inv p P (obj_binder fp) kz_node (flat fp) s I HP Hroom eq_refl Hkn) as (res & s1 & E1 & I1 & Hres).
  rewrite <- bind_assoc. erewrite bind_eq by exact E1. destruct res as [n|].
  2:{ destruct Hres as [-> ->]. exists (- ENOMEM), fp, s. split; [done|]. split; [done|]. right. split; [done|].
      left. split; [done|by left]. }
  destruct Hres as (N & HN & Hp & Hptr & Ht & Hi & Er & Et & Hoth & Hpr).
  erewrite bind_eq by by apply node_at_eq.
  assert (Hput : forall s2 N2 (x : Z * binder_object), inv s2 -> nodes s2 !! n = Some N2 -> tmp_refs N2 = tmp_refs N ->
    exists s', (binder_put_node n ;! ret x) s2 = Some (x, s') /\ inv s' /\ refs s' = refs s2 /\ gone_or n (add_tmp (-1) N2) s').
  { intros s2 N2 x I2 HN2 Ht2. destruct (put_node_inv None n N2 s2 I2 HN2 ltac:(lia)) as (s' & E & I' & G & _ & R & _).
    exists s'. split; [by erewrite bind_eq by exact E|]. done. }
  destruct (negb (obj_cookie fp =? node_cookie N)) eqn:Hck.
  { erewrite bind_eq by reflexivity. destruct (Hput s1 N (- EINVAL, fp) I1 HN eq_refl) as (s' & E & I' & _).
    exists (- EINVAL), fp, s'. split; [exact E|]. split; [done|]. right. split; [done|]. right; by left. }
  apply negb_false_iff, Z.eqb_eq in Hck.
  destruct denied.
  { erewrite bind_eq by reflexivity. destruct (Hput s1 N (- EPERM, fp) I1 HN eq_refl) as (s' & E & I' & _).
    exists (- EPERM), fp, s'. split; [exact E|]. split; [done|]. right. split; [done|]. right; by right. }
  destruct (Hpr tp TP HTP) as (TP1 & HTP1 & _ & Hd1). set (strong_ := bool_decide (hdr fp = BINDER_TYPE_BINDER)).
  destruct (inc_ref_for_node_inv tp TP1 n N strong_ (Some (thread_todo t)) kz_ref s1 I1 HTP1 HN) as
    (rv & rd & s2 & E2 & I2 & Hres2); try done.
  { unfold desc_room in *. by rewrite Hd1. } { intros r Hr. rewrite Er. by apply Hkr. }
  { intros r R HR. rewrite Er in HR. by apply (Hrr r). } { exists t, T. by rewrite Et. }
  destruct Hres2 as [(-> & -> & -> & -> & _)|(r & R & N1 & s3 & rd' & Hsrc & _ & -> & Hc)].
  { erewrite (bind_eq (bind _ _)) by (erewrite bind_eq by exact E2; reflexivity).
    destruct (Hput s1 N (- ENOMEM, fp) I1 HN eq_refl) as (s' & E & I' & _).
    exists (- ENOMEM), fp, s'. split; [exact E|]. split; [done|]. right. split; [done|]. left. split; [done|by right]. }
  destruct (inc_ref_result tp TP1 n N strong_ _ kz_ref s1 r R N1 s3 rv rd' s2 I1 Hsrc HN Hc I2) as
    (N2 & HN2 & Ht2 & Hptr2 & Hpr2 & Hck2 & Hi2 & _ & [[_ ?]|[-> Hh]]); [done|].
  erewrite (bind_eq (bind _ _)) by (erewrite bind_eq by exact E2; reflexivity).
  destruct (Hput s2 N2 (0, as_handle (if decide (hdr fp = BINDER_TYPE_BINDER) then BINDER_TYPE_HANDLE
     else BINDER_TYPE_WEAK_HANDLE) (desc rd') fp) I2 HN2 Ht2) as (s' & E & I' & Er' & G).
  eexists 0, _, s'. split; [exact E|]. split; [done|]. left. split; [done|]. split; [done|].
  exists n, (add_tmp (-1) N2), (desc rd').
  assert (HN' : nodes s' !! n = Some (add_tmp (-1) N2)).
  { destruct G as [G|[_ Hno]]; [done|]. exfalso. apply Hno. left. intros E0. simpl in E0. rewrite E0 in Hi2.
    by apply not_elem_of_nil in Hi2. }
  assert (Hh' : handle_to s' tp (desc rd') n strong_) by (destruct Hh as (q & Q & HQ & ?); exists q, Q; by rewrite Er').
  split_and!; try done; simpl; try congruence.
  destruct Hh' as (q & Q & HQ & _ & <- & _). by apply (g_udesc _ _ _ (i_graph _ _ _ _ I') q Q).
Qed.

Lemma strong_internal r R n N s : inv s -> refs s !! r = Some R -> ref_node R = Some n -> nodes s !! n = Some N ->
  strong (ref_data R) <> 0 -> 1 <= internal_strong_refs N.
Proof.
  intros I HR Hn HN Hs. destruct (g_ref _ _ _ (i_graph _ _ _ _ I) r R HR ltac:(done)) as (_ & ? & ? & ? & ? & Hi).
  simplify_eq. rewrite (nc_internal _ _ _ (c_node _ (i_counted _ _ _ _ I) n N HN)).
  assert (Hsum : forall l, 0 <= sum_over (rstrong s) l).
  { induction l as [|x l IH]; simpl; [lia|]. unfold rstrong at 1. destruct (refs s !! x); [case_if|]; lia. }
  apply list_elem_of_split in Hi as (l1 & l2 & ->). rewrite sum_over_app. simpl.
  pose proof (Hsum l1). pose proof (Hsum l2). unfold rstrong at 2. rewrite HR. case_if; zbool; lia.
Qed.

(** The type a handle takes when it comes home. *)
Definition home_type (t : hdr_type) : hdr_type :=
  if decide (t = BINDER_TYPE_HANDLE) then BINDER_TYPE_BINDER else BINDER_TYPE_WEAK_BINDER.

(** What a translated handle has become. *)
Definition handle_translated (tp n : nat) (fp fp' : binder_object) (s' : binder) : Prop :=
  exists N, nodes s' !! n = Some N /\
    (node_proc N = Some tp /\ fp' = as_binder (home_type (hdr fp)) (node_ptr N) (node_cookie N) fp \/
     node_proc N <> Some tp /\ exists d, is_u32 d /\
       handle_to s' tp d n (bool_decide (hdr fp = BINDER_TYPE_HANDLE)) /\ fp' = as_handle (hdr fp) d fp).

(** BINDER_TYPE_HANDLE and its weak form: at home it becomes the binder it
    names, elsewhere a handle of the receiver to the same node. A strong
    handle fails only for want of memory or of permission. *)
Lemma translate_handle_inv t T P tp TP denied kz_ref fp s : inv s -> threads s !! t = Some T ->
  procs s !! thread_proc T = Some P -> procs s !! tp = Some TP -> room s -> ref_room s -> desc_room TP ->
  (forall r, kz_ref = Some r -> refs s !! r = None) ->
  let strong_ := bool_decide (hdr fp = BINDER_TYPE_HANDLE) in
  exists rv fp' s', binder_translate_handle t tp denied kz_ref fp s = Some ((rv, fp'), s') /\ inv s' /\
    ((exists n, names s (thread_proc T) (obj_handle fp) n strong_ /\ rv = 0 /\ denied = false /\
        handle_translated tp n fp fp' s') \/
     fp' = fp /\ (rv = - EPERM /\ denied = true \/ rv = - ENOMEM /\ kz_ref = None \/
       rv = - EINVAL /\ (strong_ = true -> forall n, ~ names s (thread_proc T) (obj_handle fp) n true))).
Proof.
  intros I HT HP HTP Hroom Hrr Hdesc Hkr strong_. unfold binder_translate_handle.
  erewrite bind_eq by by apply thread_at_eq. cbv zeta. set (p := thread_proc T) in *. fold strong_.
  destruct (get_node_from_ref_inv p P (obj_handle fp) strong_ s I HP Hroom) as (res & s1 & E1 & I1 & Hres).
  erewrite bind_eq by exact E1. destruct res as [[n rd]|].
  2:{ destruct Hres as [-> Hno]. exists (- EINVAL), fp, s. split; [done|]. split; [done|]. right. split; [done|].
      right; right. split; [done|]. intros Hh n (r & R & HR & Hp & Hd & _ & Hc).
      destruct (Hno r R HR Hp Hd) as [_ Hz]. by apply Hc. }
  destruct Hres as (r & R & N & HR & Hp & Hd & -> & Hn & HN & Hi & Hst & ->). set (N1 := add_tmp 1 N) in *.
  set (s1 := node_set n N1 s) in *. pose proof (nc_tmp _ _ _ (c_node _ (i_counted _ _ _ _ I) n N HN)) as Htmp.
  assert (HN1 : nodes s1 !! n = Some N1) by (unfold s1; rewrite node_set_lookup; by rewrite decide_True).
  assert (Hput : forall s2 N2 (x : Z * binder_object), inv s2 -> nodes s2 !! n = Some N2 -> tmp_refs N2 = tmp_refs N1 ->
    node_refs N2 <> [] -> exists s', (binder_put_node n ;! ret x) s2 = Some (x, s') /\ inv s' /\ refs s' = refs s2 /\
      nodes s' !! n = Some (add_tmp (-1) N2)).
  { intros s2 N2 x I2 HN2 Ht2 Hne. destruct (put_node_inv None n N2 s2 I2 HN2) as (s' & E & I' & G & _ & R' & _).
    { rewrite Ht2. simpl. lia. }
    exists s'. split; [by erewrite bind_eq by exact E|]. split; [done|]. split; [done|].
    destruct G as [G|[_ Hno]]; [done|]. exfalso. apply Hno. by left. }
  assert (Hne : node_refs N <> []) by (intros E0; rewrite E0 in Hi; by apply not_elem_of_nil in Hi).
  assert (Hnames : names s p (obj_handle fp) n strong_) by (by exists r, R).
  destruct denied.
  { erewrite bind_eq by reflexivity. destruct (Hput s1 N1 (- EPERM, fp) I1 HN1 eq_refl Hne) as (s' & E & I' & _).
    exists (- EPERM), fp, s'. split; [exact E|]. split; [done|]. right. split; [done|]. by left. }
  destruct (Hroom n N HN) as (Hr1 & Hr2 & Hr3 & Hr4). cbv iota.
  destruct (decide (node_proc N1 = Some tp)) as [Hhome|Haway].
  - fold (home_type (hdr fp)).
    assert (Eb : bool_decide (home_type (hdr fp) = BINDER_TYPE_BINDER) = strong_).
    { unfold strong_, home_type. by destruct (hdr fp). }
    rewrite Eb. destruct (inc_local_inv n N1 strong_ s1 I1 HN1 ltac:(done) ltac:(simpl; lia)) as (rv & s2 & E2 & -> & I2 & _).
    set (N2 := add_local strong_ 1 N1) in *. rewrite bind_assoc. erewrite bind_eq by by apply node_at_eq.
    rewrite bool_decide_eq_true_2 by done.
    erewrite (bind_eq (bind _ _)) by (erewrite bind_eq by exact E2; reflexivity).
    destruct (Hput (node_set n N2 s1) N2 (0, as_binder (home_type (hdr fp)) (node_ptr N1) (node_cookie N1) fp) I2)
      as (s' & E & I' & _ & HN').
    { rewrite node_set_lookup. by rewrite decide_True. } { unfold N2, add_local. by destruct strong_. }
    { unfold N2, add_local. by destruct strong_. }
    eexists 0, _, s'. split; [exact E|]. split; [done|]. left. exists n. split; [done|]. split; [done|]. split; [done|].
    exists (add_tmp (-1) N2). split; [done|]. left. unfold N2, add_local. by destruct strong_.
  - destruct (inc_ref_for_node_inv tp TP n N1 strong_ None kz_ref s1 I1 HTP HN1) as (rv & rd & s2 & E2 & I2 & Hres2);
      try done.
    rewrite bind_assoc. erewrite bind_eq by by apply node_at_eq. rewrite bool_decide_eq_false_2 by done.
    destruct Hres2 as [(-> & -> & -> & -> & _)|(r2 & R2 & N2 & s3 & rd' & Hsrc & _ & -> & Hc)].
    { erewrite (bind_eq (bind _ _)) by (erewrite bind_eq by exact E2; reflexivity).
      destruct (Hput s1 N1 (- ENOMEM, fp) I1 HN1 eq_refl Hne) as (s' & E & I' & _).
      exists (- ENOMEM), fp, s'. split; [exact E|]. split; [done|]. right. split; [done|]. right; by left. }
    assert (Hint : strong_ = true -> internal_strong_refs N2 <> 0).
    { intros Hb. pose proof (strong_internal r R n N s I HR Hn HN (Hst Hb)).
      destruct Hsrc as [(_ & _ & _ & _ & ->)|(_ & _ & -> & _)]; simpl; lia. }
    destruct (inc_ref_result tp TP n N1 strong_ _ kz_ref s1 r2 R2 N2 s3 rv rd' s2 I1 Hsrc HN1 Hc I2) as
      (N3 & HN3 & Ht3 & Hptr3 & Hpr3 & Hck3 & Hi3 & _ & Hrv).
    assert (Hne3 : node_refs N3 <> []) by (intros E0; rewrite E0 in Hi3; by apply not_elem_of_nil in Hi3).
    destruct Hrv as [[-> _]|[-> Hh]].
    + erewrite (bind_eq (bind _ _)) by (erewrite bind_eq by exact E2; reflexivity).
      destruct (Hput s2 N3 (- EINVAL, fp) I2 HN3 Ht3 Hne3) as (s' & E & I' & _).
      exists (- EINVAL), fp, s'. split; [exact E|]. split; [done|]. right. split; [done|]. right; right. split; [done|].
      intros Hb. exfalso. apply (Hint Hb). destruct Hc as [(_ & _ & _ & _ & _ & Hz)|(? & _)]; [|done].
      rewrite Hb in Hz. apply Hz.
    + erewrite (bind_eq (bind _ _)) by (erewrite bind_eq by exact E2; reflexivity).
      destruct (Hput s2 N3 (0, as_handle (hdr fp) (desc rd') fp) I2 HN3 Ht3 Hne3) as (s' & E & I' & Er & HN').
      eexists 0, _, s'. split; [exact E|]. split; [done|]. left. exists n. split; [done|]. split; [done|]. split; [done|].
      assert (Hh' : handle_to s' tp (desc rd') n strong_) by (destruct Hh as (q & Q & HQ & ?); exists q, Q; by rewrite Er).
      exists (add_tmp (-1) N3). split; [done|]. right. split; [simpl; by rewrite Hpr3|]. exists (desc rd'). split; [|done].
      destruct Hh' as (q & Q & HQ & _ & <- & _). by apply (g_udesc _ _ _ (i_graph _ _ _ _ I') q Q).
Qed.

(** ** The release of an object *)

(** The count that the object of a transaction stands for is there. *)
Definition owes_object (s : binder) (p : nat) (fp : binder_object) : Prop :=
  match hdr fp with
  | BINDER_TYPE_BINDER | BINDER_TYPE_WEAK_BINDER =>
    forall n N, nodes s !! n = Some N -> node_proc N = Some p -> node_ptr N = obj_binder fp ->
      spare s n N (bool_decide (hdr fp = BINDER_TYPE_BINDER))
  | _ => True
  end.

Lemma release_object_inv p P fp s : inv s -> procs s !! p = Some P -> room s -> owes_object s p fp ->
  exists s', release_object p fp s = Some (tt, s') /\ inv s'.
Proof.
  intros I HP Hroom Howes.
  assert (Hbinder : forall strong_, (forall n N, nodes s !! n = Some N -> node_proc N = Some p ->
      node_ptr N = obj_binder fp -> spare s n N strong_) ->
    exists s', (let! found := binder_get_node p (obj_binder fp) in match found with None => ret tt
      | Some n => binder_dec_node n strong_ false ;! binder_put_node n end) s = Some (tt, s') /\ inv s').
  { intros strong_ Hsp. destruct (get_node_inv p P (obj_binder fp) s I HP Hroom) as (res & s1 & E1 & I1 & Hres).
    erewrite bind_eq by exact E1. destruct res as [n|]; [|by exists s1].
    destruct Hres as (N & HN & Hp & Hptr & ->). set (N1 := add_tmp 1 N) in *. set (s1 := node_set n N1 s) in *.
    assert (HN1 : nodes s1 !! n = Some N1) by (unfold s1; rewrite node_set_lookup; by rewrite decide_True).
    pose proof (nc_tmp _ _ _ (c_node _ (i_counted _ _ _ _ I) n N HN)) as Htmp.
    destruct (dec_local_inv n N1 strong_ s1 I1 HN1 (Hsp n N HN Hp Hptr)) as (s2 & E2 & I2 & G2 & _).
    erewrite bind_eq by exact E2. destruct G2 as [HN2|[_ Hno]].
    2:{ exfalso. apply Hno. right; right; right. destruct strong_; simpl; lia. }
    destruct (put_node_inv None n _ s2 I2 HN2) as (s3 & E3 & I3 & _); [destruct strong_; simpl; lia|]. by exists s3. }
  assert (Hhandle : forall strong_, exists s', (binder_dec_ref_for_handle p (obj_handle fp) strong_ ;! ret tt) s
      = Some (tt, s') /\ inv s').
  { intros strong_. destruct (update_ref_dec_inv p P (obj_handle fp) strong_ s I HP) as (rv & rd & s1 & E1 & I1 & _).
    unfold binder_dec_ref_for_handle. erewrite bind_eq by exact E1. by exists s1. }
  unfold release_object, owes_object in *. destruct (hdr fp); try (by apply Hhandle); by apply Hbinder.
Qed.

(** A transaction's counts on its target. *)
Lemma refs_for_txn_inv n N s : inv s -> nodes s !! n = Some N -> node_room N ->
  exists r s', binder_get_node_refs_for_txn n s = Some (r, s') /\ inv s' /\ r = node_proc N /\
    (r = None -> s' = s) /\ (r <> None -> nodes s' !! n = Some (add_tmp 1 (add_local true 1 N))).
Proof.
  intros I HN (H1 & H2 & H3 & H4). unfold binder_get_node_refs_for_txn. erewrite bind_eq by by apply node_at_eq.
  destruct (node_proc N) as [p|] eqn:Hp; [|by exists None, s].
  pose proof (c_node _ (i_counted _ _ _ _ I) n N HN) as C. pose proof (nc_tmp _ _ _ C).
  destruct (g_proc _ _ _ (i_graph _ _ _ _ I) n N p HN Hp) as [P HP].
  pose proof (nc_strong _ _ _ C). pose proof (owed_range N (pending_strong_ref N)).
  assert (C' : node_counts s n (add_local true 1 N)) by (apply counts_local; [done|by left]).
  assert (I1 : inv (node_set n (add_local true 1 N) s)).
  { eapply (inv_node_upd _ _ None _ n N); [done|done|done|by left|done..|]. intros _. left. right; left. simpl. lia. }
  assert (E1 : binder_inc_node_nilocked n true false None s = Some (0, node_set n (add_local true 1 N) s)).
  { unfold binder_inc_node_nilocked. erewrite bind_eq by by apply node_at_eq.
    assert (Hm : exists b, is_context_mgr n N s = Some (b, s)).
    { unfold is_context_mgr. rewrite Hp. erewrite bind_eq by by apply proc_at_eq. by eexists. }
    destruct Hm as [b Hm]. erewrite bind_eq by exact Hm. cbn [andb]. erewrite bind_eq by reflexivity.
    rewrite s32_int by (unfold is_int, two31 in *; lia). reflexivity. }
  erewrite bind_eq by exact E1. set (s1 := node_set n _ s) in *.
  assert (HN1 : nodes s1 !! n = Some (add_local true 1 N)) by (unfold s1; rewrite node_set_lookup; by rewrite decide_True).
  destruct (inc_tmpref_inv None None n _ s1 I1 ltac:(by left) HN1 ltac:(simpl; lia)) as [E2 I2].
  erewrite bind_eq by exact E2. erewrite bind_eq by (apply (proc_at_eq p P); exact HP).
  eexists (Some p), _. split; [reflexivity|]. split.
  { eapply inv_alike; [exact I2|]. apply (alike_proc p P); [exact HP|by repeat split]. }
  split; [done|]. split; [done|]. intros _. change (nodes (node_set n (add_tmp 1 (add_local true 1 N)) s1) !! n = Some (add_tmp 1 (add_local true 1 N))).
  rewrite node_set_lookup. by rewrite decide_True.
Qed.

(** The query for a handle's node leaves no count behind. *)
Lemma node_info_inv p P handle zeroed s : inv s -> procs s !! p = Some P -> room s ->
  exists rv c s', binder_ioctl_get_node_info_for_ref p handle zeroed s = Some ((rv, c), s') /\ inv s'.
Proof.
  intros I HP Hroom. unfold binder_ioctl_get_node_info_for_ref.
  destruct zeroed; cbn [negb]; [|by eexists _, _, s]. erewrite bind_eq by by apply proc_at_eq. erewrite bind_eq by reflexivity.
  assert (Hm : exists b, (match binder_context_mgr_node s !! proc_context P with None => ret false
    | Some m => let! N := node_at m in ret (bool_decide (node_proc N = Some p)) end) s = Some (b, s)).
  { destruct (binder_context_mgr_node s !! proc_context P) as [m|] eqn:Hm; [|by eexists].
    destruct (g_mgr _ _ _ (i_graph _ _ _ _ I) _ m Hm) as (_ & N & _ & _ & HN & _).
    erewrite bind_eq by by apply node_at_eq. by eexists. }
  destruct Hm as [b Hm]. erewrite bind_eq by exact Hm. destruct b; cbn [negb]; [|by eexists _, _, s].
  destruct (get_node_from_ref_inv p P handle true s I HP Hroom) as (res & s1 & E1 & I1 & Hres).
  erewrite bind_eq by exact E1. destruct res as [[n rd]|]; [|by eexists _, _, s1].
  destruct Hres as (r & R & N & _ & _ & _ & _ & _ & HN & _ & _ & ->).
  pose proof (nc_tmp _ _ _ (c_node _ (i_counted _ _ _ _ I) n N HN)) as Htmp.
  assert (HN1 : nodes (node_set n (add_tmp 1 N) s) !! n = Some (add_tmp 1 N)).
  { rewrite node_set_lookup. by rewrite decide_True. }
  erewrite bind_eq by by apply node_at_eq.
  destruct (put_node_inv None n _ _ I1 HN1 ltac:(simpl; lia)) as (s2 & E2 & I2 & _).
  erewrite bind_eq by exact E2. by eexists _, _, s2.
Qed.

Lemma node_debug_inv p P ptr s : inv s -> procs s !! p = Some P ->
  exists r, binder_ioctl_get_node_debug_info p ptr s = Some (r, s).
Proof.
  intros I HP. unfold binder_ioctl_get_node_debug_info. erewrite bind_eq by by apply proc_at_eq.
  assert (Hl : forall l, (forall n, n ∈ l -> n ∈ rb_inorder (proc_nodes P)) -> exists r, node_debug_loop l ptr s = Some (r, s)).
  { induction l as [|n l IH]; intros Hl; [by eexists|]. cbn [node_debug_loop].
    pose proof (Hl n ltac:(left)) as Hn. apply (g_nodes _ _ _ (i_graph _ _ _ _ I) p P HP) in Hn as (_ & N & HN & _).
    erewrite bind_eq by by apply node_at_eq. case_if; [by eexists|]. apply IH. intros m Hm. apply Hl. by right. }
  by apply Hl.
Qed.
End facts.
