(* ===== verification/BinderNodeSystem.v ===== *)
(** * The object graph as a transition system

    Each request a process can make of the graph, each delivery of a work
    item and the end of a process is one operation; [allowed] says what the
    callers guarantee: existing processes and threads, fresh allocations, and
    counters that are not about to pass INT_MAX. *)

From Stdlib Require Import ZArith Lia.
From stdpp Require Import base option gmap sets list.
From S2P Require Import Prelude RbTree BinderNode BinderNodeFacts BinderNodeInv BinderNodeOps.
From S2P Require Import BinderNodeRef BinderNodeDrop BinderNodeCmds BinderNodeDeath BinderNodeRelease.
From S2P Require Import BinderTranslate BinderTranslateFacts.

Section system.
Context `{RB : Rbtree}.

Inductive binder_op :=
  | BcRefs (p : nat) (increment strong_ : bool) (target : Z) (kz : option nat)
  | BcRefsDone (p : nat) (strong_ : bool) (ptr cookie : Z)
  | BcRequestDeath (p : nat) (target cookie : Z) (kz : nat)
  | BcClearDeath (p t : nat) (target cookie : Z)
  | BcDeadBinderDone (p t : nat) (cookie : Z)
  | SetCtxMgr (p : nat) (security curr_euid : Z) (kz : option nat) (fbo : option flat_binder_object)
  | GetNodeInfo (p : nat) (handle : Z) (zeroed : bool)
  | GetNodeDebug (p : nat) (ptr : Z)
  | TranslateBinder (t tp : nat) (denied : bool) (kz_node kz_ref : option nat) (fp : binder_object)
  | TranslateHandle (t tp : nat) (denied : bool) (kz_ref : option nat) (fp : binder_object)
  | ReleaseObject (p : nat) (fp : binder_object)
  | TxnRefs (n : nat)
  | ReadWork (t : nat) (wait_for_proc_work : bool) (put_user : br_node -> bool)
  | ReleaseObjects (fuel p : nat).

Definition run_op (op : binder_op) : M binder unit :=
  match op with
  | BcRefs p increment strong_ target kz => bc_refs p increment strong_ target kz ;! ret tt
  | BcRefsDone p strong_ ptr cookie => bc_refs_done p strong_ ptr cookie
  | BcRequestDeath p target cookie kz => bc_request_death p target cookie kz
  | BcClearDeath p t target cookie => bc_clear_death p t target cookie
  | BcDeadBinderDone p t cookie => bc_dead_binder_done p t cookie
  | SetCtxMgr p security curr_euid kz fbo => binder_ioctl_set_ctx_mgr p security curr_euid kz fbo ;! ret tt
  | GetNodeInfo p handle zeroed => binder_ioctl_get_node_info_for_ref p handle zeroed ;! ret tt
  | GetNodeDebug p ptr => binder_ioctl_get_node_debug_info p ptr ;! ret tt
  | TranslateBinder t tp denied kz_node kz_ref fp => binder_translate_binder t tp denied kz_node kz_ref fp ;! ret tt
  | TranslateHandle t tp denied kz_ref fp => binder_translate_handle t tp denied kz_ref fp ;! ret tt
  | ReleaseObject p fp => release_object p fp
  | TxnRefs n => binder_get_node_refs_for_txn n ;! ret tt
  | ReadWork t wait_for_proc_work put_user => read_work t wait_for_proc_work put_user ;! ret tt
  | ReleaseObjects fuel p => release_objects fuel p ;! ret tt
  end.

(** An allocation returns nothing or a fresh object. *)
Definition fresh_in {A} (m : gmap nat A) (kz : option nat) : Prop := forall k, kz = Some k -> m !! k = None.

(** The object a transaction command names can be carried out for [p]. *)
Definition desc_room_of (p : nat) (s : binder) : Prop := forall P, procs s !! p = Some P -> desc_room P.

Definition allowed (s : binder) (op : binder_op) : Prop :=
  room s /\ ref_room s /\
  match op with
  | BcRefs p _ _ _ kz => is_Some (procs s !! p) /\ desc_room_of p s /\ fresh_in (refs s) kz
  | BcRefsDone p _ _ _ | GetNodeInfo p _ _ | GetNodeDebug p _ => is_Some (procs s !! p)
  | BcRequestDeath p _ _ kz => is_Some (procs s !! p) /\ deaths s !! kz = None
  | BcClearDeath p t _ _ | BcDeadBinderDone p t _ => is_Some (procs s !! p) /\ is_Some (threads s !! t)
  | SetCtxMgr p _ _ kz _ => is_Some (procs s !! p) /\ fresh_in (nodes s) kz
  | TranslateBinder t tp _ kz_node kz_ref _ => is_Some (threads s !! t) /\ is_Some (procs s !! tp) /\ desc_room_of tp s /\
      fresh_in (nodes s) kz_node /\ fresh_in (refs s) kz_ref
  | TranslateHandle t tp _ kz_ref _ => is_Some (threads s !! t) /\ is_Some (procs s !! tp) /\ desc_room_of tp s /\
      fresh_in (refs s) kz_ref
  | ReleaseObject p fp => is_Some (procs s !! p) /\ owes_object s p fp
  | TxnRefs n => is_Some (nodes s !! n)
  | ReadWork t _ _ => is_Some (threads s !! t)
  | ReleaseObjects fuel p => exists P, procs s !! p = Some P /\ (length (rb_inorder (proc_nodes P)) < fuel)%nat /\
      (length (rb_inorder (refs_by_desc P)) < fuel)%nat
  end.

Inductive binder_step (s s' : binder) : Prop :=
| BinderStep op : allowed s op -> run_op op s = Some (tt, s') -> binder_step s s'.

(** Processes and threads, and nothing between them yet. *)
Record binder_init (s : binder) : Prop := BinderInit {
  bi_nodes : nodes s = ∅;
  bi_refs : refs s = ∅;
  bi_deaths : deaths s = ∅;
  bi_works l : queue l s = [];
  bi_mgr : binder_context_mgr_node s = ∅;
  bi_dead : binder_dead_nodes s = [];
  bi_proc p P : procs s !! p = Some P -> proc_nodes P = rb_leaf /\ refs_by_desc P = rb_leaf /\ refs_by_node P = rb_leaf;
  bi_threads : threads_there s /\ forall t T, threads s !! t = Some T -> is_Some (procs s !! thread_proc T)
}.

Definition binder_reachable (s : binder) : Prop := exists s0, binder_init s0 /\ star binder_step s0 s.

Lemma init_inv s : binder_init s -> inv s.
Proof.
  intros [Hn Hr Hds Hwk Hm Hdd Hp Hth]. assert (Hleaf : forall key (P : nat -> Prop), (forall x, ~ P x) -> holds_set key rb_leaf P).
  { intros key P HP. split; [constructor|]. intros x. split; [by intros ?%not_elem_of_nil|by intros ?%HP]. }
  assert (Hq : forall w l, w ∉ queue l s) by (intros w l; rewrite Hwk; apply not_elem_of_nil).
  split.
  - split; rewrite ?Hn, ?Hr, ?Hm, ?Hdd; try done.
    + intros p P HP. destruct (Hp p P HP) as (-> & _ & _). apply Hleaf. by intros n (_ & N & ? & _).
    + intros p P HP. destruct (Hp p P HP) as (_ & -> & _). apply Hleaf. by intros n (_ & N & ? & _).
    + intros p P HP. destruct (Hp p P HP) as (_ & _ & ->). apply Hleaf. by intros n (_ & N & ? & _).
    + split; [constructor|]. intros n. split; [by intros ?%not_elem_of_nil|by intros (_ & N & ? & _)].
  - split; rewrite ?Hn, ?Hr; done.
  - split; rewrite ?Hn; try done.
    + intros l. rewrite Hwk. constructor.
    + intros w l l' Hw. by destruct (Hq w l).
    + intros n l Hi. by destruct (Hq (WNode n) l).
  - split; rewrite ?Hr, ?Hds; try done.
    + intros d l Hi. by destruct (Hq (WDeath d) l).
    + intros w p Hw. by destruct (Hq w (delivered_death p)).
Qed.

Context {RBL : RbtreeLaws}.

Lemma read_list_eq t T wait s : threads s !! t = Some T -> exists l, read_list t wait s = Some (l, s) /\
  forall l', l = Some l' -> queue l' s <> [] /\ list_owner s l' = Some (thread_proc T).
Proof.
  intros HT. unfold read_list. erewrite bind_eq by by apply thread_at_eq. erewrite bind_eq by reflexivity.
  erewrite bind_eq by reflexivity. eexists. split; [reflexivity|]. intros l' Hl'. case_bool_decide; cbn [negb] in Hl'.
  - case_bool_decide; cbn [negb andb] in Hl'; [done|]. destruct wait; [|done]. by injection Hl' as <-.
  - injection Hl' as <-. simpl. by rewrite HT.
Qed.

(** The flag of the thread, reset when its list has run empty. *)
Definition todo_flag (t : nat) (T : binder_thread) (w : binder_work) (s : binder) : binder :=
  if bool_decide (queue (thread_todo t) (dequeued w s) = [])
  then set_threads (<[t := set_process_todo_flag false T]> (threads s)) s
  else s.

Lemma todo_flag_ok t T w s : inv s -> threads s !! t = Some T ->
  inv (todo_flag t T w s) /\ nodes (todo_flag t T w s) = nodes s /\ (forall l, queue l (todo_flag t T w s) = queue l s) /\
  exists T', threads (todo_flag t T w s) !! t = Some T' /\ thread_proc T' = thread_proc T.
Proof.
  intros I HT. unfold todo_flag. case_bool_decide; [|repeat (split; [done|]); by exists T].
  split; [by apply (inv_set_thread t T)|]. split; [done|].
  split; [done|]. eexists. simpl. split; [by rewrite lookup_insert_eq|done].
Qed.

(** The head of the chosen list, with the flag brought up to date. *)
Lemma read_head_eq t T l w q s : threads s !! t = Some T -> queue l s = w :: q ->
  forall (B : Type) (k : option binder_work -> M binder B),
  (let! w := binder_dequeue_work_head_ilocked l in
   let! empty := binder_worklist_empty_ilocked (thread_todo t) in
   (if empty : bool then clear_process_todo t else ret tt) ;! k w) s = k (Some w) (dequeued w (todo_flag t T w s)).
Proof.
  intros HT Hl B k. assert (E : binder_dequeue_work_head_ilocked l s = Some (Some w, dequeued w s)).
  { unfold binder_dequeue_work_head_ilocked. erewrite bind_eq by reflexivity. rewrite Hl. reflexivity. }
  erewrite bind_eq by exact E. erewrite bind_eq by reflexivity. unfold todo_flag.
  destruct (bool_decide (queue (thread_todo t) (dequeued w s) = [])); [|by erewrite bind_eq by reflexivity].
  erewrite bind_eq; [reflexivity|]. unfold clear_process_todo. by erewrite bind_eq by by apply (thread_at_eq t T).
Qed.

Lemma read_item_ok p T w l put_user s : inv s -> room s -> list_owner s l = Some p -> w ∈ queue l s -> thread_proc T = p ->
  exists r s', (match w with
    | WNode n => let! r := read_work_node (thread_proc T) n put_user in ret (ReadNode r)
    | WDeath d => let! r := read_work_death (thread_proc T) d in ret (ReadDeath r)
    | _ => ret (ReadOther w)
    end) (dequeued w s) = Some (r, s') /\ inv s'.
Proof.
  intros I Hroom Hl Hw ->.
  assert (Hother : (forall n, w <> WNode n) -> (forall d, w <> WDeath d) -> inv (dequeued w s)).
  { intros Hn Hd. apply (inv_notified s); try done.
    - intros r R HR. by exists R.
    - intros r R HR. by exists R.
    - intros n l'. rewrite elem_dequeued. split; [by intros [_ ?]|]. intros ?. split; [by intros <-; apply (Hn n)|done].
    - apply lists_dequeued, (inv_lists _ _ _ _ I).
    - destruct I as [_ _ _ []]. assert (Hdq : forall d l', WDeath d ∈ queue l' (dequeued w s) <-> WDeath d ∈ queue l' s).
      { intros d l'. rewrite elem_dequeued. split; [by intros [_ ?]|]. intros ?. split; [by intros <-; apply (Hd d)|done]. }
      split; try done.
      + intros r R d HR Hrd. destruct (d_ref r R d HR Hrd) as (D & HD & H). exists D. split; [done|].
        intros Hx l' Hi%Hdq. by apply (H Hx l').
      + intros d l' Hi%Hdq. by eapply d_queue.
      + intros w' p' [_ Hi]%elem_dequeued. by eapply d_deliv.
      + intros d D HD. destruct (d_free d D HD) as [?|[[l' Hi] ?]]; [by left|right]. split; [|done]. exists l'. by apply Hdq. }
  destruct w as [x|x|x|x|n|d].
  - exists (ReadOther (WTransaction x)), (dequeued (WTransaction x) s). split; [done|by apply Hother].
  - exists (ReadOther (WTransactionComplete x)), (dequeued (WTransactionComplete x) s). split; [done|by apply Hother].
  - exists (ReadOther (WReturnError x)), (dequeued (WReturnError x) s). split; [done|by apply Hother].
  - exists (ReadOther (WReplyError x)), (dequeued (WReplyError x) s). split; [done|by apply Hother].
  - destruct (q_node _ _ _ (i_queued _ _ _ _ I) n l Hw) as (_ & N & p' & HN & Hp & Ho). simplify_eq.
    destruct (read_node_inv p n N put_user (dequeued (WNode n) s)) as (s' & E' & I' & _).
    + apply (inv_dequeue_node None None None n); [done|by left].
    + intros l' [? _]%elem_dequeued. done.
    + done.
    + done.
    + by apply (Hroom n).
    + eexists _, s'. split; [by erewrite bind_eq by exact E'|done].
  - destruct (read_death_inv p d l s I Hw) as (D & s' & HD & I' & _ & _ & Hres).
    case_decide; destruct Hres as [E' _]; eexists _, s'; (split; [by erewrite bind_eq by exact E'|done]).
Qed.

Lemma room_nodes s s' : room s -> nodes s' = nodes s -> room s'.
Proof. unfold room. by intros H ->. Qed.

(** The round as a whole. *)
Lemma read_work_eq t T wait l w q put_user s : threads s !! t = Some T -> read_list t wait s = Some (Some l, s) ->
  queue l s = w :: q -> inv s ->
  let s1 := todo_flag t T w s in inv s1 /\ nodes s1 = nodes s /\ queue l s1 = w :: q /\
  exists T', thread_proc T' = thread_proc T /\ list_owner s1 l = Some (thread_proc T) /\
    read_work t wait put_user s = (match w with
    | WNode n => let! r := read_work_node (thread_proc T') n put_user in ret (ReadNode r)
    | WDeath d => let! r := read_work_death (thread_proc T') d in ret (ReadDeath r)
    | _ => ret (ReadOther w)
    end) (dequeued w s1).
Proof.
  intros HT El Hq I s1. destruct (todo_flag_ok t T w s I HT) as (I1 & Hn & Hqq & T' & HT' & Ep).
  split; [done|]. split; [done|]. split; [by rewrite Hqq|]. exists T'. split; [done|]. split.
  - destruct (read_list_eq t T wait s HT) as (l0 & El0 & Hl0). rewrite El in El0. injection El0 as <-.
    destruct (Hl0 l eq_refl) as [_ Ho]. unfold s1, todo_flag. case_bool_decide; [|done].
    destruct l as [p|u|m|p]; try done. simpl in *. rewrite lookup_insert. case_decide as Hu; [|done]. by subst; rewrite HT in Ho.
  - unfold read_work. erewrite bind_eq by exact El. cbv beta iota. rewrite (read_head_eq t T l w q s HT Hq).
    erewrite bind_eq by by apply (thread_at_eq t T'). by erewrite bind_eq by reflexivity.
Qed.

Lemma read_work_ok t T wait put_user s : inv s -> room s -> threads s !! t = Some T ->
  exists r s', read_work t wait put_user s = Some (r, s') /\ inv s'.
Proof.
  intros I Hroom HT. destruct (read_list_eq t T wait s HT) as (o & El & Hl).
  destruct o as [l|]; [|exists ReadNothing, s; split; [unfold read_work; by erewrite bind_eq by exact El|done]].
  destruct (Hl l eq_refl) as [Hne _]. destruct (queue l s) as [|w q] eqn:Hq; [done|].
  destruct (read_work_eq t T wait l w q put_user s HT El Hq I) as (I1 & Hn & Hq1 & T' & Ep & Ho & ->).
  apply (read_item_ok (thread_proc T) T' w l); try done; [by eapply room_nodes|]. rewrite Hq1. left.
Qed.

(** Every operation runs to its end, without a [BUG] or a dangling pointer,
    and leaves the graph consistent. *)
Lemma op_ok s op : inv s -> allowed s op -> exists s', run_op op s = Some (tt, s') /\ inv s'.
Proof.
  intros I (Hroom & Hrr & Ha). destruct op; cbn [run_op allowed] in *.
  - destruct Ha as ([P HP] & Hd & Hf).
    destruct (bc_refs_inv p P increment strong_ target kz s I HP Hroom Hrr (Hd P HP) Hf) as (r & s' & E & I' & _).
    exists s'. split; [by erewrite bind_eq by exact E|done].
  - destruct Ha as [P HP]. destruct (refs_done_inv p P strong_ ptr cookie s I HP Hroom) as (s' & E & I' & _). by exists s'.
  - destruct Ha as ([P HP] & Hf). destruct (request_death_inv p P target cookie kz s I HP Hf) as (s' & E & I' & _). by exists s'.
  - destruct Ha as ([P HP] & [T HT]). destruct (clear_death_inv p P t T target cookie s I HP HT) as (s' & E & I' & _). by exists s'.
  - destruct Ha as ([P HP] & [T HT]). destruct (dead_binder_done_inv p P t T cookie s I HP HT) as (s' & E & I' & _). by exists s'.
  - destruct Ha as ([P HP] & Hf).
    destruct (set_ctx_mgr_inv p P security curr_euid kz fbo s I HP Hroom Hf) as (r & s' & E & I' & _).
    exists s'. split; [by erewrite bind_eq by exact E|done].
  - destruct Ha as [P HP]. destruct (node_info_inv p P handle zeroed s I HP Hroom) as (r & c & s' & E & I').
    exists s'. split; [by erewrite bind_eq by exact E|done].
  - destruct Ha as [P HP]. destruct (node_debug_inv p P ptr s I HP) as (r & E).
    exists s. split; [by erewrite bind_eq by exact E|done].
  - destruct Ha as ([T HT] & [TP HTP] & Hd & Hfn & Hfr).
    destruct (proj2 (g_threads _ _ _ (i_graph _ _ _ _ I)) t T HT) as [P HP].
    destruct (translate_binder_inv t T P tp TP denied kz_node kz_ref fp s I HT HP HTP Hroom Hrr (Hd TP HTP) Hfn Hfr)
      as (r & fp' & s' & E & I' & _). exists s'. split; [by erewrite bind_eq by exact E|done].
  - destruct Ha as ([T HT] & [TP HTP] & Hd & Hfr).
    destruct (proj2 (g_threads _ _ _ (i_graph _ _ _ _ I)) t T HT) as [P HP].
    destruct (translate_handle_inv t T P tp TP denied kz_ref fp s I HT HP HTP Hroom Hrr (Hd TP HTP) Hfr)
      as (r & fp' & s' & E & I' & _). exists s'. split; [by erewrite bind_eq by exact E|done].
  - destruct Ha as ([P HP] & Ho). destruct (release_object_inv p P fp s I HP Hroom Ho) as (s' & E & I'). by exists s'.
  - destruct Ha as [N HN]. destruct (refs_for_txn_inv n N s I HN (Hroom n N HN)) as (r & s' & E & I' & _).
    exists s'. split; [by erewrite bind_eq by exact E|done].
  - destruct Ha as [T HT]. destruct (read_work_ok t T wait_for_proc_work put_user s I Hroom HT) as (r & s' & E & I').
    exists s'. split; [by erewrite bind_eq by exact E|done].
  - destruct Ha as (P & HP & Hf1 & Hf2).
    destruct (release_objects_inv p P fuel s I HP ltac:(intros n N HN _; apply (Hroom n N HN)) Hf1 Hf2) as (s' & E & I' & _).
    exists s'. split; [by erewrite bind_eq by exact E|done].
Qed.

Lemma graph_reachable_inv s : binder_reachable s -> inv s.
Proof.
  intros (s0 & H0 & Hs). eapply (star_invariant binder_step inv); [|by apply init_inv|exact Hs].
  intros x y Ix [op Ha E]. destruct (op_ok x op Ix Ha) as (y' & E' & Iy). rewrite E in E'. by simplify_eq.
Qed.
End system.
