(* ===== verification/BinderNodeTheorems.v ===== *)
(** * Binder nodes and references: the properties

    What a client of the object graph may rely on, each with an instance on a
    small run: a server (process 1) becomes context manager, hands a binder to
    a client (process 2), and the client asks to be told of its death. *)

From Stdlib Require Import ZArith Lia.
From stdpp Require Import base option gmap sets list.
From S2P Require Import Prelude RbTree BinderNode BinderNodeFacts BinderNodeInv BinderNodeOps.
From S2P Require Import BinderNodeRef BinderNodeDrop BinderNodeCmds BinderNodeDeath BinderNodeRelease.
From S2P Require Import BinderTranslate BinderTranslateFacts BinderNodeSystem.

(** ** A run *)

#[local] Existing Instance plain_rbtree.
#[local] Existing Instance plain_rbtree_laws.

Definition demo_proc (t : nat) : binder_proc := Proc (rb_node RB_BLACK rb_leaf t rb_leaf) rb_leaf rb_leaf rb_leaf [] 0 100 false 0 0 0 0.
Definition demo_thread (p : nat) : binder_thread := Thread p 100 BINDER_LOOPER_STATE_ENTERED false None false BR_OK BR_OK 0 false.

Definition demo_init : binder :=
  Binder ∅ ∅ ∅ {[1%nat := demo_proc 1; 2%nat := demo_proc 2]} {[1%nat := demo_thread 1; 2%nat := demo_thread 2]}
    ∅ ∅ ∅ [] 0 [] (fun _ => 0) (fun _ => 0) 0.

Definition exec (op : binder_op) (s : binder) : binder :=
  match run_op op s with Some (_, s') => s' | None => s end.

Definition demo_object : binder_object := Object BINDER_TYPE_BINDER (Fbo 4096 77 0).

Definition op_mgr : binder_op := SetCtxMgr 1 0 1000 (Some 10%nat) None.
Definition op_acquire : binder_op := BcRefs 2 true true 0 (Some 20%nat).
Definition op_send : binder_op := TranslateBinder 1 2 false (Some 11%nat) (Some 21%nat) demo_object.
Definition op_read : binder_op := ReadWork 1 true (fun _ => true).
Definition op_done : binder_op := BcRefsDone 1 true 4096 77.
Definition op_ask : binder_op := BcRequestDeath 2 1 555 30.

Definition demo_mgr : binder := exec op_mgr demo_init.
Definition demo_acquired : binder := exec op_acquire demo_mgr.
Definition demo_sent : binder := exec op_send demo_acquired.
Definition demo_read : binder := exec op_read demo_sent.
Definition demo_done : binder := exec op_done demo_read.
Definition demo_asked : binder := exec op_ask demo_done.

(** Counters far from INT_MAX, as a test. *)
Definition roomb (s : binder) : bool :=
  forallb (fun x : nat * binder_node => (internal_strong_refs (snd x) + 1 <? two31) && (local_strong_refs (snd x) + 1 <? two31)
    && (local_weak_refs (snd x) + 1 <? two31) && (tmp_refs (snd x) + 1 <? two31)) (map_to_list (nodes s))
  && forallb (fun x : nat * binder_ref => (strong (ref_data (snd x)) + 1 <? two31) && (weak (ref_data (snd x)) + 1 <? two31))
       (map_to_list (refs s)).

Lemma roomb_ok s : roomb s = true -> room s /\ ref_room s.
Proof.
  unfold roomb. intros [Hn Hr]%andb_true_iff. rewrite !forallb_forall in *. split.
  - intros n N HN. apply elem_of_map_to_list, list_elem_of_In in HN. specialize (Hn _ HN). simpl in Hn.
    rewrite !andb_true_iff, !Z.ltb_lt in Hn. unfold node_room. tauto.
  - intros r R HR. apply elem_of_map_to_list, list_elem_of_In in HR. specialize (Hr _ HR). simpl in Hr.
    rewrite !andb_true_iff, !Z.ltb_lt in Hr. tauto.
Qed.

Lemma exec_reachable s op : binder_reachable s -> allowed s op -> binder_reachable (exec op s).
Proof.
  intros Hs Ha. destruct (op_ok s op (graph_reachable_inv s Hs) Ha) as (s' & E & _). unfold exec. rewrite E.
  destruct Hs as (s0 & H0 & Hs). exists s0. split; [done|]. eapply star_step; [exact Hs|]. by apply (BinderStep _ _ op).
Qed.

Lemma demo_init_procs p P : procs demo_init !! p = Some P -> (p = 1%nat \/ p = 2%nat) /\ P = demo_proc p.
Proof.
  unfold demo_init. cbn [procs]. rewrite lookup_insert_Some, lookup_singleton_Some.
  intros [[<- <-]|[_ [<- <-]]]; (split; [|reflexivity]); [left|right]; reflexivity.
Qed.
Lemma demo_init_threads t T : threads demo_init !! t = Some T -> (t = 1%nat \/ t = 2%nat) /\ T = demo_thread t.
Proof.
  unfold demo_init. cbn [threads]. rewrite lookup_insert_Some, lookup_singleton_Some.
  intros [[<- <-]|[_ [<- <-]]]; (split; [|reflexivity]); [left|right]; reflexivity.
Qed.

Lemma demo_init_reachable : binder_reachable demo_init.
Proof.
  exists demo_init. split; [|apply star_refl]. split; try reflexivity.
  - intros p P [_ ->]%demo_init_procs. split_and!; reflexivity.
  - split.
    + intros p P t [Hp ->]%demo_init_procs Ht%list_elem_of_singleton. subst t.
      destruct Hp as [->| ->]; eexists; vm_compute; reflexivity.
    + intros t T [Ht ->]%demo_init_threads. destruct Ht as [->| ->]; eexists; vm_compute; reflexivity.
Qed.

(** [allowed] on a state that computes. *)
Ltac allowed_demo := split; [|split]; [apply roomb_ok; vm_compute; reflexivity..|].
Ltac some_demo := eexists; vm_compute; reflexivity.
Ltac fresh_demo := intros ? [= <-]; vm_compute; reflexivity.
Ltac desc_demo := let HP := fresh in intros ? HP; vm_compute in HP; injection HP as <-; vm_compute; reflexivity.

Lemma demo_mgr_reachable : binder_reachable demo_mgr.
Proof. apply (exec_reachable demo_init op_mgr demo_init_reachable). allowed_demo. split; [some_demo|fresh_demo]. Qed.

Lemma acquire_allowed : allowed demo_mgr op_acquire.
Proof. allowed_demo. split; [some_demo|split; [desc_demo|fresh_demo]]. Qed.
Lemma demo_acquired_reachable : binder_reachable demo_acquired.
Proof. exact (exec_reachable _ _ demo_mgr_reachable acquire_allowed). Qed.

Lemma send_allowed : allowed demo_acquired op_send.
Proof. allowed_demo. split; [some_demo|split; [some_demo|split; [desc_demo|split; fresh_demo]]]. Qed.
Lemma demo_sent_reachable : binder_reachable demo_sent.
Proof. exact (exec_reachable _ _ demo_acquired_reachable send_allowed). Qed.

Lemma read_allowed : allowed demo_sent op_read.
Proof. allowed_demo. some_demo. Qed.
Lemma demo_read_reachable : binder_reachable demo_read.
Proof. exact (exec_reachable _ _ demo_sent_reachable read_allowed). Qed.

Lemma done_allowed : allowed demo_read op_done.
Proof. allowed_demo. some_demo. Qed.
Lemma demo_done_reachable : binder_reachable demo_done.
Proof. exact (exec_reachable _ _ demo_read_reachable done_allowed). Qed.

Lemma ask_allowed : allowed demo_done op_ask.
Proof. allowed_demo. split; [some_demo|vm_compute; reflexivity]. Qed.
Lemma demo_asked_reachable : binder_reachable demo_asked.
Proof. exact (exec_reachable _ _ demo_done_reachable ask_allowed). Qed.

(** ** The graph as a whole *)

Section graph.
Context `{RB : Rbtree} {RBL : RbtreeLaws}.

(** C28: in every reachable state every allowed operation runs to its end: no
    [BUG_ON] fires, no NULL or freed object is touched and every loop stops;
    the state it leaves is again a reachable one. *)
Theorem graph_ops_safe s op : binder_reachable s -> allowed s op ->
  exists s', run_op op s = Some (tt, s') /\ binder_reachable s'.
Proof.
  intros Hs Ha. destruct (op_ok s op (graph_reachable_inv s Hs) Ha) as (s' & E & _). exists s'. split; [done|].
  destruct Hs as (s0 & H0 & Hs). exists s0. split; [done|]. eapply star_step; [exact Hs|]. by apply (BinderStep _ _ op).
Qed.

End graph.

Lemma graph_ops_safe_witness : exists s', run_op op_read demo_sent = Some (tt, s') /\ binder_reachable s'.
Proof. exact (graph_ops_safe demo_sent op_read demo_sent_reachable read_allowed). Defined.


(** ** Handles *)

Section handles.
Context `{RB : Rbtree} {RBL : RbtreeLaws}.

(** C30: a process that gets a count on a node keeps the handle it already
    has for it; a new handle is the least one free, and 0 is only for the
    context manager. *)
Theorem new_handle_least s p P n N strong_ target kz rd s' : binder_reachable s -> ref_room s ->
  procs s !! p = Some P -> desc_room P -> nodes s !! n = Some N -> node_room N -> target_ok s N target ->
  fresh_in (refs s) kz -> binder_inc_ref_for_node p n strong_ target kz s = Some ((0, Some rd), s') ->
  (exists r R, refs s !! r = Some R /\ ref_proc R = p /\ ref_node R = Some n /\ desc rd = desc (ref_data R)) \/
  (forall r R, refs s !! r = Some R -> ref_proc R = p -> ref_node R <> Some n) /\ least_desc s p n P (desc rd).
Proof.
  intros I%graph_reachable_inv Hrr HP Hd HN [Hi _] Ht Hf E.
  destruct (inc_ref_for_node_inv p P n N strong_ target kz s I HP HN Hd Hf Hi Hrr Ht) as (rv & rdo & s1 & E' & _ & Hres).
  rewrite E in E'. simplify_eq. destruct Hres as [(? & _)|(r & R & N1 & s0 & rd' & Hsrc & _ & [= <-] & Hc)]; [done|].
  destruct Hc as [(? & _)|(_ & -> & _)]; [done|].
  assert (Hdd : desc (ref_data (bumped 1 strong_ R)) = desc (ref_data R)) by by destruct strong_. rewrite Hdd.
  destruct Hsrc as [(_ & HR & Hp & Hn & _)|(_ & Hno & _ & d & td & tn & Hl & -> & _)]; [left|right; done].
  by exists r, R.
Qed.

(** C31: BC_RELEASE and BC_DECREFS on a handle: an unknown handle, or a strong
    drop on a handle without strong count, is refused; a count of zero is not
    dropped; else the count goes down by one, and with the last one go the
    reference, its death notification and, if nothing else holds it, the node. *)
Theorem handle_drop_outcomes s p P d strong_ : binder_reachable s -> procs s !! p = Some P ->
  exists rv rd s', binder_dec_ref_for_handle p d strong_ s = Some ((rv, rd), s') /\
    ((rv = - EINVAL /\ rd = None /\ s' = s /\ forall r R, refs s !! r = Some R -> ref_proc R = p ->
        desc (ref_data R) = d -> strong_ = true /\ strong (ref_data R) = 0) \/
     exists r R n N rd', refs s !! r = Some R /\ ref_proc R = p /\ desc (ref_data R) = d /\ ref_node R = Some n /\
       nodes s !! n = Some N /\ rv = 0 /\ rd = Some rd' /\ handle_dropped r R n N strong_ rd' s s').
Proof.
  intros I%graph_reachable_inv HP. destruct (update_ref_dec_inv p P d strong_ s I HP) as (rv & rd & s' & E & _ & _ & H).
  by exists rv, rd, s'.
Qed.

(** a count taken on a node and dropped again through the handle it came
    with leaves every reference of every process as it was, and no other node
    is touched. *)
Theorem handle_count_roundtrip s p P n N strong_ target kz rd s1 : binder_reachable s -> ref_room s ->
  (forall r R, refs s !! r = Some R -> no_counts R = false) ->
  procs s !! p = Some P -> desc_room P -> nodes s !! n = Some N -> node_room N -> target_ok s N target ->
  fresh_in (refs s) kz -> binder_inc_ref_for_node p n strong_ target kz s = Some ((0, Some rd), s1) ->
  exists rd' s2, binder_dec_ref_for_handle p (desc rd) strong_ s1 = Some ((0, Some rd'), s2) /\ refs s2 = refs s /\
    (forall m, m <> n -> nodes s2 !! m = nodes s !! m).
Proof.
  intros I%graph_reachable_inv Hrr Hcnt HP Hd HN [Hi _] Ht Hf E. by eapply (inc_dec_refs p P n N strong_ target kz rd s s1).
Qed.
End handles.

(** Evaluates the operation and its outcome on a demo state. *)
Ltac runs_demo := eexists; vm_compute; reflexivity.

Lemma demo_acquire_runs : exists rd s', binder_inc_ref_for_node 2 10 true None (Some 20%nat) demo_mgr = Some ((0, Some rd), s').
Proof. eexists. runs_demo. Qed.
Lemma demo_mgr_room : room demo_mgr /\ ref_room demo_mgr.
Proof. apply roomb_ok. vm_compute. reflexivity. Qed.
Lemma demo_mgr_client : exists P, procs demo_mgr !! 2%nat = Some P /\ desc_room P.
Proof. eexists. split; [vm_compute; reflexivity|vm_compute; reflexivity]. Qed.
Lemma demo_mgr_node : exists N, nodes demo_mgr !! 10%nat = Some N.
Proof. runs_demo. Qed.
Lemma demo_mgr_refs : refs demo_mgr = ∅.
Proof. vm_compute. reflexivity. Qed.

Lemma new_handle_least_witness : exists P rd s', procs demo_mgr !! 2%nat = Some P /\
  binder_inc_ref_for_node 2 10 true None (Some 20%nat) demo_mgr = Some ((0, Some rd), s') /\
  least_desc demo_mgr 2 10 P (desc rd).
Proof.
  destruct demo_mgr_client as (P & HP & Hd), demo_acquire_runs as (rd & s' & E), demo_mgr_node as [N HN].
  exists P, rd, s'. split; [exact HP|split; [exact E|]].
  destruct (new_handle_least demo_mgr 2 P 10 N true None (Some 20%nat) rd s' demo_mgr_reachable (proj2 demo_mgr_room) HP Hd HN
    (proj1 demo_mgr_room _ _ HN) I ltac:(fresh_demo) E) as [(r & R & HR & _)|[_ H]]; [|exact H].
  rewrite demo_mgr_refs, lookup_empty in HR. discriminate HR.
Defined.

Lemma handle_drop_outcomes_witness : exists s' N,
  binder_dec_ref_for_handle 2 1 true demo_asked = Some ((0, Some (RefData 4 1 0 0)), s') /\
  refs s' !! 21%nat = None /\ nodes s' !! 11%nat = Some N /\ node_refs N = [].
Proof.
  assert (HP : exists P, procs demo_asked !! 2%nat = Some P) by runs_demo. destruct HP as [P HP].
  destruct (handle_drop_outcomes demo_asked 2 P 1 true demo_asked_reachable HP) as (rv & rd & s' & E & _).
  revert E. vm_compute. intros [= <- <- <-]. eexists _, _. repeat split.
Defined.

Lemma handle_count_roundtrip_witness : exists rd s1 rd' s2,
  binder_inc_ref_for_node 2 10 true None (Some 20%nat) demo_mgr = Some ((0, Some rd), s1) /\
  binder_dec_ref_for_handle 2 (desc rd) true s1 = Some ((0, Some rd'), s2) /\ refs s2 = ∅.
Proof.
  destruct demo_mgr_client as (P & HP & Hd), demo_acquire_runs as (rd & s1 & E), demo_mgr_node as [N HN].
  assert (Hno : forall r R, refs demo_mgr !! r = Some R -> no_counts R = false)
    by (intros r R; rewrite demo_mgr_refs, lookup_empty; discriminate).
  destruct (handle_count_roundtrip demo_mgr 2 P 10 N true None (Some 20%nat) rd s1 demo_mgr_reachable (proj2 demo_mgr_room) Hno
    HP Hd HN (proj1 demo_mgr_room _ _ HN) I ltac:(fresh_demo) E) as (rd' & s2 & E2 & H & _).
  exists rd, s1, rd', s2. split; [exact E|split; [exact E2|]]. rewrite H. exact demo_mgr_refs.
Defined.

(** ** Nodes and their owners *)

Section owners.
Context `{RB : Rbtree} {RBL : RbtreeLaws}.

(** C32: the owner reads a node's work item: it gets BR_INCREFS and
    BR_ACQUIRE for a kind of count that it does not know of and that now
    exists, BR_RELEASE and BR_DECREFS for one that is gone, in this order; a
    node nothing holds any more is freed, any other is left with the view the
    owner has been told. *)
Theorem owner_told_of_changes s t T wait l n q put_user : binder_reachable s -> room s -> threads s !! t = Some T ->
  read_list t wait s = Some (Some l, s) -> queue l s = WNode n :: q ->
  exists N s', nodes s !! n = Some N /\ node_proc N = Some (thread_proc T) /\
    read_work t wait put_user s = Some (ReadNode (put_node_cmds put_user (owner_cmds N)), s') /\
    (wants_weak N = true <-> held N) /\ nodes s' !! n = (if wants_weak N then Some (synced N) else None) /\
    (forall m, m <> n -> nodes s' !! m = nodes s !! m).
Proof.
  intros I%graph_reachable_inv Hroom HT El Hq.
  destruct (read_work_eq t T wait l (WNode n) q put_user s HT El Hq I) as (I1 & Hn1 & Hq1 & T' & Ep & Hl & Er).
  set (s1 := todo_flag t T (WNode n) s) in *. assert (Hw : WNode n ∈ queue l s1) by (rewrite Hq1; left).
  destruct (q_node _ _ _ (i_queued _ _ _ _ I1) n l Hw) as (_ & N & p' & HN & Hp & Ho). simplify_eq.
  destruct (read_node_inv (thread_proc T) n N put_user (dequeued (WNode n) s1)) as (s' & E' & _ & Hm & Hn & _); try done.
  { apply (inv_dequeue_node None None None n); [done|by left]. }
  { intros l'. rewrite elem_dequeued. by intros [? _]. }
  { apply (Hroom n). by rewrite <- Hn1. }
  exists N, s'. rewrite <- Hn1. split; [done|]. split; [done|]. split; [rewrite Er, Ep; by erewrite bind_eq by exact E'|].
  split; [|done]. eapply wants_weak_held. by apply (c_node _ (i_counted _ _ _ _ I1) n N).
Qed.

(** BC_INCREFS_DONE and BC_ACQUIRE_DONE: the owner's answer drops the
    count that was kept for it exactly when it names a live node of the
    process by pointer and cookie and an answer was pending; any other
    changes no count. *)
Theorem refs_done_outcomes s p P strong_ ptr cookie : binder_reachable s -> room s -> procs s !! p = Some P ->
  exists s', bc_refs_done p strong_ ptr cookie s = Some (tt, s') /\ refs s' = refs s /\
    binder_warnings s' = binder_warnings s /\
    ((exists n N, nodes s !! n = Some N /\ node_proc N = Some p /\ node_ptr N = ptr /\
        (forall m, m <> n -> nodes s' !! m = nodes s !! m) /\
        if (cookie =? node_cookie N) && pending strong_ N then gone_or n (answered strong_ N) s' else gone_or n N s') \/
     s' = s /\ forall n N, nodes s !! n = Some N -> node_proc N = Some p -> node_ptr N <> ptr).
Proof.
  intros I%graph_reachable_inv Hroom HP.
  destruct (refs_done_inv p P strong_ ptr cookie s I HP Hroom) as (s' & E & _ & Hw & Hr & _ & H). by exists s'.
Qed.

(** BINDER_SET_CONTEXT_MGR: a context gets at most one manager (a second
    one is refused with -EBUSY), of the uid of the first process that got past
    the security module, even when that one then failed for want of memory;
    the manager's node starts with both flags set. *)
Theorem set_ctx_mgr_outcomes s p P security curr_euid kz fbo : binder_reachable s -> room s -> procs s !! p = Some P ->
  fresh_in (nodes s) kz ->
  exists rv s', binder_ioctl_set_ctx_mgr p security curr_euid kz fbo s = Some (rv, s') /\
    ctx_mgr_outcome p P security curr_euid kz rv s s'.
Proof.
  intros I%graph_reachable_inv Hroom HP Hf.
  destruct (set_ctx_mgr_inv p P security curr_euid kz fbo s I HP Hroom Hf) as (rv & s' & E & _ & H). by exists rv, s'.
Qed.
End owners.


Lemma owner_told_of_changes_witness : exists s' N,
  read_work 1 true (fun _ => true) demo_sent = Some (ReadNode (0, [BR_INCREFS; BR_ACQUIRE]), s') /\
  nodes s' !! 11%nat = Some N /\ has_strong_ref N = true /\ pending_strong_ref N = true.
Proof.
  assert (HT : exists T, threads demo_sent !! 1%nat = Some T) by runs_demo. destruct HT as [T HT].
  assert (El : read_list 1 true demo_sent = Some (Some (thread_todo 1), demo_sent)) by (vm_compute; reflexivity).
  assert (Hq : queue (thread_todo 1) demo_sent = [WNode 11]) by (vm_compute; reflexivity).
  destruct (owner_told_of_changes demo_sent 1 T true (thread_todo 1) 11 [] (fun _ => true) demo_sent_reachable
    (proj1 read_allowed) HT El Hq) as (N & s' & HN & _ & E & _ & H & _).
  assert (HN' : Some N = nodes demo_sent !! 11%nat) by (symmetry; exact HN). vm_compute in HN'. injection HN' as ->.
  eexists s', _. split; [exact E|split; [exact H|split; reflexivity]].
Defined.

Lemma refs_done_outcomes_witness : exists s' N, bc_refs_done 1 true 4096 77 demo_read = Some (tt, s') /\
  nodes s' !! 11%nat = Some N /\ pending_strong_ref N = false /\ local_strong_refs N = 0 /\ internal_strong_refs N = 1.
Proof.
  assert (HP : exists P, procs demo_read !! 1%nat = Some P) by runs_demo. destruct HP as [P HP].
  destruct (refs_done_outcomes demo_read 1 P true 4096 77 demo_read_reachable (proj1 done_allowed) HP) as (s' & E & _).
  exists s'. revert E. vm_compute. intros [= <-]. eexists. repeat split.
Defined.

Lemma set_ctx_mgr_outcomes_witness :
  binder_ioctl_set_ctx_mgr 2 0 1000 (Some 12%nat) None demo_mgr = Some (- EBUSY, demo_mgr).
Proof.
  destruct demo_mgr_client as (P & HP & _).
  destruct (set_ctx_mgr_outcomes demo_mgr 2 P 0 1000 (Some 12%nat) None demo_mgr_reachable (proj1 demo_mgr_room) HP
    ltac:(fresh_demo)) as (rv & s' & E & H).
  assert (Hm : binder_context_mgr_node demo_mgr !! proc_context P = Some 10%nat).
  { revert HP. vm_compute. intros [= <-]. reflexivity. }
  unfold ctx_mgr_outcome in H. rewrite Hm in H. destruct H as [(_ & -> & ->)|[H _]]; [exact E|discriminate H].
Defined.

(** ** Binders and handles in transactions *)

Section translation.
Context `{RB : Rbtree} {RBL : RbtreeLaws}.

(** a binder sent to another process arrives as a handle of the same
    strength, that names the sender's node of that pointer and cookie and
    holds a count on it; a failure leaves the object as it was and is -ENOMEM,
    -EINVAL (another cookie) or -EPERM. *)
Theorem translate_binder_names_node s t T P tp TP denied kz_node kz_ref fp : binder_reachable s -> room s -> ref_room s ->
  threads s !! t = Some T -> procs s !! thread_proc T = Some P -> procs s !! tp = Some TP -> desc_room TP ->
  fresh_in (nodes s) kz_node -> fresh_in (refs s) kz_ref ->
  exists rv fp' s', binder_translate_binder t tp denied kz_node kz_ref fp s = Some ((rv, fp'), s') /\
    (rv = 0 /\ denied = false /\ (exists n N d, nodes s' !! n = Some N /\ node_proc N = Some (thread_proc T) /\
       node_ptr N = obj_binder fp /\ node_cookie N = obj_cookie fp /\ is_u32 d /\
       handle_to s' tp d n (bool_decide (hdr fp = BINDER_TYPE_BINDER)) /\
       fp' = as_handle (if decide (hdr fp = BINDER_TYPE_BINDER) then BINDER_TYPE_HANDLE else BINDER_TYPE_WEAK_HANDLE) d fp) \/
     fp' = fp /\ (rv = - ENOMEM /\ (kz_node = None \/ kz_ref = None) \/ rv = - EINVAL \/ rv = - EPERM /\ denied = true)).
Proof.
  intros I%graph_reachable_inv Hroom Hrr HT HP HTP Hd Hfn Hfr.
  destruct (translate_binder_inv t T P tp TP denied kz_node kz_ref fp s I HT HP HTP Hroom Hrr Hd Hfn Hfr)
    as (rv & fp' & s' & E & _ & H). by exists rv, fp', s'.
Qed.

(** C33: a handle sent on names the same node on arrival: at the node's owner
    it becomes the binder the owner exported, elsewhere a counted handle of
    the receiver; a handle that names nothing is refused. *)
Theorem translate_handle_names_node s t T P tp TP denied kz_ref fp : binder_reachable s -> room s -> ref_room s ->
  threads s !! t = Some T -> procs s !! thread_proc T = Some P -> procs s !! tp = Some TP -> desc_room TP ->
  fresh_in (refs s) kz_ref ->
  exists rv fp' s', binder_translate_handle t tp denied kz_ref fp s = Some ((rv, fp'), s') /\
    ((exists n, names s (thread_proc T) (obj_handle fp) n (bool_decide (hdr fp = BINDER_TYPE_HANDLE)) /\ rv = 0 /\
        denied = false /\ handle_translated tp n fp fp' s') \/
     fp' = fp /\ (rv = - EPERM /\ denied = true \/ rv = - ENOMEM /\ kz_ref = None \/
       rv = - EINVAL /\ (hdr fp = BINDER_TYPE_HANDLE -> forall n, ~ names s (thread_proc T) (obj_handle fp) n true))).
Proof.
  intros I%graph_reachable_inv Hroom Hrr HT HP HTP Hd Hfr.
  destruct (translate_handle_inv t T P tp TP denied kz_ref fp s I HT HP HTP Hroom Hrr Hd Hfr) as (rv & fp' & s' & E & _ & H).
  exists rv, fp', s'. split; [done|]. destruct H as [H|(-> & [H|[H|[-> H]]])]; [by left|right; split; [done|]..]; [by left|by right; left|].
  right; right. split; [done|]. intros Ht. apply H. by apply bool_decide_eq_true.
Qed.
End translation.

Lemma translate_binder_names_node_witness : exists s',
  binder_translate_binder 1 2 false (Some 11%nat) (Some 21%nat) demo_object demo_acquired =
    Some ((0, Object BINDER_TYPE_HANDLE (Fbo 1 0 0)), s') /\ queue (thread_todo 1) s' = [WNode 11].
Proof.
  assert (HT : threads demo_acquired !! 1%nat = Some (demo_thread 1)) by (vm_compute; reflexivity).
  assert (HP : exists P, procs demo_acquired !! 1%nat = Some P) by runs_demo. destruct HP as [P HP].
  assert (HTP : exists P, procs demo_acquired !! 2%nat = Some P /\ desc_room P) by (eexists; split; [vm_compute; reflexivity|vm_compute; reflexivity]).
  destruct HTP as (TP & HTP & Hd). destruct send_allowed as (Hroom & Hrr & _).
  destruct (translate_binder_names_node demo_acquired 1 _ P 2 TP false (Some 11%nat) (Some 21%nat) demo_object
    demo_acquired_reachable Hroom Hrr HT HP HTP Hd ltac:(fresh_demo) ltac:(fresh_demo)) as (rv & fp' & s' & E & _).
  exists s'. revert E. vm_compute. intros [= <- <- <-]. split; reflexivity.
Defined.

(** The client sends handle 1 back to the server: it arrives as the binder. *)
Lemma translate_handle_names_node_witness : exists s',
  binder_translate_handle 2 1 false None (Object BINDER_TYPE_HANDLE (Fbo 1 0 0)) demo_asked = Some ((0, demo_object), s').
Proof.
  assert (HT : threads demo_asked !! 2%nat = Some (demo_thread 2)) by (vm_compute; reflexivity).
  assert (HP : exists P, procs demo_asked !! 2%nat = Some P) by runs_demo. destruct HP as [P HP].
  assert (HTP : exists P, procs demo_asked !! 1%nat = Some P /\ desc_room P) by (eexists; split; [vm_compute; reflexivity|vm_compute; reflexivity]).
  destruct HTP as (TP & HTP & Hd). assert (Hr : room demo_asked /\ ref_room demo_asked) by (apply roomb_ok; vm_compute; reflexivity).
  change 2%nat with (thread_proc (demo_thread 2)) in HP.
  destruct (translate_handle_names_node demo_asked 2 (demo_thread 2) P 1 TP false None (Object BINDER_TYPE_HANDLE (Fbo 1 0 0))
    demo_asked_reachable (proj1 Hr) (proj2 Hr) HT HP HTP Hd ltac:(intros ? [=])) as (rv & fp' & s' & E & _).
  exists s'. rewrite E. revert E. vm_compute. intros [= <- <- <-]. reflexivity.
Defined.

(** ** Death notifications and the end of a process *)

Section deaths.
Context `{RB : Rbtree} {RBL : RbtreeLaws}.

(** BC_CLEAR_DEATH_NOTIFICATION: only the notification the handle asked
    for, named by its cookie, is cleared; it leaves the reference, and its
    acknowledgement is queued at once or, when the death is already being
    told, after that. *)
Theorem clear_death_outcomes s p P t T target cookie : binder_reachable s -> procs s !! p = Some P -> threads s !! t = Some T ->
  exists s', bc_clear_death p t target cookie s = Some (tt, s') /\ nodes s' = nodes s /\
    (s' = s \/ exists r R d D, refs s !! r = Some R /\ ref_proc R = p /\ desc (ref_data R) = target /\
       ref_death R = Some d /\ deaths s !! d = Some D /\ death_cookie D = cookie /\
       refs s' = <[r := set_ref_death None R]> (refs s) /\
       ((exists l, WDeath d ∈ queue l s /\ WDeath d ∈ queue l s') /\
          deaths s' = <[d := Death cookie (Some BINDER_WORK_DEAD_BINDER_AND_CLEAR)]> (deaths s) \/
        (forall l, WDeath d ∉ queue l s) /\ (WDeath d ∈ queue (thread_todo t) s' \/ WDeath d ∈ queue (proc_todo p) s') /\
          deaths s' = <[d := Death cookie (Some BINDER_WORK_CLEAR_DEATH_NOTIFICATION)]> (deaths s))).
Proof.
  intros I%graph_reachable_inv HP HT. destruct (clear_death_inv p P t T target cookie s I HP HT) as (s' & E & _ & H). by exists s'.
Qed.

(** C34: when a process ends, each of its nodes is freed or left without an
    owner, no node of another process changes, every reference to one of its
    nodes that asked for a notification has it queued for its process, and
    the number of those references is what is reported. *)
Theorem release_tells_everyone s p P fuel : binder_reachable s -> room s -> procs s !! p = Some P ->
  (length (rb_inorder (proc_nodes P)) < fuel)%nat ->
  exists s1 s', release_context_mgr p s = Some (tt, s1) /\
    release_nodes fuel p 0 s1 = Some (sum_over (incoming s) (rb_inorder (proc_nodes P)), s') /\
    (forall n N, nodes s' !! n = Some N -> node_proc N <> Some p) /\
    (forall n N, nodes s !! n = Some N -> node_proc N <> Some p -> nodes s' !! n = Some N) /\
    (forall n N r, nodes s !! n = Some N -> node_proc N = Some p -> r ∈ node_refs N -> notified_ref s' r) /\
    refs s' = refs s.
Proof.
  intros I%graph_reachable_inv Hroom HP Hf. destruct (release_mgr_inv p P s I HP) as (s1 & E1 & I1 & Hm & Hn & Hr & Hp & _).
  destruct (release_nodes_inv p fuel P 0 s1) as (s' & E & _ & Hnf & H1 & H2 & H3); try done.
  { by rewrite Hp. }
  { intros n N HN _. rewrite Hn in HN. by apply (Hroom n N). }
  exists s1, s'. rewrite Hn in *. split; [done|]. split; [|split; [done|split; [done|split; [done|]]]].
  - rewrite E. unfold incoming. by rewrite Hn.
  - by rewrite (nf_refs _ _ Hnf).
Qed.

(** C35: the whole release of a process leaves no node and no reference of
    it, keeps every other process's references, and reports the numbers of
    incoming and outgoing references. *)
Theorem release_objects_leave_nothing s p P fuel : binder_reachable s -> room s -> procs s !! p = Some P ->
  (length (rb_inorder (proc_nodes P)) < fuel)%nat -> (length (rb_inorder (refs_by_desc P)) < fuel)%nat ->
  exists s', release_objects fuel p s = Some ((sum_over (incoming s) (rb_inorder (proc_nodes P)),
      Z.of_nat (length (rb_inorder (refs_by_desc P)))), s') /\
    (forall n N, nodes s' !! n = Some N -> node_proc N <> Some p) /\
    (forall r R, refs s' !! r = Some R <-> refs s !! r = Some R /\ ref_proc R <> p).
Proof.
  intros I%graph_reachable_inv Hroom HP Hf1 Hf2.
  destruct (release_objects_inv p P fuel s I HP ltac:(intros n N HN _; apply (Hroom n N HN)) Hf1 Hf2) as (s' & E & _ & H).
  by exists s'.
Qed.
End deaths.

Lemma clear_death_outcomes_witness : exists s', bc_clear_death 2 2 1 555 demo_asked = Some (tt, s') /\
  deaths s' !! 30%nat = Some (Death 555 (Some BINDER_WORK_CLEAR_DEATH_NOTIFICATION)) /\
  queue (thread_todo 2) s' = [WDeath 30].
Proof.
  assert (HT : threads demo_asked !! 2%nat = Some (demo_thread 2)) by (vm_compute; reflexivity).
  assert (HP : exists P, procs demo_asked !! 2%nat = Some P) by runs_demo. destruct HP as [P HP].
  destruct (clear_death_outcomes demo_asked 2 P 2 _ 1 555 demo_asked_reachable HP HT) as (s' & E & _).
  exists s'. split; [exact E|]. revert E. vm_compute. intros [= <-]. split; reflexivity.
Defined.

Lemma demo_asked_room : room demo_asked /\ ref_room demo_asked.
Proof. apply roomb_ok. vm_compute. reflexivity. Qed.
Lemma demo_asked_proc p : p = 1%nat \/ p = 2%nat -> exists P, procs demo_asked !! p = Some P /\
  (length (rb_inorder (proc_nodes P)) < 3)%nat /\ (length (rb_inorder (refs_by_desc P)) < 3)%nat.
Proof. intros [->| ->]; eexists; (split; [vm_compute; reflexivity|]); split; vm_compute; lia. Qed.

(** The server dies: the client is told. *)
Lemma release_tells_everyone_witness : exists s1 s', release_context_mgr 1 demo_asked = Some (tt, s1) /\
  release_nodes 3 1 0 s1 = Some (2, s') /\ queue (proc_todo 2) s' = [WDeath 30].
Proof.
  destruct (demo_asked_proc 1 (or_introl eq_refl)) as (P & HP & Hf & _).
  destruct (release_tells_everyone demo_asked 1 P 3 demo_asked_reachable (proj1 demo_asked_room) HP Hf)
    as (s1 & s' & E1 & E & _). vm_compute in E1. injection E1 as <-.
  vm_compute in HP. injection HP as <-. vm_compute in E. injection E as <-. eexists _, _.
  split; [vm_compute; reflexivity|split; vm_compute; reflexivity].
Defined.

(** The client dies: nothing of it is left. *)
Lemma release_objects_leave_nothing_witness : exists s', release_objects 3 2 demo_asked = Some ((0, 2), s') /\ refs s' !! 21%nat = None.
Proof.
  destruct (demo_asked_proc 2 (or_intror eq_refl)) as (P & HP & Hf1 & Hf2).
  destruct (release_objects_leave_nothing demo_asked 2 P 3 demo_asked_reachable (proj1 demo_asked_room) HP Hf1 Hf2)
    as (s' & E & _). exists s'. revert E. vm_compute. intros [= _ _ <-]. split; reflexivity.
Defined.
