(* ===== verification/BinderObjects.v ===== *)
(** * The objects in a transaction's buffer

    [src/binder/binder.c], from the copy of the sender's data into the buffer
    to the last object translated, and the release of a buffer's objects.
    An object lies in the buffer as bytes, and the driver reads it into a
    [struct binder_object], a union: here too an object is its 40 bytes, and
    the members are read and written at their offsets (little endian).  The
    code runs on the allocator of the receiving process, on the object graph,
    and on the list of files in flight. *)

From Stdlib Require Import ZArith Lia.
From stdpp Require Import base option gmap sets list.
From S2P Require Import Prelude RbTree BinderAlloc BinderNode BinderTranslate.

(** ** Members of an object *)

(** An unsigned integer of [n] bytes at the head of [l]. *)
Fixpoint le_read (n : nat) (l : list Z) : Z :=
  match n with
  | O => 0
  | S n => hd 0 l mod 256 + 256 * le_read n (tl l)
  end.
Fixpoint le_write (n : nat) (x : Z) : list Z :=
  match n with
  | O => []
  | S n => x mod 256 :: le_write n (x / 256)
  end.

Definition field (n off : nat) (o : list Z) : Z := le_read n (drop off o).
Definition set_field (n off : nat) (x : Z) (o : list Z) : list Z :=
  take off o ++ le_write n x ++ drop (off + n) o.

Definition B_PACK_CHARS (c1 c2 c3 c4 : Z) : Z :=
  Z.lor (Z.lor (Z.shiftl c1 24) (Z.shiftl c2 16)) (Z.lor (Z.shiftl c3 8) c4).
Definition B_TYPE_LARGE : Z := 133.

(** The characters are 's', 'w', 'f', 'p', 'b', 'h', 'd', 't', 'a' and '*'. *)
Definition TYPE_BINDER : Z := B_PACK_CHARS 115 98 42 B_TYPE_LARGE.
Definition TYPE_WEAK_BINDER : Z := B_PACK_CHARS 119 98 42 B_TYPE_LARGE.
Definition TYPE_HANDLE : Z := B_PACK_CHARS 115 104 42 B_TYPE_LARGE.
Definition TYPE_WEAK_HANDLE : Z := B_PACK_CHARS 119 104 42 B_TYPE_LARGE.
Definition TYPE_FD : Z := B_PACK_CHARS 102 100 42 B_TYPE_LARGE.
Definition TYPE_FDA : Z := B_PACK_CHARS 102 100 97 B_TYPE_LARGE.
Definition TYPE_PTR : Z := B_PACK_CHARS 112 116 42 B_TYPE_LARGE.

Inductive object_type := FlatObject (t : hdr_type) | FdObject | PtrObject | FdArrayObject.

#[export] Instance object_type_eq_dec : EqDecision object_type.
Proof. solve_decision. Defined.

(** The switch on [hdr->type]; [None] is its default. *)
Definition type_of (code : Z) : option object_type :=
  if code =? TYPE_BINDER then Some (FlatObject BINDER_TYPE_BINDER)
  else if code =? TYPE_WEAK_BINDER then Some (FlatObject BINDER_TYPE_WEAK_BINDER)
  else if code =? TYPE_HANDLE then Some (FlatObject BINDER_TYPE_HANDLE)
  else if code =? TYPE_WEAK_HANDLE then Some (FlatObject BINDER_TYPE_WEAK_HANDLE)
  else if code =? TYPE_FD then Some FdObject
  else if code =? TYPE_PTR then Some PtrObject
  else if code =? TYPE_FDA then Some FdArrayObject
  else None.

Definition hdr_code (t : hdr_type) : Z :=
  match t with
  | BINDER_TYPE_BINDER => TYPE_BINDER
  | BINDER_TYPE_WEAK_BINDER => TYPE_WEAK_BINDER
  | BINDER_TYPE_HANDLE => TYPE_HANDLE
  | BINDER_TYPE_WEAK_HANDLE => TYPE_WEAK_HANDLE
  end.

(** [sizeof] of each member of the union, and of the union. *)
Definition object_sizeof (t : object_type) : Z :=
  match t with FlatObject _ => 24 | FdObject => 24 | PtrObject => 40 | FdArrayObject => 32 end.
Definition SIZEOF_OBJECT : Z := 40.
Definition SIZEOF_HDR : Z := 4.

Definition obj_type (o : list Z) : Z := field 4 0 o.

(** [struct flat_binder_object]; [handle] is the low half of [binder]. *)
Definition get_flat (t : hdr_type) (o : list Z) : binder_object :=
  Object t (Fbo (field 8 8 o) (field 8 16 o) (field 4 4 o)).
Definition put_flat (f : binder_object) (o : list Z) : list Z :=
  set_field 8 16 (fbo_cookie (flat f)) (set_field 8 8 (fbo_binder (flat f)) (set_field 4 0 (hdr_code (BinderTranslate.hdr f)) o)).

(** [struct binder_fd_object] *)
Definition fdo_fd (o : list Z) : Z := field 4 8 o.
Definition OFFSETOF_FD : Z := 8.

(** [struct binder_buffer_object] *)
Definition BINDER_BUFFER_FLAG_HAS_PARENT : Z := 1.
Definition bbo_flags (o : list Z) : Z := field 4 4 o.
Definition bbo_buffer (o : list Z) : Z := field 8 8 o.
Definition bbo_length (o : list Z) : Z := field 8 16 o.
Definition bbo_parent (o : list Z) : Z := field 8 24 o.
Definition bbo_parent_offset (o : list Z) : Z := field 8 32 o.
Definition has_parent (o : list Z) : bool := negb (Z.land (bbo_flags o) BINDER_BUFFER_FLAG_HAS_PARENT =? 0).

(** [struct binder_fd_array_object] *)
Definition fda_num_fds (o : list Z) : Z := field 8 8 o.
Definition fda_parent (o : list Z) : Z := field 8 16 o.
Definition fda_parent_offset (o : list Z) : Z := field 8 24 o.

(** ** Reading objects out of a buffer *)

(** [object] is the caller's uninitialised union. *)
Definition binder_get_object (id : nat) (offset : Z) (object : list Z) : M binder_alloc (Z * list Z) :=
  let! b := buf_at id in
  let read_size := Z.min SIZEOF_OBJECT (u64 (data_size b - offset)) in
  if (data_size b <? offset) || (read_size <? SIZEOF_HDR) then ret (0, object)
  else
    let! r := binder_alloc_copy_from_buffer object id offset read_size in
    if negb (fst r =? 0) then ret (0, snd r)
    else
      match type_of (obj_type (snd r)) with
      | None => ret (0, snd r)
      | Some t =>
        let object_size := object_sizeof t in
        if (offset <=? u64 (data_size b - object_size)) && (object_size <=? data_size b)
        then ret (object_size, snd r) else ret (0, snd r)
      end.

(** A [binder_size_t] on the stack, before it is read into. *)
Definition uninit_size : list Z := replicate 8 0.

(** The object and its offset, if it is a valid buffer object. *)
Definition binder_validate_ptr (id : nat) (object : list Z) (index start_offset num_valid : Z)
    : M binder_alloc (option (list Z * Z)) :=
  if num_valid <=? index then ret None
  else
    let buffer_offset := u64 (start_offset + 8 * index) in
    let! r := binder_alloc_copy_from_buffer uninit_size id buffer_offset 8 in
    if negb (fst r =? 0) then ret None
    else
      let object_offset := le_read 8 (snd r) in
      let! o := binder_get_object id object_offset object in
      if (fst o =? 0) || negb (obj_type (snd o) =? TYPE_PTR) then ret None
      else ret (Some (snd o, object_offset)).

Fixpoint validate_fixup_loop (fuel id : nat) (last_object : list Z) (objects_start_offset buffer_obj_offset
    fixup_offset last_obj_offset last_min_offset : Z) : M binder_alloc bool :=
  match fuel with
  | O => oops
  | S fuel =>
    if last_obj_offset =? buffer_obj_offset then ret (last_min_offset <=? fixup_offset)
    else
      let! o := binder_get_object id last_obj_offset last_object in
      if negb (fst o =? object_sizeof PtrObject) then ret false
      else if negb (has_parent (snd o)) then ret false
      else
        let last_min_offset := u64 (bbo_parent_offset (snd o) + 8) in
        let buffer_offset := u64 (objects_start_offset + 8 * bbo_parent (snd o)) in
        let! r := binder_alloc_copy_from_buffer uninit_size id buffer_offset 8 in
        if negb (fst r =? 0) then ret false
        else validate_fixup_loop fuel id last_object objects_start_offset buffer_obj_offset fixup_offset
               (le_read 8 (snd r)) last_min_offset
  end.

Definition binder_validate_fixup (fuel id : nat) (last_object : list Z) (objects_start_offset buffer_obj_offset
    fixup_offset last_obj_offset last_min_offset : Z) : M binder_alloc bool :=
  if last_obj_offset =? 0 then ret false
  else validate_fixup_loop fuel id last_object objects_start_offset buffer_obj_offset fixup_offset
         last_obj_offset last_min_offset.

(** [bp] is the object whose address goes into its parent. [fuel]: one more
    than [num_valid]. *)
Definition binder_fixup_parent (id : nat) (object bp : list Z)
    (off_start_offset num_valid last_fixup_obj_off last_fixup_min_off : Z) : M binder_alloc Z :=
  if negb (has_parent bp) then ret 0
  else
    let! parent := binder_validate_ptr id object (bbo_parent bp) off_start_offset num_valid in
    match parent with
    | None => ret (- EINVAL)
    | Some (parent, parent_offset) =>
      let! ok := binder_validate_fixup (S (Z.to_nat num_valid)) id object off_start_offset parent_offset
                   (bbo_parent_offset bp) last_fixup_obj_off last_fixup_min_off in
      if negb ok then ret (- EINVAL)
      else if (bbo_length parent <? 8) || (u64 (bbo_length parent - 8) <? bbo_parent_offset bp) then ret (- EINVAL)
      else
        let! b := buf_at id in
        let buffer_offset := u64 (bbo_parent_offset bp + bbo_buffer parent - user_data b) in
        let! r := binder_alloc_copy_to_buffer id buffer_offset (le_write 8 (bbo_buffer bp)) 8 in
        if negb (r =? 0) then ret (- EINVAL) else ret 0
    end.

(** ** The transaction being built *)

(** A [struct binder_txn_fd_fixup]; the file is [None] once installed. *)
Record binder_txn_fd_fixup := Fixup { fixup_file : option nat; fixup_offset : Z }.

(** The receiving process's allocator, the object graph, the transaction's
    fixups, the file references the driver holds, the descriptors it has
    installed, and those it has closed, with the files whose release is
    scheduled. *)
Record txn := Txn {
  t_alloc : binder_alloc;
  t_graph : binder;
  fd_fixups : list binder_txn_fd_fixup;
  held_files : list nat;
  installed_fds : list (Z * nat);
  closing_fds : list (Z * nat)
}.

Definition set_alloc x s := Txn x (t_graph s) (fd_fixups s) (held_files s) (installed_fds s) (closing_fds s).
Definition set_graph x s := Txn (t_alloc s) x (fd_fixups s) (held_files s) (installed_fds s) (closing_fds s).
Definition set_fixups x s := Txn (t_alloc s) (t_graph s) x (held_files s) (installed_fds s) (closing_fds s).
Definition set_held x s := Txn (t_alloc s) (t_graph s) (fd_fixups s) x (installed_fds s) (closing_fds s).
Definition set_installed x s := Txn (t_alloc s) (t_graph s) (fd_fixups s) (held_files s) x (closing_fds s).
Definition set_closing x s := Txn (t_alloc s) (t_graph s) (fd_fixups s) (held_files s) (installed_fds s) x.

Definition on_alloc {A} (m : M binder_alloc A) : M txn A := fun s =>
  match m (t_alloc s) with Some (a, al) => Some (a, set_alloc al s) | None => None end.
Definition on_graph {A} (m : M binder A) : M txn A := fun s =>
  match m (t_graph s) with Some (a, g) => Some (a, set_graph g s) | None => None end.

(** What is outside the driver: the sending thread and the receiving process;
    the security module's answers; the allocations; the sender's open files
    and memory ([not_copied a n] of the [n] bytes at [a] cannot be read); the
    flags of the transaction replied to; what is on the kernel stack. *)
Record txn_env := TxnEnv {
  env_thread : nat;
  env_target : nat;
  env_denied : bool;
  kzalloc_node : binder -> option nat;
  kzalloc_ref : binder -> option nat;
  fget : Z -> option nat;
  transfer_file : nat -> Z;
  kzalloc_fixup : list binder_txn_fd_fixup -> bool;
  kzalloc_close : Z -> bool;
  file_close_fd : list (Z * nat) -> Z -> option nat;
  get_unused_fd : nat -> Z;
  user_byte : Z -> Z;
  not_copied : Z -> Z -> Z;
  in_reply_to : option Z;
  stack_object : list Z
}.

Definition TF_ACCEPT_FDS : Z := 16.

Definition user_mem (env : txn_env) (a n : Z) : list Z :=
  (fun i => user_byte env (a + Z.of_nat i)) <$> seq 0 (Z.to_nat n).

(** [copy_from_user] into the buffer; the bytes that did not arrive. *)
Definition copy_in (env : txn_env) (id : nat) (offset src bytes : Z) : M txn Z :=
  on_alloc (binder_alloc_copy_user_to_buffer id offset (user_mem env src bytes)
    (fun at_ n => not_copied env (src + at_) n) bytes).

Fixpoint remove_file (f : nat) (l : list nat) : option (list nat) :=
  match l with
  | [] => None
  | g :: l => if decide (g = f) then Some l else cons g <$> remove_file f l
  end.
(** Dropping a reference the driver does not hold is an error. *)
Definition fput (f : nat) : M txn unit :=
  let! s := get in let! l := deref (remove_file f (held_files s)) in modify (set_held l).

(** ** File descriptors *)

Definition target_allows_fd (env : txn_env) (id : nat) : M txn bool :=
  match in_reply_to env with
  | Some flags => ret (negb (Z.land flags TF_ACCEPT_FDS =? 0))
  | None =>
    let! b := on_alloc (buf_at id) in
    let! n := deref (target_node b) in
    let! N := on_graph (node_at n) in
    ret (accept_fds N)
  end.

Definition binder_translate_fd (env : txn_env) (id : nat) (fd fd_offset : Z) : M txn Z :=
  let! allowed := target_allows_fd env id in
  if negb allowed then ret (- EPERM)
  else
    match fget env fd with
    | None => ret (- EBADF)
    | Some file =>
      modify (fun s => set_held (file :: held_files s) s) ;!
      if transfer_file env file <? 0 then fput file ;! ret (- EPERM)
      else
        let! s := get in
        if negb (kzalloc_fixup env (fd_fixups s)) then fput file ;! ret (- ENOMEM)
        else
          modify (fun s => set_fixups (fd_fixups s ++ [Fixup (Some file) fd_offset]) s) ;!
          ret (transfer_file env file)
    end.

Definition SIZE_MAX : Z := two64 - 1.

(** The descriptors [fdi], [fdi + 1], ... of the array at [fda_offset]. *)
Fixpoint translate_fds (n : nat) (env : txn_env) (id : nat) (fda_offset fdi : Z) : M txn Z :=
  match n with
  | O => ret 0
  | S n =>
    let offset := u64 (fda_offset + 4 * fdi) in
    let! r := on_alloc (binder_alloc_copy_from_buffer (replicate 4 0) id offset 4) in
    let! rv := (if fst r =? 0 then binder_translate_fd env id (le_read 4 (snd r)) offset else ret (fst r)) in
    if rv <? 0 then ret rv else translate_fds n env id fda_offset (fdi + 1)
  end.

(** Do [num_fds] descriptors at [parent_offset] fit into the parent? *)
Definition fds_fit (fda parent : list Z) : bool :=
  let fd_buf_size := u64 (4 * fda_num_fds fda) in
  negb (SIZE_MAX / 4 <=? fda_num_fds fda) &&
  negb ((bbo_length parent <? fd_buf_size) || (u64 (bbo_length parent - fd_buf_size) <? fda_parent_offset fda)).

Definition binder_translate_fd_array (env : txn_env) (id : nat) (fda parent : list Z) : M txn Z :=
  if negb (fds_fit fda parent) then ret (- EINVAL)
  else
    let! b := on_alloc (buf_at id) in
    let fda_offset := u64 (bbo_buffer parent - user_data b + fda_parent_offset fda) in
    if negb (IS_ALIGNED fda_offset 4) then ret (- EINVAL)
    else translate_fds (Z.to_nat (fda_num_fds fda)) env id fda_offset 0.

(** ** The loop over the offsets *)

Record loop_state := Loop {
  off_min : Z;
  sg_buf_offset : Z;
  last_fixup_obj_off : Z;
  last_fixup_min_off : Z
}.

(** A round goes on, or fails with a [return_error_param]. *)
Inductive round_result := Next (st : loop_state) | Fail (error : Z).

(** ** Descriptors at the receiver *)

(** [fd_install]: the reference passes to the receiver's descriptor. *)
Definition fd_install (fd : Z) (file : nat) : M txn unit :=
  fput file ;! modify (fun s => set_installed (installed_fds s ++ [(fd, file)]) s).

Definition binder_deferred_fd_close (env : txn_env) (fd : Z) : M txn unit :=
  if kzalloc_close env fd then
    let! s := get in
    match file_close_fd env (closing_fds s) fd with
    | Some file => modify (set_closing (closing_fds s ++ [(fd, file)]))
    | None => ret tt
    end
  else ret tt.

(** The descriptor stored at [offset] of the buffer is closed. *)
Definition close_stored_fd (env : txn_env) (id : nat) (offset : Z) : M txn unit :=
  let! r := on_alloc (binder_alloc_copy_from_buffer (replicate 4 0) id offset 4) in
  on_alloc (warn_on (negb (fst r =? 0))) ;!
  if fst r =? 0 then binder_deferred_fd_close env (le_read 4 (snd r)) else ret tt.

(** The first loop of [binder_apply_fd_fixups]: the error, and the fixups as
    it leaves them. *)
Fixpoint apply_loop (env : txn_env) (id : nat) (l : list binder_txn_fd_fixup) (k : nat)
    : M txn (Z * list binder_txn_fd_fixup) :=
  match l with
  | [] => ret (0, [])
  | fixup :: l' =>
    let fd := get_unused_fd env k in
    if fd <? 0 then ret (- ENOMEM, l)
    else
      let! file := deref (fixup_file fixup) in
      fd_install fd file ;!
      let fixup := Fixup None (fixup_offset fixup) in
      let! e := on_alloc (binder_alloc_copy_to_buffer id (fixup_offset fixup) (le_write 4 fd) 4) in
      if negb (e =? 0) then ret (- EINVAL, fixup :: l')
      else let! r := apply_loop env id l' (S k) in ret (fst r, fixup :: snd r)
  end.

(** Its second loop. *)
Fixpoint drop_fixups (env : txn_env) (id : nat) (error : Z) (l : list binder_txn_fd_fixup) : M txn unit :=
  match l with
  | [] => ret tt
  | fixup :: l =>
    (match fixup_file fixup with
     | Some file => fput file
     | None => if error =? 0 then ret tt else close_stored_fd env id (fixup_offset fixup)
     end) ;!
    drop_fixups env id error l
  end.

Definition binder_apply_fd_fixups (env : txn_env) (id : nat) : M txn Z :=
  let! s := get in
  let! r := apply_loop env id (fd_fixups s) 0 in
  drop_fixups env id (fst r) (snd r) ;!
  modify (set_fixups []) ;!
  ret (fst r).

Fixpoint free_fixups_loop (l : list binder_txn_fd_fixup) : M txn unit :=
  match l with
  | [] => ret tt
  | fixup :: l => (let! file := deref (fixup_file fixup) in fput file) ;! free_fixups_loop l
  end.
Definition binder_free_txn_fixups : M txn unit :=
  let! s := get in free_fixups_loop (fd_fixups s) ;! modify (set_fixups []).

Section rb.
Context `{RB : Rbtree}.

Definition put_object (id : nat) (object_offset : Z) (object : list Z) (size : Z) : M txn Z :=
  on_alloc (binder_alloc_copy_to_buffer id object_offset object size).

(** BINDER_TYPE_BINDER, BINDER_TYPE_HANDLE and their weak forms. *)
Definition translate_flat (env : txn_env) (id : nat) (t : hdr_type) (object_offset : Z) (object : list Z) : M txn (Z * bool) :=
  let fp := get_flat t object in
  let! g := gets t_graph in
  let! r := on_graph (
    match t with
    | BINDER_TYPE_BINDER | BINDER_TYPE_WEAK_BINDER =>
      binder_translate_binder (env_thread env) (env_target env) (env_denied env) (kzalloc_node env g) (kzalloc_ref env g) fp
    | BINDER_TYPE_HANDLE | BINDER_TYPE_WEAK_HANDLE =>
      binder_translate_handle (env_thread env) (env_target env) (env_denied env) (kzalloc_ref env g) fp
    end) in
  if fst r <? 0 then ret (fst r, false)
  else let! e := put_object id object_offset (put_flat (snd r) object) 24 in ret (fst r, e =? 0).

(** BINDER_TYPE_FD; [next] is the state behind this object. *)
Definition translate_fd_object (env : txn_env) (id : nat) (object_offset : Z) (object : list Z) (next : loop_state) : M txn round_result :=
  let! rv := binder_translate_fd env id (fdo_fd object) (u64 (object_offset + OFFSETOF_FD)) in
  let object := set_field 8 8 0 object in
  if rv <? 0 then ret (Fail rv)
  else
    let! e := put_object id object_offset object 24 in
    ret (if e =? 0 then Next next else Fail rv).

(** BINDER_TYPE_FDA *)
Definition translate_fda_object (env : txn_env) (id : nat) (off_start_offset num_valid : Z) (object : list Z) (next : loop_state)
    : M txn round_result :=
  let! parent := on_alloc (binder_validate_ptr id (stack_object env) (fda_parent object) off_start_offset num_valid) in
  match parent with
  | None => ret (Fail (- EINVAL))
  | Some (parent, parent_offset) =>
    let! ok := on_alloc (binder_validate_fixup (S (Z.to_nat num_valid)) id (stack_object env) off_start_offset
                 parent_offset (fda_parent_offset object) (last_fixup_obj_off next) (last_fixup_min_off next)) in
    if negb ok then ret (Fail (- EINVAL))
    else
      let! rv := binder_translate_fd_array env id object parent in
      ret (if rv <? 0 then Fail rv
           else Next (Loop (off_min next) (sg_buf_offset next) parent_offset
                  (u64 (fda_parent_offset object + 4 * fda_num_fds object))))
  end.

(** BINDER_TYPE_PTR *)
Definition translate_ptr_object (env : txn_env) (id : nat) (off_start_offset sg_buf_end_offset num_valid object_offset : Z)
    (object : list Z) (next : loop_state) : M txn round_result :=
  let buf_left := u64 (sg_buf_end_offset - sg_buf_offset next) in
  if buf_left <? bbo_length object then ret (Fail (- EINVAL))
  else
    let! e := copy_in env id (sg_buf_offset next) (bbo_buffer object) (bbo_length object) in
    if negb (e =? 0) then ret (Fail (- EFAULT))
    else
      let! b := on_alloc (buf_at id) in
      let object := set_field 8 8 (u64 (user_data b + sg_buf_offset next)) object in
      let sg := u64 (sg_buf_offset next + ALIGN (bbo_length object) 8) in
      let! rv := on_alloc (binder_fixup_parent id (stack_object env) object off_start_offset num_valid
                   (last_fixup_obj_off next) (last_fixup_min_off next)) in
      if rv <? 0 then ret (Fail rv)
      else
        let! e := put_object id object_offset object 40 in
        ret (if e =? 0 then Next (Loop (off_min next) sg object_offset 0) else Fail rv).

Definition translate_round (env : txn_env) (id : nat) (off_start_offset sg_buf_end_offset buffer_offset : Z)
    (st : loop_state) : M txn round_result :=
  let! r := on_alloc (binder_alloc_copy_from_buffer uninit_size id buffer_offset 8) in
  if negb (fst r =? 0) then ret (Fail (- EINVAL))
  else
    let object_offset := le_read 8 (snd r) in
    let! o := on_alloc (binder_get_object id object_offset (stack_object env)) in
    let '(object_size, object) := o in
    if (object_size =? 0) || (object_offset <? off_min st) then ret (Fail (- EINVAL))
    else
      let next := Loop (u64 (object_offset + object_size)) (sg_buf_offset st) (last_fixup_obj_off st) (last_fixup_min_off st) in
      let num_valid := u64 (buffer_offset - off_start_offset) / 8 in
      match type_of (obj_type object) with
      | Some (FlatObject t) =>
        let! r := translate_flat env id t object_offset object in
        ret (if snd r : bool then Next next else Fail (fst r))
      | Some FdObject => translate_fd_object env id object_offset object next
      | Some FdArrayObject => translate_fda_object env id off_start_offset num_valid object next
      | Some PtrObject => translate_ptr_object env id off_start_offset sg_buf_end_offset num_valid object_offset object next
      | None => ret (Fail (- EINVAL))
      end.

(** The offsets from [buffer_offset] on; at a failure, where it happened. *)
Fixpoint translate_loop (fuel : nat) (env : txn_env) (id : nat) (off_start_offset off_end_offset sg_buf_end_offset
    buffer_offset : Z) (st : loop_state) : M txn (option (Z * Z) * loop_state) :=
  match fuel with
  | O => oops
  | S fuel =>
    if buffer_offset <? off_end_offset then
      let! r := translate_round env id off_start_offset sg_buf_end_offset buffer_offset st in
      match r with
      | Fail e => ret (Some (e, buffer_offset), st)
      | Next st => translate_loop fuel env id off_start_offset off_end_offset sg_buf_end_offset (u64 (buffer_offset + 8)) st
      end
    else ret (None, st)
  end.

(** What [binder_transaction] reads of the sender's [tr]. *)
Record binder_transaction_data := TxnData {
  tr_handle : Z;
  tr_code : Z;
  tr_flags : Z;
  tr_data : Z;
  tr_offsets : Z;
  tr_data_size : Z;
  tr_offsets_size : Z
}.

(** From the copy of the data to the end of the loop; [secctx_size] is the
    aligned length of the security context, which [extra_buffers_size]
    includes.  The result is the error with the offset that failed. *)
Definition translate_objects (env : txn_env) (id : nat) (tr : binder_transaction_data) (extra_buffers_size secctx_size : Z)
    : M txn (option (Z * Z)) :=
  let! e := copy_in env id 0 (tr_data tr) (tr_data_size tr) in
  if negb (e =? 0) then ret (Some (- EFAULT, 0))
  else
    let! e := copy_in env id (ALIGN (tr_data_size tr) 8) (tr_offsets tr) (tr_offsets_size tr) in
    if negb (e =? 0) then ret (Some (- EFAULT, 0))
    else if negb (IS_ALIGNED (tr_offsets_size tr) 8) then ret (Some (- EINVAL, 0))
    else if negb (IS_ALIGNED extra_buffers_size 8) then ret (Some (- EINVAL, 0))
    else
      let off_start_offset := ALIGN (tr_data_size tr) 8 in
      let off_end_offset := u64 (off_start_offset + tr_offsets_size tr) in
      let sg := ALIGN off_end_offset 8 in
      let sg_buf_end_offset := u64 (sg + extra_buffers_size - secctx_size) in
      let! r := translate_loop (S (Z.to_nat (tr_offsets_size tr / 8))) env id off_start_offset off_end_offset
                  sg_buf_end_offset off_start_offset (Loop 0 sg 0 0) in
      ret (fst r).

(** ** Releasing the objects of a buffer *)

Fixpoint close_fds (n : nat) (env : txn_env) (id : nat) (fda_offset fd_index : Z) : M txn unit :=
  match n with
  | O => ret tt
  | S n => close_stored_fd env id (u64 (fda_offset + 4 * fd_index)) ;! close_fds n env id fda_offset (fd_index + 1)
  end.

(** [own]: the buffer's process is releasing it itself. *)
Definition release_round (env : txn_env) (id : nat) (own : bool) (off_start_offset buffer_offset : Z) : M txn unit :=
  let! r := on_alloc (binder_alloc_copy_from_buffer uninit_size id buffer_offset 8) in
  let! o := (if fst r =? 0 then on_alloc (binder_get_object id (le_read 8 (snd r)) (stack_object env))
             else ret (0, stack_object env)) in
  let '(object_size, object) := o in
  if object_size =? 0 then ret tt
  else
    match type_of (obj_type object) with
    | Some (FlatObject t) => on_graph (release_object (env_target env) (get_flat t object))
    | Some FdArrayObject =>
      if negb own then ret tt
      else
        let num_valid := u64 (buffer_offset - off_start_offset) / 8 in
        let! parent := on_alloc (binder_validate_ptr id (stack_object env) (fda_parent object) off_start_offset num_valid) in
        match parent with
        | None => ret tt
        | Some (parent, _) =>
          if negb (fds_fit object parent) then ret tt
          else
            let! b := on_alloc (buf_at id) in
            let fda_offset := u64 (bbo_buffer parent - user_data b + fda_parent_offset object) in
            close_fds (Z.to_nat (fda_num_fds object)) env id fda_offset 0
        end
    | _ => ret tt
    end.

Fixpoint release_loop (fuel : nat) (env : txn_env) (id : nat) (own : bool) (off_start_offset off_end_offset buffer_offset : Z)
    : M txn unit :=
  match fuel with
  | O => oops
  | S fuel =>
    if buffer_offset <? off_end_offset then
      release_round env id own off_start_offset buffer_offset ;!
      release_loop fuel env id own off_start_offset off_end_offset (u64 (buffer_offset + 8))
    else ret tt
  end.

Definition binder_transaction_buffer_release (env : txn_env) (id : nat) (own : bool) (failed_at : Z) (is_failure : bool)
    : M txn unit :=
  let! b := on_alloc (buf_at id) in
  (match target_node b with Some n => on_graph (binder_dec_node n true false) | None => ret tt end) ;!
  let off_start_offset := ALIGN (data_size b) 8 in
  let off_end_offset := if is_failure then failed_at else u64 (off_start_offset + offsets_size b) in
  release_loop (S (S (Z.to_nat (offsets_size b / 8)))) env id own off_start_offset
    off_end_offset off_start_offset.
End rb.
