(* ===== verification/BinderObjectsMem.v ===== *)
(** * The bytes of a transaction buffer

    What the copies of [BinderAllocCopy] mean for the fields of objects: a
    buffer's contents as a function of offsets, words read from it, and which
    reads a write leaves alone. *)

From Stdlib Require Import ZArith Lia.
From stdpp Require Import base option gmap sets list.
From S2P Require Import Prelude RbTree BinderAlloc BinderAllocFacts BinderAllocInv BinderAllocCopy.
From S2P Require Import BinderNode BinderTranslate BinderObjects.

(** ** Words *)

Lemma le_read_range n l : 0 <= le_read n l < 256 ^ Z.of_nat n.
Proof.
  revert l. induction n as [|n IH]; intros l; [simpl; lia|]. cbn [le_read]. specialize (IH (tl l)).
  pose proof (Z.mod_pos_bound (hd 0 l) 256). rewrite Nat2Z.inj_succ, Z.pow_succ_r by lia. lia.
Qed.

Lemma le_read_u64 l : is_u64 (le_read 8 l).
Proof. apply (le_read_range 8). Qed.
Lemma le_read_u32 l : is_u32 (le_read 4 l).
Proof. apply (le_read_range 4). Qed.

Lemma le_read_take n k l : (n <= k)%nat -> le_read n (take k l) = le_read n l.
Proof.
  revert k l. induction n as [|n IH]; intros [|k] l Hk; try done; [lia|]. cbn [le_read].
  destruct l as [|x l]; [done|]. simpl. by rewrite IH by lia.
Qed.

Lemma le_write_length n x : length (le_write n x) = n.
Proof. revert x. induction n as [|n IH]; intros x; simpl; [done|by rewrite IH]. Qed.

Lemma le_read_write n x l : le_read n (le_write n x ++ l) = x mod 256 ^ Z.of_nat n.
Proof.
  revert x. induction n as [|n IH]; intros x; [simpl; by rewrite Z.mod_1_r|]. cbn [le_write le_read app hd tl].
  rewrite IH, Nat2Z.inj_succ, Z.pow_succ_r, Z.mod_mod by lia. rewrite Z.rem_mul_r; [lia|done|]. apply Z.pow_pos_nonneg; lia.
Qed.

Lemma le_write_back x l : is_u64 x -> le_read 8 (le_write 8 x ++ l) = x.
Proof. intros Hx. rewrite le_read_write. by apply Z.mod_small. Qed.

(** ** Fields of an object *)

Lemma set_field_length n off x o : (off + n <= length o)%nat -> length (set_field n off x o) = length o.
Proof.
  intros H. unfold set_field. rewrite !length_app, le_write_length, length_take, length_drop. lia.
Qed.

Lemma field_set_same n off x o : (off + n <= length o)%nat -> field n off (set_field n off x o) = x mod 256 ^ Z.of_nat n.
Proof.
  intros H. unfold field, set_field. rewrite drop_app_ge by (rewrite length_take; lia).
  rewrite length_take. replace (off - off `min` length o)%nat with O by lia. apply le_read_write.
Qed.

Lemma le_read_prefix n l1 l2 : take n l1 = take n l2 -> le_read n l1 = le_read n l2.
Proof. intros E. rewrite <- (le_read_take n n l1), <- (le_read_take n n l2), E by lia. done. Qed.

Lemma field_set_other n off m k x o : (off + n <= length o)%nat -> (k + m <= off \/ off + n <= k)%nat ->
  field m k (set_field n off x o) = field m k o.
Proof.
  intros H Hd. unfold field. apply le_read_prefix. unfold set_field. apply list_eq. intros i.
  destruct (decide (i < m)%nat) as [Hi|Hi]; [|by rewrite !lookup_take_ge by lia].
  rewrite !lookup_take_lt, !lookup_drop by lia. destruct Hd as [Hd|Hd].
  - rewrite lookup_app_l by (rewrite length_take; lia). by apply lookup_take_lt; lia.
  - rewrite app_assoc, lookup_app_r by (rewrite length_app, length_take, le_write_length; lia).
    rewrite length_app, length_take, le_write_length, lookup_drop. f_equal. lia.
Qed.

(** ** Memory *)

(** The byte [y] of the mapping; sealed, so that comparing terms over a
    buffer never computes its pages. *)
Definition mem_aux : seal (fun (s : binder_alloc) (y : nat) => default 0 (pages s ≫= fun ps => space_byte ps y)).
Proof. by eexists. Qed.
Definition mem : binder_alloc -> nat -> Z := mem_aux.(unseal).
Lemma mem_eq s y : mem s y = default 0 (pages s ≫= fun ps => space_byte ps y).
Proof. unfold mem. by rewrite seal_eq. Qed.

(** The bytes at an offset of a buffer, and a word there. *)
Definition bytes_at (s : binder_alloc) (b : binder_buffer) (off : Z) (n : nat) : list Z :=
  (fun i => mem s (base_off s b + Z.to_nat off + i)) <$> seq 0 n.
Definition word (s : binder_alloc) (b : binder_buffer) (n : nat) (off : Z) : Z := le_read n (bytes_at s b off n).

Lemma word_u64 s b off : is_u64 (word s b 8 off).
Proof. apply le_read_u64. Qed.

Lemma bytes_at_length s b off n : length (bytes_at s b off n) = n.
Proof. unfold bytes_at. by rewrite length_fmap, length_seq. Qed.

Lemma bytes_at_lookup s b off n i : (i < n)%nat -> bytes_at s b off n !! i = Some (mem s (base_off s b + Z.to_nat off + i)).
Proof. intros Hi. unfold bytes_at. rewrite list_lookup_fmap, lookup_seq_lt by done. done. Qed.

Lemma bytes_at_sub s b off n k m : 0 <= off -> (k + m <= n)%nat ->
  take m (drop k (bytes_at s b off n)) = bytes_at s b (off + Z.of_nat k) m.
Proof.
  intros Ho Hk. apply list_eq. intros i. destruct (decide (i < m)%nat) as [Hi|Hi].
  - rewrite lookup_take_lt, lookup_drop, !bytes_at_lookup by lia. apply (f_equal (fun y => Some (mem s y))). lia.
  - rewrite !lookup_ge_None_2; [done|rewrite bytes_at_length; lia|rewrite length_take; lia].
Qed.

Lemma field_word s b off n o m k : 0 <= off -> take n o = bytes_at s b off n -> (k + m <= n)%nat ->
  field m k o = word s b m (off + Z.of_nat k).
Proof.
  intros Ho E Hk. unfold field, word. rewrite <- (bytes_at_sub s b off n k m), <- E by done.
  apply le_read_prefix. rewrite take_take, Nat.min_id. apply list_eq. intros i.
  destruct (decide (i < m)%nat); [|by rewrite !lookup_take_ge by lia].
  by rewrite !lookup_take_lt, !lookup_drop, lookup_take_lt by lia.
Qed.

(** [s'] differs from [s] only in bytes of the mapping that satisfy [W]. *)
Record touched (W : nat -> Prop) (s s' : binder_alloc) : Prop := Touched {
  tc_shape : exists ps, s' = set_pages (Some ps) (pages_high s) s;
  tc_wf : wf s -> wf s';
  tc_mem y : ~ W y -> mem s' y = mem s y
}.

(** The bytes of a buffer from [off] on. *)
Definition range (s : binder_alloc) (b : binder_buffer) (off n : Z) (y : nat) : Prop :=
  Z.of_nat (base_off s b) + off <= Z.of_nat y < Z.of_nat (base_off s b) + off + n.

Lemma touched_refl W s : is_Some (pages s) -> touched W s s.
Proof. intros [ps E]. split; try done. exists ps. by apply set_pages_self. Qed.

Lemma touched_trans W s1 s2 s3 : touched W s1 s2 -> touched W s2 s3 -> touched W s1 s3.
Proof.
  intros [[p1 E1] F1 M1] [[p2 E2] F2 M2]. split; [|auto|intros y Hy; by rewrite M2, M1].
  exists p2. by rewrite E2, E1.
Qed.

Lemma touched_weaken (W W' : nat -> Prop) s s' : (forall y, W y -> W' y) -> touched W s s' -> touched W' s s'.
Proof. intros H [E F M]. split; try done. intros y Hy. apply M. auto. Qed.

(** What a write of bytes cannot change. *)
Lemma touched_same W s s' : touched W s s' -> store s' = store s /\ buffers s' = buffers s /\ buffer s' = buffer s /\
  buffer_size s' = buffer_size s /\ is_Some (pages s').
Proof. intros [[ps ->] _ _]. repeat split. by eexists. Qed.

Lemma touched_base W s s' b : touched W s s' -> base_off s' b = base_off s b.
Proof. intros [[ps ->] _ _]. done. Qed.

Lemma touched_bsize W s s' id : touched W s s' -> bsize s' id = bsize s id.
Proof. intros [[ps ->] _ _]. done. Qed.

Lemma touched_range W s s' b off n y : touched W s s' -> range s' b off n y <-> range s b off n y.
Proof. intros T. unfold range. by rewrite (touched_base _ _ _ _ T). Qed.

Lemma bytes_frame W s s' b off n : touched W s s' -> 0 <= off ->
  (forall y, range s b off (Z.of_nat n) y -> ~ W y) -> bytes_at s' b off n = bytes_at s b off n.
Proof.
  intros T Ho Hd. apply list_eq. intros i. destruct (decide (i < n)%nat) as [Hi|Hi].
  - rewrite !bytes_at_lookup, (touched_base _ _ _ _ T) by done. f_equal. apply (tc_mem _ _ _ T), Hd. unfold range. lia.
  - by rewrite !lookup_ge_None_2 by (rewrite bytes_at_length; lia).
Qed.

Lemma word_frame W s s' b n off : touched W s s' -> 0 <= off ->
  (forall y, range s b off (Z.of_nat n) y -> ~ W y) -> word s' b n off = word s b n off.
Proof. intros T Ho Hd. unfold word. by erewrite bytes_frame. Qed.

(** ** Copies *)

(** A buffer the driver may read and write: allocated, and not handed to
    user space for freeing while a transaction uses it. *)
Record access (s : binder_alloc) (id : nat) (b : binder_buffer) : Prop := Access {
  ac_wf : wf s;
  ac_buf : store s !! id = Some b;
  ac_used : free b = false;
  ac_user : allow_user_free b = false \/ transaction b = None
}.

Lemma access_touched W s s' id b : access s id b -> touched W s s' -> access s' id b.
Proof.
  intros [Hw Hb Hf Hu] T. split; try done; [by apply (tc_wf _ _ _ T)|].
  destruct (touched_same _ _ _ T) as (-> & _). done.
Qed.

Lemma access_pages s id b : access s id b -> is_Some (pages s).
Proof. intros A. destruct (wf_pages _ (ac_wf _ _ _ A)) as (ps & Hps & _). by eexists. Qed.

(** The room in a buffer: the three rounded parts, in a space of 4 MB. *)
Record roomy (s : binder_alloc) (id : nat) (b : binder_buffer) : Prop := Roomy {
  rm_parts : up8 (data_size b) + up8 (offsets_size b) + up8 (extra_buffers_size b) <= bsize s id;
  rm_data : 0 <= data_size b;
  rm_offsets : 0 <= offsets_size b;
  rm_extra : 0 <= extra_buffers_size b;
  rm_small : bsize s id <= 4194304;
  rm_base : 0 <= user_data b /\ user_data b + bsize s id < 9223372036854775808 /\ user_data b mod 8 = 0;
  rm_space : Z.of_nat (base_off s b) = user_data b - buffer s
}.

Lemma access_roomy s id b : access s id b -> is_u64 (data_size b) -> is_u64 (offsets_size b) -> is_u64 (extra_buffers_size b) ->
  roomy s id b.
Proof.
  intros A Hd Ho He. destruct (wf_sizes _ (ac_wf _ _ _ A) id b (ac_buf _ _ _ A) (ac_used _ _ _ A)) as (size & Hs & Hb).
  pose proof (wf_tiling _ (ac_wf _ _ _ A)) as Ht.
  rewrite (request_size_ok _ _ _ Hd Ho He) in Hs. destruct (Z.ltb_spec (up8 (data_size b) + up8 (offsets_size b) + up8 (extra_buffers_size b)) two64) as [_|]; [|done].
  injection Hs as Hsum.
  assert (Hid : id ∈ buffers s) by (apply (ti_store _ Ht); eexists; apply A).
  destruct (tiling_bounds s id Ht Hid) as (B1 & B2 & B3 & B4 & _). pose proof (ti_user _ Ht). pose proof (ti_size _ Ht).
  pose proof (ti_base _ Ht). rewrite (ud_eq s id b (ac_buf _ _ _ A)) in *. unfold SZ_4M, SIZEOF_PTR, is_u64, fin, bsize in *.
  rewrite (ud_eq s id b (ac_buf _ _ _ A)) in *.
  assert (E : bsize s id = bend s id - user_data b) by (unfold bsize; by rewrite (ud_eq s id b (ac_buf _ _ _ A))).
  split; rewrite ?E; try lia. apply (base_off_Z s id b Ht (ac_buf _ _ _ A)).
Qed.

Section copies.
Context (s : binder_alloc) (id : nat) (b : binder_buffer) (A : access s id b) (Hr : roomy s id b).

Lemma inside_u64 off n : 0 <= off -> 0 <= n -> off + n <= bsize s id -> is_u64 off /\ is_u64 n.
Proof. pose proof (rm_small _ _ _ Hr). unfold is_u64, two64. lia. Qed.

Lemma inside_access off n : off + n <= bsize s id -> off mod 4 = 0 -> access_ok s id b off n.
Proof. intros Hin Ha. split; [done|]. split; [done|]. split; apply A. Qed.

Lemma copy_from_eq off n dest : 0 <= off -> 0 <= n -> off + n <= bsize s id -> off mod 4 = 0 -> n <= Z.of_nat (length dest) ->
  binder_alloc_copy_from_buffer dest id off n s =
    Some ((0, bytes_at s b off (Z.to_nat n) ++ drop (Z.to_nat n) dest), s).
Proof.
  intros H0 Hn Hin Ha Hl. destruct (inside_u64 off n H0 Hn Hin) as [U1 U2].
  destruct (copy_from_ok s id b off n dest (ac_wf _ _ _ A) (ac_buf _ _ _ A) U1 U2 (inside_access off n Hin Ha) Hl)
    as (ps & out & Hps & -> & Hlen & Hdrop & Hat). do 2 f_equal. f_equal.
  rewrite <- (take_drop (Z.to_nat n) out), Hdrop. f_equal. apply list_eq. intros i.
  destruct (decide (i < Z.to_nat n)%nat) as [Hi|Hi].
  - rewrite lookup_take_lt, bytes_at_lookup, Hat by done. rewrite !mem_eq. rewrite Hps. simpl.
    destruct (lookup_lt_is_Some_2 out i) as [x Hx]; [lia|]. rewrite Hat in Hx by done. by rewrite Hx.
  - rewrite lookup_take_ge by lia. symmetry. apply lookup_ge_None_2. rewrite bytes_at_length. lia.
Qed.

Lemma copy_from_refused off n dest : is_u64 off -> is_u64 n -> ~ (off + n <= bsize s id /\ off mod 4 = 0) ->
  binder_alloc_copy_from_buffer dest id off n s = Some ((- EINVAL, dest), s).
Proof.
  intros U1 U2 Hno. unfold binder_alloc_copy_from_buffer, binder_alloc_do_buffer_copy.
  rewrite (bind_eq _ _ s false s); [done|]. apply (check_buffer_refuse s id b); try done; [by apply wf_tiling, A|apply A|].
  intros (? & ? & _). by apply Hno.
Qed.

Lemma copy_to_refused off n src : is_u64 off -> is_u64 n -> ~ (off + n <= bsize s id /\ off mod 4 = 0) ->
  binder_alloc_copy_to_buffer id off src n s = Some (- EINVAL, s).
Proof.
  intros U1 U2 Hno. unfold binder_alloc_copy_to_buffer, binder_alloc_do_buffer_copy.
  rewrite (bind_eq _ _ s (- EINVAL, src) s); [done|]. rewrite (bind_eq _ _ s false s); [done|].
  apply (check_buffer_refuse s id b); try done; [by apply wf_tiling, A|apply A|].
  intros (? & ? & _). by apply Hno.
Qed.

Lemma written_touched ps ps' off l n : pages s = Some ps -> 0 <= off -> Z.of_nat (length l) <= n ->
  written ps ps' (base_off s b + Z.to_nat off) l -> touched (range s b off n) s (set_pages (Some ps') (pages_high s) s).
Proof.
  intros Hps Ho Hl W. split; [by eexists|intros Hw; by eapply wf_written|].
  intros y Hy. rewrite !mem_eq. simpl. rewrite Hps. simpl. rewrite (wr_out _ _ _ _ W); [done|]. unfold range in Hy. lia.
Qed.

Lemma written_bytes ps ps' off l : 0 <= off -> written ps ps' (base_off s b + Z.to_nat off) l ->
  bytes_at (set_pages (Some ps') (pages_high s) s) b off (length l) = l.
Proof.
  intros Ho W. apply list_eq. intros i. destruct (decide (i < length l)%nat) as [Hi|Hi].
  - rewrite bytes_at_lookup by done. destruct (lookup_lt_is_Some_2 l i Hi) as [x Hx]. rewrite Hx. rewrite !mem_eq. simpl.
    change (base_off (set_pages (Some ps') (pages_high s) s) b) with (base_off s b).
    by rewrite (wr_in _ _ _ _ W i x Hx).
  - by rewrite !lookup_ge_None_2 by (rewrite ?bytes_at_length; lia).
Qed.

Lemma copy_to_eq off n src : 0 <= off -> 0 <= n -> off + n <= bsize s id -> off mod 4 = 0 -> n <= Z.of_nat (length src) ->
  exists s', binder_alloc_copy_to_buffer id off src n s = Some (0, s') /\ touched (range s b off n) s s' /\
    bytes_at s' b off (Z.to_nat n) = take (Z.to_nat n) src.
Proof.
  intros H0 Hn Hin Ha Hl. destruct (inside_u64 off n H0 Hn Hin) as [U1 U2].
  destruct (copy_to_ok s id b off n src (ac_wf _ _ _ A) (ac_buf _ _ _ A) U1 U2 (inside_access off n Hin Ha) Hl)
    as (ps & ps' & Hps & E & W). eexists. split; [exact E|].
  assert (Hlen : length (take (Z.to_nat n) src) = Z.to_nat n) by (rewrite length_take; lia).
  split; [apply (written_touched ps ps' off _ n Hps H0) in W; [done|lia]|].
  pose proof (written_bytes ps ps' off _ H0 W) as Hb. by rewrite Hlen in Hb.
Qed.

Lemma copy_user_eq off n from left_ : 0 <= off -> 0 <= n -> off + n <= bsize s id -> off mod 4 = 0 ->
  n = Z.of_nat (length from) -> (forall a m, 0 <= m -> 0 <= left_ a m <= m) ->
  exists r s', binder_alloc_copy_user_to_buffer id off from left_ n s = Some (r, s') /\ 0 <= r <= n /\
    touched (range s b off n) s s' /\ (r = 0 -> bytes_at s' b off (Z.to_nat n) = from).
Proof.
  intros H0 Hn Hin Ha Hl Hleft. destruct (inside_u64 off n H0 Hn Hin) as [U1 U2].
  destruct (copy_user_ok s id b off n from left_ (ac_wf _ _ _ A) (ac_buf _ _ _ A) U1 U2 (inside_access off n Hin Ha)
    ltac:(lia) Hleft) as (ps & ps' & m & pad & Hps & E & Hm & W & _).
  eexists _, _. split; [exact E|]. split; [lia|].
  assert (Hlen : Z.of_nat (length (take m from ++ replicate pad 0)) <= n).
  { rewrite length_app, length_take, length_replicate. lia. }
  split; [by apply (written_touched ps ps' off (take m from ++ replicate pad 0))|].
  intros Hz. replace pad with O in W by lia. rewrite app_nil_r, take_ge in W by lia.
  pose proof (written_bytes ps ps' off _ H0 W) as Hb. replace (Z.to_nat n) with (length from) by lia. done.
Qed.

Lemma copy_user_refused off n from left_ : is_u64 off -> is_u64 n -> ~ (off + n <= bsize s id /\ off mod 4 = 0) ->
  binder_alloc_copy_user_to_buffer id off from left_ n s = Some (n, s).
Proof.
  intros U1 U2 Hno. unfold binder_alloc_copy_user_to_buffer.
  rewrite (bind_eq _ _ s false s); [done|]. apply (check_buffer_refuse s id b); try done; [by apply wf_tiling, A|apply A|].
  intros (? & ? & _). by apply Hno.
Qed.
End copies.
