(* ===== verification/BinderObjectsFacts.v ===== *)
(** * Objects in a buffer: what the readers accept

    [binder_get_object] and [binder_validate_ptr] in terms of the buffer's
    bytes. *)

From Stdlib Require Import ZArith Lia.
From stdpp Require Import base option gmap sets list.
From S2P Require Import Prelude RbTree BinderAlloc BinderAllocFacts BinderAllocInv BinderAllocCopy.
From S2P Require Import BinderNode BinderTranslate BinderObjects BinderObjectsMem.

(** The object at an offset: aligned, of a known type, and whole. *)
Definition valid_object (s : binder_alloc) (b : binder_buffer) (off : Z) : option object_type :=
  if bool_decide (off mod 4 = 0) && (off + SIZEOF_HDR <=? data_size b) then
    match type_of (word s b 4 off) with
    | Some t => if off + object_sizeof t <=? data_size b then Some t else None
    | None => None
    end
  else None.

Lemma object_sizeof_range t : 24 <= object_sizeof t <= SIZEOF_OBJECT.
Proof. by destruct t. Qed.

Lemma valid_object_inside s b off t : valid_object s b off = Some t ->
  off mod 4 = 0 /\ type_of (word s b 4 off) = Some t /\ off + object_sizeof t <= data_size b.
Proof.
  unfold valid_object. case_bool_decide as Ha; [|done]. destruct (off + SIZEOF_HDR <=? data_size b); [|done].
  destruct (type_of (word s b 4 off)) as [t'|]; [|done]. cbn [andb].
  destruct (Z.leb_spec (off + object_sizeof t') (data_size b)); [|done]. by intros [= ->].
Qed.

Lemma type_of_ptr code : (code =? TYPE_PTR) = bool_decide (type_of code = Some PtrObject).
Proof.
  unfold type_of. destruct (Z.eqb_spec code TYPE_PTR) as [->|Hn]; [by vm_compute|].
  symmetry. apply bool_decide_eq_false. repeat case_match; done.
Qed.

Lemma type_of_hdr t : type_of (hdr_code t) = Some (FlatObject t).
Proof. by destruct t; vm_compute. Qed.

Section facts.
Context (s : binder_alloc) (id : nat) (b : binder_buffer) (A : access s id b) (Hr : roomy s id b).

Lemma data_inside : data_size b <= bsize s id.
Proof.
  destruct Hr. pose proof (up8_spec (data_size b)). pose proof (up8_spec (offsets_size b)). pose proof (up8_spec (extra_buffers_size b)). lia.
Qed.

Lemma buf_eq : buf_at id s = Some (b, s).
Proof. apply buf_at_eq, A. Qed.

(** What is read of the object at [off]. *)
Definition read_object (off : Z) (r : Z) (o : list Z) : Prop :=
  length o = 40%nat /\
  match valid_object s b off with
  | Some t => r = object_sizeof t /\ take (Z.to_nat r) o = bytes_at s b off (Z.to_nat r)
  | None => r = 0
  end.

Lemma get_object_eq off object : is_u64 off -> length object = 40%nat ->
  exists r o, binder_get_object id off object s = Some ((r, o), s) /\ read_object off r o.
Proof.
  intros Ho Hl. unfold binder_get_object. erewrite bind_eq by apply buf_eq. cbv beta.
  pose proof data_inside as Hd. pose proof (rm_small _ _ _ Hr). pose proof (rm_data _ _ _ Hr). unfold is_u64 in Ho.
  unfold read_object, valid_object, SIZEOF_OBJECT, SIZEOF_HDR.
  destruct (Z.ltb_spec (data_size b) off) as [Hlt|Hge].
  { exists 0, object. split; [done|]. split; [done|].
    destruct (Z.leb_spec (off + 4) (data_size b)); [lia|]. by rewrite andb_false_r. }
  rewrite u64_small by (unfold is_u64, two64 in *; lia). cbn [orb].
  destruct (Z.ltb_spec (Z.min 40 (data_size b - off)) 4) as [Hs|Hs].
  { exists 0, object. split; [done|]. split; [done|].
    destruct (Z.leb_spec (off + 4) (data_size b)); [lia|]. by rewrite andb_false_r. }
  set (n := Z.min 40 (data_size b - off)) in *. rewrite (proj2 (Z.leb_le (off + 4) _)), andb_true_r by lia.
  case_bool_decide as Ha.
  2: { erewrite bind_eq by (apply (copy_from_refused s id b); [done|done|unfold is_u64, two64 in *; lia..|tauto]).
       by exists 0, object. }
  erewrite bind_eq by (apply (copy_from_eq s id b); [done|done|lia|lia|lia|done|lia]). cbn [fst snd negb Z.eqb].
  set (o := bytes_at s b off (Z.to_nat n) ++ drop (Z.to_nat n) object).
  assert (Hlo : length o = 40%nat) by (unfold o; rewrite length_app, bytes_at_length, length_drop; lia).
  assert (Hto : forall k, (k <= Z.to_nat n)%nat -> take k o = bytes_at s b off k).
  { intros k Hk. unfold o. rewrite take_app_le by (rewrite bytes_at_length; lia).
    rewrite <- (drop_0 (bytes_at s b off (Z.to_nat n))), bytes_at_sub by lia. by rewrite Z.add_0_r. }
  assert (Et : obj_type o = word s b 4 off).
  { unfold obj_type, field, word. rewrite drop_0. apply le_read_prefix. rewrite Hto by lia.
    by rewrite take_ge by (rewrite bytes_at_length; lia). }
  rewrite Et. destruct (type_of (word s b 4 off)) as [t|]; [|by exists 0, o].
  pose proof (object_sizeof_range t) as [T1 T2]. unfold SIZEOF_OBJECT in T2.
  destruct (Z.leb_spec (off + object_sizeof t) (data_size b)) as [Hf|Hf].
  - rewrite u64_small, (proj2 (Z.leb_le off _)), (proj2 (Z.leb_le (object_sizeof t) _)) by (unfold is_u64, two64 in *; lia).
    exists (object_sizeof t), o. split; [done|]. split; [done|]. split; [done|]. apply Hto. lia.
  - exists 0, o. split; [|by split]. cbv zeta.
    destruct (Z.leb_spec (object_sizeof t) (data_size b)) as [Hb|Hb]; [|by rewrite andb_false_r].
    by rewrite u64_small, (proj2 (Z.leb_gt off _)) by (unfold is_u64, two64 in *; lia).
Qed.

(** The members of an object that was read. *)
Lemma read_field off t r o m k : 0 <= off -> read_object off r o -> valid_object s b off = Some t ->
  Z.of_nat (k + m) <= object_sizeof t -> field m k o = word s b m (off + Z.of_nat k).
Proof.
  intros Ho [_ Hv] Ht Hk. rewrite Ht in Hv. destruct Hv as [-> Hb]. eapply field_word; [done|exact Hb|lia].
Qed.

Lemma read_type off t r o : 0 <= off -> read_object off r o -> valid_object s b off = Some t -> type_of (obj_type o) = Some t.
Proof.
  intros Ho Hro Ht. unfold obj_type. rewrite (read_field off t r o 4 0) by (done || pose proof (object_sizeof_range t); lia).
  rewrite Z.add_0_r. by apply valid_object_inside in Ht as (_ & ? & _).
Qed.

(** The words of the offsets array. *)
Lemma read_offset_eq off : 0 <= off -> off + 8 <= bsize s id -> off mod 4 = 0 ->
  binder_alloc_copy_from_buffer uninit_size id off 8 s = Some ((0, bytes_at s b off 8), s).
Proof.
  intros Ho Hin Ha. rewrite (copy_from_eq s id b A Hr off 8 uninit_size) by (done || lia). by rewrite app_nil_r.
Qed.

(** [binder_validate_ptr] accepts exactly an index below [num_valid] whose
    offset names a buffer object. *)
Lemma validate_ptr_eq object index start n : length object = 40%nat -> is_u64 index -> 0 <= start -> start mod 8 = 0 ->
  start + 8 * n <= bsize s id ->
  let off := word s b 8 (start + 8 * index) in
  exists r, binder_validate_ptr id object index start n s = Some (r, s) /\
    match r with
    | Some (o, off') => index < n /\ off' = off /\ valid_object s b off = Some PtrObject /\ read_object off 40 o
    | None => n <= index \/ valid_object s b off <> Some PtrObject
    end.
Proof.
  intros Hl Hi Hs Hs8 Hin off. unfold binder_validate_ptr. destruct (Z.leb_spec n index) as [Hle|Hlt].
  { exists None. split; [done|by left]. }
  pose proof (rm_small _ _ _ Hr). unfold is_u64 in Hi.
  rewrite u64_small by (unfold is_u64, two64 in *; lia).
  assert (Ha : (start + 8 * index) mod 4 = 0).
  { apply Z.mod_divide in Hs8 as [k ->]; [|done]. replace (k * 8 + 8 * index) with ((2 * (k + index)) * 4) by lia. by apply Z.mod_mul. }
  erewrite bind_eq by (apply read_offset_eq; lia). cbn [fst snd negb Z.eqb]. fold (word s b 8 (start + 8 * index)). fold off.
  destruct (get_object_eq off object (le_read_u64 _) Hl) as (r & o & E & Hro). erewrite bind_eq by exact E. cbn [fst snd].
  destruct (valid_object s b off) as [t|] eqn:Ht.
  - assert (Hty : type_of (obj_type o) = Some t) by (apply (read_type off t r o); try done; apply (le_read_u64 _)).
    destruct Hro as [Hlo Hro0]. pose proof Hro0 as Hro. rewrite Ht in Hro. destruct Hro as [-> Hb].
    pose proof (object_sizeof_range t). destruct (Z.eqb_spec (object_sizeof t) 0); [lia|]. cbn [orb].
    rewrite type_of_ptr, Hty. case_bool_decide as Hp; cbn [negb].
    + injection Hp as ->. exists (Some (o, off)). split; [done|]. split; [done|]. split; [done|]. split; [done|].
      by split.
    + exists None. split; [done|]. right. congruence.
  - destruct Hro as [_ Hro]. rewrite Ht in Hro. subst r. exists None. split; [done|by right].
Qed.
End facts.
