(* ===== verification/BinderObjectsPath.v ===== *)
(** * Where pointers may be written: the discipline of fix-ups

    A buffer object may lie inside another (its parent), which then holds its
    address; a descriptor array lies inside a buffer object too.  The driver
    allows such a fix-up only in the last buffer object it has placed or in
    one of its ancestors, and only behind the last fix-up there.  This file
    says why that is enough: no fix-up ever lands on an earlier one. *)

From Stdlib Require Import ZArith Lia.
From stdpp Require Import base option list.
From S2P Require Import Prelude.

(** An object as far as fix-ups go: a binder or handle, a descriptor, a buffer object with the offset and the
    length of its copy, and its parent with the offset there; an array of
    descriptors with its parent, offset and number. *)
Inductive obj :=
  | OFlat
  | OFd
  | OPtr (sgo len : Z) (parent : option (nat * Z))
  | OFda (parent : nat) (poff num : Z).

(** What an object writes into its parent: from where to where. *)
Definition slot_of (o : obj) : option (nat * Z * Z) :=
  match o with
  | OFlat | OFd => None
  | OPtr _ _ None => None
  | OPtr _ _ (Some (p, po)) => Some (p, po, po + 8)
  | OFda p po num => Some (p, po, po + 4 * num)
  end.

(** The buffer object [j] may be fixed up from [M] on, and its ancestors from
    behind the child that leads to [j]. *)
Inductive on_path (objs : list obj) : nat -> Z -> Prop :=
| OnPath j M sgo len par : objs !! j = Some (OPtr sgo len par) ->
    (forall i o st e, objs !! i = Some o -> slot_of o = Some (j, st, e) -> e <= M) ->
    (forall p po, par = Some (p, po) -> on_path objs p (po + 8)) ->
    on_path objs j M.

(** The walk of [binder_validate_fixup] from a buffer object to an ancestor. *)
Inductive chain (objs : list obj) : nat -> Z -> nat -> Z -> Prop :=
| ChainHere j M : chain objs j M j M
| ChainUp j M sgo len p po a M' : objs !! j = Some (OPtr sgo len (Some (p, po))) ->
    chain objs p (po + 8) a M' -> chain objs j M a M'.

Lemma chain_path objs j M a M' : chain objs j M a M' -> on_path objs j M -> on_path objs a M'.
Proof.
  induction 1 as [|j M sgo len p po a M' Hj Hc IH]; [done|]. intros Hp. apply IH.
  inversion Hp as [j' M1 sgo' len' par Hj' Hs Hpar]; subst. rewrite Hj in Hj'. injection Hj' as <- <- <-. by apply (Hpar p po).
Qed.

(** The objects placed so far, with their copies between [sg0] and [sg]. *)
Record sound_objs (sg0 sg : Z) (objs : list obj) : Prop := SoundObjs {
  so_parent i o p st e : objs !! i = Some o -> slot_of o = Some (p, st, e) -> (p < i)%nat /\
    exists sgo len par, objs !! p = Some (OPtr sgo len par) /\ 0 <= st /\ st <= e /\ e <= len;
  so_space i sgo len par : objs !! i = Some (OPtr sgo len par) ->
    sg0 <= sgo /\ 0 <= len /\ sgo + len <= sg /\ sgo mod 8 = 0;
  so_apart i j sgo len par sgo' len' par' : (i < j)%nat -> objs !! i = Some (OPtr sgo len par) ->
    objs !! j = Some (OPtr sgo' len' par') -> sgo + len <= sgo';
  so_slots i j o o' p st e st' e' : (i < j)%nat -> objs !! i = Some o -> objs !! j = Some o' ->
    slot_of o = Some (p, st, e) -> slot_of o' = Some (p, st', e') -> e <= st'
}.

Lemma lookup_snoc_inv {A} (l : list A) x i y : (l ++ [x]) !! i = Some y ->
  l !! i = Some y \/ i = length l /\ y = x.
Proof.
  intros H. destruct (decide (i < length l)%nat) as [Hi|Hi].
  - left. by rewrite lookup_app_l in H.
  - right. rewrite lookup_app_r in H by lia. destruct (i - length l)%nat eqn:E; [|done].
    simpl in H. injection H as <-. split; [lia|done].
Qed.

Lemma lookup_snoc_old {A} (l : list A) x i y : l !! i = Some y -> (l ++ [x]) !! i = Some y.
Proof. intros H. by apply lookup_app_l_Some. Qed.

Lemma on_path_lt objs j M : on_path objs j M -> (j < length objs)%nat.
Proof. intros H. destruct H as [j M sgo len par Hj _ _]. by eapply lookup_lt_Some. Qed.

Section step.
Context (sg0 sg : Z) (objs : list obj) (S : sound_objs sg0 sg objs).

(** A new object whose slot is in a later object than [j] leaves the path of
    [j] as it is. *)
Lemma on_path_snoc o j M : on_path objs j M -> (forall p st e, slot_of o = Some (p, st, e) -> (j < p)%nat) ->
  on_path (objs ++ [o]) j M.
Proof.
  intros Hp. induction Hp as [j M sgo len par Hj Hs Hpar IH]. intros Ho.
  apply (OnPath _ j M sgo len par); [by apply lookup_snoc_old| |].
  - intros i o' st e Hi Hsl. apply lookup_snoc_inv in Hi as [Hi|[-> ->]]; [by eapply Hs|].
    pose proof (Ho _ _ _ Hsl). lia.
  - intros p po E. apply (IH p po E). intros p' st e Hsl. specialize (Ho _ _ _ Hsl).
    subst par. destruct (so_parent _ _ _ S j _ p po (po + 8) Hj eq_refl) as [Hlt _]. lia.
Qed.

Lemma on_path_plain o j M : on_path objs j M -> slot_of o = None -> on_path (objs ++ [o]) j M.
Proof. intros Hp E. apply on_path_snoc; [done|]. by rewrite E. Qed.

(** The object the new slot is in: the slot becomes its last. *)
Lemma on_path_slot o a M st e : on_path objs a M -> slot_of o = Some (a, st, e) -> M <= st -> st <= e ->
  on_path (objs ++ [o]) a e.
Proof.
  intros Hp Ho HM He. destruct Hp as [a M sgo len par Ha Hs Hpar].
  apply (OnPath _ a e sgo len par); [by apply lookup_snoc_old| |].
  - intros i o' st' e' Hi Hsl. apply lookup_snoc_inv in Hi as [Hi|[-> ->]].
    + pose proof (Hs i o' st' e' Hi Hsl). lia.
    + rewrite Ho in Hsl. injection Hsl as <- <-. lia.
  - intros p po E. apply on_path_snoc; [by apply Hpar|]. intros p' st' e' Hsl. rewrite Ho in Hsl. injection Hsl as <- <- <-.
    subst par. by destruct (so_parent _ _ _ S a _ p po (po + 8) Ha eq_refl) as [Hlt _].
Qed.

(** A new buffer object becomes the last. *)
Lemma on_path_new sgo len par : (forall p po, par = Some (p, po) -> exists M, on_path objs p M /\ M <= po) ->
  on_path (objs ++ [OPtr sgo len par]) (length objs) 0.
Proof.
  intros Hpar. apply (OnPath _ _ _ sgo len par).
  - by rewrite lookup_app_r, Nat.sub_diag by lia.
  - intros i o st e Hi Hsl. exfalso. apply lookup_snoc_inv in Hi as [Hi|[-> ->]].
    + destruct (so_parent _ _ _ S i o _ st e Hi Hsl) as [Hlt _]. apply lookup_lt_Some in Hi. lia.
    + destruct par as [[p po]|]; [|done]. injection Hsl as -> _ _.
      destruct (Hpar _ _ eq_refl) as (M & Hp & _). apply on_path_lt in Hp. lia.
  - intros p po E. destruct (Hpar p po E) as (M & Hp & HM).
    apply (on_path_slot _ p M po); [done|by subst par|done|lia].
Qed.

(** Placing one more object. *)
Lemma sound_snoc o sg' : sg <= sg' ->
  (forall p st e, slot_of o = Some (p, st, e) -> exists M sgo len par, on_path objs p M /\ M <= st /\
     objs !! p = Some (OPtr sgo len par) /\ 0 <= st /\ st <= e /\ e <= len) ->
  (forall sgo len par, o = OPtr sgo len par -> sg0 <= sgo /\ sg <= sgo /\ 0 <= len /\ sgo + len <= sg' /\ sgo mod 8 = 0) ->
  sound_objs sg0 sg' (objs ++ [o]).
Proof.
  intros Hsg Hslot Hptr. split.
  - intros i o' p st e Hi Hsl. apply lookup_snoc_inv in Hi as [Hi|[-> ->]].
    + destruct (so_parent _ _ _ S i o' p st e Hi Hsl) as (Hlt & sgo & len & par & Hp & H). split; [done|].
      exists sgo, len, par. split; [by apply lookup_snoc_old|done].
    + destruct (Hslot p st e Hsl) as (M & sgo & len & par & Hp & _ & Ho & H). split; [by eapply lookup_lt_Some|].
      exists sgo, len, par. split; [by apply lookup_snoc_old|done].
  - intros i sgo len par Hi. apply lookup_snoc_inv in Hi as [Hi|[-> E]].
    + pose proof (so_space _ _ _ S i sgo len par Hi). lia.
    + destruct (Hptr sgo len par (eq_sym E)) as (? & ? & ? & ? & ?). lia.
  - intros i j sgo len par sgo' len' par' Hij Hi Hj.
    apply lookup_snoc_inv in Hj as [Hj|[-> E]]; apply lookup_snoc_inv in Hi as [Hi|[-> Ei]].
    + by eapply (so_apart _ _ _ S i j).
    + apply lookup_lt_Some in Hj. lia.
    + pose proof (so_space _ _ _ S i sgo len par Hi). destruct (Hptr _ _ _ (eq_sym E)) as (? & ? & _). lia.
    + lia.
  - intros i j o1 o2 p st e st' e' Hij Hi Hj Hs1 Hs2.
    apply lookup_snoc_inv in Hj as [Hj|[-> ->]]; apply lookup_snoc_inv in Hi as [Hi|[-> ->]].
    + by eapply (so_slots _ _ _ S i j).
    + apply lookup_lt_Some in Hj. lia.
    + destruct (Hslot p st' e' Hs2) as (M & sgo & len & par & Hp & HM & _).
      destruct Hp as [j M sgo1 len1 par1 _ Hs _]. pose proof (Hs i o1 st e Hi Hs1). lia.
    + lia.
Qed.
End step.
