(* ===== verification/BinderObjectsLoop.v ===== *)
(** * The objects placed so far

    What the loop of [binder_transaction] over the offsets has established
    after some rounds: each offset names a whole object behind the previous
    ones; the copy of each buffer object lies in its own part of the buffer;
    and each parent holds the address of its child.  Writes behind and beside
    all this keep it. *)

From Stdlib Require Import ZArith Lia.
From stdpp Require Import base option gmap sets list.
From S2P Require Import Prelude RbTree BinderAlloc BinderAllocFacts BinderAllocInv BinderAllocCopy.
From S2P Require Import BinderNode BinderTranslate BinderObjects BinderObjectsMem BinderObjectsFacts BinderObjectsPath.

Definition obj_size (x : obj) : Z :=
  match x with OFlat => 24 | OFd => 24 | OPtr _ _ _ => 40 | OFda _ _ _ => 32 end.

(** The bytes at [o] are this object. *)
Definition described (s : binder_alloc) (b : binder_buffer) (o : Z) (x : obj) : Prop :=
  match x with
  | OFlat => exists t, valid_object s b o = Some (FlatObject t)
  | OFd => valid_object s b o = Some FdObject
  | OPtr sgo len par =>
    valid_object s b o = Some PtrObject /\ word s b 8 (o + 8) = user_data b + sgo /\ word s b 8 (o + 16) = len /\
    match par with
    | None => Z.land (word s b 4 (o + 4)) BINDER_BUFFER_FLAG_HAS_PARENT = 0
    | Some (p, po) => Z.land (word s b 4 (o + 4)) BINDER_BUFFER_FLAG_HAS_PARENT <> 0 /\
        word s b 8 (o + 24) = Z.of_nat p /\ word s b 8 (o + 32) = po
    end
  | OFda p po num =>
    valid_object s b o = Some FdArrayObject /\ word s b 8 (o + 8) = num /\ word s b 8 (o + 16) = Z.of_nat p /\
    word s b 8 (o + 24) = po /\ po mod 4 = 0
  end.

Lemma described_inside s b o x : described s b o x -> o + obj_size x <= data_size b /\ o mod 4 = 0.
Proof.
  assert (H : forall t, valid_object s b o = Some t -> o + object_sizeof t <= data_size b /\ o mod 4 = 0).
  { intros t Ht. by destruct (valid_object_inside _ _ _ _ Ht) as (? & _ & ?). }
  destruct x; [intros [t Ht]|intros Ht|intros [Ht _]|intros [Ht _]]; by apply H in Ht.
Qed.

Lemma valid_object_frame W s s' b o : touched W s s' -> 0 <= o -> (forall y, range s b o 4 y -> ~ W y) ->
  valid_object s' b o = valid_object s b o.
Proof. intros T Ho Hd. unfold valid_object. by erewrite word_frame. Qed.

Lemma described_frame W s s' b o x : touched W s s' -> 0 <= o -> (forall y, range s b o (obj_size x) y -> ~ W y) ->
  described s b o x -> described s' b o x.
Proof.
  intros T Ho Hd. assert (Hsub : forall k n, 0 <= k -> k + n <= obj_size x -> forall y, range s b (o + k) n y -> ~ W y).
  { intros k n Hk Hn y Hy. apply Hd. unfold range in *. lia. }
  assert (Hv : valid_object s' b o = valid_object s b o).
  { apply (valid_object_frame W); [done|done|]. intros y Hy. apply Hd. unfold range in *. destruct x; simpl; lia. }
  assert (Hw : forall m k, 0 <= k -> k + Z.of_nat m <= obj_size x -> word s' b m (o + k) = word s b m (o + k)).
  { intros m k Hk Hm. apply (word_frame W); [done|lia|by apply Hsub]. }
  unfold described. rewrite Hv. destruct x; simpl in Hw; rewrite ?Hw by lia; try done.
Qed.

(** ** The offsets array *)

Section loop.
Context (id : nat) (b : binder_buffer) (N : nat).

(** [off_start_offset] and the start of the copies of buffer objects. *)
Definition off_start : Z := up8 (data_size b).
Definition sg_start : Z := off_start + 8 * Z.of_nat N.

(** The offset of object [i]. *)
Definition off_at (s : binder_alloc) (i : nat) : Z := word s b 8 (off_start + 8 * Z.of_nat i).

Lemma off_at_u64 s i : is_u64 (off_at s i).
Proof. apply (le_read_u64 _). Qed.

Record placed (s : binder_alloc) (st : loop_state) (objs : list obj) : Prop := Placed {
  pl_desc i x : objs !! i = Some x -> described s b (off_at s i) x;
  pl_order i j x : (i < j)%nat -> (j < length objs)%nat -> objs !! i = Some x -> off_at s i + obj_size x <= off_at s j;
  pl_min i x : objs !! i = Some x -> off_at s i + obj_size x <= off_min st;
  pl_data : 0 <= off_min st <= data_size b;
  pl_count : (length objs <= N)%nat;
  pl_sound : sound_objs sg_start (sg_buf_offset st) objs;
  pl_child i sgo len p po sgp lenp parp : objs !! i = Some (OPtr sgo len (Some (p, po))) ->
    objs !! p = Some (OPtr sgp lenp parp) -> word s b 8 (sgp + po) = user_data b + sgo;
  pl_last : last_fixup_obj_off st = 0 \/
    exists j, off_at s j = last_fixup_obj_off st /\ on_path objs j (last_fixup_min_off st)
}.

(** The addresses that parents hold. *)
Definition child_slot (objs : list obj) (off : Z) : Prop :=
  exists i sgo len p po sgp lenp parp, objs !! i = Some (OPtr sgo len (Some (p, po))) /\
    objs !! p = Some (OPtr sgp lenp parp) /\ off = sgp + po.

Lemma child_slot_range s st objs off : placed s st objs -> child_slot objs off ->
  sg_start <= off /\ off + 8 <= sg_buf_offset st.
Proof.
  intros P (i & sgo & len & p & po & sgp & lenp & parp & Hi & Hp & ->).
  destruct (so_parent _ _ _ (pl_sound _ _ _ P) i _ p po (po + 8) Hi eq_refl) as (_ & sgo' & len' & par' & Hp' & H).
  rewrite Hp in Hp'. injection Hp' as <- <- <-. pose proof (so_space _ _ _ (pl_sound _ _ _ P) p _ _ _ Hp). lia.
Qed.

Context (Hd : 0 <= data_size b).

Lemma off_start_data : data_size b <= off_start.
Proof. apply up8_spec. Qed.

Lemma off_at_frame W s s' i : touched W s s' -> (i < N)%nat ->
  (forall y, range s b off_start (8 * Z.of_nat N) y -> ~ W y) -> off_at s' i = off_at s i.
Proof.
  intros T Hi Ho. pose proof off_start_data. apply (word_frame W); [done|lia|]. intros y Hy. apply Ho. unfold range in *. lia.
Qed.

(** A write that spares the objects placed, the offsets and the addresses. *)
Lemma placed_frame W s s' st objs : placed s st objs -> touched W s s' ->
  (forall y, range s b 0 (off_min st) y -> ~ W y) ->
  (forall y, range s b off_start (8 * Z.of_nat N) y -> ~ W y) ->
  (forall off y, child_slot objs off -> range s b off 8 y -> ~ W y) ->
  placed s' st objs.
Proof.
  intros P T Hdata Hoffs Hslots. pose proof off_start_data as Hos.
  assert (Hoff : forall i, (i < length objs)%nat -> off_at s' i = off_at s i).
  { intros i Hi. pose proof (pl_count _ _ _ P). apply (off_at_frame W); [done|lia|done]. }
  apply Placed.
  - intros i x Hi. pose proof (lookup_lt_Some _ _ _ Hi). rewrite Hoff by done. pose proof (off_at_u64 s i) as Hu.
    apply (described_frame W s); [done|unfold is_u64 in Hu; lia| |by apply (pl_desc _ _ _ P)].
    intros y Hy. apply Hdata. pose proof (pl_min _ _ _ P i x Hi). unfold range, is_u64 in *. lia.
  - intros i j x Hij Hj Hi. rewrite !Hoff by lia. by apply (pl_order _ _ _ P).
  - intros i x Hi. pose proof (lookup_lt_Some _ _ _ Hi). rewrite Hoff by done. by apply (pl_min _ _ _ P).
  - apply P.
  - apply P.
  - apply P.
  - intros i sgo len p po sgp lenp parp Hi Hp. rewrite <- (pl_child _ _ _ P i sgo len p po sgp lenp parp Hi Hp).
    assert (Hc : child_slot objs (sgp + po)) by (by exists i, sgo, len, p, po, sgp, lenp, parp).
    pose proof (child_slot_range _ _ _ _ P Hc). unfold sg_start in *.
    apply (word_frame W); [done|lia|]. intros y. by apply Hslots.
  - destruct (pl_last _ _ _ P) as [H|(j & Hj & Hp)]; [by left|right]. exists j. split; [|done].
    rewrite Hoff; [done|]. by apply on_path_lt in Hp.
Qed.

(** One more object, once its bytes are in place. *)
Lemma placed_snoc s st st' objs x : placed s st objs -> (length objs < N)%nat ->
  described s b (off_at s (length objs)) x -> off_min st <= off_at s (length objs) ->
  off_min st' = off_at s (length objs) + obj_size x ->
  sound_objs sg_start (sg_buf_offset st') (objs ++ [x]) ->
  (forall sgo len p po sgp lenp parp, x = OPtr sgo len (Some (p, po)) -> objs !! p = Some (OPtr sgp lenp parp) ->
     word s b 8 (sgp + po) = user_data b + sgo) ->
  (last_fixup_obj_off st' = 0 \/
    exists j, off_at s j = last_fixup_obj_off st' /\ on_path (objs ++ [x]) j (last_fixup_min_off st')) ->
  placed s st' (objs ++ [x]).
Proof.
  intros P Hn Hx Hmin Hst Hs Hchild Hlast. destruct (described_inside _ _ _ _ Hx) as [Hin _].
  assert (0 < obj_size x) by by destruct x. pose proof (off_at_u64 s (length objs)) as Hu. unfold is_u64 in Hu.
  apply Placed.
  - intros i y Hi. apply lookup_snoc_inv in Hi as [Hi|[-> ->]]; [exact (pl_desc _ _ _ P i y Hi)|exact Hx].
  - intros i j y Hij Hj Hi. rewrite length_app in Hj. simpl in Hj. apply lookup_snoc_inv in Hi as [Hi|[-> ->]]; [|lia].
    destruct (decide (j < length objs)%nat) as [Hl|Hl]; [by apply (pl_order _ _ _ P)|].
    replace j with (length objs) by lia. pose proof (pl_min _ _ _ P i y Hi). lia.
  - intros i y Hi. apply lookup_snoc_inv in Hi as [Hi|[-> ->]]; [|lia]. pose proof (pl_min _ _ _ P i y Hi). lia.
  - lia.
  - rewrite length_app. simpl. lia.
  - exact Hs.
  - intros i sgo len p po sgp lenp parp Hi Hp.
    assert (Hlt : (p < i)%nat) by by destruct (so_parent _ _ _ Hs i _ p po (po + 8) Hi eq_refl) as [? _].
    apply lookup_snoc_inv in Hp as [Hp|[-> _]].
    + apply lookup_snoc_inv in Hi as [Hi|[-> E]]; [by eapply (pl_child _ _ _ P)|by eapply Hchild].
    + apply lookup_snoc_inv in Hi as [Hi|[-> _]]; [apply lookup_lt_Some in Hi|]; lia.
  - exact Hlast.
Qed.
End loop.
