(* ===== verification/BinderObjectsFixup.v ===== *)
(** * Where a fix-up is accepted

    [binder_validate_fixup] walks from the last buffer object placed up
    through its parents; on objects that the loop has placed this is the
    relation [chain], and the walk ends. *)

From Stdlib Require Import ZArith Lia.
From stdpp Require Import base option gmap sets list.
From S2P Require Import Prelude RbTree BinderAlloc BinderAllocFacts BinderAllocInv BinderAllocCopy.
From S2P Require Import BinderNode BinderTranslate BinderObjects BinderObjectsMem BinderObjectsFacts BinderObjectsPath.
From S2P Require Import BinderObjectsLoop.

Lemma align8_4 x y : x mod 8 = 0 -> (x + 8 * y) mod 4 = 0.
Proof. intros H. apply Z.mod_divide in H as [k ->]; [|done]. replace (k * 8 + 8 * y) with ((2 * (k + y)) * 4) by lia. by apply Z.mod_mul. Qed.

Section fixup.
Context (s : binder_alloc) (id : nat) (b : binder_buffer) (N : nat) (A : access s id b) (Hr : roomy s id b).
Context (HN : offsets_size b = 8 * Z.of_nat N).
Context (st : loop_state) (objs : list obj) (P : placed b N s st objs).

Lemma off_start_align : off_start b mod 8 = 0.
Proof. apply up8_spec. Qed.

Lemma offsets_fit : 0 <= off_start b /\ off_start b + 8 * Z.of_nat N <= sg_start b N /\ sg_start b N + up8 (extra_buffers_size b) <= bsize s id.
Proof.
  destruct Hr. pose proof (up8_spec (data_size b)). pose proof (up8_spec (offsets_size b)).
  unfold sg_start, off_start in *. lia.
Qed.

Lemma offset_inside i : (i < N)%nat -> 0 <= off_start b + 8 * Z.of_nat i /\ off_start b + 8 * Z.of_nat i + 8 <= bsize s id /\
  (off_start b + 8 * Z.of_nat i) mod 4 = 0.
Proof.
  intros Hi. destruct offsets_fit as (? & ? & ?). pose proof (up8_spec (extra_buffers_size b)). pose proof (rm_extra _ _ _ Hr).
  split_and!; [lia|lia|apply align8_4, off_start_align].
Qed.

(** Reading the offset of object [i]. *)
Lemma read_off_at i : (i < N)%nat ->
  exists l, binder_alloc_copy_from_buffer uninit_size id (u64 (off_start b + 8 * Z.of_nat i)) 8 s = Some ((0, l), s) /\
    le_read 8 l = off_at b s i.
Proof.
  intros Hi. destruct (offset_inside i Hi) as (H1 & H2 & H3). pose proof (rm_small _ _ _ Hr).
  rewrite u64_small by (unfold is_u64, two64 in *; lia). eexists. split; [by apply (read_offset_eq s id b A Hr)|]. done.
Qed.

(** A placed buffer object, read back. *)
Lemma read_placed_ptr j sgo len par object : length object = 40%nat -> objs !! j = Some (OPtr sgo len par) ->
  exists o, binder_get_object id (off_at b s j) object s = Some ((40, o), s) /\
    match par with
    | None => has_parent o = false
    | Some (p, po) => has_parent o = true /\ bbo_parent o = Z.of_nat p /\ bbo_parent_offset o = po
    end.
Proof.
  intros Hl Hj. destruct (pl_desc _ _ _ _ _ P j _ Hj) as (Hv & _ & _ & Hpar).
  destruct (get_object_eq s id b A Hr (off_at b s j) object (le_read_u64 _) Hl) as (r & o & E & Hro).
  pose proof Hro as [_ Hro']. rewrite Hv in Hro'. destruct Hro' as [-> _]. exists o. split; [exact E|].
  pose proof (off_at_u64 b s j) as [Ho _].
  assert (Hf : forall m k, Z.of_nat (k + m) <= 40 -> field m k o = word s b m (off_at b s j + Z.of_nat k)).
  { intros m k Hk. by apply (read_field s b _ PtrObject 40). }
  unfold has_parent, bbo_flags, bbo_parent, bbo_parent_offset. rewrite !Hf by lia. simpl Z.of_nat.
  destruct par as [[p po]|].
  - destruct Hpar as (Hfl & Hp & Hpo). split; [|by split].
    apply negb_true_iff, Z.eqb_neq, Hfl.
  - apply negb_false_iff, Z.eqb_eq, Hpar.
Qed.

Lemma off_at_inj i j : (i < length objs)%nat -> (j < length objs)%nat -> off_at b s i = off_at b s j -> i = j.
Proof.
  assert (H : forall i j, (i < j)%nat -> (j < length objs)%nat -> off_at b s i < off_at b s j).
  { intros i' j' Hij Hj. destruct (lookup_lt_is_Some_2 objs i') as [x Hx]; [lia|].
    pose proof (pl_order _ _ _ _ _ P i' j' x Hij Hj Hx). assert (0 < obj_size x) by by destruct x. lia. }
  intros Hi Hj E. destruct (lt_eq_lt_dec i j) as [[Hlt|]|Hlt]; [|done|].
  - pose proof (H i j Hlt Hj). lia.
  - pose proof (H j i Hlt Hi). lia.
Qed.

Lemma chain_down j M a M' : chain objs j M a M' -> (a <= j)%nat.
Proof.
  induction 1 as [|j M sgo len p po a M' Hj _ IH]; [done|].
  destruct (so_parent _ _ _ (pl_sound _ _ _ _ _ P) j _ p po (po + 8) Hj eq_refl) as [? _]. lia.
Qed.

Lemma chain_self j M M' : chain objs j M j M' -> M' = M.
Proof.
  inversion 1 as [|? ? sgo len p po ? ? Hj Hc]; subst; [done|]. apply chain_down in Hc.
  destruct (so_parent _ _ _ (pl_sound _ _ _ _ _ P) j _ p po (po + 8) Hj eq_refl) as [? _]. lia.
Qed.

(** The walk accepts exactly an ancestor, behind the slots used there. *)
Lemma validate_loop_eq object target fo : length object = 40%nat ->
  forall fuel j M, (j < fuel)%nat -> on_path objs j M ->
  exists r, validate_fixup_loop fuel id object (off_start b) target fo (off_at b s j) M s = Some (r, s) /\
    (r = true <-> exists a M', chain objs j M a M' /\ off_at b s a = target /\ M' <= fo).
Proof.
  intros Hl fuel. induction fuel as [|fuel IH]; intros j M Hj Hp; [lia|]. cbn [validate_fixup_loop].
  pose proof (on_path_lt _ _ _ Hp) as Hjl.
  destruct (Z.eqb_spec (off_at b s j) target) as [He|Hne].
  { exists (M <=? fo). split; [done|]. rewrite Z.leb_le. split.
    - intros HM. exists j, M. split; [constructor|done].
    - intros (a & M' & Hc & Ha & HM). pose proof (chain_down _ _ _ _ Hc).
      assert (a = j) as -> by (apply off_at_inj; [lia|done|congruence]). by apply chain_self in Hc as ->. }
  inversion Hp as [j' M0 sgo len par Hobj _ Hpar]; subst.
  destruct (read_placed_ptr j sgo len par object Hl Hobj) as (o & E & Ho). erewrite bind_eq by exact E. cbn [fst snd].
  change (negb (40 =? object_sizeof PtrObject)) with false. cbv iota.
  destruct par as [[p po]|].
  2:{ rewrite Ho. exists false. split; [done|]. split; [done|]. intros (a & M' & Hc & Ha & _).
      inversion Hc as [|? ? sgo1 len1 p1 po1 ? ? Hobj1 Hc1]; subst; [exfalso; exact (Hne eq_refl)|].
      rewrite Hobj in Hobj1. discriminate Hobj1. }
  destruct Ho as (-> & -> & ->). cbn [negb].
  destruct (so_parent _ _ _ (pl_sound _ _ _ _ _ P) j _ p po (po + 8) Hobj eq_refl) as (Hpj & sgo' & len' & par' & Hp' & Hb).
  pose proof (pl_count _ _ _ _ _ P) as HNl. destruct (read_off_at p) as (l & El & Hw); [lia|].
  erewrite bind_eq by exact El. cbn [fst snd]. rewrite Hw.
  assert (Hpo : u64 (po + 8) = po + 8).
  { apply u64_small. destruct (pl_desc _ _ _ _ _ P p _ Hp') as (_ & _ & Hlen & _).
    pose proof (word_u64 s b (off_at b s p + 16)) as Hu. rewrite Hlen in Hu. clear -Hu Hb. unfold is_u64 in *. lia. }
  rewrite Hpo. destruct (IH p (po + 8)) as (r & Er & Hrr); [lia|by apply Hpar|].
  exists r. split; [exact Er|]. rewrite Hrr. split; intros (a & M' & Hc & Ha & HM); exists a, M'.
  - split; [exact (ChainUp _ j M sgo len p po a M' Hobj Hc)|exact (conj Ha HM)].
  - split; [|exact (conj Ha HM)]. inversion Hc as [|? ? sgo1 len1 p1 po1 ? ? Hobj1 Hc1]; subst; [exfalso; exact (Hne eq_refl)|].
    rewrite Hobj in Hobj1. injection Hobj1 as _ _ <- <-. exact Hc1.
Qed.

(** What [binder_validate_fixup] says of a parent at [target]. *)
Lemma validate_fixup_eq fuel object target fo : length object = 40%nat -> (length objs <= fuel)%nat ->
  exists r, binder_validate_fixup fuel id object (off_start b) target fo (last_fixup_obj_off st) (last_fixup_min_off st) s
      = Some (r, s) /\
    (r = true -> exists a M', on_path objs a M' /\ off_at b s a = target /\ M' <= fo) /\
    (r = true <-> last_fixup_obj_off st <> 0 /\ exists j a M', off_at b s j = last_fixup_obj_off st /\
       on_path objs j (last_fixup_min_off st) /\ chain objs j (last_fixup_min_off st) a M' /\ off_at b s a = target /\ M' <= fo).
Proof.
  intros Hl Hf. unfold binder_validate_fixup. destruct (Z.eqb_spec (last_fixup_obj_off st) 0) as [H0|H0].
  { exists false. split; [done|]. split; [done|]. split; [done|]. intros [? _]. done. }
  destruct (pl_last _ _ _ _ _ P) as [?|(j & Hj & Hp)]; [done|]. rewrite <- Hj.
  destruct (validate_loop_eq object target fo Hl fuel j (last_fixup_min_off st)) as (r & E & Hrr); [|done|].
  { pose proof (on_path_lt _ _ _ Hp). lia. }
  exists r. split; [exact E|]. split.
  - intros Hr1. apply Hrr in Hr1 as (a & M' & Hc & Ha & HM). exists a, M'. split; [by eapply chain_path|exact (conj Ha HM)].
  - rewrite Hrr. split.
    + intros (a & M' & Hc & Ha & HM). split; [congruence|]. exists j, a, M'. exact (conj eq_refl (conj Hp (conj Hc (conj Ha HM)))).
    + intros [_ (j' & a & M' & Hj' & Hp' & Hc & Ha & HM)]. exists a, M'.
      assert (j' = j) as -> by (apply off_at_inj; [by eapply on_path_lt|by eapply on_path_lt|congruence]).
      exact (conj Hc (conj Ha HM)).
Qed.
End fixup.
