(* ===== verification/BinderObjectsPlace.v ===== *)
(** * Writes that keep the objects placed so far

    A write into the next object, into the room for the next copy, or into a
    slot that the walk of [binder_validate_fixup] has accepted. *)

From Stdlib Require Import ZArith Lia.
From stdpp Require Import base option gmap sets list.
From S2P Require Import Prelude RbTree BinderAlloc BinderAllocFacts BinderAllocInv BinderAllocCopy.
From S2P Require Import BinderNode BinderTranslate BinderObjects BinderObjectsMem BinderObjectsFacts BinderObjectsPath.
From S2P Require Import BinderObjectsLoop BinderObjectsFixup.

(** The object as it is written back: [o'] in place of what was read. *)
Record rewritten (s : binder_alloc) (b : binder_buffer) (off : Z) (t : object_type) (o' : list Z) (s' : binder_alloc) : Prop := Rewritten {
  rw_touched : touched (range s b off (object_sizeof t)) s s';
  rw_word m k : Z.of_nat (k + m) <= object_sizeof t -> word s' b m (off + Z.of_nat k) = field m k o';
  rw_valid t' : type_of (obj_type o') = Some t' -> object_sizeof t' = object_sizeof t -> valid_object s' b off = Some t'
}.

Section place.
Context (s : binder_alloc) (id : nat) (b : binder_buffer) (N : nat) (A : access s id b) (Hr : roomy s id b).
Context (HN : offsets_size b = 8 * Z.of_nat N).

Lemma rewrite_object off t o' : valid_object s b off = Some t -> 0 <= off -> length o' = 40%nat ->
  exists s', binder_alloc_copy_to_buffer id off o' (object_sizeof t) s = Some (0, s') /\ rewritten s b off t o' s'.
Proof.
  intros Hv Ho Hl. destruct (valid_object_inside s b off t Hv) as (Ha & _ & Hin).
  pose proof (object_sizeof_range t) as [T1 T2]. unfold SIZEOF_OBJECT in T2. pose proof (data_inside s id b Hr).
  destruct (copy_to_eq s id b A Hr off (object_sizeof t) o') as (s' & E & T & Hb); [lia..|done|lia|].
  exists s'. split; [exact E|].
  assert (Hw : forall m k, Z.of_nat (k + m) <= object_sizeof t -> word s' b m (off + Z.of_nat k) = field m k o').
  { intros m k Hk. symmetry. apply (field_word s' b off (Z.to_nat (object_sizeof t))); [done|by symmetry|lia]. }
  split; [exact T|exact Hw|]. intros t' Ht' Hs. unfold valid_object. rewrite bool_decide_eq_true_2 by done.
  pose proof (Hw 4%nat O ltac:(lia)) as H4. rewrite Z.add_0_r in H4. rewrite H4. unfold obj_type in Ht'. rewrite Ht', Hs.
  unfold SIZEOF_HDR. by rewrite !(proj2 (Z.leb_le _ _)) by lia.
Qed.

Context (st : loop_state) (objs : list obj) (P : placed b N s st objs).

Lemma data_nonneg : 0 <= data_size b.
Proof. apply Hr. Qed.

(** Between the objects placed and the offsets. *)
Lemma placed_data W s' : touched W s s' -> (forall y, W y -> range s b (off_min st) (data_size b - off_min st) y) ->
  placed b N s' st objs /\ (forall i, (i < N)%nat -> off_at b s' i = off_at b s i).
Proof.
  intros T HW. pose proof (pl_data _ _ _ _ _ P). pose proof (off_start_data b) as Hod.
  assert (Ho : forall y, range s b (off_start b) (8 * Z.of_nat N) y -> ~ W y).
  { intros y Hy Hw. apply HW in Hw. unfold range in *. lia. }
  split; [|intros i Hi; by apply (off_at_frame b N data_nonneg W)].
  apply (placed_frame b N data_nonneg W s s' st objs P T); [|exact Ho|].
  - intros y Hy Hw. apply HW in Hw. unfold range in *. lia.
  - intros off y Hc Hy Hw. apply HW in Hw. pose proof (child_slot_range b N _ _ _ _ P Hc). unfold sg_start, range in *. lia.
Qed.

(** Behind the copies placed. *)
Lemma placed_extra W s' : touched W s s' -> (forall y, W y -> Z.of_nat (base_off s b) + sg_buf_offset st <= Z.of_nat y) ->
  sg_start b N <= sg_buf_offset st ->
  placed b N s' st objs /\ (forall i, (i < N)%nat -> off_at b s' i = off_at b s i).
Proof.
  intros T HW Hsg. pose proof (pl_data _ _ _ _ _ P). pose proof (off_start_data b) as Hod.
  assert (Ho : forall y, range s b (off_start b) (8 * Z.of_nat N) y -> ~ W y).
  { intros y Hy Hw. apply HW in Hw. unfold range, sg_start in *. lia. }
  split; [|intros i Hi; by apply (off_at_frame b N data_nonneg W)].
  apply (placed_frame b N data_nonneg W s s' st objs P T); [|exact Ho|].
  - intros y Hy Hw. apply HW in Hw. unfold range, sg_start in *. lia.
  - intros off y Hc Hy Hw. apply HW in Hw. pose proof (child_slot_range b N _ _ _ _ P Hc). unfold range in *. lia.
Qed.

(** A slot of [p] behind the others there meets no other slot. *)
Lemma slot_fresh p M po sgo len par off : on_path objs p M -> M <= po -> objs !! p = Some (OPtr sgo len par) -> po + 8 <= len ->
  0 <= po -> child_slot objs off -> off + 8 <= sgo + po \/ sgo + po + 8 <= off.
Proof.
  intros Hp HM Hobj Hlen Hpo (i & sgi & li & q & qo & sgq & lq & parq & Hi & Hq & ->).
  destruct (so_parent _ _ _ (pl_sound _ _ _ _ _ P) i _ q qo (qo + 8) Hi eq_refl) as (_ & sg1 & l1 & par1 & Hq1 & Hb).
  rewrite Hq in Hq1. injection Hq1 as <- <- <-.
  destruct (lt_eq_lt_dec q p) as [[Hlt|Heq]|Hlt].
  - pose proof (so_apart _ _ _ (pl_sound _ _ _ _ _ P) q p _ _ _ _ _ _ Hlt Hq Hobj). lia.
  - subst q. rewrite Hobj in Hq. injection Hq as <- <- <-. destruct Hp as [p M ? ? ? _ Hs _].
    pose proof (Hs i _ qo (qo + 8) Hi eq_refl). lia.
  - pose proof (so_apart _ _ _ (pl_sound _ _ _ _ _ P) p q _ _ _ _ _ _ Hlt Hobj Hq). lia.
Qed.

(** Into such a slot. *)
Lemma placed_slot s' p M po sgo len par : on_path objs p M -> M <= po -> objs !! p = Some (OPtr sgo len par) ->
  0 <= po -> po + 8 <= len -> touched (range s b (sgo + po) 8) s s' ->
  placed b N s' st objs /\ (forall i, (i < N)%nat -> off_at b s' i = off_at b s i).
Proof.
  intros Hp HM Hobj Hpo Hlen T. pose proof (pl_data _ _ _ _ _ P). pose proof (off_start_data b) as Hod.
  pose proof (so_space _ _ _ (pl_sound _ _ _ _ _ P) p _ _ _ Hobj) as (Hsg & _ & Hsg2 & _).
  assert (Ho : forall y, range s b (off_start b) (8 * Z.of_nat N) y -> ~ range s b (sgo + po) 8 y).
  { intros y Hy Hw. unfold range, sg_start in *. lia. }
  split; [|intros i Hi; by apply (off_at_frame b N data_nonneg _ _ _ _ T)].
  apply (placed_frame b N data_nonneg _ s s' st objs P T); [|exact Ho|].
  - intros y Hy Hw. unfold range, sg_start in *. lia.
  - intros off y Hc Hy Hw. pose proof (slot_fresh p M po sgo len par off Hp HM Hobj Hlen Hpo Hc). unfold range in *. lia.
Qed.
End place.
