(* ===== verification/BinderObjectsTxn.v ===== *)
(** * The steps of one object

    The monad of a transaction over its parts; descriptors and their fix-ups;
    the fix-up of a parent. *)

From Stdlib Require Import ZArith Lia.
From stdpp Require Import base option gmap sets list.
From S2P Require Import Prelude RbTree BinderAlloc BinderAllocFacts BinderAllocInv BinderAllocCopy.
From S2P Require Import BinderNode BinderNodeFacts BinderTranslate BinderObjects BinderObjectsMem BinderObjectsFacts BinderObjectsPath.
From S2P Require Import BinderObjectsLoop BinderObjectsFixup BinderObjectsPlace.

(** ** The parts of the state *)

Lemma on_alloc_eq {A} (m : M binder_alloc A) S a al : m (t_alloc S) = Some (a, al) -> on_alloc m S = Some (a, set_alloc al S).
Proof. intros E. unfold on_alloc. by rewrite E. Qed.

Lemma on_alloc_read {A} (m : M binder_alloc A) S a : m (t_alloc S) = Some (a, t_alloc S) -> on_alloc m S = Some (a, S).
Proof. intros E. unfold on_alloc. rewrite E. by destruct S. Qed.

Lemma on_graph_eq {A} (m : M binder A) S a g : m (t_graph S) = Some (a, g) -> on_graph m S = Some (a, set_graph g S).
Proof. intros E. unfold on_graph. by rewrite E. Qed.

Lemma on_graph_read {A} (m : M binder A) S a : m (t_graph S) = Some (a, t_graph S) -> on_graph m S = Some (a, S).
Proof. intros E. unfold on_graph. rewrite E. by destruct S. Qed.

(** Files taken for the fix-ups at these offsets. *)
Definition add_fixups (l : list (nat * Z)) (S : txn) : txn :=
  Txn (t_alloc S) (t_graph S) (fd_fixups S ++ ((fun p => Fixup (Some p.1) p.2) <$> l)) (rev (fst <$> l) ++ held_files S)
    (installed_fds S) (closing_fds S).

Lemma add_fixups_nil S : add_fixups [] S = S.
Proof. unfold add_fixups. simpl. rewrite app_nil_r. by destruct S. Qed.

Lemma add_fixups_app l1 l2 S : add_fixups l2 (add_fixups l1 S) = add_fixups (l1 ++ l2) S.
Proof. unfold add_fixups. simpl. by rewrite !fmap_app, rev_app_distr, !app_assoc. Qed.

Lemma fput_held f l S : held_files S = f :: l -> fput f S = Some (tt, set_held l S).
Proof.
  intros E. unfold fput. erewrite bind_eq by reflexivity. unfold deref. rewrite E. cbn [remove_file].
  by rewrite decide_True.
Qed.

(** What the code relies on of its surroundings. *)
Record env_ok (env : txn_env) : Prop := EnvOk {
  eo_copy a n : 0 <= n -> 0 <= not_copied env a n <= n;
  eo_stack : length (stack_object env) = 40%nat
}.

(** The transaction's target, if it is not a reply, is alive. *)
Definition target_there (env : txn_env) (b : binder_buffer) (g : binder) : Prop :=
  in_reply_to env = None -> exists n N, target_node b = Some n /\ nodes g !! n = Some N.

Section fd.
Context (env : txn_env) (id : nat) (b : binder_buffer).

Lemma target_allows_fd_eq S : access (t_alloc S) id b -> target_there env b (t_graph S) ->
  exists r, target_allows_fd env id S = Some (r, S).
Proof.
  intros A Ht. unfold target_allows_fd. destruct (in_reply_to env) as [fl|] eqn:Er; [by eexists|].
  destruct (Ht Er) as (n & N & Hn & HN).
  erewrite bind_eq by by apply on_alloc_read, buf_eq. rewrite Hn. erewrite bind_eq by reflexivity.
  erewrite bind_eq; [by eexists|]. apply on_graph_read. by apply node_at_eq.
Qed.

(** A descriptor is translated: its file is held for a fix-up, or nothing
    has happened. *)
Lemma translate_fd_eq S fd off : access (t_alloc S) id b -> target_there env b (t_graph S) ->
  exists r l, binder_translate_fd env id fd off S = Some (r, add_fixups l S) /\
    (r < 0 /\ l = [] \/ 0 <= r /\ exists file, fget env fd = Some file /\ l = [(file, off)]).
Proof.
  intros A Ht. unfold binder_translate_fd. destruct (target_allows_fd_eq S A Ht) as [ok E].
  erewrite bind_eq by exact E. destruct ok; cbn [negb].
  2:{ exists (- EPERM), []. rewrite add_fixups_nil. split; [done|by left]. }
  destruct (fget env fd) as [file|] eqn:Hf.
  2:{ exists (- EBADF), []. rewrite add_fixups_nil. split; [done|by left]. }
  erewrite bind_eq by reflexivity.
  assert (Hput : forall e : Z, (fput file ;! ret e : M txn Z) (set_held (file :: held_files S) S) = Some (e, S)).
  { intros e. erewrite bind_eq by by apply fput_held. by destruct S. }
  destruct (Z.ltb_spec (transfer_file env file) 0).
  { exists (- EPERM), []. rewrite add_fixups_nil. split; [apply Hput|by left]. }
  erewrite bind_eq by reflexivity. destruct (negb _).
  { exists (- ENOMEM), []. rewrite add_fixups_nil. split; [apply Hput|by left]. }
  erewrite bind_eq by reflexivity. exists (transfer_file env file), [(file, off)]. split; [done|].
  right. split; [done|]. by exists file.
Qed.

Context (Hr : forall S, access (t_alloc S) id b -> roomy (t_alloc S) id b).

(** The descriptors of an array, up to the first that fails. *)
Lemma translate_fds_eq o : 0 <= o -> o mod 4 = 0 ->
  forall n S i, access (t_alloc S) id b -> target_there env b (t_graph S) -> o + 4 * (Z.of_nat i + Z.of_nat n) <= bsize (t_alloc S) id ->
  exists r l, translate_fds n env id o (Z.of_nat i) S = Some (r, add_fixups l S) /\
    (r < 0 \/ r = 0 /\ (snd <$> l) = (fun j => o + 4 * Z.of_nat j) <$> seq i n).
Proof.
  intros Ho Ha n. induction n as [|n IH]; intros S i A Ht Hin; cbn [translate_fds].
  { exists 0, []. rewrite add_fixups_nil. split; [done|]. by right. }
  pose proof (rm_small _ _ _ (Hr S A)).
  assert (Hoff : u64 (o + 4 * Z.of_nat i) = o + 4 * Z.of_nat i) by (apply u64_small; unfold is_u64, two64; lia).
  rewrite Hoff. erewrite bind_eq.
  2:{ apply on_alloc_read. apply (copy_from_eq (t_alloc S) id b A (Hr S A) (o + 4 * Z.of_nat i) 4); [lia|lia|lia| |simpl; lia].
      apply Z.mod_divide in Ha as [k ->]; [|done]. replace (k * 4 + 4 * Z.of_nat i) with ((k + Z.of_nat i) * 4) by lia. by apply Z.mod_mul. }
  cbn [fst snd Z.eqb].
  destruct (translate_fd_eq S (le_read 4 (bytes_at (t_alloc S) b (o + 4 * Z.of_nat i) (Z.to_nat 4) ++ drop (Z.to_nat 4) (replicate 4 0)))
    (o + 4 * Z.of_nat i) A Ht) as (r & l & E & Hl).
  erewrite bind_eq by exact E. destruct (Z.ltb_spec r 0) as [Hneg|Hpos].
  { exists r, l. split; [done|by left]. }
  destruct Hl as [[? _]|(_ & file & _ & ->)]; [lia|].
  replace (Z.of_nat i + 1) with (Z.of_nat (Datatypes.S i)) by lia.
  destruct (IH (add_fixups [(file, o + 4 * Z.of_nat i)] S) (Datatypes.S i)) as (r' & l' & E' & Hl'); [done|done|simpl; lia|].
  rewrite E', add_fixups_app. exists r', ([(file, o + 4 * Z.of_nat i)] ++ l'). split; [done|].
  destruct Hl' as [?|[-> Hl']]; [by left|right]. split; [done|]. by rewrite fmap_app, Hl'.
Qed.
End fd.

Lemma is_aligned4 x : IS_ALIGNED x 4 = true -> x mod 4 = 0.
Proof. unfold IS_ALIGNED. change (4 - 1) with (Z.ones 2). by rewrite Z.land_ones, Z.eqb_eq by lia. Qed.

(** [fds_fit] in plain arithmetic. *)
Lemma fds_fit_spec fda parent : is_u64 (fda_num_fds fda) -> is_u64 (bbo_length parent) -> is_u64 (fda_parent_offset fda) ->
  fds_fit fda parent = true -> fda_parent_offset fda + 4 * fda_num_fds fda <= bbo_length parent.
Proof.
  intros Hn Hl Hp. unfold fds_fit. intros H. apply andb_true_iff in H as [H1 H2]. apply negb_true_iff in H1, H2.
  apply Z.leb_gt in H1. apply orb_false_iff in H2 as [H2 H3]. apply Z.ltb_ge in H2, H3.
  assert (E : u64 (4 * fda_num_fds fda) = 4 * fda_num_fds fda).
  { change (SIZE_MAX / 4) with 4611686018427387903 in H1. apply u64_small. unfold is_u64, two64 in *. lia. }
  rewrite E in H2, H3. rewrite (u64_small (bbo_length parent - _)) in H3 by (unfold is_u64 in *; lia). lia.
Qed.
