(* ===== verification/BinderObjectsRound.v ===== *)
(** * One round of the loop over the offsets

    Each kind of object, from a state in which the objects so far are placed:
    the round ends, and either this object is placed too, or it is refused
    and the objects so far are as they were. *)

From Stdlib Require Import ZArith Lia.
From stdpp Require Import base option gmap sets list.
From S2P Require Import Prelude RbTree BinderAlloc BinderAllocFacts BinderAllocInv BinderAllocCopy.
From S2P Require Import BinderNode BinderNodeFacts BinderNodeInv BinderNodeOps BinderNodeRef BinderTranslate BinderTranslateFacts.
From S2P Require Import BinderObjects BinderObjectsMem BinderObjectsFacts BinderObjectsPath.
From S2P Require Import BinderObjectsLoop BinderObjectsFixup BinderObjectsPlace BinderObjectsTxn.

(** ** Parents *)

Section parent.
Context (s : binder_alloc) (id : nat) (b : binder_buffer) (N : nat) (A : access s id b) (Hr : roomy s id b).
Context (HN : offsets_size b = 8 * Z.of_nat N).
Context (st : loop_state) (objs : list obj) (P : placed b N s st objs) (Hsg : sg_buf_offset st <= bsize s id).

Lemma num_valid_eq k : (k <= N)%nat -> u64 (off_start b + 8 * Z.of_nat k - off_start b) / 8 = Z.of_nat k.
Proof.
  intros Hk. destruct (offsets_fit s id b N Hr HN) as (? & ? & ?). pose proof (rm_small _ _ _ Hr).
  pose proof (up8_spec (extra_buffers_size b)). pose proof (rm_extra _ _ _ Hr).
  rewrite u64_small by (unfold is_u64, two64; lia).
  replace (off_start b + 8 * Z.of_nat k - off_start b) with (Z.of_nat k * 8) by lia. by apply Z.div_mul.
Qed.

(** An index that [binder_validate_ptr] accepts is that of a placed buffer
    object, and what it has read are that object's members. *)
Lemma validate_ptr_placed object index : length object = 40%nat -> is_u64 index ->
  exists r, binder_validate_ptr id object index (off_start b) (Z.of_nat (length objs)) s = Some (r, s) /\
    match r with
    | None => True
    | Some (o, off) => exists p sgp lenp parp, index = Z.of_nat p /\ off = off_at b s p /\ objs !! p = Some (OPtr sgp lenp parp) /\
        bbo_buffer o = user_data b + sgp /\ bbo_length o = lenp
    end.
Proof.
  intros Hl Hi. pose proof (pl_count _ _ _ _ _ P). destruct (offsets_fit s id b N Hr HN) as (? & ? & ?).
  pose proof (up8_spec (extra_buffers_size b)). pose proof (rm_extra _ _ _ Hr).
  destruct (validate_ptr_eq s id b A Hr object index (off_start b) (Z.of_nat (length objs))) as (r & E & Hres);
    [done|done|done|apply off_start_align|lia|].
  exists r. split; [exact E|]. destruct r as [[o off]|]; [|done]. destruct Hres as (Hlt & -> & Hv & Hro).
  unfold is_u64 in Hi. destruct (lookup_lt_is_Some_2 objs (Z.to_nat index)) as [x Hx]; [lia|].
  assert (Ei : index = Z.of_nat (Z.to_nat index)) by lia.
  pose proof (pl_desc _ _ _ _ _ P _ _ Hx) as Hd. unfold off_at in Hd. rewrite <- Ei in Hd.
  set (w := word s b 8 (off_start b + 8 * index)) in *.
  destruct x as [| |sgp lenp parp|p po num].
  - destruct Hd as [t Ht]. rewrite Hv in Ht. discriminate Ht.
  - simpl in Hd. rewrite Hv in Hd. discriminate Hd.
  - destruct Hd as (_ & Hb & Hlen & _). pose proof (word_u64 s b (off_start b + 8 * index)) as [Hw0 _]. fold w in Hw0.
    exists (Z.to_nat index), sgp, lenp, parp. split; [exact Ei|]. split; [unfold off_at; rewrite <- Ei; reflexivity|].
    split; [exact Hx|]. unfold bbo_buffer, bbo_length. split.
    + rewrite (read_field s b w PtrObject 40 o 8 8 Hw0 Hro Hv) by (simpl; lia). exact Hb.
    + rewrite (read_field s b w PtrObject 40 o 8 16 Hw0 Hro Hv) by (simpl; lia). exact Hlen.
  - destruct Hd as (Ht & _). rewrite Hv in Ht. discriminate Ht.
Qed.

(** The slot [binder_validate_fixup] accepts in the parent. *)
Lemma validate_fixup_slot fuel object p fo : length object = 40%nat -> (length objs <= fuel)%nat -> (p < length objs)%nat ->
  exists r, binder_validate_fixup fuel id object (off_start b) (off_at b s p) fo (last_fixup_obj_off st) (last_fixup_min_off st) s
      = Some (r, s) /\ (r = true -> exists M, on_path objs p M /\ M <= fo).
Proof.
  intros Hl Hf Hp. destruct (validate_fixup_eq s id b N A Hr HN st objs P fuel object (off_at b s p) fo Hl Hf) as (r & E & H & _).
  exists r. split; [exact E|]. intros Hr1. destruct (H Hr1) as (a & M & Ha & Hoff & HM).
  assert (a = p) as -> by (apply (off_at_inj s b N st objs P); [by apply on_path_lt in Ha|exact Hp|exact Hoff]).
  exists M. split; [exact Ha|exact HM].
Qed.

(** [binder_fixup_parent]: no parent, a refusal, or the address is in the
    parent's slot. *)
Lemma fixup_parent_eq object bp : length object = 40%nat -> is_u64 (bbo_parent bp) -> is_u64 (bbo_parent_offset bp) ->
  is_u64 (bbo_buffer bp) ->
  exists r s', binder_fixup_parent id object bp (off_start b) (Z.of_nat (length objs)) (last_fixup_obj_off st)
      (last_fixup_min_off st) s = Some (r, s') /\
    (has_parent bp = false /\ r = 0 /\ s' = s \/
     r < 0 /\ s' = s \/
     has_parent bp = true /\ r = 0 /\ exists p M sgp lenp parp, bbo_parent bp = Z.of_nat p /\
       objs !! p = Some (OPtr sgp lenp parp) /\ on_path objs p M /\ M <= bbo_parent_offset bp /\
       bbo_parent_offset bp + 8 <= lenp /\ touched (range s b (sgp + bbo_parent_offset bp) 8) s s' /\
       word s' b 8 (sgp + bbo_parent_offset bp) = bbo_buffer bp).
Proof.
  intros Hl Hp Hpo Hbuf. unfold binder_fixup_parent. destruct (has_parent bp) eqn:Hhp; cbn [negb].
  2:{ exists 0, s. split; [done|]. by left. }
  destruct (validate_ptr_placed object (bbo_parent bp) Hl Hp) as (r & E & Hres). erewrite bind_eq by exact E.
  destruct r as [[o off]|]; [|exists (- EINVAL), s; split; [done|]; right; by left].
  destruct Hres as (p & sgp & lenp & parp & Hidx & -> & Hobj & Hob & Hol).
  destruct (validate_fixup_slot (S (Z.to_nat (Z.of_nat (length objs)))) object p (bbo_parent_offset bp) Hl)
    as (r & E2 & Hok); [lia|by eapply lookup_lt_Some|].
  erewrite bind_eq by exact E2. destruct r; cbn [negb]; [|exists (- EINVAL), s; split; [done|]; right; by left].
  destruct (Hok eq_refl) as (M & Hpath & HM). rewrite Hol, Hob.
  destruct (Z.ltb_spec lenp 8); cbn [orb]; [exists (- EINVAL), s; split; [done|]; right; by left|].
  pose proof (so_space _ _ _ (pl_sound _ _ _ _ _ P) p _ _ _ Hobj) as (Hs1 & _ & Hs2 & _).
  destruct (pl_desc _ _ _ _ _ P p _ Hobj) as (_ & _ & Hlenw & _).
  pose proof (word_u64 s b (off_at b s p + 16)) as Hlu. rewrite Hlenw in Hlu. clear Hlenw.
  unfold is_u64 in Hlu, Hpo. rewrite (u64_small (lenp - 8)) by (unfold is_u64; lia).
  destruct (Z.ltb_spec (lenp - 8) (bbo_parent_offset bp)); [exists (- EINVAL), s; split; [done|]; right; by left|].
  erewrite bind_eq by apply (buf_eq s id b A).
  replace (bbo_parent_offset bp + (user_data b + sgp) - user_data b) with (sgp + bbo_parent_offset bp) by lia.
  set (so := sgp + bbo_parent_offset bp) in *.
  pose proof (rm_small _ _ _ Hr). destruct (offsets_fit s id b N Hr HN) as (? & ? & ?).
  assert (Hin : 0 <= so /\ so + 8 <= bsize s id) by (unfold so; lia).
  rewrite u64_small by (unfold is_u64, two64; lia).
  destruct (decide (so mod 4 = 0)) as [Hal|Hno].
  2:{ erewrite bind_eq by (apply (copy_to_refused s id b A); [unfold is_u64, two64; lia|done|tauto]).
      exists (- EINVAL), s. split; [done|]. right; by left. }
  destruct (copy_to_eq s id b A Hr so 8 (le_write 8 (bbo_buffer bp))) as (s' & E3 & T & Hb); [lia|lia|lia|done|by rewrite le_write_length|].
  erewrite bind_eq by exact E3. exists 0, s'. split; [done|]. right; right. split; [done|]. split; [done|].
  exists p, M, sgp, lenp, parp. split; [exact Hidx|]. split; [exact Hobj|]. split; [exact Hpath|]. split; [exact HM|].
  split; [lia|]. split; [exact T|]. change (Z.to_nat 8) with 8%nat in Hb. fold so. unfold word. rewrite Hb. rewrite take_ge by (rewrite le_write_length; lia).
  rewrite <- (app_nil_r (le_write 8 _)). by apply le_write_back.
Qed.
End parent.

(** ** Rounds *)

(** Where the descriptors that object [i] carries are to be written. *)
Definition fd_offsets (b : binder_buffer) (s : binder_alloc) (objs : list obj) (i : nat) (x : obj) : list Z :=
  match x with
  | OFd => [off_at b s i + OFFSETOF_FD]
  | OFda p po num =>
    match objs !! p with
    | Some (OPtr sgo _ _) => (fun j => sgo + po + 4 * Z.of_nat j) <$> seq 0 (Z.to_nat num)
    | _ => []
    end
  | _ => []
  end.

(** The room for the copies that are left. *)
Record sg_room (b : binder_buffer) (N : nat) (sg_end : Z) (st : loop_state) : Prop := SgRoom {
  sr_start : sg_start b N <= sg_buf_offset st;
  sr_end : sg_buf_offset st <= sg_end;
  sr_align : sg_buf_offset st mod 8 = 0
}.

(** What the translations of binders and handles need of the graph: room in
    the counters and the handles, the two processes, fresh allocations. *)
Record graph_ready (env : txn_env) (g : binder) : Prop := GraphReady {
  gr_room : room g;
  gr_refs : ref_room g;
  gr_sender : exists T P, threads g !! env_thread env = Some T /\ procs g !! thread_proc T = Some P;
  gr_target : exists TP, procs g !! env_target env = Some TP /\ desc_room TP;
  gr_node n : kzalloc_node env g = Some n -> nodes g !! n = None;
  gr_ref r : kzalloc_ref env g = Some r -> refs g !! r = None
}.

Lemma put_flat_written f o : length o = 40%nat -> length (put_flat f o) = 40%nat /\
  type_of (obj_type (put_flat f o)) = Some (FlatObject (BinderTranslate.hdr f)).
Proof.
  intros Hl. unfold put_flat. set (o1 := set_field 4 0 _ o).
  assert (H1 : length o1 = 40%nat) by (unfold o1; rewrite set_field_length; rewrite ?Hl; done || lia).
  set (o2 := set_field 8 8 _ o1). assert (H2 : length o2 = 40%nat) by (unfold o2; rewrite set_field_length; rewrite ?H1; done || lia).
  split; [rewrite set_field_length; rewrite ?H2; done || lia|]. unfold obj_type.
  rewrite field_set_other by (rewrite ?H2; lia). unfold o2. rewrite field_set_other by (rewrite ?H1; lia).
  unfold o1. rewrite field_set_same by (rewrite ?Hl; lia). destruct (BinderTranslate.hdr f); vm_compute; reflexivity.
Qed.

Section round.
Context `{RB : Rbtree} {RBL : RbtreeLaws}.
(** The translation of a binder or a handle, by its type. *)
Definition flat_step (env : txn_env) (ht : hdr_type) (fp : binder_object) (g : binder) : M binder (Z * binder_object) :=
  match ht with
  | BINDER_TYPE_BINDER | BINDER_TYPE_WEAK_BINDER =>
    binder_translate_binder (env_thread env) (env_target env) (env_denied env) (kzalloc_node env g) (kzalloc_ref env g) fp
  | BINDER_TYPE_HANDLE | BINDER_TYPE_WEAK_HANDLE =>
    binder_translate_handle (env_thread env) (env_target env) (env_denied env) (kzalloc_ref env g) fp
  end.

Lemma flat_runs env ht fp g : inv g -> graph_ready env g ->
  exists rv fp' g', flat_step env ht fp g g = Some ((rv, fp'), g') /\ inv g' /\ (rv = 0 \/ rv < 0).
Proof.
  intros I [Hroom Hrefs (T & P & HT & HP) (TP & HTP & Hdesc) Hn Hr].
  assert (Hb : exists rv fp' g', binder_translate_binder (env_thread env) (env_target env) (env_denied env) (kzalloc_node env g)
      (kzalloc_ref env g) fp g = Some ((rv, fp'), g') /\ inv g' /\ (rv = 0 \/ rv < 0)).
  { destruct (translate_binder_inv _ T P _ TP (env_denied env) _ _ fp g I HT HP HTP Hroom Hrefs Hdesc Hn Hr) as (rv & fp' & g' & E & I' & H).
    exists rv, fp', g'. split; [exact E|]. split; [exact I'|]. destruct H as [(-> & _)|(_ & [[-> _]|[->|[-> _]]])]; [by left|right; done..]. }
  assert (Hh : exists rv fp' g', binder_translate_handle (env_thread env) (env_target env) (env_denied env)
      (kzalloc_ref env g) fp g = Some ((rv, fp'), g') /\ inv g' /\ (rv = 0 \/ rv < 0)).
  { destruct (translate_handle_inv _ T P _ TP (env_denied env) _ fp g I HT HP HTP Hroom Hrefs Hdesc Hr) as (rv & fp' & g' & E & I' & H).
    exists rv, fp', g'. split; [exact E|]. split; [exact I'|].
    destruct H as [(n & _ & -> & _)|(_ & [[-> _]|[[-> _]|[-> _]]])]; [by left|right; done..]. }
  unfold flat_step. destruct ht; assumption.
Qed.

Context (env : txn_env) (Eo : env_ok env) (id : nat) (b : binder_buffer) (N : nat) (HN : offsets_size b = 8 * Z.of_nat N).
Context (Hroomy : forall s, access s id b -> roomy s id b) (sg_end : Z) (Hse8 : sg_end mod 8 = 0).

(** The state before a round. *)
Record at_round (S : txn) (st : loop_state) (objs : list obj) : Prop := AtRound {
  ar_access : access (t_alloc S) id b;
  ar_end : sg_end <= bsize (t_alloc S) id;
  ar_placed : placed b N (t_alloc S) st objs;
  ar_sg : sg_room b N sg_end st;
  ar_graph : inv (t_graph S)
}.

(** What a round may change, and what it then leaves; [l] are the files it
    has taken, with the offsets of their descriptors. *)
Definition round_done (S : txn) (st : loop_state) (objs : list obj) (r : round_result) (S' : txn) : Prop :=
  exists al g l, S' = add_fixups l (set_graph g (set_alloc al S)) /\
    touched (range (t_alloc S) b 0 (bsize (t_alloc S) id)) (t_alloc S) al /\ inv g /\
    (forall i, (i < N)%nat -> off_at b al i = off_at b (t_alloc S) i) /\
    match r with
    | Next st' => exists x, placed b N al st' (objs ++ [x]) /\ sg_room b N sg_end st' /\
        snd <$> l = fd_offsets b al objs (length objs) x
    | Fail e => e < 0 /\ placed b N al st objs
    end.

Lemma set_alloc_same S : set_alloc (t_alloc S) S = S.
Proof. by destruct S. Qed.
Lemma set_graph_same S : set_graph (t_graph S) S = S.
Proof. by destruct S. Qed.

Lemma round_quiet S st objs l e : at_round S st objs -> e < 0 -> round_done S st objs (Fail e) (add_fixups l S).
Proof.
  intros R He. exists (t_alloc S), (t_graph S), l. rewrite set_alloc_same, set_graph_same.
  split; [done|]. split; [apply touched_refl, (access_pages _ id b), R|]. split; [apply R|]. split; [done|]. split; [done|apply R].
Qed.

Lemma round_failed S st objs e : at_round S st objs -> e < 0 -> round_done S st objs (Fail e) S.
Proof. intros R He. rewrite <- (add_fixups_nil S) at 2. by apply round_quiet. Qed.

Section object.
Context (S : txn) (st : loop_state) (objs : list obj) (R : at_round S st objs) (Hk : (length objs < N)%nat).
Let s := t_alloc S.
Let off := off_at b s (length objs).
Context (t : object_type) (o : list Z) (Ht : valid_object s b off = Some t) (Ho : read_object s b off (object_sizeof t) o).
Context (Hmin : off_min st <= off).
Let next := Loop (u64 (off + object_sizeof t)) (sg_buf_offset st) (last_fixup_obj_off st) (last_fixup_min_off st).

Lemma off_bounds : 0 <= off /\ off + object_sizeof t <= data_size b /\ data_size b <= off_start b /\
  off_start b + 8 * Z.of_nat N <= sg_end /\ sg_end <= bsize s id /\ bsize s id <= 4194304.
Proof.
  pose proof (off_at_u64 b (t_alloc S) (length objs)) as [H0 _]. destruct (valid_object_inside _ _ _ _ Ht) as (_ & _ & Hin).
  pose proof (off_start_data b). destruct (ar_sg _ _ _ R). pose proof (rm_small _ _ _ (Hroomy _ (ar_access _ _ _ R))).
  pose proof (ar_end _ _ _ R). unfold off, s, sg_start in *. lia.
Qed.

Lemma next_min : u64 (off + object_sizeof t) = off + object_sizeof t.
Proof. destruct off_bounds as (? & ? & ? & ? & ? & ?). pose proof (object_sizeof_range t). apply u64_small. unfold is_u64, two64. lia. Qed.

(** The object is written back with its kind as it was, and is placed
    without a parent. *)
Lemma plain_written t' o' x : length o' = 40%nat -> type_of (obj_type o') = Some t' -> object_sizeof t' = object_sizeof t ->
  obj_size x = object_sizeof t -> slot_of x = None -> (forall sgo len par, x <> OPtr sgo len par) ->
  (forall s', valid_object s' b off = Some t' -> described s' b off x) ->
  exists s', binder_alloc_copy_to_buffer id off o' (object_sizeof t) s = Some (0, s') /\
    touched (range s b 0 (bsize s id)) s s' /\ (forall i, (i < N)%nat -> off_at b s' i = off_at b s i) /\
    placed b N s' next (objs ++ [x]) /\ sg_room b N sg_end next.
Proof.
  intros Hl Ht' Hsz Hx Hslot Hptr Hd. destruct off_bounds as (B1 & B2 & B3 & B4 & B5 & B6).
  destruct (rewrite_object s id b N (ar_access _ _ _ R) (Hroomy _ (ar_access _ _ _ R)) off t o' Ht B1 Hl) as (s' & E & W).
  exists s'. split; [exact E|]. destruct W as [T _ Hv].
  assert (HW : forall y, range s b off (object_sizeof t) y -> range s b (off_min st) (data_size b - off_min st) y) by (unfold range; lia).
  destruct (placed_data s id b N (Hroomy _ (ar_access _ _ _ R)) st objs (ar_placed _ _ _ R) _ s' T HW) as [P' Hoffs].
  pose proof (pl_data _ _ _ _ _ (ar_placed _ _ _ R)) as Hdat.
  split; [eapply touched_weaken; [|exact T]; unfold range; lia|]. split; [exact Hoffs|].
  assert (Hoff : off_at b s' (length objs) = off) by by apply Hoffs.
  split; [|destruct (ar_sg _ _ _ R); by split]. apply (placed_snoc b N s' st next objs x P' Hk).
  - rewrite Hoff. by apply Hd, Hv.
  - rewrite Hoff. exact Hmin.
  - rewrite Hoff, Hx. exact next_min.
  - apply (sound_snoc _ _ _ (pl_sound _ _ _ _ _ P')); [simpl; lia| |].
    + intros p st0 e. rewrite Hslot. discriminate.
    + intros sgo len par ->. by destruct (Hptr sgo len par).
  - intros sgo len p po sgp lenp parp ->. by destruct (Hptr sgo len (Some (p, po))).
  - destruct (pl_last _ _ _ _ _ P') as [H|(j & Hj & Hp)]; [by left|right]. exists j. split; [exact Hj|].
    apply (on_path_plain _ _ _ (pl_sound _ _ _ _ _ P') _ _ _ Hp Hslot).
Qed.
(** A binder or a handle. *)
Lemma flat_round ht : t = FlatObject ht -> graph_ready env (t_graph S) ->
  exists rv ok S', translate_flat env id ht off o S = Some ((rv, ok), S') /\
    round_done S st objs (if ok : bool then Next next else Fail rv) S'.
Proof.
  intros Et G. unfold translate_flat. erewrite bind_eq by reflexivity.
  destruct (flat_runs env ht (get_flat ht o) (t_graph S) (ar_graph _ _ _ R) G) as (rv & fp' & g & E & I & Hrv).
  erewrite bind_eq by (apply on_graph_eq, E). cbn [fst snd].
  destruct Hrv as [->|Hneg].
  2:{ rewrite (proj2 (Z.ltb_lt rv 0)) by done. exists rv, false, (set_graph g S). split; [done|].
      exists (t_alloc S), g, []. rewrite add_fixups_nil. split; [by destruct S|].
      split; [apply touched_refl, (access_pages _ id b), R|]. split; [exact I|]. split; [done|]. split; [done|apply R]. }
  change (0 <? 0) with false. cbv iota.
  destruct Ho as [Hl _]. destruct (put_flat_written fp' o Hl) as [Hl' Hty].
  destruct (plain_written (FlatObject (BinderTranslate.hdr fp')) (put_flat fp' o) OFlat Hl' Hty) as (al & Ew & T & Hoffs & P' & Hsg);
    [by rewrite Et|by rewrite Et|done|discriminate|intros s' Hv; by eexists|].
  rewrite Et in Ew.
  erewrite bind_eq by (apply (on_alloc_eq _ (set_graph g S)), Ew). exists 0, true, (set_alloc al (set_graph g S)). split; [done|].
  exists al, g, []. rewrite add_fixups_nil. split; [done|]. split; [exact T|]. split; [exact I|]. split; [exact Hoffs|].
  exists OFlat. split; [exact P'|]. split; [exact Hsg|done].
Qed.

(** A descriptor. *)
Lemma fd_round : t = FdObject -> target_there env b (t_graph S) ->
  exists r S', translate_fd_object env id off o next S = Some (r, S') /\ round_done S st objs r S'.
Proof.
  intros Et Htt. destruct off_bounds as (B1 & B2 & B3 & B4 & B5 & B6). unfold translate_fd_object.
  destruct (translate_fd_eq env id b S (fdo_fd o) (u64 (off + OFFSETOF_FD)) (ar_access _ _ _ R) Htt) as (rv & l & E & Hl).
  erewrite bind_eq by exact E. cbv zeta. destruct (Z.ltb_spec rv 0) as [Hneg|Hpos].
  { exists (Fail rv), (add_fixups l S). split; [done|]. by apply round_quiet. }
  destruct Hl as [[? _]|(_ & file & _ & ->)]; [lia|]. destruct Ho as [Hlen _].
  assert (Hty : type_of (obj_type (set_field 8 8 0 o)) = Some FdObject).
  { unfold obj_type. rewrite field_set_other by (rewrite ?Hlen; lia). rewrite <- Et. exact (read_type s b off t _ o B1 Ho Ht). }
  destruct (plain_written FdObject (set_field 8 8 0 o) OFd) as (al & Ew & T & Hoffs & P' & Hsg);
    [rewrite set_field_length; rewrite ?Hlen; done || lia|done|by rewrite Et|by rewrite Et|done|discriminate|done|].
  rewrite Et in Ew. erewrite bind_eq by (apply (on_alloc_eq _ (add_fixups _ S)), Ew).
  eexists (Next next), _. split; [done|].
  exists al, (t_graph S), [(file, u64 (off + OFFSETOF_FD))]. split; [by destruct S|]. split; [exact T|].
  split; [apply R|]. split; [exact Hoffs|]. exists OFd. split; [exact P'|]. split; [exact Hsg|].
  simpl. rewrite Hoffs by done. rewrite Et in B2. simpl in B2. unfold OFFSETOF_FD.
  rewrite u64_small by (unfold is_u64, two64; lia). done.
Qed.

(** A member of the object in hand. *)
Lemma member m k : Z.of_nat (k + m) <= object_sizeof t -> field m k o = word s b m (off + Z.of_nat k).
Proof. intros H. by apply (read_field s b off t (object_sizeof t) o m k); [apply off_bounds|..]. Qed.

Lemma placed_bound p sgp lenp parp : objs !! p = Some (OPtr sgp lenp parp) ->
  0 <= sgp /\ 0 <= lenp /\ sgp + lenp <= bsize s id /\ is_u64 lenp /\ sgp mod 8 = 0.
Proof.
  intros Hp. destruct (so_space _ _ _ (pl_sound _ _ _ _ _ (ar_placed _ _ _ R)) p _ _ _ Hp) as (H1 & H2 & H3 & H4).
  destruct off_bounds as (B1 & B2 & B3 & B4 & B5 & B6). pose proof (object_sizeof_range t).
  pose proof (sr_end _ _ _ _ (ar_sg _ _ _ R)). unfold sg_start in H1. unfold is_u64, two64. lia.
Qed.

(** The descriptors of an array that its parent has room for. *)
Lemma fd_array_eq parent p sgp lenp parp : objs !! p = Some (OPtr sgp lenp parp) -> bbo_buffer parent = user_data b + sgp ->
  bbo_length parent = lenp -> target_there env b (t_graph S) ->
  exists r l, binder_translate_fd_array env id o parent S = Some (r, add_fixups l S) /\
    (r < 0 \/ r = 0 /\ fda_parent_offset o + 4 * fda_num_fds o <= lenp /\ fda_parent_offset o mod 4 = 0 /\
       snd <$> l = (fun j => sgp + fda_parent_offset o + 4 * Z.of_nat j) <$> seq 0 (Z.to_nat (fda_num_fds o))).
Proof.
  intros Hp Hb Hl Htt. destruct (placed_bound p sgp lenp parp Hp) as (S1 & S2 & S3 & S4 & S5).
  pose proof (rm_small _ _ _ (Hroomy _ (ar_access _ _ _ R))) as Hsm. fold s in Hsm.
  unfold binder_translate_fd_array. destruct (fds_fit o parent) eqn:Hfit; cbn [negb].
  2:{ exists (- EINVAL), []. rewrite add_fixups_nil. split; [done|by left]. }
  apply fds_fit_spec in Hfit; [|apply (le_read_u64 _)|by rewrite Hl|apply (le_read_u64 _)]. rewrite Hl in Hfit.
  assert (Hpo : is_u64 (fda_parent_offset o)) by apply (le_read_u64 _).
  assert (Hnum : is_u64 (fda_num_fds o)) by apply (le_read_u64 _).
  set (po := fda_parent_offset o) in *. set (num := fda_num_fds o) in *. unfold is_u64 in Hpo, Hnum.
  erewrite bind_eq by apply on_alloc_read, (buf_eq _ id b), R. rewrite Hb.
  replace (user_data b + sgp - user_data b + po) with (sgp + po) by lia.
  rewrite u64_small by (unfold is_u64, two64; lia).
  destruct (IS_ALIGNED (sgp + po) 4) eqn:Hal; cbn [negb].
  2:{ exists (- EINVAL), []. rewrite add_fixups_nil. split; [done|by left]. }
  destruct (translate_fds_eq env id b (fun S => Hroomy (t_alloc S)) (sgp + po)) with (n := Z.to_nat num) (S := S) (i := 0%nat)
    as (r & l & E & H); [lia|by apply is_aligned4|apply R|exact Htt|fold s; lia|].
  exists r, l. split; [exact E|]. destruct H as [H|[-> H]]; [by left|right]. split; [done|]. split; [exact Hfit|].
  split; [|exact H]. apply is_aligned4 in Hal. clear -Hal S5. apply Z.mod_divide in Hal as [i E1]; [|done].
  apply Z.mod_divide in S5 as [j E2]; [|done]. replace po with ((i - 2 * j) * 4) by lia. by apply Z.mod_mul.
Qed.

(** An array of descriptors. *)
Lemma fda_round : t = FdArrayObject -> target_there env b (t_graph S) ->
  exists r S', translate_fda_object env id (off_start b) (Z.of_nat (length objs)) o next S = Some (r, S') /\ round_done S st objs r S'.
Proof.
  intros Et Htt. pose proof (ar_access _ _ _ R) as A. pose proof (ar_placed _ _ _ R) as P. pose proof (Hroomy _ A) as Hr.
  assert (Hsz : object_sizeof t = 32) by by rewrite Et.
  unfold translate_fda_object.
  destruct (validate_ptr_placed (t_alloc S) id b N A Hr HN st objs P (stack_object env) (fda_parent o) (eo_stack _ Eo) (le_read_u64 _))
    as (r & E & Hres).
  erewrite bind_eq by apply on_alloc_read, E. destruct r as [[parent poff]|].
  2:{ exists (Fail (- EINVAL)), S. split; [done|]. by apply round_failed. }
  destruct Hres as (p & sgp & lenp & parp & Hidx & -> & Hobj & Hb & Hl).
  destruct (validate_fixup_slot (t_alloc S) id b N A Hr HN st objs P (Datatypes.S (Z.to_nat (Z.of_nat (length objs)))) (stack_object env) p
    (fda_parent_offset o) (eo_stack _ Eo)) as (r & E2 & Hok); [lia|by eapply lookup_lt_Some|].
  erewrite bind_eq by apply on_alloc_read, E2. destruct r; cbn [negb].
  2:{ exists (Fail (- EINVAL)), S. split; [done|]. by apply round_failed. }
  destruct (Hok eq_refl) as (M & Hpath & HM).
  destruct (fd_array_eq parent p sgp lenp parp Hobj Hb Hl Htt) as (r & l & E3 & Hr3). erewrite bind_eq by exact E3.
  destruct (Z.ltb_spec r 0) as [Hneg|Hpos].
  { exists (Fail r), (add_fixups l S). split; [done|]. by apply round_quiet. }
  destruct Hr3 as [?|(-> & Hfit & Hpo4 & Hoffs)]; [lia|].
  destruct (placed_bound p sgp lenp parp Hobj) as (S1 & S2 & S3 & S4 & S5).
  pose proof (le_read_u64 (drop 24 o)) as Hpo. pose proof (le_read_u64 (drop 8 o)) as Hnum.
  fold (field 8 24 o) in Hpo. fold (field 8 8 o) in Hnum. fold (fda_parent_offset o) in Hpo. fold (fda_num_fds o) in Hnum.
  set (po := fda_parent_offset o) in *. set (num := fda_num_fds o) in *. unfold is_u64 in Hpo, Hnum.
  rewrite (u64_small (po + 4 * num)) by (unfold is_u64 in *; lia).
  eexists (Next _), (add_fixups l S). split; [reflexivity|].
  exists (t_alloc S), (t_graph S), l. rewrite set_alloc_same, set_graph_same. split; [done|].
  split; [apply touched_refl, (access_pages _ id b), A|]. split; [apply R|]. split; [done|].
  exists (OFda p po num). split.
  2:{ split; [destruct (ar_sg _ _ _ R); by split|]. cbn [fd_offsets]. by rewrite Hobj, Hoffs. }
  apply (placed_snoc b N (t_alloc S) st _ objs _ P Hk).
  - split; [by rewrite <- Et|]. fold s off.
    assert (H8 : word s b 8 (off + 8) = num) by (symmetry; apply (member 8 8); rewrite Hsz; simpl; lia).
    assert (H16 : word s b 8 (off + 16) = fda_parent o) by (symmetry; apply (member 8 16); rewrite Hsz; simpl; lia).
    assert (H24 : word s b 8 (off + 24) = po) by (symmetry; apply (member 8 24); rewrite Hsz; simpl; lia).
    rewrite H8, H16, H24. split; [reflexivity|]. split; [exact Hidx|]. split; [reflexivity|exact Hpo4].
  - exact Hmin.
  - simpl. fold s off. rewrite <- Hsz. exact next_min.
  - apply (sound_snoc _ _ _ (pl_sound _ _ _ _ _ P)); [simpl; lia| |discriminate].
    intros p' st0 e [= <- <- <-]. exists M, sgp, lenp, parp. split; [exact Hpath|]. split; [exact HM|]. split; [exact Hobj|]. lia.
  - intros ? ? ? ? ? ? ? [=].
  - right. exists p. split; [done|]. cbn [last_fixup_min_off].
    apply (on_path_slot _ _ _ (pl_sound _ _ _ _ _ P) _ p M po); [exact Hpath|done|exact HM|lia].
Qed.

(** ** A buffer object *)

Let sg := sg_buf_offset st.
Let len := bbo_length o.
Let bp := set_field 8 8 (user_data b + sg) o.

(** What the object says of its parent, in terms of the objects placed. *)
Definition parent_is (par : option (nat * Z)) : Prop :=
  match par with
  | None => has_parent o = false
  | Some (p, po) => has_parent o = true /\ bbo_parent o = Z.of_nat p /\ bbo_parent_offset o = po
  end.

Lemma sg_bounds : t = PtrObject -> data_size b <= sg /\ sg <= sg_end /\ sg mod 8 = 0 /\ sg_start b N <= sg /\ is_u64 (user_data b + sg).
Proof.
  intros Et. destruct off_bounds as (B1 & B2 & B3 & B4 & B5 & B6). destruct (ar_sg _ _ _ R).
  pose proof (rm_base _ _ _ (Hroomy _ (ar_access _ _ _ R))) as (U1 & U2 & _). change (t_alloc S) with s in U2.
  pose proof (object_sizeof_range t). unfold sg, is_u64, two64. unfold sg_start in *. lia.
Qed.

Lemma copied_room : len <= sg_end - sg -> t = PtrObject ->
  u64 (sg + ALIGN len 8) = sg + up8 len /\ sg + len <= sg + up8 len /\ sg + up8 len <= sg_end /\ (sg + up8 len) mod 8 = 0.
Proof.
  intros Hlen Et. destruct (sg_bounds Et) as (G1 & G2 & G3 & G4 & G5). destruct off_bounds as (B1 & B2 & B3 & B4 & B5 & B6).
  assert (Hlu : is_u64 len) by apply (le_read_u64 _). destruct (up8_spec len) as [U1 U2]. pose proof (object_sizeof_range t).
  assert (Hu : up8 len <= sg_end - sg).
  { clear -Hlen U1 U2 G3 Hse8. apply Z.mod_divide in U1 as [k E1]; [|done]. apply Z.mod_divide in G3 as [j E2]; [|done].
    apply Z.mod_divide in Hse8 as [i E3]; [|done]. lia. }
  unfold is_u64, two64 in *. change (ALIGN len 8) with (ALIGN len SIZEOF_PTR). rewrite (ALIGN_ptr len Hlu).
  rewrite (u64_small (up8 len)) by (unfold is_u64, two64; lia). split; [apply u64_small; unfold is_u64, two64; lia|].
  split; [lia|]. split; [lia|]. rewrite Z.add_mod, G3, U1 by done. reflexivity.
Qed.

Lemma bp_fields : t = PtrObject -> length bp = 40%nat /\ type_of (obj_type bp) = Some PtrObject /\ bbo_buffer bp = user_data b + sg /\
  bbo_length bp = len /\ bbo_flags bp = bbo_flags o /\ bbo_parent bp = bbo_parent o /\ bbo_parent_offset bp = bbo_parent_offset o.
Proof.
  intros Et. destruct (sg_bounds Et) as (_ & _ & _ & _ & Hu). pose proof (proj1 Ho) as Hl. unfold bp.
  split; [rewrite set_field_length; rewrite ?Hl; done || lia|].
  unfold obj_type, bbo_buffer, bbo_length, bbo_flags, bbo_parent, bbo_parent_offset, len, bbo_length.
  rewrite field_set_same, !field_set_other by (rewrite ?Hl; lia).
  split; [rewrite <- Et; exact (read_type s b off t _ o (proj1 off_bounds) Ho Ht)|]. split; [by apply Z.mod_small|]. done.
Qed.

(** The object itself, once its copy and its parent's slot are in place. *)
Lemma ptr_placed s2 par : t = PtrObject -> len <= sg_end - sg -> access s2 id b -> placed b N s2 st objs ->
  off_at b s2 (length objs) = off -> valid_object s2 b off = Some PtrObject -> parent_is par ->
  (forall p po, par = Some (p, po) -> exists M sgp lenp parp, objs !! p = Some (OPtr sgp lenp parp) /\ on_path objs p M /\
     M <= po /\ po + 8 <= lenp /\ 0 <= po /\ word s2 b 8 (sgp + po) = user_data b + sg) ->
  exists s3, binder_alloc_copy_to_buffer id off bp 40 s2 = Some (0, s3) /\ touched (range s2 b off 40) s2 s3 /\
    (forall i, (i < N)%nat -> off_at b s3 i = off_at b s2 i) /\
    placed b N s3 (Loop (off + 40) (sg + up8 len) off 0) (objs ++ [OPtr sg len par]).
Proof.
  intros Et Hlen A2 P2 Hoff Hv2 Hpar Hslot. destruct off_bounds as (B1 & B2 & B3 & B4 & B5 & B6). pose proof (Hroomy _ A2) as Hr2.
  destruct (copied_room Hlen Et) as (_ & R1 & R2 & R3). destruct (sg_bounds Et) as (G1 & G2 & G3 & G4 & G5).
  destruct (bp_fields Et) as (Hl & Hty & F1 & F2 & F3 & F4 & F5). rewrite Et in B2. simpl in B2.
  destruct (rewrite_object s2 id b N A2 Hr2 off PtrObject bp Hv2 B1 Hl) as (s3 & E & [T Hw Hvw]). simpl object_sizeof in *.
  assert (HW : forall y, range s2 b off 40 y -> range s2 b (off_min st) (data_size b - off_min st) y) by (unfold range; lia).
  destruct (placed_data s2 id b N Hr2 st objs P2 _ s3 T HW) as [P3 Hoffs]. exists s3. split; [exact E|]. split; [exact T|].
  split; [exact Hoffs|]. pose proof (Hoffs _ Hk) as Hoff3. rewrite Hoff in Hoff3. pose proof (pl_data _ _ _ _ _ P2) as Hdat.
  assert (Hlu : 0 <= len) by apply (le_read_u64 (drop 16 o)).
  assert (Hnew : forall p po, par = Some (p, po) -> exists M, on_path objs p M /\ M <= po).
  { intros p po Ep. destruct (Hslot p po Ep) as (M & ? & ? & ? & _ & HM & Hle & _). by exists M. }
  assert (W8 : word s3 b 8 (off + 8) = user_data b + sg) by (rewrite <- F1; apply (Hw 8%nat 8%nat); simpl; lia).
  assert (W16 : word s3 b 8 (off + 16) = len) by (rewrite <- F2; apply (Hw 8%nat 16%nat); simpl; lia).
  assert (W4 : word s3 b 4 (off + 4) = bbo_flags o) by (rewrite <- F3; apply (Hw 4%nat 4%nat); simpl; lia).
  assert (W24 : word s3 b 8 (off + 24) = bbo_parent o) by (rewrite <- F4; apply (Hw 8%nat 24%nat); simpl; lia).
  assert (W32 : word s3 b 8 (off + 32) = bbo_parent_offset o) by (rewrite <- F5; apply (Hw 8%nat 32%nat); simpl; lia).
  apply (placed_snoc b N s3 st _ objs _ P3 Hk).
  - rewrite Hoff3. split; [by apply Hvw|]. split; [exact W8|]. split; [exact W16|].
    unfold parent_is, has_parent in Hpar. destruct par as [[p po]|].
    + destruct Hpar as (Hf & Hp & Hpo). apply negb_true_iff, Z.eqb_neq in Hf. rewrite W4, W24, W32. split; [exact Hf|]. split; [exact Hp|exact Hpo].
    + apply negb_false_iff, Z.eqb_eq in Hpar. rewrite W4. exact Hpar.
  - rewrite Hoff3. exact Hmin.
  - rewrite Hoff3. reflexivity.
  - apply (sound_snoc _ _ _ (pl_sound _ _ _ _ _ P3)); cbn [sg_buf_offset]; [fold sg; lia| |].
    + intros p st0 e Hs. destruct par as [[p' po]|]; [|discriminate Hs]. injection Hs as -> <- <-.
      destruct (Hslot p po eq_refl) as (M & sgp & lenp & parp & Hobj & HM & Hle & Hin & H0 & _). exists M, sgp, lenp, parp.
      split; [exact HM|]. split; [exact Hle|]. split; [exact Hobj|]. lia.
    + intros ? ? ? [= <- <- <-]. fold sg. lia.
  - intros sgo len' p po sgp lenp parp [= <- <- ->] Hobj.
    destruct (Hslot p po eq_refl) as (M & sgp' & lenp' & parp' & Hobj' & _ & _ & Hin & H0 & Hword).
    rewrite Hobj in Hobj'. injection Hobj' as <- <- <-. rewrite <- Hword.
    pose proof (so_space _ _ _ (pl_sound _ _ _ _ _ P2) p _ _ _ Hobj) as (Hsp & _). unfold sg_start in Hsp.
    apply (word_frame _ _ _ _ _ _ T); [lia|]. intros y Y1 Y2. unfold range in Y1, Y2. lia.
  - right. exists (length objs). split; [exact Hoff3|]. by apply (on_path_new _ _ _ (pl_sound _ _ _ _ _ P3)).
Qed.

(** The copy of the sender's bytes, or of as many as could be read. *)
Lemma copy_round : t = PtrObject -> len <= sg_end - sg ->
  exists e s1, copy_in env id sg (bbo_buffer o) len S = Some (e, set_alloc s1 S) /\
    touched (range s b sg len) s s1 /\ access s1 id b /\ placed b N s1 st objs /\
    (forall i, (i < N)%nat -> off_at b s1 i = off_at b s i) /\ valid_object s1 b off = Some t /\
    touched (range s b 0 (bsize s id)) s s1.
Proof.
  intros Et Hlen. destruct off_bounds as (B1 & B2 & B3 & B4 & B5 & B6). destruct (sg_bounds Et) as (G1 & G2 & G3 & G4 & G5).
  assert (Hlu : 0 <= len) by apply (le_read_u64 (drop 16 o)). pose proof (object_sizeof_range t).
  assert (Ha : sg mod 4 = 0).
  { clear -G3. apply Z.mod_divide in G3 as [k ->]; [|done]. replace (k * 8) with (k * 2 * 4) by lia. by apply Z.mod_mul. }
  destruct (copy_user_eq s id b (ar_access _ _ _ R) (Hroomy _ (ar_access _ _ _ R)) sg len (user_mem env (bbo_buffer o) len)
    (fun at_ n => not_copied env (bbo_buffer o + at_) n)) as (e & s1 & E & _ & T & _); [lia|exact Hlu|lia|exact Ha| | |].
  { unfold user_mem. rewrite length_fmap, length_seq. lia. } { intros a m Hm. by apply Eo. }
  assert (HW : forall y, range s b sg len y -> Z.of_nat (base_off s b) + sg_buf_offset st <= Z.of_nat y) by (unfold range, sg; lia).
  destruct (placed_extra s id b N (Hroomy _ (ar_access _ _ _ R)) st objs (ar_placed _ _ _ R) _ s1 T HW G4) as [P1 Hoffs].
  exists e, s1. split; [by apply on_alloc_eq|]. split; [exact T|]. split; [by apply (access_touched _ _ _ _ _ (ar_access _ _ _ R) T)|].
  split; [exact P1|]. split; [exact Hoffs|]. split.
  - rewrite <- Ht. apply (valid_object_frame _ _ _ _ _ T B1). unfold range. intros y Y1 Y2. lia.
  - eapply touched_weaken; [|exact T]. unfold range. lia.
Qed.

(** The end of the round, after the parent's slot. *)
Lemma ptr_finish s1 s2 par : t = PtrObject -> len <= sg_end - sg -> touched (range s b 0 (bsize s id)) s s1 ->
  (forall i, (i < N)%nat -> off_at b s1 i = off_at b s i) ->
  access s2 id b -> touched (range s1 b 0 (bsize s1 id)) s1 s2 -> placed b N s2 st objs ->
  (forall i, (i < N)%nat -> off_at b s2 i = off_at b s1 i) -> valid_object s2 b off = Some PtrObject -> parent_is par ->
  (forall p po, par = Some (p, po) -> exists M sgp lenp parp, objs !! p = Some (OPtr sgp lenp parp) /\ on_path objs p M /\
     M <= po /\ po + 8 <= lenp /\ 0 <= po /\ word s2 b 8 (sgp + po) = user_data b + sg) ->
  exists r S', (let! e := put_object id off bp 40 in
     ret (if e =? 0 then Next (Loop (off_min next) (sg + up8 len) off 0) else Fail 0)) (set_alloc s2 (set_alloc s1 S)) = Some (r, S') /\
    round_done S st objs r S'.
Proof.
  intros Et Hlen TW1 O1 A2 T2 P2 O2 V2 Hpar Hslot. destruct (sg_bounds Et) as (G1 & G2 & G3 & G4 & G5).
  destruct off_bounds as (B1 & B2 & B3 & B4 & B5 & B6). destruct (copied_room Hlen Et) as (_ & R1 & R2 & R3).
  assert (Hsz : object_sizeof t = 40) by by rewrite Et. assert (Hlu : 0 <= len) by apply (le_read_u64 (drop 16 o)).
  assert (Hb1 : bsize s1 id = bsize s id) by exact (touched_bsize _ _ _ id TW1).
  assert (Hoff2 : off_at b s2 (length objs) = off) by by rewrite O2, O1.
  destruct (ptr_placed s2 par Et Hlen A2 P2 Hoff2 V2 Hpar Hslot) as (s3 & E3 & T3 & O3 & P3).
  erewrite bind_eq by apply (on_alloc_eq _ (set_alloc s2 (set_alloc s1 S))), E3.
  eexists (Next _), _. split; [reflexivity|]. exists s3, (t_graph S), []. rewrite add_fixups_nil. split; [by destruct S|].
  rewrite Hb1 in T2. assert (HR : forall y, range s1 b 0 (bsize s id) y -> range s b 0 (bsize s id) y).
  { intros y. apply (touched_range _ _ _ _ _ _ y TW1). }
  split.
  { eapply touched_trans; [exact TW1|]. eapply touched_trans; [eapply touched_weaken; [exact HR|exact T2]|].
    eapply touched_weaken; [|exact T3]. intros y Y. apply HR, (touched_range _ _ _ _ _ _ y T2). revert Y. unfold range. simpl. lia. }
  split; [apply R|]. split; [intros i Hi; by rewrite O3, O2, O1|]. exists (OPtr sg len par).
  split; [|split; [split; cbn [sg_buf_offset]; [lia|exact R2|exact R3]|done]].
  replace (off_min next) with (off + 40) by (unfold next; cbn [off_min]; rewrite next_min, Et; done). exact P3.
Qed.

Lemma ptr_round : t = PtrObject ->
  exists r S', translate_ptr_object env id (off_start b) sg_end (Z.of_nat (length objs)) off o next S = Some (r, S') /\ round_done S st objs r S'.
Proof.
  intros Et. destruct off_bounds as (B1 & B2 & B3 & B4 & B5 & B6). destruct (sg_bounds Et) as (G1 & G2 & G3 & G4 & G5).
  assert (Hsz : object_sizeof t = 40) by by rewrite Et. assert (Hlu : 0 <= len) by apply (le_read_u64 (drop 16 o)).
  unfold translate_ptr_object. change (sg_buf_offset next) with sg. fold len.
  rewrite (u64_small (sg_end - sg)) by (unfold is_u64, two64; lia). cbv zeta.
  destruct (Z.ltb_spec (sg_end - sg) len) as [Hbig|Hlen].
  { exists (Fail (- EINVAL)), S. split; [done|]. by apply round_failed. }
  destruct (copy_round Et Hlen) as (e & s1 & E & T1 & A1 & P1 & O1 & V1 & TW1). erewrite bind_eq by exact E.
  destruct (negb (e =? 0)).
  { exists (Fail (- EFAULT)), (set_alloc s1 S). split; [done|]. exists s1, (t_graph S), []. rewrite add_fixups_nil.
    split; [by destruct S|]. split; [exact TW1|]. split; [apply R|]. split; [exact O1|]. split; [done|exact P1]. }
  erewrite bind_eq by apply on_alloc_read, (buf_eq s1 id b A1). rewrite (u64_small (user_data b + sg)) by exact G5. fold bp.
  destruct (copied_room Hlen Et) as (Esg & R1 & R2 & R3).
  destruct (bp_fields Et) as (Hl & _ & F1 & F2 & F3 & F4 & F5). pose proof (Hroomy _ A1) as Hr1. rewrite F2, Esg.
  assert (Hb1 : bsize s1 id = bsize s id) by exact (touched_bsize _ _ _ id T1).
  destruct (fixup_parent_eq s1 id b N A1 Hr1 HN st objs P1 ltac:(rewrite Hb1; unfold sg in *; lia) (stack_object env) bp (eo_stack _ Eo)
    (le_read_u64 _) (le_read_u64 _) (le_read_u64 _)) as (rv & s2 & E2 & Hres).
  erewrite bind_eq by apply (on_alloc_eq _ (set_alloc s1 S)), E2.
  destruct Hres as [(Hno & -> & ->)|[(Hneg & ->)|(Hyes & -> & p & M & sgp & lenp & parp & Hidx & Hobj & Hpath & HM & Hin & T2 & Hword)]].
  - apply (ptr_finish s1 s1 None); try done; [apply touched_refl, (access_pages _ id b), A1|by rewrite <- Et|].
    unfold parent_is, has_parent in *. by rewrite <- F3.
  - rewrite (proj2 (Z.ltb_lt rv 0)) by done. exists (Fail rv), (set_alloc s1 (set_alloc s1 S)). split; [done|].
    exists s1, (t_graph S), []. rewrite add_fixups_nil. split; [by destruct S|]. split; [exact TW1|]. split; [apply R|].
    split; [exact O1|]. split; [done|exact P1].
  - assert (Hpo : 0 <= bbo_parent_offset bp) by apply (le_read_u64 (drop 32 bp)).
    destruct (placed_slot s1 id b N Hr1 st objs P1 s2 p M (bbo_parent_offset bp) sgp lenp parp Hpath HM Hobj Hpo Hin T2) as [P2 O2].
    destruct (placed_bound p sgp lenp parp Hobj) as (S1 & S2 & S3 & S4 & S5).
    pose proof (so_space _ _ _ (pl_sound _ _ _ _ _ P1) p _ _ _ Hobj) as (Hsp & _). unfold sg_start in Hsp.
    apply (ptr_finish s1 s2 (Some (p, bbo_parent_offset bp))); [done..|by apply (access_touched _ _ _ _ _ A1 T2)| |exact P2|exact O2| | |].
    + eapply touched_weaken; [|exact T2]. rewrite Hb1. unfold range. lia.
    + rewrite <- Et, <- V1. apply (valid_object_frame _ _ _ _ _ T2 B1). unfold range. intros y Y1 Y2. lia.
    + unfold parent_is, has_parent in *. rewrite <- F3, <- F4, <- F5. done.
    + intros p' po [= <- <-]. exists M, sgp, lenp, parp. rewrite Hword. split_and!; done.
Qed.

End object.
End round.
