(* ===== verification/BinderObjectsRun.v ===== *)
(** * The loop over the offsets

    The rounds put together: the loop ends, and every object it has passed is
    in place.  The fix-ups of descriptors are those of the objects placed, in
    their order. *)

From Stdlib Require Import ZArith Lia.
From stdpp Require Import base option gmap sets list.
From S2P Require Import Prelude RbTree BinderAlloc BinderAllocFacts BinderAllocInv BinderAllocCopy.
From S2P Require Import BinderNode BinderNodeFacts BinderNodeInv BinderNodeOps BinderNodeRef BinderTranslate BinderTranslateFacts.
From S2P Require Import BinderObjects BinderObjectsMem BinderObjectsFacts BinderObjectsPath.
From S2P Require Import BinderObjectsLoop BinderObjectsFixup BinderObjectsPlace BinderObjectsTxn BinderObjectsRound.

(** ** The descriptors of all objects *)

Definition fd_slots (b : binder_buffer) (s : binder_alloc) (objs : list obj) : list Z :=
  concat (imap (fd_offsets b s objs) objs).

Lemma fd_offsets_same b s s' objs i x : off_at b s' i = off_at b s i -> fd_offsets b s' objs i x = fd_offsets b s objs i x.
Proof. intros E. destruct x; simpl; by rewrite ?E. Qed.

Lemma fd_offsets_grow b s objs y i x : (forall p po num, x = OFda p po num -> (p < length objs)%nat) ->
  fd_offsets b s (objs ++ [y]) i x = fd_offsets b s objs i x.
Proof. intros Hp. destruct x as [| | |p po num]; try done. simpl. by rewrite lookup_app_l by by eapply Hp. Qed.

Lemma fd_slots_snoc b N s sg0 sg objs x : sound_objs sg0 sg (objs ++ [x]) -> (length objs < N)%nat ->
  fd_slots b s (objs ++ [x]) = fd_slots b s objs ++ fd_offsets b s objs (length objs) x.
Proof.
  intros So HN. unfold fd_slots. rewrite imap_app, concat_app. simpl. rewrite app_nil_r, Nat.add_0_r.
  assert (Hp : forall i y, (objs ++ [x]) !! i = Some y -> forall p po num, y = OFda p po num -> (p < length objs)%nat).
  { intros i y Hi p po num ->. destruct (so_parent _ _ _ So i _ p po (po + 4 * num) Hi eq_refl) as [Hlt _].
    pose proof (lookup_lt_Some _ _ _ Hi) as Hi'. rewrite length_app in Hi'. simpl in Hi'. lia. }
  f_equal; [f_equal|].
  - apply imap_ext. intros i y Hy. apply fd_offsets_grow. apply (Hp i). by apply lookup_snoc_old.
  - apply fd_offsets_grow. apply (Hp (length objs)). by rewrite lookup_app_r, Nat.sub_diag by lia.
Qed.

Lemma fd_slots_same b s s' objs : (forall i, (i < length objs)%nat -> off_at b s' i = off_at b s i) -> fd_slots b s' objs = fd_slots b s objs.
Proof.
  intros E. unfold fd_slots. f_equal. apply imap_ext. intros i y Hy. apply fd_offsets_same, E. by eapply lookup_lt_Some.
Qed.

(** ** What a run needs of its surroundings *)

Definition round_ready (env : txn_env) (b : binder_buffer) (S : txn) : Prop :=
  graph_ready env (t_graph S) /\ target_there env b (t_graph S).

Section run.
Context `{RB : Rbtree} {RBL : RbtreeLaws}.

(** The surroundings are ready at each round the run comes to. *)
Fixpoint run_ready (n : nat) (env : txn_env) (id : nat) (b : binder_buffer) (off_start_offset sg_end buffer_offset : Z)
    (st : loop_state) (S : txn) : Prop :=
  match n with
  | O => True
  | Datatypes.S n =>
    round_ready env b S /\
    match translate_round env id off_start_offset sg_end buffer_offset st S with
    | Some (Next st', S') => run_ready n env id b off_start_offset sg_end (u64 (buffer_offset + 8)) st' S'
    | _ => True
    end
  end.

Context (env : txn_env) (Eo : env_ok env) (id : nat) (b : binder_buffer) (N : nat) (HN : offsets_size b = 8 * Z.of_nat N).
Context (Hroomy : forall s, access s id b -> roomy s id b) (sg_end : Z) (Hse8 : sg_end mod 8 = 0).

Lemma buffer_offset_u64 S k : access (t_alloc S) id b -> (k <= N)%nat ->
  u64 (off_start b + 8 * Z.of_nat k) = off_start b + 8 * Z.of_nat k.
Proof.
  intros A Hk. destruct (offsets_fit _ id b N (Hroomy _ A) HN) as (? & ? & ?). pose proof (rm_small _ _ _ (Hroomy _ A)).
  pose proof (up8_spec (extra_buffers_size b)). pose proof (rm_extra _ _ _ (Hroomy _ A)). apply u64_small. unfold is_u64, two64. lia.
Qed.

(** One round. *)
Lemma translate_round_done S st objs : at_round id b N sg_end S st objs -> (length objs < N)%nat -> round_ready env b S ->
  exists r S', translate_round env id (off_start b) sg_end (off_start b + 8 * Z.of_nat (length objs)) st S = Some (r, S') /\
    round_done id b N sg_end S st objs r S'.
Proof.
  intros R Hk [G Htt]. pose proof (ar_access _ _ _ _ _ _ _ R) as A. unfold translate_round.
  destruct (read_off_at _ id b N A (Hroomy _ A) HN (length objs) Hk) as (l & El & Hw). rewrite (buffer_offset_u64 S) in El by (done || lia).
  erewrite bind_eq by apply on_alloc_read, El. cbn [fst snd negb Z.eqb]. rewrite Hw.
  destruct (get_object_eq _ id b A (Hroomy _ A) (off_at b (t_alloc S) (length objs)) (stack_object env) (off_at_u64 _ _ _) (eo_stack _ Eo))
    as (r & o & E & Ho).
  erewrite bind_eq by apply on_alloc_read, E.
  assert (Hfail : exists r S', Some (Fail (- EINVAL), S) = Some (r, S') /\ round_done id b N sg_end S st objs r S').
  { exists (Fail (- EINVAL)), S. split; [done|]. by apply round_failed. }
  destruct (valid_object (t_alloc S) b (off_at b (t_alloc S) (length objs))) as [t|] eqn:Ht.
  2:{ destruct Ho as [_ Ho]. rewrite Ht in Ho. subst r. exact Hfail. }
  pose proof (proj2 Ho) as Ho'. rewrite Ht in Ho'. destruct Ho' as [-> _]. pose proof (object_sizeof_range t).
  destruct (Z.eqb_spec (object_sizeof t) 0); [lia|]. cbn [orb].
  destruct (Z.ltb_spec (off_at b (t_alloc S) (length objs)) (off_min st)) as [Hlow|Hmin]; [exact Hfail|].
  rewrite (num_valid_eq _ id b N (Hroomy _ A) HN) by lia.
  rewrite (read_type _ b _ t _ o (proj1 (off_at_u64 b (t_alloc S) (length objs))) Ho Ht).
  destruct t as [ht| | |].
  - destruct (flat_round env id b N Hroomy sg_end S st objs R Hk _ o Ht Ho Hmin ht eq_refl G) as (rv & ok & S' & E2 & D).
    erewrite bind_eq by exact E2. cbn [fst snd]. by eexists _, S'.
  - by apply (fd_round env id b N Hroomy sg_end S st objs R Hk _ o Ht Ho Hmin eq_refl Htt).
  - by apply (ptr_round env Eo id b N HN Hroomy sg_end Hse8 S st objs R Hk _ o Ht Ho Hmin eq_refl).
  - by apply (fda_round env Eo id b N HN Hroomy sg_end S st objs R Hk _ o Ht Ho Hmin eq_refl Htt).
Qed.
(** Where the loop ends. *)
Definition run_done (S : txn) (objs : list obj) (res : option (Z * Z)) (st' : loop_state) (S' : txn) : Prop :=
  exists al g l objs', S' = add_fixups l (set_graph g (set_alloc al S)) /\
    touched (range (t_alloc S) b 0 (bsize (t_alloc S) id)) (t_alloc S) al /\ inv g /\
    (forall i, (i < N)%nat -> off_at b al i = off_at b (t_alloc S) i) /\
    placed b N al st' objs' /\ sg_room b N sg_end st' /\
    match res with
    | None => length objs' = N /\ fd_slots b al objs' = fd_slots b (t_alloc S) objs ++ (snd <$> l)
    | Some (e, failed_at) => e < 0 /\ failed_at = off_start b + 8 * Z.of_nat (length objs') /\ (length objs' < N)%nat
    end.

Lemma next_round S st objs st1 S1 : at_round id b N sg_end S st objs -> round_done id b N sg_end S st objs (Next st1) S1 ->
  exists x al g l, at_round id b N sg_end S1 st1 (objs ++ [x]) /\ S1 = add_fixups l (set_graph g (set_alloc al S)) /\
    touched (range (t_alloc S) b 0 (bsize (t_alloc S) id)) (t_alloc S) al /\
    (forall i, (i < N)%nat -> off_at b al i = off_at b (t_alloc S) i) /\ snd <$> l = fd_offsets b al objs (length objs) x.
Proof.
  intros R (al & g & l & -> & T & I & Ho & x & P & Hsg & Hl). exists x, al, g, l. split; [|done].
  pose proof (ar_access _ _ _ _ _ _ _ R) as A. split; simpl; [by apply (access_touched _ _ _ _ _ A T)| |exact P|exact Hsg|exact I].
  rewrite (touched_bsize _ _ _ id T). apply R.
Qed.

Lemma translate_loop_done : forall fuel S st objs, at_round id b N sg_end S st objs -> (length objs <= N)%nat ->
  (N - length objs < fuel)%nat ->
  run_ready (N - length objs) env id b (off_start b) sg_end (off_start b + 8 * Z.of_nat (length objs)) st S ->
  exists res st' S', translate_loop fuel env id (off_start b) (off_start b + 8 * Z.of_nat N) sg_end
      (off_start b + 8 * Z.of_nat (length objs)) st S = Some ((res, st'), S') /\ run_done S objs res st' S'.
Proof.
  induction fuel as [|fuel IH]; intros S st objs R Hk Hf Hrun; [lia|]. cbn [translate_loop].
  pose proof (ar_access _ _ _ _ _ _ _ R) as A. pose proof (ar_placed _ _ _ _ _ _ _ R) as P.
  assert (Hsame : forall l, add_fixups l (set_graph (t_graph S) (set_alloc (t_alloc S) S)) = add_fixups l S) by (intros l; by destruct S).
  destruct (Z.ltb_spec (off_start b + 8 * Z.of_nat (length objs)) (off_start b + 8 * Z.of_nat N)) as [Hlt|Hge].
  2:{ exists None, st, S. split; [done|]. exists (t_alloc S), (t_graph S), [], objs. rewrite Hsame, add_fixups_nil. split; [done|].
      split; [apply touched_refl, (access_pages _ id b), A|]. split; [apply R|]. split; [done|]. split; [exact P|].
      split; [apply R|]. split; [lia|]. by rewrite app_nil_r. }
  assert (Hk' : (length objs < N)%nat) by lia. replace (N - length objs)%nat with (Datatypes.S (N - Datatypes.S (length objs))) in Hrun by lia.
  destruct Hrun as [Hready Hrun]. destruct (translate_round_done S st objs R Hk' Hready) as (r & S1 & E & D).
  erewrite bind_eq by exact E. rewrite E in Hrun. destruct r as [st1|e].
  2:{ exists (Some (e, off_start b + 8 * Z.of_nat (length objs))), st, S1. split; [done|].
      destruct D as (al & g & l & -> & T & I & Ho & He & P1). exists al, g, l, objs. split; [done|]. split; [exact T|].
      split; [exact I|]. split; [exact Ho|]. split; [exact P1|]. split; [apply R|]. done. }
  destruct (next_round S st objs st1 S1 R D) as (x & al & g & l & R1 & -> & T & Ho & Hl).
  replace (u64 (off_start b + 8 * Z.of_nat (length objs) + 8)) with (off_start b + 8 * Z.of_nat (Datatypes.S (length objs))) in Hrun |- *
    by (rewrite <- (buffer_offset_u64 S (Datatypes.S (length objs)) A Hk'); f_equal; lia).
  assert (Hlen : length (objs ++ [x]) = Datatypes.S (length objs)) by (rewrite length_app; simpl; lia).
  destruct (IH _ st1 (objs ++ [x]) R1) as (res & st' & S' & E' & D'); [lia|lia|by rewrite Hlen|].
  exists res, st', S'. rewrite Hlen in E'. split; [exact E'|].
  destruct D' as (al' & g' & l' & objs' & -> & T' & I' & Ho' & P' & Hsg' & Hres). simpl t_alloc in *.
  exists al', g', (l ++ l'), objs'. split; [by rewrite <- add_fixups_app|].
  split; [eapply touched_trans; [exact T|]; eapply touched_weaken; [|exact T']; intros y; rewrite (touched_bsize _ _ _ id T);
    apply (touched_range _ _ _ _ _ _ y T)|].
  split; [exact I'|]. split; [intros i Hi; by rewrite Ho', Ho|]. split; [exact P'|]. split; [exact Hsg'|].
  destruct res as [[e failed_at]|]; [exact Hres|]. destruct Hres as [Hlen' Hslots]. split; [exact Hlen'|].
  rewrite Hslots, (fd_slots_snoc b N _ _ _ _ _ (pl_sound _ _ _ _ _ (ar_placed _ _ _ _ _ _ _ R1)) Hk'), fmap_app, Hl, app_assoc.
  f_equal. f_equal. apply fd_slots_same. intros i Hi. apply Ho. lia.
Qed.
End run.

(** ** From the copy of the sender's data to the end of the loop *)

(** The buffer is the one allocated for this transaction. *)
Record buffer_for (b : binder_buffer) (tr : binder_transaction_data) (extra_buffers_size_ secctx_size : Z) : Prop := BufferFor {
  bf_data : data_size b = tr_data_size tr;
  bf_offsets : offsets_size b = tr_offsets_size tr;
  bf_extra : extra_buffers_size b = extra_buffers_size_;
  bf_u64 : is_u64 (data_size b) /\ is_u64 (offsets_size b) /\ is_u64 (extra_buffers_size b);
  bf_secctx : 0 <= secctx_size <= extra_buffers_size_ /\ secctx_size mod 8 = 0
}.

(** [IS_ALIGNED] to eight. *)
Lemma is_aligned8 x : IS_ALIGNED x 8 = true <-> x mod 8 = 0.
Proof. unfold IS_ALIGNED. change (8 - 1) with (Z.ones 3). by rewrite Z.land_ones, Z.eqb_eq by lia. Qed.

Lemma up8_aligned x : x mod 8 = 0 -> up8 x = x.
Proof.
  intros H. apply Z.mod_divide in H as [k ->]; [|done]. pose proof (up8_spec (k * 8)) as [U1 U2].
  apply Z.mod_divide in U1 as [j E]; [|done]. lia.
Qed.

Section objects.
Context `{RB : Rbtree} {RBL : RbtreeLaws}.
Context (env : txn_env) (Eo : env_ok env) (id : nat) (b : binder_buffer).
Context (tr : binder_transaction_data) (extra secctx : Z) (Hb : buffer_for b tr extra secctx).

Lemma buffer_roomy s : access s id b -> roomy s id b.
Proof. intros A. destruct (bf_u64 _ _ _ _ Hb) as (? & ? & ?). by apply access_roomy. Qed.

Lemma copy_in_done S off src n : access (t_alloc S) id b -> 0 <= off -> 0 <= n -> off + n <= bsize (t_alloc S) id -> off mod 4 = 0 ->
  exists e al, copy_in env id off src n S = Some (e, set_alloc al S) /\ touched (range (t_alloc S) b off n) (t_alloc S) al.
Proof.
  intros A Ho Hn Hin Ha.
  destruct (copy_user_eq _ id b A (buffer_roomy _ A) off n (user_mem env src n) (fun at_ n => not_copied env (src + at_) n) Ho Hn Hin Ha)
    as (e & al & E & _ & T & _).
  { unfold user_mem. rewrite length_fmap, length_seq. lia. } { intros a m Hm. by apply Eo. }
  exists e, al. split; [by apply on_alloc_eq|exact T].
Qed.

(** The surroundings are ready once the data and the offsets are in. *)
Definition objects_ready (S : txn) : Prop :=
  match (copy_in env id 0 (tr_data tr) (tr_data_size tr) ;! copy_in env id (ALIGN (tr_data_size tr) 8) (tr_offsets tr) (tr_offsets_size tr)) S with
  | Some (_, S1) => run_ready (Z.to_nat (tr_offsets_size tr / 8)) env id b (off_start b)
      (off_start b + tr_offsets_size tr + extra - secctx) (off_start b) (Loop 0 (off_start b + tr_offsets_size tr) 0 0) S1
  | None => True
  end.

(** What [translate_objects] leaves. *)
Definition objects_done (S : txn) (res : option (Z * Z)) (S' : txn) : Prop :=
  exists al g l, S' = add_fixups l (set_graph g (set_alloc al S)) /\
    touched (range (t_alloc S) b 0 (bsize (t_alloc S) id)) (t_alloc S) al /\ inv g /\
    match res with
    | None => exists N st objs, offsets_size b = 8 * Z.of_nat N /\ length objs = N /\ placed b N al st objs /\
        sg_room b N (sg_start b N + extra - secctx) st /\ snd <$> l = fd_slots b al objs
    | Some (e, failed_at) => e < 0 /\ (failed_at = 0 /\ l = [] \/
        exists N st objs, offsets_size b = 8 * Z.of_nat N /\ (length objs < N)%nat /\ failed_at = off_start b + 8 * Z.of_nat (length objs) /\
          placed b N al st objs)
    end.

Lemma objects_refused S al e : access (t_alloc S) id b -> inv (t_graph S) -> e < 0 ->
  touched (range (t_alloc S) b 0 (bsize (t_alloc S) id)) (t_alloc S) al -> objects_done S (Some (e, 0)) (set_alloc al S).
Proof.
  intros A I He T. exists al, (t_graph S), []. rewrite add_fixups_nil. split; [by destruct S|]. split; [exact T|]. split; [exact I|].
  split; [exact He|]. by left.
Qed.

Lemma placed_nil s N sg : 0 <= data_size b -> placed b N s (Loop 0 sg 0 0) [].
Proof.
  intros Hd. assert (Hno : forall {A} i (x : A), [] !! i = Some x -> False) by (intros A i x Hi; by rewrite lookup_nil in Hi).
  apply Placed; simpl; try lia.
  - intros i x Hi. by apply Hno in Hi.
  - intros i x Hi. by apply Hno in Hi.
  - split; intros; exfalso; by eapply Hno.
  - intros i sgo len p po sgp lenp parp Hi. by apply Hno in Hi.
Qed.

(** The loop, from the state after the copies. *)
Lemma objects_loop S N : access (t_alloc S) id b -> inv (t_graph S) -> offsets_size b = 8 * Z.of_nat N -> extra mod 8 = 0 ->
  run_ready N env id b (off_start b) (sg_start b N + extra - secctx) (off_start b) (Loop 0 (sg_start b N) 0 0) S ->
  exists res st' S', translate_loop (Datatypes.S N) env id (off_start b) (off_start b + 8 * Z.of_nat N) (sg_start b N + extra - secctx)
      (off_start b) (Loop 0 (sg_start b N) 0 0) S = Some ((res, st'), S') /\ objects_done S res S'.
Proof.
  intros A I HN Hex Hrun. pose proof (buffer_roomy _ A) as Hr. destruct (offsets_fit _ id b N Hr HN) as (F1 & F2 & F3).
  destruct (bf_secctx _ _ _ _ Hb) as [Hsec Hsec8]. pose proof (bf_extra _ _ _ _ Hb) as Hextra.
  rewrite Hextra, (up8_aligned extra Hex) in F3. set (sg_end := sg_start b N + extra - secctx) in *.
  assert (Hs8 : sg_start b N mod 8 = 0).
  { unfold sg_start. pose proof (off_start_align b) as Ha. rewrite Z.add_comm, Z.mul_comm, Z.add_mod, Ha, Z.mod_mul by done. done. }
  assert (He8 : sg_end mod 8 = 0).
  { clear -Hs8 Hex Hsec8. unfold sg_end. apply Z.mod_divide in Hs8 as [i ->]; [|done]. apply Z.mod_divide in Hex as [j ->]; [|done].
    apply Z.mod_divide in Hsec8 as [k ->]; [|done]. replace (i * 8 + j * 8 - k * 8) with ((i + j - k) * 8) by lia. by apply Z.mod_mul. }
  assert (R : at_round id b N sg_end S (Loop 0 (sg_start b N) 0 0) []).
  { split; [exact A|unfold sg_end; lia| |split; cbn [sg_buf_offset]; [lia|unfold sg_end; lia|exact Hs8]|exact I].
    apply placed_nil, Hr. }
  pose proof (translate_loop_done env Eo id b N HN buffer_roomy sg_end He8 (Datatypes.S N) S _ [] R) as H. simpl length in H.
  rewrite Z.mul_0_r, Z.add_0_r, Nat.sub_0_r in H. destruct H as (res & st' & S' & E & al & g & l & objs & -> & T & I' & Ho & P & Hsg & Hres);
    [lia|lia|exact Hrun|].
  exists res, st', (add_fixups l (set_graph g (set_alloc al S))). split; [exact E|]. exists al, g, l. split; [done|]. split; [exact T|].
  split; [exact I'|]. destruct res as [[e failed_at]|].
  - destruct Hres as (He & Hat & Hlen). split; [exact He|]. right. by exists N, st', objs.
  - destruct Hres as [Hlen Hslots]. exists N, st', objs. by split_and!.
Qed.

Lemma translate_objects_done S : access (t_alloc S) id b -> inv (t_graph S) -> objects_ready S ->
  exists res S', translate_objects env id tr extra secctx S = Some (res, S') /\ objects_done S res S'.
Proof.
  intros A I Hready. destruct Hb as [Hd Ho He (U1 & U2 & U3) Hsec]. pose proof (buffer_roomy _ A) as Hr.
  pose proof (rm_small _ _ _ Hr) as Hsm. pose proof (rm_parts _ _ _ Hr) as Hparts.
  pose proof (up8_spec (data_size b)) as [D1 D2]. pose proof (up8_spec (offsets_size b)) as [O1 O2].
  pose proof (up8_spec (extra_buffers_size b)) as [X1 X2]. unfold is_u64 in U1, U2, U3.
  assert (Hal : ALIGN (tr_data_size tr) 8 = off_start b).
  { change (ALIGN (tr_data_size tr) SIZEOF_PTR = off_start b). rewrite <- Hd, ALIGN_ptr by done.
    apply u64_small. unfold off_start, is_u64, two64. lia. }
  unfold translate_objects. unfold objects_ready in Hready. rewrite Hal in *. rewrite <- Hd, <- Ho in *.
  destruct (copy_in_done S 0 (tr_data tr) (data_size b) A) as (e1 & a1 & E1 & T1); [lia|lia|lia|done|].
  assert (TW1 : touched (range (t_alloc S) b 0 (bsize (t_alloc S) id)) (t_alloc S) a1).
  { eapply touched_weaken; [|exact T1]. unfold range. lia. }
  erewrite bind_eq by exact E1. erewrite bind_eq in Hready by exact E1.
  destruct (negb (e1 =? 0)); [eexists _, _; split; [done|]; by apply objects_refused|].
  assert (A1 : access a1 id b) by by apply (access_touched _ _ _ _ _ A T1).
  assert (Hb1 : bsize a1 id = bsize (t_alloc S) id) by exact (touched_bsize _ _ _ id T1).
  destruct (copy_in_done (set_alloc a1 S) (off_start b) (tr_offsets tr) (offsets_size b) A1) as (e2 & a2 & E2 & T2);
    [unfold off_start; lia|lia|simpl; rewrite Hb1; unfold off_start; lia| |].
  { pose proof (align8_4 (off_start b) 0 (off_start_align b)) as H. by rewrite Z.mul_0_r, Z.add_0_r in H. }
  erewrite bind_eq by exact E2. rewrite E2 in Hready. simpl in T2.
  assert (TW2 : touched (range (t_alloc S) b 0 (bsize (t_alloc S) id)) (t_alloc S) a2).
  { eapply touched_trans; [exact TW1|]. eapply touched_weaken; [|exact T2]. intros y Y. apply (touched_range _ _ _ _ _ _ y T1) in Y.
    revert Y. unfold range, off_start. lia. }
  assert (Esame : set_alloc a2 (set_alloc a1 S) = set_alloc a2 S) by (by destruct S). rewrite Esame in *.
  destruct (negb (e2 =? 0)); [eexists _, _; split; [done|]; by apply objects_refused|].
  destruct (IS_ALIGNED (offsets_size b) 8) eqn:HaO; cbn [negb]; [|eexists _, _; split; [done|]; by apply objects_refused].
  destruct (IS_ALIGNED extra 8) eqn:HaX; cbn [negb]; [|eexists _, _; split; [done|]; by apply objects_refused].
  apply is_aligned8 in HaO, HaX. apply Z.mod_divide in HaO as [k Hk]; [|done].
  assert (HN : offsets_size b = 8 * Z.of_nat (Z.to_nat (offsets_size b / 8))) by (rewrite Hk, Z.div_mul by done; lia).
  set (N := Z.to_nat (offsets_size b / 8)) in *.
  assert (A2 : access a2 id b) by by apply (access_touched _ _ _ _ _ A TW2).
  destruct (offsets_fit a2 id b N (buffer_roomy _ A2) HN) as (F1 & F2 & F3). rewrite (touched_bsize _ _ _ id TW2) in F3.
  assert (Hoe : off_start b + offsets_size b = sg_start b N) by (unfold sg_start; lia).
  rewrite Hoe in *. rewrite (u64_small (sg_start b N)) by (unfold is_u64, two64; lia).
  assert (Hsg : ALIGN (sg_start b N) 8 = sg_start b N).
  { change (ALIGN (sg_start b N) SIZEOF_PTR = sg_start b N). rewrite ALIGN_ptr by (unfold is_u64, two64; lia).
    rewrite up8_aligned; [apply u64_small; unfold is_u64, two64; lia|]. unfold sg_start. pose proof (off_start_align b) as Ha.
    rewrite Z.add_comm, Z.mul_comm, Z.add_mod, Ha, Z.mod_mul by done. done. }
  rewrite Hsg. rewrite (u64_small (sg_start b N + extra - secctx)) by (unfold is_u64, two64; lia).
  destruct (objects_loop (set_alloc a2 S) N A2 I HN HaX Hready) as (res & st' & S' & E & D).
  replace (off_start b + 8 * Z.of_nat N) with (sg_start b N) in E by (unfold sg_start; lia).
  erewrite bind_eq by exact E. exists res, S'. split; [done|].
  destruct D as (al & g & l & -> & T & I' & Hres). exists al, g, l. split; [by destruct S|]. split; [|by split].
  eapply touched_trans; [exact TW2|]. eapply touched_weaken; [|exact T]. intros y. simpl t_alloc. rewrite (touched_bsize _ _ _ id TW2).
  apply (touched_range _ _ _ _ _ _ y TW2).
Qed.
End objects.
