(* ===== verification/BinderObjectsFd.v ===== *)
(** * Descriptors in flight

    Where the descriptors of the placed objects lie, what
    [binder_apply_fd_fixups] makes of them at the receiver, and what becomes
    of the files when it fails or the transaction is dropped. *)

From Stdlib Require Import ZArith Lia.
From stdpp Require Import base option gmap sets list.
From S2P Require Import Prelude RbTree BinderAlloc BinderAllocFacts BinderAllocInv BinderAllocCopy.
From S2P Require Import BinderNode BinderNodeFacts BinderNodeInv BinderTranslate.
From S2P Require Import BinderObjects BinderObjectsMem BinderObjectsFacts BinderObjectsPath.
From S2P Require Import BinderObjectsLoop BinderObjectsFixup BinderObjectsPlace BinderObjectsTxn BinderObjectsRound BinderObjectsRun.

(** ** Pairs in a list *)
Section pairwise.
Context {A : Type} (P : A -> A -> Prop).

Fixpoint pairwise (l : list A) : Prop :=
  match l with [] => True | x :: l => Forall (P x) l /\ pairwise l end.

Lemma pairwise_app l1 l2 : pairwise l1 -> pairwise l2 -> (forall x y, x ∈ l1 -> y ∈ l2 -> P x y) -> pairwise (l1 ++ l2).
Proof.
  induction l1 as [|x l1 IH]; intros H1 H2 H; [done|]. destruct H1 as [Hx H1]. split.
  - apply Forall_app. split; [done|]. apply Forall_forall. intros y Hy. apply H; [by left|done].
  - apply IH; [done|done|]. intros y z Hy Hz. apply H; [by right|done].
Qed.

Lemma pairwise_concat {B} (f : nat -> B -> list A) l : (forall i x, l !! i = Some x -> pairwise (f i x)) ->
  (forall i j x y a a', (i < j)%nat -> l !! i = Some x -> l !! j = Some y -> a ∈ f i x -> a' ∈ f j y -> P a a') ->
  pairwise (concat (imap f l)).
Proof.
  revert f. induction l as [|x l IH]; intros f Hin Hout; [done|]. cbn [imap concat]. apply pairwise_app.
  - by apply (Hin 0%nat).
  - apply (IH (f ∘ Datatypes.S)).
    + intros i y Hy. by apply (Hin (Datatypes.S i)).
    + intros i j y z a a' Hij Hy Hz. apply (Hout (Datatypes.S i) (Datatypes.S j)); [lia|done|done].
  - intros a a' Ha Ha'. apply list_elem_of_In, in_concat in Ha' as (l' & Hl' & Ha').
    apply list_elem_of_In, elem_of_lookup_imap in Hl' as (j & y & -> & Hy). apply list_elem_of_In in Ha'.
    by apply (Hout 0%nat (Datatypes.S j) x y); [lia|..].
Qed.
End pairwise.

(** Two descriptors of four bytes. *)
Definition apart4 (x y : Z) : Prop := x + 4 <= y \/ y + 4 <= x.

(** Slots of descriptors a buffer has room for, none over another. *)
Record slots_ok (s : binder_alloc) (id : nat) (l : list Z) : Prop := SlotsOk {
  sl_inside o : o ∈ l -> 0 <= o /\ o + 4 <= bsize s id /\ o mod 4 = 0;
  sl_apart : pairwise apart4 l
}.

Section slots.
Context (s : binder_alloc) (id : nat) (b : binder_buffer) (N : nat) (A : access s id b) (Hr : roomy s id b).
Context (sg_end : Z) (Hend : sg_end <= bsize s id).
Context (st : loop_state) (objs : list obj) (P : placed b N s st objs) (Hsg : sg_room b N sg_end st).

Lemma fd_slot_cases i x o : objs !! i = Some x -> o ∈ fd_offsets b s objs i x ->
  x = OFd /\ o = off_at b s i + 8 \/
  exists p po num sgo len par j, x = OFda p po num /\ objs !! p = Some (OPtr sgo len par) /\ o = sgo + po + 4 * Z.of_nat j /\
    Z.of_nat j < num.
Proof.
  intros Hi Ho. destruct x as [| | |p po num]; simpl in Ho; try by apply not_elem_of_nil in Ho.
  - left. apply list_elem_of_singleton in Ho as ->. done.
  - right. destruct (objs !! p) as [[| |sgo len par|]|] eqn:Hp; try by apply not_elem_of_nil in Ho.
    apply list_elem_of_fmap in Ho as (j & -> & Hj). apply elem_of_seq in Hj.
    exists p, po, num, sgo, len, par, j. split_and!; [done|exact Hp|done|lia].
Qed.

(** A slot of an array lies in its parent. *)
Lemma array_slot i p po num sgo len par j : objs !! i = Some (OFda p po num) -> objs !! p = Some (OPtr sgo len par) ->
  Z.of_nat j < num -> 0 <= po /\ po + 4 * Z.of_nat j + 4 <= len /\ sg_start b N <= sgo /\ sgo + len <= sg_buf_offset st /\
    (sgo + po + 4 * Z.of_nat j) mod 4 = 0.
Proof.
  intros Hi Hp Hj. destruct (so_parent _ _ _ (pl_sound _ _ _ _ _ P) i _ p po (po + 4 * num) Hi eq_refl) as (_ & sg1 & l1 & par1 & Hp1 & B1 & B2 & B3).
  rewrite Hp in Hp1. injection Hp1 as <- <- <-. destruct (so_space _ _ _ (pl_sound _ _ _ _ _ P) p _ _ _ Hp) as (S1 & S2 & S3 & S4).
  destruct (pl_desc _ _ _ _ _ P i _ Hi) as (_ & _ & _ & _ & Hpo). split_and!; try lia.
  clear -S4 Hpo. apply Z.mod_divide in S4 as [k ->]; [|done]. apply Z.mod_divide in Hpo as [m ->]; [|done].
  replace (k * 8 + m * 4 + 4 * Z.of_nat j) with ((2 * k + m + Z.of_nat j) * 4) by lia. by apply Z.mod_mul.
Qed.

(** A descriptor object lies in the data. *)
Lemma object_slot i : objs !! i = Some OFd -> 0 <= off_at b s i /\ off_at b s i + 24 <= data_size b /\ (off_at b s i + 8) mod 4 = 0.
Proof.
  intros Hi. pose proof (pl_desc _ _ _ _ _ P i _ Hi) as Hd. destruct (described_inside _ _ _ _ Hd) as [Hin Ha].
  pose proof (off_at_u64 b s i) as [H0 _]. split_and!; [exact H0|exact Hin|]. by rewrite Z.add_mod, Ha by done.
Qed.

Lemma fd_slots_ok : slots_ok s id (fd_slots b s objs).
Proof.
  pose proof (data_inside s id b Hr) as Hdat. pose proof (off_start_data b) as Hos. destruct Hsg as [G1 G2 _].
  assert (Hsgs : data_size b <= sg_start b N) by (unfold sg_start; lia). pose proof (rm_data _ _ _ Hr) as Hd0.
  split.
  - intros o Ho. unfold fd_slots in Ho. apply list_elem_of_In, in_concat in Ho as (l & Hl & Ho).
    apply list_elem_of_In, elem_of_lookup_imap in Hl as (i & x & -> & Hi). apply list_elem_of_In in Ho.
    destruct (fd_slot_cases i x o Hi Ho) as [[-> ->]|(p & po & num & sgo & len & par & j & -> & Hp & -> & Hj)].
    + destruct (object_slot i Hi) as (? & ? & ?). split_and!; [lia|lia|done].
    + destruct (array_slot i p po num sgo len par j Hi Hp Hj) as (? & ? & ? & ? & ?). split_and!; [lia|lia|done].
  - unfold fd_slots. apply pairwise_concat.
    + intros i [| | |p po num] Hi; simpl; try done. destruct (objs !! p) as [[| |sgo len par|]|]; simpl; try done.
      generalize 0%nat. induction (Z.to_nat num) as [|n IH]; intros k; simpl; [done|]. split; [|apply IH].
      apply Forall_fmap, Forall_seq. intros j [Hj _]. left. simpl. lia.
    + intros i j x y o o' Hij Hi Hj Ho Ho'.
      pose proof (lookup_lt_Some _ _ _ Hj) as Hjl.
      destruct (fd_slot_cases i x o Hi Ho) as [[-> ->]|(p & po & num & sgo & len & par & m & -> & Hp & -> & Hm)];
        destruct (fd_slot_cases j y o' Hj Ho') as [[-> ->]|(q & qo & num' & sgo' & len' & par' & m' & -> & Hq & -> & Hm')].
      * pose proof (pl_order _ _ _ _ _ P i j OFd Hij Hjl Hi) as H. simpl in H. left. lia.
      * destruct (object_slot i Hi) as (? & ? & _). destruct (array_slot j q qo num' sgo' len' par' m' Hj Hq Hm') as (? & ? & ? & _). left. lia.
      * destruct (object_slot j Hj) as (? & ? & _). destruct (array_slot i p po num sgo len par m Hi Hp Hm) as (? & ? & ? & _). right. lia.
      * destruct (array_slot i p po num sgo len par m Hi Hp Hm) as (? & ? & ? & ? & _).
        destruct (array_slot j q qo num' sgo' len' par' m' Hj Hq Hm') as (? & ? & ? & ? & _).
        destruct (lt_eq_lt_dec p q) as [[Hlt|Heq]|Hlt].
        -- pose proof (so_apart _ _ _ (pl_sound _ _ _ _ _ P) p q _ _ _ _ _ _ Hlt Hp Hq). left. lia.
        -- subst q. rewrite Hp in Hq. injection Hq as <- <- <-.
           pose proof (so_slots _ _ _ (pl_sound _ _ _ _ _ P) i j _ _ p po (po + 4 * num) qo (qo + 4 * num') Hij Hi Hj eq_refl eq_refl). left. lia.
        -- pose proof (so_apart _ _ _ (pl_sound _ _ _ _ _ P) q p _ _ _ _ _ _ Hlt Hq Hp). right. lia.
Qed.
End slots.

(** ** At the receiver *)

(** The fix-ups of a list of files and offsets, and what they have become
    once installed. *)
Definition pending (l : list (nat * Z)) : list binder_txn_fd_fixup := (fun p => Fixup (Some p.1) p.2) <$> l.
Definition installed (l : list (nat * Z)) : list binder_txn_fd_fixup := (fun p => Fixup None p.2) <$> l.

(** How many of [m] descriptors, from the [k]-th on, the receiver gets. *)
Fixpoint got (env : txn_env) (k m : nat) : nat :=
  match m with
  | O => O
  | Datatypes.S m => if get_unused_fd env k <? 0 then O else Datatypes.S (got env (Datatypes.S k) m)
  end.

(** What [binder_deferred_fd_close] makes of these descriptors. *)
Fixpoint close_log (env : txn_env) (acc : list (Z * nat)) (fds : list Z) : list (Z * nat) :=
  match fds with
  | [] => acc
  | fd :: fds =>
    close_log env (if kzalloc_close env fd then
      match file_close_fd env acc fd with Some file => acc ++ [(fd, file)] | None => acc end else acc) fds
  end.

Lemma got_le env k m : (got env k m <= m)%nat.
Proof. revert k. induction m as [|m IH]; intros k; simpl; [done|]. case_if; [lia|]. specialize (IH (Datatypes.S k)). lia. Qed.

Lemma remove_file_perm f l l' : l ≡ₚ f :: l' -> exists r, remove_file f l = Some r /\ r ≡ₚ l'.
Proof.
  revert l'. induction l as [|g l IH]; intros l' H; [by apply Permutation_nil_cons in H|]. simpl. case_decide as Hg.
  - subst g. exists l. split; [done|]. by eapply Permutation_cons_inv.
  - assert (Hin : f ∈ l).
    { assert (f ∈ g :: l) as [?|?]%elem_of_cons by (rewrite H; by left); [congruence|done]. }
    apply list_elem_of_split in Hin as (l1 & l2 & ->).
    destruct (IH (l1 ++ l2)) as (r & -> & Hr); [by rewrite Permutation_middle|]. exists (g :: r). split; [done|]. rewrite Hr.
    apply (Permutation_cons_inv (a := f)). rewrite <- H. rewrite <- Permutation_middle. apply Permutation_swap.
Qed.

Lemma fput_perm f l S : held_files S ≡ₚ f :: l -> exists r, fput f S = Some (tt, set_held r S) /\ r ≡ₚ l.
Proof.
  intros H. destruct (remove_file_perm f (held_files S) l H) as (r & E & Hr). exists r. split; [|exact Hr].
  unfold fput. erewrite bind_eq by reflexivity. by rewrite E.
Qed.

Lemma pairwise_cons_inv (x : Z) l : pairwise apart4 (x :: l) -> pairwise apart4 l /\ forall y, y ∈ l -> apart4 x y.
Proof. intros [H1 H2]. split; [exact H2|]. by apply Forall_forall. Qed.

Section apply.
Context (env : txn_env) (id : nat) (b : binder_buffer).
Context (Hroomy : forall s, access s id b -> roomy s id b).
Context (Hfd : forall k, get_unused_fd env k < two31).

Lemma slots_tail s o l : slots_ok s id (o :: l) -> slots_ok s id l.
Proof. intros [H1 [_ H2]]. split; [|exact H2]. intros y Hy. apply H1. by right. Qed.

Lemma slots_touched W s s' l : touched W s s' -> slots_ok s id l -> slots_ok s' id l.
Proof. intros T [H1 H2]. split; [|exact H2]. intros o Ho. rewrite (touched_bsize _ _ _ id T). by apply H1. Qed.

(** The bytes of these slots. *)
Definition in_slots (s : binder_alloc) (l : list Z) (y : nat) : Prop := exists o, o ∈ l /\ range s b o 4 y.

(** A descriptor read back from its slot. *)
Lemma stored_fd fd l : 0 <= fd < two31 -> le_read 4 (le_write 4 fd ++ l) = fd.
Proof. intros H. rewrite le_read_write. apply Z.mod_small. unfold two31 in H. lia. Qed.

(** The first loop: the descriptors it got are installed, with their numbers
    in their slots; the rest are still pending. *)
Lemma apply_loop_done H : forall l k S, access (t_alloc S) id b -> slots_ok (t_alloc S) id l.*2 ->
  held_files S ≡ₚ l.*1 ++ H ->
  let n := got env k (length l) in
  exists al held, apply_loop env id (pending l) k S =
      Some ((if decide (n = length l) then 0 else - ENOMEM, installed (take n l) ++ pending (drop n l)),
        Txn al (t_graph S) (fd_fixups S) held (installed_fds S ++ imap (fun i p => (get_unused_fd env (k + i), p.1)) (take n l)) (closing_fds S)) /\
    held ≡ₚ (drop n l).*1 ++ H /\ touched (in_slots (t_alloc S) l.*2) (t_alloc S) al /\
    (forall i p, (i < n)%nat -> l !! i = Some p -> word al b 4 p.2 = get_unused_fd env (k + i) /\ 0 <= get_unused_fd env (k + i)).
Proof.
  intros l. induction l as [|[file o] l IH]; intros k S A Hsl Hheld n.
  { exists (t_alloc S), (held_files S). split; [unfold n; simpl; rewrite app_nil_r; by destruct S|]. split; [exact Hheld|].
    split; [apply touched_refl, (access_pages _ id b), A|]. intros i p Hi. unfold n in Hi. simpl in Hi. lia. }
  unfold n. clear n. cbn [got length pending fmap list_fmap apply_loop].
  destruct (Z.ltb_spec (get_unused_fd env k) 0) as [Hneg|Hpos].
  { exists (t_alloc S), (held_files S). rewrite decide_False by done. cbn [take drop installed fmap list_fmap imap app].
    split; [simpl; rewrite app_nil_r; by destruct S|]. split; [exact Hheld|].
    split; [apply touched_refl, (access_pages _ id b), A|]. intros i p Hi. lia. }
  erewrite bind_eq by reflexivity. unfold fd_install. rewrite bind_assoc.
  destruct (fput_perm file (l.*1 ++ H) S Hheld) as (held1 & E1 & Hh1). erewrite bind_eq by exact E1.
  erewrite bind_eq by reflexivity. cbn [fixup_offset].
  set (S1 := set_installed _ _). assert (A1 : access (t_alloc S1) id b) by exact A.
  destruct (sl_inside _ _ _ Hsl o) as (O1 & O2 & O3); [by left|].
  destruct (copy_to_eq (t_alloc S1) id b A1 (Hroomy _ A1) o 4 (le_write 4 (get_unused_fd env k)) O1) as (a1 & E2 & T1 & B1);
    [lia|exact O2|exact O3|by rewrite le_write_length|].
  erewrite bind_eq by apply on_alloc_eq, E2. cbn [negb Z.eqb]. set (S2 := set_alloc a1 S1).
  destruct (IH (Datatypes.S k) S2) as (al & held & E3 & Hh & T2 & W2).
  { by apply (access_touched _ _ _ _ _ A1 T1). } { apply (slots_touched _ _ _ _ T1), (slots_tail _ o), Hsl. } { exact Hh1. }
  fold (pending l). erewrite bind_eq by exact E3. cbn [fst snd]. clear E3.
  set (m := got env (Datatypes.S k) (length l)) in *. exists al, held.
  assert (TT : touched (in_slots (t_alloc S) (o :: l.*2)) (t_alloc S) al).
  { eapply touched_trans; [eapply touched_weaken; [|exact T1]|eapply touched_weaken; [|exact T2]].
    - intros y Y. exists o. split; [by left|exact Y].
    - intros y (o' & Ho' & Y). exists o'. split; [by right|]. by apply (touched_range _ _ _ _ _ _ y T1). }
  split.
  { assert (Ed : (if decide (m = length l) then 0 else - ENOMEM) = if decide (Datatypes.S m = Datatypes.S (length l)) then 0 else - ENOMEM).
    { destruct (decide (m = length l)), (decide (Datatypes.S m = Datatypes.S (length l))); done || lia. }
    rewrite Ed. unfold S2, S1, ret. simpl. rewrite Nat.add_0_r, <- app_assoc. simpl.
    rewrite (imap_ext (fun i (p : nat * Z) => (get_unused_fd env (Datatypes.S (k + i)), p.1))
      ((fun i p => (get_unused_fd env (k + i), p.1)) ∘ Datatypes.S)); [done|]. intros i p _. simpl. by rewrite Nat.add_succ_r. }
  split; [exact Hh|]. split; [exact TT|].
  intros [|i] p Hi Hp; [|rewrite Nat.add_succ_r; by apply (W2 i); [lia|]].
  injection Hp as <-. rewrite Nat.add_0_r. split; [|exact Hpos]. simpl.
  destruct (pairwise_cons_inv o l.*2 (sl_apart _ _ _ Hsl)) as [_ Hap].
  rewrite (word_frame _ _ _ _ _ _ T2 O1).
  - unfold word. change (Z.to_nat 4) with 4%nat in B1. change (t_alloc S2) with a1. rewrite B1, take_ge by (by rewrite le_write_length).
    rewrite <- (app_nil_r (le_write 4 _)). apply stored_fd. pose proof (Hfd k). lia.
  - intros y Y (o' & Ho' & Y'). specialize (Hap o' Ho'). change (Z.of_nat 4) with 4 in Y. unfold apart4, range in *. clear -Hap Y Y'. lia.
Qed.

(** The second loop over what was installed, when the first has failed. *)
Lemma drop_installed error fds : error <> 0 -> forall l S, access (t_alloc S) id b -> (forall o, o ∈ l.*2 -> 0 <= o /\ o + 4 <= bsize (t_alloc S) id /\ o mod 4 = 0) ->
  (fun p => word (t_alloc S) b 4 p.2) <$> l = fds -> forall rest,
  drop_fixups env id error (installed l ++ rest) S = drop_fixups env id error rest (set_closing (close_log env (closing_fds S) fds) S).
Proof.
  intros He l. revert fds. induction l as [|[f o] l IH]; intros fds S A Hin <- rest; simpl.
  { f_equal. by destruct S. }
  destruct (Z.eqb_spec error 0) as [|_]; [done|].
  assert (E : close_stored_fd env id o S = Some (tt, set_closing (close_log env (closing_fds S) [word (t_alloc S) b 4 o]) S)).
  { destruct (Hin o) as (O1 & O2 & O3); [by left|]. unfold close_stored_fd.
    erewrite bind_eq by (apply on_alloc_read, (copy_from_eq _ id b A (Hroomy _ A) o 4 (replicate 4 0)); [exact O1|lia|exact O2|exact O3|simpl; lia]).
    cbn [fst snd Z.eqb negb]. erewrite bind_eq by (apply on_alloc_eq; reflexivity). unfold set_alloc at 1.
    change (Z.to_nat 4) with 4%nat. simpl drop. rewrite app_nil_r. fold (word (t_alloc S) b 4 o). unfold binder_deferred_fd_close.
    simpl. destruct (kzalloc_close env (word (t_alloc S) b 4 o)); [|by destruct S].
    erewrite bind_eq by reflexivity. simpl. destruct (file_close_fd env (closing_fds S) (word (t_alloc S) b 4 o)); by destruct S. }
  erewrite bind_eq by exact E. rewrite (IH ((fun p => word (t_alloc S) b 4 p.2) <$> l)
    (set_closing (close_log env (closing_fds S) [word (t_alloc S) b 4 o]) S) A); [|intros o' Ho'; apply Hin; by right|done].
  done.
Qed.

(** Over what is pending. *)
Lemma drop_pending error H : forall l S, held_files S ≡ₚ l.*1 ++ H ->
  exists held, drop_fixups env id error (pending l) S = Some (tt, set_held held S) /\ held ≡ₚ H.
Proof.
  intros l. induction l as [|[f o] l IH]; intros S Hh; simpl.
  { exists (held_files S). split; [by destruct S|exact Hh]. }
  destruct (fput_perm f (l.*1 ++ H) S Hh) as (held1 & E1 & Hh1). erewrite bind_eq by exact E1.
  destruct (IH (set_held held1 S) Hh1) as (held & E & Hh2). exists held. split; [exact E|exact Hh2].
Qed.

(** All of it: every descriptor installed, or [-ENOMEM], what was installed
    closed again and the other files let go. *)
Definition apply_done (l : list (nat * Z)) (H : list nat) (S : txn) (r : Z) (S' : txn) : Prop :=
  let n := got env 0 (length l) in
  let fds := get_unused_fd env <$> seq 0 n in
  exists al held, S' = Txn al (t_graph S) [] held (installed_fds S ++ imap (fun i p => (get_unused_fd env i, p.1)) (take n l))
      (if decide (n = length l) then closing_fds S else close_log env (closing_fds S) fds) /\
    r = (if decide (n = length l) then 0 else - ENOMEM) /\ held ≡ₚ H /\
    touched (in_slots (t_alloc S) l.*2) (t_alloc S) al /\ access al id b /\
    (forall i p, (i < n)%nat -> l !! i = Some p -> word al b 4 p.2 = get_unused_fd env i).

Lemma drop_installed_ok l rest S : drop_fixups env id 0 (installed l ++ rest) S = drop_fixups env id 0 rest S.
Proof. revert S. induction l as [|p l IH]; intros S; simpl; [done|]. rewrite bind_ret. apply IH. Qed.

(** The numbers in the slots of what was installed. *)
Lemma installed_words al (l : list (nat * Z)) n : (n <= length l)%nat ->
  (forall i p, (i < n)%nat -> l !! i = Some p -> word al b 4 p.2 = get_unused_fd env i) ->
  (fun p => word al b 4 p.2) <$> take n l = get_unused_fd env <$> seq 0 n.
Proof.
  intros Hn Hw. apply list_eq. intros i. destruct (decide (i < n)%nat) as [Hi|Hi].
  - rewrite !list_lookup_fmap, lookup_take_lt, lookup_seq_lt by done. destruct (lookup_lt_is_Some_2 l i) as [p Hp]; [lia|].
    rewrite Hp. simpl. by rewrite (Hw i p).
  - rewrite !lookup_ge_None_2; [done|rewrite length_fmap, length_seq; lia|rewrite length_fmap, length_take; lia].
Qed.

Lemma apply_fd_fixups_done l H S : access (t_alloc S) id b -> slots_ok (t_alloc S) id l.*2 ->
  fd_fixups S = pending l -> held_files S ≡ₚ l.*1 ++ H ->
  exists r S', binder_apply_fd_fixups env id S = Some (r, S') /\ apply_done l H S r S'.
Proof.
  intros A Hsl Hfix Hheld. unfold binder_apply_fd_fixups. erewrite bind_eq by reflexivity. rewrite Hfix.
  destruct (apply_loop_done H l 0 S A Hsl Hheld) as (al & held & E & Hh & T & W). erewrite bind_eq by exact E. cbn [fst snd]. clear E.
  unfold apply_done. cbv zeta. pose proof (got_le env 0 (length l)) as Hn. set (n := got env 0 (length l)) in *.
  pose proof (access_touched _ _ _ _ _ A T) as A'.
  assert (Hw : forall i p, (i < n)%nat -> l !! i = Some p -> word al b 4 p.2 = get_unused_fd env i).
  { intros i p Hi Hp. by destruct (W i p Hi Hp) as [-> _]. }
  destruct (decide (n = length l)) as [He|Hne].
  - rewrite drop_ge by lia. simpl. rewrite app_nil_r.
    pose proof (drop_installed_ok (take n l) []) as Hd. rewrite app_nil_r in Hd. erewrite bind_eq by (rewrite Hd; reflexivity).
    erewrite bind_eq by reflexivity. exists 0. eexists. split; [reflexivity|]. exists al, held. split; [done|]. split; [done|].
    split; [by rewrite drop_ge in Hh by lia|]. by split_and!.
  - set (S1 := Txn _ _ _ _ _ _). assert (Hin : forall o, o ∈ (take n l).*2 -> 0 <= o /\ o + 4 <= bsize (t_alloc S1) id /\ o mod 4 = 0).
    { intros o Ho. simpl. rewrite (touched_bsize _ _ _ id T). apply (sl_inside _ _ _ Hsl). apply list_elem_of_fmap in Ho as (p & -> & Hp).
      apply list_elem_of_fmap_2. rewrite <- (take_drop n l). apply elem_of_app. by left. }
    pose proof (drop_installed (- ENOMEM) _ ltac:(done) (take n l) S1 A' Hin (installed_words al l n Hn Hw) (pending (drop n l))) as Hd.
    destruct (drop_pending (- ENOMEM) H (drop n l) (set_closing (close_log env (closing_fds S1) (get_unused_fd env <$> seq 0 n)) S1) Hh)
      as (held' & E' & Hh'). rewrite E' in Hd. erewrite bind_eq by exact Hd. erewrite bind_eq by reflexivity.
    exists (- ENOMEM). eexists. split; [reflexivity|]. exists al, held'. split; [done|]. split; [done|]. split; [exact Hh'|]. by split_and!.
Qed.

(** Dropping the fix-ups lets every file go. *)
Lemma free_fixups_done l H S : fd_fixups S = pending l -> held_files S ≡ₚ l.*1 ++ H ->
  exists held, binder_free_txn_fixups S = Some (tt, set_fixups [] (set_held held S)) /\ held ≡ₚ H.
Proof.
  intros Hfix Hheld. unfold binder_free_txn_fixups. erewrite bind_eq by reflexivity. rewrite Hfix.
  assert (Hl : forall l S, held_files S ≡ₚ l.*1 ++ H -> exists held, free_fixups_loop (pending l) S = Some (tt, set_held held S) /\ held ≡ₚ H).
  { clear. intros l. induction l as [|[f o] l IH]; intros S Hh; simpl; [exists (held_files S); split; [by destruct S|exact Hh]|].
    rewrite bind_assoc. erewrite bind_eq by reflexivity. cbn [fixup_file fst].
    destruct (fput_perm f (l.*1 ++ H) S Hh) as (held1 & E1 & Hh1). erewrite bind_eq by exact E1.
    destruct (IH (set_held held1 S) Hh1) as (held & E & Hh2). exists held. split; [exact E|exact Hh2]. }
  destruct (Hl l S Hheld) as (held & E & Hh). exists held. split; [by erewrite bind_eq by exact E|exact Hh].
Qed.
End apply.
