(* ===== verification/BinderObjectsTheorems.v ===== *)
(** * Objects in a transaction's buffer: the theorems

    [binder_get_object], the discipline of fix-ups, the loop over the offsets
    and the descriptors, each with an instance on a concrete transaction
    ([demo]): a binder, a buffer with a child that points into it, a
    descriptor, and an array of two descriptors. *)

From Stdlib Require Import ZArith Lia.
From stdpp Require Import base option gmap sets list.
From S2P Require Import Prelude RbTree BinderAlloc BinderAllocFacts BinderAllocInv BinderAllocCopy BinderAllocTheorems.
From S2P Require Import BinderNode BinderNodeFacts BinderNodeInv BinderNodeOps BinderNodeRef BinderTranslate BinderTranslateFacts.
From S2P Require Import BinderNodeSystem BinderNodeTheorems.
From S2P Require Import BinderObjects BinderObjectsMem BinderObjectsFacts BinderObjectsPath.
From S2P Require Import BinderObjectsLoop BinderObjectsFixup BinderObjectsPlace BinderObjectsTxn BinderObjectsRound.
From S2P Require Import BinderObjectsRun BinderObjectsFd.

(** ** The demonstration *)

#[local] Existing Instance plain_rbtree.
#[local] Existing Instance plain_rbtree_laws.

(** The client's memory: data at 4096, offsets at 8192, the two buffers at
    12288 and 16384, and zeros elsewhere. *)
Definition demo_data : list Z :=
  le_write 4 TYPE_BINDER ++ le_write 4 0 ++ le_write 8 28672 ++ le_write 8 99 ++
  le_write 4 TYPE_PTR ++ le_write 4 0 ++ le_write 8 12288 ++ le_write 8 16 ++ le_write 8 0 ++ le_write 8 0 ++
  le_write 4 TYPE_PTR ++ le_write 4 1 ++ le_write 8 16384 ++ le_write 8 5 ++ le_write 8 1 ++ le_write 8 0 ++
  le_write 4 TYPE_FD ++ le_write 4 0 ++ le_write 8 3 ++ le_write 8 0 ++
  le_write 4 TYPE_FDA ++ le_write 4 0 ++ le_write 8 2 ++ le_write 8 1 ++ le_write 8 8.
Definition demo_offsets : list Z := le_write 8 0 ++ le_write 8 24 ++ le_write 8 64 ++ le_write 8 104 ++ le_write 8 128.
Definition demo_outer : list Z := le_write 8 0 ++ le_write 4 4 ++ le_write 4 5.
Definition demo_inner : list Z := [104; 101; 108; 108; 111].

Definition demo_user_byte (a : Z) : Z :=
  if (4096 <=? a) && (a <? 8192) then nth (Z.to_nat (a - 4096)) demo_data 0
  else if (8192 <=? a) && (a <? 12288) then nth (Z.to_nat (a - 8192)) demo_offsets 0
  else if (12288 <=? a) && (a <? 16384) then nth (Z.to_nat (a - 12288)) demo_outer 0
  else if (16384 <=? a) && (a <? 20480) then nth (Z.to_nat (a - 16384)) demo_inner 0
  else 0.

(** Thread 2 of process 2 sends to node 10 of process 1; descriptor [fd] is
    open on file [100 + fd]. *)
Definition demo_txn_env : txn_env :=
  TxnEnv 2 1 false (fun g => Some (100 + size (nodes g))%nat) (fun g => Some (200 + size (refs g))%nat)
    (fun fd => Some (100 + Z.to_nat fd)%nat) (fun _ => 0) (fun _ => true) (fun _ => true) (fun _ fd => Some (Z.to_nat fd))
    (fun k => if (k <? 100)%nat then 40 + Z.of_nat k else - 24) demo_user_byte (fun _ _ => 0) (Some TF_ACCEPT_FDS) (replicate 40 0).

Definition demo_tr : binder_transaction_data := TxnData 1 0 0 4096 8192 160 40.

(** The buffer: 160 bytes of data, five offsets, 24 bytes of copies. *)
Definition demo_space : binder_alloc := after (binder_alloc_new_buf demo_env (Some 1%nat) 160 40 24 false) demo_mapped.
Definition demo_buffer : binder_buffer := default (Buffer true false false 0 None None 0 0 0 0) (store demo_space !! 0%nat).
Definition demo_txn : txn := Txn demo_space demo_asked [] [] [] [].

Lemma demo_space_wf : wf demo_space.
Proof.
  apply (new_buf_wf demo_env 1 160 40 24 false demo_mapped 0); [apply demo_mapped_wf|vm_compute; reflexivity|by split..|].
  vm_compute. reflexivity.
Qed.

Lemma demo_access : access demo_space 0 demo_buffer.
Proof. split; [apply demo_space_wf|vm_compute; reflexivity|vm_compute; reflexivity|left; vm_compute; reflexivity]. Qed.

Lemma demo_buffer_for : buffer_for demo_buffer demo_tr 24 0.
Proof. split; [vm_compute; reflexivity..| |]; vm_compute; repeat split; discriminate. Qed.

Lemma demo_txn_env_ok : env_ok demo_txn_env.
Proof. split; [intros a n Hn; simpl; lia|reflexivity]. Qed.

(** [run_ready] as a test. *)
Definition graph_readyb (env : txn_env) (g : binder) : bool :=
  roomb g &&
  match threads g !! env_thread env with
  | Some T => match procs g !! thread_proc T with Some _ => true | None => false end
  | None => false
  end &&
  match procs g !! env_target env with
  | Some P => Z.of_nat (length (rb_inorder (refs_by_desc P))) + 1 <? two32
  | None => false
  end &&
  match kzalloc_node env g with Some n => bool_decide (nodes g !! n = None) | None => true end &&
  match kzalloc_ref env g with Some r => bool_decide (refs g !! r = None) | None => true end.

Definition target_thereb (env : txn_env) (b : binder_buffer) (g : binder) : bool :=
  match in_reply_to env, target_node b with
  | Some _, _ => true
  | None, Some n => match nodes g !! n with Some _ => true | None => false end
  | None, None => false
  end.

Fixpoint run_readyb (n : nat) (env : txn_env) (id : nat) (b : binder_buffer) (off_start_offset sg_end buffer_offset : Z)
    (st : loop_state) (S : txn) : bool :=
  match n with
  | O => true
  | Datatypes.S n =>
    graph_readyb env (t_graph S) && target_thereb env b (t_graph S) &&
    match translate_round env id off_start_offset sg_end buffer_offset st S with
    | Some (Next st', S') => run_readyb n env id b off_start_offset sg_end (u64 (buffer_offset + 8)) st' S'
    | _ => true
    end
  end.

Lemma graph_readyb_ok env g : graph_readyb env g = true -> graph_ready env g.
Proof.
  unfold graph_readyb. intros [[[[Hr Ht]%andb_true_iff Hp]%andb_true_iff Hn]%andb_true_iff Hf]%andb_true_iff.
  apply roomb_ok in Hr as [H1 H2]. destruct (threads g !! env_thread env) as [T|] eqn:HT; [|discriminate].
  destruct (procs g !! thread_proc T) as [P|] eqn:HP; [|discriminate].
  destruct (procs g !! env_target env) as [TP|] eqn:HTP; [|discriminate]. apply Z.ltb_lt in Hp.
  split; [exact H1|exact H2|by exists T, P|by exists TP| |].
  - intros n Ek. rewrite Ek in Hn. by apply bool_decide_eq_true in Hn.
  - intros r Ek. rewrite Ek in Hf. by apply bool_decide_eq_true in Hf.
Qed.

Lemma target_thereb_ok env b g : target_thereb env b g = true -> target_there env b g.
Proof.
  unfold target_thereb, target_there. intros H Hno. rewrite Hno in H. destruct (target_node b) as [n|]; [|discriminate].
  destruct (nodes g !! n) as [N|] eqn:HN; [|discriminate]. by exists n, N.
Qed.

Lemma run_readyb_ok n env id b os se : forall bo st S, run_readyb n env id b os se bo st S = true -> run_ready n env id b os se bo st S.
Proof.
  induction n as [|n IH]; intros bo st S H; [done|]. cbn [run_readyb run_ready] in *. apply andb_true_iff in H as [H1 H2].
  apply andb_true_iff in H1 as [H1 H3]. split; [split; [by apply graph_readyb_ok|by apply target_thereb_ok]|].
  destruct (translate_round env id os se bo st S) as [[[st'|e] S']|]; [|done|done]. by apply IH.
Qed.

Definition objects_readyb (env : txn_env) (id : nat) (b : binder_buffer) (tr : binder_transaction_data) (extra secctx : Z) (S : txn) : bool :=
  match (copy_in env id 0 (tr_data tr) (tr_data_size tr) ;! copy_in env id (ALIGN (tr_data_size tr) 8) (tr_offsets tr) (tr_offsets_size tr)) S with
  | Some (_, S1) => run_readyb (Z.to_nat (tr_offsets_size tr / 8)) env id b (off_start b)
      (off_start b + tr_offsets_size tr + extra - secctx) (off_start b) (Loop 0 (off_start b + tr_offsets_size tr) 0 0) S1
  | None => true
  end.

Lemma objects_readyb_ok env id b tr extra secctx S : objects_readyb env id b tr extra secctx S = true ->
  objects_ready env id b tr extra secctx S.
Proof.
  unfold objects_readyb, objects_ready. destruct (bind _ _ S) as [[e S1]|]; [|done]. apply run_readyb_ok.
Qed.

Lemma demo_objects_ready : objects_ready demo_txn_env 0 demo_buffer demo_tr 24 0 demo_txn.
Proof. apply objects_readyb_ok. vm_compute. reflexivity. Qed.

(** ** Reading an object *)

(** C39: [binder_get_object] accepts an offset exactly when the object there is
    aligned, has a known type and lies whole inside the data; it then returns
    that type's size and the object's bytes.  No offset makes it read past
    the data, and it changes nothing. *)
Theorem get_object_exact s id b off object : access s id b -> is_u64 (data_size b) -> is_u64 (offsets_size b) ->
  is_u64 (extra_buffers_size b) -> is_u64 off -> length object = 40%nat ->
  exists r o, binder_get_object id off object s = Some ((r, o), s) /\
    (0 < r <-> is_Some (valid_object s b off)) /\
    match valid_object s b off with
    | Some t => r = object_sizeof t /\ off mod 4 = 0 /\ off + r <= data_size b /\ take (Z.to_nat r) o = bytes_at s b off (Z.to_nat r)
    | None => r = 0
    end.
Proof.
  intros A Hd Ho He Hoff Hl. pose proof (access_roomy s id b A Hd Ho He) as Hr.
  destruct (get_object_eq s id b A Hr off object Hoff Hl) as (r & o & E & _ & Hro). exists r, o. split; [exact E|].
  destruct (valid_object s b off) as [t|] eqn:Ht.
  - destruct Hro as [-> Hb]. pose proof (object_sizeof_range t). destruct (valid_object_inside s b off t Ht) as (Ha & _ & Hin).
    split; [split; [intros _; by exists t|lia]|]. split; [done|]. split; [exact Ha|]. split; [exact Hin|exact Hb].
  - subst r. split; [split; [lia|intros [? [=]]]|done].
Qed.

(** The object at 24, in a buffer that holds the client's bytes. *)
Definition demo_filled : binder_alloc :=
  match copy_in demo_txn_env 0 0 4096 160 demo_txn with Some (_, T) => t_alloc T | None => demo_space end.

Lemma demo_filled_access : access demo_filled 0 demo_buffer.
Proof.
  destruct (copy_in_done demo_txn_env demo_txn_env_ok 0 demo_buffer demo_tr 24 0 demo_buffer_for demo_txn 0 4096 160 demo_access)
    as (e & al & E & T); [lia|lia|vm_compute; discriminate|done|].
  assert (Ef : demo_filled = al) by (unfold demo_filled; by rewrite E). rewrite Ef. exact (access_touched _ _ _ _ _ demo_access T).
Qed.

Lemma get_object_exact_witness : exists o, binder_get_object 0 24 (replicate 40 0) demo_filled = Some ((40, o), demo_filled) /\
  obj_type o = TYPE_PTR.
Proof.
  destruct (get_object_exact demo_filled 0 demo_buffer 24 (replicate 40 0) demo_filled_access) as (r & o & E & _);
    [vm_compute; split; [discriminate|reflexivity]..|reflexivity|].
  exists o. assert (Er : match binder_get_object 0 24 (replicate 40 0) demo_filled with
    | Some ((r, o), _) => r = 40 /\ obj_type o = TYPE_PTR | None => False end) by (vm_compute; split; reflexivity).
  rewrite E in Er. destruct Er as [-> Ho]. split; [exact E|exact Ho].
Defined.

(** ** The discipline of fix-ups *)


(** ** The objects of a transaction *)

(** C36: from the copy of the sender's data to the end of the loop,
    [binder_transaction] always ends, whatever bytes the sender supplied:
    it writes only inside the transaction's buffer, keeps the allocator and
    the object graph well formed, and at a failure reports a negative error
    with the offset at which it stopped, up to which every object is in
    place. *)
Theorem translate_objects_safe env id b tr extra secctx S : env_ok env -> buffer_for b tr extra secctx ->
  access (t_alloc S) id b -> inv (t_graph S) -> objects_ready env id b tr extra secctx S ->
  exists res al g l, translate_objects env id tr extra secctx S = Some (res, add_fixups l (set_graph g (set_alloc al S))) /\
    touched (range (t_alloc S) b 0 (bsize (t_alloc S) id)) (t_alloc S) al /\ wf al /\ inv g /\
    match res with
    | None => True
    | Some (e, failed_at) => e < 0 /\ (failed_at = 0 \/ exists N st objs, offsets_size b = 8 * Z.of_nat N /\
        (length objs < N)%nat /\ failed_at = off_start b + 8 * Z.of_nat (length objs) /\ placed b N al st objs)
    end.
Proof.
  intros Eo Hb A I Hready. destruct (translate_objects_done env Eo id b tr extra secctx Hb S A I Hready)
    as (res & S' & E & al & g & l & -> & T & I' & Hres).
  exists res, al, g, l. split; [exact E|]. split; [exact T|]. split; [apply (tc_wf _ _ _ T), A|]. split; [exact I'|].
  destruct res as [[e failed_at]|]; [|done]. destruct Hres as [He [[-> _]|H]]; (split; [exact He|]); [by left|by right].
Qed.

Lemma translate_objects_safe_witness : exists S', translate_objects demo_txn_env 0 demo_tr 24 0 demo_txn = Some (None, S') /\ wf (t_alloc S').
Proof.
  destruct (translate_objects_safe demo_txn_env 0 demo_buffer demo_tr 24 0 demo_txn demo_txn_env_ok demo_buffer_for demo_access
    (graph_reachable_inv _ demo_asked_reachable) demo_objects_ready) as (res & al & g & l & E & _ & W & _).
  assert (Hres : match translate_objects demo_txn_env 0 demo_tr 24 0 demo_txn with Some (None, _) => True | _ => False end)
    by (vm_compute; exact Logic.I).
  rewrite E in Hres. destruct res; [destruct Hres|]. eexists. split; [exact E|exact W].
Defined.




(** A parent at offset 0 of the data is refused: the offset of the last
    object fixed up doubles as the mark that there is none, so the first
    example of what [binder_validate_fixup] documents as allowed fails with
    [-EINVAL] when the outer buffer object comes first in the data. *)
Theorem parent_at_zero_refused s id b N st objs p object bp : access s id b -> is_u64 (data_size b) -> is_u64 (offsets_size b) ->
  is_u64 (extra_buffers_size b) -> offsets_size b = 8 * Z.of_nat N -> placed b N s st objs -> length object = 40%nat ->
  off_at b s p = 0 -> last_fixup_obj_off st = off_at b s p -> has_parent bp = true -> bbo_parent bp = Z.of_nat p -> is_u64 (bbo_parent bp) ->
  binder_fixup_parent id object bp (off_start b) (Z.of_nat (length objs)) (last_fixup_obj_off st) (last_fixup_min_off st) s = Some (- EINVAL, s).
Proof.
  intros A Hd Ho He HN P Hl Hz Hlast Hhp Hidx Hu. pose proof (access_roomy s id b A Hd Ho He) as Hr.
  unfold binder_fixup_parent. rewrite Hhp. cbn [negb].
  destruct (validate_ptr_placed s id b N A Hr HN st objs P object (bbo_parent bp) Hl Hu) as (r & E & Hres).
  erewrite bind_eq by exact E. destruct r as [[o off]|]; [|done]. rewrite Hlast, Hz. unfold binder_validate_fixup.
  change (0 =? 0) with true. cbv iota. by erewrite bind_eq by reflexivity.
Qed.

(** An outer buffer A at offset 0, and B with parent A and offset 0. *)
Definition zero_data : list Z :=
  le_write 4 TYPE_PTR ++ le_write 4 0 ++ le_write 8 12288 ++ le_write 8 16 ++ le_write 8 0 ++ le_write 8 0 ++
  le_write 4 TYPE_PTR ++ le_write 4 1 ++ le_write 8 16384 ++ le_write 8 5 ++ le_write 8 0 ++ le_write 8 0.
Definition zero_env : txn_env :=
  TxnEnv 2 1 false (fun _ => None) (fun _ => None) (fun _ => None) (fun _ => 0) (fun _ => true) (fun _ => true) (fun _ _ => None)
    (fun _ => 0) (fun a => if a <? 8192 then nth (Z.to_nat (a - 4096)) zero_data 0 else if a <? 12288
      then nth (Z.to_nat (a - 8192)) (le_write 8 0 ++ le_write 8 40) 0 else 0) (fun _ _ => 0) (Some 0) (replicate 40 0).
Definition zero_tr : binder_transaction_data := TxnData 1 0 0 4096 8192 80 16.
Definition zero_space : binder_alloc := after (binder_alloc_new_buf demo_env (Some 1%nat) 80 16 24 false) demo_mapped.
Definition zero_buffer : binder_buffer := default (Buffer true false false 0 None None 0 0 0 0) (store zero_space !! 0%nat).
Definition zero_txn : txn := Txn zero_space demo_asked [] [] [] [].

Lemma zero_access : access zero_space 0 zero_buffer.
Proof.
  split; [|vm_compute; reflexivity|vm_compute; reflexivity|left; vm_compute; reflexivity].
  apply (new_buf_wf demo_env 1 80 16 24 false demo_mapped 0); [apply demo_mapped_wf|vm_compute; reflexivity|by split..|].
  vm_compute. reflexivity.
Qed.
Lemma zero_buffer_for : buffer_for zero_buffer zero_tr 24 0.
Proof. split; [vm_compute; reflexivity..| |]; vm_compute; repeat split; discriminate. Qed.
Lemma zero_env_ok : env_ok zero_env.
Proof. split; [intros a n Hn; simpl; lia|reflexivity]. Qed.
Lemma zero_ready : objects_ready zero_env 0 zero_buffer zero_tr 24 0 zero_txn.
Proof. apply objects_readyb_ok. vm_compute. reflexivity. Qed.

(** The run stops at the second offset, with A in place. *)
Lemma zero_run : exists al st (objs : list obj), access al 0 zero_buffer /\ placed zero_buffer 2 al st objs /\ length objs = 1%nat /\
  (exists S', translate_objects zero_env 0 zero_tr 24 0 zero_txn = Some (Some (- EINVAL, 88), S') /\ t_alloc S' = al).
Proof.
  destruct (translate_objects_done zero_env zero_env_ok 0 zero_buffer zero_tr 24 0 zero_buffer_for zero_txn zero_access
    (graph_reachable_inv _ demo_asked_reachable) zero_ready) as (res & S' & E & al & g & l & -> & T & _ & H).
  assert (Hres : match translate_objects zero_env 0 zero_tr 24 0 zero_txn with Some (r, _) => r = Some (- EINVAL, 88) | _ => False end)
    by (vm_compute; reflexivity).
  rewrite E in Hres. subst res. destruct H as [_ [[Hno _]|(N & st & objs & HN & Hlen & Hat & P)]]; [discriminate Hno|].
  assert (H16 : offsets_size zero_buffer = 16) by (vm_compute; reflexivity). assert (N = 2%nat) as -> by lia.
  assert (Hos : off_start zero_buffer = 80) by (vm_compute; reflexivity). rewrite Hos in Hat.
  exists al, st, objs. split; [exact (access_touched _ _ _ _ _ zero_access T)|]. split; [exact P|]. split; [lia|].
  eexists. split; [exact E|done].
Qed.

Lemma parent_at_zero_refused_witness : exists s st bp, has_parent bp = true /\
  binder_fixup_parent 0 (replicate 40 0) bp 80 1 (last_fixup_obj_off st) (last_fixup_min_off st) s = Some (- EINVAL, s).
Proof.
  destruct zero_run as (al & st & objs & A & P & Hlen & S' & E & Hal).
  assert (Hoff : off_at zero_buffer al 0 = 0).
  { assert (Hr : roomy al 0 zero_buffer) by (apply access_roomy; [exact A|vm_compute; split; [discriminate|reflexivity]..]).
    pose proof (copy_from_eq al 0 zero_buffer A Hr 80 8 uninit_size) as Hc.
    assert (Hread : match translate_objects zero_env 0 zero_tr 24 0 zero_txn with
      | Some (_, T) => match binder_alloc_copy_from_buffer uninit_size 0 80 8 (t_alloc T) with Some ((_, l), _) => le_read 8 l = 0 | None => False end
      | None => False end) by (vm_compute; reflexivity).
    rewrite E, Hal in Hread. rewrite Hc in Hread; [|lia|lia| |done|simpl; lia].
    - rewrite app_nil_r in Hread. exact Hread.
    - pose proof (rm_parts _ _ _ Hr) as Hp. assert (Hs : up8 (data_size zero_buffer) + up8 (offsets_size zero_buffer) +
        up8 (extra_buffers_size zero_buffer) = 120) by (vm_compute; reflexivity). lia. }
  assert (Hlast : last_fixup_obj_off st = off_at zero_buffer al 0).
  { destruct (pl_last _ _ _ _ _ P) as [->|(j & <- & Hp)]; [done|]. apply on_path_lt in Hp. by replace j with 0%nat by lia. }
  exists al, st, (le_write 4 TYPE_PTR ++ le_write 4 1 ++ replicate 32 0). split; [vm_compute; reflexivity|].
  pose proof (parent_at_zero_refused al 0 zero_buffer 2 st objs 0 (replicate 40 0) (le_write 4 TYPE_PTR ++ le_write 4 1 ++ replicate 32 0) A) as H.
  rewrite Hlen in H. apply H; [vm_compute; split; [discriminate|reflexivity]..|vm_compute; reflexivity|exact P|reflexivity|exact Hoff|exact Hlast|
    vm_compute; reflexivity|vm_compute; reflexivity|vm_compute; split; [discriminate|reflexivity]].
Defined.

(** ** Descriptors *)

Lemma add_fixups_held l S : held_files (add_fixups l S) ≡ₚ l.*1 ++ held_files S.
Proof. simpl. apply Permutation_app_tail. symmetry. apply Permutation_rev. Qed.


(** no file leaks from a transaction that is torn down: whatever came of
    the objects, and wherever it stopped, [binder_free_txn_fixups] lets go
    exactly the files that were taken. *)
Theorem torn_down_holds_no_file env id b tr extra secctx S : env_ok env -> buffer_for b tr extra secctx ->
  access (t_alloc S) id b -> inv (t_graph S) -> objects_ready env id b tr extra secctx S -> fd_fixups S = [] ->
  exists res S' held, translate_objects env id tr extra secctx S = Some (res, S') /\
    binder_free_txn_fixups S' = Some (tt, set_fixups [] (set_held held S')) /\ held ≡ₚ held_files S.
Proof.
  intros Eo Hb A I Hready Hno. destruct (translate_objects_done env Eo id b tr extra secctx Hb S A I Hready)
    as (res & S' & E & al & g & l & -> & _).
  destruct (free_fixups_done l (held_files S) (add_fixups l (set_graph g (set_alloc al S)))) as (held & E2 & Hh);
    [simpl; by rewrite Hno|exact (add_fixups_held l (set_graph g (set_alloc al S)))|]. by exists res, (add_fixups l (set_graph g (set_alloc al S))), held.
Qed.


(** Torn down at once, and after the failure at the second object. *)
Lemma torn_down_holds_no_file_witness :
  (exists S' held, translate_objects demo_txn_env 0 demo_tr 24 0 demo_txn = Some (None, S') /\ length (held_files S') = 3%nat /\
     binder_free_txn_fixups S' = Some (tt, set_fixups [] (set_held held S')) /\ held ≡ₚ []) /\
  exists S' held, translate_objects zero_env 0 zero_tr 24 0 zero_txn = Some (Some (- EINVAL, 88), S') /\
     binder_free_txn_fixups S' = Some (tt, set_fixups [] (set_held held S')).
Proof.
  split.
  - assert (Hres : match translate_objects demo_txn_env 0 demo_tr 24 0 demo_txn with Some (None, T) => length (held_files T) = 3%nat | _ => False end)
      by (vm_compute; reflexivity).
    destruct (torn_down_holds_no_file demo_txn_env 0 demo_buffer demo_tr 24 0 demo_txn demo_txn_env_ok demo_buffer_for demo_access
      (graph_reachable_inv _ demo_asked_reachable) demo_objects_ready eq_refl) as (res & S' & held & E & E2 & Hh).
    rewrite E in Hres. destruct res as [?|]; [destruct Hres|]. exists S', held. split; [exact E|]. split; [exact Hres|]. split; [exact E2|exact Hh].
  - assert (Hres : match translate_objects zero_env 0 zero_tr 24 0 zero_txn with Some (r, _) => r = Some (- EINVAL, 88) | _ => False end)
      by (vm_compute; reflexivity).
    destruct (torn_down_holds_no_file zero_env 0 zero_buffer zero_tr 24 0 zero_txn zero_env_ok zero_buffer_for zero_access
      (graph_reachable_inv _ demo_asked_reachable) zero_ready eq_refl) as (res & S' & held & E & E2 & _).
    rewrite E in Hres. subst res. exists S', held. split; [exact E|exact E2].
Defined.
