(* ===== verification/BinderTxn.v ===== *)
(** * Transactions

    [src/binder/binder.c]: the transactions under way, the stacks of the
    threads that make and serve them, sending, replying, delivering and
    failing them, and what the end of a thread leaves behind.

    The state [driver] has the object graph, one map for the transactions,
    one for the allocators of the processes, and the files the driver holds.
    Each critical section of the code is run as a whole; a call that takes
    several locks in turn is the sequence of its sections, and
    [BinderTxnSystem] lets other threads run between the parts of
    [binder_transaction]. *)

From Stdlib Require Import ZArith Lia.
From stdpp Require Import base option gmap sets list.
From S2P Require Import Prelude RbTree BinderAlloc BinderNode BinderTranslate BinderObjects.

(** ** Data *)

Definition EPROTO : Z := 71.

Definition TF_ONE_WAY : Z := 1.
Definition one_way (flags : Z) : bool := negb (Z.land flags TF_ONE_WAY =? 0).

Definition BR_ERROR : Z := 2147774976.
Definition BR_DEAD_REPLY : Z := 29189.
Definition BR_TRANSACTION_COMPLETE : Z := 29190.
Definition BR_FAILED_REPLY : Z := 29201.

(** [t_buffer] is a buffer of the allocator of the process in front. *)
Record binder_transaction := Transaction {
  t_debug_id : Z;
  t_from : option nat;
  from_parent : option nat;
  to_proc : option nat;
  to_thread : option nat;
  to_parent : option nat;
  need_reply : bool;
  t_buffer : option (nat * nat);
  t_code : Z;
  t_flags : Z;
  sender_euid : Z;
  t_fixups : list binder_txn_fd_fixup;
  security_ctx : Z
}.

Record driver := Driver {
  graph : binder;
  transactions : gmap nat binder_transaction;
  allocs : gmap nat binder_alloc;
  d_files : list nat;
  d_installed : list (Z * nat);
  d_closing : list (Z * nat)
}.

Definition set_d_graph x s := Driver x (transactions s) (allocs s) (d_files s) (d_installed s) (d_closing s).
Definition set_transactions x s := Driver (graph s) x (allocs s) (d_files s) (d_installed s) (d_closing s).
Definition set_allocs x s := Driver (graph s) (transactions s) x (d_files s) (d_installed s) (d_closing s).

(** [t->from = x], and so on. *)
Definition set_from x X := Transaction (t_debug_id X) x (from_parent X) (to_proc X) (to_thread X) (to_parent X)
  (need_reply X) (t_buffer X) (t_code X) (t_flags X) (sender_euid X) (t_fixups X) (security_ctx X).
Definition set_from_parent x X := Transaction (t_debug_id X) (t_from X) x (to_proc X) (to_thread X) (to_parent X)
  true (t_buffer X) (t_code X) (t_flags X) (sender_euid X) (t_fixups X) (security_ctx X).
Definition set_served by_ over X := Transaction (t_debug_id X) (t_from X) (from_parent X) (to_proc X) by_ over
  (need_reply X) (t_buffer X) (t_code X) (t_flags X) (sender_euid X) (t_fixups X) (security_ctx X).
Definition set_orphan X := Transaction (t_debug_id X) (t_from X) (from_parent X) None None (to_parent X)
  (need_reply X) None (t_code X) (t_flags X) (sender_euid X) (t_fixups X) (security_ctx X).
Definition set_t_buffer b X := Transaction (t_debug_id X) (t_from X) (from_parent X) (to_proc X) (to_thread X) (to_parent X)
  (need_reply X) b (t_code X) (t_flags X) (sender_euid X) (t_fixups X) (security_ctx X).
Definition set_t_fixups l X := Transaction (t_debug_id X) (t_from X) (from_parent X) (to_proc X) (to_thread X) (to_parent X)
  (need_reply X) (t_buffer X) (t_code X) (t_flags X) (sender_euid X) l (security_ctx X).
Definition set_security_ctx a X := Transaction (t_debug_id X) (t_from X) (from_parent X) (to_proc X) (to_thread X) (to_parent X)
  (need_reply X) (t_buffer X) (t_code X) (t_flags X) (sender_euid X) (t_fixups X) a.

Definition set_stack x T := Thread (thread_proc T) (thread_pid T) (looper T) (looper_need_return T) x (process_todo T)
  (return_error T) (reply_error T) (thread_tmp_ref T) (thread_is_dead T).
Definition set_looper x T := Thread (thread_proc T) (thread_pid T) x (looper_need_return T) (transaction_stack T) (process_todo T)
  (return_error T) (reply_error T) (thread_tmp_ref T) (thread_is_dead T).
Definition set_need_return x T := Thread (thread_proc T) (thread_pid T) (looper T) x (transaction_stack T) (process_todo T)
  (return_error T) (reply_error T) (thread_tmp_ref T) (thread_is_dead T).
Definition set_errors return_ reply T := Thread (thread_proc T) (thread_pid T) (looper T) (looper_need_return T) (transaction_stack T)
  (process_todo T) return_ reply (thread_tmp_ref T) (thread_is_dead T).
Definition set_life tmp dead T := Thread (thread_proc T) (thread_pid T) (looper T) (looper_need_return T) (transaction_stack T)
  (process_todo T) (return_error T) (reply_error T) tmp dead.

Definition set_proc_threads t P := Proc t (proc_nodes P) (refs_by_desc P) (refs_by_node P) (waiting_threads P) (proc_context P)
  (proc_pid P) (proc_is_dead P) (max_threads P) (requested_threads P) (requested_threads_started P) (proc_tmp_ref P).
Definition set_proc_dead x P := Proc (proc_threads P) (proc_nodes P) (refs_by_desc P) (refs_by_node P) (waiting_threads P)
  (proc_context P) (proc_pid P) x (max_threads P) (requested_threads P) (requested_threads_started P) (proc_tmp_ref P).
Definition set_loopers max requested started P := Proc (proc_threads P) (proc_nodes P) (refs_by_desc P) (refs_by_node P)
  (waiting_threads P) (proc_context P) (proc_pid P) (proc_is_dead P) max requested started (proc_tmp_ref P).

Definition set_has_async x N := Node (node_debug_id N) (node_proc N) (node_refs N) (internal_strong_refs N)
  (local_weak_refs N) (local_strong_refs N) (tmp_refs N) (node_ptr N) (node_cookie N) (has_strong_ref N)
  (pending_strong_ref N) (has_weak_ref N) (pending_weak_ref N) x (accept_fds N) (txn_security_ctx N) (min_priority N).

Definition set_transaction x b := Buffer (free b) (allow_user_free b) (async_transaction b) (debug_id b) x (target_node b)
  (data_size b) (offsets_size b) (BinderAlloc.extra_buffers_size b) (user_data b).
Definition set_user_free x b := Buffer (free b) x (async_transaction b) (debug_id b) (transaction b) (target_node b)
  (data_size b) (offsets_size b) (BinderAlloc.extra_buffers_size b) (user_data b).
Definition set_owner id t n b := Buffer (free b) (allow_user_free b) (async_transaction b) id t n
  (data_size b) (offsets_size b) (BinderAlloc.extra_buffers_size b) (user_data b).

(** ** The parts of the state *)

Definition in_graph {A} (m : M binder A) : M driver A := fun s =>
  match m (graph s) with Some (a, g) => Some (a, set_d_graph g s) | None => None end.

(** The allocator embedded in process [p]. *)
Definition in_alloc {A} (p : nat) (m : M binder_alloc A) : M driver A := fun s =>
  match allocs s !! p with
  | Some al => match m al with Some (a, al) => Some (a, set_allocs (<[p := al]> (allocs s)) s) | None => None end
  | None => None
  end.

Definition txn_at (t : nat) : M driver binder_transaction := let! s := get in deref (transactions s !! t).
Definition put_txn (t : nat) (X : binder_transaction) : M driver unit :=
  modify (fun s => set_transactions (<[t := X]> (transactions s)) s).
Definition upd_txn (t : nat) (f : binder_transaction -> binder_transaction) : M driver unit :=
  let! X := txn_at t in put_txn t (f X).

(** The objects of transaction [t] and its buffer in process [p]. *)
Definition in_txn {A} (p t : nat) (m : M txn A) : M driver A := fun s =>
  match transactions s !! t, allocs s !! p with
  | Some X, Some al =>
    match m (Txn al (graph s) (t_fixups X) (d_files s) (d_installed s) (d_closing s)) with
    | Some (a, r) => Some (a, Driver (t_graph r) (<[t := set_t_fixups (fd_fixups r) X]> (transactions s))
                                (<[p := t_alloc r]> (allocs s)) (held_files r) (installed_fds r) (closing_fds r))
    | None => None
    end
  | _, _ => None
  end.

Definition upd_thread (A : nat) (f : binder_thread -> binder_thread) : M driver unit :=
  in_graph (let! T := thread_at A in put_thread_at A (f T)).
Definition upd_proc (p : nat) (f : binder_proc -> binder_proc) : M driver unit :=
  in_graph (let! P := proc_at p in put_proc_at p (f P)).
Definition upd_buf (b : nat * nat) (f : binder_buffer -> binder_buffer) : M driver unit :=
  in_alloc (fst b) (let! B := buf_at (snd b) in update_buf (snd b) (f B)).

(** What is outside the driver during one call: the memory manager, what the
    objects of a transaction ask for, the allocations of a transaction, of
    its completion and of a buffer structure, the security module's answer
    on the transaction, the security context of the sender (the error and
    the bytes), the sender's effective uid, and whether the current task is
    of a process. *)
Record driver_env := DriverEnv {
  env_mm : page_env;
  env_objects : txn_env;
  kzalloc_txn : option nat;
  kzalloc_complete : option nat;
  kzalloc_buffer : option nat;
  security_transaction : Z;
  secid_to_secctx : Z * list Z;
  task_euid : Z;
  is_current : nat -> bool
}.

Section driver.
Context `{RB : Rbtree}.
Context (E : driver_env).

(** ** Lifetimes *)

Definition binder_free_proc (p : nat) : M driver unit :=
  let! s := get in
  bug_on (negb (bool_decide (queue (proc_todo p) (graph s) = []))) ;!
  bug_on (negb (bool_decide (queue (delivered_death p) (graph s) = []))) ;!
  in_alloc p (binder_alloc_deferred_release (env_mm E)) ;!
  in_graph (binder_stats_deleted BINDER_STAT_PROC) ;!
  modify (fun s => set_allocs (delete p (allocs s)) (set_d_graph (set_procs (delete p (procs (graph s))) (graph s)) s)).

Definition binder_proc_dec_tmpref (p : nat) : M driver unit :=
  let! P := in_graph (proc_at p) in
  let tmp := s32 (proc_tmp_ref P - 1) in
  in_graph (put_proc_at p (set_proc_tmp_ref tmp P)) ;!
  if proc_is_dead P && bool_decide (rb_inorder (proc_threads P) = []) && (tmp =? 0) then binder_free_proc p else ret tt.

Definition binder_free_thread (A : nat) : M driver unit :=
  let! s := get in
  bug_on (negb (bool_decide (queue (thread_todo A) (graph s) = []))) ;!
  in_graph (binder_stats_deleted BINDER_STAT_THREAD) ;!
  let! T := in_graph (thread_at A) in
  binder_proc_dec_tmpref (thread_proc T) ;!
  modify (fun s => set_d_graph (set_threads (delete A (threads (graph s))) (graph s)) s).

Definition binder_thread_dec_tmpref (A : nat) : M driver unit :=
  let! T := in_graph (thread_at A) in
  let tmp := s32 (thread_tmp_ref T - 1) in
  in_graph (put_thread_at A (set_life tmp (thread_is_dead T) T)) ;!
  if thread_is_dead T && (tmp =? 0) then binder_free_thread A else ret tt.

Definition thread_inc_tmpref (A : nat) : M driver unit :=
  upd_thread A (fun T => set_life (s32 (thread_tmp_ref T + 1)) (thread_is_dead T) T).

Definition binder_get_txn_from (t : nat) : M driver (option nat) :=
  let! X := txn_at t in
  match t_from X with
  | Some from => thread_inc_tmpref from ;! ret (Some from)
  | None => ret None
  end.

Definition binder_get_txn_from_and_acq_inner (t : nat) : M driver (option nat) :=
  let! from := binder_get_txn_from t in
  match from with
  | None => ret None
  | Some from =>
    let! X := txn_at t in
    match t_from X with
    | Some from' => bug_on (negb (bool_decide (from = from'))) ;! ret (Some from)
    | None => binder_thread_dec_tmpref from ;! ret None
    end
  end.

(** ** Stacks *)

Definition binder_pop_transaction_ilocked (target_thread t : nat) : M driver unit :=
  let! T := in_graph (thread_at target_thread) in
  bug_on (negb (bool_decide (transaction_stack T = Some t))) ;!
  let! X := txn_at t in
  bug_on (negb (bool_decide (t_from X = Some target_thread))) ;!
  in_graph (put_thread_at target_thread (set_stack (from_parent X) T)) ;!
  put_txn t (set_from None X).

(** The files of fixups that were not applied are dropped; neither the
    allocator nor the graph takes part. *)
Definition free_txn_fixups (t : nat) : M driver unit := fun s =>
  match transactions s !! t with
  | Some X =>
    match binder_free_txn_fixups (Txn binder_alloc_init (graph s) (t_fixups X) (d_files s) (d_installed s) (d_closing s)) with
    | Some (_, r) => Some (tt, Driver (graph s) (<[t := set_t_fixups (fd_fixups r) X]> (transactions s))
                                (allocs s) (held_files r) (installed_fds r) (closing_fds r))
    | None => None
    end
  | None => None
  end.

Definition binder_free_transaction (t : nat) : M driver unit :=
  let! X := txn_at t in
  (match to_proc X, t_buffer X with
   | Some _, Some b => upd_buf b (set_transaction None)
   | _, _ => ret tt
   end) ;!
  free_txn_fixups t ;!
  modify (fun s => set_transactions (delete t (transactions s)) s) ;!
  in_graph (binder_stats_deleted BINDER_STAT_TRANSACTION).

(** The caller learns of the failure, unless an error is already waiting for
    it. *)
Definition post_reply_error (A : nat) (error_code : Z) : M driver unit :=
  let! T := in_graph (thread_at A) in
  if reply_error T =? BR_OK then
    upd_thread A (set_errors (return_error T) error_code) ;!
    in_graph (binder_enqueue_thread_work_ilocked A (WReplyError A)) ;!
    in_graph (wake_up A false)
  else ret tt.

Fixpoint send_failed_reply_loop (fuel t : nat) (error_code : Z) : M driver unit :=
  match fuel with
  | O => oops
  | S fuel =>
    let! target_thread := binder_get_txn_from_and_acq_inner t in
    match target_thread with
    | Some A =>
      binder_pop_transaction_ilocked A t ;!
      post_reply_error A error_code ;!
      binder_thread_dec_tmpref A ;!
      binder_free_transaction t
    | None =>
      let! X := txn_at t in
      binder_free_transaction t ;!
      match from_parent X with
      | None => ret tt
      | Some next => send_failed_reply_loop fuel next error_code
      end
    end
  end.

(** Every round frees a transaction. *)
Definition binder_send_failed_reply (t : nat) (error_code : Z) : M driver unit :=
  let! X := txn_at t in
  bug_on (one_way (t_flags X)) ;!
  let! s := get in
  send_failed_reply_loop (S (size (transactions s))) t error_code.

Definition binder_cleanup_transaction (t : nat) (error_code : Z) : M driver unit :=
  let! X := txn_at t in
  let! b := deref (t_buffer X) in
  let! B := in_alloc (fst b) (buf_at (snd b)) in
  if negb (bool_decide (target_node B = None)) && negb (one_way (t_flags X))
  then binder_send_failed_reply t error_code else binder_free_transaction t.

(** ** Sending: the target *)

(** What the labels at the end of [binder_transaction] give back: the
    transaction replied to, the thread and the process whose [tmp_ref] was
    taken, the node whose counts were. *)
Record txn_target := Target {
  tg_reply_to : option nat;
  tg_thread : option nat;
  tg_proc : option nat;
  tg_node : option nat
}.
Definition no_target : txn_target := Target None None None None.

(** [return_error] and [return_error_param]. *)
Definition txn_error : Type := Z * Z.

Definition proc_inc_tmpref (p : nat) : M driver unit :=
  upd_proc p (fun P => set_proc_tmp_ref (s32 (proc_tmp_ref P + 1)) P).

(** BC_REPLY: who waits for the transaction on top of the stack. *)
Definition reply_target (A : nat) : M driver (option txn_error * txn_target) :=
  let! T := in_graph (thread_at A) in
  match transaction_stack T with
  | None => ret (Some (BR_FAILED_REPLY, - EPROTO), no_target)
  | Some in_reply_to =>
    let! X := txn_at in_reply_to in
    if negb (bool_decide (to_thread X = Some A)) then ret (Some (BR_FAILED_REPLY, - EPROTO), no_target)
    else
      in_graph (put_thread_at A (set_stack (to_parent X) T)) ;!
      let! target_thread := binder_get_txn_from_and_acq_inner in_reply_to in
      match target_thread with
      | None => ret (Some (BR_DEAD_REPLY, 0), Target (Some in_reply_to) None None None)
      | Some f =>
        let! F := in_graph (thread_at f) in
        if negb (bool_decide (transaction_stack F = Some in_reply_to))
        then ret (Some (BR_FAILED_REPLY, - EPROTO), no_target)
        else
          proc_inc_tmpref (thread_proc F) ;!
          ret (None, Target (Some in_reply_to) (Some f) (Some (thread_proc F)) None)
      end
  end.

(** The node a call is addressed to, with its process. *)
Definition handle_target (p : nat) (handle : Z) : M driver (Z * txn_target) :=
  let refs_on (n : nat) : M driver (Z * txn_target) :=
    let! tp := in_graph (binder_get_node_refs_for_txn n) in
    ret (match tp with
         | Some tp => (0, Target None None (Some tp) (Some n))
         | None => (BR_DEAD_REPLY, no_target)
         end) in
  if negb (handle =? 0) then
    let! ref := in_graph (binder_get_ref_olocked p handle true) in
    match ref with
    | Some r => let! R := in_graph (ref_at r) in let! n := deref (ref_node R) in refs_on n
    | None => ret (BR_FAILED_REPLY, no_target)
    end
  else
    let! P := in_graph (proc_at p) in
    let! s := get in
    match binder_context_mgr_node (graph s) !! proc_context P with
    | Some n => refs_on n
    | None => ret (BR_DEAD_REPLY, no_target)
    end.

(** Up the callers of [tmp]: a thread of [target_proc] that waits for one of
    them. *)
Fixpoint waiting_caller (fuel target_proc : nat) (tmp : option nat) : M driver (option nat) :=
  match fuel with
  | O => oops
  | S fuel =>
    match tmp with
    | None => ret None
    | Some t =>
      let! X := txn_at t in
      match t_from X with
      | Some from =>
        let! F := in_graph (thread_at from) in
        if decide (thread_proc F = target_proc) then thread_inc_tmpref from ;! ret (Some from)
        else waiting_caller fuel target_proc (from_parent X)
      | None => waiting_caller fuel target_proc (from_parent X)
      end
    end
  end.

Definition is_transaction (w : binder_work) : bool := match w with WTransaction _ => true | _ => false end.

(** BC_TRANSACTION *)
Definition call_target (A : nat) (tr : binder_transaction_data) : M driver (option txn_error * txn_target) :=
  let! T := in_graph (thread_at A) in
  let p := thread_proc T in
  let! r := handle_target p (tr_handle tr) in
  let '(error, tg) := r in
  match tg_node tg, tg_proc tg with
  | Some n, Some tp =>
    let! P := in_graph (proc_at p) in
    let! TP := in_graph (proc_at tp) in
    if (tr_handle tr =? 0) && (proc_pid TP =? proc_pid P) then ret (Some (BR_FAILED_REPLY, - EINVAL), tg)
    else
      in_graph (warn_on_b (bool_decide (p = tp))) ;!
      if decide (p = tp) then ret (Some (BR_FAILED_REPLY, - EINVAL), tg)
      else if security_transaction E <? 0 then ret (Some (BR_FAILED_REPLY, - EPERM), tg)
      else
        let! s := get in
        let sync := negb (one_way (tr_flags tr)) in
        if sync && default false (is_transaction <$> head (queue (thread_todo A) (graph s)))
        then ret (Some (BR_FAILED_REPLY, - EPROTO), tg)
        else
          let! T := in_graph (thread_at A) in
          match transaction_stack T with
          | Some tmp =>
            if negb sync then ret (None, tg)
            else
              let! X := txn_at tmp in
              if negb (bool_decide (to_thread X = Some A)) then ret (Some (BR_FAILED_REPLY, - EPROTO), tg)
              else
                let! target_thread := waiting_caller (S (size (transactions s))) tp (Some tmp) in
                ret (None, Target None target_thread (Some tp) (Some n))
          | None => ret (None, tg)
          end
  | _, _ => ret (Some (error, - EINVAL), no_target)
  end.

(** ** Sending: the transaction *)

(** What was allocated goes away again. *)
Definition undo_txn (t : nat) (complete : bool) : M driver unit :=
  (if complete then in_graph (binder_stats_deleted BINDER_STAT_TRANSACTION_COMPLETE) else ret tt) ;!
  modify (fun s => set_transactions (delete t (transactions s)) s) ;!
  in_graph (binder_stats_deleted BINDER_STAT_TRANSACTION).

Definition with_ends (A tp : nat) (flags : option Z) (e : txn_env) : txn_env :=
  TxnEnv A tp (env_denied e) (kzalloc_node e) (kzalloc_ref e) (fget e) (transfer_file e) (kzalloc_fixup e) (kzalloc_close e)
    (file_close_fd e) (get_unused_fd e) (user_byte e) (not_copied e) flags (stack_object e).

(** From [err_copy_data_failed] on, with the buffer's objects before
    [buffer_offset] translated. *)
Definition undo_buffer (A t tp b : nat) (tg : txn_target) (buffer_offset : Z) : M driver unit :=
  free_txn_fixups t ;!
  in_txn tp t (binder_transaction_buffer_release (with_ends A tp None (env_objects E)) b (is_current E tp) buffer_offset true) ;!
  (match tg_node tg with Some n => in_graph (binder_dec_node_tmpref n) | None => ret tt end) ;!
  upd_buf (tp, b) (set_transaction None) ;!
  in_alloc tp (binder_alloc_free_buf (env_mm E) b) ;!
  undo_txn t true.

(** The security context a node asks for; the error, or the bytes. *)
Definition sender_secctx (node : option nat) : M driver (Z + option (list Z)) :=
  match node with
  | None => ret (inr None)
  | Some n =>
    let! N := in_graph (node_at n) in
    ret (if negb (txn_security_ctx N) then inr None
         else if negb (fst (secid_to_secctx E) =? 0) then inl (fst (secid_to_secctx E))
         else inr (Some (snd (secid_to_secctx E))))
  end.

Definition secctx_space (secctx : option (list Z)) : Z :=
  match secctx with Some bytes => ALIGN (Z.of_nat (length bytes)) 8 | None => 0 end.

(** The context goes to the end of the buffer. *)
Definition store_secctx (t tp b : nat) (tr : binder_transaction_data) (extra : Z) (secctx : option (list Z)) : M driver unit :=
  match secctx with
  | None => ret tt
  | Some bytes =>
    let len := Z.of_nat (length bytes) in
    let buf_offset := u64 (ALIGN (tr_data_size tr) 8 + ALIGN (tr_offsets_size tr) 8 + ALIGN extra 8 - ALIGN len 8) in
    let! B := in_alloc tp (buf_at b) in
    let! err := in_alloc tp (binder_alloc_copy_to_buffer b buf_offset bytes len) in
    in_graph (warn_on_b (negb (err =? 0))) ;!
    upd_txn t (set_security_ctx (if err =? 0 then u64 (user_data B + buf_offset) else 0))
  end.

(** The result is the error with what is still to be given back, or the
    transaction and its completion. *)
Definition fill_transaction (A t c tp b : nat) (id : Z) (tr : binder_transaction_data) (extra : Z) (secctx : option (list Z))
    (tg : txn_target) : M driver ((txn_error * txn_target) + (nat * nat)) :=
  store_secctx t tp b tr extra secctx ;!
  upd_buf (tp, b) (set_owner id (Some t) (tg_node tg)) ;!
  let! flags := match tg_reply_to tg with
                | Some r => let! X := txn_at r in ret (Some (t_flags X))
                | None => ret None
                end in
  let! r := in_txn tp t (translate_objects (with_ends A tp flags (env_objects E)) b tr extra (secctx_space secctx)) in
  match r with
  | Some (param, buffer_offset) =>
    undo_buffer A t tp b tg buffer_offset ;!
    ret (inl ((BR_FAILED_REPLY, param), Target (tg_reply_to tg) (tg_thread tg) (tg_proc tg) None))
  | None => ret (inr (t, c))
  end.

Definition build_transaction (A : nat) (reply : bool) (id : Z) (tr : binder_transaction_data) (extra : Z) (tg : txn_target)
    : M driver ((txn_error * txn_target) + (nat * nat)) :=
  let! tp := deref (tg_proc tg) in
  match kzalloc_txn E with
  | None => ret (inl ((BR_FAILED_REPLY, - ENOMEM), tg))
  | Some t =>
    in_graph (binder_stats_created BINDER_STAT_TRANSACTION) ;!
    let from := if negb reply && negb (one_way (tr_flags tr)) then Some A else None in
    put_txn t (Transaction id from None (Some tp) (tg_thread tg) None false None (tr_code tr) (tr_flags tr) (task_euid E) [] 0) ;!
    match kzalloc_complete E with
    | None => undo_txn t false ;! ret (inl ((BR_FAILED_REPLY, - ENOMEM), tg))
    | Some c =>
      in_graph (binder_stats_created BINDER_STAT_TRANSACTION_COMPLETE) ;!
      let! secctx := sender_secctx (tg_node tg) in
      match secctx with
      | inl err => undo_txn t true ;! ret (inl ((BR_FAILED_REPLY, err), tg))
      | inr secctx =>
        let extra := u64 (extra + secctx_space secctx) in
        if extra <? secctx_space secctx then undo_txn t true ;! ret (inl ((BR_FAILED_REPLY, EINVAL), tg))
        else
          let! r := in_alloc tp (binder_alloc_new_buf (env_mm E) (kzalloc_buffer E) (tr_data_size tr) (tr_offsets_size tr)
                      extra (negb reply && one_way (tr_flags tr))) in
          match r with
          | inr err =>
            undo_txn t true ;!
            ret (inl ((if err =? - ESRCH then BR_DEAD_REPLY else BR_FAILED_REPLY, err), tg))
          | inl b =>
            upd_txn t (set_t_buffer (Some (tp, b))) ;!
            fill_transaction A t c tp b id tr extra secctx tg
          end
      end
    end
  end.

(** ** Sending: the queue *)

(** [t] is for [thread], or for a thread yet to be chosen. *)
Definition proc_transaction_locked (t : nat) (oneway : bool) (node p : nat) (thread : option nat) : M binder bool :=
  bug_on (oneway && negb (bool_decide (thread = None))) ;!
  let! N := node_at node in
  let pending_async := oneway && has_async_transaction N in
  (if oneway && negb (has_async_transaction N) then put_node_at node (set_has_async true N) else ret tt) ;!
  let! P := proc_at p in
  let! dead := (match thread with Some A => let! T := thread_at A in ret (thread_is_dead T) | None => ret false end) in
  if proc_is_dead P || dead then ret false
  else
    let! thread := (match thread with
                    | None => if pending_async then ret None else binder_select_thread_ilocked p
                    | Some A => ret (Some A)
                    end) in
    (match thread with
     | Some A => binder_enqueue_thread_work_ilocked A (WTransaction t)
     | None => binder_enqueue_work_ilocked (WTransaction t) (Some (if pending_async then async_todo node else proc_todo p))
     end) ;!
    (if pending_async then ret tt else binder_wakeup_thread_ilocked p thread (negb oneway)) ;!
    ret true.

Definition binder_proc_transaction (t p : nat) (thread : option nat) : M driver bool :=
  let! X := txn_at t in
  let! b := deref (t_buffer X) in
  let! B := in_alloc (fst b) (buf_at (snd b)) in
  let! node := deref (target_node B) in
  in_graph (proc_transaction_locked t (one_way (t_flags X)) node p thread).

(** [t->buffer->async_transaction] *)
Definition is_async (t : nat) : M driver bool :=
  let! X := txn_at t in
  let! b := deref (t_buffer X) in
  let! B := in_alloc (fst b) (buf_at (snd b)) in ret (async_transaction B).

(** The three ways to queue; [false] when the target has died. *)
Definition commit_reply (A t c f in_reply_to : nat) : M driver bool :=
  in_graph (binder_enqueue_thread_work A (WTransactionComplete c)) ;!
  let! F := in_graph (thread_at f) in
  if thread_is_dead F then ret false
  else
    let! async := is_async t in
    bug_on async ;!
    binder_pop_transaction_ilocked f in_reply_to ;!
    in_graph (binder_enqueue_thread_work_ilocked f (WTransaction t)) ;!
    in_graph (wake_up f true) ;!
    binder_free_transaction in_reply_to ;!
    ret true.

Definition commit_call (A t c tp : nat) (thread : option nat) : M driver bool :=
  let! async := is_async t in
  bug_on async ;!
  in_graph (binder_enqueue_deferred_thread_work_ilocked A (WTransactionComplete c)) ;!
  let! T := in_graph (thread_at A) in
  upd_txn t (set_from_parent (transaction_stack T)) ;!
  upd_thread A (set_stack (Some t)) ;!
  let! ok := binder_proc_transaction t tp thread in
  (if ok : bool then ret tt else binder_pop_transaction_ilocked A t) ;!
  ret ok.

Definition commit_oneway (A t c tp : nat) (node : option nat) : M driver bool :=
  bug_on (bool_decide (node = None)) ;!
  let! async := is_async t in
  bug_on (negb async) ;!
  in_graph (binder_enqueue_thread_work A (WTransactionComplete c)) ;!
  binder_proc_transaction t tp None.

Definition commit (A : nat) (tr : binder_transaction_data) (t c : nat) (tg : txn_target) : M driver bool :=
  let! tp := deref (tg_proc tg) in
  match tg_reply_to tg with
  | Some r => let! f := deref (tg_thread tg) in commit_reply A t c f r
  | None =>
    if one_way (tr_flags tr) then commit_oneway A t c tp (tg_node tg) else commit_call A t c tp (tg_thread tg)
  end.

(** ** Sending: the ends *)

Definition opt {A} (f : A -> M driver unit) (x : option A) : M driver unit :=
  match x with Some x => f x | None => ret tt end.

Definition finish_transaction (tg : txn_target) : M driver unit :=
  opt binder_thread_dec_tmpref (tg_thread tg) ;!
  opt binder_proc_dec_tmpref (tg_proc tg) ;!
  opt (fun n => in_graph (binder_dec_node_tmpref n)) (tg_node tg).

(** The sender is told, and whoever waits for a reply that will not come. *)
Definition post_return_error (A : nat) (cmd : Z) : M driver unit :=
  upd_thread A (fun T => set_errors cmd (reply_error T) T) ;!
  in_graph (binder_enqueue_thread_work A (WReturnError A)).

Definition fail_transaction (A : nat) (error : txn_error) (tg : txn_target) : M driver unit :=
  opt binder_thread_dec_tmpref (tg_thread tg) ;!
  opt binder_proc_dec_tmpref (tg_proc tg) ;!
  opt (fun n => in_graph (binder_dec_node n true false ;! binder_dec_node_tmpref n)) (tg_node tg) ;!
  let! T := in_graph (thread_at A) in
  bug_on (negb (return_error T =? BR_OK)) ;!
  match tg_reply_to tg with
  | Some r => post_return_error A BR_TRANSACTION_COMPLETE ;! binder_send_failed_reply r (fst error)
  | None => post_return_error A (fst error)
  end.

(** [err_dead_proc_or_thread] *)
Definition fail_dead (A : nat) (tr : binder_transaction_data) (t c : nat) (tg : txn_target) : M driver unit :=
  in_graph (binder_dequeue_work (WTransactionComplete c)) ;!
  let! X := txn_at t in
  let! b := deref (t_buffer X) in
  undo_buffer A t (fst b) (snd b) tg (u64 (ALIGN (tr_data_size tr) 8 + tr_offsets_size tr)) ;!
  fail_transaction A (BR_DEAD_REPLY, 0) (Target (tg_reply_to tg) (tg_thread tg) (tg_proc tg) None).

Definition select_target (A : nat) (reply : bool) (tr : binder_transaction_data) : M driver (option txn_error * txn_target) :=
  if reply then reply_target A else call_target A tr.

Definition commit_transaction (A : nat) (tr : binder_transaction_data) (t c : nat) (tg : txn_target) : M driver unit :=
  let! ok := commit A tr t c tg in
  if ok : bool then finish_transaction tg else fail_dead A tr t c tg.

(** The function [binder_transaction]. *)
Definition binder_transact (A : nat) (reply : bool) (tr : binder_transaction_data) (extra_buffers_size : Z) : M driver unit :=
  let! id := in_graph next_id in
  let! target := select_target A reply tr in
  match target with
  | (Some error, tg) => fail_transaction A error tg
  | (None, tg) =>
    let! built := build_transaction A reply id tr extra_buffers_size tg in
    match built with
    | inl (error, tg) => fail_transaction A error tg
    | inr (t, c) => commit_transaction A tr t c tg
    end
  end.

(** ** Buffers given back *)

(** The next asynchronous transaction of the node, now that one is done. *)
Definition next_async (p node : nat) : M binder unit :=
  let! N := node_at node in
  bug_on (negb (has_async_transaction N)) ;!
  bug_on (negb (bool_decide (node_proc N = Some p))) ;!
  let! w := binder_dequeue_work_head_ilocked (async_todo node) in
  match w with
  | None => put_node_at node (set_has_async false N)
  | Some w => binder_enqueue_work_ilocked w (Some (proc_todo p)) ;! binder_wakeup_proc_ilocked p
  end.

(** The transaction a buffer is of forgets it; without one, the objects are
    released on an empty transaction. *)
Definition release_buffer_objects (p b : nat) : M driver unit := fun s =>
  match allocs s !! p with
  | Some al =>
    match binder_transaction_buffer_release (with_ends p p None (env_objects E)) b (is_current E p) 0 false
            (Txn al (graph s) [] (d_files s) (d_installed s) (d_closing s)) with
    | Some (_, r) => Some (tt, Driver (t_graph r) (transactions s) (<[p := t_alloc r]> (allocs s)) (held_files r)
                                (installed_fds r) (closing_fds r))
    | None => None
    end
  | None => None
  end.

Definition binder_free_buf (p b : nat) : M driver unit :=
  let! B := in_alloc p (buf_at b) in
  (match transaction B with
   | Some t => upd_txn t (set_t_buffer None) ;! upd_buf (p, b) (set_transaction None)
   | None => ret tt
   end) ;!
  (match target_node B with
   | Some node => if async_transaction B then in_graph (next_async p node) else ret tt
   | None => ret tt
   end) ;!
  release_buffer_objects p b ;!
  in_alloc p (binder_alloc_free_buf (env_mm E) b).

(** BC_FREE_BUFFER; a refused pointer is only logged. *)
Definition bc_free_buffer (p : nat) (data_ptr : Z) : M driver unit :=
  let! r := in_alloc p (binder_alloc_prepare_to_free data_ptr) in
  match r with
  | Found b => binder_free_buf p b
  | _ => ret tt
  end.

(** ** Delivering *)

(** What is written for the receiver of a transaction or a reply. *)
Record br_transaction := BrTransactionData {
  br_reply : bool;
  br_ptr : Z;
  br_cookie : Z;
  br_code : Z;
  br_flags : Z;
  br_sender_pid : Z;
  br_sender_euid : Z;
  br_data_size : Z;
  br_offsets_size : Z;
  br_buffer : Z;
  br_offsets : Z;
  br_secctx : Z
}.

(** The commands [binder_thread_read] writes. *)
Inductive br :=
  | BrNoop
  | BrError (cmd : Z)
  | BrTransactionComplete
  | BrNode (c : br_node)
  | BrDeath (c : br_death) (cookie : Z)
  | BrTransaction (tr : br_transaction)
  | BrSpawnLooper.

Definition SIZEOF_TRANSACTION_DATA : Z := 64.
Definition SIZEOF_TRANSACTION_DATA_SECCTX : Z := 72.

Definition br_size (c : br) : Z :=
  match c with
  | BrNoop | BrError _ | BrTransactionComplete | BrSpawnLooper => 4
  | BrNode _ => 20
  | BrDeath _ _ => 12
  | BrTransaction tr => 4 + (if br_secctx tr =? 0 then SIZEOF_TRANSACTION_DATA else SIZEOF_TRANSACTION_DATA_SECCTX)
  end.

(** What a round of the loop of [binder_thread_read] ends with: the next
    round, [break], [goto retry], or [return]. *)
Inductive round :=
  | Continue (out : list br)
  | Leave (out : list br)
  | Retry
  | Return (error : Z).

(** [t_from->proc->tsk], as far as it is reported. *)
Definition sender_pid (t_from : option nat) : M driver Z :=
  match t_from with
  | Some f => let! F := in_graph (thread_at f) in let! P := in_graph (proc_at (thread_proc F)) in ret (proc_pid P)
  | None => ret 0
  end.

(** The receiver serves the call now; a reply or an asynchronous call is
    done with. *)
Definition hand_over (A t : nat) (reply : bool) : M driver unit :=
  let! X := txn_at t in
  if negb reply && negb (one_way (t_flags X)) then
    let! T := in_graph (thread_at A) in
    put_txn t (set_served (Some A) (transaction_stack T) X) ;!
    in_graph (put_thread_at A (set_stack (Some t) T))
  else binder_free_transaction t.

(** [put_user at_]: whether what is written at offset [at_] of the receiver's
    read buffer arrives. *)
Definition deliver_transaction (A t : nat) (put_user : Z -> bool) (ptr : Z) : M driver round :=
  let! T := in_graph (thread_at A) in
  let p := thread_proc T in
  let! X := txn_at t in
  let! b := deref (t_buffer X) in
  let! B := in_alloc (fst b) (buf_at (snd b)) in
  let! node := (match target_node B with
                | Some n => let! N := in_graph (node_at n) in ret (Some N)
                | None => ret None
                end) in
  let! t_from := binder_get_txn_from t in
  let! pid := sender_pid t_from in
  let! err := in_txn p t (binder_apply_fd_fixups (env_objects E) (snd b)) in
  let is_reply := bool_decide (target_node B = None) in
  if negb (err =? 0) then
    opt binder_thread_dec_tmpref t_from ;!
    upd_buf b (set_transaction None) ;!
    binder_cleanup_transaction t BR_FAILED_REPLY ;!
    binder_free_buf p (snd b) ;!
    ret (if is_reply then if put_user ptr then Leave [BrError BR_FAILED_REPLY] else Return (- EFAULT)
         else Continue [])
  else
    let is_reply := is_reply && (security_ctx X =? 0) in
    let tr := BrTransactionData is_reply
      (match node with Some N => node_ptr N | None => 0 end) (match node with Some N => node_cookie N | None => 0 end)
      (t_code X) (t_flags X) pid (sender_euid X) (data_size B) (offsets_size B) (user_data B)
      (u64 (user_data B + ALIGN (data_size B) 8)) (security_ctx X) in
    if negb (put_user ptr) || negb (put_user (ptr + 4)) then
      opt binder_thread_dec_tmpref t_from ;!
      binder_cleanup_transaction t BR_FAILED_REPLY ;!
      ret (Return (- EFAULT))
    else
      opt binder_thread_dec_tmpref t_from ;!
      upd_buf b (set_user_free true) ;!
      hand_over A t is_reply ;!
      ret (Leave [BrTransaction tr]).

(** An error of a thread: it is written, then reset. *)
Definition read_error (cmd : Z) (reset : binder_thread -> binder_thread) (x : nat) (put_user : Z -> bool) (ptr : Z)
    : M driver round :=
  in_graph (warn_on_b (cmd =? BR_OK)) ;!
  if negb (put_user ptr) then ret (Return (- EFAULT))
  else upd_thread x reset ;! ret (Continue [BrError cmd]).

(** One item that is not of the graph. *)
Definition read_item (A : nat) (w : binder_work) (put_user : Z -> bool) (ptr : Z) : M driver round :=
  match w with
  | WTransaction t => deliver_transaction A t put_user ptr
  | WTransactionComplete _ =>
    in_graph (binder_stats_deleted BINDER_STAT_TRANSACTION_COMPLETE) ;!
    ret (if put_user ptr then Continue [BrTransactionComplete] else Return (- EFAULT))
  | WReturnError x =>
    let! T := in_graph (thread_at x) in
    read_error (return_error T) (fun T => set_errors BR_OK (reply_error T) T) x put_user ptr
  | WReplyError x =>
    let! T := in_graph (thread_at x) in
    read_error (reply_error T) (fun T => set_errors (return_error T) BR_OK T) x put_user ptr
  | _ => oops
  end.

(** One round, at offset [ptr] of a read buffer of [size] bytes. *)
Definition read_round (A : nat) (wait_for_proc_work : bool) (put_node : br_node -> bool) (put_user : Z -> bool) (size ptr : Z)
    : M driver round :=
  let! list := in_graph (read_list A wait_for_proc_work) in
  match list with
  | None =>
    let! T := in_graph (thread_at A) in
    ret (if (ptr =? 4) && negb (looper_need_return T) then Retry else Leave [])
  | Some _ =>
    if u64 (size - ptr) <? SIZEOF_TRANSACTION_DATA_SECCTX + 4 then ret (Leave [])
    else
      let! r := in_graph (read_work A wait_for_proc_work put_node) in
      match r with
      | ReadNothing => oops
      | ReadNode (err, out) => ret (if err =? 0 then Continue (map BrNode out) else Return err)
      | ReadDeath (c, cookie) =>
        ret (if negb (put_user ptr) || negb (put_user (ptr + 4)) then Return (- EFAULT)
             else match c with BR_DEAD_BINDER => Leave [BrDeath c cookie] | _ => Continue [BrDeath c cookie] end)
      | ReadOther w => read_item A w put_user ptr
      end
  end.

(** At [retry]: is the thread free for the work of its process? *)
Definition read_retry (A : nat) : M driver bool :=
  let! wait := in_graph (binder_available_for_proc_work_ilocked A) in
  upd_thread A (fun T => set_looper (Z.lor (looper T) BINDER_LOOPER_STATE_WAITING) T) ;!
  ret wait.

(** [binder_wait_for_work]: around [schedule], and the answer it waits for. *)
Definition wait_enter (A : nat) (do_proc_work : bool) : M driver bool :=
  let! work := in_graph (binder_has_work_ilocked A do_proc_work) in
  if work : bool then ret true
  else
    let! T := in_graph (thread_at A) in
    (if do_proc_work then upd_proc (thread_proc T) (fun P => set_waiting (A :: waiting_threads P) P) else ret tt) ;!
    ret false.

Definition wait_leave (A : nat) : M driver unit :=
  let! T := in_graph (thread_at A) in
  upd_proc (thread_proc T) (fun P => set_waiting (list_del A (waiting_threads P)) P).

Definition read_waited (A : nat) : M driver unit :=
  upd_thread A (fun T => set_looper (Z.land (looper T) (Z.lnot BINDER_LOOPER_STATE_WAITING)) T).

(** [done]: ask for another looper when all are busy. *)
Definition read_done (A : nat) (put_user : Z -> bool) : M driver (Z * list br) :=
  let! T := in_graph (thread_at A) in
  let! P := in_graph (proc_at (thread_proc T)) in
  if (requested_threads P =? 0) && bool_decide (waiting_threads P = []) && (requested_threads_started P <? max_threads P)
     && negb (Z.land (looper T) (Z.lor BINDER_LOOPER_STATE_REGISTERED BINDER_LOOPER_STATE_ENTERED) =? 0)
  then
    upd_proc (thread_proc T) (fun P => set_loopers (max_threads P) (s32 (requested_threads P + 1)) (requested_threads_started P) P) ;!
    ret (if put_user 0 then (0, [BrSpawnLooper]) else (- EFAULT, []))
  else ret (0, []).

(** BC_REGISTER_LOOPER, BC_ENTER_LOOPER, BC_EXIT_LOOPER *)
Definition bc_register_looper (A : nat) : M driver unit :=
  let! T := in_graph (thread_at A) in
  let! P := in_graph (proc_at (thread_proc T)) in
  let! invalid := (if negb (Z.land (looper T) BINDER_LOOPER_STATE_ENTERED =? 0) || (requested_threads P =? 0) then ret true
                   else
                     upd_proc (thread_proc T) (fun P => set_loopers (max_threads P) (s32 (requested_threads P - 1))
                                                 (s32 (requested_threads_started P + 1)) P) ;!
                     ret false) in
  upd_thread A (fun T => set_looper (Z.lor (if invalid : bool then Z.lor (looper T) BINDER_LOOPER_STATE_INVALID else looper T)
                                       BINDER_LOOPER_STATE_REGISTERED) T).

Definition bc_enter_looper (A : nat) : M driver unit :=
  upd_thread A (fun T => set_looper (Z.lor (if Z.land (looper T) BINDER_LOOPER_STATE_REGISTERED =? 0 then looper T
                                            else Z.lor (looper T) BINDER_LOOPER_STATE_INVALID) BINDER_LOOPER_STATE_ENTERED) T).

Definition bc_exit_looper (A : nat) : M driver unit :=
  upd_thread A (fun T => set_looper (Z.lor (looper T) BINDER_LOOPER_STATE_EXITED) T).

(** BC_REQUEST_DEATH_NOTIFICATION when [kzalloc] fails. *)
Definition death_no_memory (A : nat) : M driver unit :=
  let! T := in_graph (thread_at A) in
  in_graph (warn_on_b (negb (return_error T =? BR_OK))) ;!
  post_return_error A BR_ERROR.

(** After a read, in [binder_ioctl_write_read]: who waits for what is left? *)
Definition read_left (p : nat) : M driver unit :=
  let! empty := in_graph (binder_worklist_empty_ilocked (proc_todo p)) in
  if empty : bool then ret tt else in_graph (binder_wakeup_proc_ilocked p).

(** [binder_poll], up to [poll_wait]. *)
Definition poll_start (A : nat) : M driver bool :=
  upd_thread A (fun T => set_looper (Z.lor (looper T) BINDER_LOOPER_STATE_POLL) T) ;!
  in_graph (binder_available_for_proc_work_ilocked A).

(** The end of [binder_ioctl]. *)
Definition ioctl_done (A : nat) : M driver unit := upd_thread A (set_need_return false).

(** BINDER_SET_MAX_THREADS *)
Definition set_max_threads (p : nat) (max : Z) : M driver unit :=
  upd_proc p (fun P => set_loopers max (requested_threads P) (requested_threads_started P) P).

(** ** The end of threads and processes *)

(** A leftover item; nodes and undelivered notifications of dead binders are
    dropped as they are. *)
Definition release_item (w : binder_work) : M driver unit :=
  match w with
  | WTransaction t => binder_cleanup_transaction t BR_DEAD_REPLY
  | WTransactionComplete _ => in_graph (binder_stats_deleted BINDER_STAT_TRANSACTION_COMPLETE)
  | WDeath d =>
    let! D := in_graph (death_at d) in
    match death_work_type D with
    | Some BINDER_WORK_DEAD_BINDER_AND_CLEAR | Some BINDER_WORK_CLEAR_DEATH_NOTIFICATION =>
      in_graph (modify (fun s => set_deaths (delete d (deaths s)) s) ;! binder_stats_deleted BINDER_STAT_DEATH)
    | _ => ret tt
    end
  | WReturnError _ | WReplyError _ | WNode _ => ret tt
  end.

(** [fuel]: one more than the list has items. *)
Fixpoint binder_release_work (fuel : nat) (l : worklist) : M driver unit :=
  match fuel with
  | O => oops
  | S fuel =>
    let! w := in_graph (binder_dequeue_work_head_ilocked l) in
    match w with
    | None => ret tt
    | Some w => release_item w ;! binder_release_work fuel l
    end
  end.

Definition release_list (l : worklist) : M driver unit :=
  let! s := get in binder_release_work (S (length (queue l (graph s)))) l.

(** Down the stack of a dying thread: what it serves has no server any more,
    what it waits for no caller. *)
Fixpoint detach_loop (fuel A : nat) (t : option nat) (active : Z) : M driver Z :=
  match fuel with
  | O => oops
  | S fuel =>
    match t with
    | None => ret active
    | Some t =>
      let! X := txn_at t in
      if decide (to_thread X = Some A) then
        opt (fun b => upd_buf b (set_transaction None)) (t_buffer X) ;!
        put_txn t (set_orphan X) ;!
        detach_loop fuel A (to_parent X) (active + 1)
      else if decide (t_from X = Some A) then
        put_txn t (set_from None X) ;!
        detach_loop fuel A (from_parent X) (active + 1)
      else oops
    end
  end.

(** [binder_thread_release], the first critical section: the transaction on
    top, if the thread was serving it. *)
Definition thread_detach (A : nat) : M driver (option nat * Z) :=
  let! T := in_graph (thread_at A) in
  let p := thread_proc T in
  proc_inc_tmpref p ;!
  upd_proc p (fun P => set_proc_threads (rb_erase A (proc_threads P)) P) ;!
  let! send_reply := (match transaction_stack T with
                      | Some t => let! X := txn_at t in ret (if decide (to_thread X = Some A) then Some t else None)
                      | None => ret None
                      end) in
  upd_thread A (fun T => set_life (s32 (thread_tmp_ref T + 1)) true T) ;!
  let! s := get in
  let! active := detach_loop (S (size (transactions s))) A (transaction_stack T) 0 in
  ret (send_reply, active).

Definition binder_thread_release (A : nat) : M driver Z :=
  let! r := thread_detach A in
  opt (fun t => binder_send_failed_reply t BR_DEAD_REPLY) (fst r) ;!
  release_list (thread_todo A) ;!
  binder_thread_dec_tmpref A ;!
  ret (snd r).

(** A node of a dying process: its asynchronous work, then the node. *)
Definition release_node (p : nat) (count : Z) : M driver (option Z) :=
  let! P := in_graph (proc_at p) in
  match rb_first (proc_nodes P) with
  | None => ret None
  | Some n =>
    in_graph (binder_inc_node_tmpref_ilocked n) ;!
    in_graph (put_proc_at p (set_proc_nodes (rb_erase n (proc_nodes P)) P)) ;!
    release_list (async_todo n) ;!
    let! c := in_graph (binder_node_release n count) in
    ret (Some c)
  end.

Fixpoint release_node_loop (fuel p : nat) (count : Z) : M driver Z :=
  match fuel with
  | O => oops
  | S fuel =>
    let! r := release_node p count in
    match r with None => ret count | Some count => release_node_loop fuel p count end
  end.

Fixpoint release_thread_loop (fuel p : nat) (threads active : Z) : M driver (Z * Z) :=
  match fuel with
  | O => oops
  | S fuel =>
    let! P := in_graph (proc_at p) in
    match rb_first (proc_threads P) with
    | None => ret (threads, active)
    | Some A => let! a := binder_thread_release A in release_thread_loop fuel p (threads + 1) (active + a)
    end
  end.

(** [fuel]: one more than the process has threads, nodes, references. *)
Definition binder_deferred_release (fuel p : nat) : M driver unit :=
  in_graph (release_context_mgr p) ;!
  upd_proc p (fun P => set_proc_dead true (set_proc_tmp_ref (s32 (proc_tmp_ref P + 1)) P)) ;!
  let! _ := release_thread_loop fuel p 0 0 in
  let! _ := release_node_loop fuel p 0 in
  let! _ := in_graph (release_refs fuel p 0) in
  release_list (proc_todo p) ;!
  release_list (delivered_death p) ;!
  binder_proc_dec_tmpref p.

(** The loop over the threads of a process whose file is flushed. *)
Fixpoint flush_loop (l : list nat) (wake_count : Z) : M driver Z :=
  match l with
  | [] => ret wake_count
  | A :: l =>
    upd_thread A (set_need_return true) ;!
    let! T := in_graph (thread_at A) in
    if Z.land (looper T) BINDER_LOOPER_STATE_WAITING =? 0 then flush_loop l wake_count
    else in_graph (wake_up A false) ;! flush_loop l (wake_count + 1)
  end.
Definition binder_deferred_flush (p : nat) : M driver Z :=
  let! P := in_graph (proc_at p) in flush_loop (rb_inorder (proc_threads P)) 0.

(** ** Threads and processes coming in *)

Definition cmp_thread_pid (pid : Z) (A : nat) : M binder comparison :=
  let! T := thread_at A in ret (Z.compare pid (thread_pid T)).

(** [kz] is the allocation made when the lookup fails. *)
Definition binder_get_thread (p : nat) (pid : Z) (kz : option nat) : M driver (option nat) :=
  let! P := in_graph (proc_at p) in
  let! found := in_graph (rb_find (cmp_thread_pid pid) (proc_threads P)) in
  match found, kz with
  | Some A, _ => ret (Some A)
  | None, None => ret None
  | None, Some new_thread =>
    let! linked := in_graph (rb_link (cmp_thread_pid pid) new_thread (proc_threads P)) in
    match linked with
    | inl A => ret (Some A)
    | inr t =>
      in_graph (binder_stats_created BINDER_STAT_THREAD) ;!
      in_graph (put_thread_at new_thread (Thread p pid 0 true None false BR_OK BR_OK 0 false)) ;!
      upd_proc p (set_proc_threads (rb_insert_color new_thread t)) ;!
      ret (Some new_thread)
    end
  end.

(** The state [binder_open] sets up, for a process on context [c]. *)
Definition binder_open (kz : option nat) (c : nat) (pid : Z) : M driver Z :=
  match kz with
  | None => ret (- ENOMEM)
  | Some p =>
    in_graph (binder_stats_created BINDER_STAT_PROC) ;!
    modify (fun s => set_allocs (<[p := binder_alloc_init]> (allocs s)) s) ;!
    in_graph (put_proc_at p (Proc rb_leaf rb_leaf rb_leaf rb_leaf [] c pid false 0 0 0 0)) ;!
    ret 0
  end.
End driver.
