(* ===== verification/BinderCalls.v ===== *)
(** * Who calls whom

    An abstract account of the transactions under way: of each synchronous
    call, who made it, inside which call, who serves it; of each thread, its
    stack and what it is doing; of each todo list, the transactions on it.
    [inv] is what must hold between critical sections so that a reply finds
    its caller.  [BinderTxnView] reads this account off the driver's state. *)

From Stdlib Require Import ZArith Lia.
From stdpp Require Import base option gmap sets list relations.
From S2P Require Import Prelude BinderNode.

(** ** The account *)

Record call := Call {
  caller : option nat;
  parent : option nat;
  server : option nat;
  under : option nat;
  dest : option nat;
  sync : bool
}.

(** What a thread is in the middle of: nothing; a read, perhaps asleep, that
    may take its process's work or not; a synchronous call to process [p],
    for thread [f] or any; a reply to [r] for thread [f]; an asynchronous
    call. *)
Inductive activity :=
  | Idle
  | Reading (proc_work : bool)
  | Waiting (proc_work : bool)
  | Calling (p : nat) (f : option nat)
  | Replying (r : nat) (f : option nat)
  | Posting.

#[export] Instance activity_eq_dec : EqDecision activity.
Proof. solve_decision. Defined.

(** [top]: the stack pointer of a thread that is alive; [todo]: the items of
    a list, those that are not transactions as [None]; [waits]: the threads
    on [waiting_threads]; [ready]: [process_todo]; [home]: a thread's process;
    [making]: the transaction a thread has allocated and not queued yet, and
    [draft] what it made of it. *)
Record calls := Calls {
  tx : gmap nat call;
  top : nat -> option (option nat);
  todo : worklist -> list (option nat);
  waits : nat -> bool;
  ready : nat -> bool;
  home : nat -> nat;
  doing : nat -> activity;
  making : nat -> option nat;
  draft : nat -> call
}.

Definition items (c : calls) (l : worklist) : list nat := omap id (todo c l).

Definition parent_of (c : calls) (u p : nat) : Prop := exists U, tx c !! u = Some U /\ parent U = Some p.
(** [u] was made inside [v], directly or not. *)
Definition inside (c : calls) : nat -> nat -> Prop := tc (parent_of c).

Definition incoming (c : calls) (A t : nat) : Prop :=
  exists X, tx c !! t = Some X /\ sync X = true /\ server X = Some A /\ caller X <> Some A.
Definition outgoing (c : calls) (A t : nat) : Prop :=
  exists X, tx c !! t = Some X /\ sync X = true /\ caller X = Some A /\ server X <> Some A.

(** The list is the stack of [A] from pointer [o] down: calls made and calls
    served alternate, each made inside the ones below it. *)
Inductive stack_ok (c : calls) (A : nat) : option nat -> list nat -> Prop :=
  | stack_nil : stack_ok c A None []
  | stack_in t X l : tx c !! t = Some X -> sync X = true -> server X = Some A -> caller X <> Some A ->
      (forall v, head l = Some v -> outgoing c A v /\ inside c t v) -> stack_ok c A (under X) l ->
      stack_ok c A (Some t) (t :: l)
  | stack_out t X l : tx c !! t = Some X -> sync X = true -> caller X = Some A -> server X <> Some A ->
      (forall v, head l = Some v -> incoming c A v) -> stack_ok c A (parent X) l ->
      stack_ok c A (Some t) (t :: l).

(** Thread [f] waits for the call, unless it is gone. *)
Definition expects (c : calls) (X : call) (f : option nat) : Prop :=
  caller X = f \/ caller X = None /\ forall F, f = Some F -> top c F = None.

Lemma expects_mono c c' X Y f : expects c X f -> caller Y = caller X -> (forall F, top c F = None -> top c' F = None) -> expects c' Y f.
Proof. intros [H|[H HF]] E Ht; [left; congruence|right]. split; [congruence|]. auto. Qed.

(** The process whose threads may take work from a list. *)
Definition reader (c : calls) (l : worklist) : option nat :=
  match l with
  | thread_todo A => Some (home c A)
  | proc_todo p => Some p
  | _ => None
  end.

(** About to take its process's work, or asleep until there is some. *)
Definition at_leisure (c : calls) (A : nat) : Prop := doing c A = Waiting true \/ doing c A = Reading true.

(** [lim] is a call in the hands of the thread at work: it has left its list
    or its server's stack. *)
Record inv (stk : nat -> list nat) (lim : option nat) (c : calls) : Prop := Inv {
  i_stack A o : top c A = Some o -> stack_ok c A o (stk A);
  i_dead A : top c A = None -> stk A = [];
  i_called t X A : tx c !! t = Some X -> sync X = true -> caller X = Some A -> t ∈ stk A;
  i_served t X A : tx c !! t = Some X -> sync X = true -> server X = Some A -> lim <> Some t ->
    t ∈ stk A \/ t ∈ items c (thread_todo A) \/ (exists f, doing c A = Replying t f);
  i_child u p : parent_of c u p -> exists U X, tx c !! u = Some U /\ tx c !! p = Some X /\ sync U = true /\ sync X = true /\
    caller U = server X /\ (forall l, p ∉ items c l) /\ (forall A f, doing c A <> Replying p f) /\ lim <> Some p;
  i_inj u u' p : parent_of c u p -> parent_of c u' p -> u = u';
  i_rank : exists rk : nat -> nat, (forall u p, parent_of c u p -> (rk p < rk u)%nat);
  i_item t l : t ∈ items c l -> exists X, tx c !! t = Some X /\
    (forall A, server X = Some A -> (t ∉ stk A) /\ l = thread_todo A) /\
    lim <> Some t /\ forall A f, doing c A <> Replying t f;
  i_once t l l' : t ∈ items c l -> t ∈ items c l' -> l' = l;
  i_nodup l : NoDup (items c l);
  i_directed A t X : top c A <> None -> t ∈ items c (thread_todo A) -> tx c !! t = Some X -> sync X = true ->
    server X = Some A -> exists v, head (stk A) = Some v /\ outgoing c A v /\ inside c t v;
  i_selected A t X : top c A <> None -> t ∈ items c (thread_todo A) -> tx c !! t = Some X -> server X = None ->
    stk A = [] /\ head (todo c (thread_todo A)) = Some (Some t);
  i_wait A : waits c A = true -> doing c A = Waiting true /\ todo c (thread_todo A) = [];
  i_free A : at_leisure c A -> stk A = [] /\ (todo c (thread_todo A) = [] \/ ready c A = true);
  i_busy A : doing c A <> Idle -> top c A <> None;
  i_replying A r f : doing c A = Replying r f -> exists X, tx c !! r = Some X /\ sync X = true /\ server X = Some A /\
    (r ∉ stk A) /\ expects c X f /\ lim <> Some r;
  i_calling A p f : doing c A = Calling p f -> home c A <> p /\ (forall v, head (stk A) = Some v -> incoming c A v) /\
    (forall t X, t ∈ items c (thread_todo A) -> tx c !! t = Some X -> server X <> None) /\
    (forall F, f = Some F -> top c F <> None -> home c F = p /\ exists u v, head (stk A) = Some u /\ head (stk F) = Some v /\
      outgoing c F v /\ (u = v \/ inside c u v));
  i_home t l X q : t ∈ items c l -> tx c !! t = Some X -> sync X = true -> reader c l = Some q -> dest X = Some q;
  i_away t X B : tx c !! t = Some X -> sync X = true -> caller X = Some B -> dest X <> Some (home c B);
  i_lim r : lim = Some r -> exists X, tx c !! r = Some X /\ sync X = true /\ forall A, server X = Some A -> r ∉ stk A;
  i_async n t X : t ∈ items c (async_todo n) -> tx c !! t = Some X -> sync X = false;
  i_making A t : making c A = Some t -> (tx c !! t = Some (draft c A) /\ sync (draft c A) = false) /\ (forall l, t ∉ items c l) /\
    forall B, making c B = Some t -> B = A
}.

(** No call was made inside [t]. *)
Definition childless (c : calls) (t : nat) : Prop := forall u, ~ parent_of c u t.

(** ** What the account says *)

Lemma inside_child c u p : inside c u p -> exists v, parent_of c v p.
Proof. intros H. induction H as [u p H|u v p H1 H2 IH]; [by exists u|done]. Qed.

Lemma item_childless stk lim c t l : inv stk lim c -> t ∈ items c l -> childless c t.
Proof. intros I Ht u Hu. destruct (i_child _ _ _ I u t Hu) as (U & X & _ & _ & _ & _ & _ & Hn & _). by apply (Hn l). Qed.

Lemma lim_childless stk c t : inv stk (Some t) c -> childless c t.
Proof. intros I u Hu. destruct (i_child _ _ _ I u t Hu) as (U & X & _ & _ & _ & _ & _ & _ & _ & Hn). done. Qed.

Lemma replying_childless stk lim c A t f : inv stk lim c -> doing c A = Replying t f -> childless c t.
Proof. intros I Hd u Hu. destruct (i_child _ _ _ I u t Hu) as (U & X & _ & _ & _ & _ & _ & _ & Hn & _). by apply (Hn A f). Qed.

(** Nothing is on top of a call inside which no other was made. *)
Lemma stack_tip c A o l t : stack_ok c A o l -> childless c t -> t ∈ l -> o = Some t /\ head l = Some t.
Proof.
  intros H Hc. induction H as [|u X l HX Hs Hv Hn Hh Hl IH|u X l HX Hs Hv Hn Hh Hl IH]; intros Ht; [by apply not_elem_of_nil in Ht|..].
  - apply elem_of_cons in Ht as [->|Ht]; [done|]. destruct (IH Ht) as [_ Hhd]. destruct (Hh t Hhd) as [_ Hin].
    destruct (inside_child c u t Hin) as [v Hv']. by destruct (Hc v).
  - apply elem_of_cons in Ht as [->|Ht]; [done|]. destruct (IH Ht) as [Hu _]. destruct (Hc u). by exists X.
Qed.

(** Every transaction on a stack is a call, made or served. *)
Lemma stack_role c A o l t : stack_ok c A o l -> t ∈ l -> incoming c A t \/ outgoing c A t.
Proof.
  induction 1 as [|u X l HX Hs Hv Hn Hh Hl IH|u X l HX Hs Hv Hn Hh Hl IH]; intros Ht; [by apply not_elem_of_nil in Ht|..];
    (apply elem_of_cons in Ht as [->|Ht]; [|by apply IH]); [left|right]; by exists X.
Qed.

Lemma stack_head c A o l : stack_ok c A o l -> head l = o.
Proof. by destruct 1. Qed.

(** The relations between calls depend on [tx] only, and grow with it. *)
Lemma inside_mono c c' u v : (forall x y, parent_of c x y -> parent_of c' x y) -> inside c u v -> inside c' u v.
Proof.
  intros H. induction 1 as [u v Hp|u w v Hp _ IH]; [by apply tc_once, H|]. eapply tc_l; [by apply H|done].
Qed.

(** A call nobody made a call inside is not on the way between others. *)
Lemma inside_without c c' r u v : childless c r -> (forall x y, x <> r -> parent_of c x y -> parent_of c' x y) ->
  inside c u v -> u <> r -> inside c' u v.
Proof.
  intros Hr H. induction 1 as [u v Hp|u w v Hp _ IH]; intros Hu; [by apply tc_once, H|].
  eapply tc_l; [by apply H|]. apply IH. intros ->. by apply (Hr u).
Qed.

Lemma inside_last c u z : inside c u z -> exists w, parent_of c w z /\ (u = w \/ inside c u w).
Proof.
  induction 1 as [u z Hp|u x z Hp _ (w & Hw & Hx)]; [exists u; split; [done|by left]|].
  exists w. split; [done|]. right. destruct Hx as [->|Hx]; [by apply tc_once|by eapply tc_l].
Qed.

(** Calls inside one call are a chain. *)
Lemma inside_chain stk lim c u u' v : inv stk lim c -> inside c u v -> inside c u' v -> u = u' \/ inside c u u' \/ inside c u' u.
Proof.
  intros I Hu Hu'. revert u' Hu'.
  apply (tc_ind_r (R := parent_of c) (fun z => forall u', inside c u' z -> u = u' \/ inside c u u' \/ inside c u' u) u); [| |exact Hu].
  - intros z Hp u' (w & Hw & Hx)%inside_last. rewrite (i_inj _ _ _ I w u z Hw Hp) in Hx. destruct Hx as [->|Hx]; tauto.
  - intros y z Hy Hp IH u' (w & Hw & Hx)%inside_last. rewrite (i_inj _ _ _ I w y z Hw Hp) in Hx.
    destruct Hx as [->|Hx]; [tauto|by apply IH].
Qed.

Lemma tip_unique stk lim c t t' v : inv stk lim c -> inside c t v -> inside c t' v -> childless c t -> childless c t' -> t = t'.
Proof.
  intros I Ht Ht' Hc Hc'. destruct (inside_chain _ _ _ _ _ _ I Ht Ht') as [?|[H|H]]; [done|..];
    destruct (inside_last _ _ _ H) as (w & Hw & _); [by destruct (Hc' w)|by destruct (Hc w)].
Qed.

(** A stack is the same in an account that agrees on its calls. *)
Lemma stack_same c c' A o l : stack_ok c A o l -> (forall t, t ∈ l -> tx c' !! t = tx c !! t) ->
  (forall u v, u ∈ l -> v ∈ l -> inside c u v -> inside c' u v) -> stack_ok c' A o l.
Proof.
  intros H Htx Hin.
  assert (Hio : forall v, v ∈ l -> (incoming c A v -> incoming c' A v) /\ (outgoing c A v -> outgoing c' A v)).
  { intros v Hv. unfold incoming, outgoing. by rewrite (Htx v Hv). }
  induction H as [|t X l HX Hs Hv Hn Hh Hl IH|t X l HX Hs Hv Hn Hh Hl IH]; [constructor|..].
  - assert (Hsub : forall x, x ∈ l -> x ∈ t :: l) by (intros; by right).
    eapply stack_in; [rewrite Htx by left; exact HX|done..| |].
    + intros v Hhd. destruct (Hh v Hhd) as [Ho Hi].
      assert (Hvl : v ∈ t :: l) by (right; destruct l; [done|injection Hhd as ->; left]).
      split; [by apply Hio|]. apply Hin; [left|done|done].
    + apply IH; auto.
  - assert (Hsub : forall x, x ∈ l -> x ∈ t :: l) by (intros; by right).
    eapply stack_out; [rewrite Htx by left; exact HX|done..| |].
    + intros v Hhd. apply Hio; [|by apply Hh]. right. destruct l; [done|injection Hhd as ->; left].
    + apply IH; auto.
Qed.

(** ** Steps that leave the calls alone

    Items that are not transactions come and go, and a thread may be taken
    off [waiting_threads]; nothing is queued for one that stays there, and
    nothing gets in front of a transaction. *)
Record calm (c c' : calls) : Prop := Calm {
  ca_tx : tx c' = tx c;
  ca_top A : top c' A = top c A;
  ca_doing A : doing c' A = doing c A;
  ca_items l : items c' l = items c l;
  ca_lead A t : head (todo c (thread_todo A)) = Some (Some t) -> head (todo c' (thread_todo A)) = Some (Some t);
  ca_waits A : waits c' A = true -> waits c A = true /\ (todo c (thread_todo A) = [] -> todo c' (thread_todo A) = []);
  ca_ready A : at_leisure c A -> todo c (thread_todo A) = [] \/ ready c A = true ->
    todo c' (thread_todo A) = [] \/ ready c' A = true;
  ca_home A : home c' A = home c A \/ top c A = None /\ items c (thread_todo A) = [];
  ca_making A : making c' A = making c A /\ draft c' A = draft c A
}.

Lemma calm_refl c : calm c c.
Proof. split; try done. by left. Qed.

Lemma leisure_same c c' A : (forall A, doing c' A = doing c A) -> at_leisure c' A <-> at_leisure c A.
Proof. intros H. unfold at_leisure. by rewrite H. Qed.

Lemma calm_trans c1 c2 c3 : calm c1 c2 -> calm c2 c3 -> calm c1 c3.
Proof.
  intros [X1 T1 D1 I1 L1 W1 R1 H1 M1] [X2 T2 D2 I2 L2 W2 R2 H2 M2]. split; [congruence| | | | | | | |].
  - intros A. by rewrite T2.
  - intros A. by rewrite D2.
  - intros l. by rewrite I2.
  - intros A t H. by apply L2, L1.
  - intros A H. destruct (W2 A H) as [Hb E2], (W1 A Hb) as [Ha E1]. auto.
  - intros A Hl H. apply R2; [by apply (leisure_same c1)|by apply R1].
  - intros A. rewrite <- (T1 A), <- (I1 (thread_todo A)). destruct (H1 A) as [<-|?]; [apply H2|right]. by rewrite T1, I1.
  - intros A. destruct (M1 A) as [<- <-]. apply M2.
Qed.

Lemma tx_parent_of c c' : tx c' = tx c -> parent_of c' = parent_of c.
Proof. unfold parent_of. by intros ->. Qed.
Lemma tx_inside c c' : tx c' = tx c -> inside c' = inside c.
Proof. intros H. unfold inside. by rewrite (tx_parent_of _ _ H). Qed.
Lemma tx_roles c c' : tx c' = tx c -> incoming c' = incoming c /\ outgoing c' = outgoing c.
Proof. unfold incoming, outgoing. by intros ->. Qed.

Lemma stack_tx c c' A o l : tx c' = tx c -> stack_ok c A o l -> stack_ok c' A o l.
Proof. intros E H. eapply stack_same; [exact H|by rewrite E|]. by rewrite (tx_inside _ _ E). Qed.

Lemma inv_calm stk lim c c' : inv stk lim c -> calm c c' -> inv stk lim c'.
Proof.
  intros I [Ex Et Ed Ei El Ew Er' Eh Em]. pose proof (tx_parent_of _ _ Ex) as Ep. pose proof (tx_inside _ _ Ex) as En.
  destruct (tx_roles _ _ Ex) as [Er Eo]. destruct I. split; rewrite ?Ex, ?Ep, ?En, ?Er, ?Eo; try done; intros A.
  - intros o. rewrite Et. intros H. eapply stack_same; [by apply i_stack0|by rewrite Ex|by rewrite En].
  - rewrite Et. apply i_dead0.
  - intros X B HX Hs Hv Hl. rewrite Ei, Ed. by eapply i_served0.
  - intros p Hp. destruct (i_child0 A p Hp) as (U & X & H). exists U, X. setoid_rewrite Ei. by setoid_rewrite Ed.
  - intros l. rewrite Ei. intros H. destruct (i_item0 A l H) as (X & HX). exists X. by setoid_rewrite Ed.
  - intros l l'. rewrite !Ei. apply i_once0.
  - rewrite Ei. apply i_nodup0.
  - intros t X. rewrite Et, Ei. apply i_directed0.
  - intros t X. rewrite Et, Ei. intros H1 H2 H3 H4. destruct (i_selected0 A t X H1 H2 H3 H4) as [? ?]. split; [done|by apply El].
  - intros H. rewrite Ed. destruct (Ew A H) as [Hw Hq]. destruct (i_wait0 A Hw) as [? ?]. auto.
  - intros H%(leisure_same c c' A Ed). destruct (i_free0 A H) as [? ?]. split; [done|by apply Er'].
  - rewrite Ed, Et. apply i_busy0.
  - intros r f. rewrite Ed. unfold expects. setoid_rewrite Et. apply i_replying0.
  - intros p f. rewrite Ed. setoid_rewrite Ei. setoid_rewrite Et. intros H. destruct (i_calling0 A p f H) as (H0 & H1 & H2 & H3).
    assert (HA : top c A <> None) by (apply i_busy0; by rewrite H). split; [destruct (Eh A) as [->|[? _]]; done|]. split; [done|]. split; [done|].
    intros F HF HT. destruct (H3 F HF HT) as [Hp ?]. split; [|done]. destruct (Eh F) as [->|[? _]]; done.
  - intros l X q. rewrite Ei. intros H1 H2 H3 H4. apply (i_home0 A l X q); try done. destruct l as [|B| |]; simpl in *; try done.
    destruct (Eh B) as [<-|[_ E]]; [done|]. rewrite E in H1. by apply not_elem_of_nil in H1.
  - intros X B HX Hs Hc. destruct (Eh B) as [->|[Ht _]]; [by apply (i_away0 A X B)|]. pose proof (i_called0 A X B HX Hs Hc) as Hi.
    rewrite (i_dead0 B Ht) in Hi. by apply not_elem_of_nil in Hi.
  - intros t X. rewrite Ei. apply i_async0.
  - intros t. destruct (Em A) as [-> ->]. setoid_rewrite Ei. intros Hm. destruct (i_making0 A t Hm) as (? & ? & Hu). split; [done|]. split; [done|].
    intros B. destruct (Em B) as [-> _]. apply Hu.
Qed.

(** ** Updates *)

Definition fupd {K V} `{EqDecision K} (k : K) (x : V) (f : K -> V) : K -> V := fun k' => if decide (k' = k) then x else f k'.

Lemma fupd_eq {K V} `{EqDecision K} (k : K) (x : V) f : fupd k x f k = x.
Proof. unfold fupd. by rewrite decide_True. Qed.
Lemma fupd_ne {K V} `{EqDecision K} (k k' : K) (x : V) f : k' <> k -> fupd k x f k' = f k'.
Proof. intros H. unfold fupd. by rewrite decide_False. Qed.

Lemma stack_inside stk lim c A h l : inv stk lim c -> stack_ok c A (Some h) (h :: l) -> forall t, t ∈ l -> inside c h t.
Proof.
  intros I. remember (Some h) as o eqn:Eo. remember (h :: l) as q eqn:Eq. intros H. revert h l Eo Eq.
  induction H as [|t X q HX Hs Hv Hn Hh Hl IH|t X q HX Hs Hv Hn Hh Hl IH]; intros h l Eo Eq; [done|..]; simplify_eq;
    intros u Hu; (destruct l as [|v l]; [by apply not_elem_of_nil in Hu|]); pose proof (stack_head _ _ _ _ Hl) as Ev; simpl in Ev.
  - destruct (Hh v eq_refl) as [_ Hin]. apply elem_of_cons in Hu as [->|Hu]; [done|].
    eapply tc_transitive; [exact Hin|]. by eapply (IH v l).
  - assert (Hp : parent_of c h v) by by exists X.
    apply elem_of_cons in Hu as [->|Hu]; [by apply tc_once|]. eapply tc_l; [exact Hp|]. by eapply (IH v l).
Qed.

Lemma inside_rank c (rk : nat -> nat) u v : (forall x y, parent_of c x y -> (rk y < rk x)%nat) -> inside c u v -> (rk v < rk u)%nat.
Proof. intros H. induction 1 as [u v Hp|u w v Hp _ IH]; [by apply H|]. specialize (H _ _ Hp). lia. Qed.

Lemma stack_nodup stk lim c A o l : inv stk lim c -> stack_ok c A o l -> NoDup l.
Proof.
  intros I. destruct (i_rank _ _ _ I) as [rk Hrk]. intros H. pose proof H as H0.
  induction H as [|t X l HX Hs Hv Hn Hh Hl IH|t X l HX Hs Hv Hn Hh Hl IH]; constructor; auto;
    intros Ht; pose proof (inside_rank c rk t t Hrk (stack_inside _ _ _ _ _ _ I H0 t Ht)); lia.
Qed.

(** Nothing was called inside a call being served that is on top. *)
Lemma top_childless stk lim c A t : inv stk lim c -> top c A <> None -> head (stk A) = Some t -> incoming c A t -> childless c t.
Proof.
  intros I HA Hh (X & HX & Hs & Hv & Hn) u Hp. destruct (i_child _ _ _ I u t Hp) as (U & X' & HU & HX' & HsU & _ & Hc & _).
  simplify_eq. rewrite Hv in Hc. pose proof (i_called _ _ _ I u U A HU HsU Hc) as Hu.
  destruct (top c A) as [o|] eqn:Ho; [|done]. pose proof (i_stack _ _ _ I A o Ho) as Hst. pose proof (stack_head _ _ _ _ Hst) as Eo.
  destruct (stk A) as [|t' l]; [done|]. simpl in *. simplify_eq. apply elem_of_cons in Hu as [->|Hu]; [congruence|].
  destruct (i_rank _ _ _ I) as [rk Hrk]. pose proof (inside_rank c rk t u Hrk (stack_inside _ _ _ _ _ _ I Hst u Hu)).
  specialize (Hrk u t Hp). lia.
Qed.

Definition with_tx (x : gmap nat call) (c : calls) : calls := Calls x (top c) (todo c) (waits c) (ready c) (home c) (doing c) (making c) (draft c).
Definition set_doing (A : nat) (d : activity) (c : calls) : calls := Calls (tx c) (top c) (todo c) (waits c) (ready c) (home c) (fupd A d (doing c)) (making c) (draft c).

(** ** Transactions that are no calls *)

Definition no_call (o : option call) : Prop := forall X, o = Some X -> sync X = false /\ parent X = None.

Lemma parent_sync stk lim c u p : inv stk lim c -> parent_of c u p ->
  (exists U, tx c !! u = Some U /\ sync U = true) /\ exists X, tx c !! p = Some X /\ sync X = true.
Proof. intros I H. destruct (i_child _ _ _ I u p H) as (U & X & HU & HX & HsU & HsX & _).
  split; eexists; done. Qed.

(** A transaction that is no call appears, changes or goes. *)
Lemma inv_other stk lim c t o : inv stk lim c -> (forall X, tx c !! t = Some X -> sync X = false) -> no_call o ->
  (forall l, t ∉ items c l) -> (forall A, making c A = Some t -> o = Some (draft c A)) -> inv stk lim (with_tx (partial_alter (fun _ => o) t (tx c)) c).
Proof.
  intros I Hold Hnew Hq Hmk. set (c' := with_tx _ c).
  assert (Hne : forall x, x <> t -> tx c' !! x = tx c !! x) by (intros x Hx; simpl; by rewrite lookup_partial_alter_ne).
  assert (Ht : tx c' !! t = o) by (simpl; by rewrite lookup_partial_alter_eq).
  assert (Hold' : forall x X, tx c !! x = Some X -> sync X = true -> x <> t) by (intros x X HX Hs ->; by rewrite (Hold X HX) in Hs).
  assert (Hnew' : forall x X, tx c' !! x = Some X -> sync X = true -> x <> t).
  { intros x X HX Hs ->. rewrite Ht in HX. destruct (Hnew X HX). congruence. }
  assert (Hpar : forall u p, parent_of c' u p <-> parent_of c u p).
  { intros u p. split.
    - intros (U & HU & Hp). destruct (decide (u = t)) as [->|Hut].
      + rewrite Ht in HU. destruct (Hnew U HU). congruence.
      + exists U. by rewrite <- (Hne u Hut).
    - intros H. destruct (parent_sync _ _ _ _ _ I H) as [(U & HU & Hs) _]. destruct H as (U' & HU' & Hp). exists U'.
      rewrite Hne; [done|]. by eapply Hold'. }
  assert (Hin : forall u v, inside c u v -> inside c' u v) by (intros u v; apply inside_mono; intros; by apply Hpar).
  assert (Hio : forall A v, (incoming c A v -> incoming c' A v) /\ (outgoing c A v -> outgoing c' A v)).
  { intros A v. split; intros (X & HX & Hs & H); exists X; (rewrite Hne by (by eapply Hold')); done. }
  destruct I. split; try done; try intros A.
  - intros o' Ho. eapply stack_same; [by apply i_stack0| |intros; by apply Hin].
    intros x Hx. apply Hne. destruct (stack_role _ _ _ _ x (i_stack0 A o' Ho) Hx) as [(X & HX & Hs & _)|(X & HX & Hs & _)]; by eapply Hold'.
  - intros X B HX Hs. rewrite Hne in HX by (by eapply Hnew'). by apply (i_called0 A X B).
  - intros X B HX Hs. rewrite Hne in HX by (by eapply Hnew'). by apply (i_served0 A X B).
  - intros p Hp%Hpar. destruct (i_child0 A p Hp) as (U & X & HU & HX & HsU & HsX & H). exists U, X.
    rewrite !Hne by (by eapply Hold'). done.
  - intros u p Hu%Hpar Hp%Hpar. by apply (i_inj0 A u p).
  - destruct i_rank0 as [rk Hrk]. exists rk. intros u p Hp%Hpar. by apply Hrk.
  - intros l Hl. destruct (i_item0 A l Hl) as (X & HX & H). exists X. rewrite Hne; [done|]. intros ->. by destruct (Hq l).
  - intros u X HA Hi HX Hs Hv. rewrite Hne in HX by (by eapply Hnew'). destruct (i_directed0 A u X HA Hi HX Hs Hv) as (v & ? & ? & ?).
    exists v. split; [done|]. split; [by apply Hio|by apply Hin].
  - intros u X HA Hi HX. rewrite Hne in HX; [by apply i_selected0|]. intros ->. by destruct (Hq (thread_todo A)).
  - intros r f Hd. destruct (i_replying0 A r f Hd) as (X & HX & Hs & H). exists X. rewrite Hne by (by eapply Hold'). done.
  - intros p f Hd. destruct (i_calling0 A p f Hd) as (H0 & H1 & H2 & H3). split; [done|]. split; [intros v Hv; by apply Hio, H1|]. split.
    + intros u X Hi HX. rewrite Hne in HX; [by apply (H2 u)|]. intros ->. by destruct (Hq (thread_todo A)).
    + intros F HF HT. destruct (H3 F HF HT) as (Hp & u & v & ? & ? & ? & Huv). split; [done|]. exists u, v. split; [done|].
      split; [done|]. split; [by apply Hio|]. destruct Huv as [?|?]; [by left|right; by apply Hin].
  - intros l X q Hi HX Hs Hr. rewrite Hne in HX by (by eapply Hnew'). by apply (i_home0 A l X q).
  - intros X B HX Hs Hc. rewrite Hne in HX by (by eapply Hnew'). by apply (i_away0 A X B).
  - intros Hl. destruct (i_lim0 A Hl) as (X & HX & Hs & H). exists X. rewrite Hne by (by eapply Hold'). done.
  - intros u X Hi HX. destruct (decide (u = t)) as [->|Hu]; [by destruct (Hq (async_todo A))|]. rewrite Hne in HX by done. by apply (i_async0 A u X).
  - intros u Hm. destruct (i_making0 A u Hm) as ([HY Hs] & H). destruct (decide (u = t)) as [->|Hu].
    + rewrite Ht. split; [|done]. split; [by apply Hmk|done].
    + rewrite Hne by done. by split; [split|].
Qed.

(** ** Todo lists *)

Definition take_item (t : nat) (l : worklist) (c : calls) : calls :=
  Calls (tx c) (top c) (fupd l (list_del (Some t) (todo c l)) (todo c)) (waits c) (ready c) (home c) (doing c) (making c) (draft c).

(** Work for a thread wakes it. *)
Definition post (l : worklist) (x : option nat) (c : calls) : calls :=
  Calls (tx c) (top c) (fupd l (todo c l ++ [x]) (todo c))
    (match l with thread_todo A => fupd A false (waits c) | _ => waits c end)
    (match l with thread_todo A => fupd A true (ready c) | _ => ready c end) (home c) (doing c) (making c) (draft c).

Lemma omap_list_del (t : nat) (q : list (option nat)) : omap id (list_del (Some t) q) = list_del t (omap id q).
Proof.
  unfold list_del. induction q as [|[x|] q IH]; [done|..]; rewrite filter_cons.
  - change (omap id (Some x :: q)) with (x :: omap id q). rewrite filter_cons. case_decide as H1; case_decide as H2; simpl in *.
    + f_equal. exact IH.
    + congruence.
    + congruence.
    + exact IH.
  - case_decide; [|congruence]. exact IH.
Qed.

Lemma items_take t l c l' : items (take_item t l c) l' = if decide (l' = l) then list_del t (items c l) else items c l'.
Proof.
  unfold items, take_item; simpl. unfold fupd. case_decide; [|done]. subst. apply omap_list_del.
Qed.

Lemma items_post l x c l' : items (post l x c) l' = if decide (l' = l) then items c l ++ omap id [x] else items c l'.
Proof. unfold items, post; simpl. unfold fupd. case_decide; [|done]. by rewrite omap_app. Qed.

Lemma elem_take t l c x l' : x ∈ items (take_item t l c) l' -> x ∈ items c l'.
Proof. rewrite items_take. case_decide; [|done]. subst. by intros [_ H]%elem_of_list_del. Qed.

Lemma elem_post l t c x l' : x ∈ items (post l (Some t) c) l' <-> x ∈ items c l' \/ x = t /\ l' = l.
Proof.
  rewrite items_post. case_decide as Hl.
  - subst. change (omap id [Some t]) with [t]. rewrite elem_of_app, list_elem_of_singleton. tauto.
  - split; [by left|]. by intros [?|[_ ?]].
Qed.

Lemma head_list_del {A} `{EqDecision A} (x y : A) (q : list A) : head q = Some x -> x <> y -> head (list_del y q) = Some x.
Proof. destruct q as [|z q]; [done|]. intros [= ->] Hxy. unfold list_del. by rewrite filter_cons, decide_True. Qed.

(** A transaction is taken off its list; a call is in hand then. *)
Lemma inv_take stk c t X l : inv stk None c -> t ∈ items c l -> tx c !! t = Some X ->
  inv stk (if sync X then Some t else None) (take_item t l c).
Proof.
  intros I Ht HX. set (c' := take_item t l c). pose proof (tx_inside c c' eq_refl) as En. destruct (tx_roles c c' eq_refl) as [Er Eo].
  destruct (i_item _ _ _ I t l Ht) as (X' & HX' & Hsv & _ & Hnr). simplify_eq.
  assert (Hne : forall x l', x ∈ items c' l' -> x <> t).
  { intros x l' Hx ->. unfold c' in Hx. rewrite items_take in Hx. case_decide as Hd; [by apply elem_of_list_del in Hx as [? _]|].
    destruct Hd. by apply (i_once _ _ _ I t). }
  assert (Hlim : forall x, (if sync X then Some t else None) = Some x -> x = t) by (intros x; destruct (sync X); congruence).
  destruct I. split; try done; intros A.
  - intros o Ho. eapply stack_same; [by apply i_stack0|done|done].
  - intros Y B HY Hs Hv Hl. destruct (i_served0 A Y B HY Hs Hv) as [?|[Hi|?]]; [done|by left| |by right; right].
    right; left. unfold c'. rewrite items_take. case_decide as Hd; [|done]. rewrite elem_of_list_del, <- Hd. split; [|done].
    intros ->. change (tx c !! t = Some Y) in HY. assert (Y = X) as -> by congruence. by rewrite Hs in Hl.
  - intros p Hp. destruct (i_child0 A p Hp) as (U & Y & HU & HY & HsU & HsY & Hc & Hq & Hr & _). exists U, Y. split_and!; try done.
    + intros l' Hl'%elem_take. by apply (Hq l').
    + intros Hp'%Hlim. subst p. by apply (Hq l).
  - intros l' Hl'. pose proof (Hne _ _ Hl') as Hx. apply elem_take in Hl'. destruct (i_item0 A l' Hl') as (Y & HY & H1 & H2 & H3).
    exists Y. split_and!; try done. intros Hp'%Hlim. done.
  - intros l' l'' H1%elem_take H2%elem_take. by eapply i_once0.
  - unfold c'. rewrite items_take. case_decide; [by apply list_del_NoDup|done].
  - intros x Y HA Hi%elem_take HY Hs Hv. destruct (i_directed0 A x Y HA Hi HY Hs Hv) as (v & ? & ? & ?). exists v. by rewrite En, Eo.
  - intros x Y HA Hi HY Hv. pose proof (Hne _ _ Hi) as Hx. apply elem_take in Hi. destruct (i_selected0 A x Y HA Hi HY Hv) as [? Hh].
    split; [done|]. simpl. unfold fupd. case_decide as Hd; [|done]. rewrite <- Hd. apply head_list_del; [done|congruence].
  - intros Hw. destruct (i_wait0 A Hw) as [? Hq]. split; [done|]. simpl. unfold fupd. case_decide as Hd; [|done]. by rewrite <- Hd, Hq.
  - intros Hl. destruct (i_free0 A Hl) as [? Hq]. split; [done|]. simpl. unfold fupd. case_decide as Hd; [|done].
    destruct Hq as [Hq|Hq]; [left; by rewrite <- Hd, Hq|by right].
  - intros r f Hd. destruct (i_replying0 A r f Hd) as (Y & HY & Hs & Hv & Hr & Hc & _). exists Y. split_and!; try done.
    intros Hp'%Hlim. subst r. by apply (Hnr A f).
  - intros p f Hd. destruct (i_calling0 A p f Hd) as (H0 & H1 & H2 & H3). split_and!; [done|by rewrite Er| |by rewrite En, Eo].
    intros x Y Hi%elem_take. by apply H2.
  - intros l' Y q Hi%elem_take HY Hs Hr. by apply (i_home0 A l' Y q).
  - intros Hl. pose proof (Hlim _ Hl) as ->. exists X. destruct (sync X); [|done]. split_and!; try done.
    intros B HB. by apply Hsv.
  - intros u Y Hi%elem_take HY. by apply (i_async0 A u Y).
  - intros u Hm. destruct (i_making0 A u Hm) as (HX' & Hn & Hu). split; [done|]. split; [|done]. intros l' Hi%elem_take. by apply (Hn l').
Qed.

Lemma lim_nowhere stk lim c t : inv stk lim c -> lim = Some t ->
  (forall l, t ∉ items c l) /\ (forall A f, doing c A <> Replying t f) /\ forall u, ~ parent_of c u t.
Proof.
  intros I Hl. split_and!.
  - intros l Ht. destruct (i_item _ _ _ I t l Ht) as (X & _ & _ & Hn & _). done.
  - intros A f Hd. by destruct (i_replying _ _ _ I A t f Hd) as (X & _ & _ & _ & _ & _ & Hn).
  - intros u Hu. by destruct (i_child _ _ _ I u t Hu) as (U & X & _ & _ & _ & _ & _ & _ & _ & Hn).
Qed.

Lemma waits_quiet stk lim c A : inv stk lim c -> waits c A = true ->
  doing c A = Waiting true /\ todo c (thread_todo A) = [] /\ stk A = [] /\ top c A <> None.
Proof.
  intros I Hw. destruct (i_wait _ _ _ I A Hw) as [Hd Hq]. split; [done|]. split; [done|]. split.
  - apply (i_free _ _ _ I A). by left.
  - apply (i_busy _ _ _ I A). by rewrite Hd.
Qed.

(** Where a transaction may be queued: with the thread it is for, which is
    waiting inside it; with a thread that waits for any work; with a process. *)
Record queueable (stk : nat -> list nat) (c : calls) (t : nat) (X : call) (l : worklist) : Prop := Queueable {
  qu_for A : server X = Some A -> l = thread_todo A /\ (t ∉ stk A) /\ waits c A = false /\ ~ at_leisure c A /\
    (top c A <> None -> sync X = true -> exists v, head (stk A) = Some v /\ outgoing c A v /\ inside c t v);
  qu_any A : l = thread_todo A -> server X = None -> waits c A = true;
  qu_home q : sync X = true -> reader c l = Some q -> dest X = Some q;
  qu_async n : l = async_todo n -> sync X = false;
  qu_made A : making c A <> Some t
}.

Lemma inv_post stk lim c t X l : inv stk lim c -> tx c !! t = Some X ->
  (if sync X then lim = Some t else forall l, t ∉ items c l) -> queueable stk c t X l ->
  inv stk (if sync X then None else lim) (post l (Some t) c).
Proof.
  intros I HX Hst [Qf Qa Qh Ql Qm]. set (c' := post l (Some t) c). pose proof (tx_inside c c' eq_refl) as En.
  destruct (tx_roles c c' eq_refl) as [Er Eo].
  assert (Hnw : (forall l, t ∉ items c l) /\ (forall A f, doing c A <> Replying t f) /\ forall u, ~ parent_of c u t).
  { destruct (sync X) eqn:Hs; [by eapply lim_nowhere|]. split; [done|]. split.
    - intros A f Hd. destruct (i_replying _ _ _ I A t f Hd) as (Y & HY & Hs' & _). congruence.
    - intros u Hu. destruct (parent_sync _ _ _ _ _ I Hu) as [_ (Y & HY & Hs')]. congruence. }
  destruct Hnw as (Hnq & Hnr & Hnc).
  assert (Hlim : forall x, (if sync X then None else lim) = Some x -> lim = Some x /\ x <> t).
  { intros x Hx. destruct (sync X) eqn:Hs; [done|]. split; [done|]. intros ->. destruct (i_lim _ _ _ I t Hx) as (Y & HY & Hs' & _). congruence. }
  assert (Hsel : forall A, l = thread_todo A -> server X = None -> stk A = [] /\ todo c l = [] /\ doing c A = Waiting true).
  { intros A -> Hv. destruct (waits_quiet _ _ _ A I (Qa A eq_refl Hv)) as (? & ? & ? & _). done. }
  destruct I. split; try done; intros A.
  - intros o Ho. eapply stack_same; [by apply i_stack0|done|done].
  - intros Y B HY Hs Hv Hl. destruct (decide (A = t)) as [->|Hne].
    + right; left. change (tx c !! t = Some Y) in HY. assert (Y = X) as -> by congruence. destruct (Qf B Hv) as [-> _].
      apply elem_post. by right.
    + destruct (i_served0 A Y B HY Hs Hv) as [?|[Hi|?]]; [|by left| |by right; right].
      * intros Hl'. destruct (sync X) eqn:HsX; [congruence|done].
      * right; left. apply elem_post. by left.
  - intros p Hp. destruct (i_child0 A p Hp) as (U & Y & HU & HY & HsU & HsY & Hc & Hq & Hr & Hn). exists U, Y. split_and!; try done.
    + intros l' [Hl'|[-> _]]%elem_post; [by apply (Hq l')|by apply (Hnc A)].
    + intros Hp'%Hlim. by destruct Hp'.
  - intros l' [Hl'|[-> ->]]%elem_post.
    + destruct (i_item0 A l' Hl') as (Y & HY & H1 & H2 & H3). exists Y. split_and!; try done. intros [Hp' _]%Hlim. done.
    + exists X. split_and!; try done; [intros B HB; by destruct (Qf B HB) as (? & ? & _)|]. intros [_ Hp']%Hlim. done.
  - intros l' l'' [H1|[-> ->]]%elem_post [H2|[? ->]]%elem_post; [by eapply i_once0|subst; by destruct (Hnq l')|by destruct (Hnq l'')|done].
  - unfold c'. rewrite items_post. case_decide; [|done]. apply NoDup_app. split; [done|]. split; [|apply NoDup_singleton].
    intros x Hx Hx'. apply list_elem_of_singleton in Hx' as ->. by destruct (Hnq l).
  - intros x Y HA Hi HY Hs Hv. rewrite En, Eo. apply elem_post in Hi as [Hi|[-> Hl]]; [by apply (i_directed0 A x Y)|].
    change (tx c !! t = Some Y) in HY. assert (Y = X) as -> by congruence. by apply Qf.
  - intros x Y HA Hi HY Hv. change (tx c !! x = Some Y) in HY. simpl. unfold fupd. apply elem_post in Hi as [Hi|[-> <-]].
    + destruct (i_selected0 A x Y HA Hi HY Hv) as [? Hh]. split; [done|]. case_decide as Hd; [|done]. rewrite <- Hd.
      by destruct (todo c (thread_todo A)).
    + assert (Y = X) as -> by congruence. destruct (Hsel A eq_refl Hv) as (? & Hq & _). split; [done|]. by rewrite decide_True, Hq.
  - intros Hw. assert (Hw' : waits c A = true /\ l <> thread_todo A).
    { destruct l as [p|B|n|p]; simpl in Hw; try done. unfold fupd in Hw. case_decide; [done|]. split; [done|]. by intros [= ->]. }
    destruct Hw' as [Hw' Hne]. destruct (i_wait0 A Hw') as [? Hq]. split; [done|]. simpl. by rewrite fupd_ne.
  - intros Hl. destruct (i_free0 A Hl) as [? Hq]. split; [done|]. simpl. destruct (decide (thread_todo A = l)) as [<-|Hd].
    + right. by rewrite fupd_eq.
    + rewrite fupd_ne by done. destruct Hq as [Hq|Hq]; [by left|right]. destruct l as [p|B|n|p]; try done. rewrite fupd_ne; [done|].
      by intros ->.
  - intros r f Hd. destruct (i_replying0 A r f Hd) as (Y & HY & Hs & Hv & Hr & Hc & Hn). exists Y. split_and!; try done.
    intros [Hp' _]%Hlim. done.
  - intros p f Hd. destruct (i_calling0 A p f Hd) as (H0 & H1 & H2 & H3). split_and!; [done|by rewrite Er| |by rewrite En, Eo].
    intros x Y [Hi|[-> Hl]]%elem_post HY; [by apply (H2 x)|]. change (tx c !! t = Some Y) in HY. assert (Y = X) as -> by congruence.
    intros Hv. destruct (Hsel A (eq_sym Hl) Hv) as (_ & _ & Hw). change (doing c A = Calling p f) in Hd. congruence.
  - intros l' Y q [Hi|[-> ->]]%elem_post HY Hs Hr; [by apply (i_home0 A l' Y q)|]. change (tx c !! t = Some Y) in HY.
    assert (Y = X) as -> by congruence. by apply Qh.
  - intros [Hl _]%Hlim. destruct (i_lim0 A Hl) as (Y & HY & Hs & H). by exists Y.
  - intros u Y [Hi|[-> Hl]]%elem_post HY; [by apply (i_async0 A u Y)|]. change (tx c !! t = Some Y) in HY.
    assert (Y = X) as -> by congruence. by apply (Ql A).
  - intros u Hm. destruct (i_making0 A u Hm) as (HX' & Hn & Hu). split; [done|]. split; [|done]. intros l' [Hi|[-> _]]%elem_post;
      [by apply (Hn l')|by apply (Qm A)].
Qed.

(** A call on its way to process [p]: the thread it is for waits inside a
    call it is made inside. *)
Record aimed (stk : nat -> list nat) (c : calls) (t : nat) (X : call) (p : nat) (f : option nat) : Prop := Aimed {
  am_server : server X = f;
  am_dest : sync X = true -> dest X = Some p;
  am_thread F : f = Some F -> top c F <> None -> sync X = true /\ home c F = p /\ (t ∉ stk F) /\
    exists v, head (stk F) = Some v /\ outgoing c F v /\ inside c t v
}.

Lemma aimed_calm stk c c' t X p f : calm c c' -> aimed stk c t X p f -> aimed stk c' t X p f.
Proof.
  intros [Ex Et Ed Ei El Ew Er Eh Em] [H1 H2 H3]. destruct (tx_roles _ _ Ex) as [_ Eo]. split; [done|done|].
  intros F HF. rewrite Et, Eo, (tx_inside _ _ Ex). intros HT. destruct (H3 F HF HT) as (? & Hh & ?).
  destruct (Eh F) as [->|[? _]]; done.
Qed.

(** Such a call may be queued for the thread, for a thread that waits for
    the process's work, or with the process. *)
Lemma aimed_directed stk lim c t X p F : inv stk lim c -> aimed stk c t X p (Some F) -> top c F <> None -> (forall A, making c A <> Some t) ->
  queueable stk c t X (thread_todo F).
Proof.
  intros I [H1 H2 H3] HT Hm. destruct (H3 F eq_refl HT) as (Hs & Hh & Hn & v & Hv & Ho & Hi). split.
  - intros A HA. assert (A = F) as -> by congruence. split_and!; [done|done| | |intros _ _; by exists v].
    + apply not_true_iff_false. intros Hw. destruct (waits_quiet _ _ _ F I Hw) as (_ & _ & E & _). by rewrite E in Hv.
    + intros Hl. destruct (i_free _ _ _ I F Hl) as [E _]. by rewrite E in Hv.
  - intros A _ E. congruence.
  - intros q Hs' [= <-]. rewrite Hh. by apply H2.
  - done.
  - done.
Qed.

Lemma aimed_selected stk c t X p B : aimed stk c t X p None -> waits c B = true -> home c B = p -> (forall A, making c A <> Some t) ->
  queueable stk c t X (thread_todo B).
Proof.
  intros [H1 H2 H3] Hw Hh Hm. split; try done; [intros A HA; congruence|intros A [= <-] _; done|].
  intros q Hs [= <-]. rewrite Hh. by apply H2.
Qed.

Lemma aimed_proc stk c t X p : aimed stk c t X p None -> (forall A, making c A <> Some t) -> queueable stk c t X (proc_todo p).
Proof. intros [H1 H2 H3] Hm. split; try done; [intros A HA; congruence|]. intros q Hs [= <-]. by apply H2. Qed.

Lemma aimed_async stk c t X p n : aimed stk c t X p None -> sync X = false -> (forall A, making c A <> Some t) -> queueable stk c t X (async_todo n).
Proof. intros [H1 H2 H3] Hs Hm. split; try done. intros A HA. congruence. Qed.

(** ** Making a call *)

Definition push (A t : nat) (X : call) (c : calls) : calls :=
  Calls (<[t := X]> (tx c)) (fupd A (Some (Some t)) (top c)) (todo c) (waits c) (ready c) (home c) (fupd A Idle (doing c)) (making c) (draft c).

Section push.
Context (stk : nat -> list nat) (c : calls) (I : inv stk None c).
Context (A t p : nat) (f : option nat) (Hd : doing c A = Calling p f).
Context (Hold : forall X, tx c !! t = Some X -> sync X = false) (Hq : forall l, t ∉ items c l) (Hmk : forall B, making c B <> Some t).
Let X : call := Call (Some A) (head (stk A)) f None (Some p) true.
Let c' : calls := push A t X c.
Let stk' : nat -> list nat := fupd A (t :: stk A) stk.

Lemma push_tx x : x <> t -> tx c' !! x = tx c !! x.
Proof. intros Hx. simpl. by rewrite lookup_insert_ne. Qed.

Lemma push_t : tx c' !! t = Some X.
Proof. simpl. by rewrite lookup_insert_eq. Qed.

Lemma push_alive : top c A <> None.
Proof. apply (i_busy _ _ _ I). by rewrite Hd. Qed.

Lemma push_role B x : x ∈ stk B -> x <> t.
Proof.
  intros Hx ->. destruct (top c B) as [o|] eqn:Ho; [|by rewrite (i_dead _ _ _ I B Ho) in Hx; apply not_elem_of_nil in Hx].
  destruct (stack_role _ _ _ _ t (i_stack _ _ _ I B o Ho) Hx) as [(Y & HY & Hs & _)|(Y & HY & Hs & _)]; by rewrite (Hold Y HY) in Hs.
Qed.

Lemma push_parent u v : parent_of c' u v <-> parent_of c u v \/ u = t /\ head (stk A) = Some v.
Proof.
  split.
  - intros (U & HU & Hp). destruct (decide (u = t)) as [->|Hu].
    + rewrite push_t in HU. simplify_eq. by right.
    + left. exists U. by rewrite <- (push_tx u Hu).
  - intros [H|[-> Hh]]; [|exists X; by rewrite push_t].
    destruct (parent_sync _ _ _ _ _ I H) as [(U & HU & Hs) _]. destruct H as (U' & HU' & Hp). exists U'.
    rewrite push_tx; [done|]. intros ->. by rewrite (Hold U HU) in Hs.
Qed.

Lemma push_inside u v : inside c u v -> inside c' u v.
Proof. apply inside_mono. intros x y H. apply push_parent. by left. Qed.

Lemma push_incoming B v : incoming c B v -> incoming c' B v.
Proof. intros (Y & HY & Hs & H). exists Y. rewrite push_tx; [done|]. intros ->. by rewrite (Hold Y HY) in Hs. Qed.
Lemma push_outgoing B v : outgoing c B v -> outgoing c' B v.
Proof. intros (Y & HY & Hs & H). exists Y. rewrite push_tx; [done|]. intros ->. by rewrite (Hold Y HY) in Hs. Qed.

Lemma push_head v : head (stk A) = Some v -> incoming c A v /\ childless c v /\ v ∈ stk A.
Proof.
  intros Hv. destruct (i_calling _ _ _ I A p f Hd) as (_ & H1 & _). split; [by apply H1|]. split.
  - eapply top_childless; [exact I|apply push_alive|done|by apply H1].
  - destruct (stk A); [done|]. injection Hv as ->. left.
Qed.

Lemma push_not_me B v : head (stk B) = Some v -> outgoing c B v -> B <> A.
Proof.
  intros Hv (Y & HY & Hs & Hc & Hn) ->. destruct (push_head v Hv) as [(Y' & HY' & _ & Hv' & _) _]. congruence.
Qed.

Lemma push_stack B o : top c' B = Some o -> stack_ok c' B o (stk' B).
Proof.
  assert (Hsame : forall B o, top c B = Some o -> stack_ok c' B o (stk B)).
  { intros C o' Ho. eapply stack_same; [by apply (i_stack _ _ _ I)| |intros; by apply push_inside].
    intros x Hx. apply push_tx. by eapply push_role. }
  unfold stk'. simpl. unfold fupd. case_decide as HB; [rewrite HB|by apply Hsame]. intros [= <-].
  destruct (i_calling _ _ _ I A p f Hd) as (Hh & H1 & _ & H3).
  eapply stack_out; [exact push_t|done|done| | |].
  - simpl. intros Hf. destruct (H3 A Hf push_alive) as (Hp & _). done.
  - intros v Hv. by apply push_incoming, H1.
  - destruct (top c A) as [o'|] eqn:Ho; [|by destruct push_alive]. simpl.
    pose proof (stack_head _ _ _ _ (i_stack _ _ _ I A o' Ho)) as <-. by apply Hsame.
Qed.

Lemma push_child u v : parent_of c' u v -> exists U V, tx c' !! u = Some U /\ tx c' !! v = Some V /\ sync U = true /\ sync V = true /\
  caller U = server V /\ (forall l, v ∉ items c' l) /\ (forall B g, doing c' B <> Replying v g) /\ Some t <> Some v.
Proof.
  intros [H|[-> Hv]]%push_parent.
  - destruct (i_child _ _ _ I u v H) as (U & V & HU & HV & HsU & HsV & Hc & Hn & Hr & _). exists U, V.
    assert (Hu : u <> t) by (intros ->; by rewrite (Hold U HU) in HsU). assert (Hvt : v <> t) by (intros ->; by rewrite (Hold V HV) in HsV).
    rewrite !push_tx by done. split_and!; try done; [|congruence].
    intros B g. simpl. unfold fupd. case_decide; [done|apply Hr].
  - destruct (push_head v Hv) as ((V & HV & Hs & Hsv & Hcv) & Hc & Hin). exists X, V. rewrite push_t, push_tx by (by eapply push_role).
    split_and!; try done.
    + intros l Hl. destruct (i_item _ _ _ I v l Hl) as (V' & HV' & H & _). assert (V' = V) as -> by congruence. by destruct (H A Hsv).
    + intros B g. simpl. unfold fupd. case_decide; [done|]. intros Hr.
      destruct (i_replying _ _ _ I B v g Hr) as (V' & HV' & _ & Hs' & _). congruence.
    + intros [= Htv]. by apply (push_role A v Hin).
Qed.

Lemma push_item x l : x ∈ items c l -> exists Y, tx c' !! x = Some Y /\ (forall B, server Y = Some B -> (x ∉ stk' B) /\ l = thread_todo B) /\
  Some t <> Some x /\ forall B g, doing c' B <> Replying x g.
Proof.
  intros Hx. destruct (i_item _ _ _ I x l Hx) as (Y & HY & H1 & _ & H3). assert (Hxt : x <> t) by (intros ->; by destruct (Hq l)).
  exists Y. rewrite push_tx by done. split_and!; try done; [|congruence|].
  - intros B HB. destruct (H1 B HB) as [? ?]. split; [|done]. unfold stk', fupd. case_decide as HA; [|done]. rewrite HA in *.
    apply not_elem_of_cons. done.
  - intros B g. simpl. unfold fupd. case_decide; [done|apply H3].
Qed.

Lemma push_calling B q g : doing c' B = Calling q g -> home c B <> q /\ (forall v, head (stk' B) = Some v -> incoming c' B v) /\
  (forall x Y, x ∈ items c (thread_todo B) -> tx c' !! x = Some Y -> server Y <> None) /\
  (forall F, g = Some F -> top c' F <> None -> home c F = q /\ exists u v, head (stk' B) = Some u /\ head (stk' F) = Some v /\
      outgoing c' F v /\ (u = v \/ inside c' u v)).
Proof.
  simpl. unfold stk'. unfold fupd at 1. case_decide as HB; [done|]. intros HdB.
  destruct (i_calling _ _ _ I B q g HdB) as (H0 & H1 & H2 & H3). rewrite fupd_ne by done. split_and!; [done|..].
  - intros v Hv. by apply push_incoming, H1.
  - intros x Y Hx. rewrite lookup_insert_ne by (intros <-; by destruct (Hq (thread_todo B))). by apply H2.
  - intros F HF HT. assert (HT' : top c F <> None).
    { revert HT. simpl. unfold fupd. case_decide as HF'; [|done]. intros _. rewrite HF'. apply push_alive. }
    destruct (H3 F HF HT') as (Hh & u & v & Hu & Hv & Ho & Huv). split; [done|]. exists u, v.
    rewrite fupd_ne by (by eapply push_not_me). split_and!; try done; [by apply push_outgoing|].
    destruct Huv as [?|?]; [by left|right; by apply push_inside].
Qed.

Lemma push_aimed : aimed stk' c' t X p f.
Proof.
  split; [done|done|]. intros F HF HT. destruct (i_calling _ _ _ I A p f Hd) as (Hn & _ & _ & H3).
  assert (HFA : F <> A) by (intros ->; destruct (H3 A HF push_alive) as [? _]; done).
  assert (HT' : top c F <> None) by (revert HT; simpl; by rewrite fupd_ne).
  destruct (H3 F HF HT') as (Hh & u & v & Hu & Hv & Ho & Huv). unfold stk'. rewrite fupd_ne by done. split_and!; [done|done| |].
  - intros Hi. by apply (push_role F t Hi).
  - exists v. split_and!; [done|by apply push_outgoing|]. assert (Hp : parent_of c' t u) by (apply push_parent; by right).
    destruct Huv as [->|Huv]; [by apply tc_once|]. eapply tc_l; [exact Hp|by apply push_inside].
Qed.

(** The call is on its caller's stack, and yet to be queued. *)
Lemma inv_push : inv stk' (Some t) c'.
Proof.
  pose proof push_alive as HA. pose proof (i_calling _ _ _ I A p f Hd) as (Hh & _ & Hns & _).
  assert (Hold' : forall x Y, x <> t -> tx c' !! x = Some Y -> tx c !! x = Some Y) by (intros x Y Hx; by rewrite push_tx).
  assert (Hle : forall B, at_leisure c' B -> B <> A /\ at_leisure c B).
  { intros B. unfold at_leisure. simpl. unfold fupd. case_decide; [by intros [?|?]|done]. }
  split; try done.
  - apply push_stack.
  - intros B. simpl. unfold stk', fupd. case_decide; [done|]. apply (i_dead _ _ _ I).
  - intros x Y B HY Hs Hc. unfold stk', fupd. destruct (decide (x = t)) as [->|Hx].
    + rewrite push_t in HY. simplify_eq. injection Hc as <-. rewrite decide_True by done. left.
    + pose proof (i_called _ _ _ I x Y B (Hold' x Y Hx HY) Hs Hc). case_decide as HB; [rewrite HB in *; by right|done].
  - intros x Y B HY Hs Hv Hl. assert (Hx : x <> t) by congruence. rewrite push_tx in HY by done.
    destruct (i_served _ _ _ I x Y B HY Hs Hv ltac:(done)) as [H|[H|[g H]]].
    + left. unfold stk', fupd. case_decide as HB; [rewrite HB in *; by right|done].
    + by right; left.
    + right; right. exists g. simpl. rewrite fupd_ne; [done|]. intros ->. congruence.
  - apply push_child.
  - intros u u' v [H|[-> H]]%push_parent [H'|[-> H']]%push_parent; [by eapply (i_inj _ _ _ I)|..|done].
    + destruct (push_head v H') as (_ & Hc & _). by destruct (Hc u).
    + destruct (push_head v H) as (_ & Hc & _). by destruct (Hc u').
  - destruct (i_rank _ _ _ I) as [rk Hrk]. exists (fupd t (S (default 0%nat (rk <$> head (stk A)))) rk).
    intros u v [H|[-> H]]%push_parent; unfold fupd.
    + destruct (parent_sync _ _ _ _ _ I H) as [(U & HU & Hs) (V & HV & Hs')].
      rewrite !decide_False; [by apply Hrk|intros ->; by rewrite (Hold U HU) in Hs|intros ->; by rewrite (Hold V HV) in Hs'].
    + rewrite (decide_True (P := t = t)) by done. rewrite decide_False by (intros ->; destruct (push_head t H) as (_ & _ & Hi); by apply (push_role A t Hi)).
      rewrite H. simpl. lia.
  - apply push_item.
  - apply (i_once _ _ _ I).
  - apply (i_nodup _ _ _ I).
  - intros B x Y HB Hi HY Hs Hv. assert (Hx : x <> t) by (intros ->; by destruct (Hq (thread_todo B))). rewrite push_tx in HY by done.
    assert (HT : top c B <> None).
    { revert HB. simpl. unfold fupd. case_decide as HBA; [|done]. intros _. by rewrite HBA. }
    destruct (i_directed _ _ _ I B x Y HT Hi HY Hs Hv) as (v & Hvh & Ho & Hin). exists v. unfold stk'.
    rewrite fupd_ne by (by eapply push_not_me). split; [done|]. split; [by apply push_outgoing|by apply push_inside].
  - intros B x Y HB Hi HY Hv. assert (Hx : x <> t) by (intros ->; by destruct (Hq (thread_todo B))). rewrite push_tx in HY by done.
    assert (HBA : B <> A) by (intros ->; by destruct (Hns x Y Hi HY)). unfold stk'. rewrite fupd_ne by done.
    apply (i_selected _ _ _ I B x Y); try done. revert HB. simpl. by rewrite fupd_ne.
  - intros B Hw. destruct (i_wait _ _ _ I B Hw) as [H ?]. split; [|done]. simpl. rewrite fupd_ne; [done|]. intros ->. congruence.
  - intros B [HB Hl]%Hle. unfold stk'. rewrite fupd_ne by done. by apply (i_free _ _ _ I).
  - intros B. simpl. unfold fupd. case_decide; [done|]. apply (i_busy _ _ _ I).
  - intros B r g HdB. simpl in HdB. unfold fupd in HdB. case_decide as HB; [done|].
    destruct (i_replying _ _ _ I B r g HdB) as (Y & HY & Hs & Hv & Hr & Hc & _). assert (Hrt : r <> t) by (intros ->; by rewrite (Hold Y HY) in Hs).
    exists Y. rewrite push_tx by done. unfold stk'. rewrite fupd_ne by done. split_and!; try done; [|congruence].
    eapply expects_mono; [exact Hc|done|]. intros F HF. simpl. unfold fupd. case_decide as HFA; [|done]. rewrite HFA in HF. by destruct push_alive.
  - apply push_calling.
  - intros x l Y q Hi HY. apply (i_home _ _ _ I x l Y q Hi). rewrite push_tx in HY; [done|]. intros ->. by destruct (Hq l).
  - intros x Y B HY Hs Hc. destruct (decide (x = t)) as [->|Hx].
    + rewrite push_t in HY. simplify_eq. injection Hc as <-. simpl. congruence.
    + rewrite push_tx in HY by done. by apply (i_away _ _ _ I x Y B).
  - intros r [= <-]. exists X. split; [apply push_t|]. split; [done|]. intros F HF. simpl in HF. unfold stk', fupd.
    case_decide as HFA; [|intros Hi; by apply (push_role F t Hi)].
    exfalso. destruct (i_calling _ _ _ I A p f Hd) as (_ & _ & _ & H3). rewrite HFA in HF. by destruct (H3 A HF HA) as [? _].
  - intros n x Y Hi HY. apply (i_async _ _ _ I n x Y Hi). rewrite push_tx in HY; [done|]. intros ->. by destruct (Hq (async_todo n)).
  - intros B x Hm. destruct (i_making _ _ _ I B x Hm) as ([HY Hs] & H). split; [|done]. rewrite push_tx; [done|].
    intros ->. by apply (Hmk B).
Qed.
End push.

(** ** A call ends *)

Definition drop (r : nat) (c : calls) : calls := with_tx (delete r (tx c)) c.
Definition set_top (A : nat) (o : option (option nat)) (c : calls) : calls :=
  Calls (tx c) (fupd A o (top c)) (todo c) (waits c) (ready c) (home c) (doing c) (making c) (draft c).

Section drop.
Context (stk : nat -> list nat) (c : calls) (r : nat) (I : inv stk (Some r) c).
Context (X : call) (HX : tx c !! r = Some X).

Lemma drop_tx x : x <> r -> tx (drop r c) !! x = tx c !! x.
Proof. intros Hx. simpl. by rewrite lookup_delete_ne. Qed.

Lemma drop_ne x Y : tx (drop r c) !! x = Some Y -> x <> r /\ tx c !! x = Some Y.
Proof. simpl. intros [Hx HY]%lookup_delete_Some. split; [by intros ->|done]. Qed.

Lemma drop_parent u v : parent_of (drop r c) u v <-> parent_of c u v /\ u <> r.
Proof.
  split; [intros (U & [Hu HU]%drop_ne & Hp); split; [by exists U|done]|].
  intros [(U & HU & Hp) Hu]. exists U. by rewrite drop_tx.
Qed.

Lemma drop_inside u v : inside c u v -> u <> r -> inside (drop r c) u v.
Proof. apply (inside_without c (drop r c) r); [exact (lim_childless _ _ _ I)|]. intros x y Hx H. by apply drop_parent. Qed.

Lemma drop_incoming A v : v <> r -> incoming c A v -> incoming (drop r c) A v.
Proof. intros Hv (Y & HY & H). exists Y. by rewrite drop_tx. Qed.
Lemma drop_outgoing A v : v <> r -> outgoing c A v -> outgoing (drop r c) A v.
Proof. intros Hv (Y & HY & H). exists Y. by rewrite drop_tx. Qed.

Lemma inside_not_lim u : ~ inside c u r.
Proof. intros (w & Hw & _)%inside_last. by apply (lim_childless _ _ _ I w). Qed.

Lemma drop_stack A o l : stack_ok c A o l -> r ∉ l -> stack_ok (drop r c) A o l.
Proof.
  intros H Hr. eapply stack_same; [exact H|intros x Hx; apply drop_tx; by intros ->|].
  intros u v Hu Hv Huv. apply drop_inside; [done|]. by intros ->.
Qed.

(** A call whose caller is gone ends; what it was made inside is next. *)
Lemma inv_up : caller X = None -> inv stk (parent X) (drop r c).
Proof.
  intros Hcl. destruct (i_lim _ _ _ I r eq_refl) as (X' & HX' & HsX & HrX). assert (X' = X) as -> by congruence. clear HX'.
  assert (Hns : forall A, r ∉ stk A).
  { intros A Hr. destruct (top c A) as [o|] eqn:Ho; [|by rewrite (i_dead _ _ _ I A Ho) in Hr; apply not_elem_of_nil in Hr].
    destruct (stack_role _ _ _ _ r (i_stack _ _ _ I A o Ho) Hr) as [(Y & HY & _ & Hv & _)|(Y & HY & _ & Hv & _)]; [|congruence].
    apply (HrX A); congruence. }
  assert (Hup : forall p, parent X = Some p -> parent_of c r p) by (intros p Hp; by exists X).
  pose proof (lim_nowhere _ _ _ r I eq_refl) as (Hnq & Hnr & Hnc). pose proof I as I0. destruct I. split; try done.
  - intros A o Ho. apply drop_stack; [by apply i_stack0|done].
  - intros x Y A [Hx HY]%drop_ne. by apply i_called0.
  - intros x Y A [Hx HY]%drop_ne Hs Hv _. apply (i_served0 x Y A); [done..|congruence].
  - intros u p [Hp Hu]%drop_parent. destruct (i_child0 u p Hp) as (U & V & HU & HV & HsU & HsV & Hc & Hn & Hr & Hl).
    exists U, V. rewrite !drop_tx by congruence. split_and!; try done. intros Hp'. apply Hu. by eapply (i_inj0 u r p), Hup.
  - intros u u' p [Hp _]%drop_parent [Hp' _]%drop_parent. by eapply i_inj0.
  - destruct i_rank0 as [rk Hrk]. exists rk. intros u p [Hp _]%drop_parent. by apply Hrk.
  - intros x l Hx. destruct (i_item0 x l Hx) as (Y & HY & H1 & H2 & H3). exists Y. rewrite drop_tx by congruence. split_and!; try done.
    intros Hp. destruct (i_child0 r x (Hup x Hp)) as (U & V & _ & _ & _ & _ & _ & Hn & _). by apply (Hn l).
  - intros A x Y HA Hi [Hx HY]%drop_ne Hs Hv. destruct (i_directed0 A x Y HA Hi HY Hs Hv) as (v & Hv' & Ho & Hin). exists v.
    split; [done|]. assert (v <> r) by (intros ->; by apply (inside_not_lim x)).
    split; [by apply drop_outgoing|by apply drop_inside].
  - intros A x Y HA Hi [Hx HY]%drop_ne. by apply i_selected0.
  - intros A q f Hd. destruct (i_replying0 A q f Hd) as (Y & HY & Hs & Hv & Hr & Hc & Hl). exists Y. rewrite drop_tx by congruence.
    split_and!; try done. intros Hp. destruct (i_child0 r q (Hup q Hp)) as (U & V & _ & _ & _ & _ & _ & _ & Hn & _). by apply (Hn A f).
  - intros A p f Hd. destruct (i_calling0 A p f Hd) as (H0 & H1 & H2 & H3). split; [done|].
    assert (Hhd : forall B v, head (stk B) = Some v -> v <> r).
    { intros B v Hv ->. apply (Hns B). destruct (stk B); [done|]. injection Hv as ->. left. }
    split; [intros v Hv; apply drop_incoming; [by eapply Hhd|by apply H1]|].
    split; [intros x Y Hi [Hx HY]%drop_ne; by apply (H2 x)|].
    intros F HF HT. destruct (H3 F HF HT) as (Hh & u & v & Hu & Hv & Ho & Huv). split; [done|]. exists u, v.
    split; [done|]. split; [done|]. split; [apply drop_outgoing; [by eapply Hhd|done]|].
    destruct Huv as [?|?]; [by left|right; apply drop_inside; [done|by eapply Hhd]].
  - intros x l Y q Hi [Hx HY]%drop_ne. by apply (i_home0 x l Y q).
  - intros x Y B [Hx HY]%drop_ne. by apply (i_away0 x Y B).
  - intros p Hp. destruct (i_child0 r p (Hup p Hp)) as (U & V & HU & HV & HsU & HsV & Hc & _). exists V.
    assert (U = X) as -> by congruence. rewrite drop_tx by (intros ->; by apply (Hnc r), Hup). split_and!; try done. congruence.
  - intros n x Y Hi [Hx HY]%drop_ne. by apply (i_async0 n x Y).
  - intros A x Hm. destruct (i_making0 A x Hm) as ([HY Hs] & H). split; [|done]. split; [|done]. etrans; [apply drop_tx; congruence|done].
Qed.

(** A call that ends is on top of its caller's stack. *)
Lemma lim_on_top B : caller X = Some B -> exists l, stk B = r :: l /\ top c B = Some (Some r) /\
  stack_ok c B (parent X) l /\ (forall v, head l = Some v -> incoming c B v) /\ server X <> Some B /\ r ∉ l.
Proof.
  intros Hcl. destruct (i_lim _ _ _ I r eq_refl) as (X' & HX' & HsX & HrX). assert (X' = X) as -> by congruence.
  pose proof (i_called _ _ _ I r X B HX HsX Hcl) as Hr.
  destruct (top c B) as [o|] eqn:Ho; [|by rewrite (i_dead _ _ _ I B Ho) in Hr; apply not_elem_of_nil in Hr].
  pose proof (i_stack _ _ _ I B o Ho) as Hst. pose proof (stack_nodup _ _ _ _ _ _ I Hst) as Hnd.
  destruct (stack_tip _ _ _ _ r Hst (lim_childless _ _ _ I) Hr) as [-> Hh].
  destruct (stk B) as [|r' l]; [done|]. injection Hh as ->. exists l. apply NoDup_cons in Hnd as [Hnd _].
  inversion Hst as [|? Y ? HY ? Hv Hn|? Y ? HY ? Hc Hn Hhd Hl]; subst; [congruence|]. assert (Y = X) as -> by congruence. done.
Qed.

(** The caller is told: the call is off its stack. *)
Lemma inv_pop B : caller X = Some B -> inv (fupd B (tail (stk B)) stk) None (set_top B (Some (parent X)) (drop r c)).
Proof.
  intros Hcl. destruct (lim_on_top B Hcl) as (lB & EB & HtB & HlB & HhB & HsB & HrB).
  destruct (i_lim _ _ _ I r eq_refl) as (X' & HX' & HsX & HrX). assert (X' = X) as -> by congruence. clear HX'.
  pose proof (lim_nowhere _ _ _ r I eq_refl) as (Hnq & Hnr & Hnc). set (stk' := fupd B _ stk). set (c' := set_top B _ _).
  assert (EsB : stk' B = lB) by (unfold stk'; by rewrite fupd_eq, EB).
  assert (Es : forall A, A <> B -> stk' A = stk A) by (intros A HA; unfold stk'; by rewrite fupd_ne).
  assert (Hns : forall A, A <> B -> r ∉ stk A).
  { intros A HA Hr. destruct (top c A) as [o|] eqn:Ho; [|by rewrite (i_dead _ _ _ I A Ho) in Hr; apply not_elem_of_nil in Hr].
    destruct (stack_role _ _ _ _ r (i_stack _ _ _ I A o Ho) Hr) as [(Y & HY & _ & Hv & _)|(Y & HY & _ & Hv & _)]; [|congruence].
    apply (HrX A); congruence. }
  assert (Hsub : forall A x, x ∈ stk A -> x <> r -> x ∈ stk' A).
  { intros A x Hx Hxr. destruct (decide (A = B)) as [->|HA]; [|by rewrite Es]. rewrite EsB. rewrite EB in Hx.
    by apply elem_of_cons in Hx as [?|?]. }
  assert (Hback : forall A x, x ∈ stk' A -> x ∈ stk A).
  { intros A x. destruct (decide (A = B)) as [->|HA]; [|by rewrite Es]. rewrite EsB, EB. by right. }
  assert (Htop : forall A, A <> B -> top c' A = top c A) by (intros A HA; simpl; by rewrite fupd_ne).
  assert (Hout : forall A v, head (stk A) = Some v -> outgoing c A v -> v <> r -> A <> B).
  { intros A v Hv _ Hvr ->. rewrite EB in Hv. by injection Hv as ->. }
  assert (Htop' : forall A, top c' A <> None -> top c A <> None).
  { intros A. destruct (decide (A = B)) as [->|HA]; [by rewrite HtB|by rewrite Htop]. }
  pose proof I as I0. destruct I. split; try done.
  - intros A o. simpl. unfold fupd. case_decide as HA; [subst A; intros [= <-]; rewrite EsB|rewrite (Es A HA); intros Ho].
    + eapply (stack_tx (drop r c)); [done|]. by apply drop_stack.
    + eapply (stack_tx (drop r c)); [done|]. apply drop_stack; [by apply i_stack0|by apply Hns].
  - intros A. destruct (decide (A = B)) as [->|HA]; [simpl; by rewrite fupd_eq|]. rewrite Htop, Es by done. apply i_dead0.
  - intros x Y A [Hx HY]%drop_ne Hs Hc. apply Hsub; [by apply (i_called0 x Y)|done].
  - intros x Y A [Hx HY]%drop_ne Hs Hv _. destruct (i_served0 x Y A HY Hs Hv ltac:(congruence)) as [H|H]; [left; by apply Hsub|by right].
  - intros u p [Hp Hu]%drop_parent. destruct (i_child0 u p Hp) as (U & V & HU & HV & HsU & HsV & Hc & Hn & Hr & Hl).
    exists U, V. change (tx c') with (tx (drop r c)). rewrite !drop_tx by congruence. done.
  - intros u u' p [Hp _]%drop_parent [Hp' _]%drop_parent. by eapply i_inj0.
  - destruct i_rank0 as [rk Hrk]. exists rk. intros u p [Hp _]%drop_parent. by apply Hrk.
  - intros x l Hx. destruct (i_item0 x l Hx) as (Y & HY & H1 & H2 & H3). exists Y. change (tx c') with (tx (drop r c)).
    rewrite drop_tx by congruence. split_and!; try done. intros A HA. destruct (H1 A HA) as [Hn ?]. split; [|done]. by intros ?%Hback.
  - intros A x Y HA Hi [Hx HY]%drop_ne Hs Hv. destruct (i_directed0 A x Y (Htop' A HA) Hi HY Hs Hv) as (v & Hv' & Ho & Hin).
    assert (Hvr : v <> r) by (intros ->; by apply (inside_not_lim x)). exists v. rewrite Es by (by eapply Hout).
    split; [done|]. split; [by apply drop_outgoing|by apply drop_inside].
  - intros A x Y HA Hi [Hx HY]%drop_ne Hv. destruct (i_selected0 A x Y (Htop' A HA) Hi HY Hv) as [E ?].
    rewrite Es; [done|]. intros ->. by rewrite EB in E.
  - intros A Hl. destruct (i_free0 A Hl) as [E ?]. rewrite Es; [done|]. intros ->. by rewrite EB in E.
  - intros A Hd. destruct (decide (A = B)) as [->|HA]; [simpl; by rewrite fupd_eq|]. rewrite Htop by done. by apply i_busy0.
  - intros A q f Hd. destruct (i_replying0 A q f Hd) as (Y & HY & Hs & Hv & Hr & Hc & Hl). exists Y. change (tx c') with (tx (drop r c)).
    rewrite drop_tx by congruence. split_and!; try done; [by intros ?%Hback|]. eapply expects_mono; [exact Hc|done|]. intros F HF.
    destruct (top c' F) eqn:E; [|done]. destruct (Htop' F); [congruence|done].
  - intros A p f Hd. destruct (i_calling0 A p f Hd) as (H0 & H1 & H2 & H3). split; [done|].
    assert (HA : A <> B).
    { intros ->. destruct (H1 r) as (Y & HY & _ & Hv & _); [by rewrite EB|]. apply HsB. congruence. }
    rewrite Es by done. assert (Hhd : forall v, head (stk A) = Some v -> v <> r).
    { intros v Hv ->. apply (Hns A HA). destruct (stk A); [done|]. injection Hv as ->. left. }
    split; [intros v Hv; apply drop_incoming; [by apply Hhd|by apply H1]|].
    split; [intros x Y Hi [Hx HY]%drop_ne; by apply (H2 x)|].
    intros F HF HT. destruct (H3 F HF (Htop' F HT)) as (Hh & u & v & Hu & Hv & Ho & Huv). split; [done|]. exists u, v.
    assert (Hvr : v <> r).
    { intros ->. destruct Huv as [->|Huv]; [by apply (Hhd r)|by apply (inside_not_lim u)]. }
    rewrite Es by (by eapply Hout). split; [done|]. split; [done|]. split; [by apply drop_outgoing|].
    destruct Huv as [?|?]; [by left|right; apply drop_inside; [done|by apply Hhd]].
  - intros x l Y q Hi [Hx HY]%drop_ne. by apply (i_home0 x l Y q).
  - intros x Y A [Hx HY]%drop_ne. by apply (i_away0 x Y A).
  - intros n x Y Hi [Hx HY]%drop_ne. by apply (i_async0 n x Y).
  - intros A x Hm. destruct (i_making0 A x Hm) as ([HY Hs] & H). split; [|done]. split; [|done]. etrans; [apply drop_tx; congruence|done].
Qed.
End drop.

(** ** Serving a call *)

Section deliver.
Context (stk : nat -> list nat) (c : calls) (A t : nat) (X : call) (I : inv stk (Some t) c).
Context (HX : tx c !! t = Some X) (HA : top c A <> None) (w : bool) (Hd : doing c A = Reading w).
Context (Hdest : dest X = Some (home c A)) (Hsv : server X = None \/ server X = Some A).
Context (Hh : forall v, head (stk A) = Some v -> outgoing c A v /\ inside c t v).
Context (Hrest : forall x Y, x ∈ items c (thread_todo A) -> tx c !! x = Some Y -> sync Y = false /\ server Y <> None).
Let X' : call := Call (caller X) (parent X) (Some A) (head (stk A)) (dest X) true.
Let c' : calls := push A t X' c.
Let stk' : nat -> list nat := fupd A (t :: stk A) stk.

Lemma deliver_alive : exists o, top c A = Some o.
Proof. destruct (top c A) as [o|]; [by exists o|done]. Qed.

Lemma deliver_sync : sync X = true.
Proof. destruct (i_lim _ _ _ I t eq_refl) as (Y & HY & Hs & _). congruence. Qed.

Lemma deliver_caller : caller X <> Some A.
Proof. intros Hc. apply (i_away _ _ _ I t X A HX deliver_sync Hc). exact Hdest. Qed.

Lemma deliver_tx x Y : tx c' !! x = Some Y -> exists Y0, tx c !! x = Some Y0 /\ caller Y = caller Y0 /\ parent Y = parent Y0 /\
  sync Y = sync Y0 /\ dest Y = dest Y0 /\ (x <> t -> Y = Y0).
Proof.
  simpl. rewrite lookup_insert. case_decide as Hx; [|intros HY; by exists Y].
  intros [= <-]. exists X. rewrite <- Hx, HX, deliver_sync. by split_and!.
Qed.

Lemma deliver_tx_in x Y0 : tx c !! x = Some Y0 -> exists Y, tx c' !! x = Some Y /\ caller Y = caller Y0 /\ parent Y = parent Y0 /\
  sync Y = sync Y0 /\ (x <> t -> Y = Y0) /\ (x = t -> Y = X').
Proof.
  simpl. rewrite lookup_insert. case_decide as Hx; [|intros HY; exists Y0; split_and!; try done; congruence].
  rewrite <- Hx, HX. intros [= <-]. exists X'. rewrite deliver_sync. by split_and!.
Qed.

Lemma deliver_parent u v : parent_of c' u v <-> parent_of c u v.
Proof.
  split.
  - intros (U & HU & Hp). destruct (deliver_tx u U HU) as (U0 & HU0 & _ & E & _). exists U0. by rewrite <- E.
  - intros (U & HU & Hp). destruct (deliver_tx_in u U HU) as (U0 & HU0 & _ & E & _). exists U0. by rewrite E.
Qed.

Lemma deliver_inside u v : inside c u v -> inside c' u v.
Proof. apply inside_mono. intros x y. by rewrite deliver_parent. Qed.

Lemma deliver_fresh : t ∉ stk A.
Proof.
  intros Ht. destruct deliver_alive as [o Ho].
  destruct (stack_role _ _ _ _ t (i_stack _ _ _ I A o Ho) Ht) as [(Y & HY & _ & Hv & _)|(Y & HY & _ & Hc & _)].
  - destruct (i_lim _ _ _ I t eq_refl) as (Y' & HY' & _ & Hn). apply (Hn A); congruence.
  - apply deliver_caller. congruence.
Qed.

(** On another stack [t] is a call made, and still is. *)
Lemma deliver_roles B v : (B = A -> v <> t) -> (incoming c B v -> incoming c' B v) /\ (outgoing c B v -> outgoing c' B v).
Proof.
  intros Hv. destruct (decide (v = t)) as [->|Hvt].
  - assert (HB : B <> A) by (intros ->; by apply Hv). split.
    + intros (Y & HY & _ & Hs & _). assert (Y = X) as -> by congruence. destruct Hsv as [Hs'|Hs']; congruence.
    + intros (Y & HY & _ & Hc & _). assert (Y = X) as -> by congruence. exists X'. simpl. rewrite lookup_insert_eq. split_and!; try done. congruence.
  - split; intros (Y & HY & H); destruct (deliver_tx_in v Y HY) as (Y' & HY' & _ & _ & _ & E & _); rewrite (E Hvt) in HY'; by exists Y.
Qed.

Lemma deliver_stack B o : top c' B = Some o -> stack_ok c' B o (stk' B).
Proof.
  assert (Hsame : forall C o' l, stack_ok c C o' l -> (C = A -> t ∉ l) -> stack_ok c' C o' l).
  { intros C o' l. induction 1 as [|u Y l HY Hs Hv Hn Hhd Hl IH|u Y l HY Hs Hv Hn Hhd Hl IH]; intros Ht; [constructor|..].
    - assert (Hu : u <> t).
      { intros ->. assert (Y = X) as -> by congruence. destruct Hsv as [Hs'|Hs']; [congruence|]. apply Ht; [congruence|left]. }
      destruct (deliver_tx_in u Y HY) as (Y' & HY' & _ & _ & _ & E & _). rewrite (E Hu) in HY'.
      eapply stack_in; [exact HY'|done..| |apply IH; intros HC Hi; apply Ht; [done|by right]].
      intros v Hv'. destruct (Hhd v Hv') as [H1 H2]. split; [|by apply deliver_inside]. apply deliver_roles; [|done].
      intros HC ->. apply Ht; [done|]. right. destruct l; [done|]. injection Hv' as ->. left.
    - destruct (deliver_tx_in u Y HY) as (Y' & HY' & Ec & Ep & Es & E & Et).
      eapply stack_out; [exact HY'|congruence|congruence| | |].
      + destruct (decide (u = t)) as [->|Hu]; [|by rewrite (E Hu)]. rewrite (Et eq_refl). simpl.
        intros [= HC]. apply Ht; [done|left].
      + intros v Hv'. apply deliver_roles; [|by apply Hhd].
        intros HC ->. apply Ht; [done|]. right. destruct l; [done|]. injection Hv' as ->. left.
      + rewrite Ep. apply IH. intros HC Hi. apply Ht; [done|by right]. }
  simpl. unfold stk', fupd. case_decide as HB; [|intros Ho; apply Hsame; [by apply (i_stack _ _ _ I)|done]].
  rewrite HB. intros [= <-]. destruct deliver_alive as [o' Ho]. pose proof (i_stack _ _ _ I A o' Ho) as Hst.
  eapply (stack_in _ _ _ X'); [simpl; by rewrite lookup_insert_eq|done|done|exact deliver_caller| |].
  - intros v Hv. destruct (Hh v Hv) as [Ho' Hin]. split; [|by apply deliver_inside]. apply deliver_roles; [|done].
    intros _ ->. apply deliver_fresh. destruct (stk A); [done|]. injection Hv as ->. left.
  - simpl. rewrite (stack_head _ _ _ _ Hst). apply Hsame; [exact Hst|intros _; exact deliver_fresh].
Qed.

(** The thread another call is meant for does not take up this one: both
    would be inside the call it waits for. *)
Lemma deliver_calling B p f : doing c' B = Calling p f -> home c B <> p /\ (forall v, head (stk' B) = Some v -> incoming c' B v) /\
  (forall x Y, x ∈ items c (thread_todo B) -> tx c' !! x = Some Y -> server Y <> None) /\
  (forall F, f = Some F -> top c' F <> None -> home c F = p /\ exists u v, head (stk' B) = Some u /\ head (stk' F) = Some v /\
      outgoing c' F v /\ (u = v \/ inside c' u v)).
Proof.
  simpl. unfold stk'. unfold fupd at 1. case_decide as HB; [done|]. intros HdB.
  destruct (i_calling _ _ _ I B p f HdB) as (H0 & H1 & H2 & H3). rewrite (fupd_ne A B) by done. split_and!; [done|..].
  - intros v Hv. apply deliver_roles; [done|by apply H1].
  - intros x Y Hx HY. destruct (lim_nowhere _ _ _ t I eq_refl) as (Hnq & _). destruct (deliver_tx x Y HY) as (Y0 & HY0 & _ & _ & _ & _ & E).
    rewrite E by (intros ->; by destruct (Hnq (thread_todo B))). by apply (H2 x).
  - intros F HF HT. assert (HT' : top c F <> None).
    { revert HT. simpl. unfold fupd. case_decide as HF'; [by rewrite HF'|done]. }
    destruct (H3 F HF HT') as (Hp & u & v & Hu & Hv & Ho & Huv). split; [done|]. exists u, v.
    assert (HFA : F <> A).
    { intros ->. destruct (Hh v Hv) as [_ Hin]. pose proof (H1 u Hu) as Hinc. assert (HTB : top c B <> None) by (apply (i_busy _ _ _ I); congruence).
      pose proof (top_childless _ _ _ B u I HTB Hu Hinc) as Hcu. pose proof (lim_childless _ _ _ I) as Hct.
      assert (t = u) as <-.
      { destruct Huv as [->|Huv]; [|by eapply tip_unique]. destruct (inside_child _ _ _ Hin) as [z Hz]. by destruct (Hcu z). }
      destruct Hinc as (Y & HY & _ & Hs & _). destruct Hsv; congruence. }
    rewrite fupd_ne by done. split; [done|]. split; [done|]. split; [by apply deliver_roles|].
    destruct Huv as [?|?]; [by left|right; by apply deliver_inside].
Qed.

Lemma inv_deliver : inv stk' None c'.
Proof.
  destruct (lim_nowhere _ _ _ t I eq_refl) as (Hnq & Hnr & Hnc).
  assert (Hsub : forall B x, x ∈ stk B -> x ∈ stk' B).
  { intros B x Hx. unfold stk', fupd. case_decide as HB; [rewrite HB in *; by right|done]. }
  assert (Hleave : forall B g, doing c' B = g -> g <> Idle -> B <> A /\ doing c B = g).
  { intros B g. simpl. unfold fupd. case_decide; [by intros <-|done]. }
  split; try done.
  - apply deliver_stack.
  - intros B. simpl. unfold stk', fupd. case_decide; [done|]. apply (i_dead _ _ _ I).
  - intros x Y B HY Hs Hc. destruct (deliver_tx x Y HY) as (Y0 & HY0 & Ec & _ & Es & _ & _).
    apply Hsub, (i_called _ _ _ I x Y0); [done|congruence..].
  - intros x Y B HY Hs Hv _. destruct (deliver_tx x Y HY) as (Y0 & HY0 & _ & _ & Es & _ & E). destruct (decide (x = t)) as [->|Hx].
    + left. simpl in HY. rewrite lookup_insert_eq in HY. injection HY as <-. injection Hv as <-. unfold stk'. rewrite fupd_eq. left.
    + rewrite (E Hx) in *. destruct (i_served _ _ _ I x Y0 B HY0 Hs Hv ltac:(congruence)) as [H|[H|[g H]]]; [left; by apply Hsub|by right; left|].
      right; right. exists g. simpl. rewrite fupd_ne; [done|]. intros ->. congruence.
  - intros u p Hp%deliver_parent. destruct (i_child _ _ _ I u p Hp) as (U0 & V0 & HU0 & HV0 & HsU & HsV & Hc & Hn & Hr & _).
    destruct (deliver_tx_in u U0 HU0) as (U & HU & Ec & _ & Es & _). destruct (deliver_tx_in p V0 HV0) as (V & HV & _ & _ & _ & E & _).
    assert (Hpt : p <> t) by (intros ->; by apply (Hnc u)). exists U, V. rewrite (E Hpt) in *. split_and!; try done; [congruence..|].
    intros B g Hd'. destruct (Hleave B _ Hd' ltac:(done)) as [_ Hd'']. by apply (Hr B g).
  - intros u u' p Hp%deliver_parent Hp'%deliver_parent. by eapply (i_inj _ _ _ I).
  - destruct (i_rank _ _ _ I) as [rk Hrk]. exists rk. intros u p Hp%deliver_parent. by apply Hrk.
  - intros x l Hx. assert (Hxt : x <> t) by (intros ->; by destruct (Hnq l)). destruct (i_item _ _ _ I x l Hx) as (Y0 & HY0 & H1 & _ & H3).
    destruct (deliver_tx_in x Y0 HY0) as (Y & HY & _ & _ & _ & E & _). rewrite (E Hxt) in *. exists Y0. split_and!; try done.
    + intros B HB. destruct (H1 B HB) as [Hn ?]. split; [|done]. unfold stk', fupd. case_decide as HBA; [|done]. rewrite HBA in *.
      by apply not_elem_of_cons.
    + intros B g Hd'. destruct (Hleave B _ Hd' ltac:(done)) as [_ Hd'']. by apply (H3 B g).
  - apply (i_once _ _ _ I).
  - apply (i_nodup _ _ _ I).
  - intros B x Y HB Hi HY Hs Hv. destruct (deliver_tx x Y HY) as (Y0 & HY0 & _ & _ & _ & _ & E).
    rewrite (E ltac:(intros ->; by destruct (Hnq (thread_todo B)))) in *. destruct (decide (B = A)) as [->|HBA].
    { destruct (Hrest x Y0 Hi HY0). congruence. }
    simpl in HB. rewrite fupd_ne in HB by done. destruct (i_directed _ _ _ I B x Y0 HB Hi HY0 Hs Hv) as (v & Hv' & Ho & Hin).
    exists v. unfold stk'. rewrite fupd_ne by done. split; [done|]. split; [by apply deliver_roles|by apply deliver_inside].
  - intros B x Y HB Hi HY Hv. destruct (deliver_tx x Y HY) as (Y0 & HY0 & _ & _ & _ & _ & E).
    rewrite (E ltac:(intros ->; by destruct (Hnq (thread_todo B)))) in *. destruct (decide (B = A)) as [->|HBA].
    { destruct (Hrest x Y0 Hi HY0). congruence. }
    simpl in HB. rewrite fupd_ne in HB by done. unfold stk'. rewrite fupd_ne by done. by apply (i_selected _ _ _ I B x Y0).
  - intros B Hw. destruct (i_wait _ _ _ I B Hw) as [H ?]. split; [|done]. simpl. rewrite fupd_ne; [done|]. intros ->. congruence.
  - intros B Hl. assert (HB : B <> A /\ at_leisure c B).
    { destruct Hl as [Hl|Hl]; destruct (Hleave B _ Hl ltac:(done)); (split; [done|]); [by left|by right]. }
    destruct HB as [HB Hl']. unfold stk'. rewrite fupd_ne by done. by apply (i_free _ _ _ I).
  - intros B Hb. destruct (Hleave B _ eq_refl Hb) as [HB _]. simpl. rewrite fupd_ne by done. apply (i_busy _ _ _ I). simpl in Hb.
    by rewrite fupd_ne in Hb.
  - intros B r f Hr. destruct (Hleave B _ Hr ltac:(done)) as [HB Hr']. destruct (i_replying _ _ _ I B r f Hr') as (Y0 & HY0 & Hs & Hv & Hn & Hc & _).
    destruct (deliver_tx_in r Y0 HY0) as (Y & HY & _ & _ & _ & E & _). exists Y.
    assert (Y = Y0) as -> by (apply E; intros ->; by apply (Hnr B f)). unfold stk'. rewrite fupd_ne by done. split_and!; try done.
    eapply expects_mono; [exact Hc|done|]. intros F HF. simpl. unfold fupd. case_decide as HFA; [|done].
    destruct deliver_alive as [o Ho]. congruence.
  - apply deliver_calling.
  - intros x l Y q Hi HY. destruct (deliver_tx x Y HY) as (Y0 & HY0 & _ & _ & _ & _ & E).
    rewrite (E ltac:(intros ->; by destruct (Hnq l))). by apply (i_home _ _ _ I x l Y0 q).
  - intros x Y B HY Hs Hc. destruct (deliver_tx x Y HY) as (Y0 & HY0 & Ec & _ & Es & Ed & _). rewrite Ed.
    apply (i_away _ _ _ I x Y0); congruence.
  - intros n x Y Hi HY. destruct (deliver_tx x Y HY) as (Y0 & HY0 & _ & _ & _ & _ & E).
    rewrite (E ltac:(intros ->; by destruct (Hnq (async_todo n)))). by apply (i_async _ _ _ I n x Y0).
  - intros B x Hm. destruct (i_making _ _ _ I B x Hm) as ([HY Hs] & H). split; [|done]. simpl. rewrite lookup_insert_ne; [done|].
    intros <-. assert (draft c B = X) as E by congruence. rewrite E in Hs. by rewrite deliver_sync in Hs.
Qed.
End deliver.

(** ** Replying *)

(** The reply's sender no longer serves the call; its caller still waits. *)
Lemma inv_reply stk c A r X l : inv stk None c -> doing c A = Idle -> top c A <> None -> stk A = r :: l -> tx c !! r = Some X ->
  server X = Some A -> inv (fupd A l stk) None (set_doing A (Replying r (caller X)) (set_top A (Some (under X)) c)).
Proof.
  intros I Hd HA Es HX Hsv. set (c' := set_doing _ _ _). set (stk' := fupd A l stk).
  destruct (top c A) as [o|] eqn:Ho; [|done]. pose proof (i_stack _ _ _ I A o Ho) as Hst. pose proof (stack_nodup _ _ _ _ _ _ I Hst) as Hnd.
  rewrite Es in Hst, Hnd. apply NoDup_cons in Hnd as [Hrl _].
  assert (Hin : incoming c A r /\ stack_ok c A (under X) l /\ sync X = true /\ caller X <> Some A).
  { inversion Hst as [|? Y ? HY Hs Hv Hn Hh Hl|? Y ? HY Hs Hc Hn]; subst; (assert (Y = X) as -> by congruence); [|congruence].
    split; [by exists X|done]. }
  destruct Hin as (Hin & Hl & HsX & HcX). assert (Hhr : head (stk A) = Some r) by by rewrite Es.
  pose proof (top_childless _ _ _ A r I ltac:(congruence) Hhr Hin) as Hcr.
  assert (Er : stk' A = l) by (unfold stk'; by rewrite fupd_eq). assert (Ene : forall B, B <> A -> stk' B = stk B) by (intros B HB; unfold stk'; by rewrite fupd_ne).
  assert (Hback : forall B x, x ∈ stk' B -> x ∈ stk B).
  { intros B x. destruct (decide (B = A)) as [->|HB]; [rewrite Er, Es; by right|by rewrite Ene]. }
  assert (Hleave : forall B g, doing c' B = g -> B <> A -> doing c B = g) by (intros B g; simpl; intros <- HB; by rewrite fupd_ne).
  assert (HdA : doing c' A = Replying r (caller X)) by (simpl; by rewrite fupd_eq).
  assert (Hrep : forall B x f, doing c' B = Replying x f -> doing c B = Replying x f \/ B = A /\ x = r /\ f = caller X).
  { intros B x f H. destruct (decide (B = A)) as [->|HB]; [right; rewrite HdA in H; by injection H as <- <-|left; by apply Hleave]. }
  assert (Hout : forall v, head (stk A) = Some v -> ~ outgoing c A v).
  { intros v Hv (Y & HY & _ & Hc & Hn). rewrite Es in Hv. injection Hv as <-. congruence. }
  assert (Htop : forall B, top c' B <> None -> top c B <> None).
  { intros B. simpl. unfold fupd. case_decide as HB; [by rewrite HB, Ho|done]. }
  destruct I. split; try done.
  - intros B o'. simpl. unfold fupd. case_decide as HB; [rewrite HB, Er; intros [= <-]|rewrite (Ene B HB); intros Ho'];
      (eapply (stack_tx c); [done|]); [done|by apply i_stack0].
  - intros B. simpl. unfold fupd. case_decide as HB; [done|]. rewrite Ene by done. apply i_dead0.
  - intros x Y B HY Hs Hc. pose proof (i_called0 x Y B HY Hs Hc) as Hx. destruct (decide (B = A)) as [->|HB]; [|by rewrite Ene].
    rewrite Er. rewrite Es in Hx. apply elem_of_cons in Hx as [->|Hx]; [|done]. change (tx c !! r = Some Y) in HY. congruence.
  - intros x Y B HY Hs Hv _. change (tx c !! x = Some Y) in HY. destruct (decide (x = r)) as [->|Hx].
    + right; right. assert (B = A) as -> by congruence. by eexists.
    + destruct (i_served0 x Y B HY Hs Hv ltac:(done)) as [H|[H|[f H]]]; [left|by right; left|right; right; exists f].
      * destruct (decide (B = A)) as [->|HB]; [|by rewrite Ene]. rewrite Er. rewrite Es in H. by apply elem_of_cons in H as [->|H].
      * simpl. rewrite fupd_ne; [done|]. intros ->. congruence.
  - intros u p Hp. destruct (i_child0 u p Hp) as (U & V & HU & HV & HsU & HsV & Hc & Hn & Hr & _). exists U, V. split_and!; try done.
    intros B f [H|(-> & -> & _)]%Hrep; [by apply (Hr B f)|by apply (Hcr u)].
  - intros x l' Hx. destruct (i_item0 x l' Hx) as (Y & HY & H1 & _ & H3). exists Y. split_and!; try done.
    + intros B HB. destruct (H1 B HB) as [Hn ?]. split; [|done]. by intros ?%Hback.
    + intros B f [H|(-> & -> & _)]%Hrep; [by apply (H3 B f)|]. assert (Y = X) as -> by congruence. destruct (H1 A Hsv) as [Hn _].
      apply Hn. rewrite Es. left.
  - intros B x Y HB Hi HY Hs Hv. destruct (i_directed0 B x Y (Htop B HB) Hi HY Hs Hv) as (v & Hv' & Ho' & Hi'). exists v.
    rewrite Ene; [done|]. intros ->. by apply (Hout v).
  - intros B x Y HB Hi HY Hv. destruct (i_selected0 B x Y (Htop B HB) Hi HY Hv) as [E ?]. rewrite Ene; [done|]. intros ->.
    by rewrite Es in E.
  - intros B Hw. destruct (i_wait0 B Hw) as [H ?]. split; [|done]. simpl. rewrite fupd_ne; [done|]. intros ->. congruence.
  - intros B Hlz. assert (HB : B <> A) by (intros ->; destruct Hlz as [Hlz|Hlz]; congruence). rewrite Ene by done.
    apply i_free0. destruct Hlz as [Hlz|Hlz]; [left|right]; by apply Hleave.
  - intros B Hb. simpl in *. unfold fupd in *. case_decide; [done|]. by apply i_busy0.
  - intros B x f [H|(-> & -> & ->)]%Hrep.
    + destruct (i_replying0 B x f H) as (Y & HY & Hs & Hv & Hn & Hc & _). exists Y. split_and!; try done; [by intros ?%Hback|].
      eapply expects_mono; [exact Hc|done|]. intros F HF. destruct (top c' F) eqn:E; [|done]. destruct (Htop F); [congruence|done].
    + exists X. rewrite Er. split_and!; try done. by left.
  - intros B p f Hc. assert (HB : B <> A) by congruence. destruct (i_calling0 B p f (Hleave B _ Hc HB)) as (H0 & H1 & H2 & H3).
    rewrite Ene by done. split_and!; try done. intros F HF HT. destruct (H3 F HF (Htop F HT)) as (Hh & u & v & Hu & Hv & Ho' & Huv).
    split; [done|]. exists u, v. rewrite Ene; [done|]. intros ->. by apply (Hout v).
Qed.

(** The reply, or its failure, takes the call in hand. *)
Lemma inv_reply_take stk c A r f : inv stk None c -> doing c A = Replying r f -> inv stk (Some r) (set_doing A Idle c).
Proof.
  intros I Hd. set (c' := set_doing A Idle c). destruct (i_replying _ _ _ I A r f Hd) as (X & HX & HsX & Hsv & Hn & _).
  pose proof (replying_childless _ _ _ _ _ _ I Hd) as Hcr.
  assert (Hleave : forall B g, doing c' B = g -> g <> Idle -> B <> A /\ doing c B = g).
  { intros B g. simpl. unfold fupd. case_decide; [by intros <-|done]. }
  assert (Hli : forall B, at_leisure c' B -> at_leisure c B).
  { intros B [H|H]; destruct (Hleave B _ H ltac:(done)); [by left|by right]. }
  destruct I. split; try done.
  - intros B o Ho. eapply (stack_tx c); [done|by apply i_stack0].
  - intros x Y B HY Hs Hv Hl. destruct (i_served0 x Y B HY Hs Hv ltac:(done)) as [H|[H|[g H]]]; [by left|by right; left|right; right].
    exists g. simpl. rewrite fupd_ne; [done|]. intros ->. congruence.
  - intros u p Hp. destruct (i_child0 u p Hp) as (U & V & HU & HV & HsU & HsV & Hc & Hq & Hr & _). exists U, V. split_and!; try done.
    + intros B g H. destruct (Hleave B _ H ltac:(done)) as [_ H']. by apply (Hr B g).
    + intros [= <-]. by apply (Hcr u).
  - intros x l Hx. destruct (i_item0 x l Hx) as (Y & HY & H1 & _ & H3). exists Y. split_and!; try done.
    + intros [= <-]. by apply (H3 A f).
    + intros B g H. destruct (Hleave B _ H ltac:(done)) as [_ H']. by apply (H3 B g).
  - intros B Hw. destruct (i_wait0 B Hw) as [H ?]. split; [|done]. simpl. rewrite fupd_ne; [done|]. intros ->. congruence.
  - intros B Hl%Hli. by apply i_free0.
  - intros B Hb. destruct (Hleave B _ eq_refl Hb) as [_ E]. apply i_busy0. by rewrite E.
  - intros B x g H. destruct (Hleave B _ H ltac:(done)) as [HB H']. destruct (i_replying0 B x g H') as (Y & HY & Hs & Hv & Hn' & Hc & _).
    exists Y. split_and!; try done. intros [= <-]. congruence.
  - intros B p g H. destruct (Hleave B _ H ltac:(done)) as [HB H']. by apply i_calling0.
  - intros x [= <-]. exists X. split_and!; try done. intros B HB. assert (B = A) as -> by congruence. done.
Qed.

(** ** The end of a thread *)

Definition not_me (A : nat) (o : option nat) : option nat := if decide (o = Some A) then None else o.

(** What a call loses with thread [A]: its caller, or its server. *)
Definition detach (A : nat) (X : call) : call :=
  Call (not_me A (caller X)) (parent X) (not_me A (server X)) (under X) (if decide (server X = Some A) then None else dest X) (sync X).

Lemma not_me_Some A o B : not_me A o = Some B <-> o = Some B /\ B <> A.
Proof.
  unfold not_me. case_decide as H; [split; [done|intros [HB HA]; congruence]|]. split; [|by intros [? _]].
  intros ->. split; [done|]. by intros ->.
Qed.

Lemma not_me_ne A o : o <> Some A -> not_me A o = o.
Proof. intros H. unfold not_me. by rewrite decide_False. Qed.
Lemma not_me_eq A : not_me A (Some A) = None.
Proof. unfold not_me. by rewrite decide_True. Qed.

Section detach.
Context (stk : nat -> list nat) (c : calls) (A : nat) (o : option nat) (I : inv stk None c).
Context (Hd : doing c A = Idle) (Ho : top c A = Some o) (tx' : gmap nat call).
Context (Htx : forall t, tx' !! t = if decide (t ∈ stk A) then detach A <$> tx c !! t else tx c !! t).
Let c' : calls := Calls tx' (fupd A None (top c)) (todo c) (waits c) (ready c) (home c) (doing c) (making c) (draft c).
Let stk' : nat -> list nat := fupd A [] stk.

Lemma detach_tx t Y : tx' !! t = Some Y -> exists X, tx c !! t = Some X /\ parent Y = parent X /\ sync Y = sync X /\
  (t ∉ stk A -> Y = X) /\ (t ∈ stk A -> Y = detach A X).
Proof.
  rewrite Htx. case_decide as Hs; [|intros HY; by exists Y]. destruct (tx c !! t) as [X|]; [|done]. intros [= <-]. by exists X.
Qed.

Lemma detach_tx_in t X : tx c !! t = Some X -> exists Y, tx' !! t = Some Y /\ parent Y = parent X /\ sync Y = sync X /\
  (t ∉ stk A -> Y = X) /\ (t ∈ stk A -> Y = detach A X).
Proof. intros HX. rewrite Htx, HX. case_decide; [by exists (detach A X)|by exists X]. Qed.

Lemma detach_parent u v : parent_of c' u v <-> parent_of c u v.
Proof.
  split; intros (U & HU & Hp); [destruct (detach_tx u U HU) as (U0 & HU0 & E & _)|destruct (detach_tx_in u U HU) as (U0 & HU0 & E & _)];
    exists U0; by rewrite <- Hp.
Qed.

Lemma detach_inside u v : inside c u v -> inside c' u v.
Proof. apply inside_mono. intros x y. by rewrite detach_parent. Qed.

(** For another thread nothing changes. *)
Lemma detach_ends t X Y : tx c !! t = Some X -> tx' !! t = Some Y -> sync X = true -> forall B, B <> A ->
  (caller Y = Some B <-> caller X = Some B) /\ (server Y = Some B <-> server X = Some B).
Proof.
  intros HX HY Hs B HB. destruct (detach_tx t Y HY) as (X0 & HX0 & _ & _ & H1 & H2). assert (X0 = X) as -> by congruence.
  destruct (decide (t ∈ stk A)) as [Hi|Hi]; [rewrite (H2 Hi); simpl; rewrite !not_me_Some; tauto|by rewrite (H1 Hi)].
Qed.

Lemma detach_roles B v : B <> A -> (incoming c B v -> incoming c' B v) /\ (outgoing c B v -> outgoing c' B v).
Proof.
  intros HB. split; intros (X & HX & Hs & H1 & H2); destruct (detach_tx_in v X HX) as (Y & HY & _ & Es & _);
    destruct (detach_ends v X Y HX HY Hs B HB) as [Hc Hv]; exists Y; rewrite Es, Hc, Hv; done.
Qed.

Lemma detach_stack B o' : top c' B = Some o' -> stack_ok c' B o' (stk' B).
Proof.
  simpl. unfold stk', fupd. case_decide as HB; [done|]. intros HoB.
  assert (H : forall p l, stack_ok c B p l -> stack_ok c' B p l); [|by apply H, (i_stack _ _ _ I)].
  intros p l. induction 1 as [|t X l HX Hs Hv Hn Hh Hl IH|t X l HX Hs Hc Hn Hh Hl IH]; [constructor|..];
    destruct (detach_tx_in t X HX) as (Y & HY & Ep & Es & H1 & H2); destruct (detach_ends t X Y HX HY Hs B HB) as [Ec Ev].
  - eapply stack_in; [exact HY|congruence|by apply Ev|by rewrite Ec| |].
    + intros v Hv'. destruct (Hh v Hv') as [? ?]. split; [by apply detach_roles|by apply detach_inside].
    + replace (under Y) with (under X); [done|]. destruct (decide (t ∈ stk A)) as [Hi|Hi]; [by rewrite (H2 Hi)|by rewrite (H1 Hi)].
  - eapply stack_out; [exact HY|congruence|by apply Ec|by rewrite Ev| |].
    + intros v Hv'. by apply detach_roles, Hh.
    + by rewrite Ep.
Qed.

(** A call made by [A] is above the one it was made inside. *)
Lemma detach_below u p U : parent_of c u p -> tx c !! u = Some U -> caller U = Some A -> u ∈ stk A /\ p ∈ stk A.
Proof.
  intros Hp HU Hc. destruct (i_child _ _ _ I u p Hp) as (U' & V & HU' & HV & HsU & _). assert (U' = U) as -> by congruence.
  pose proof (i_called _ _ _ I u U A HU HsU Hc) as Hu. split; [done|].
  enough (H : forall q l, stack_ok c A q l -> u ∈ l -> p ∈ l) by exact (H o _ (i_stack _ _ _ I A o Ho) Hu).
  intros q l Hst. induction Hst as [|t X l HX Hs Hv Hn Hh Hl IH|t X l HX Hs Hv Hn Hh Hl IH].
  - by intros ?%not_elem_of_nil.
  - intros [->|Hi]%elem_of_cons; [congruence|]. right. by apply IH.
  - intros [->|Hi]%elem_of_cons; [|right; by apply IH]. right. destruct Hp as (U2 & HU2 & Hp). assert (X = U2) as -> by congruence.
    rewrite Hp in Hl. pose proof (stack_head _ _ _ _ Hl) as Hh'. destruct l; [done|]. injection Hh' as ->. left.
Qed.

(** The call [A] was serving, if it was not waiting inside it. *)
Definition detached : option nat :=
  match o with
  | Some t => match tx c !! t with Some X => if decide (server X = Some A) then Some t else None | None => None end
  | None => None
  end.

Lemma detached_spec r : detached = Some r -> r ∈ stk A /\ childless c r /\
  exists X, tx c !! r = Some X /\ sync X = true /\ server X = Some A /\ tx' !! r = Some (detach A X).
Proof.
  unfold detached. pose proof (i_stack _ _ _ I A o Ho) as Hst. pose proof (stack_head _ _ _ _ Hst) as Hh. intros H.
  assert (E : exists t, o = Some t) by (destruct o as [t|]; [by exists t|done]). destruct E as [t E]. rewrite E in H, Hh.
  destruct (tx c !! t) as [X|] eqn:HX; [|done]. case_decide as Hv; [|done]. injection H as <-.
  assert (Hi : t ∈ stk A) by (destruct (stk A); [done|]; injection Hh as ->; left).
  destruct (stack_role _ _ _ _ t Hst Hi) as [Hin|(Y & HY & _ & _ & Hn)]; [|congruence].
  split; [done|]. split; [eapply top_childless; [exact I|by rewrite Ho|exact Hh|done]|].
  destruct Hin as (Y & HY & Hs & _). assert (Y = X) as -> by congruence. exists X. split_and!; try done.
  rewrite Htx, decide_True by done. by rewrite HX.
Qed.

Lemma detach_child u p : parent_of c' u p -> exists U V, tx c' !! u = Some U /\ tx c' !! p = Some V /\ sync U = true /\ sync V = true /\
  caller U = server V /\ (forall l, p ∉ items c' l) /\ (forall B f, doing c' B <> Replying p f) /\ detached <> Some p.
Proof.
  intros Hp%detach_parent. destruct (i_child _ _ _ I u p Hp) as (U0 & V0 & HU0 & HV0 & HsU & HsV & Hc & Hn & Hr & _).
  destruct (detach_tx_in u U0 HU0) as (U & HU & _ & EU & U1 & U2). destruct (detach_tx_in p V0 HV0) as (V & HV & _ & EV & V1 & V2).
  exists U, V. split_and!; try done; [congruence|congruence| |intros Hl; destruct (detached_spec p Hl) as (_ & Hcl & _); by apply (Hcl u)].
  destruct (decide (caller U0 = Some A)) as [E|E].
  - destruct (detach_below u p U0 Hp HU0 E) as [Hu Hv]. rewrite (U2 Hu), (V2 Hv). simpl. by rewrite <- Hc, E, not_me_eq.
  - assert (EU' : caller U = caller U0) by (destruct (decide (u ∈ stk A)) as [Hi|Hi]; [rewrite (U2 Hi); simpl; by apply not_me_ne|by rewrite (U1 Hi)]).
    assert (EV' : server V = server V0).
    { destruct (decide (p ∈ stk A)) as [Hi|Hi]; [rewrite (V2 Hi); simpl; apply not_me_ne; congruence|by rewrite (V1 Hi)]. }
    congruence.
Qed.

(** The thread is gone from every call; what it served on top is in hand. *)
Lemma inv_detach : inv stk' detached c'.
Proof.
  assert (Htop : forall B, top c' B <> None -> B <> A /\ top c B <> None).
  { intros B. simpl. unfold fupd. case_decide; done. }
  assert (Hs' : forall B, B <> A -> stk' B = stk B) by (intros B HB; unfold stk'; by rewrite fupd_ne).
  assert (Hqi : forall x l, x ∈ items c l -> forall X, tx c !! x = Some X -> server X = Some A -> x ∉ stk A).
  { intros x l Hx X HX Hv. destruct (i_item _ _ _ I x l Hx) as (Y & HY & H1 & _). destruct (H1 A); congruence. }
  assert (HdA : forall B, doing c B <> Idle -> B <> A) by (intros B HB ->; done).
  pose proof detached_spec as Hdet. split.
  - apply detach_stack.
  - intros B. simpl. unfold stk', fupd. case_decide; [done|]. apply (i_dead _ _ _ I).
  - intros x Y B HY Hs Hc. destruct (detach_tx x Y HY) as (X & HX & _ & Es & H1 & H2).
    assert (HB : B <> A /\ caller X = Some B).
    { destruct (decide (x ∈ stk A)) as [Hi|Hi]; [rewrite (H2 Hi) in Hc; simpl in Hc; apply not_me_Some in Hc; tauto|].
      rewrite (H1 Hi) in Hc. split; [|done]. intros ->. apply Hi, (i_called _ _ _ I x X); congruence. }
    destruct HB as [HB HcX]. rewrite Hs' by done. apply (i_called _ _ _ I x X); congruence.
  - intros x Y B HY Hs Hv Hl. destruct (detach_tx x Y HY) as (X & HX & _ & Es & H1 & H2).
    assert (HvX : server X = Some B /\ (B = A -> x ∉ stk A)).
    { destruct (decide (x ∈ stk A)) as [Hi|Hi]; [rewrite (H2 Hi) in Hv; simpl in Hv; apply not_me_Some in Hv; tauto|].
      rewrite (H1 Hi) in Hv. by split. }
    destruct HvX as [HvX HA]. destruct (i_served _ _ _ I x X B HX ltac:(congruence) HvX ltac:(done)) as [H|H]; [|by right].
    left. rewrite Hs'; [done|]. intros ->. by apply HA.
  - apply detach_child.
  - intros u u' p Hp%detach_parent Hp'%detach_parent. by eapply (i_inj _ _ _ I).
  - destruct (i_rank _ _ _ I) as [rk Hrk]. exists rk. intros u p Hp%detach_parent. by apply Hrk.
  - intros x l Hx. destruct (i_item _ _ _ I x l Hx) as (X & HX & Hi & _ & Hr). destruct (detach_tx_in x X HX) as (Y & HY & _ & _ & H1 & H2).
    exists Y. split_and!; try done.
    + intros B HB. assert (HvX : server X = Some B).
      { destruct (decide (x ∈ stk A)) as [Hi'|Hi']; [rewrite (H2 Hi') in HB; simpl in HB; apply not_me_Some in HB; tauto|by rewrite (H1 Hi') in HB]. }
      destruct (Hi B HvX) as [Hn ?]. split; [|done]. unfold stk', fupd. case_decide; [apply not_elem_of_nil|done].
    + intros Hl. destruct (Hdet x Hl) as (Hi' & _ & X' & HX' & _ & Hv & _). by apply (Hqi x l Hx X').
  - apply (i_once _ _ _ I).
  - apply (i_nodup _ _ _ I).
  - intros B x Y HB Hi HY Hs Hv. destruct (Htop B HB) as [HBA HB']. destruct (detach_tx x Y HY) as (X & HX & _ & Es & _).
    destruct (detach_ends x X Y HX HY ltac:(congruence) B HBA) as [_ Ev].
    destruct (i_directed _ _ _ I B x X HB' Hi HX ltac:(congruence) ltac:(by apply Ev)) as (v & Hv' & Ho' & Hin). exists v. rewrite Hs' by done.
    split; [done|]. split; [by apply detach_roles|by apply detach_inside].
  - intros B x Y HB Hi HY Hv. destruct (Htop B HB) as [HBA HB']. destruct (detach_tx x Y HY) as (X & HX & _ & _ & H1 & H2).
    rewrite Hs' by done. apply (i_selected _ _ _ I B x X); try done. destruct (decide (x ∈ stk A)) as [Hi'|Hi']; [|by rewrite <- (H1 Hi')].
    rewrite (H2 Hi') in Hv. simpl in Hv. unfold not_me in Hv. case_decide as E; [|done]. by destruct (Hqi x _ Hi X HX E).
  - apply (i_wait _ _ _ I).
  - intros B Hl. assert (HB : B <> A) by (apply HdA; destruct Hl as [Hl|Hl]; change (doing c' B) with (doing c B) in Hl; by rewrite Hl).
    rewrite Hs' by done. by apply (i_free _ _ _ I).
  - intros B Hb. simpl. rewrite fupd_ne by (by apply HdA). by apply (i_busy _ _ _ I).
  - intros B r f Hr. change (doing c B = Replying r f) in Hr. assert (HB : B <> A) by (apply HdA; by rewrite Hr).
    destruct (i_replying _ _ _ I B r f Hr) as (X & HX & Hs & Hv & Hn & Hc & _). destruct (detach_tx_in r X HX) as (Y & HY & _ & Es & H1 & H2).
    destruct (detach_ends r X Y HX HY Hs B HB) as [_ Ev]. exists Y. rewrite Hs' by done. split_and!; try done; [congruence|by apply Ev| |].
    + assert (Hgone : forall F, top c F = None -> top c' F = None) by (intros F HF; simpl; unfold fupd; by case_decide).
      destruct (decide (r ∈ stk A)) as [Hi|Hi]; [|rewrite (H1 Hi); by eapply expects_mono]. destruct (decide (caller X = Some A)) as [HcA|HcA].
      * right. rewrite (H2 Hi). simpl. rewrite HcA, not_me_eq. split; [done|]. intros F ->. destruct Hc as [Hc|[Hc _]]; [|congruence].
        assert (F = A) as -> by congruence. by rewrite fupd_eq.
      * eapply expects_mono; [exact Hc| |done]. rewrite (H2 Hi). simpl. unfold not_me. by case_decide.
    + intros Hl. destruct (Hdet r Hl) as (_ & _ & X' & HX' & _ & Hv' & _). congruence.
  - intros B p f Hc. change (doing c B = Calling p f) in Hc. assert (HB : B <> A) by (apply HdA; by rewrite Hc).
    destruct (i_calling _ _ _ I B p f Hc) as (H0 & H1 & H2 & H3). rewrite Hs' by done. split; [done|].
    split; [intros v Hv; apply detach_roles; [done|by apply H1]|]. split.
    + intros x Y Hi HY Hv. destruct (detach_tx x Y HY) as (X & HX & _ & _ & E1 & E2). apply (H2 x X Hi HX).
      destruct (decide (x ∈ stk A)) as [Hi'|Hi']; [|by rewrite <- (E1 Hi')]. rewrite (E2 Hi') in Hv. simpl in Hv. unfold not_me in Hv.
      case_decide as E; [|done]. by destruct (Hqi x _ Hi X HX E).
    + intros F HF HT. destruct (Htop F HT) as [HFA HT']. destruct (H3 F HF HT') as (Hh & u & v & Hu & Hv & Ho' & Huv). split; [done|].
      exists u, v. rewrite Hs' by done. split; [done|]. split; [done|]. split; [by apply detach_roles|].
      destruct Huv as [?|?]; [by left|right; by apply detach_inside].
  - intros x l Y q Hi HY Hs Hr. destruct (detach_tx x Y HY) as (X & HX & _ & Es & H1 & H2).
    assert (E : dest Y = dest X).
    { destruct (decide (x ∈ stk A)) as [Hi'|Hi']; [|by rewrite (H1 Hi')]. rewrite (H2 Hi'). simpl. rewrite decide_False; [done|].
      intros Hv. by destruct (Hqi x l Hi X HX Hv). }
    rewrite E. apply (i_home _ _ _ I x l X q); [done|done|congruence|exact Hr].
  - intros x Y B HY Hs Hc. destruct (detach_tx x Y HY) as (X & HX & _ & Es & H1 & H2). destruct (decide (x ∈ stk A)) as [Hi|Hi].
    + rewrite (H2 Hi) in *. simpl in *. apply not_me_Some in Hc as [Hc HB]. case_decide; [done|]. by apply (i_away _ _ _ I x X B).
    + rewrite (H1 Hi) in *. by apply (i_away _ _ _ I x X B).
  - intros r Hl. destruct (Hdet r Hl) as (_ & _ & X & HX & Hs & Hv & HY). exists (detach A X). split; [done|]. split; [done|].
    simpl. rewrite Hv, not_me_eq. done.
  - intros n x Y Hi HY. destruct (detach_tx x Y HY) as (X & HX & _ & Es & _). rewrite Es. by apply (i_async _ _ _ I n x X).
  - intros B x Hm. destruct (i_making _ _ _ I B x Hm) as ([HX Hs] & H). split; [|done]. split; [|done]. destruct (detach_tx_in x _ HX) as (Y & HY & _ & _ & E & _).
    change (tx' !! x = Some (draft c B)). rewrite HY, E; [done|]. intros Hi. destruct (stack_role _ _ _ _ x (i_stack _ _ _ I A o Ho) Hi) as [(X & HX' & HsX & _)|(X & HX' & HsX & _)]; congruence.
Qed.
End detach.

(** ** What threads turn to *)

Definition is_replying (d : activity) : Prop := exists r f, d = Replying r f.

(** What a thread must be to do [d]. *)
Record fit (stk : nat -> list nat) (c : calls) (A : nat) (d : activity) : Prop := Fit {
  fi_alive : d <> Idle -> top c A <> None;
  fi_leisure : d = Waiting true \/ d = Reading true -> stk A = [] /\ (todo c (thread_todo A) = [] \/ ready c A = true);
  fi_calling p f : d = Calling p f -> home c A <> p /\ (forall v, head (stk A) = Some v -> incoming c A v) /\
    (forall t X, t ∈ items c (thread_todo A) -> tx c !! t = Some X -> server X <> None) /\
    (forall F, f = Some F -> top c F <> None -> home c F = p /\ exists u v, head (stk A) = Some u /\ head (stk F) = Some v /\
      outgoing c F v /\ (u = v \/ inside c u v))
}.

Lemma inv_set_doing stk lim c A d : inv stk lim c -> waits c A = false -> ~ is_replying (doing c A) -> ~ is_replying d ->
  fit stk c A d -> inv stk lim (set_doing A d c).
Proof.
  intros I Hw Hr0 Hr [Fa Fl Fc]. set (c' := set_doing A d c).
  assert (Hd : forall B, doing c' B = if decide (B = A) then d else doing c B) by done.
  assert (Hrep : forall B r f, doing c' B = Replying r f <-> doing c B = Replying r f).
  { intros B r f. rewrite Hd. case_decide as HB; [|done]. rewrite HB. split; intros E.
    - destruct Hr. by exists r, f.
    - destruct Hr0. by exists r, f. }
  destruct I. split; try done; intros B.
  - intros o Ho. eapply (stack_tx c); [done|by apply i_stack0].
  - intros X C HX Hs Hv Hl. setoid_rewrite Hrep. by apply (i_served0 B X C).
  - intros p. setoid_rewrite Hrep. apply i_child0.
  - intros l. setoid_rewrite Hrep. apply i_item0.
  - intros HB. rewrite Hd. case_decide as E; [rewrite E in HB; change (waits c A = true) in HB; congruence|by apply i_wait0].
  - unfold at_leisure. rewrite Hd. case_decide as E; [rewrite E; apply Fl|apply i_free0].
  - rewrite Hd. case_decide as E; [rewrite E; apply Fa|apply i_busy0].
  - intros r f. rewrite Hrep. apply i_replying0.
  - intros p f. rewrite Hd. case_decide as E; [rewrite E; apply Fc|apply i_calling0].
Qed.

(** A thread falls asleep on its process's list of waiting threads. *)
Definition sleep (A : nat) (c : calls) : calls :=
  Calls (tx c) (top c) (todo c) (fupd A true (waits c)) (ready c) (home c) (fupd A (Waiting true) (doing c)) (making c) (draft c).

Lemma inv_sleep stk lim c A : inv stk lim c -> doing c A = Reading true -> ready c A = false -> inv stk lim (sleep A c).
Proof.
  intros I Hd Hr. set (c' := sleep A c). destruct (i_free _ _ _ I A ltac:(by right)) as [Hs [Hq|Hq]]; [|congruence].
  assert (E : forall B, doing c' B = if decide (B = A) then Waiting true else doing c B) by done.
  assert (Hrep : forall B r f, doing c' B = Replying r f <-> doing c B = Replying r f).
  { intros B r f. rewrite E. case_decide as HB; [|done]. rewrite HB, Hd. done. }
  destruct I. split; try done; intros B.
  - intros o Ho. eapply (stack_tx c); [done|by apply i_stack0].
  - intros X C HX Hsy Hv Hl. setoid_rewrite Hrep. by apply (i_served0 B X C).
  - intros p. setoid_rewrite Hrep. apply i_child0.
  - intros l. setoid_rewrite Hrep. apply i_item0.
  - simpl. unfold fupd. case_decide as HB; [rewrite HB; done|apply i_wait0].
  - unfold at_leisure. rewrite E. case_decide as HB; [rewrite HB; by split; [|left]|apply i_free0].
  - rewrite E. case_decide as HB; [|apply i_busy0]. intros _. rewrite HB. apply i_busy0. by rewrite Hd.
  - intros r f. rewrite Hrep. apply i_replying0.
  - intros p f. rewrite E. case_decide as HB; [done|apply i_calling0].
Qed.

(** A thread comes up, with no call and no work. *)
Definition born (A p : nat) (c : calls) : calls :=
  Calls (tx c) (fupd A (Some None) (top c)) (todo c) (waits c) (ready c) (fupd A p (home c)) (doing c) (making c) (draft c).

Lemma inv_born stk lim c A p : inv stk lim c -> top c A = None -> items c (thread_todo A) = [] ->
  (forall B q, doing c B <> Calling q (Some A) /\ doing c B <> Replying q (Some A)) -> inv stk lim (born A p c).
Proof.
  intros I Ht Hq Hf. set (c' := born A p c). pose proof (i_dead _ _ _ I A Ht) as Hs.
  assert (Hd : doing c A = Idle) by (destruct (decide (doing c A = Idle)) as [?|H]; [done|by destruct (i_busy _ _ _ I A H)]).
  assert (Htop : forall B, B <> A -> top c' B = top c B) by (intros B HB; simpl; by rewrite fupd_ne).
  assert (Hhome : forall B, B <> A -> home c' B = home c B) by (intros B HB; simpl; by rewrite fupd_ne).
  destruct I. split; try done; intros B.
  - intros o. destruct (decide (B = A)) as [->|HB]; [simpl; rewrite fupd_eq, Hs; intros [= <-]; constructor|].
    rewrite Htop by done. intros Ho. eapply (stack_tx c); [done|by apply i_stack0].
  - destruct (decide (B = A)) as [->|HB]; [done|]. rewrite Htop by done. apply i_dead0.
  - intros t X HB Hi HX Hsy Hv. destruct (decide (B = A)) as [->|HBA]; [change (t ∈ items c (thread_todo A)) in Hi; rewrite Hq in Hi; by apply not_elem_of_nil in Hi|].
    rewrite Htop in HB by done. by apply (i_directed0 B t X).
  - intros t X HB Hi HX Hv. destruct (decide (B = A)) as [->|HBA]; [change (t ∈ items c (thread_todo A)) in Hi; rewrite Hq in Hi; by apply not_elem_of_nil in Hi|].
    rewrite Htop in HB by done. by apply (i_selected0 B t X).
  - intros HB. destruct (decide (B = A)) as [->|HBA]; [done|]. rewrite Htop by done. by apply i_busy0.
  - intros q f HB. destruct (i_replying0 B q f HB) as (X & HX & Hsy & Hv & Hn & Hc & Hl). exists X. split_and!; try done.
    destruct Hc as [Hc|[Hc HF]]; [by left|right]. split; [done|]. intros F HfF. rewrite Htop; [by apply HF|]. intros ->. subst f. by destruct (Hf B q).
  - intros q f HB. assert (HBA : B <> A) by (intros ->; change (doing c A = Calling q f) in HB; congruence).
    destruct (i_calling0 B q f HB) as (H0 & H1 & H2 & H3). rewrite Hhome by done. split_and!; try done.
    intros F HF HT. assert (HFA : F <> A) by (intros ->; subst f; by destruct (Hf B q)). rewrite Hhome by done. rewrite Htop in HT by done.
    by apply H3.
  - intros l X q Hi HX Hsy Hr. apply (i_home0 B l X q); try done. destruct l as [|C| |]; try done. simpl in *. unfold fupd in Hr.
    case_decide as HC; [|done]. rewrite HC in Hi. change (B ∈ items c (thread_todo A)) in Hi. rewrite Hq in Hi. by apply not_elem_of_nil in Hi.
  - intros X C HX Hsy Hc. rewrite Hhome; [by apply (i_away0 B X C)|]. intros ->. pose proof (i_called0 B X A HX Hsy Hc) as Hi.
    rewrite Hs in Hi. by apply not_elem_of_nil in Hi.
Qed.

(** A thread allocates a transaction; it gives it away or up. *)
Definition set_making (A : nat) (o : option nat) (d : call) (c : calls) : calls :=
  Calls (tx c) (top c) (todo c) (waits c) (ready c) (home c) (doing c) (fupd A o (making c)) (fupd A d (draft c)).

Lemma inv_set_making stk lim c A o d : inv stk lim c ->
  (forall t, o = Some t -> (tx c !! t = Some d /\ sync d = false) /\ (forall l, t ∉ items c l) /\
    forall B, making c B = Some t -> B = A) -> inv stk lim (set_making A o d c).
Proof.
  intros I Ho. destruct I. split; try done.
  - intros B p Hp. eapply (stack_tx c); [done|by apply i_stack0].
  - intros B t. simpl. unfold fupd. case_decide as HB.
    + intros E. destruct (Ho t E) as (? & ? & H). split; [done|]. split; [done|]. intros C. case_decide; [congruence|]. intros HC. rewrite HB. by apply H.
    + intros E. destruct (i_making0 B t E) as (? & ? & H). split; [done|]. split; [done|]. intros C. case_decide as HC; [|apply H].
      intros E'. destruct (Ho t E') as (_ & _ & H'). rewrite HC. symmetry. by apply H'.
Qed.
