(* ===== verification/BinderFrame.v ===== *)
(** * What the graph's operations leave alone

    The operations on nodes, references and notifications queue and dequeue
    work, wake threads and raise flags; they never touch a transaction, a
    stack, or another thread's own list.  [quiet me] is that relation between
    the states before and after, for operations that may put work on the list
    of thread [me]. *)

From Stdlib Require Import ZArith Lia.
From stdpp Require Import base option gmap sets list.
From S2P Require Import Prelude RbTree BinderNode BinderTranslate.

(** ** Computations that keep a relation *)

(** Whatever the run, the states before and after are related. *)
Definition keeps {S A} (R : S -> S -> Prop) (m : M S A) : Prop := forall s a s', m s = Some (a, s') -> R s s'.
(** The state is read only. *)
Definition reads {S A} (m : M S A) : Prop := keeps (fun s s' => s' = s) m.

Create HintDb reads.
Create HintDb keeps.

Lemma reads_ret {S A} (a : A) : reads (S := S) (ret a).
Proof. by intros s x s' [= _ ->]. Qed.
Lemma reads_deref {S A} (o : option A) : reads (S := S) (deref o).
Proof. unfold deref. destruct o; [apply reads_ret|by intros s x s']. Qed.
Lemma reads_bug_on {S} b : reads (S := S) (bug_on b).
Proof. destruct b; [by intros s x s'|apply reads_ret]. Qed.
Lemma reads_gets {S A} (f : S -> A) : reads (gets f).
Proof. by intros s x s' [= _ ->]. Qed.
Lemma reads_get {S} : reads (S := S) get.
Proof. by intros s x s' [= _ ->]. Qed.
Lemma reads_oops {S A} : reads (S := S) (A := A) oops.
Proof. by intros s x s'. Qed.
Lemma reads_bind {S A B} (m : M S A) (k : A -> M S B) : reads m -> (forall a, reads (k a)) -> reads (bind m k).
Proof. intros Hm Hk s b s' H. mrun. etrans; [by eapply Hk|by eapply Hm]. Qed.

#[export] Hint Resolve reads_ret reads_deref reads_bug_on reads_gets reads_get reads_oops reads_bind : reads.

(** Reads follow the structure of the term. *)
Ltac reading :=
  repeat first
    [ progress intros
    | match goal with |- reads (match ?x with _ => _ end) => destruct x end
    | solve [auto 2 with reads nocore]
    | apply reads_bind ].

Lemma reads_rb_find {S} (cmp : nat -> M S comparison) t : (forall x, reads (cmp x)) -> reads (rb_find cmp t).
Proof. intros H. induction t; simpl; reading; auto. Qed.
Lemma reads_rb_link {S} (cmp : nat -> M S comparison) x t : (forall x, reads (cmp x)) -> reads (rb_link cmp x t).
Proof. intros H. induction t; simpl; reading; auto. Qed.
#[export] Hint Resolve reads_rb_find reads_rb_link : reads.

(** ** The relation *)

Definition txn_of (w : binder_work) : option nat := match w with WTransaction t => Some t | _ => None end.
Definition txns (q : list binder_work) : list nat := omap txn_of q.

Definition waiting (p : nat) (s : binder) : list nat :=
  match procs s !! p with Some P => waiting_threads P | None => [] end.

Record same_thread (T T' : binder_thread) : Prop := SameThread {
  st_proc : thread_proc T' = thread_proc T;
  st_stack : transaction_stack T' = transaction_stack T;
  st_dead : thread_is_dead T' = thread_is_dead T;
  st_todo : process_todo T = true -> process_todo T' = true
}.

(** A dead thread with no transaction on its list may be freed. *)
Record quiet (me : option nat) (s s' : binder) : Prop := Quiet {
  q_thread A T : threads s !! A = Some T -> (exists T', threads s' !! A = Some T' /\ same_thread T T') \/
    (threads s' !! A = None /\ thread_is_dead T = true /\ txns (queue (thread_todo A) s) = []);
  q_none A : threads s !! A = None -> threads s' !! A = None;
  q_txns l : txns (queue l s') = txns (queue l s);
  q_lead A t : head (queue (thread_todo A) s) = Some (WTransaction t) -> head (queue (thread_todo A) s') = Some (WTransaction t);
  q_empty A : me <> Some A -> queue (thread_todo A) s = [] -> queue (thread_todo A) s' = [];
  q_waiting p : waiting p s' `sublist_of` waiting p s
}.

Lemma same_thread_refl T : same_thread T T.
Proof. done. Qed.
Lemma same_thread_trans T1 T2 T3 : same_thread T1 T2 -> same_thread T2 T3 -> same_thread T1 T3.
Proof. intros [] []. split; [congruence..|auto]. Qed.

Lemma quiet_refl me s : quiet me s s.
Proof. split; try done. intros A T HT. left. by exists T. Qed.

Lemma quiet_trans me s1 s2 s3 : quiet me s1 s2 -> quiet me s2 s3 -> quiet me s1 s3.
Proof.
  intros [A1 B1 C1 D1 E1 F1] [A2 B2 C2 D2 E2 F2]. split.
  - intros A T HT. destruct (A1 A T HT) as [(T1 & HT1 & S1)|(HN & HD & HQ)].
    + destruct (A2 A T1 HT1) as [(T2 & HT2 & S2)|(HN & HD & HQ)].
      * left. exists T2. split; [done|by eapply same_thread_trans].
      * right. split; [done|]. split; [by rewrite <- (st_dead _ _ S1)|by rewrite <- C1].
    + right. auto.
  - auto.
  - intros l. by rewrite C2.
  - auto.
  - auto.
  - intros p. eapply (transitivity (R := sublist)); [apply F2|apply F1].
Qed.

(** What may be on anybody's list may be on one's own. *)
Lemma quiet_me me s s' : quiet None s s' -> quiet me s s'.
Proof. intros []. split; try done. intros A _. by apply q_empty0. Qed.

Lemma quiet_same me s s' : threads s' = threads s -> works s' = works s -> (forall p, waiting p s' `sublist_of` waiting p s) -> quiet me s s'.
Proof.
  intros Ht Hw Hp. assert (Hq : forall l, queue l s' = queue l s) by (intros l; unfold queue; by rewrite Hw).
  split; rewrite ?Ht; try done.
  - intros A T HT. left. by exists T.
  - intros l. by rewrite Hq.
  - intros A t. by rewrite Hq.
  - intros A _. by rewrite Hq.
Qed.

Lemma quiet_put_proc me p P s : waiting_threads P `sublist_of` waiting p s -> quiet me s (set_procs (<[p := P]> (procs s)) s).
Proof.
  intros H. apply quiet_same; try done. intros q. unfold waiting at 1. simpl. rewrite lookup_insert. case_decide as E; [by rewrite <- E|done].
Qed.

Lemma quiet_put_thread me A T T' s : threads s !! A = Some T -> same_thread T T' -> quiet me s (set_threads (<[A := T']> (threads s)) s).
Proof.
  intros HT HS. split; try done; intros B; simpl; rewrite lookup_insert; case_decide as E.
  - rewrite <- E. intros T0 HT0. left. exists T'. assert (T0 = T) as -> by congruence. done.
  - intros T0 HT0. left. by exists T0.
  - rewrite <- E. congruence.
  - done.
Qed.

Lemma queue_at (l l' : worklist) q s : queue l' (set_works (<[l := q]> (works s)) s) = if decide (l' = l) then q else queue l' s.
Proof. unfold queue. simpl. rewrite lookup_insert. case_decide as E1; case_decide as E2; done || by destruct E1 || by destruct E2. Qed.

Lemma txns_app q w : txns (q ++ [w]) = txns q ++ txns [w].
Proof. unfold txns. by rewrite omap_app. Qed.

Lemma quiet_enqueue me (l : worklist) w s : txn_of w = None -> (forall A, l = thread_todo A -> me = Some A) ->
  quiet me s (set_works (<[l := queue l s ++ [w]]> (works s)) s).
Proof.
  intros Hw Hl. split; try done.
  - intros A T HT. left. by exists T.
  - intros l'. rewrite queue_at. case_decide as E; [|done]. rewrite E, txns_app. unfold txns at 2. simpl. rewrite Hw. apply app_nil_r.
  - intros A t. rewrite queue_at. case_decide as E; [|done]. rewrite <- E. by destruct (queue (thread_todo A) s).
  - intros A HA. rewrite queue_at. case_decide as E; [|done]. destruct HA. by apply Hl.
Qed.

Lemma queue_del w l s : queue l (set_works (list_del w <$> works s) s) = list_del w (queue l s).
Proof. unfold queue. simpl. rewrite lookup_fmap. by destruct (works s !! l). Qed.

Lemma txns_del w q : txn_of w = None -> txns (list_del w q) = txns q.
Proof.
  intros Hw. unfold list_del. induction q as [|x q IH]; [done|]. rewrite filter_cons. case_decide as E; simpl; [by rewrite IH|].
  rewrite IH. replace x with w by (destruct (decide (x = w)); naive_solver). by rewrite Hw.
Qed.

Lemma quiet_dequeue me w s : txn_of w = None -> quiet me s (set_works (list_del w <$> works s) s).
Proof.
  intros Hw. split; try done.
  - intros A T HT. left. by exists T.
  - intros l. rewrite queue_del. by apply txns_del.
  - intros A t. rewrite queue_del. destruct (queue (thread_todo A) s) as [|x q]; [done|]. intros [= ->]. unfold list_del.
    rewrite filter_cons, decide_True by (by intros <-). done.
  - intros A _. rewrite queue_del. by intros ->.
Qed.

(** ** Structure *)

#[export] Instance quiet_preorder me : PreOrder (quiet me).
Proof. split; [intros s; apply quiet_refl|intros s1 s2 s3; apply quiet_trans]. Qed.

Lemma keeps_reads {S A} (R : S -> S -> Prop) `{!PreOrder R} (m : M S A) : reads m -> keeps R m.
Proof. intros H s a s' E. by rewrite (H s a s' E). Qed.
Lemma keeps_modify {S} (R : S -> S -> Prop) f : (forall s, R s (f s)) -> keeps R (modify f).
Proof. by intros H s a s' [= _ <-]. Qed.
Lemma keeps_bind {S A B} (R : S -> S -> Prop) `{!PreOrder R} (m : M S A) (k : A -> M S B) :
  keeps R m -> (forall a, keeps R (k a)) -> keeps R (bind m k).
Proof. intros Hm Hk s b s' H. mrun. etrans; [by eapply Hm|by eapply Hk]. Qed.

Section structure.
Context (me : option nat).

(** A thread is read, and written back with another field. *)
Lemma keeps_upd_thread A f : (forall T, same_thread T (f T)) -> keeps (quiet me) (let! T := thread_at A in put_thread_at A (f T)).
Proof.
  intros Hf s x s' H. unfold thread_at, put_thread_at in H. mrun. unfold deref in *. destruct (threads _ !! A) as [T|] eqn:HT; [|done].
  mrun. by eapply quiet_put_thread.
Qed.

(** So is a process; the list of waiting threads may shrink. *)
Lemma keeps_upd_proc {B} p (f : binder_proc -> binder_proc) (k : binder_proc -> M binder B) :
  (forall P, waiting_threads (f P) `sublist_of` waiting_threads P) -> (forall P, keeps (quiet me) (k P)) ->
  keeps (quiet me) (let! P := proc_at p in put_proc_at p (f P) ;! k P).
Proof.
  intros Hf Hk s x s' H. unfold proc_at, put_proc_at in H. mrun. unfold deref in *. destruct (procs _ !! p) as [P|] eqn:HP; [|done].
  mrun. eapply quiet_trans; [apply quiet_put_proc|by eapply Hk]. unfold waiting. by rewrite HP.
Qed.
Lemma keeps_upd_proc1 p f : (forall P, waiting_threads (f P) `sublist_of` waiting_threads P) ->
  keeps (quiet me) (let! P := proc_at p in put_proc_at p (f P)).
Proof.
  intros Hf s x s' H. unfold proc_at, put_proc_at in H. mrun. unfold deref in *. destruct (procs _ !! p) as [P|] eqn:HP; [|done].
  mrun. apply quiet_put_proc. unfold waiting. by rewrite HP.
Qed.
Lemma keeps_thread_of_list {A} l (k : nat -> M binder A) : (forall t, l = thread_todo t -> keeps (quiet me) (k t)) ->
  keeps (quiet me) (let! t := thread_of_list l in k t).
Proof. intros Hk s a s' H. destruct l as [p|t|n|p]; unfold thread_of_list in H; mrun. by eapply Hk. Qed.
End structure.


Ltac quieting :=
  repeat first
    [ progress intros
    | match goal with |- keeps _ (match ?x with _ => _ end) => destruct x end
    | solve [auto 2 with keeps nocore]
    | solve [apply keeps_reads; [apply _|reading]]
    | match goal with
      | |- keeps _ (bind (thread_of_list _) _) => apply keeps_thread_of_list; intros ? ->
      | |- keeps _ (bind (thread_at _) _) => apply keeps_upd_thread; intros; by split
      | |- keeps _ (bind (proc_at _) _) => first [apply keeps_upd_proc; [done|] | apply keeps_upd_proc1; done]
      end
    | match goal with |- keeps _ (bind _ _) => apply keeps_bind; [apply _|..] end ].

(** ** The graph's operations *)

Lemma reads_node_at n : reads (node_at n).
Proof. unfold node_at. reading. Qed.
Lemma reads_ref_at n : reads (ref_at n).
Proof. unfold ref_at. reading. Qed.
Lemma reads_death_at n : reads (death_at n).
Proof. unfold death_at. reading. Qed.
Lemma reads_proc_at n : reads (proc_at n).
Proof. unfold proc_at. reading. Qed.
Lemma reads_thread_at n : reads (thread_at n).
Proof. unfold thread_at. reading. Qed.
#[export] Hint Resolve reads_node_at reads_ref_at reads_death_at reads_proc_at reads_thread_at : reads.

Lemma reads_empty l : reads (binder_worklist_empty_ilocked l).
Proof. unfold binder_worklist_empty_ilocked. reading. Qed.
Lemma reads_is_waiting A : reads (is_waiting A).
Proof. unfold is_waiting. reading. Qed.
#[export] Hint Resolve reads_empty reads_is_waiting : reads.
Lemma reads_has_work A b : reads (binder_has_work_ilocked A b).
Proof. unfold binder_has_work_ilocked. reading. Qed.
Lemma reads_available A : reads (binder_available_for_proc_work_ilocked A).
Proof. unfold binder_available_for_proc_work_ilocked. reading. Qed.
Lemma reads_cmp_node_ptr z n : reads (cmp_node_ptr z n).
Proof. unfold cmp_node_ptr. reading. Qed.
Lemma reads_cmp_ref_desc z n : reads (cmp_ref_desc z n).
Proof. unfold cmp_ref_desc. reading. Qed.
Lemma reads_cmp_ref_node n r : reads (cmp_ref_node n r).
Proof. unfold cmp_ref_node. reading. Qed.
#[export] Hint Resolve reads_has_work reads_available reads_cmp_node_ptr reads_cmp_ref_desc reads_cmp_ref_node : reads.
Lemma reads_is_context_mgr n N : reads (is_context_mgr n N).
Proof. unfold is_context_mgr. reading. Qed.
Lemma reads_thread_of_list l : reads (thread_of_list l).
Proof. unfold thread_of_list. reading. Qed.
Lemma reads_get_ref p d b : reads (binder_get_ref_olocked p d b).
Proof. unfold binder_get_ref_olocked. reading. Qed.
Lemma reads_next_desc l d : reads (next_desc l d).
Proof. revert d. induction l; simpl; reading; auto. Qed.
Lemma reads_node_debug_loop l z : reads (node_debug_loop l z).
Proof. induction l; simpl; reading; auto. Qed.
Lemma reads_find_delivered l z : reads (find_delivered l z).
Proof. induction l; simpl; reading; auto. Qed.
#[export] Hint Resolve reads_is_context_mgr reads_thread_of_list reads_get_ref reads_next_desc reads_node_debug_loop reads_find_delivered : reads.
Lemma reads_node_debug_info p z : reads (binder_ioctl_get_node_debug_info p z).
Proof. unfold binder_ioctl_get_node_debug_info. reading. Qed.
Lemma reads_read_list A b : reads (read_list A b).
Proof. unfold read_list. reading. Qed.
#[export] Hint Resolve reads_node_debug_info reads_read_list : reads.

Section quiet.
Context `{RB : Rbtree} (me : option nat).
Local Abbreviation Q := (quiet me).

Lemma keeps_put_node_at n N : keeps Q (put_node_at n N).
Proof. apply keeps_modify. intros s. by apply quiet_same. Qed.
Lemma keeps_put_ref_at n N : keeps Q (put_ref_at n N).
Proof. apply keeps_modify. intros s. by apply quiet_same. Qed.
Lemma keeps_put_death_at n N : keeps Q (put_death_at n N).
Proof. apply keeps_modify. intros s. by apply quiet_same. Qed.
Lemma keeps_warn b : keeps Q (warn_on_b b).
Proof. apply keeps_modify. intros s. destruct b; by apply quiet_same. Qed.
Lemma keeps_deleted t : keeps Q (binder_stats_deleted t).
Proof. apply keeps_modify. intros s. by apply quiet_same. Qed.
Lemma keeps_created t : keeps Q (binder_stats_created t).
Proof. apply keeps_modify. intros s. by apply quiet_same. Qed.
Lemma keeps_next_id : keeps Q next_id.
Proof. unfold next_id. intros s a s' H. mrun. by apply quiet_same. Qed.
Lemma keeps_wake_up A b : keeps Q (wake_up A b).
Proof. apply keeps_modify. intros s. by apply quiet_same. Qed.
Lemma keeps_enqueue w l : txn_of w = None -> (forall A, l = Some (thread_todo A) -> me = Some A) -> keeps Q (binder_enqueue_work_ilocked w l).
Proof.
  intros Hw Hl s a s' H. unfold binder_enqueue_work_ilocked in H. destruct l as [l|]; [|by mrun]. mrun.
  match goal with H : deref _ _ = Some _ |- _ => injection H as <- <- end.
  match goal with H : bug_on _ _ = Some _ |- _ => apply reads_bug_on in H as -> end.
  apply quiet_enqueue; [done|]. intros A ->. by apply Hl.
Qed.
Lemma keeps_dequeue w : txn_of w = None -> keeps Q (binder_dequeue_work_ilocked w).
Proof. intros Hw. apply keeps_modify. intros s. by apply quiet_dequeue. Qed.
Hint Resolve keeps_put_node_at keeps_put_ref_at keeps_put_death_at keeps_warn keeps_deleted keeps_created keeps_next_id keeps_wake_up : keeps.
Hint Extern 1 (keeps _ (binder_enqueue_work_ilocked _ _)) => apply keeps_enqueue; [done|first [done | congruence | eauto]] : keeps.
Hint Extern 1 (keeps _ (binder_dequeue_work_ilocked _)) => apply keeps_dequeue; done : keeps.
Hint Extern 1 (keeps _ (binder_dequeue_work _)) => apply keeps_dequeue; done : keeps.

Lemma keeps_deferred A w : txn_of w = None -> me = Some A -> keeps Q (binder_enqueue_deferred_thread_work_ilocked A w).
Proof. intros Hw HA. unfold binder_enqueue_deferred_thread_work_ilocked. quieting; (apply keeps_enqueue; [done|congruence]). Qed.
Lemma keeps_set_process_todo A : keeps Q (set_process_todo A).
Proof. unfold set_process_todo. quieting. Qed.
Hint Resolve keeps_set_process_todo : keeps.
Lemma keeps_thread_work A w : txn_of w = None -> me = Some A -> keeps Q (binder_enqueue_thread_work_ilocked A w).
Proof. intros Hw HA. unfold binder_enqueue_thread_work_ilocked. quieting; (apply keeps_enqueue; [done|congruence]). Qed.

Lemma keeps_select p : keeps Q (binder_select_thread_ilocked p).
Proof.
  intros s a s' H. unfold binder_select_thread_ilocked, proc_at, put_proc_at in H. mrun. unfold deref in *.
  destruct (procs _ !! p) as [P|] eqn:HP; [|done]. mrun. destruct (waiting_threads _) as [|A rest] eqn:E; mrun; [apply quiet_refl|].
  apply quiet_put_proc. unfold waiting. rewrite HP, E. simpl. by apply sublist_cons.
Qed.
Lemma keeps_wakeup_poll l b : keeps Q (wakeup_poll_loop l b).
Proof. induction l; simpl; quieting. Qed.
Hint Resolve keeps_select keeps_wakeup_poll : keeps.
Lemma keeps_wakeup_polls p b : keeps Q (binder_wakeup_poll_threads_ilocked p b).
Proof. unfold binder_wakeup_poll_threads_ilocked. quieting. Qed.
Hint Resolve keeps_wakeup_polls : keeps.
Lemma keeps_wakeup_thread p o b : keeps Q (binder_wakeup_thread_ilocked p o b).
Proof. unfold binder_wakeup_thread_ilocked. quieting. Qed.
Hint Resolve keeps_wakeup_thread : keeps.
Lemma keeps_wakeup_proc p : keeps Q (binder_wakeup_proc_ilocked p).
Proof. unfold binder_wakeup_proc_ilocked. quieting. Qed.
Hint Resolve keeps_wakeup_proc : keeps.

Lemma keeps_upd_node n f : keeps Q (upd_node n f).
Proof. unfold upd_node. quieting. Qed.
Hint Resolve keeps_upd_node : keeps.
Lemma keeps_inc_node_tmpref n : keeps Q (binder_inc_node_tmpref_ilocked n).
Proof. unfold binder_inc_node_tmpref_ilocked. quieting. Qed.
Hint Resolve keeps_inc_node_tmpref : keeps.
Lemma keeps_get_node p z : keeps Q (binder_get_node_ilocked p z).
Proof. unfold binder_get_node_ilocked. quieting. Qed.
Hint Resolve keeps_get_node : keeps.
Lemma keeps_get_node' p z : keeps Q (binder_get_node p z).
Proof. apply keeps_get_node. Qed.
Hint Resolve keeps_get_node' : keeps.

(** A process read earlier is written back: its list of waiting threads must
    not have changed meanwhile. *)
Definition still {A} (m : M binder A) : Prop := keeps (fun s s' => procs s' = procs s) m.
Definition keeps_with p P {A} (m : M binder A) : Prop :=
  forall s a s', waiting_threads P `sublist_of` waiting p s -> m s = Some (a, s') -> Q s s'.

Lemma keeps_proc_at {A} p (k : binder_proc -> M binder A) : (forall P, keeps_with p P (k P)) -> keeps Q (let! P := proc_at p in k P).
Proof.
  intros Hk s a s' H. unfold proc_at in H. mrun. unfold deref in *. destruct (procs _ !! p) as [P|] eqn:HP; [|done]. mrun.
  eapply Hk; [|exact H]. unfold waiting. by rewrite HP.
Qed.
Lemma with_still {A B} p P (m : M binder A) (k : A -> M binder B) : still m -> keeps Q m -> (forall a, keeps_with p P (k a)) ->
  keeps_with p P (bind m k).
Proof.
  intros Hs Hm Hk s b s' HP H. mrun. eapply quiet_trans; [by eapply Hm|]. eapply Hk; [|exact H]. unfold waiting in *.
  by rewrite (Hs _ _ _ ltac:(eassumption)).
Qed.
Lemma with_put {A} p P P' (k : M binder A) : waiting_threads P' = waiting_threads P -> keeps Q k -> keeps_with p P (put_proc_at p P' ;! k).
Proof. intros E Hk s a s' HP H. unfold put_proc_at in H. mrun. eapply quiet_trans; [|by eapply Hk]. apply quiet_put_proc. by rewrite E. Qed.
Lemma with_put_again {A} p P P' (k : M binder A) : waiting_threads P' = waiting_threads P -> keeps_with p P k ->
  keeps_with p P (put_proc_at p P' ;! k).
Proof.
  intros E Hk s a s' HP H. unfold put_proc_at in H. mrun. eapply quiet_trans; [apply quiet_put_proc; by rewrite E|].
  eapply Hk; [|eassumption]. unfold waiting. simpl. by rewrite lookup_insert_eq, E.
Qed.
Lemma with_any {A} p P (m : M binder A) : keeps Q m -> keeps_with p P m.
Proof. intros Hm s a s' _ H. by eapply Hm. Qed.
Lemma still_reads {A} (m : M binder A) : reads m -> still m.
Proof. intros H s a s' E. by rewrite (H s a s' E). Qed.
Lemma still_modify f : (forall s, procs (f s) = procs s) -> still (modify f).
Proof. by intros H s a s' [= _ <-]. Qed.
Lemma still_bind {A B} (m : M binder A) (k : A -> M binder B) : still m -> (forall a, still (k a)) -> still (bind m k).
Proof. intros Hm Hk s b s' H. mrun. etrans; [by eapply Hk|by eapply Hm]. Qed.

Lemma keeps_init_node p n fp : keeps Q (binder_init_node_ilocked p n fp).
Proof.
  unfold binder_init_node_ilocked. cbv zeta. apply keeps_proc_at. intros P.
  apply with_still; [apply still_reads; reading|quieting|]. intros [m|t]; [apply with_any; quieting|].
  apply with_still; [by apply still_modify|quieting|]. intros _. apply with_put; [done|quieting].
Qed.
Hint Resolve keeps_init_node : keeps.
Lemma keeps_new_node p n fp : keeps Q (binder_new_node p n fp).
Proof. unfold binder_new_node. quieting. Qed.
Lemma keeps_free_node n : keeps Q (binder_free_node n).
Proof. unfold binder_free_node. quieting. apply keeps_modify. intros s. by apply quiet_same. Qed.
Hint Resolve keeps_new_node keeps_free_node : keeps.

(** The list of a command is the thread's own. *)
Definition mine (l : option worklist) : Prop := forall A, l = Some (thread_todo A) -> me = Some A.

Lemma keeps_inc_node n b i l : mine l -> keeps Q (binder_inc_node_nilocked n b i l).
Proof.
  intros Hl. unfold binder_inc_node_nilocked. quieting; by apply keeps_deferred, Hl.
Qed.
Lemma keeps_inc_node' n b i l : mine l -> keeps Q (binder_inc_node n b i l).
Proof. apply keeps_inc_node. Qed.
Lemma mine_None : mine None.
Proof. done. Qed.
Hint Resolve keeps_inc_node keeps_inc_node' mine_None : keeps.

Lemma keeps_dec_tail n N : keeps Q (dec_node_tail n N).
Proof.
  unfold dec_node_tail. quieting. apply keeps_modify. intros s. by apply quiet_same.
Qed.
Hint Resolve keeps_dec_tail : keeps.
Lemma keeps_dec_node_n n b i : keeps Q (binder_dec_node_nilocked n b i).
Proof. unfold binder_dec_node_nilocked. cbv zeta. quieting. Qed.
Hint Resolve keeps_dec_node_n : keeps.
Lemma keeps_dec_node n b i : keeps Q (binder_dec_node n b i).
Proof. unfold binder_dec_node. quieting. Qed.
Lemma keeps_dec_node_tmpref n : keeps Q (binder_dec_node_tmpref n).
Proof. unfold binder_dec_node_tmpref. cbv zeta. quieting. Qed.
Hint Resolve keeps_dec_node keeps_dec_node_tmpref : keeps.
Lemma keeps_put_node n : keeps Q (binder_put_node n).
Proof. apply keeps_dec_node_tmpref. Qed.
Hint Resolve keeps_put_node : keeps.

Lemma keeps_insert_new_ref p n r t : keeps Q (insert_new_ref p n r t).
Proof.
  unfold insert_new_ref. apply keeps_bind; [apply _|quieting|]. intros _. apply keeps_bind; [apply _|quieting|]. intros id.
  apply keeps_proc_at. intros P. apply with_put_again; [done|]. apply with_still; [apply still_reads; reading|quieting|]. intros s.
  cbv zeta. apply with_still; [apply still_reads; reading|quieting|]. intros d. apply with_still; [by apply still_modify|quieting|]. intros _.
  apply with_still; [apply still_reads; reading|quieting|]. intros [m|t']; [by intros ? ? ? ? ?|]. apply with_put; [done|quieting].
Qed.
Hint Resolve keeps_insert_new_ref : keeps.
Lemma keeps_get_ref_for_node p n r : keeps Q (binder_get_ref_for_node_olocked p n r).
Proof. unfold binder_get_ref_for_node_olocked. quieting. Qed.
Lemma keeps_cleanup_ref r : keeps Q (binder_cleanup_ref_olocked r).
Proof. unfold binder_cleanup_ref_olocked. quieting. Qed.
Hint Resolve keeps_get_ref_for_node keeps_cleanup_ref : keeps.
Lemma keeps_inc_ref r b l : mine l -> keeps Q (binder_inc_ref_olocked r b l).
Proof. intros Hl. unfold binder_inc_ref_olocked. quieting. Qed.
Lemma keeps_dec_ref r b : keeps Q (binder_dec_ref_olocked r b).
Proof. unfold binder_dec_ref_olocked. cbv zeta. quieting. Qed.
Lemma keeps_get_node_from_ref p d b : keeps Q (binder_get_node_from_ref p d b).
Proof. unfold binder_get_node_from_ref, binder_inc_node_tmpref. quieting. Qed.
Lemma keeps_free_ref r : keeps Q (binder_free_ref r).
Proof. unfold binder_free_ref. quieting; apply keeps_modify; intros s; by apply quiet_same. Qed.
Hint Resolve keeps_inc_ref keeps_dec_ref keeps_get_node_from_ref keeps_free_ref : keeps.
Lemma keeps_update_ref p d i b : keeps Q (binder_update_ref_for_handle p d i b).
Proof. unfold binder_update_ref_for_handle. quieting. Qed.
Lemma keeps_dec_ref_handle p d b : keeps Q (binder_dec_ref_for_handle p d b).
Proof. apply keeps_update_ref. Qed.
Lemma keeps_inc_ref_locked p n b l r : mine l -> keeps Q (inc_ref_for_node_locked p n b l r).
Proof. intros Hl. unfold inc_ref_for_node_locked. quieting. Qed.
Hint Resolve keeps_update_ref keeps_dec_ref_handle keeps_inc_ref_locked : keeps.
Lemma keeps_inc_ref_for_node p n b l r : mine l -> keeps Q (binder_inc_ref_for_node p n b l r).
Proof. intros Hl. unfold binder_inc_ref_for_node. quieting. Qed.
Hint Resolve keeps_inc_ref_for_node : keeps.
Lemma keeps_bc_refs p i b z r : keeps Q (bc_refs p i b z r).
Proof. unfold bc_refs. cbv zeta. quieting. Qed.
Lemma keeps_bc_refs_done p b z c : keeps Q (bc_refs_done p b z c).
Proof. unfold bc_refs_done. quieting. Qed.
Lemma keeps_read_work_node p n f : keeps Q (read_work_node p n f).
Proof. unfold read_work_node. cbv zeta. quieting. Qed.
Lemma keeps_check_mgr_uid c u : keeps Q (check_mgr_uid c u).
Proof. unfold check_mgr_uid. quieting; apply keeps_modify; intros s; by apply quiet_same. Qed.
Hint Resolve keeps_bc_refs keeps_bc_refs_done keeps_read_work_node keeps_check_mgr_uid : keeps.
Lemma keeps_set_ctx_mgr p z u k f : keeps Q (binder_ioctl_set_ctx_mgr p z u k f).
Proof. unfold binder_ioctl_set_ctx_mgr. quieting; apply keeps_modify; intros s; by apply quiet_same. Qed.
Lemma keeps_node_info p h z : keeps Q (binder_ioctl_get_node_info_for_ref p h z).
Proof. unfold binder_ioctl_get_node_info_for_ref. quieting. Qed.
Lemma keeps_request_death p t c k : keeps Q (bc_request_death p t c k).
Proof. unfold bc_request_death. quieting. Qed.
Lemma keeps_read_work_death p d : keeps Q (read_work_death p d).
Proof. unfold read_work_death. quieting; apply keeps_modify; intros s; by apply quiet_same. Qed.
Hint Resolve keeps_set_ctx_mgr keeps_node_info keeps_request_death keeps_read_work_death : keeps.
Lemma keeps_queue_death p A d : me = Some A -> keeps Q (queue_death p A d).
Proof. intros HA. unfold queue_death. quieting. by apply keeps_thread_work. Qed.
Hint Resolve keeps_queue_death : keeps.
Lemma keeps_clear_death p A t c : me = Some A -> keeps Q (bc_clear_death p A t c).
Proof. intros HA. unfold bc_clear_death. quieting. Qed.
Lemma keeps_dead_binder_done p A c : me = Some A -> keeps Q (bc_dead_binder_done p A c).
Proof. intros HA. unfold bc_dead_binder_done. quieting. Qed.

(** Objects in transactions. *)
Lemma keeps_translate_binder A tp d kn kr fp : me = Some A -> keeps Q (binder_translate_binder A tp d kn kr fp).
Proof. intros HA. unfold binder_translate_binder. cbv zeta. quieting. apply keeps_inc_ref_for_node. intros B. congruence. Qed.
Lemma keeps_translate_handle A tp d kr fp : keeps Q (binder_translate_handle A tp d kr fp).
Proof. unfold binder_translate_handle. cbv zeta. quieting. Qed.
Lemma keeps_release_object p fp : keeps Q (release_object p fp).
Proof. unfold release_object. quieting. Qed.
Lemma keeps_refs_for_txn n : keeps Q (binder_get_node_refs_for_txn n).
Proof. unfold binder_get_node_refs_for_txn. quieting. Qed.

(** The end of a process. *)
Lemma keeps_node_release_loop l c : keeps Q (node_release_loop l c).
Proof. revert c. induction l; intros c; simpl; quieting. Qed.
Hint Resolve keeps_node_release_loop : keeps.
Lemma keeps_node_release n c : keeps Q (binder_node_release n c).
Proof. unfold binder_node_release. quieting; apply keeps_modify; intros s; by apply quiet_same. Qed.
Lemma keeps_release_mgr p : keeps Q (release_context_mgr p).
Proof. unfold release_context_mgr. quieting; apply keeps_modify; intros s; by apply quiet_same. Qed.
Lemma keeps_release_one_ref p : keeps Q (release_one_ref p).
Proof. unfold release_one_ref. quieting. Qed.
Hint Resolve keeps_release_one_ref : keeps.
Lemma keeps_release_refs fuel p c : keeps Q (release_refs fuel p c).
Proof. revert c. induction fuel; intros c; simpl; quieting. Qed.
End quiet.

#[export] Hint Resolve keeps_put_node_at keeps_put_ref_at keeps_put_death_at keeps_warn keeps_deleted keeps_created keeps_next_id keeps_wake_up
  keeps_set_process_todo keeps_select keeps_wakeup_polls keeps_wakeup_thread keeps_wakeup_proc keeps_upd_node keeps_inc_node_tmpref keeps_get_node
  keeps_get_node' keeps_init_node keeps_new_node keeps_free_node keeps_inc_node keeps_inc_node' mine_None keeps_dec_node_n keeps_dec_node
  keeps_dec_node_tmpref keeps_put_node keeps_cleanup_ref keeps_inc_ref keeps_dec_ref keeps_get_node_from_ref keeps_free_ref keeps_update_ref
  keeps_dec_ref_handle keeps_inc_ref_for_node keeps_bc_refs keeps_bc_refs_done keeps_read_work_node keeps_set_ctx_mgr keeps_node_info
  keeps_request_death keeps_read_work_death keeps_clear_death keeps_dead_binder_done keeps_translate_binder keeps_translate_handle
  keeps_release_object keeps_refs_for_txn keeps_node_release keeps_release_mgr keeps_release_refs : keeps.
#[export] Hint Extern 1 (keeps _ (binder_enqueue_work_ilocked _ _)) => apply keeps_enqueue; [done|first [done | congruence | eauto]] : keeps.
#[export] Hint Extern 1 (keeps _ (binder_dequeue_work_ilocked _)) => apply keeps_dequeue; done : keeps.
#[export] Hint Extern 1 (keeps _ (binder_dequeue_work _)) => apply keeps_dequeue; done : keeps.
#[export] Hint Extern 1 (keeps _ (binder_enqueue_thread_work _ _)) => apply keeps_thread_work; done : keeps.
#[export] Hint Extern 1 (keeps _ (binder_enqueue_deferred_thread_work_ilocked _ _)) => apply keeps_deferred; done : keeps.
