(* ===== verification/BinderFrameAlloc.v ===== *)
(** * What calls leave alone in an allocator

    Pages come and go and bytes are copied without a change to any buffer
    structure ([same_store]); buffers are freed and merged without a change
    to those that carry a transaction ([al_kept]).  Building, applying and
    releasing the objects of a transaction keeps both, and is [quiet] in the
    object graph. *)

From Stdlib Require Import ZArith Lia.
From stdpp Require Import base option gmap sets list.
From S2P Require Import Prelude RbTree BinderAlloc BinderNode BinderTranslate BinderObjects BinderFrame.

Definition same_store (s s' : binder_alloc) : Prop := store s' = store s.

#[export] Instance same_store_preorder : PreOrder same_store.
Proof. split; [done|]. intros x y z H1 H2. unfold same_store in *. congruence. Qed.

(** Like [quieting], for any relation. *)
Ltac keeping :=
  repeat first
    [ progress intros
    | match goal with |- keeps _ (match ?x with _ => _ end) => destruct x end
    | solve [auto 2 with keeps nocore]
    | solve [apply keeps_reads; [apply _|reading]]
    | solve [apply keeps_modify; intros; cbv beta; first [done | case_match; done]]
    | match goal with |- keeps _ (bind _ _) => apply keeps_bind; [apply _|..] end ].

Lemma reads_buf_at b : reads (buf_at b).
Proof. unfold buf_at. reading. Qed.
Lemma reads_buffer_next b : reads (binder_buffer_next b).
Proof. unfold binder_buffer_next. reading. Qed.
Lemma reads_buffer_prev b : reads (binder_buffer_prev b).
Proof. unfold binder_buffer_prev. reading. Qed.
Lemma reads_page_index z : reads (page_index z).
Proof. unfold page_index. reading. Qed.
Lemma reads_page_at i : reads (page_at i).
Proof. unfold page_at. reading. Qed.
#[export] Hint Resolve reads_buf_at reads_buffer_next reads_buffer_prev reads_page_index reads_page_at : reads.
Lemma reads_buffer_size b : reads (binder_alloc_buffer_size b).
Proof. unfold binder_alloc_buffer_size. reading. Qed.
Lemma reads_need_mm fuel a e : reads (need_mm_loop fuel a e).
Proof. revert a. induction fuel; intros a; simpl; reading; auto. Qed.
Lemma reads_kmap i : reads (kmap i).
Proof. unfold kmap. reading. Qed.
Lemma reads_get_page b o : reads (binder_alloc_get_page b o).
Proof. unfold binder_alloc_get_page. cbv zeta. reading. Qed.
#[export] Hint Resolve reads_buffer_size reads_need_mm reads_kmap reads_get_page : reads.
Lemma reads_check_buffer b o n : reads (check_buffer b o n).
Proof. unfold check_buffer. reading. Qed.
Lemma reads_totals l t : reads (totals_loop l t).
Proof. revert t. induction l; intros t; simpl; reading; auto. Qed.
Lemma reads_best_fit size t o : reads (best_fit_loop size t o).
Proof. revert o. induction t; intros o; simpl; reading; auto. Qed.
#[export] Hint Resolve reads_check_buffer reads_totals reads_best_fit : reads.

(** ** Pages and bytes *)

Lemma store_warn b : keeps same_store (warn_on b).
Proof. apply keeps_modify. intros s. by destruct b. Qed.
Lemma store_update_page i pg : keeps same_store (update_page i pg).
Proof. unfold update_page. keeping. Qed.
Lemma store_mmput b : keeps same_store (mmput b).
Proof. unfold mmput. keeping. Qed.
#[export] Hint Resolve store_warn store_update_page store_mmput : keeps.
Lemma store_lru_add i : keeps same_store (compat_list_lru_add i).
Proof. unfold compat_list_lru_add. keeping. Qed.
Lemma store_lru_del i : keeps same_store (compat_list_lru_del i).
Proof. unfold compat_list_lru_del. keeping. Qed.
#[export] Hint Resolve store_lru_add store_lru_del : keeps.
Lemma store_free_range fuel a e : keeps same_store (free_range_loop fuel a e).
Proof. revert e. induction fuel; intros e; simpl; keeping. Qed.
#[export] Hint Resolve store_free_range : keeps.
Lemma store_map_pages E fuel v a e : keeps same_store (map_pages_loop E fuel v a e).
Proof. revert a. induction fuel; intros a; simpl; keeping. Qed.
Lemma store_unwind fuel a r : keeps same_store (unwind fuel a r).
Proof. unfold unwind. cbv zeta. keeping. Qed.
#[export] Hint Resolve store_map_pages store_unwind : keeps.
Lemma store_page_range E b x y : keeps same_store (binder_update_page_range E b x y).
Proof. unfold binder_update_page_range. cbv zeta. keeping. Qed.
Lemma store_write_page i o src : keeps same_store (write_page i o src).
Proof. unfold write_page. cbv zeta. keeping. Qed.
#[export] Hint Resolve store_page_range store_write_page : keeps.
Lemma store_copy_user fuel b o f a l n : keeps same_store (copy_user_loop fuel b o f a l n).
Proof. revert o f a n. induction fuel; intros o f a n; simpl; keeping. Qed.
Lemma store_copy_loop fuel d b o x y n : keeps same_store (buffer_copy_loop fuel d b o x y n).
Proof. revert o x y n. induction fuel; intros o x y n; simpl; keeping. Qed.
#[export] Hint Resolve store_copy_user store_copy_loop : keeps.
Lemma store_copy_from_user b o f l n : keeps same_store (binder_alloc_copy_user_to_buffer b o f l n).
Proof. unfold binder_alloc_copy_user_to_buffer. keeping. Qed.
Lemma store_copy d b o x n : keeps same_store (binder_alloc_do_buffer_copy d b o x n).
Proof. unfold binder_alloc_do_buffer_copy. keeping. Qed.
#[export] Hint Resolve store_copy_from_user store_copy : keeps.
Lemma store_copy_to b o x n : keeps same_store (binder_alloc_copy_to_buffer b o x n).
Proof. unfold binder_alloc_copy_to_buffer. keeping. Qed.
Lemma store_copy_from x b o n : keeps same_store (binder_alloc_copy_from_buffer x b o n).
Proof. apply store_copy. Qed.
#[export] Hint Resolve store_copy_to store_copy_from : keeps.

(** ** Buffers in use *)

(** What the driver relies on while a buffer carries a transaction. *)
Record same_link (B B' : binder_buffer) : Prop := SameLink {
  sl_free : free B' = free B;
  sl_transaction : transaction B' = transaction B;
  sl_node : target_node B' = target_node B;
  sl_async : async_transaction B' = async_transaction B;
  sl_user_free : allow_user_free B = false -> allow_user_free B' = false
}.

Definition in_use (B : binder_buffer) : Prop := free B = false /\ transaction B <> None.

(** At most buffer [x] is new; those in use are left alone, and none is given
    a transaction. *)
Record al_step (x : option nat) (s s' : binder_alloc) : Prop := AlStep {
  al_new b : is_Some (store s' !! b) -> is_Some (store s !! b) \/ x = Some b;
  al_old b B : x <> Some b -> store s !! b = Some B -> in_use B -> exists B', store s' !! b = Some B' /\ same_link B B';
  al_link b B' t : store s' !! b = Some B' -> transaction B' = Some t -> exists B, store s !! b = Some B /\ transaction B = Some t
}.
Definition al_kept : binder_alloc -> binder_alloc -> Prop := al_step None.

Lemma same_link_refl B : same_link B B.
Proof. done. Qed.
Lemma same_link_use B B' : same_link B B' -> in_use B -> in_use B'.
Proof. intros [E1 E2 _ _ _] [? ?]. unfold in_use. by rewrite E1, E2. Qed.
Lemma same_link_trans B1 B2 B3 : same_link B1 B2 -> same_link B2 B3 -> same_link B1 B3.
Proof. intros [] []. split; [congruence..|auto]. Qed.

#[export] Instance al_step_preorder x : PreOrder (al_step x).
Proof.
  split.
  - intros s. split; [by left| |intros b B t HB HT; by exists B]. intros b B _ HB _. by exists B.
  - intros s1 s2 s3 [N1 O1 L1] [N2 O2 L2]. split.
    + intros b [H|H]%N2; [by apply N1|by right].
    + intros b B Hx HB HU. destruct (O1 b B Hx HB HU) as (B1 & HB1 & K1).
      destruct (O2 b B1 Hx HB1 (same_link_use _ _ K1 HU)) as (B2 & HB2 & K2). exists B2. split; [done|by eapply same_link_trans].
    + intros b B3 t HB3 HT. destruct (L2 b B3 t HB3 HT) as (B2 & HB2 & HT2). by apply (L1 b B2).
Qed.
#[export] Instance al_kept_preorder : PreOrder al_kept := al_step_preorder None.

Lemma al_same x s s' : same_store s s' -> al_step x s s'.
Proof. unfold same_store. intros E. split; rewrite E; [by left| |intros b B t HB HT; by exists B]. intros b B _ HB _. by exists B. Qed.
Lemma al_weaken x s s' : al_kept s s' -> al_step x s s'.
Proof.
  intros [N O L]. split.
  - intros b Hb. destruct (N b Hb) as [?|?]; [by left|done].
  - intros b B _. by apply O.
  - exact L.
Qed.

Lemma keeps_store {A} x (m : M binder_alloc A) : keeps same_store m -> keeps (al_step x) m.
Proof. intros H s a s' E. by eapply al_same, H. Qed.

Lemma al_put x b B s : (forall B0, store s !! b = Some B0 -> in_use B0 -> x <> Some b -> same_link B0 B) -> (is_Some (store s !! b) \/ x = Some b) ->
  (forall t, transaction B = Some t -> exists B0, store s !! b = Some B0 /\ transaction B0 = Some t) -> al_step x s (set_store (<[b := B]> (store s)) s).
Proof.
  intros HB HS HL. split; simpl.
  - intros c. rewrite lookup_insert. case_decide as E; [intros _; by rewrite <- E|by left].
  - intros c C Hx HC HU. rewrite lookup_insert. case_decide as E; [|by exists C]. rewrite <- E in HC. exists B. split; [done|].
    apply HB; [done..|]. by rewrite E.
  - intros c C t. rewrite lookup_insert. case_decide as E; [|intros HC HT; by exists C]. subst c. intros [= <-]. apply HL.
Qed.

Section alloc.
Context `{RB : Rbtree}.

Lemma reads_rb_descend {S} (dir : nat -> M S bool) x t : (forall y, reads (dir y)) -> reads (rb_descend dir x t).
Proof. intros H. induction t; simpl; reading; auto. Qed.
Hint Extern 2 (reads (rb_descend _ _ _)) => apply reads_rb_descend; reading : reads.

Lemma store_insert_free b : keeps same_store (binder_insert_free_buffer b).
Proof. unfold binder_insert_free_buffer. keeping. Qed.
Lemma store_insert_allocated b : keeps same_store (binder_insert_allocated_buffer_locked b).
Proof. unfold binder_insert_allocated_buffer_locked. keeping. Qed.
Hint Resolve store_insert_free store_insert_allocated : keeps.

Lemma buf_at_inv b s B s' : buf_at b s = Some (B, s') -> s' = s /\ store s !! b = Some B.
Proof. unfold buf_at, deref. intros H. mrun. destruct (store _ !! b) as [C|] eqn:E; by mrun. Qed.
Lemma bug_on_inv {S} b (s : S) u s' : bug_on b s = Some (u, s') -> s' = s /\ b = false.
Proof. destruct b; [done|]. intros H. unfold bug_on in H. by mrun. Qed.

(** A change of buffers behind calls that change none. *)
Definition of_store (R : gmap nat binder_buffer -> gmap nat binder_buffer -> Prop) (s s' : binder_alloc) : Prop := R (store s) (store s').

Lemma keeps_first {A B} R (m : M binder_alloc A) (k : A -> M binder_alloc B) : keeps same_store m -> (forall a, keeps (of_store R) (k a)) ->
  keeps (of_store R) (bind m k).
Proof.
  intros Hm Hk s b s' H. mrun. unfold of_store. rewrite <- (Hm _ _ _ ltac:(eassumption)). by eapply Hk.
Qed.
Lemma keeps_last {A B} R (m : M binder_alloc A) (k : A -> M binder_alloc B) : keeps (of_store R) m -> (forall a, keeps same_store (k a)) ->
  keeps (of_store R) (bind m k).
Proof. intros Hm Hk s b s' H. mrun. unfold of_store. erewrite (Hk _ _ _ _ H). by eapply Hm. Qed.

Ltac first_ := repeat (apply keeps_first; [solve [keeping]|intros]).

Lemma delete_free_store E b : keeps (of_store (fun m m' => m' = delete b m)) (binder_delete_free_buffer E b).
Proof. unfold binder_delete_free_buffer. cbv zeta. first_. by apply keeps_modify. Qed.

Lemma al_delete b s s' : store s' = delete b (store s) -> (forall B, store s !! b = Some B -> ~ in_use B) -> al_kept s s'.
Proof.
  intros E H. split; rewrite E.
  - intros c [C HC%lookup_delete_Some]. left. destruct HC as [_ HC]. by rewrite HC.
  - intros c C _ HC HU. exists C. rewrite lookup_delete_ne; [done|]. intros ->. by destruct (H C HC).
  - intros c C t [_ HC]%lookup_delete_Some HT. by exists C.
Qed.

(** At most one buffer goes, a free one. *)
Definition merged (m m' : gmap nat binder_buffer) : Prop :=
  m' = m \/ exists n, (forall N, m !! n = Some N -> free N = true) /\ m' = delete n m.

Lemma merged_kept s s' : of_store merged s s' -> al_kept s s'.
Proof.
  intros [E|(n & HF & E)]; [by apply al_same|]. eapply al_delete; [exact E|]. intros B HB [HB' _]. by rewrite (HF B HB) in HB'.
Qed.

Lemma delete_merged E b s u s' : binder_delete_free_buffer E b s = Some (u, s') -> (forall B, store s !! b = Some B -> free B = true) ->
  of_store merged s s'.
Proof. intros H HF. right. exists b. split; [done|]. by eapply delete_free_store. Qed.

Lemma merge_next E b s u s' : (let! s := get in
   if list_is_last b (buffers s) then ret tt
   else let! next := binder_buffer_next b in
        let! nb := buf_at next in
        if free nb then
          modify (fun s => set_free (rb_erase next (free_buffers s)) s) ;!
          binder_delete_free_buffer E next
        else ret tt) s = Some (u, s') -> of_store merged s s'.
Proof.
  intros H. mrun. destruct (list_is_last _ _); [mrun; by left|]. mrun.
  match goal with H : binder_buffer_next _ _ = _ |- _ => apply reads_buffer_next in H as -> end.
  match goal with H : buf_at _ _ = _ |- _ => apply buf_at_inv in H as [-> HB] end.
  destruct (free _) eqn:HF; [|mrun; by left]. mrun. apply (delete_merged _ _ _ _ _ H). simpl. intros N HN. congruence.
Qed.

Lemma merge_prev E b s id s' : (forall B, store s !! b = Some B -> free B = true) -> (let! s := get in
    if list_is_first b (buffers s) then ret b
     else let! prev := binder_buffer_prev b in
          let! pb := buf_at prev in
          if free pb then
            binder_delete_free_buffer E b ;!
            modify (fun s => set_free (rb_erase prev (free_buffers s)) s) ;!
            ret prev
          else ret b) s = Some (id, s') -> of_store merged s s'.
Proof.
  intros HF H. mrun. destruct (list_is_first _ _); [mrun; by left|]. mrun.
  match goal with H : binder_buffer_prev _ _ = _ |- _ => apply reads_buffer_prev in H as -> end.
  match goal with H : buf_at _ _ = _ |- _ => apply buf_at_inv in H as [-> _] end.
  match type of H with context [if ?c then _ else _] => destruct c end; [|mrun; by left]. mrun.
  match goal with H : binder_delete_free_buffer _ _ _ = _ |- _ => exact (delete_merged _ _ _ _ _ H HF) end.
Qed.

(** A buffer that carries a transaction is not freed. *)
Lemma kept_free_buf E b : keeps al_kept (binder_free_buf_locked E b).
Proof.
  intros s u s' H. unfold binder_free_buf_locked in H. cbv zeta in H.
  apply bind_Some in H as (z & s1 & H1 & H). apply reads_buffer_size in H1 as ->.
  apply bind_Some in H as (B & s1 & H1 & H). apply buf_at_inv in H1 as [-> HB].
  apply bind_Some in H as (? & ? & [= <- <-] & H).
  do 2 (apply bind_Some in H as (? & ? & [-> _]%bug_on_inv & H)).
  apply bind_Some in H as (? & ? & [-> HT]%bug_on_inv & H). apply bool_decide_eq_false in HT.
  do 2 (apply bind_Some in H as (? & ? & [-> _]%bug_on_inv & H)).
  apply bind_Some in H as (? & s1 & H1 & H). assert (E1 : store s1 = store s) by (destruct (async_transaction B); by mrun). clear H1.
  apply bind_Some in H as (? & s2 & H1 & H). apply store_page_range in H1. unfold same_store in H1. rewrite E1 in H1. clear E1.
  apply bind_Some in H as (? & s3 & [= <- <-] & H). apply bind_Some in H as (? & s4 & [= <- <-] & H).
  set (s4 := set_store _ _) in H. assert (HB4 : store s4 !! b = Some (set_buf_free B)) by (simpl; by rewrite lookup_insert_eq).
  etrans; [|etrans].
  - apply (al_put None b (set_buf_free B) s); [|left; by rewrite HB|intros t Ht; by exists B]. intros B0 HB0 [_ HU]. by simplify_eq.
  - instantiate (1 := s4). apply al_same. unfold same_store, s4. simpl. by rewrite H1.
  - rewrite <- bind_assoc in H. apply bind_Some in H as (? & s5 & H5%merge_next & H). rewrite <- bind_assoc in H.
    apply bind_Some in H as (id & s6 & H6 & H7%store_insert_free). etrans; [by apply merged_kept|]. etrans; [|by apply al_same].
    apply merged_kept. eapply merge_prev; [|exact H6]. intros B5 HB5. destruct H5 as [E5|(n & HF & E5)].
    + rewrite E5, HB4 in HB5. by injection HB5 as <-.
    + rewrite E5 in HB5. apply lookup_delete_Some in HB5 as [_ HB5]. rewrite HB4 in HB5. by injection HB5 as <-.
Qed.
Lemma kept_free_buf' E b : keeps al_kept (binder_alloc_free_buf E b).
Proof. apply kept_free_buf. Qed.

(** BC_FREE_BUFFER finds a buffer the receiver may free. *)
Lemma prepare_loop_found a t s r s' : prepare_to_free_loop a t s = Some (r, s') -> al_kept s s' /\
  forall b, r = Found b -> exists B, store s !! b = Some B /\ free B = false /\ allow_user_free B = true.
Proof.
  revert s. induction t as [|c l IHl x rt IHr]; intros s H; simpl in H; [mrun; by split|].
  apply bind_Some in H as (B & s1 & [-> HB]%buf_at_inv & H). apply bind_Some in H as (? & ? & [-> HF]%bug_on_inv & H).
  destruct (_ <? _); [by apply IHl|]. destruct (_ <? _); [by apply IHr|]. destruct (allow_user_free B) eqn:HA; simpl in H; mrun; [|by split].
  split; [|intros b [= <-]; by exists B]. unfold update_buf in *. mrun. apply al_put; [|left; by rewrite HB|intros t Ht; by exists B].
  intros B0 HB0 _ _. assert (B0 = B) as -> by congruence. done.
Qed.
Lemma prepare_found a s r s' : binder_alloc_prepare_to_free a s = Some (r, s') -> al_kept s s' /\
  forall b, r = Found b -> exists B, store s !! b = Some B /\ free B = false /\ allow_user_free B = true.
Proof. intros H. unfold binder_alloc_prepare_to_free, binder_alloc_prepare_to_free_locked in H. mrun. by eapply prepare_loop_found. Qed.

(** A new buffer comes out of a free one. *)
Lemma best_fit_found size t o s r s' : best_fit_loop size t o s = Some (r, s') ->
  (forall b, o = Some b -> exists B, store s !! b = Some B /\ free B = true) ->
  forall b, fst r = Some b -> exists B, store s !! b = Some B /\ free B = true.
Proof.
  revert o s. induction t as [|c l IHl x rt IHr]; intros o s H Ho; simpl in H; [mrun; by apply Ho|].
  apply bind_Some in H as (B & s1 & [-> HB]%buf_at_inv & H). apply bind_Some in H as (? & ? & [-> HF]%bug_on_inv & H).
  apply bind_Some in H as (bs & s1 & H1 & H). apply reads_buffer_size in H1 as ->. apply negb_false_iff in HF.
  destruct (_ <? _); [|destruct (_ <? _)].
  - eapply IHl; [exact H|]. intros b [= <-]. by exists B.
  - by eapply IHr.
  - injection H as <- <-. intros b [= <-]. by exists B.
Qed.

Lemma split_step id new_struct bsize size s r s' : split_buffer id new_struct bsize size s = Some (r, s') ->
  (forall B, store s !! id = Some B -> free B = true) ->
  al_step new_struct s s' /\ forall B, store s' !! id = Some B -> free B = true.
Proof.
  unfold split_buffer. intros H HF. apply bind_Some in H as (B & s1 & [-> HB]%buf_at_inv & H).
  destruct (bsize =? size); [by mrun|]. destruct new_struct as [n|]; [|by mrun]. mrun.
  match goal with H : binder_insert_free_buffer _ _ = _ |- _ => apply store_insert_free in H; unfold same_store in H; simpl in H; rename H into E end.
  match goal with H : update_buf _ _ _ = _ |- _ => unfold update_buf in H; mrun end. simpl in E. split.
  - etrans; [apply (al_put (Some n) n (Buffer true false false 0 None None 0 0 0 (u64 (user_data B + size))))|apply al_same; exact E];
      [by intros|by right|by intros t [=]].
  - intros B'. rewrite E, lookup_insert. case_decide; [by intros [= <-]|apply HF].
Qed.

Lemma take_step id x y z size a s r s' : take_buffer id x y z size a s = Some (r, s') -> (forall B, store s !! id = Some B -> free B = true) ->
  al_kept s s' /\ r = inl id /\ exists B, store s' !! id = Some B /\ free B = false /\ allow_user_free B = false /\ async_transaction B = a.
Proof.
  unfold take_buffer. intros H HF. apply bind_Some in H as (? & s1 & [= <- <-] & H).
  apply bind_Some in H as (B & s1 & [-> HB]%buf_at_inv & H). simpl in HB. apply bind_Some in H as (? & s2 & [= <- <-] & H).
  apply bind_Some in H as (? & s3 & H1%store_insert_allocated & H). apply bind_Some in H as (? & s4 & [= <- <-] & H).
  apply bind_Some in H as (? & s5 & H2 & H). mrun. unfold same_store in H1. simpl in H1.
  assert (E : store s' = <[id := Buffer false false a (debug_id B) (transaction B) (target_node B) x y z (user_data B)]> (store s)).
  { assert (E0 : store s' = <[id := Buffer false false a (debug_id B) (transaction B) (target_node B) x y z (user_data B)]> (store s3))
      by (destruct a; by mrun). by rewrite E0, H1, insert_insert_eq. }
  split; [|split; [done|eexists; rewrite E, lookup_insert_eq; done]].
  etrans; [apply (al_put None id (Buffer false false a (debug_id B) (transaction B) (target_node B) x y z (user_data B)) s)|by apply al_same].
  - intros B0 HB0 [HF0 _]. by rewrite (HF B0 HB0) in HF0.
  - left. by rewrite HB.
  - intros t Ht. by exists B.
Qed.

Lemma new_buf_step E new_struct x y z a s r s' : binder_alloc_new_buf E new_struct x y z a s = Some (r, s') ->
  al_step new_struct s s' /\ forall b, r = inl b -> (forall B, store s !! b = Some B -> ~ in_use B) /\
    exists B, store s' !! b = Some B /\ free B = false /\ allow_user_free B = false /\ async_transaction B = a.
Proof.
  unfold binder_alloc_new_buf, binder_alloc_new_buf_locked. cbv zeta. intros H. apply bind_Some in H as (v & s1 & [= <- <-] & H).
  case_bool_decide; [by mrun|]. destruct (request_size x y z) as [size|]; [|by mrun]. apply bind_Some in H as (? & s1 & [= <- <-] & H).
  destruct (_ && _); [by mrun|]. apply bind_Some in H as (fit & s1 & H1 & H). pose proof (reads_best_fit _ _ _ _ _ _ H1) as ->.
  pose proof (best_fit_found _ _ _ _ _ _ H1 ltac:(done)) as Hfit. destruct (fst fit) as [id|].
  - destruct (Hfit id eq_refl) as (B & HB & HF). apply bind_Some in H as (B' & s1 & [-> HB']%buf_at_inv & H).
    apply bind_Some in H as (bs & s1 & H2%reads_buffer_size & H). subst s1. apply bind_Some in H as (? & s1 & H2%store_warn & H).
    apply bind_Some in H as (e & s2 & H3%store_page_range & H). assert (E2 : store s2 = store s) by (unfold same_store in *; congruence).
    assert (HF2 : forall C, store s2 !! id = Some C -> free C = true) by (rewrite E2; congruence).
    destruct (negb (e =? 0)); [mrun; split; [by apply al_same|done]|].
    apply bind_Some in H as (sp & s3 & [H4 HF3]%split_step & H); [|done]. destruct (negb sp).
    + apply bind_Some in H as (? & s4 & H5%store_page_range & H). mrun. split; [|done].
      etrans; [by apply al_same|]. etrans; [exact H4|]. by apply al_same.
    + apply take_step in H as (H5 & -> & B5 & HB5 & H6); [|done]. split.
      * etrans; [by apply al_same|]. etrans; [exact H4|]. by apply al_weaken.
      * intros b [= <-]. split; [|by exists B5]. intros C HC [HU _]. congruence.
  - apply bind_Some in H as (? & s1 & H2%reads_totals & H). subst s1. apply bind_Some in H as (? & s1 & H2%reads_totals & H). subst s1. by mrun.
Qed.
End alloc.

(** ** Objects *)

Lemma store_get_object b o x : keeps same_store (binder_get_object b o x).
Proof. unfold binder_get_object. cbv zeta. keeping. Qed.
#[export] Hint Resolve store_get_object : keeps.
Lemma store_validate_ptr b x i o n : keeps same_store (binder_validate_ptr b x i o n).
Proof. unfold binder_validate_ptr. cbv zeta. keeping. Qed.
Lemma store_validate_loop fuel b x o p f l m : keeps same_store (validate_fixup_loop fuel b x o p f l m).
Proof. revert l m. induction fuel; intros l m; simpl; keeping. Qed.
#[export] Hint Resolve store_validate_ptr store_validate_loop : keeps.
Lemma store_validate_fixup fuel b x o p f l m : keeps same_store (binder_validate_fixup fuel b x o p f l m).
Proof. unfold binder_validate_fixup. keeping. Qed.
#[export] Hint Resolve store_validate_fixup : keeps.
Lemma store_fixup_parent b x bp o n l m : keeps same_store (binder_fixup_parent b x bp o n l m).
Proof. unfold binder_fixup_parent. cbv zeta. keeping. Qed.
#[export] Hint Resolve store_fixup_parent : keeps.

(** The graph is quiet, and no buffer structure changes. *)
Definition txn_kept (me : option nat) (r r' : txn) : Prop := quiet me (t_graph r) (t_graph r') /\ same_store (t_alloc r) (t_alloc r').

#[export] Instance txn_kept_preorder me : PreOrder (txn_kept me).
Proof. split; [intros r; by split|]. intros x y z [Q1 S1] [Q2 S2]. split; by etrans. Qed.

Section txn.
Context `{RB : Rbtree} (me : option nat).
Local Abbreviation K := (txn_kept me).

Lemma kept_on_alloc {A} (m : M binder_alloc A) : keeps same_store m -> keeps K (on_alloc m).
Proof. intros H r a r' E. unfold on_alloc in E. destruct (m (t_alloc r)) as [[x al]|] eqn:Em; [|done]. simplify_eq. split; [apply quiet_refl|by eapply H]. Qed.
Lemma kept_on_graph {A} (m : M binder A) : keeps (quiet me) m -> keeps K (on_graph m).
Proof. intros H r a r' E. unfold on_graph in E. destruct (m (t_graph r)) as [[x g]|] eqn:Em; [|done]. simplify_eq. split; [by eapply H|done]. Qed.
Lemma kept_modify f : (forall r, t_graph (f r) = t_graph r /\ t_alloc (f r) = t_alloc r) -> keeps K (modify f).
Proof. intros H. apply keeps_modify. intros r. destruct (H r) as [E1 E2]. split; [rewrite E1; apply quiet_refl|unfold same_store; by rewrite E2]. Qed.
Hint Extern 1 (keeps _ (on_alloc _)) => apply kept_on_alloc; keeping : keeps.
Hint Extern 1 (keeps _ (on_graph _)) => apply kept_on_graph; quieting : keeps.
Hint Extern 1 (keeps _ (modify _)) => apply kept_modify; done : keeps.

Lemma kept_fput f : keeps K (fput f).
Proof. unfold fput. keeping. Qed.
Hint Resolve kept_fput : keeps.
Lemma kept_copy_in e b o x n : keeps K (copy_in e b o x n).
Proof. apply kept_on_alloc. keeping. Qed.
Lemma kept_allows_fd e b : keeps K (target_allows_fd e b).
Proof. unfold target_allows_fd. keeping. Qed.
Hint Resolve kept_copy_in kept_allows_fd : keeps.
Lemma kept_translate_fd e b fd o : keeps K (binder_translate_fd e b fd o).
Proof. unfold binder_translate_fd. keeping. Qed.
Hint Resolve kept_translate_fd : keeps.
Lemma kept_translate_fds n e b o i : keeps K (translate_fds n e b o i).
Proof. revert i. induction n; intros i; simpl; keeping. Qed.
Hint Resolve kept_translate_fds : keeps.
Lemma kept_translate_fd_array e b x y : keeps K (binder_translate_fd_array e b x y).
Proof. unfold binder_translate_fd_array. cbv zeta. keeping. Qed.
Hint Resolve kept_translate_fd_array : keeps.
Lemma kept_fd_install fd f : keeps K (fd_install fd f).
Proof. unfold fd_install. keeping. Qed.
Lemma kept_deferred_close e fd : keeps K (binder_deferred_fd_close e fd).
Proof. unfold binder_deferred_fd_close. keeping. Qed.
Hint Resolve kept_fd_install kept_deferred_close : keeps.
Lemma kept_close_stored e b o : keeps K (close_stored_fd e b o).
Proof. unfold close_stored_fd. keeping. Qed.
Hint Resolve kept_close_stored : keeps.
Lemma kept_apply_loop e b l k : keeps K (apply_loop e b l k).
Proof. revert k. induction l; intros k; simpl; cbv zeta; keeping. Qed.
Lemma kept_drop_fixups e b z l : keeps K (drop_fixups e b z l).
Proof. induction l; simpl; keeping. Qed.
Hint Resolve kept_apply_loop kept_drop_fixups : keeps.
Lemma kept_apply_fixups e b : keeps K (binder_apply_fd_fixups e b).
Proof. unfold binder_apply_fd_fixups. keeping. Qed.
Lemma kept_free_fixups_loop l : keeps K (free_fixups_loop l).
Proof. induction l; simpl; keeping. Qed.
Hint Resolve kept_free_fixups_loop : keeps.
Lemma kept_free_fixups : keeps K binder_free_txn_fixups.
Proof. unfold binder_free_txn_fixups. keeping. Qed.

Lemma kept_put_object b o x n : keeps K (put_object b o x n).
Proof. unfold put_object. keeping. Qed.
Hint Resolve kept_put_object : keeps.
(** Translating queues work for the sender. *)
Lemma kept_translate_flat e b t o x : me = Some (env_thread e) -> keeps K (translate_flat e b t o x).
Proof. intros HA. unfold translate_flat. cbv zeta. keeping. Qed.
Lemma kept_fd_object e b o x n : keeps K (translate_fd_object e b o x n).
Proof. unfold translate_fd_object. cbv zeta. keeping. Qed.
Lemma kept_fda_object e b o v x n : keeps K (translate_fda_object e b o v x n).
Proof. unfold translate_fda_object. keeping. Qed.
Lemma kept_ptr_object e b o g v w x n : keeps K (translate_ptr_object e b o g v w x n).
Proof. unfold translate_ptr_object. cbv zeta. keeping. Qed.
Hint Resolve kept_translate_flat kept_fd_object kept_fda_object kept_ptr_object : keeps.
Lemma kept_translate_round e b o g i st : me = Some (env_thread e) -> keeps K (translate_round e b o g i st).
Proof. intros HA. unfold translate_round. cbv zeta. keeping. Qed.
Hint Resolve kept_translate_round : keeps.
Lemma kept_translate_loop fuel e b o f g i st : me = Some (env_thread e) -> keeps K (translate_loop fuel e b o f g i st).
Proof. intros HA. revert i st. induction fuel; intros i st; simpl; keeping. Qed.
Hint Resolve kept_translate_loop : keeps.
Lemma kept_translate_objects e b tr x y : me = Some (env_thread e) -> keeps K (translate_objects e b tr x y).
Proof. intros HA. unfold translate_objects. cbv zeta. keeping. Qed.

Lemma kept_close_fds n e b o i : keeps K (close_fds n e b o i).
Proof. revert i. induction n; intros i; simpl; keeping. Qed.
Hint Resolve kept_close_fds : keeps.
Lemma kept_release_round e b w o i : keeps K (release_round e b w o i).
Proof. unfold release_round. cbv zeta. keeping. Qed.
Hint Resolve kept_release_round : keeps.
Lemma kept_release_loop fuel e b w o f i : keeps K (release_loop fuel e b w o f i).
Proof. revert i. induction fuel; intros i; simpl; keeping. Qed.
Hint Resolve kept_release_loop : keeps.
Lemma kept_buffer_release e b w f z : keeps K (binder_transaction_buffer_release e b w f z).
Proof. unfold binder_transaction_buffer_release. cbv zeta. keeping. Qed.
End txn.
