(* ===== verification/BinderTxnView.v ===== *)
(** * The account of calls in the driver's state

    [view] reads the account of [BinderCalls] off the state of the driver and
    what its threads are in the middle of; [good] says that the account is
    consistent and that transactions and buffers agree on which belongs to
    which.  Operations that are [hush] leave both alone. *)

From Stdlib Require Import ZArith Lia.
From stdpp Require Import base option gmap sets list.
From S2P Require Import Prelude RbTree BinderAlloc BinderNode BinderTranslate BinderObjects BinderTxn BinderCalls.
From S2P Require Import BinderFrame BinderFrameAlloc.

(** ** The account *)

Definition call_of (X : binder_transaction) : call :=
  Call (t_from X) (from_parent X) (to_thread X) (to_parent X) (to_proc X) (need_reply X).

(** The transactions, without one that is being torn down. *)
Definition live (ex : option nat) (s : driver) : gmap nat binder_transaction :=
  match ex with Some t => delete t (transactions s) | None => transactions s end.

Section view.
Context (doing : nat -> activity) (making : nat -> option nat) (drafts : nat -> call).

Definition view (ex : option nat) (s : driver) : calls :=
  let g := graph s in
  Calls (call_of <$> live ex s)
    (fun A => match threads g !! A with Some T => if thread_is_dead T then None else Some (transaction_stack T) | None => None end)
    (fun l => txn_of <$> queue l g)
    (fun A => match threads g !! A with Some T => bool_decide (A ∈ waiting (thread_proc T) g) | None => false end)
    (fun A => match threads g !! A with Some T => process_todo T | None => false end)
    (fun A => match threads g !! A with Some T => thread_proc T | None => 0%nat end)
    doing making drafts.

Lemma items_view ex s l : items (view ex s) l = txns (queue l (graph s)).
Proof. unfold items. simpl. unfold txns. induction (queue l (graph s)) as [|w q IH]; [done|]. destruct w; [exact (f_equal _ IH)|exact IH..]. Qed.

(** Each list of waiting threads is of threads of its process, each once. *)
Definition waiting_ok (g : binder) : Prop := forall p, NoDup (waiting p g) /\ forall A, A ∈ waiting p g ->
  exists T, threads g !! A = Some T /\ thread_proc T = p.

Lemma waiting_waits ex s A p : waiting_ok (graph s) -> A ∈ waiting p (graph s) -> waits (view ex s) A = true /\ home (view ex s) A = p.
Proof. intros H HA. destruct (H p) as [_ Hp]. destruct (Hp A HA) as (T & HT & E). simpl. rewrite HT, E. by case_bool_decide. Qed.

(** ** Transactions and their buffers *)

(** The transaction has not reached its receiver: it is on a list, being
    made, or in the hands of the thread at work. *)
Definition unread (hand : option nat) (s : driver) (t : nat) : Prop :=
  (exists l, t ∈ txns (queue l (graph s))) \/ (exists A, making A = Some t) \/ hand = Some t.

Definition buffer_of (s : driver) (X : binder_transaction) (b : nat) (B : binder_buffer) : Prop :=
  exists p al, t_buffer X = Some (p, b) /\ allocs s !! p = Some al /\ store al !! b = Some B.

(** [lex] is a transaction whose buffer has been told to forget it. *)
Record links (hand ex lex : option nat) (s : driver) : Prop := Links {
  l_attached t X p b al : live lex s !! t = Some X -> t_buffer X = Some (p, b) -> allocs s !! p = Some al ->
    exists B, store al !! b = Some B /\ free B = false /\ transaction B = Some t;
  l_unread t X b B : unread hand s t -> live lex s !! t = Some X -> buffer_of s X b B ->
    allow_user_free B = false /\ (need_reply X = true -> target_node B <> None) /\
    (need_reply X = false -> t_from X = None -> one_way (t_flags X) = true \/ target_node B = None /\ security_ctx X = 0);
  l_flags t X : live ex s !! t = Some X -> need_reply X = true \/ t_from X <> None -> one_way (t_flags X) = false;
  l_unique p q al al' b : allocs s !! p = Some al -> allocs s !! q = Some al' -> is_Some (store al !! b) -> is_Some (store al' !! b) -> p = q;
  l_torn t X u Y p b : lex = Some t -> transactions s !! t = Some X -> live lex s !! u = Some Y -> t_buffer X = Some (p, b) ->
    t_buffer Y = Some (p, b) -> allocs s !! p = None;
  l_from t X : live ex s !! t = Some X -> need_reply X = false -> (forall A, making A <> Some t) -> t_from X = None;
  l_owner p al b B t : allocs s !! p = Some al -> store al !! b = Some B -> transaction B = Some t ->
    exists X, transactions s !! t = Some X /\ t_buffer X = Some (p, b);
  l_dest t X : transactions s !! t = Some X -> t_buffer X <> None -> to_proc X <> None
}.

Record good (hand ex lex : option nat) (stk : nat -> list nat) (lim : option nat) (s : driver) : Prop := Good {
  g_calls : inv stk lim (view ex s);
  g_waiting : waiting_ok (graph s);
  g_links : links hand ex lex s
}.
End view.

(** ** Operations that leave it alone *)

Record same_txn (X X' : binder_transaction) : Prop := SameTxn {
  sx_call : call_of X' = call_of X;
  sx_buffer : t_buffer X' = t_buffer X;
  sx_flags : t_flags X' = t_flags X;
  sx_ctx : security_ctx X' = security_ctx X
}.

Record hush (me : option nat) (s s' : driver) : Prop := Hush {
  h_graph : quiet me (graph s) (graph s');
  h_txn t : option_Forall2 same_txn (transactions s !! t) (transactions s' !! t);
  h_alloc p al' : allocs s' !! p = Some al' -> exists al, allocs s !! p = Some al /\ al_kept al al'
}.

#[export] Instance same_txn_preorder : PreOrder same_txn.
Proof. split; [done|]. intros X Y Z [] []. split; congruence. Qed.

#[export] Instance hush_preorder me : PreOrder (hush me).
Proof.
  split.
  - intros s. split; [done|intros t; by apply reflexivity|]. intros p al H. exists al. split; [done|reflexivity].
  - intros x y z [Q1 T1 A1] [Q2 T2 A2]. split; [by etrans|intros t; etrans; [apply T1|apply T2]|].
    intros p al H. destruct (A2 p al H) as (al1 & H1 & K1). destruct (A1 p al1 H1) as (al0 & H0 & K0). exists al0. split; [done|by etrans].
Qed.

Lemma hush_graph me g s : quiet me (graph s) g -> hush me s (set_d_graph g s).
Proof. intros H. split; [done|intros t; by apply reflexivity|]. intros p al Hal. exists al. split; [done|reflexivity]. Qed.

Lemma hush_alloc me p al al' s : allocs s !! p = Some al -> al_kept al al' -> hush me s (set_allocs (<[p := al']> (allocs s)) s).
Proof.
  intros Hal HK. split; [done|intros t; by apply reflexivity|]. intros q x. simpl. rewrite lookup_insert. case_decide as E.
  - intros [= <-]. rewrite <- E. by exists al.
  - intros Hx. exists x. split; [done|reflexivity].
Qed.

Lemma hush_txn me t X X' s : transactions s !! t = Some X -> same_txn X X' -> hush me s (set_transactions (<[t := X']> (transactions s)) s).
Proof.
  intros HX HS. split; [done| |intros p al H; exists al; split; [done|reflexivity]]. intros u. simpl. rewrite lookup_insert. case_decide as E; [|by apply reflexivity].
  rewrite <- E, HX. by constructor.
Qed.

Lemma hush_in_graph {A} me (m : M binder A) : keeps (quiet me) m -> keeps (hush me) (in_graph m).
Proof. intros H s a s' E. unfold in_graph in E. destruct (m (graph s)) as [[x g]|] eqn:Em; [|done]. simplify_eq. apply hush_graph. by eapply H. Qed.
Lemma hush_in_alloc {A} me p (m : M binder_alloc A) : keeps al_kept m -> keeps (hush me) (in_alloc p m).
Proof.
  intros H s a s' E. unfold in_alloc in E. destruct (allocs s !! p) as [al|] eqn:Hal; [|done]. destruct (m al) as [[x al']|] eqn:Em; [|done].
  simplify_eq. eapply hush_alloc; [done|by eapply H].
Qed.
Lemma hush_in_txn {A} me p t (m : M txn A) : keeps (txn_kept me) m -> keeps (hush me) (in_txn p t m).
Proof.
  intros H s a s' E. unfold in_txn in E. destruct (transactions s !! t) as [X|] eqn:HX; [|done].
  destruct (allocs s !! p) as [al|] eqn:Hal; [|done]. destruct (m _) as [[x r]|] eqn:Em; [|done]. simplify_eq.
  destruct (H _ _ _ Em) as [HQ HS]. simpl in *. split; [done| |].
  - intros u. simpl. rewrite lookup_insert. case_decide as E; [|by apply reflexivity]. rewrite <- E, HX. by constructor.
  - intros q x'. simpl. rewrite lookup_insert. case_decide as E; [|intros; exists x'; split; [done|reflexivity]].
    intros [= <-]. rewrite <- E. exists al. split; [done|]. by apply al_same.
Qed.
Lemma hush_reads {A} me (m : M driver A) : reads m -> keeps (hush me) m.
Proof. apply keeps_reads, _. Qed.

(** ** They leave a good state good *)

Section good.
Context (doing : nat -> activity) (making : nat -> option nat) (drafts : nat -> call).
Local Abbreviation V := (view doing making drafts).
Local Abbreviation G := (good doing making drafts).

(** Only a thread that is neither asleep nor about to sleep queues work for
    itself. *)
Definition awake (s : driver) (me : option nat) : Prop := forall A, me = Some A -> waits (V None s) A = false /\ ~ at_leisure (V None s) A.

Lemma dead_top ex s A T : threads (graph s) !! A = Some T -> thread_is_dead T = true -> top (V ex s) A = None.
Proof. intros HT HD. simpl. by rewrite HT, HD. Qed.

Lemma live_like ex s s' : (forall t, option_Forall2 same_txn (transactions s !! t) (transactions s' !! t)) ->
  forall t, option_Forall2 same_txn (live ex s !! t) (live ex s' !! t).
Proof. intros H t. destruct ex as [x|]; [|done]. simpl. rewrite !lookup_delete. case_decide; [constructor|done]. Qed.

Lemma view_calm ex stk lim me s s' : inv stk lim (V ex s) -> quiet me (graph s) (graph s') ->
  (forall t, option_Forall2 same_txn (transactions s !! t) (transactions s' !! t)) -> awake s me -> calm (V ex s) (V ex s').
Proof.
  intros I Q Ht Hme. split; try done.
  - simpl. apply map_eq. intros t. rewrite !lookup_fmap. destruct (live_like ex s s' Ht t) as [X X' H|]; simpl; [|done]. f_equal. apply H.
  - intros A. simpl. destruct (threads (graph s) !! A) as [T|] eqn:HT; [|by rewrite (q_none _ _ _ Q A HT)].
    destruct (q_thread _ _ _ Q A T HT) as [(T' & HT' & S)|(HT' & HD & _)]; rewrite HT'; [|by rewrite HD].
    by rewrite (st_dead _ _ S), (st_stack _ _ S).
  - intros l. rewrite !items_view. apply (q_txns _ _ _ Q).
  - intros A t H. simpl in *. assert (Hh : head (queue (thread_todo A) (graph s)) = Some (WTransaction t)).
    { destruct (queue (thread_todo A) (graph s)) as [|[]]; simpl in *; try done. by injection H as ->. }
    pose proof (q_lead _ _ _ Q A t Hh) as Hh'. destruct (queue (thread_todo A) (graph s')); simpl in *; [done|]. by injection Hh' as ->.
  - intros A HA.
    assert (HA' : waits (V ex s) A = true).
    { simpl in *. destruct (threads (graph s') !! A) as [T'|] eqn:HT'; [|done]. destruct (threads (graph s) !! A) as [T|] eqn:HT.
      - destruct (q_thread _ _ _ Q A T HT) as [(T1 & HT1 & S)|(HN & _)]; [|congruence]. assert (T1 = T') as -> by congruence.
        rewrite (st_proc _ _ S) in HA. apply bool_decide_eq_true in HA. apply bool_decide_eq_true.
        eapply sublist_subseteq; [apply (q_waiting _ _ _ Q)|done].
      - by rewrite (q_none _ _ _ Q A HT) in HT'. }
    split; [done|]. simpl. intros E. assert (Hn : me <> Some A) by (intros E'; destruct (Hme A E') as [Hf _]; change (waits (V ex s) A = false) in Hf; congruence).
    rewrite (q_empty _ _ _ Q A Hn); [done|]. by destruct (queue (thread_todo A) (graph s)).
  - intros A Hl. assert (Hn : me <> Some A) by (intros E'; by destruct (Hme A E')). intros [E|E].
    + left. simpl in *. rewrite (q_empty _ _ _ Q A Hn); [done|]. by destruct (queue (thread_todo A) (graph s)).
    + right. simpl in *. destruct (threads (graph s) !! A) as [T|] eqn:HT; [|done].
      destruct (q_thread _ _ _ Q A T HT) as [(T' & HT' & S)|(_ & HD & _)].
      * rewrite HT'. by apply (st_todo _ _ S).
      * pose proof (dead_top ex s A T HT HD) as HN. destruct (i_busy _ _ _ I A); [|done]. by destruct Hl as [->| ->].
  - intros A. simpl. destruct (threads (graph s) !! A) as [T|] eqn:HT; [|left; by rewrite (q_none _ _ _ Q A HT)].
    destruct (q_thread _ _ _ Q A T HT) as [(T' & HT' & S)|(HT' & HD & HQ)]; rewrite HT'; [left; by apply S|right].
    rewrite HD. split; [done|]. rewrite items_view. done.
Qed.

Lemma waiting_quiet ex stk lim me s s' : inv stk lim (V ex s) -> quiet me (graph s) (graph s') -> waiting_ok (graph s) -> waiting_ok (graph s').
Proof.
  intros I Q W p. pose proof (q_waiting _ _ _ Q p) as Hsub. destruct (W p) as [Hnd Hth]. split; [by eapply sublist_NoDup|].
  intros A HA%(sublist_subseteq _ _ Hsub). destruct (Hth A HA) as (T & HT & Hp). destruct (q_thread _ _ _ Q A T HT) as [(T' & HT' & S)|(_ & HD & _)].
  - exists T'. split; [done|]. by rewrite (st_proc _ _ S).
  - destruct (waiting_waits doing making drafts ex s A p W HA) as [Hw _]. destruct (waits_quiet _ _ _ A I Hw) as (_ & _ & _ & Hn). by rewrite (dead_top ex s A T HT HD) in Hn.
Qed.

Lemma call_eq X X' : call_of X' = call_of X -> t_from X' = t_from X /\ from_parent X' = from_parent X /\ to_thread X' = to_thread X /\
  to_parent X' = to_parent X /\ to_proc X' = to_proc X /\ need_reply X' = need_reply X.
Proof. unfold call_of. by intros [= -> -> -> -> -> ->]. Qed.

(** Buffers in use stay. *)
Lemma links_keep hand ex lex hand' ex' lex' s s' : links making hand ex lex s ->
  (forall t X', live lex' s' !! t = Some X' -> (unread making hand' s' t -> unread making hand s t) /\
    exists X, live lex s !! t = Some X /\ need_reply X' = need_reply X /\ t_flags X' = t_flags X /\ security_ctx X' = security_ctx X /\
      (t_from X' = t_from X \/ need_reply X = true) /\ (t_buffer X' = t_buffer X \/ t_buffer X' = None)) ->
  (forall t X', live ex' s' !! t = Some X' -> exists X, live ex s !! t = Some X /\ t_flags X' = t_flags X /\
    need_reply X' = need_reply X /\ (t_from X' = t_from X \/ t_from X' = None)) ->
  (forall t X u Y p b, lex' = Some t -> transactions s' !! t = Some X -> live lex' s' !! u = Some Y -> t_buffer X = Some (p, b) ->
    t_buffer Y = Some (p, b) -> allocs s' !! p = None) ->
  (forall p al', allocs s' !! p = Some al' -> exists al, allocs s !! p = Some al /\ al_kept al al') ->
  (forall t X, transactions s !! t = Some X -> t_buffer X <> None -> exists X', transactions s' !! t = Some X' /\ t_buffer X' = t_buffer X) ->
  (forall t X', transactions s' !! t = Some X' -> t_buffer X' <> None -> to_proc X' <> None) -> links making hand' ex' lex' s'.
Proof.
  intros [La Lu Lf Lq Lt Lo Lw Ld] Ht He Hlex Ha Hw Hd.
  assert (Hatt : forall t X' p b al', live lex' s' !! t = Some X' -> t_buffer X' = Some (p, b) -> allocs s' !! p = Some al' ->
    exists X al B B', live lex s !! t = Some X /\ (need_reply X' = need_reply X /\ t_flags X' = t_flags X /\ security_ctx X' = security_ctx X /\
      (t_from X' = t_from X \/ need_reply X = true)) /\ t_buffer X = Some (p, b) /\
      allocs s !! p = Some al /\ store al !! b = Some B /\ store al' !! b = Some B' /\ free B = false /\ transaction B = Some t /\ same_link B B').
  { intros t X' p b al' HX' Hb Hal'. destruct (Ht t X' HX') as (_ & X & HX & En & Ef & Ec & Eo & Eb). destruct (Ha p al' Hal') as (al & Hal & [_ Ho _]).
    assert (HbX : t_buffer X = Some (p, b)) by (destruct Eb; congruence).
    destruct (La t X p b al HX HbX Hal) as (B & HB & HF & HT). destruct (Ho b B ltac:(done) HB) as (B' & HB' & L); [split; congruence|].
    by exists X, al, B, B'. }
  split.
  - intros t X' p b al' HX' Hb Hal'. destruct (Hatt t X' p b al' HX' Hb Hal') as (X & al & B & B' & _ & _ & _ & _ & _ & HB' & HF & HT & L).
    exists B'. split; [done|]. by rewrite (sl_free _ _ L), (sl_transaction _ _ L).
  - intros t X' b B1 Hun HX' (p & al' & Hb & Hal' & HB1).
    destruct (Hatt t X' p b al' HX' Hb Hal') as (X & al & B & B' & HX & (En & Ef & Ec & Eo) & HbX & Hal & HB & HB' & HF & HT & L).
    assert (B1 = B') as -> by congruence. destruct (Ht t X' HX') as [Hu _]. destruct (Lu t X b B (Hu Hun) HX) as (HA & HN & HR); [by exists p, al|].
    split; [by apply L|]. rewrite En, (sl_node _ _ L), Ef, Ec. split; [done|]. intros E1 E2. apply HR; [done|]. destruct Eo; congruence.
  - intros t X' HX' Hn. destruct (He t X' HX') as (X & HX & Ef & En & Eo). rewrite Ef. apply (Lf t X HX). destruct Hn as [?|Hn]; [left; congruence|right].
    destruct Eo; congruence.
  - intros p q al1 al2 b Hp Hq H1 H2. destruct (Ha p al1 Hp) as (al & Hal & [N _ _]). destruct (Ha q al2 Hq) as (al' & Hal' & [N' _ _]).
    destruct (N b H1) as [?|?]; [|done]. destruct (N' b H2) as [?|?]; [|done]. by apply (Lq p q al al' b).
  - exact Hlex.
  - intros t X' HX' Hn Hm. destruct (He t X' HX') as (X & HX & _ & En & Eo). pose proof (Lo t X HX ltac:(congruence) Hm). destruct Eo; congruence.
  - intros p al' b B' t Hal' HB' HT'. destruct (Ha p al' Hal') as (al & Hal & [_ _ Hl]). destruct (Hl b B' t HB' HT') as (B & HB & HT).
    destruct (Lw p al b B t Hal HB HT) as (X & HX & Hb). destruct (Hw t X HX) as (X' & HX' & Hb'); [by rewrite Hb|]. exists X'. by rewrite Hb'.
  - exact Hd.
Qed.

Lemma good_hush me hand ex lex stk lim s s' : G hand ex lex stk lim s -> hush me s s' -> awake s me -> G hand ex lex stk lim s'.
Proof.
  intros [I W L] [Q T A] Hme. split.
  - eapply inv_calm; [exact I|]. by eapply view_calm.
  - by eapply waiting_quiet.
  - eapply links_keep; [exact L| | | |exact A| |].
    + intros t X' HX'. split.
      * intros [[l Hl]|[?|?]]; [|by right; left|by right; right]. left. exists l. by rewrite <- (q_txns _ _ _ Q).
      * pose proof (live_like lex s s' T t) as HT. rewrite HX' in HT. inversion HT as [X Y [Ec Eb Ef Ex] EX|]; subst.
        destruct (call_eq _ _ Ec) as (Eo & _ & _ & _ & _ & En). exists X. split_and!; try done; by left.
    + intros t X' HX'. pose proof (live_like ex s s' T t) as HT. rewrite HX' in HT. inversion HT as [X Y [Ec Eb Ef _] EX|]; subst.
      destruct (call_eq _ _ Ec) as (Eo & _ & _ & _ & _ & En). exists X. split_and!; try done. by left.
    + intros t X' u Y' p b E HX' HY' Hb1 Hb2. pose proof (T t) as HT. rewrite HX' in HT. inversion HT as [X0 X1 [_ EX _ _] E0|]; subst.
      pose proof (live_like (Some t) s s' T u) as HU. rewrite HY' in HU. inversion HU as [Y0 Y1 [_ EY _ _] E1|]; subst.
      destruct (allocs s' !! p) as [al'|] eqn:Hal'; [|done]. destruct (A p al' Hal') as (al & Hal & _).
      assert (Hn : allocs s !! p = None); [|congruence]. eapply (l_torn _ _ _ _ _ L t X0 u Y0 p b); try done; congruence.
    + intros t X HX _. pose proof (T t) as HT. rewrite HX in HT. inversion HT as [X0 X1 [_ EX _ _] E0 E1|]; subst. by exists X1.
    + intros t X' HX'. pose proof (T t) as HT. rewrite HX' in HT. inversion HT as [X0 X1 [Ec EX _ _] E0 E1|]; subst.
      destruct (call_eq _ _ Ec) as (_ & _ & _ & _ & Ep & _). rewrite EX, Ep. by apply (l_dest _ _ _ _ _ L t).
Qed.

Lemma awake_hush me s s' : hush me s s' -> awake s me -> awake s' me.
Proof.
  intros [Q _ _] H A HA. destruct (H A HA) as [Hw Hl]. split; [|done]. apply not_true_iff_false. intros E. apply not_true_iff_false in Hw. apply Hw.
  simpl in *. destruct (threads (graph s') !! A) as [T'|] eqn:HT'; [|done]. destruct (threads (graph s) !! A) as [T|] eqn:HT.
  - destruct (q_thread _ _ _ Q A T HT) as [(T1 & HT1 & S)|(HN & _)]; [|congruence]. assert (T1 = T') as -> by congruence.
    rewrite (st_proc _ _ S) in E. apply bool_decide_eq_true in E. apply bool_decide_eq_true. eapply sublist_subseteq; [apply (q_waiting _ _ _ Q)|done].
  - by rewrite (q_none _ _ _ Q A HT) in HT'.
Qed.

Lemma awake_None s : awake s None.
Proof. done. Qed.
End good.
