(* ===== verification/BinderTxnHush.v ===== *)
(** * Calls of the driver that concern no transaction

    Counting and freeing threads and processes, the commands on loopers, the
    buffers and objects of a transaction: each is [hush]. *)

From Stdlib Require Import ZArith Lia.
From stdpp Require Import base option gmap sets list.
From S2P Require Import Prelude RbTree BinderAlloc BinderNode BinderTranslate BinderObjects BinderTxn BinderCalls.
From S2P Require Import BinderFrame BinderFrameAlloc BinderTxnView.

Lemma reads_in_graph {A} (m : M binder A) : reads m -> reads (in_graph m).
Proof.
  intros H s a s' E. unfold in_graph in E. destruct (m (graph s)) as [[x g]|] eqn:Em; [|done]. simplify_eq. rewrite (H _ _ _ Em). by destruct s.
Qed.
Lemma reads_in_alloc {A} p (m : M binder_alloc A) : reads m -> reads (in_alloc p m).
Proof.
  intros H s a s' E. unfold in_alloc in E. destruct (allocs s !! p) as [al|] eqn:Hal; [|done]. destruct (m al) as [[x al']|] eqn:Em; [|done].
  simplify_eq. rewrite (H _ _ _ Em). unfold set_allocs. rewrite insert_id by done. by destruct s.
Qed.
Lemma reads_txn_at t : reads (txn_at t).
Proof. unfold txn_at. reading. Qed.
#[export] Hint Extern 1 (reads (in_graph _)) => apply reads_in_graph; reading : reads.
#[export] Hint Extern 1 (reads (in_alloc _ _)) => apply reads_in_alloc; reading : reads.
#[export] Hint Resolve reads_txn_at : reads.

(** What the reads say. *)
Lemma in_graph_inv {A} (m : M binder A) s a s' : in_graph m s = Some (a, s') -> exists g, m (graph s) = Some (a, g) /\ s' = set_d_graph g s.
Proof. unfold in_graph. destruct (m (graph s)) as [[x g]|]; [|done]. intros [= <- <-]. by exists g. Qed.
Lemma in_alloc_inv {A} p (m : M binder_alloc A) s a s' : in_alloc p m s = Some (a, s') ->
  exists al al', allocs s !! p = Some al /\ m al = Some (a, al') /\ s' = set_allocs (<[p := al']> (allocs s)) s.
Proof.
  unfold in_alloc. destruct (allocs s !! p) as [al|]; [|done]. destruct (m al) as [[x al']|] eqn:E; [|done]. intros [= <- <-]. by exists al, al'.
Qed.
Lemma thread_at_inv A s T s' : thread_at A s = Some (T, s') -> s' = s /\ threads s !! A = Some T.
Proof. unfold thread_at, deref. intros H. mrun. destruct (threads _ !! A) as [X|] eqn:E; by mrun. Qed.
Lemma proc_at_inv p s P s' : proc_at p s = Some (P, s') -> s' = s /\ procs s !! p = Some P.
Proof. unfold proc_at, deref. intros H. mrun. destruct (procs _ !! p) as [X|] eqn:E; by mrun. Qed.
Lemma node_at_inv n s N s' : node_at n s = Some (N, s') -> s' = s /\ nodes s !! n = Some N.
Proof. unfold node_at, deref. intros H. mrun. destruct (nodes _ !! n) as [X|] eqn:E; by mrun. Qed.
Lemma d_thread_inv A s T s' : in_graph (thread_at A) s = Some (T, s') -> s' = s /\ threads (graph s) !! A = Some T.
Proof. intros (g & [-> HT]%thread_at_inv & ->)%in_graph_inv. split; [by destruct s|done]. Qed.
Lemma d_proc_inv p s P s' : in_graph (proc_at p) s = Some (P, s') -> s' = s /\ procs (graph s) !! p = Some P.
Proof. intros (g & [-> HP]%proc_at_inv & ->)%in_graph_inv. split; [by destruct s|done]. Qed.
Lemma d_node_inv n s N s' : in_graph (node_at n) s = Some (N, s') -> s' = s /\ nodes (graph s) !! n = Some N.
Proof. intros (g & [-> HP]%node_at_inv & ->)%in_graph_inv. split; [by destruct s|done]. Qed.
Lemma txn_at_inv t s X s' : txn_at t s = Some (X, s') -> s' = s /\ transactions s !! t = Some X.
Proof. unfold txn_at, deref. intros H. mrun. destruct (transactions _ !! t) as [Y|] eqn:E; by mrun. Qed.
Lemma d_buf_inv p b s B s' : in_alloc p (buf_at b) s = Some (B, s') -> s' = s /\ exists al, allocs s !! p = Some al /\ store al !! b = Some B.
Proof.
  intros H. pose proof (reads_in_alloc p _ (reads_buf_at b) _ _ _ H) as ->. split; [done|].
  apply in_alloc_inv in H as (al & al' & Hal & [_ HB]%buf_at_inv & _). by exists al.
Qed.
Lemma deref_inv {S A} (o : option A) (s : S) x s' : deref o s = Some (x, s') -> s' = s /\ o = Some x.
Proof. destruct o; [|done]. unfold deref. intros H. by mrun. Qed.

(** How they run. *)

Definition put_thread (A : nat) (T : binder_thread) (s : driver) : driver := set_d_graph (set_threads (<[A := T]> (threads (graph s))) (graph s)) s.
Definition put_proc (p : nat) (P : binder_proc) (s : driver) : driver := set_d_graph (set_procs (<[p := P]> (procs (graph s))) (graph s)) s.

Lemma d_thread_eq A T s : threads (graph s) !! A = Some T -> in_graph (thread_at A) s = Some (T, s).
Proof. intros H. unfold in_graph, thread_at, bind, gets, deref. simpl. unfold get. simpl. rewrite H. by destruct s. Qed.
Lemma d_proc_eq p P s : procs (graph s) !! p = Some P -> in_graph (proc_at p) s = Some (P, s).
Proof. intros H. unfold in_graph, proc_at, bind, gets, deref. simpl. unfold get. simpl. rewrite H. by destruct s. Qed.
Lemma txn_at_eq t X s : transactions s !! t = Some X -> txn_at t s = Some (X, s).
Proof. intros H. unfold txn_at, bind, get, deref. by rewrite H. Qed.
Lemma d_put_thread_eq A T s : in_graph (put_thread_at A T) s = Some (tt, put_thread A T s).
Proof. done. Qed.
Lemma upd_thread_eq A T f s : threads (graph s) !! A = Some T -> upd_thread A f s = Some (tt, put_thread A (f T) s).
Proof. intros H. unfold upd_thread, in_graph. unfold thread_at, bind, gets, deref, get. simpl. rewrite H. done. Qed.
Lemma upd_proc_eq p P f s : procs (graph s) !! p = Some P -> upd_proc p f s = Some (tt, put_proc p (f P) s).
Proof. intros H. unfold upd_proc, in_graph. unfold proc_at, bind, gets, deref, get. simpl. rewrite H. done. Qed.

(** ** Hush calls *)

Section hush.
Context `{RB : Rbtree} (me : option nat) (E : driver_env).
Local Abbreviation H := (hush me).

Hint Extern 1 (keeps _ (in_graph _)) => apply hush_in_graph; quieting : keeps.
Hint Extern 1 (keeps _ (in_alloc _ _)) => apply hush_in_alloc; keeping : keeps.

Lemma hush_upd_thread A f : (forall T, same_thread T (f T)) -> keeps H (upd_thread A f).
Proof. intros Hf. apply hush_in_graph. by apply keeps_upd_thread. Qed.
Lemma hush_upd_proc p f : (forall P, waiting_threads (f P) `sublist_of` waiting_threads P) -> keeps H (upd_proc p f).
Proof. intros Hf. apply hush_in_graph. by apply keeps_upd_proc1. Qed.
Lemma hush_upd_txn t f : (forall X, same_txn X (f X)) -> keeps H (upd_txn t f).
Proof.
  intros Hf s u s' E'. unfold upd_txn, put_txn in E'. apply bind_Some in E' as (X & s1 & [-> HX]%txn_at_inv & E'). mrun. by apply (hush_txn me t X).
Qed.
Hint Extern 1 (keeps _ (upd_thread _ _)) => apply hush_upd_thread; intros; by split : keeps.
Hint Extern 1 (keeps _ (upd_proc _ _)) => apply hush_upd_proc; done : keeps.
Hint Extern 1 (keeps _ (upd_txn _ _)) => apply hush_upd_txn; intros; by split : keeps.

Lemma hush_opt {A} (f : A -> M driver unit) o : (forall x, keeps H (f x)) -> keeps H (opt f o).
Proof. intros Hf. unfold opt. keeping. Qed.

Lemma hush_free_proc p : keeps H (binder_free_proc E p).
Proof.
  intros s u s' E'. unfold binder_free_proc in E'. apply bind_Some in E' as (? & s1 & [= <- <-] & E').
  do 2 (apply bind_Some in E' as (? & ? & [-> _]%bug_on_inv & E')).
  apply bind_Some in E' as (? & s1 & (al & al' & Hal & Ha & ->)%in_alloc_inv & E').
  apply bind_Some in E' as (? & s2 & (g & Hg & ->)%in_graph_inv & E'). mrun. simpl. split; simpl.
  - etrans; [by eapply keeps_deleted|]. apply quiet_same; try done. intros q. unfold waiting at 1. simpl. rewrite lookup_delete.
    case_decide; [by apply sublist_nil_l|done].
  - intros t. by apply reflexivity.
  - intros q aq. rewrite lookup_delete. case_decide; [done|]. rewrite lookup_insert_ne by done. intros Hq. exists aq. split; [done|reflexivity].
Qed.

Lemma hush_put_proc {A} p f (k : binder_proc -> M driver A) : (forall P, waiting_threads (f P) `sublist_of` waiting_threads P) ->
  (forall P, keeps H (k P)) -> keeps H (let! P := in_graph (proc_at p) in in_graph (put_proc_at p (f P)) ;! k P).
Proof.
  intros Hf Hk s u s' E'. apply bind_Some in E' as (P & s1 & [-> HP]%d_proc_inv & E').
  apply bind_Some in E' as (? & s1 & (g & Hg & ->)%in_graph_inv & E'). unfold put_proc_at in Hg. mrun.
  etrans; [|by eapply Hk]. apply hush_graph, quiet_put_proc. unfold waiting. by rewrite HP.
Qed.
Lemma hush_put_thread {A} B f (k : binder_thread -> M driver A) : (forall T, same_thread T (f T)) -> (forall T, keeps H (k T)) ->
  keeps H (let! T := in_graph (thread_at B) in in_graph (put_thread_at B (f T)) ;! k T).
Proof.
  intros Hf Hk s u s' E'. apply bind_Some in E' as (T & s1 & [-> HT]%d_thread_inv & E').
  apply bind_Some in E' as (? & s1 & (g & Hg & ->)%in_graph_inv & E'). unfold put_thread_at in Hg. mrun.
  etrans; [|by eapply Hk]. by eapply hush_graph, quiet_put_thread.
Qed.

Lemma hush_proc_dec p : keeps H (binder_proc_dec_tmpref E p).
Proof.
  unfold binder_proc_dec_tmpref. cbv zeta. apply (hush_put_proc p (fun P => set_proc_tmp_ref (s32 (proc_tmp_ref P - 1)) P)); [done|].
  intros P. keeping. apply hush_free_proc.
Qed.
Hint Resolve hush_proc_dec : keeps.

(** Only a dead thread is freed, with nothing left on its list. *)
Lemma hush_free_thread A T s u s' : threads (graph s) !! A = Some T -> thread_is_dead T = true -> binder_free_thread E A s = Some (u, s') -> H s s'.
Proof.
  intros HT HD E'. unfold binder_free_thread in E'. apply bind_Some in E' as (? & s1 & [= <- <-] & E').
  apply bind_Some in E' as (? & s1 & [-> HQ]%bug_on_inv & E'). apply negb_false_iff, bool_decide_eq_true in HQ.
  apply bind_Some in E' as (? & s1 & H1 & E'). assert (K1 : H s s1) by (eapply hush_in_graph; [|exact H1]; apply keeps_deleted). clear H1.
  apply bind_Some in E' as (T1 & s2 & [-> HT1]%d_thread_inv & E'). apply bind_Some in E' as (? & s2 & H2 & E').
  pose proof (hush_proc_dec _ _ _ _ H2) as K2. assert (K : H s s2) by (by etrans). clear K1 K2 H2. mrun. etrans; [exact K|].
  destruct K as [Q _ _]. apply hush_graph. split; try done; simpl.
  - intros B TB HB. rewrite lookup_delete. case_decide as EB; [|left; by exists TB]. right. split; [done|]. subst B.
    destruct (q_thread _ _ _ Q A T HT) as [(T2 & HT2 & S)|(HN & _)]; [|congruence]. assert (T2 = TB) as -> by congruence.
    rewrite (st_dead _ _ S). split; [done|]. rewrite (q_txns _ _ _ Q). by rewrite HQ.
  - intros B HB. rewrite lookup_delete. by case_decide.
Qed.

Lemma hush_thread_dec A : keeps H (binder_thread_dec_tmpref E A).
Proof.
  intros s u s' E'. unfold binder_thread_dec_tmpref in E'. cbv zeta in E'. apply bind_Some in E' as (T & s1 & [-> HT]%d_thread_inv & E').
  apply bind_Some in E' as (? & s1 & (g & Hg & ->)%in_graph_inv & E'). unfold put_thread_at in Hg. mrun.
  etrans; [eapply hush_graph, (quiet_put_thread me A T (set_life (s32 (thread_tmp_ref T - 1)) (thread_is_dead T) T)); [done|by split]|].
  destruct (thread_is_dead T) eqn:HD; simpl in E'; [|by mrun]. destruct (_ =? 0); [|by mrun].
  eapply (hush_free_thread _ (set_life (s32 (thread_tmp_ref T - 1)) true T)); [|done|exact E']. simpl. by rewrite lookup_insert_eq.
Qed.
Lemma hush_thread_inc A : keeps H (thread_inc_tmpref A).
Proof. unfold thread_inc_tmpref. keeping. Qed.
Hint Resolve hush_thread_dec hush_thread_inc : keeps.
Lemma hush_get_from t : keeps H (binder_get_txn_from t).
Proof. unfold binder_get_txn_from. keeping. Qed.
Hint Resolve hush_get_from : keeps.
Lemma hush_get_from_acq t : keeps H (binder_get_txn_from_and_acq_inner E t).
Proof. unfold binder_get_txn_from_and_acq_inner. keeping. Qed.
Lemma hush_proc_inc p : keeps H (proc_inc_tmpref p).
Proof. unfold proc_inc_tmpref. keeping. Qed.
Hint Resolve hush_get_from_acq hush_proc_inc : keeps.

Lemma hush_free_fixups t : keeps H (free_txn_fixups t).
Proof.
  intros s u s' E'. unfold free_txn_fixups in E'. destruct (transactions s !! t) as [X|] eqn:HX; [|done].
  destruct (binder_free_txn_fixups _) as [[x r]|]; [|done]. simplify_eq. split; simpl; [done| |].
  - intros v. rewrite lookup_insert. case_decide as Ev; [|by apply reflexivity]. rewrite <- Ev, HX. by constructor.
  - intros p al Hal. exists al. split; [done|reflexivity].
Qed.
Lemma hush_handle_target p h : keeps H (handle_target p h).
Proof. unfold handle_target. cbv zeta. keeping. Qed.
Lemma hush_waiting_caller fuel p o : keeps H (waiting_caller fuel p o).
Proof. revert o. induction fuel; intros o; simpl; keeping. Qed.
Lemma hush_sender_secctx o : keeps H (sender_secctx E o).
Proof. unfold sender_secctx. keeping. Qed.
Lemma hush_sender_pid o : keeps H (sender_pid o).
Proof. unfold sender_pid. keeping. Qed.
Hint Resolve hush_free_fixups hush_handle_target hush_waiting_caller hush_sender_secctx hush_sender_pid : keeps.
Lemma hush_call_target A tr : keeps H (call_target E A tr).
Proof. unfold call_target. cbv zeta. keeping. Qed.

Lemma hush_alloc_store {A} p (m : M binder_alloc A) : keeps same_store m -> keeps H (in_alloc p m).
Proof. intros Hm. apply hush_in_alloc. intros s a s' E'. by eapply al_same, Hm. Qed.
Hint Extern 2 (keeps _ (in_alloc _ _)) => apply hush_alloc_store; keeping : keeps.
Lemma hush_release_objects p b : keeps H (release_buffer_objects E p b).
Proof.
  intros s u s' E'. unfold release_buffer_objects in E'. destruct (allocs s !! p) as [al|] eqn:Hal; [|done].
  destruct (binder_transaction_buffer_release _ _ _ _ _ _) as [[x r]|] eqn:Em; [|done]. simplify_eq.
  destruct (kept_buffer_release me _ _ _ _ _ _ _ _ Em) as [HQ HS]. simpl in *. split; simpl; [done|intros t; by apply reflexivity|].
  intros q x'. rewrite lookup_insert. case_decide as Eq; [|intros; exists x'; split; [done|reflexivity]].
  intros [= <-]. rewrite <- Eq. exists al. split; [done|]. by apply al_same.
Qed.
Lemma hush_is_async t : keeps H (is_async t).
Proof. unfold is_async. keeping. Qed.

(** The sender's own work. *)
Lemma hush_post_return A cmd : me = Some A -> keeps H (post_return_error A cmd).
Proof. intros HA. unfold post_return_error. keeping. Qed.
Lemma hush_death_no_memory A : me = Some A -> keeps H (death_no_memory A).
Proof. intros HA. unfold death_no_memory. keeping. by apply hush_post_return. Qed.

(** Loopers. *)
Lemma hush_register A : keeps H (bc_register_looper A).
Proof. unfold bc_register_looper. keeping. Qed.
Lemma hush_enter A : keeps H (bc_enter_looper A).
Proof. unfold bc_enter_looper. keeping. Qed.
Lemma hush_exit A : keeps H (bc_exit_looper A).
Proof. unfold bc_exit_looper. keeping. Qed.
Lemma hush_ioctl_done A : keeps H (ioctl_done A).
Proof. unfold ioctl_done. keeping. Qed.
Lemma hush_max_threads p z : keeps H (set_max_threads p z).
Proof. unfold set_max_threads. keeping. Qed.
Lemma hush_read_retry A : keeps H (read_retry A).
Proof. unfold read_retry. keeping. Qed.
Lemma hush_read_waited A : keeps H (read_waited A).
Proof. unfold read_waited. keeping. Qed.
Lemma hush_read_done A f : keeps H (read_done A f).
Proof. unfold read_done. keeping. Qed.
Lemma hush_flush l z : keeps H (flush_loop l z).
Proof. revert z. induction l; intros z; simpl; keeping. Qed.
Hint Resolve hush_flush : keeps.
Lemma hush_read_left p : keeps H (read_left p).
Proof. unfold read_left. keeping. Qed.
Lemma hush_poll_start A : keeps H (poll_start A).
Proof. unfold poll_start. keeping. Qed.
Lemma hush_deferred_flush p : keeps H (binder_deferred_flush p).
Proof. unfold binder_deferred_flush. keeping. Qed.
End hush.
