(* ===== verification/BinderTxnOps.v ===== *)
(** * Calls that end, and calls that are queued

    The operations of the driver on transactions, each against the account of
    calls: popping a call off its caller's stack, failing one up the chain of
    callers, putting one on a list, handing one over. *)

From Stdlib Require Import ZArith Lia.
From stdpp Require Import base option gmap sets list.
From S2P Require Import Prelude RbTree BinderAlloc BinderNode BinderTranslate BinderObjects BinderTxn BinderCalls.
From S2P Require Import BinderFrame BinderFrameAlloc BinderTxnView BinderTxnHush.

(** Accounts that agree everywhere. *)
Lemma calm_eq c c' : tx c' = tx c -> (forall A, top c' A = top c A) -> (forall l, todo c' l = todo c l) ->
  (forall A, waits c' A = waits c A) -> (forall A, ready c' A = ready c A) -> (forall A, home c' A = home c A) ->
  (forall A, doing c' A = doing c A) -> (forall A, making c' A = making c A /\ draft c' A = draft c A) -> calm c c'.
Proof.
  intros Ex Et El Ew Er Eh Ed Em. split; try done.
  - intros l. unfold items. by rewrite El.
  - intros A t. by rewrite El.
  - intros A. by rewrite Ew, El.
  - intros A _. by rewrite El, Er.
  - intros A. left. apply Eh.
Qed.

Lemma allocs_same s s' : allocs s' = allocs s -> forall p al', allocs s' !! p = Some al' -> exists al, allocs s !! p = Some al /\ al_kept al al'.
Proof. intros -> p al Hal. exists al. split; [done|reflexivity]. Qed.

Section ops.
Context (doing : nat -> activity) (making : nat -> option nat) (drafts : nat -> call).
Context `{RB : Rbtree} (E : driver_env).
Local Abbreviation V := (view doing making drafts).
Local Abbreviation G := (good doing making drafts).

Lemma hush_good me {A} (m : M driver A) hand ex lex stk lim s a s' : keeps (hush me) m -> m s = Some (a, s') -> G hand ex lex stk lim s ->
  awake doing making drafts s me -> G hand ex lex stk lim s' /\ awake doing making drafts s' me.
Proof. intros Hm Hs HG Ha. pose proof (Hm _ _ _ Hs) as K. split; [by eapply good_hush|by eapply awake_hush]. Qed.
Lemma hush_good0 {A} (m : M driver A) hand ex lex stk lim s a s' : keeps (hush None) m -> m s = Some (a, s') -> G hand ex lex stk lim s ->
  G hand ex lex stk lim s'.
Proof. intros Hm Hs HG. eapply good_hush; [exact HG|by eapply Hm|apply awake_None]. Qed.

(** ** The end of a call *)

Lemma view_tx ex s t X : live ex s !! t = Some X -> tx (V ex s) !! t = Some (call_of X).
Proof. intros H. simpl. by rewrite lookup_fmap, H. Qed.
Lemma view_tx_inv ex s t Y : tx (V ex s) !! t = Some Y -> exists X, live ex s !! t = Some X /\ Y = call_of X.
Proof. simpl. rewrite lookup_fmap. destruct (live ex s !! t) as [X|]; [|done]. intros [= <-]. by exists X. Qed.

Lemma top_thread ex s A o : top (V ex s) A = Some o -> exists T, threads (graph s) !! A = Some T /\ thread_is_dead T = false /\ transaction_stack T = o.
Proof.
  simpl. destruct (threads (graph s) !! A) as [T|]; [|done]. destruct (thread_is_dead T) eqn:HD; [done|]. intros [= <-]. by exists T.
Qed.

(** A stack with something on it is of a thread that does not wait for work. *)
Lemma busy_stack stk lim c A : inv stk lim c -> stk A <> [] -> waits c A = false /\ ~ at_leisure c A.
Proof.
  intros I Hs. split.
  - apply not_true_iff_false. intros Hw. by destruct (waits_quiet _ _ _ A I Hw) as (_ & _ & ? & _).
  - intros Hl. by destruct (i_free _ _ _ I A Hl).
Qed.

Lemma live_Some t s u Y : live (Some t) s !! u = Some Y -> u <> t /\ live None s !! u = Some Y.
Proof. simpl. intros [H HY]%lookup_delete_Some. split; [by intros ->|done]. Qed.

(** A transaction leaves the account; its buffer may have forgotten it. *)
Lemma links_tear hand lex t X s : links making hand None lex s -> transactions s !! t = Some X -> lex = None \/ lex = Some t ->
  links making hand (Some t) (Some t) s.
Proof.
  intros [La Lu Lf Lq Lt Lo Lw Ld] HX Hlex.
  assert (Hl : forall u Y, live (Some t) s !! u = Some Y -> live lex s !! u = Some Y).
  { intros u Y HY. destruct Hlex as [-> | ->]; [|done]. by apply live_Some in HY as [_ ?]. }
  split.
  - intros u Y p b al HY. by apply (La u Y), Hl.
  - intros u Y b B Hu HY. by apply (Lu u Y), Hl.
  - intros u Y [_ HY]%live_Some. by apply (Lf u Y).
  - exact Lq.
  - intros v Xv u Y p b [= <-] HX' HY Hb1 Hb2. destruct Hlex as [-> | ->]; [|by apply (Lt t Xv u Y p b)].
    apply live_Some in HY as [Hu HY]. destruct (allocs s !! p) as [al|] eqn:Hal; [|done].
    destruct (La t Xv p b al HX' Hb1 Hal) as (B1 & HB1 & _ & HT1). destruct (La u Y p b al HY Hb2 Hal) as (B2 & HB2 & _ & HT2). congruence.
  - intros u Y [_ HY]%live_Some. by apply (Lo u Y).
  - exact Lw.
  - exact Ld.
Qed.

Lemma pop_good hand lex stk t A s u s' : G hand None lex stk (Some t) s -> lex = None \/ lex = Some t ->
  binder_pop_transaction_ilocked A t s = Some (u, s') ->
  G hand (Some t) (Some t) (fupd A (tail (stk A)) stk) None s' /\ awake doing making drafts s' (Some A) /\
  exists X, transactions s !! t = Some X /\ t_from X = Some A /\ transactions s' !! t = Some (set_from None X).
Proof.
  intros [I W L] Hlex H. unfold binder_pop_transaction_ilocked in H.
  apply bind_Some in H as (T & s1 & [-> HT]%d_thread_inv & H). apply bind_Some in H as (? & s1 & [-> Hst]%bug_on_inv & H).
  apply negb_false_iff, bool_decide_eq_true in Hst. apply bind_Some in H as (X & s1 & [-> HX]%txn_at_inv & H).
  apply bind_Some in H as (? & s1 & [-> Hfr]%bug_on_inv & H). apply negb_false_iff, bool_decide_eq_true in Hfr.
  apply bind_Some in H as (? & s1 & (g & Hg & ->)%in_graph_inv & H). unfold put_thread_at in Hg. unfold put_txn in H. mrun.
  pose proof (view_tx None s t X HX) as HV. destruct (lim_on_top _ _ _ I _ HV A Hfr) as (l & El & Htop & _ & _ & _ & _).
  destruct (top_thread None s A _ Htop) as (T' & HT' & HD & _). assert (T' = T) as -> by congruence. clear HT'.
  destruct (busy_stack _ _ _ A I) as [Hw Hl]; [by rewrite El|].
  split; [|split; [|exists X; split; [done|split; [done|simpl; by rewrite lookup_insert_eq]]]].
  - split.
    + eapply inv_calm; [eapply (inv_pop _ _ _ I _ HV A Hfr)|]. apply calm_eq; try done; simpl.
      * by rewrite delete_insert_eq, fmap_delete.
      * intros B. rewrite lookup_insert. unfold fupd. case_decide as EB; case_decide as EB'; try congruence. subst B. simpl. by rewrite HD.
      * intros B. rewrite lookup_insert. case_decide as EB; [|done]. subst B. by rewrite HT.
      * intros B. rewrite lookup_insert. case_decide as EB; [|done]. subst B. by rewrite HT.
      * intros B. rewrite lookup_insert. case_decide as EB; [|done]. subst B. by rewrite HT.
    + intros p. destruct (W p) as [Hnd Hp]. split; [done|]. intros B HB. destruct (Hp B HB) as (TB & HTB & Ep). simpl. rewrite lookup_insert.
      case_decide as EB; [|by exists TB]. exists (set_stack (from_parent X) T). split; [done|]. subst B. by assert (TB = T) as -> by congruence.
    + pose proof (links_tear _ _ _ _ _ L HX Hlex) as LT.
      eapply links_keep; [exact LT| | | |by apply allocs_same| |]; cbn -[delete]; rewrite ?delete_insert_eq.
      * intros u X' HX'. split; [done|]. exists X'. split_and!; try done; by left.
      * intros u X' HX'. exists X'. split_and!; try done. by left.
      * intros v Xv u Y p b [= <-]. rewrite lookup_insert_eq. intros [= <-] HY Hb1 Hb2. by apply (l_torn _ _ _ _ _ LT t X u Y p b).
      * intros u Y HY _. rewrite lookup_insert. case_decide as Eu; [|by exists Y]. subst u. eexists. split; [done|]. simpl. congruence.
      * intros u Y. rewrite lookup_insert. case_decide as Eu; [|apply (l_dest _ _ _ _ _ L)]. intros [= <-]. by apply (l_dest _ _ _ _ _ L t X).
  - intros B [= <-]. split; [|done]. simpl in *. rewrite lookup_insert_eq. by rewrite HT in Hw.
Qed.

(** A buffer that no transaction of the account has may change. *)
Lemma links_buf hand ex lex s p b al B B' : links making hand ex lex s -> allocs s !! p = Some al -> store al !! b = Some B ->
  (forall u Y, live lex s !! u = Some Y -> t_buffer Y <> Some (p, b)) ->
  (forall u, transaction B' = Some u -> transaction B = Some u \/ exists X, transactions s !! u = Some X /\ t_buffer X = Some (p, b)) ->
  links making hand ex lex (set_allocs (<[p := set_store (<[b := B']> (store al)) al]> (allocs s)) s).
Proof.
  intros [La Lu Lf Lq Lt Lo Lw Ld] Hal HB Hno Hown.
  assert (Hst : forall q al' c, <[p := set_store (<[b := B']> (store al)) al]> (allocs s) !! q = Some al' ->
    exists al0, allocs s !! q = Some al0 /\ (is_Some (store al' !! c) -> is_Some (store al0 !! c)) /\ ((q, c) <> (p, b) -> store al' !! c = store al0 !! c)).
  { intros q al' c. rewrite lookup_insert. case_decide as Eq.
    - intros [= <-]. subst q. exists al. split; [done|]. simpl. rewrite lookup_insert. case_decide as Ec; [|done]. subst c.
      split; [by rewrite HB|done].
    - intros Hq. by exists al'. }
  assert (Hat : forall u Y q c al', live lex s !! u = Some Y -> t_buffer Y = Some (q, c) ->
    <[p := set_store (<[b := B']> (store al)) al]> (allocs s) !! q = Some al' -> exists al0, allocs s !! q = Some al0 /\ store al' !! c = store al0 !! c).
  { intros u Y q c al' HY Hb Hq. destruct (Hst q al' c Hq) as (al0 & Hal0 & _ & Hs). exists al0. split; [done|]. apply Hs. intros Ec.
    apply (Hno u Y HY). congruence. }
  split; simpl.
  - intros u Y q c al' HY Hb Hq. destruct (Hat u Y q c al' HY Hb Hq) as (al0 & Hal0 & Hs). rewrite Hs. by apply (La u Y q c al0).
  - intros u Y c C Hun HY (q & al' & Hb & Hq & HC). destruct (Hat u Y q c al' HY Hb Hq) as (al0 & Hal0 & Hs).
    apply (Lu u Y c C Hun HY). exists q, al0. split_and!; try done. by rewrite <- Hs.
  - exact Lf.
  - intros q q' al1 al2 c Hq Hq' H1 H2. destruct (Hst q al1 c Hq) as (? & ? & ? & _), (Hst q' al2 c Hq') as (? & ? & ? & _).
    eapply (Lq q q'); eauto.
  - intros v X u Y q c Ev HX HY Hb1 Hb2. pose proof (Lt v X u Y q c Ev HX HY Hb1 Hb2) as Hn. rewrite lookup_insert. case_decide as Eq; [|done].
    congruence.
  - exact Lo.
  - intros q al' c C u Hq HC HT. destruct (decide (q = p)) as [->|Nq]; [|rewrite lookup_insert_ne in Hq by done; by apply (Lw q al' c C)].
    rewrite lookup_insert_eq in Hq. injection Hq as <-. simpl in HC. rewrite lookup_insert in HC. case_decide as Ec; [|by apply (Lw p al c C)].
    injection HC as <-. subst c. destruct (Hown u HT) as [HT'|?]; [by apply (Lw p al b B u)|done].
  - exact Ld.
Qed.

Lemma upd_buf_inv b f s u s' : upd_buf b f s = Some (u, s') -> exists al B, allocs s !! fst b = Some al /\ store al !! snd b = Some B /\
  s' = set_allocs (<[fst b := set_store (<[snd b := f B]> (store al)) al]> (allocs s)) s.
Proof.
  unfold upd_buf. intros (al & al' & Hal & H & ->)%in_alloc_inv. apply bind_Some in H as (B & al1 & [-> HB]%buf_at_inv & H).
  unfold update_buf in H. mrun. by exists al, B.
Qed.

(** What has left the account lets go of its buffer, and is freed. *)
Lemma forget_good hand ex stk lim t X b s u s' f : (forall B v, transaction (f B) = Some v -> transaction B = Some v) -> G hand ex (Some t) stk lim s -> transactions s !! t = Some X -> t_buffer X = Some b ->
  upd_buf b f s = Some (u, s') -> G hand ex (Some t) stk lim s' /\ graph s' = graph s /\ transactions s' = transactions s.
Proof.
  intros Hf [I W L] HX Hb (al & B & Hal & HB & ->)%upd_buf_inv. split; [|done]. split; [done|done|]. eapply links_buf; [exact L|exact Hal|exact HB| |intros v Hv; left; by apply Hf].
  intros v Y HY Hb'. destruct b as [p b]. pose proof (l_torn _ _ _ _ _ L t X v Y p b eq_refl HX HY Hb Hb'). simpl in *. congruence.
Qed.

Definition ownerless (t : nat) (s : driver) : Prop := forall p al b B, allocs s !! p = Some al -> store al !! b = Some B -> transaction B <> Some t.

Lemma forget_ownerless hand ex lex t X s u s1 : links making hand ex lex s -> transactions s !! t = Some X ->
  match to_proc X, t_buffer X with Some _, Some b => upd_buf b (set_transaction None) | _, _ => ret tt end s = Some (u, s1) -> ownerless t s1.
Proof.
  intros L HX H p al b B Hal HB HT.
  assert (Hno : t_buffer X <> Some (p, b) -> forall al0, allocs s !! p = Some al0 -> store al0 !! b = Some B -> False).
  { intros Hn al0 Hal0 HB0. destruct (l_owner _ _ _ _ _ L p al0 b B t Hal0 HB0 HT) as (X' & HX' & Hb). congruence. }
  pose proof (l_dest _ _ _ _ _ L t X HX) as Hd. destruct (to_proc X) as [q|], (t_buffer X) as [[p' b']|].
  2-4: mrun; eapply Hno; try done; intros; exfalso; by apply Hd.
  apply upd_buf_inv in H as (al' & B' & Hal' & HB' & ->). simpl in *. destruct (decide (p = p')) as [->|Np].
  - rewrite lookup_insert_eq in Hal. injection Hal as <-. simpl in HB. rewrite lookup_insert in HB. case_decide as Eb; [by simplify_eq|].
    eapply Hno; [congruence|done..].
  - rewrite lookup_insert_ne in Hal by done. eapply Hno; [congruence|done..].
Qed.

Lemma free_good hand stk lim t s u s' : G hand (Some t) (Some t) stk lim s -> binder_free_transaction t s = Some (u, s') ->
  G hand None None stk lim s' /\ quiet None (graph s) (graph s') /\ transactions s' = delete t (transactions s).
Proof.
  intros HG H. unfold binder_free_transaction in H. apply bind_Some in H as (X & s1 & [-> HX]%txn_at_inv & H).
  apply bind_Some in H as (? & s1 & H1 & H). apply bind_Some in H as (? & s2 & H2 & H). apply bind_Some in H as (? & s3 & [= <- <-] & H).
  apply in_graph_inv in H as (g & Hg & ->). pose proof (keeps_deleted None _ _ _ _ Hg) as Q3. simpl in Q3.
  pose proof (forget_ownerless _ _ _ _ _ _ _ _ (g_links _ _ _ _ _ _ _ _ _ HG) HX H1) as O1.
  assert (K1 : G hand (Some t) (Some t) stk lim s1 /\ graph s1 = graph s /\ transactions s1 = transactions s).
  { destruct (to_proc X) as [p|]; [|by mrun]. destruct (t_buffer X) as [b|] eqn:Hb; [|by mrun]. eapply forget_good; [|exact HG|exact HX|exact Hb|exact H1]. done. }
  destruct K1 as (G1 & E1 & T1).
  assert (K2 : G hand (Some t) (Some t) stk lim s2 /\ graph s2 = graph s /\ delete t (transactions s2) = delete t (transactions s) /\ allocs s2 = allocs s1).
  { split; [eapply (hush_good0 (free_txn_fixups t)); [apply hush_free_fixups|exact H2|exact G1]|]. unfold free_txn_fixups in H2.
    destruct (transactions s1 !! t); [|done]. destruct (binder_free_txn_fixups _) as [[? r]|]; [|done]. simplify_eq. simpl.
    by rewrite delete_insert_eq, T1. }
  destruct K2 as (G2 & E2 & T2 & A2). split; [|split; [simpl; by rewrite <- E2|done]].
  destruct G2 as [I2 W2 L2]. set (s3 := set_transactions _ s2).
  assert (G3 : G hand None None stk lim s3).
  { split; [done|done|]. destruct L2 as [La Lu Lf Lq Lt Lo Lw Ld]. split; [exact La|exact Lu|exact Lf|exact Lq|done|exact Lo| |].
    - intros p al b B v Hal HB HT. destruct (Lw p al b B v Hal HB HT) as (Y & HY & Hb). exists Y. split; [|done]. simpl. rewrite lookup_delete_ne; [done|].
      intros <-. simpl in Hal. rewrite A2 in Hal. by apply (O1 p al b B).
    - intros v Y HY. apply (Ld v Y). simpl in HY. by apply lookup_delete_Some in HY as [_ ?]. }
  eapply good_hush; [exact G3|apply hush_graph, Q3|apply awake_None].
Qed.

(** ** Calls that fail *)

(** A call whose caller is gone leaves the account; what it was made inside
    of is in hand then. *)
Lemma up_good hand lex stk t X s : G hand None lex stk (Some t) s -> lex = None \/ lex = Some t -> transactions s !! t = Some X -> t_from X = None ->
  G hand (Some t) (Some t) stk (from_parent X) s.
Proof.
  intros [I W L] Hlex HX Hf. split; [|done|by eapply links_tear]. pose proof (view_tx None s t X HX) as HV.
  eapply inv_calm; [eapply (inv_up _ _ _ I _ HV Hf)|]. apply calm_eq; try done. simpl. by rewrite fmap_delete.
Qed.

(** So does a transaction nobody waits for. *)
Definition loose (t : nat) (s : driver) : Prop := (forall l, t ∉ txns (queue l (graph s))) /\ forall A, making A <> Some t.

Lemma tear_good hand lex stk lim t X s : G hand None lex stk lim s -> lex = None \/ lex = Some t -> transactions s !! t = Some X ->
  need_reply X = false -> loose t s -> G hand (Some t) (Some t) stk lim s.
Proof.
  intros [I W L] Hlex HX Hn [Hq Hm]. split; [|done|by eapply links_tear]. pose proof (view_tx None s t X HX) as HV.
  assert (I' : inv stk lim (with_tx (partial_alter (fun _ => None) t (tx (V None s))) (V None s))).
  { apply inv_other; [done|intros Y HY; by simplify_eq|done|intros l; by rewrite items_view|intros A HA; by destruct (Hm A)]. }
  eapply inv_calm; [exact I'|]. apply calm_eq; try done. simpl. by rewrite fmap_delete.
Qed.

Lemma hush_post_error A z : keeps (hush (Some A)) (post_reply_error A z).
Proof.
  unfold post_reply_error. keeping; first [apply hush_upd_thread; intros; by split|apply hush_in_graph; quieting; by apply keeps_thread_work].
Qed.

Lemma get_from_inv t s o s' : binder_get_txn_from_and_acq_inner E t s = Some (o, s') ->
  exists X, transactions s !! t = Some X /\ o = t_from X /\ transactions s' = transactions s.
Proof.
  unfold binder_get_txn_from_and_acq_inner, binder_get_txn_from. intros H. apply bind_Some in H as (o1 & s1 & H1 & H).
  apply bind_Some in H1 as (X & s2 & [-> HX]%txn_at_inv & H1). exists X. split; [done|]. destruct (t_from X) as [A|] eqn:Hf; [|by mrun].
  apply bind_Some in H1 as (? & s2 & (g & _ & ->)%in_graph_inv & H1). mrun. 
  match goal with H : txn_at _ _ = _ |- _ => apply txn_at_inv in H as [-> HX'] end. simpl in HX'.
  assert (E' : x0 = X) by congruence. subst x0. rewrite Hf in H. mrun. match goal with H : bug_on _ _ = _ |- _ => apply bug_on_inv in H as [-> _] end. done.
Qed.

Lemma fail_good fuel : forall hand lex stk lim t X s u s' z, G hand None lex stk lim s -> lex = None \/ lex = Some t -> transactions s !! t = Some X ->
  (if need_reply X then lim = Some t else lim = None /\ loose t s) -> send_failed_reply_loop E fuel t z s = Some (u, s') ->
  exists stk', G hand None None stk' None s'.
Proof.
  induction fuel as [|fuel IH]; intros hand lex stk lim t X s u s' z HG Hlex HX Hl H; [done|]. simpl in H.
  apply bind_Some in H as (o & s1 & H1 & H). destruct (get_from_inv _ _ _ _ H1) as (X' & HX' & -> & ET).
  assert (X' = X) as -> by congruence. clear HX'. pose proof (hush_get_from_acq None E t _ _ _ H1) as K1.
  assert (G1 : G hand None lex stk lim s1) by (eapply good_hush; [exact HG|exact K1|apply awake_None]).
  assert (HX1 : transactions s1 !! t = Some X) by congruence. destruct (t_from X) as [A|] eqn:Hf.
  - apply bind_Some in H as (? & s2 & H2 & H). destruct (need_reply X) eqn:Hn.
    + subst lim. destruct (pop_good _ _ _ _ _ _ _ _ G1 Hlex H2) as (G2 & A2 & _). apply bind_Some in H as (? & s3 & H3 & H).
      destruct (hush_good _ _ _ _ _ _ _ _ _ _ (hush_post_error A z) H3 G2 A2) as [G3 _]. apply bind_Some in H as (? & s4 & H4 & H).
      assert (G4 : G hand (Some t) (Some t) (fupd A (tail (stk A)) stk) None s4) by (eapply hush_good0; [apply (hush_thread_dec None E A)|exact H4|exact G3]).
      destruct (free_good _ _ _ _ _ _ _ G4 H) as [G5 _]. by eexists.
    + destruct Hl as [_ [_ Hm]]. pose proof (l_from _ _ _ _ _ (g_links _ _ _ _ _ _ _ _ _ G1) t X HX1 Hn Hm). congruence.
  - apply bind_Some in H as (X1 & s2 & [-> HX2]%txn_at_inv & H). assert (X1 = X) as -> by congruence. clear HX2.
    apply bind_Some in H as (? & s2 & H2 & H). destruct (need_reply X) eqn:Hn.
    + subst lim. pose proof (up_good _ _ _ _ _ _ G1 Hlex HX1 Hf) as G2. destruct (free_good _ _ _ _ _ _ _ G2 H2) as (G3 & Q3 & T3).
      destruct (from_parent X) as [next|] eqn:Hp; [|by mrun; eexists]. 
      destruct (i_lim _ _ _ (g_calls _ _ _ _ _ _ _ _ _ G3) next eq_refl) as (Y & HY & HsY & _).
      apply view_tx_inv in HY as (XN & HXN & ->). eapply (IH _ _ _ _ next XN); [exact G3|by left|exact HXN| |exact H]. simpl in HsY. by rewrite HsY.
    + destruct Hl as [-> Hloose]. assert (Hl1 : loose t s1).
      { destruct Hloose as [Hq Hm]. split; [|done]. intros l. rewrite (q_txns _ _ _ (h_graph _ _ _ K1)). apply Hq. }
      pose proof (tear_good _ _ _ _ _ _ _ G1 Hlex HX1 Hn Hl1) as G2. destruct (free_good _ _ _ _ _ _ _ G2 H2) as (G3 & _ & _).
      destruct (from_parent X) as [next|] eqn:Hp; [|by mrun; eexists]. exfalso.
      assert (Hpar : parent_of (V None s1) t next) by (exists (call_of X); split; [by apply view_tx|done]).
      destruct (parent_sync _ _ _ _ _ (g_calls _ _ _ _ _ _ _ _ _ G1) Hpar) as [(U & HU & Hs) _]. rewrite (view_tx None s1 t X HX1) in HU. simplify_eq. simpl in Hs. congruence.
Qed.

(** Of a call in hand. *)
Lemma send_failed_good hand stk t s u s' z : G hand None None stk (Some t) s -> binder_send_failed_reply E t z s = Some (u, s') ->
  exists stk', G hand None None stk' None s'.
Proof.
  intros HG H. unfold binder_send_failed_reply in H. apply bind_Some in H as (X & s1 & [-> HX]%txn_at_inv & H).
  apply bind_Some in H as (? & s1 & [-> _]%bug_on_inv & H). apply bind_Some in H as (? & ? & [= <- <-] & H).
  destruct (i_lim _ _ _ (g_calls _ _ _ _ _ _ _ _ _ HG) t eq_refl) as (Y & HY & Hs & _). apply view_tx_inv in HY as (X' & HX' & ->).
  assert (X' = X) as -> by (simpl in HX'; congruence). simpl in Hs.
  eapply (fail_good _ _ _ _ _ _ _ _ _ _ _ HG ltac:(by left) HX); [by rewrite Hs|exact H].
Qed.

Lemma hand_good hand hand' ex lex stk lim s : G hand ex lex stk lim s -> (forall t, hand' = Some t -> hand = Some t \/ live lex s !! t = None) ->
  G hand' ex lex stk lim s.
Proof.
  intros [I W L] Hh. split; [done|done|]. destruct L as [La Lu Lf Lq Lt Lo]. split; try done.
  intros t X b B Hu HX. apply (Lu t X b B); [|done]. destruct Hu as [?|[?|Hu]]; [by left|by right; left|]. right; right.
  destruct (Hh t Hu); congruence.
Qed.

(** A transaction that will not be delivered: a call fails, another is
    forgotten. *)
Lemma cleanup_good hand lex stk lim t X s u s' z : G hand None lex stk lim s -> lex = None \/ lex = Some t -> transactions s !! t = Some X ->
  (if need_reply X then lim = Some t else lim = None /\ loose t s) ->
  (need_reply X = true -> forall b B, buffer_of s X b B -> target_node B <> None) ->
  binder_cleanup_transaction E t z s = Some (u, s') -> exists stk', G hand None None stk' None s'.
Proof.
  intros HG Hlex HX Hl Hnode H. unfold binder_cleanup_transaction in H. apply bind_Some in H as (X1 & s1 & [-> HX1]%txn_at_inv & H).
  assert (X1 = X) as -> by congruence. apply bind_Some in H as (b & s1 & [-> Hb]%deref_inv & H).
  apply bind_Some in H as (B & s1 & [-> (al & Hal & HB)]%d_buf_inv & H). destruct b as [p b]. simpl in *.
  destruct (negb (bool_decide (target_node B = None)) && negb (one_way (t_flags X))) eqn:Ht.
  - unfold binder_send_failed_reply in H. apply bind_Some in H as (X1 & s1 & [-> _]%txn_at_inv & H).
    apply bind_Some in H as (? & s1 & [-> _]%bug_on_inv & H). apply bind_Some in H as (? & s1 & [= <- <-] & H).
    eapply (fail_good _ _ _ _ _ _ _ _ _ _ _ HG Hlex HX Hl H).
  - destruct (need_reply X) eqn:Hn.
    + exfalso. pose proof (l_flags _ _ _ _ _ (g_links _ _ _ _ _ _ _ _ _ HG) t X HX (or_introl Hn)) as Hf. rewrite Hf in Ht.
      apply (Hnode eq_refl b B); [by exists p, al|]. case_bool_decide; [done|]. by destruct (target_node B).
    + destruct Hl as [-> Hloose]. pose proof (tear_good _ _ _ _ _ _ _ HG Hlex HX Hn Hloose) as G2.
      destruct (free_good _ _ _ _ _ _ _ G2 H) as [G3 _]. by eexists.
Qed.

(** ** Work lists *)

Lemma enqueue_inv w l g u g' : binder_enqueue_work_ilocked w (Some l) g = Some (u, g') ->
  on_list w g = false /\ g' = set_works (<[l := queue l g ++ [w]]> (works g)) g.
Proof.
  intros H. unfold binder_enqueue_work_ilocked in H. apply bind_Some in H as (l' & g1 & [-> [= <-]]%deref_inv & H).
  apply bind_Some in H as (? & ? & [= <- <-] & H). apply bind_Some in H as (? & g1 & [-> Ho]%bug_on_inv & H). by mrun.
Qed.

(** The links of a state in which one more transaction, the one in hand, is
    on a list. *)
Lemma links_post hand ex lex s g t : links making (Some t) ex lex s -> (forall l u, u ∈ txns (queue l g) -> u ∈ txns (queue l (graph s)) \/ u = t) ->
  (forall u, hand = Some u -> u = t) -> links making hand ex lex (set_d_graph g s).
Proof.
  intros L Hq Hh. destruct L as [La Lu Lf Lq Lt Lo]. split; try done.
  intros u X b B Hu HX. apply (Lu u X b B); [|done]. destruct Hu as [[l Hl]|[?|Hu]]; [|by right; left|right; right; by rewrite (Hh u Hu)].
  destruct (Hq l u Hl) as [?| ->]; [left; by exists l|by right; right].
Qed.

Lemma post_list_good ex lex stk lim s t X l u g : G (Some t) ex lex stk lim s -> live ex s !! t = Some X ->
  (if need_reply X then lim = Some t else loose t s) -> queueable stk (V ex s) t (call_of X) l -> (forall A, l <> thread_todo A) ->
  binder_enqueue_work_ilocked (WTransaction t) (Some l) (graph s) = Some (u, g) ->
  G None ex lex stk (if need_reply X then None else lim) (set_d_graph g s).
Proof.
  intros [I W L] HX Hl Hq Hla [_ ->]%enqueue_inv. split.
  - eapply inv_calm.
    + eapply (inv_post _ _ _ t (call_of X) l I); [by apply view_tx| |done]. simpl. destruct (need_reply X); [done|]. intros l'. rewrite items_view. apply Hl.
    + apply calm_eq; try done; simpl.
      * intros l'. rewrite queue_at. unfold fupd. case_decide as El; [|done]. by rewrite fmap_app.
      * intros A. destruct l as [|B| |]; try done. by destruct (Hla B).
      * intros A. destruct l as [|B| |]; try done. by destruct (Hla B).
  - exact W.
  - eapply links_post; [exact L| |done]. intros l' v. rewrite queue_at. case_decide as El; [|by left]. rewrite El, txns_app, elem_of_app.
    intros [?|Hv]; [by left|right]. by apply list_elem_of_singleton in Hv.
Qed.

(** On a thread's list, which raises its flag. *)
Lemma thread_work_inv A w g u g' : binder_enqueue_thread_work_ilocked A w g = Some (u, g') ->
  exists T n, threads g !! A = Some T /\ g' = set_threads (<[A := set_process_todo_flag true T]> (threads g))
    (set_works (<[thread_todo A := queue (thread_todo A) g ++ [w]]> (works g)) (set_warnings n g)).
Proof.
  intros H. unfold binder_enqueue_thread_work_ilocked in H. apply bind_Some in H as (b & g1 & H1%reads_is_waiting & H). subst g1.
  apply bind_Some in H as (? & g1 & [= <- <-] & H). apply bind_Some in H as (? & g2 & [_ ->]%enqueue_inv & H).
  unfold set_process_todo in H. apply bind_Some in H as (T & g2 & [-> HT]%thread_at_inv & H). unfold put_thread_at in H. mrun.
  exists T, (if b then binder_warnings g + 1 else binder_warnings g). destruct b; (split; [done|]); by destruct g.
Qed.

Section post.
Context (ex lex : option nat) (stk : nat -> list nat) (lim : option nat) (s : driver) (t : nat) (X : binder_transaction).
Context (HG : G (Some t) ex lex stk lim s) (HX : live ex s !! t = Some X) (Hl : if need_reply X then lim = Some t else loose t s).

Lemma post_account l : queueable stk (V ex s) t (call_of X) l ->
  inv stk (if need_reply X then None else lim) (post l (Some t) (V ex s)).
Proof.
  intros Hq. apply (inv_post stk lim (V ex s) t (call_of X) l); [apply HG|by apply view_tx| |done]. simpl.
  destruct (need_reply X); [done|]. intros l'. rewrite items_view. apply Hl.
Qed.

Lemma post_thread_good A u g : queueable stk (V ex s) t (call_of X) (thread_todo A) -> waits (V None s) A = false ->
  binder_enqueue_thread_work_ilocked A (WTransaction t) (graph s) = Some (u, g) ->
  G None ex lex stk (if need_reply X then None else lim) (set_d_graph g s).
Proof.
  intros Hq Hw (T & n & HT & ->)%thread_work_inv. split.
  - eapply inv_calm; [by apply post_account|]. apply calm_eq; try done; simpl in *.
    + intros B. rewrite lookup_insert. case_decide as EB; [|done]. subst B. by rewrite HT.
    + intros l. match goal with |- context [queue l ?g'] => change (queue l g') with (queue l (set_works (<[thread_todo A := queue (thread_todo A) (graph s) ++ [WTransaction t]]> (works (graph s))) (graph s))) end.
      rewrite queue_at. unfold fupd. case_decide as El; [|done]. by rewrite fmap_app.
    + intros B. rewrite lookup_insert. unfold fupd. case_decide as EB; [subst B; rewrite decide_True by done; by rewrite HT in Hw|].
      by rewrite decide_False by (by intros ->).
    + intros B. rewrite lookup_insert. unfold fupd. case_decide as EB; [subst B; by rewrite decide_True|]. by rewrite decide_False by (by intros ->).
    + intros B. rewrite lookup_insert. case_decide as EB; [|done]. subst B. by rewrite HT.
  - intros p. destruct (g_waiting _ _ _ _ _ _ _ _ _ HG p) as [Hnd Hp]. split; [done|]. intros B HB. destruct (Hp B HB) as (TB & HTB & Ep). simpl.
    rewrite lookup_insert. case_decide as EB; [|by exists TB]. subst B. eexists. split; [done|]. simpl. congruence.
  - eapply links_post; [apply HG| |done]. intros l' v.
    match goal with |- context [queue l' ?g'] => change (queue l' g') with (queue l' (set_works (<[thread_todo A := queue (thread_todo A) (graph s) ++ [WTransaction t]]> (works (graph s))) (graph s))) end.
    rewrite queue_at. case_decide as El; [|by left]. rewrite El, txns_app, elem_of_app.
    intros [?|Hv]; [by left|right]. by apply list_elem_of_singleton in Hv.
Qed.

Lemma select_inv p o g g' : binder_select_thread_ilocked p g = Some (o, g') -> exists P, procs g !! p = Some P /\
  match o with
  | None => g' = g /\ waiting_threads P = []
  | Some A => exists rest, waiting_threads P = A :: rest /\ g' = set_procs (<[p := set_waiting rest P]> (procs g)) g
  end.
Proof.
  unfold binder_select_thread_ilocked. intros H. apply bind_Some in H as (P & g1 & [-> HP]%proc_at_inv & H). exists P. split; [done|].
  destruct (waiting_threads P) as [|A rest] eqn:E'; unfold put_proc_at in H; mrun; [done|]. by exists rest.
Qed.

(** A thread that waits for work is taken off the list of its process. *)
Lemma post_selected_good p A u g1 g2 : queueable stk (V ex s) t (call_of X) (thread_todo A) ->
  binder_select_thread_ilocked p (graph s) = Some (Some A, g1) -> binder_enqueue_thread_work_ilocked A (WTransaction t) g1 = Some (u, g2) ->
  G None ex lex stk (if need_reply X then None else lim) (set_d_graph g2 s).
Proof.
  intros Hq (P & HP & rest & Hwt & ->)%select_inv (T & n & HT & ->)%thread_work_inv. simpl in HT.
  assert (Ew : waiting p (graph s) = A :: rest) by (unfold waiting; by rewrite HP).
  destruct (g_waiting _ _ _ _ _ _ _ _ _ HG p) as [Hnd Hp]. rewrite Ew in Hnd, Hp. apply NoDup_cons in Hnd as [HA Hnd].
  destruct (Hp A ltac:(left)) as (T' & HT' & Ep). assert (T' = T) as -> by congruence. clear HT'.
  set (g2 := set_threads _ _). assert (Hwait : forall q, waiting q g2 = if decide (q = p) then rest else waiting q (graph s)).
  { intros q. unfold waiting at 1. simpl. rewrite lookup_insert. case_decide as Eq1; [subst q; by rewrite decide_True|].
    by rewrite decide_False by (by intros ->). }
  split.
  - eapply inv_calm; [by apply post_account|]. apply calm_eq; try done.
    + intros B. simpl. rewrite lookup_insert. case_decide as EB; [|done]. subst B. by rewrite HT.
    + intros l. simpl. change (queue l g2) with (queue l (set_works (<[thread_todo A := queue (thread_todo A) (graph s) ++ [WTransaction t]]> (works (graph s))) (graph s))).
      rewrite queue_at. unfold fupd. case_decide as El; [|done]. by rewrite fmap_app.
    + intros B. cbn -[waiting g2]. unfold g2 at 1. cbn -[waiting g2]. rewrite lookup_insert. unfold fupd. case_decide as EB.
      * subst B. rewrite (decide_True (P := A = A)) by done. simpl. rewrite Ep, Hwait, decide_True by done. by case_bool_decide.
      * rewrite (decide_False (P := B = A)) by (by intros ->). destruct (threads (graph s) !! B) as [TB|] eqn:HTB; [|done]. rewrite Hwait. case_decide as Eq; [|done]. rewrite Eq, Ew.
        apply bool_decide_ext. rewrite elem_of_cons. split; [by right|]. by intros [->|?].
    + intros B. simpl. rewrite lookup_insert. unfold fupd. case_decide as EB; [subst B; by rewrite decide_True|]. by rewrite decide_False by (by intros ->).
    + intros B. simpl. rewrite lookup_insert. case_decide as EB; [|done]. subst B. by rewrite HT.
  - intros q. rewrite Hwait. assert (Hq' : forall B, B ∈ (if decide (q = p) then rest else waiting q (graph s)) -> B ∈ waiting q (graph s)).
    { intros B. case_decide as Eq; [|done]. rewrite Eq, Ew. by right. }
    destruct (g_waiting _ _ _ _ _ _ _ _ _ HG q) as [Hndq Hpq]. split; [by case_decide|]. intros B HB. destruct (Hpq B (Hq' B HB)) as (TB & HTB & EB'). clear HB. simpl.
    rewrite lookup_insert. clear Hq'. case_decide as EB; [|by exists TB]. subst B. eexists. split; [done|]. simpl. congruence.
  - eapply links_post; [apply HG| |done]. intros l' v.
    change (queue l' g2) with (queue l' (set_works (<[thread_todo A := queue (thread_todo A) (graph s) ++ [WTransaction t]]> (works (graph s))) (graph s))).
    rewrite queue_at. case_decide as El; [|by left]. rewrite El, txns_app, elem_of_app.
    intros [?|Hv]; [by left|right]. by apply list_elem_of_singleton in Hv.
Qed.
End post.
End ops.
