(* ===== verification/BinderTxnDeliver.v ===== *)
(** * Taking transactions off lists and handing them over *)

From Stdlib Require Import ZArith Lia.
From stdpp Require Import base option gmap sets list.
From S2P Require Import Prelude RbTree BinderAlloc BinderNode BinderTranslate BinderObjects BinderTxn BinderCalls.
From S2P Require Import BinderFrame BinderFrameAlloc BinderTxnView BinderTxnHush BinderTxnOps.

(** ** The account *)

Section take.
Context (stk : nat -> list nat) (c : calls) (A t : nat) (X : call) (l : worklist) (w : bool).
Context (I : inv stk None c) (HX : tx c !! t = Some X) (Hd : doing c A = Reading w).
Context (Hhead : head (todo c l) = Some (Some t)).
(** The thread takes from its own list, or from its process's when that is
    empty and it is free. *)
Context (Hl : l = thread_todo A \/ (l = proc_todo (home c A) /\ todo c (thread_todo A) = [] /\ w = true)).

Lemma taken_item : t ∈ items c l.
Proof. unfold items. destruct (todo c l) as [|x q]; [done|]. injection Hhead as ->. simpl. left. Qed.

Lemma taken_alive : top c A <> None.
Proof. apply (i_busy _ _ _ I). by rewrite Hd. Qed.

(** What [inv_deliver] asks of a call taken so. *)
Lemma taken_call : sync X = true -> dest X = Some (home c A) /\ (server X = None \/ server X = Some A) /\
  (forall v, head (stk A) = Some v -> outgoing c A v /\ inside c t v) /\
  (forall x Y, x ∈ items (take_item t l c) (thread_todo A) -> tx c !! x = Some Y -> sync Y = false /\ server Y <> None).
Proof.
  intros Hs. pose proof taken_item as Ht. pose proof taken_alive as HA. destruct (i_item _ _ _ I t l Ht) as (X' & HX' & Hsv & _).
  assert (X' = X) as -> by congruence. clear HX'. destruct Hl as [El|(El & Hq & Hw)].
  - split; [apply (i_home _ _ _ I t l X); try done; by rewrite El|].
    assert (Hsv' : server X = None \/ server X = Some A).
    { destruct (server X) as [B|] eqn:EB; [right|by left]. destruct (Hsv B eq_refl) as [_ E]. rewrite El in E. by injection E as ->. }
    split; [done|]. rewrite El in Ht. split.
    + intros v Hv. destruct Hsv' as [E|E].
      * destruct (i_selected _ _ _ I A t X HA Ht HX E) as [E' _]. by rewrite E' in Hv.
      * destruct (i_directed _ _ _ I A t X HA Ht HX Hs E) as (v' & Hv' & ?). assert (v' = v) as -> by congruence. done.
    + intros x Y Hx HY. rewrite items_take in Hx. rewrite El, decide_True in Hx by done. apply elem_of_list_del in Hx as [Hxt Hx].
      assert (Hsel : server Y <> None).
      { intros E. destruct (i_selected _ _ _ I A x Y HA Hx HY E) as [_ Hh]. rewrite <- El in Hh. congruence. }
      split; [|done]. destruct (sync Y) eqn:HsY; [|done]. exfalso. apply Hxt.
      destruct (server Y) as [B|] eqn:EB; [|done]. destruct (i_item _ _ _ I x _ Hx) as (Y' & HY' & H1 & _). assert (Y' = Y) as -> by congruence.
      destruct (H1 B EB) as [_ EB']. injection EB' as <-. destruct (i_directed _ _ _ I A x Y HA Hx HY HsY EB) as (v & Hv & _ & Hin).
      destruct Hsv' as [E|E]; [destruct (i_selected _ _ _ I A t X HA Ht HX E) as [E' _]; by rewrite E' in Hv|].
      destruct (i_directed _ _ _ I A t X HA Ht HX Hs E) as (v' & Hv' & _ & Hin'). assert (v' = v) as -> by congruence.
      eapply (tip_unique _ _ _ x t v I Hin Hin'); by eapply item_childless.
  - rewrite Hw in Hd. destruct (i_free _ _ _ I A ltac:(by right)) as [Hst _]. split; [apply (i_home _ _ _ I t l X); try done; by rewrite El|].
    split; [left|split].
    + destruct (server X) as [B|]; [|done]. destruct (Hsv B eq_refl) as [_ E]. congruence.
    + intros v Hv. by rewrite Hst in Hv.
    + intros x Y Hx. rewrite items_take, El, decide_False in Hx by done. unfold items in Hx. rewrite Hq in Hx. by apply not_elem_of_nil in Hx.
Qed.
End take.

(** ** The driver *)

Section deliver.
Context (doing : nat -> activity) (making : nat -> option nat) (drafts : nat -> call).
Context `{RB : Rbtree} (E : driver_env).
Local Abbreviation V := (view doing making drafts).
Local Abbreviation G := (good doing making drafts).

Lemma fmap_del t q : txn_of <$> list_del (WTransaction t) q = list_del (Some t) (txn_of <$> q).
Proof.
  unfold list_del. induction q as [|x q IH]; [done|]. rewrite fmap_cons, !filter_cons. case_decide as E1; case_decide as E2.
  - by rewrite fmap_cons, IH.
  - destruct x; simpl in E2; congruence.
  - destruct E2. by rewrite E1.
  - exact IH.
Qed.

Lemma head_txn t l s : head (queue l (graph s)) = Some (WTransaction t) -> head (todo (V None s) l) = Some (Some t).
Proof. simpl. by destruct (queue l (graph s)); [|intros [= ->]]. Qed.

(** A transaction leaves its list. *)
Lemma take_good hand lex stk s t X l : G hand None lex stk None s -> transactions s !! t = Some X -> t ∈ txns (queue l (graph s)) ->
  let s' := set_d_graph (set_works (list_del (WTransaction t) <$> works (graph s)) (graph s)) s in
  G (Some t) None lex stk (if need_reply X then Some t else None) s' /\ loose making t s' /\ calm (take_item t l (V None s)) (V None s').
Proof.
  intros HG HX Ht s'. pose proof HG as [I W L]. pose proof (view_tx doing making drafts None s t X HX) as HV.
  assert (Hi : t ∈ items (V None s) l) by by rewrite items_view.
  assert (Hcalm : calm (take_item t l (V None s)) (V None s')).
  { apply calm_eq; try done. intros l'. simpl. rewrite queue_del, fmap_del. unfold fupd. case_decide as El; [by rewrite El|].
    apply list_del_notin. intros Hin. apply El. eapply (i_once _ _ _ I t); [exact Hi|]. unfold items. apply list_elem_of_omap. by exists (Some t). }
  assert (Hloose : loose making t s').
  { split.
    - intros l' Hin. rewrite <- (items_view doing making drafts None) in Hin. unfold items in Hin. simpl in Hin. rewrite queue_del, fmap_del in Hin.
      apply list_elem_of_omap in Hin as (o & Ho & Eo). unfold id in Eo. subst o. by apply elem_of_list_del in Ho as [? _].
    - intros B HB. destruct (i_making _ _ _ I B t HB) as (_ & Hn & _). by apply (Hn l). }
  split; [|done]. split; [|exact W|].
  - eapply inv_calm; [|exact Hcalm]. apply (inv_take stk (V None s) t (call_of X) l I Hi HV).
  - destruct L as [La Lu Lf Lq Lt Lo]. split; try done. intros u Y b B Hu HY. apply (Lu u Y b B); [|done].
    destruct Hu as [[l' Hl']|[?|Hu]]; [|by right; left|].
    + left. exists l'. unfold txns in *.
      change (graph s') with (set_works (list_del (WTransaction t) <$> works (graph s)) (graph s)) in Hl'. rewrite queue_del in Hl'. apply list_elem_of_omap in Hl' as (x & Hx & Ex).
      apply elem_of_list_del in Hx as [_ Hx]. apply list_elem_of_omap. by exists x.
    + injection Hu as <-. left. by exists l.
Qed.

(** The flag of a thread whose list is empty is reset. *)
Lemma clear_good hand ex lex stk lim s A T : G hand ex lex stk lim s -> threads (graph s) !! A = Some T -> queue (thread_todo A) (graph s) = [] ->
  let s' := set_d_graph (set_threads (<[A := set_process_todo_flag false T]> (threads (graph s))) (graph s)) s in
  G hand ex lex stk lim s' /\ calm (V ex s) (V ex s').
Proof.
  intros [I W L] HT Hq s'.
  assert (HC : calm (V ex s) (V ex s')).
  { split; try done; intros B; simpl; rewrite ?lookup_insert.
    - case_decide as EB; [|done]. subst B. by rewrite HT.
    - case_decide as EB; [|by destruct (threads (graph s) !! B)]. subst B. rewrite HT. done.
    - intros _. case_decide as EB; [|done]. subst B. intros _. left. exact (f_equal (fmap txn_of) Hq).
    - left. case_decide as EB; [|done]. subst B. by rewrite HT. }
  split; [|done]. split; [by eapply inv_calm| |by destruct L].
  intros p. destruct (W p) as [Hnd Hp]. split; [done|]. intros B HB. destruct (Hp B HB) as (TB & HTB & Ep). simpl. rewrite lookup_insert.
  case_decide as EB; [|by exists TB]. subst B. eexists. split; [done|]. simpl. congruence.
Qed.

(** The receiver may free the buffer from now on. *)
Lemma userfree_good stk lim s t X b u s' : G (Some t) None None stk lim s -> loose making t s -> transactions s !! t = Some X -> t_buffer X = Some b ->
  upd_buf b (set_user_free true) s = Some (u, s') -> G None None None stk lim s' /\ graph s' = graph s /\ transactions s' = transactions s.
Proof.
  intros [I W L] Hloose HX Hb (al & B & Hal & HB & ->)%upd_buf_inv. destruct b as [p b]. simpl in *. split; [|done]. split; [done|done|].
  pose proof L as [La Lu Lf Lq Lt Lo Lw Ld]. destruct (La t X p b al HX Hb Hal) as (B0 & HB0 & HF & HT). assert (B0 = B) as -> by congruence. clear HB0.
  assert (Hst : forall q al' c C, <[p := set_store (<[b := set_user_free true B]> (store al)) al]> (allocs s) !! q = Some al' -> store al' !! c = Some C ->
    exists al0 C0, allocs s !! q = Some al0 /\ store al0 !! c = Some C0 /\ free C = free C0 /\ transaction C = transaction C0 /\ ((q, c) = (p, b) \/ C = C0)).
  { intros q al' c C. rewrite lookup_insert. case_decide as Eq; [|intros Hq HC; exists al', C; split_and!; try done; by right].
    intros [= <-]. subst q. simpl. rewrite lookup_insert. case_decide as Ec; [subst c|intros HC; exists al, C; split_and!; try done; by right].
    intros [= <-]. exists al, B. split_and!; try done. by left. }
  assert (Hin : forall q al' c C0, <[p := set_store (<[b := set_user_free true B]> (store al)) al]> (allocs s) !! q = Some al' ->
    (exists al0, allocs s !! q = Some al0 /\ store al0 !! c = Some C0) -> exists C, store al' !! c = Some C).
  { intros q al' c C0. rewrite lookup_insert. case_decide as Eq; [|intros Hq (al0 & Hal0 & HC); exists C0; congruence].
    intros [= <-] (al0 & Hal0 & HC). subst q. simpl. rewrite lookup_insert. case_decide; [by eexists|]. exists C0. congruence. }
  assert (Ha : forall q al', <[p := set_store (<[b := set_user_free true B]> (store al)) al]> (allocs s) !! q = Some al' -> exists al0, allocs s !! q = Some al0).
  { intros q al'. rewrite lookup_insert. case_decide; [subst q; by exists al|by exists al']. }
  split; simpl.
  - intros v Y q c al' HY Hc Hq. destruct (Ha q al' Hq) as [al0 Hal0]. destruct (La v Y q c al0 HY Hc Hal0) as (C0 & HC0 & HF0 & HT0).
    destruct (Hin q al' c C0 Hq) as [C HC]; [by exists al0|]. destruct (Hst q al' c C Hq HC) as (al1 & C1 & Hal1 & HC1 & E1 & E2 & _).
    exists C. split; [done|]. assert (al1 = al0) as -> by congruence. assert (C1 = C0) as -> by congruence. by rewrite E1, E2.
  - intros v Y c C Hu HY (q & al' & Hc & Hq & HC). destruct (Hst q al' c C Hq HC) as (al0 & C0 & Hal0 & HC0 & _ & _ & [Eb|Eb]).
    + exfalso. injection Eb as -> ->. destruct (La v Y p b al0 HY Hc Hal0) as (C1 & HC1 & _ & HT1).
      assert (v = t) as ->; [|by destruct Hu as [[l Hl]|[[D HD]|?]]; [apply (proj1 Hloose l)|apply (proj2 Hloose D)|done]].
      assert (al0 = al) as -> by congruence. congruence.
    + subst C. apply (Lu v Y c C0); [|done|by exists q, al0]. destruct Hu as [?|[?|?]]; [by left|by right; left|done].
  - exact Lf.
  - intros q q' al1 al2 c Hq Hq' [C1 H1] [C2 H2]. destruct (Hst q al1 c C1 Hq H1) as (a1 & D1 & Ha1 & HD1 & _).
    destruct (Hst q' al2 c C2 Hq' H2) as (a2 & D2 & Ha2 & HD2 & _). by eapply (Lq q q' a1 a2 c).
  - done.
  - exact Lo.
  - intros q al' c C v Hq HC HT'. destruct (Hst q al' c C Hq HC) as (al0 & C0 & Hal0 & HC0 & _ & ET & _). apply (Lw q al0 c C0 v); congruence.
  - exact Ld.
Qed.

Lemma view_set_doing ex s A d : view (fupd A d doing) making drafts ex s = set_doing A d (V ex s).
Proof. done. Qed.

Lemma good_set_doing hand ex lex stk lim s A d : G hand ex lex stk lim s -> inv stk lim (set_doing A d (V ex s)) ->
  good (fupd A d doing) making drafts hand ex lex stk lim s.
Proof. intros [_ W L] I. by split. Qed.

(** A call in hand goes on the receiver's stack. *)
Lemma serve_good stk s A w t X T : G None None None stk (Some t) s -> transactions s !! t = Some X -> threads (graph s) !! A = Some T ->
  doing A = Reading w -> let c := V None s in
  dest (call_of X) = Some (home c A) -> (server (call_of X) = None \/ server (call_of X) = Some A) ->
  (forall v, head (stk A) = Some v -> outgoing c A v /\ inside c t v) ->
  (forall x Y, x ∈ items c (thread_todo A) -> tx c !! x = Some Y -> sync Y = false /\ server Y <> None) ->
  let s' := set_d_graph (set_threads (<[A := set_stack (Some t) T]> (threads (graph s))) (graph s))
              (set_transactions (<[t := set_served (Some A) (transaction_stack T) X]> (transactions s)) s) in
  good (fupd A Idle doing) making drafts None None None (fupd A (t :: stk A) stk) None s'.
Proof.
  intros [I W L] HX HT Hd c Hdest Hsv Hh Hrest s'. pose proof (view_tx doing making drafts None s t X HX) as HV.
  assert (HA : top c A <> None) by (apply (i_busy _ _ _ I); simpl; by rewrite Hd).
  destruct (top c A) as [o|] eqn:Ho; [|done]. destruct (top_thread _ _ _ _ _ _ _ Ho) as (T' & HT' & HD & Est). assert (T' = T) as -> by congruence.
  assert (Hs : sync (call_of X) = true).
  { destruct (i_lim _ _ _ I t eq_refl) as (Y & HY & Hs & _). rewrite HV in HY. by simplify_eq. }
  split.
  - eapply inv_calm; [eapply (inv_deliver stk c A t (call_of X) I HV ltac:(by rewrite Ho) w Hd Hdest Hsv Hh Hrest)|]. apply calm_eq; try done.
    + simpl. rewrite fmap_insert. f_equal. unfold call_of at 1. simpl. f_equal; [|done]. rewrite Est. symmetry.
      by apply (stack_head _ _ _ _ (i_stack _ _ _ I A o Ho)).
    + intros B. simpl. rewrite lookup_insert. unfold fupd. case_decide as EB; [subst B; rewrite decide_True by done; simpl; by rewrite HD|].
      by rewrite decide_False by (by intros ->).
    + intros B. simpl. rewrite lookup_insert. case_decide as EB; [|done]. subst B. by rewrite HT.
    + intros B. simpl. rewrite lookup_insert. case_decide as EB; [|done]. subst B. by rewrite HT.
    + intros B. simpl. rewrite lookup_insert. case_decide as EB; [|done]. subst B. by rewrite HT.
  - intros p. destruct (W p) as [Hnd Hp]. split; [done|]. intros B HB. destruct (Hp B HB) as (TB & HTB & Ep). simpl. rewrite lookup_insert.
    case_decide as EB; [|by exists TB]. subst B. eexists. split; [done|]. simpl. congruence.
  - eapply links_keep; [exact L| | | |by apply allocs_same| |].
    + intros u Y HY. split; [done|]. simpl in HY. rewrite lookup_insert in HY. case_decide as Eu.
      * injection HY as <-. subst u. exists X. split_and!; try done; by left.
      * exists Y. split_and!; try done; by left.
    + intros u Y HY. simpl in HY. rewrite lookup_insert in HY. case_decide as Eu.
      * injection HY as <-. subst u. exists X. split_and!; try done; by left.
      * exists Y. split_and!; try done; by left.
    + done.
    + intros u Y HY _. simpl. rewrite lookup_insert. case_decide as Eu; [|by exists Y]. subst u. eexists. split; [done|]. simpl. congruence.
    + intros u Y. simpl. rewrite lookup_insert. case_decide as Eu; [|apply (l_dest _ _ _ _ _ L)]. intros [= <-]. by apply (l_dest _ _ _ _ _ L t X).
Qed.
End deliver.
