(* ===== verification/BinderTxnBuf.v ===== *)
(** * Buffers given back

    A transaction and its buffer part, the next asynchronous call of a node is
    queued, and the buffer goes back to its allocator: the account of calls
    stays good. *)

From Stdlib Require Import ZArith Lia.
From stdpp Require Import base option gmap sets list.
From S2P Require Import Prelude RbTree BinderAlloc BinderNode BinderTranslate BinderObjects BinderTxn BinderCalls.
From S2P Require Import BinderFrame BinderFrameAlloc BinderTxnView BinderTxnHush BinderTxnOps BinderTxnDeliver.

Lemma set_own_graph s : set_d_graph (graph s) s = s.
Proof. by destruct s. Qed.

(** ** Taking the head of a list *)

Definition without (w : binder_work) (g : binder) : binder := set_works (list_del w <$> works g) g.

Lemma dequeue_head_inv l g o g' : binder_dequeue_work_head_ilocked l g = Some (o, g') ->
  (queue l g = [] /\ o = None /\ g' = g) \/ exists w, head (queue l g) = Some w /\ o = Some w /\ g' = without w g.
Proof.
  unfold binder_dequeue_work_head_ilocked. intros H. apply bind_Some in H as (? & ? & [= <- <-] & H).
  destruct (queue l g) as [|w q]; [mrun; by left|]. unfold binder_dequeue_work_ilocked in H. mrun. right. by exists w.
Qed.

Lemma head_item t l s : head (queue l (graph s)) = Some (WTransaction t) -> t ∈ txns (queue l (graph s)).
Proof. destruct (queue l (graph s)); [done|]. intros [= ->]. unfold txns. simpl. left. Qed.

Section buf.
Context (doing : nat -> activity) (making : nat -> option nat) (drafts : nat -> call).
Context `{RB : Rbtree} (E : driver_env).
Local Abbreviation V := (view doing making drafts).
Local Abbreviation G := (good doing making drafts).

Lemma hush_without me w s : txn_of w = None -> hush me s (set_d_graph (without w (graph s)) s).
Proof. intros Hw. by apply hush_graph, quiet_dequeue. Qed.

(** ** Parting *)

Lemma links_loosen hand ex t X s : links making hand ex None s -> transactions s !! t = Some X -> links making hand ex (Some t) s.
Proof.
  intros [La Lu Lf Lq Lt Lo Lw Ld] HX. split; [| |done..| |done|done|done].
  - intros u Y p b al [_ HY]%live_Some. by apply (La u Y).
  - intros u Y b B Hu [_ HY]%live_Some. by apply (Lu u Y).
  - intros v Xv u Y p b [= <-] HX' [Hu HY]%live_Some Hb1 Hb2. destruct (allocs s !! p) as [al|] eqn:Hal; [|done].
    destruct (La t Xv p b al HX' Hb1 Hal) as (B1 & HB1 & _ & HT1). destruct (La u Y p b al HY Hb2 Hal) as (B2 & HB2 & _ & HT2). congruence.
Qed.

Lemma loosen_good hand ex stk lim t X s : G hand ex None stk lim s -> transactions s !! t = Some X -> G hand ex (Some t) stk lim s.
Proof. intros [I W L] HX. split; [done|done|by eapply links_loosen]. Qed.

(** The transaction forgets the buffer, which has forgotten it. *)
Record parted (X X' : binder_transaction) : Prop := Parted {
  pt_buffer : t_buffer X' = None;
  pt_need : need_reply X' = need_reply X;
  pt_flags : t_flags X' = t_flags X;
  pt_from : t_from X' = t_from X \/ t_from X' = None
}.

Lemma links_part hand ex t X X' s : links making hand ex (Some t) s -> transactions s !! t = Some X -> ownerless t s -> parted X X' ->
  links making hand ex None (set_transactions (<[t := X']> (transactions s)) s).
Proof.
  intros [La Lu Lf Lq Lt Lo Lw Ld] HX HO [Pb Pn Pf Po].
  assert (Hex : forall u Y, live ex (set_transactions (<[t := X']> (transactions s)) s) !! u = Some Y ->
    exists Y0, live ex s !! u = Some Y0 /\ need_reply Y = need_reply Y0 /\ t_flags Y = t_flags Y0 /\ (t_from Y = t_from Y0 \/ t_from Y = None)).
  { intros u Y HY. destruct ex as [v|].
    - apply live_Some in HY as [Hu HY]. simpl in HY. rewrite lookup_insert in HY. case_decide as Eu.
      + injection HY as <-. subst u. exists X. split; [|done]. simpl. by rewrite lookup_delete_ne.
      + exists Y. split; [|by split_and!; [| |left]]. simpl. by rewrite lookup_delete_ne.
    - simpl in HY. rewrite lookup_insert in HY. case_decide as Eu; [injection HY as <-; subst u; by exists X|].
      exists Y. by split_and!; [| | |left]. }
  assert (Hne : forall u Y b, transactions (set_transactions (<[t := X']> (transactions s)) s) !! u = Some Y -> t_buffer Y = Some b ->
    u <> t /\ transactions s !! u = Some Y /\ live (Some t) s !! u = Some Y).
  { intros u Y b HY Hb. simpl in HY. rewrite lookup_insert in HY. case_decide as Eu; [injection HY as <-; congruence|].
    split; [done|]. split; [done|]. simpl. by rewrite lookup_delete_ne. }
  split.
  - intros u Y p b al HY Hb. destruct (Hne u Y _ HY Hb) as (_ & _ & HY'). by apply (La u Y).
  - intros u Y b B Hu HY HB. assert (HB' := HB). destruct HB' as (p & al & Hb & _). destruct (Hne u Y _ HY Hb) as (_ & _ & HY'). by apply (Lu u Y b B).
  - intros u Y HY Hn. destruct (Hex u Y HY) as (Y0 & HY0 & En & -> & Eo). apply (Lf u Y0 HY0). destruct Hn; [left; congruence|right].
    destruct Eo; congruence.
  - exact Lq.
  - done.
  - intros u Y HY Hn Hm. destruct (Hex u Y HY) as (Y0 & HY0 & En & _ & Eo). pose proof (Lo u Y0 HY0 ltac:(congruence) Hm). destruct Eo; congruence.
  - intros p al b B u Hal HB HT. destruct (Lw p al b B u Hal HB HT) as (Y & HY & Hb). exists Y. split; [|done]. simpl.
    rewrite lookup_insert_ne; [done|]. intros <-. by apply (HO p al b B).
  - intros u Y HY Hb. destruct (t_buffer Y) as [b|] eqn:Eb; [|done]. destruct (Hne u Y b HY Eb) as (_ & HY' & _). apply (Ld u Y HY'). by rewrite Eb.
Qed.

Lemma part_good ex stk lim t X s : G None ex (Some t) stk lim s -> transactions s !! t = Some X -> ownerless t s ->
  G None ex None stk lim (set_transactions (<[t := set_t_buffer None X]> (transactions s)) s).
Proof.
  intros [I W L] HX HO. split; [|exact W|by apply (links_part _ _ _ X); [..|split; [..|left]]]. eapply inv_calm; [exact I|]. apply calm_eq; try done. simpl.
  apply map_eq. intros u. rewrite !lookup_fmap. destruct ex as [v|]; simpl; rewrite ?lookup_delete, lookup_insert.
  - destruct (decide (v = u)); [done|]. case_decide as Eu; [|done]. subst u. by rewrite HX.
  - case_decide as Eu; [|done]. subst u. by rewrite HX.
Qed.

(** The two assignments of [binder_free_buf], one of which is on the
    transaction and the other on the buffer. *)
Lemma unlink_good stk lim p b t s u1 s1 u2 s2 B al : G None None None stk lim s -> allocs s !! p = Some al -> store al !! b = Some B ->
  transaction B = Some t -> upd_txn t (set_t_buffer None) s = Some (u1, s1) -> upd_buf (p, b) (set_transaction None) s1 = Some (u2, s2) ->
  G None None None stk lim s2.
Proof.
  intros HG Hal HB HT H1 H2. unfold upd_txn in H1. apply bind_Some in H1 as (X & s0 & [-> HX]%txn_at_inv & H1). unfold put_txn in H1. mrun.
  destruct (l_owner _ _ _ _ _ (g_links _ _ _ _ _ _ _ _ _ HG) p al b B t Hal HB HT) as (X' & HX' & Hb). assert (X' = X) as -> by congruence. clear HX'.
  apply upd_buf_inv in H2 as (al' & B' & Hal' & HB' & ->). simpl in *. assert (al' = al) as -> by congruence. assert (B' = B) as -> by congruence.
  pose proof (loosen_good _ _ _ _ _ _ _ HG HX) as G1.
  set (s1 := set_allocs (<[p := set_store (<[b := set_transaction None B]> (store al)) al]> (allocs s)) s).
  assert (Hu : upd_buf (p, b) (set_transaction None) s = Some (tt, s1)).
  { unfold upd_buf, in_alloc. simpl. rewrite Hal. erewrite bind_eq by (unfold buf_at; erewrite bind_eq by done; rewrite HB; done). done. }
  assert (Hf : forall B0 v, transaction (set_transaction None B0) = Some v -> transaction B0 = Some v) by done.
  destruct (forget_good doing making drafts None None stk lim t X (p, b) s tt s1 _ Hf G1 HX Hb Hu) as (G2 & _ & _).
  apply (part_good _ _ _ t X s1 G2 HX). intros q al1 c C Hq HC HTC.
  assert (Hin : exists al0, allocs s !! q = Some al0 /\ store al0 !! c = Some C /\ (q, c) <> (p, b)).
  { simpl in Hq. rewrite lookup_insert in Hq. case_decide as Eq; [|exists al1; split; [done|]; split; [done|congruence]].
    injection Hq as <-. subst q. simpl in HC. rewrite lookup_insert in HC. case_decide as Ec; [by injection HC as <-|].
    exists al. split; [done|]. split; [done|congruence]. }
  destruct Hin as (al0 & Hal0 & HC0 & Hne). destruct (l_owner _ _ _ _ _ (g_links _ _ _ _ _ _ _ _ _ HG) q al0 c C t Hal0 HC0 HTC) as (X' & HX' & Hb').
  congruence.
Qed.
(** ** The next asynchronous call *)

(** Asynchronous calls are nobody's in particular. *)
Lemma item_plain stk lim c t X n : inv stk lim c -> t ∈ items c (async_todo n) -> tx c !! t = Some X -> sync X = false /\ server X = None.
Proof.
  intros I Ht HX. split; [by eapply i_async|]. destruct (server X) as [B|] eqn:EB; [|done].
  destruct (i_item _ _ _ I t _ Ht) as (Y & HY & Hsv & _). assert (Y = X) as -> by congruence. by destruct (Hsv B EB) as [_ ?].
Qed.

Lemma next_async_good stk p n s u g : G None None None stk None s -> next_async p n (graph s) = Some (u, g) ->
  G None None None stk None (set_d_graph g s).
Proof.
  intros HG H. unfold next_async in H. apply bind_Some in H as (N & g1 & [-> HN]%node_at_inv & H).
  apply bind_Some in H as (? & g1 & [-> _]%bug_on_inv & H). apply bind_Some in H as (? & g1 & [-> _]%bug_on_inv & H).
  apply bind_Some in H as (o & g1 & [(_ & -> & ->)|(w & Hh & -> & ->)]%dequeue_head_inv & H).
  - eapply good_hush; [exact HG| |apply awake_None]. apply hush_graph. by eapply keeps_put_node_at.
  - apply bind_Some in H as ([] & g2 & H1 & H). destruct (txn_of w) as [t|] eqn:Hw.
    + assert (Ew : w = WTransaction t) by (destruct w; simpl in Hw; congruence). subst w. pose proof (head_item _ _ _ Hh) as Ht.
      assert (Hi : t ∈ items (V None s) (async_todo n)) by by rewrite items_view.
      destruct (i_item _ _ _ (g_calls _ _ _ _ _ _ _ _ _ HG) t _ Hi) as (Y & HY & _). destruct (view_tx_inv _ _ _ _ _ _ _ HY) as (X & HX & ->).
      destruct (item_plain _ _ _ _ _ _ (g_calls _ _ _ _ _ _ _ _ _ HG) Hi HY) as [Hs Hv].
      destruct (take_good doing making drafts _ _ _ s t X _ HG HX Ht) as (G1 & L1 & _). unfold without in *.
      simpl in Hs. rewrite Hs in G1. set (s1 := set_d_graph _ s) in *.
      assert (G2 : G None None None stk None (set_d_graph g2 s1)).
      { pose proof (post_list_good doing making drafts None None stk None s1 t X (proc_todo p) tt g2 G1 HX) as HP. rewrite Hs in HP.
        apply HP; [exact L1| |done|exact H1]. split; simpl; try done.
        - intros A HA. simpl in Hv. congruence.
        - intros q HS. congruence.
        - intros A. apply L1. }
      change (set_d_graph g2 s1) with (set_d_graph g2 s) in G2. eapply good_hush; [exact G2| |apply awake_None].
      change (set_d_graph g s) with (set_d_graph g (set_d_graph g2 s)). apply hush_graph. by eapply keeps_wakeup_proc.
    + eapply good_hush; [exact HG| |apply awake_None]. apply hush_graph. etrans; [by apply quiet_dequeue|].
      change (set_works (list_del w <$> works (graph s)) (graph s)) with (without w (graph s)).
      etrans; [eapply (keeps_enqueue None w (Some (proc_todo p)) Hw); [done|exact H1]|]. by eapply keeps_wakeup_proc.
Qed.

(** ** Freeing *)

Lemma free_buf_good stk p b s u s' : G None None None stk None s -> binder_free_buf E p b s = Some (u, s') -> G None None None stk None s'.
Proof.
  intros HG H. unfold binder_free_buf in H. apply bind_Some in H as (B & s1 & [-> (al & Hal & HB)]%d_buf_inv & H).
  apply bind_Some in H as (? & s1 & H1 & H).
  assert (G1 : G None None None stk None s1).
  { destruct (transaction B) as [t|] eqn:HT; [|by mrun]. apply bind_Some in H1 as (? & s0 & H0 & H1). by eapply unlink_good. }
  clear H1. apply bind_Some in H as (? & s2 & H2 & H).
  assert (G2 : G None None None stk None s2).
  { destruct (target_node B) as [n|]; [|by mrun]. destruct (async_transaction B); [|by mrun].
    apply in_graph_inv in H2 as (g & H2 & ->). by eapply next_async_good. }
  clear H2. apply bind_Some in H as (? & s3 & H3 & H).
  assert (G3 : G None None None stk None s3) by (eapply hush_good0; [apply hush_release_objects|exact H3|exact G2]).
  eapply (hush_good0 doing making drafts _ _ _ _ _ _ _ _ _ (hush_in_alloc None p _ _) H G3). Unshelve. apply kept_free_buf'.
Qed.

Lemma bc_free_good stk p a s u s' : G None None None stk None s -> bc_free_buffer E p a s = Some (u, s') -> G None None None stk None s'.
Proof.
  intros HG H. unfold bc_free_buffer in H. apply bind_Some in H as (r & s1 & H1 & H).
  assert (G1 : G None None None stk None s1).
  { eapply (hush_good0 doing making drafts _ _ _ _ _ _ _ _ _ (hush_in_alloc None p _ _) H1 HG). Unshelve. intros x r' x' Hx. by apply prepare_found in Hx as [? _]. }
  destruct r as [|b|z]; [by mrun|by eapply free_buf_good|by mrun].
Qed.
End buf.
