(* ===== verification/BinderTxnRead.v ===== *)
(** * Delivering

    A round of [binder_thread_read]: the head of the list is taken and
    delivered; a call that is delivered goes on the stack of the reader, one
    that cannot be fails, and the account of calls stays good. *)

From Stdlib Require Import ZArith Lia.
From stdpp Require Import base option gmap sets list.
From S2P Require Import Prelude RbTree BinderAlloc BinderNode BinderTranslate BinderObjects BinderTxn BinderCalls.
From S2P Require Import BinderFrame BinderFrameAlloc BinderTxnView BinderTxnHush BinderTxnOps BinderTxnDeliver BinderTxnBuf.

(** ** A call in the hands of its receiver *)

Record servable (stk : nat -> list nat) (c : calls) (A t : nat) : Prop := Servable {
  sv_dest X : tx c !! t = Some X -> sync X = true -> dest X = Some (home c A) /\ (server X = None \/ server X = Some A);
  sv_head v X : tx c !! t = Some X -> sync X = true -> head (stk A) = Some v -> outgoing c A v /\ inside c t v;
  sv_rest x X Y : tx c !! t = Some X -> sync X = true -> x ∈ items c (thread_todo A) -> tx c !! x = Some Y -> sync Y = false /\ server Y <> None
}.

Lemma servable_calm stk c c' A t : calm c c' -> top c A <> None -> servable stk c A t -> servable stk c' A t.
Proof.
  intros [Ex Et Ed Ei El Ew Er Eh Em] HA [Sd Sh Sr]. destruct (tx_roles _ _ Ex) as [_ Eo].
  assert (Ehome : home c' A = home c A) by (destruct (Eh A) as [?|[? _]]; done).
  split; rewrite Ex, ?Ehome, ?Eo, ?(tx_inside _ _ Ex), ?Ei; done.
Qed.

(** What is taken from a list is servable. *)
Lemma servable_taken stk c A t l w : inv stk None c -> doing c A = Reading w -> head (todo c l) = Some (Some t) ->
  l = thread_todo A \/ (l = proc_todo (home c A) /\ todo c (thread_todo A) = [] /\ w = true) -> servable stk (take_item t l c) A t.
Proof.
  intros I Hd Hh Hl.
  assert (HT : forall X, tx c !! t = Some X -> sync X = true -> dest X = Some (home c A) /\ (server X = None \/ server X = Some A) /\
    (forall v, head (stk A) = Some v -> outgoing c A v /\ inside c t v) /\
    (forall x Y, x ∈ items (take_item t l c) (thread_todo A) -> tx c !! x = Some Y -> sync Y = false /\ server Y <> None)).
  { intros X HX. by eapply taken_call. }
  destruct (tx_roles c (take_item t l c) eq_refl) as [_ Eo]. split.
  - intros X HX Hs. by destruct (HT X HX Hs) as (? & ? & _).
  - intros v X HX Hs Hv. rewrite Eo, (tx_inside c (take_item t l c) eq_refl). destruct (HT X HX Hs) as (_ & _ & H & _). by apply H.
  - intros x X Y HX Hs. destruct (HT X HX Hs) as (_ & _ & _ & H). apply H.
Qed.

(** ** A round, from the graph's side *)

Lemma read_list_inv A w g l g' : read_list A w g = Some (Some l, g') -> g' = g /\ exists T, threads g !! A = Some T /\
  (l = thread_todo A \/ (l = proc_todo (thread_proc T) /\ queue (thread_todo A) g = [] /\ w = true)).
Proof.
  unfold read_list, binder_worklist_empty_ilocked. intros H. apply bind_Some in H as (T & g1 & [-> HT]%thread_at_inv & H).
  apply bind_Some in H as (own & g1 & [= <- <-] & H). apply bind_Some in H as (shared & g1 & [= <- <-] & H). injection H as H <-.
  split; [done|]. exists T. split; [done|]. case_bool_decide as E1; simpl in H; [|left; congruence].
  destruct (negb _); simpl in H; [|done]. destruct w; [|done]. right. split; [congruence|done].
Qed.

(** The flag [process_todo] is reset when nothing is left. *)
Definition cleared (A : nat) (g g' : binder) : Prop := g' = g \/ exists T, threads g !! A = Some T /\ queue (thread_todo A) g = [] /\
  g' = set_threads (<[A := set_process_todo_flag false T]> (threads g)) g.

Definition graph_item (w : binder_work) : bool := match w with WNode _ | WDeath _ => true | _ => false end.

Lemma read_work_inv `{RB : Rbtree} A w f g r g' : read_work A w f g = Some (r, g') ->
  (r = ReadNothing /\ g' = g) \/ exists l x g1, read_list A w g = Some (Some l, g) /\ head (queue l g) = Some x /\ cleared A (without x g) g1 /\
    if graph_item x then quiet None g1 g' /\ (forall y, r <> ReadOther y) else r = ReadOther x /\ g' = g1.
Proof.
  unfold read_work. intros H. apply bind_Some in H as (o & g0 & H0 & H). assert (g0 = g) as -> by by apply reads_read_list in H0.
  destruct o as [l|]; [|left; by mrun]. right. apply bind_Some in H as (o & g1 & H1 & H).
  apply bind_Some in H as (e & g2 & He & H). pose proof (reads_empty _ _ _ _ He) as ->. apply bind_Some in H as (? & g3 & H3 & H).
  assert (HC : cleared A g1 g3).
  { unfold binder_worklist_empty_ilocked in He. injection He as He. destruct e; [|left; by mrun]. right. unfold clear_process_todo in H3.
    apply bind_Some in H3 as (T & g4 & [-> HT]%thread_at_inv & H3). unfold put_thread_at in H3. mrun. exists T. split; [done|]. split; [|done].
    by apply bool_decide_eq_true in He. }
  apply bind_Some in H as (T & g4 & [-> HT]%thread_at_inv & H). apply bind_Some in H as (wk & g4 & [-> Ho]%deref_inv & H).
  apply dequeue_head_inv in H1 as [(_ & ? & _)|(y & Hy & Ey & ->)]; [congruence|]. assert (y = wk) as -> by congruence.
  exists l, wk, g3. split; [done|]. split; [done|]. split; [done|]. destruct wk; simpl; try (injection H as <- <-; done).
  - apply bind_Some in H as (rr & g4 & H4 & H). injection H as <- <-. split; [by eapply keeps_read_work_node|done].
  - apply bind_Some in H as (rr & g4 & H4 & H). injection H as <- <-. split; [by eapply keeps_read_work_death|done].
Qed.

Section read.
Context (doing : nat -> activity) (making : nat -> option nat) (drafts : nat -> call).
Context `{RB : Rbtree} (E : driver_env).
Local Abbreviation V := (view doing making drafts).
Local Abbreviation G := (good doing making drafts).
Context (A : nat) (w : bool) (Hdo : doing A = Reading w).

(** The state while [A] delivers [t]. *)
Record holding (stk : nat -> list nat) (t : nat) (X : binder_transaction) (s : driver) : Prop := Holding {
  ho_good : G (Some t) None None stk (if need_reply X then Some t else None) s;
  ho_loose : loose making t s;
  ho_txn : transactions s !! t = Some X;
  ho_serve : servable stk (V None s) A t
}.

Lemma loose_hush me t s s' : hush me s s' -> loose making t s -> loose making t s'.
Proof. intros [Q _ _] [Hq Hm]. split; [|done]. intros l. rewrite (q_txns _ _ _ Q). apply Hq. Qed.

Lemma hush_txn_at me s s' t X : hush me s s' -> transactions s !! t = Some X -> exists X', transactions s' !! t = Some X' /\ same_txn X X'.
Proof. intros [_ HT _] HX. specialize (HT t). rewrite HX in HT. inversion HT as [X0 X' HS E0 E1|]; subst. by exists X'. Qed.

Lemma holding_alive stk t X s : holding stk t X s -> top (V None s) A <> None.
Proof. intros [[I _ _] _ _ _]. apply (i_busy _ _ _ I). by simpl; rewrite Hdo. Qed.

Lemma same_need X X' : same_txn X X' -> need_reply X' = need_reply X.
Proof. intros [Ec _ _ _]. by destruct (call_eq _ _ Ec) as (_ & _ & _ & _ & _ & ?). Qed.

Lemma holding_hush stk t X s s' : holding stk t X s -> hush None s s' -> exists X', holding stk t X' s' /\ same_txn X X'.
Proof.
  intros H K. pose proof (holding_alive _ _ _ _ H) as HA. destruct H as [HG HL HX HS].
  destruct (hush_txn_at _ _ _ _ _ K HX) as (X' & HX' & HSX). exists X'. split; [|done]. split.
  - rewrite (same_need _ _ HSX). eapply good_hush; [exact HG|exact K|apply awake_None].
  - by eapply loose_hush.
  - done.
  - eapply servable_calm; [|exact HA|exact HS]. eapply view_calm; [apply HG|apply K|apply K|apply awake_None].
Qed.

(** What the buffer of the transaction says. *)
Lemma holding_unread stk t X s p b al B : holding stk t X s -> t_buffer X = Some (p, b) -> allocs s !! p = Some al -> store al !! b = Some B ->
  (need_reply X = true -> target_node B <> None) /\
  (need_reply X = false -> t_from X = None /\ (one_way (t_flags X) = true \/ target_node B = None /\ security_ctx X = 0)) /\
  (need_reply X = true -> one_way (t_flags X) = false).
Proof.
  intros [HG [_ Hm] HX _] Hb Hal HB. pose proof (g_links _ _ _ _ _ _ _ _ _ HG) as L.
  destruct (l_unread _ _ _ _ _ L t X b B) as (_ & H1 & H2); [by right; right|done|by exists p, al|]. split; [done|]. split.
  - intros Hn. pose proof (l_from _ _ _ _ _ L t X HX Hn Hm) as Hf. auto.
  - intros Hn. apply (l_flags _ _ _ _ _ L t X HX). by left.
Qed.

(** The reader is done with the list for now. *)
Lemma idle_good hand ex lex stk s : G hand ex lex stk None s -> good (fupd A Idle doing) making drafts hand ex lex stk None s.
Proof.
  intros HG. apply good_set_doing; [done|]. pose proof HG as [I _ _]. apply inv_set_doing; try done.
  - apply not_true_iff_false. intros Hw. destruct (i_wait _ _ _ I A Hw) as [Hd _]. simpl in Hd. congruence.
  - simpl. rewrite Hdo. by intros (? & ? & ?).
  - by intros (? & ? & ?).
  - split; try done. by intros [?|?].
Qed.

(** Handing over. *)
Lemma hand_over_good stk t X s u s' reply : loose making t s -> transactions s !! t = Some X -> servable stk (V None s) A t ->
  G None None None stk (if need_reply X then Some t else None) s ->
  (negb reply && negb (one_way (t_flags X)) = need_reply X) ->
  hand_over A t reply s = Some (u, s') -> exists stk', good (fupd A Idle doing) making drafts None None None stk' None s'.
Proof.
  intros HL HX HS HG Hr H. unfold hand_over in H. apply bind_Some in H as (X' & s1 & [-> HX']%txn_at_inv & H).
  assert (X' = X) as -> by congruence. clear HX'. rewrite Hr in H. destruct (need_reply X) eqn:Hn.
  - apply bind_Some in H as (T & s1 & [-> HT]%d_thread_inv & H). unfold put_txn in H. apply bind_Some in H as (? & s1 & [= <- <-] & H).
    apply in_graph_inv in H as (g & Hg & ->). unfold put_thread_at in Hg. mrun.
    pose proof (view_tx doing making drafts None s t X HX) as HV. assert (Hsy : sync (call_of X) = true) by done. destruct HS as [Sd Sh Sr].
    destruct (Sd _ HV Hsy) as [Hd Hsv]. eexists.
    apply (serve_good doing making drafts stk s A w t X T HG HX HT Hdo Hd Hsv); [intros v Hv; by eapply Sh|intros x Y; by eapply Sr].
  - exists stk. pose proof (tear_good doing making drafts None None stk None t X s HG ltac:(by left) HX Hn HL) as G1.
    destruct (free_good doing making drafts _ _ _ _ _ _ _ G1 H) as [G2 _]. by apply idle_good.
Qed.
Lemma held_node stk t X s : holding stk t X s -> need_reply X = true -> forall b B, buffer_of s X b B -> target_node B <> None.
Proof. intros HH Hn b B (p & al & Hb & Hal & HB). by apply (holding_unread _ _ _ _ p b al B HH). Qed.

Lemma cleanup_held stk t X s u s' z : holding stk t X s -> binder_cleanup_transaction E t z s = Some (u, s') ->
  exists stk', G None None None stk' None s'.
Proof.
  intros HH H. pose proof HH as [HG HL HX _].
  destruct (cleanup_good doing making drafts E (Some t) None stk _ t X s u s' z HG ltac:(by left) HX) as [stk' G']; [|by eapply held_node|done|].
  - by destruct (need_reply X).
  - exists stk'. by apply (hand_good doing making drafts (Some t)).
Qed.

(** The error path: the buffer forgets the transaction first. *)
Lemma forget_cleanup_held stk t X s b u s1 u' s' z : holding stk t X s -> t_buffer X = Some b -> upd_buf b (set_transaction None) s = Some (u, s1) ->
  binder_cleanup_transaction E t z s1 = Some (u', s') -> exists stk', G None None None stk' None s'.
Proof.
  intros HH Hb H1 H. pose proof HH as [HG HL HX _]. pose proof (loosen_good doing making drafts _ _ _ _ _ _ _ HG HX) as G0.
  destruct (forget_good doing making drafts (Some t) None stk _ t X b s u s1 (set_transaction None) ltac:(intros ? ? [=]) G0 HX Hb H1) as (G1 & Eg & Et).
  destruct (cleanup_good doing making drafts E (Some t) (Some t) stk _ t X s1 u' s' z G1 ltac:(by right)) as [stk' G'];
    [congruence| | |done|exists stk'; by apply (hand_good doing making drafts (Some t))].
  - assert (HL1 : loose making t s1) by (unfold loose; by rewrite Eg). by destruct (need_reply X).
  - intros Hn b' B' (p & al & Hb' & Hal & HB). apply upd_buf_inv in H1 as (al0 & B0 & Hal0 & HB0 & ->). assert (b = (p, b')) as -> by congruence.
    simpl in *. rewrite lookup_insert_eq in Hal. injection Hal as <-. simpl in HB. rewrite lookup_insert_eq in HB. injection HB as <-. simpl.
    eapply (held_node _ _ _ _ HH Hn b'). by exists p, al0.
Qed.

(** Every way a delivery ends. *)
Definition round_good (r : round) (s : driver) : Prop := exists stk, match r with
  | Continue _ => G None None None stk None s
  | _ => good (fupd A Idle doing) making drafts None None None stk None s
  end.

Lemma round_idle r stk s : G None None None stk None s -> round_good r s.
Proof. intros HG. exists stk. destruct r; [done|by apply idle_good..]. Qed.

Lemma holding_released stk t X s s1 o u s' : holding stk t X s -> hush None s s1 -> opt (binder_thread_dec_tmpref E) o s1 = Some (u, s') ->
  exists X', holding stk t X' s' /\ same_txn X X'.
Proof.
  intros HH K H. apply (holding_hush _ _ _ _ _ HH). etrans; [exact K|]. eapply (hush_opt None); [intros y; apply (hush_thread_dec None)|exact H].
Qed.

Lemma deliver_good stk t X s put_user ptr r s' : holding stk t X s -> deliver_transaction E A t put_user ptr s = Some (r, s') -> round_good r s'.
Proof.
  intros HH H. unfold deliver_transaction in H. apply bind_Some in H as (T & s1 & [-> HT]%d_thread_inv & H). cbv zeta in H.
  apply bind_Some in H as (X0 & s1 & [-> HX0]%txn_at_inv & H). assert (X0 = X) as -> by (destruct HH; congruence). clear HX0.
  apply bind_Some in H as (b & s1 & [-> Hb]%deref_inv & H). apply bind_Some in H as (B & s1 & [-> (al & Hal & HB)]%d_buf_inv & H).
  destruct b as [p b]. simpl in Hal, HB. destruct (holding_unread _ _ _ _ _ _ _ _ HH Hb Hal HB) as (U1 & U2 & U3).
  apply bind_Some in H as (node & s1 & H1 & H).
  assert (s1 = s) as ->. { destruct (target_node B); [|by mrun]. apply bind_Some in H1 as (N & s2 & [-> _]%d_node_inv & H1). by mrun. }
  clear H1. apply bind_Some in H as (from & s1 & H1 & H). apply bind_Some in H as (pid & s2 & H2 & H). apply bind_Some in H as (err & s3 & H3 & H).
  assert (K3 : hush None s s3).
  { etrans; [by eapply (hush_get_from None)|]. etrans; [by eapply (hush_sender_pid None)|]. eapply hush_in_txn; [apply kept_apply_fixups|exact H3]. }
  clear H1 H2 H3. destruct (negb (err =? 0)).
  - apply bind_Some in H as (? & s4 & H4 & H). destruct (holding_released _ _ _ _ _ _ _ _ HH K3 H4) as (X4 & HH4 & S4). apply bind_Some in H as (? & s5 & H5 & H).
    apply bind_Some in H as (? & s6 & H6 & H). apply bind_Some in H as (? & s7 & H7 & H). mrun.
    destruct (forget_cleanup_held _ _ _ _ _ _ _ _ _ _ HH4 ltac:(by rewrite (sx_buffer _ _ S4)) H5 H6) as [stk6 G6].
    eapply round_idle. eapply free_buf_good; [exact G6|exact H7].
  - destruct (negb (put_user ptr) || negb (put_user (ptr + 4))).
    + apply bind_Some in H as (? & s4 & H4 & H). destruct (holding_released _ _ _ _ _ _ _ _ HH K3 H4) as (X4 & HH4 & S4). apply bind_Some in H as (? & s5 & H5 & H). mrun.
      destruct (cleanup_held _ _ _ _ _ _ _ HH4 H5) as [stk5 G5]. by eapply round_idle.
    + apply bind_Some in H as (? & s4 & H4 & H). destruct (holding_released _ _ _ _ _ _ _ _ HH K3 H4) as (X4 & HH4 & S4). apply bind_Some in H as (? & s5 & H5 & H).
      apply bind_Some in H as (? & s6 & H6 & H). mrun.
      destruct HH4 as [HG4 HL4 HX4 HS4]. pose proof S4 as [E4 EB EF EC]. destruct (call_eq _ _ E4) as (E5 & _ & _ & _ & _ & EN).
      destruct (userfree_good doing making drafts stk _ s4 t X4 (p, b) _ s5 HG4 HL4 HX4 ltac:(congruence) H5) as (G5 & Eg & Et).
      assert (HL5 : loose making t s5) by (unfold loose; by rewrite Eg).
      assert (HS5 : servable stk (V None s5) A t) by (unfold view, live; by rewrite Eg, Et).
      assert (HX5 : transactions s5 !! t = Some X4) by congruence.
      eapply hand_over_good in H6 as [stk6 G6]; [by exists stk6|exact HL5|exact HX5|exact HS5|exact G5|].
      rewrite EN, EF. destruct (need_reply X).
      * rewrite (U3 eq_refl). by rewrite bool_decide_false by auto.
      * destruct (U2 eq_refl) as (_ & [-> |[-> ->]]); [apply andb_false_r|done].
Qed.
(** ** A round *)

Lemma cleared_good hand ex lex stk lim s g : G hand ex lex stk lim s -> cleared A (graph s) g ->
  G hand ex lex stk lim (set_d_graph g s) /\ calm (V ex s) (V ex (set_d_graph g s)).
Proof.
  intros HG [->|(T & HT & Hq & ->)]; [|by eapply clear_good]. rewrite set_own_graph. split; [done|apply calm_refl].
Qed.

Lemma taken_good stk s l t g o : G None None None stk None s -> read_list A w (graph s) = Some (Some l, o) ->
  head (queue l (graph s)) = Some (WTransaction t) -> cleared A (without (WTransaction t) (graph s)) g ->
  exists X, holding stk t X (set_d_graph g s).
Proof.
  intros HG [_ (T & HT & Hl)]%read_list_inv Hh HC. pose proof (head_item _ _ _ Hh) as Ht. pose proof HG as [I _ _].
  assert (Hi : t ∈ items (V None s) l) by by rewrite items_view.
  destruct (i_item _ _ _ I t _ Hi) as (Y & HY & _). destruct (view_tx_inv _ _ _ _ _ _ _ HY) as (X & HX & ->).
  destruct (take_good doing making drafts _ _ _ s t X _ HG HX Ht) as (G1 & L1 & C1).
  change (set_works (list_del (WTransaction t) <$> works (graph s)) (graph s)) with (without (WTransaction t) (graph s)) in *.
  set (s1 := set_d_graph (without (WTransaction t) (graph s)) s) in *.
  destruct (cleared_good _ _ _ _ _ s1 g G1 HC) as [G2 C2]. change (set_d_graph g s1) with (set_d_graph g s) in *.
  assert (HA : top (V None s1) A <> None) by (apply (i_busy _ _ _ (g_calls _ _ _ _ _ _ _ _ _ G1)); simpl; by rewrite Hdo).
  exists X. split; [done| |exact HX|].
  - destruct L1 as [L1 Lm]. split; [|done]. intros l' Hin. apply (L1 l'). destruct HC as [->|(T' & _ & _ & ->)]; exact Hin.
  - eapply servable_calm; [exact C2|exact HA|]. eapply servable_calm; [exact C1|by rewrite <- (ca_top _ _ C1)|].
    eapply (servable_taken stk (V None s) A t l w I Hdo); [by apply head_txn|]. destruct Hl as [?|(El & Hq & Hw)]; [by left|right].
    split; [|split; [exact (f_equal (fmap txn_of) Hq)|done]]. simpl. by rewrite HT.
Qed.

Lemma hush_read_error cmd reset x put_user ptr : (forall T, same_thread T (reset T)) -> keeps (hush None) (read_error cmd reset x put_user ptr).
Proof.
  intros Hr s r s' H. unfold read_error in H. apply bind_Some in H as (? & s1 & H1 & H).
  assert (K1 : hush None s s1) by (eapply hush_in_graph; [apply keeps_warn|exact H1]). destruct (negb (put_user ptr)); [by mrun|].
  apply bind_Some in H as (? & s2 & H2 & H). mrun. etrans; [exact K1|]. by eapply (hush_upd_thread None).
Qed.

Lemma hush_read_item x put_user ptr s r s' : txn_of x = None -> read_item E A x put_user ptr s = Some (r, s') -> hush None s s'.
Proof.
  intros Hx H. destruct x as [t|c|y|y|n|d]; simpl in *; try done.
  - apply bind_Some in H as (? & s1 & H1 & H). mrun. eapply hush_in_graph; [apply keeps_deleted|exact H1].
  - apply bind_Some in H as (T & s1 & [-> _]%d_thread_inv & H). by eapply hush_read_error in H.
  - apply bind_Some in H as (T & s1 & [-> _]%d_thread_inv & H). by eapply hush_read_error in H.
Qed.

Lemma read_round_good stk s put_node put_user size ptr r s' : G None None None stk None s ->
  read_round E A w put_node put_user size ptr s = Some (r, s') -> round_good r s'.
Proof.
  intros HG H. unfold read_round in H. apply bind_Some in H as (o & s1 & (g & H1 & ->)%in_graph_inv & H).
  assert (g = graph s) as -> by by apply reads_read_list in H1. rewrite set_own_graph in H. destruct o as [l|].
  - destruct (_ <? _); [mrun; by eapply round_idle|]. apply bind_Some in H as (rr & s2 & (g2 & H2 & ->)%in_graph_inv & H).
    apply read_work_inv in H2 as [[-> ->]|(l' & x & g1 & Hl & Hh & HC & Hx)]; [done|].
    destruct (txn_of x) as [t|] eqn:Et.
    + assert (Ex : x = WTransaction t) by (destruct x; simpl in Et; congruence). subst x. destruct Hx as [-> ->].
      destruct (taken_good _ _ _ _ _ _ HG Hl Hh HC) as [X HH]. by eapply deliver_good.
    + assert (G1 : G None None None stk None (set_d_graph g1 s)).
      { assert (G0 : G None None None stk None (set_d_graph (without x (graph s)) s)) by (eapply good_hush; [exact HG|by apply hush_without|apply awake_None]).
        apply (cleared_good _ _ _ _ _ _ g1 G0 HC). }
      destruct (graph_item x) eqn:Eg.
      * destruct Hx as [Q Hr]. assert (G2 : G None None None stk None (set_d_graph g2 s)).
        { eapply good_hush; [exact G1| |apply awake_None]. by apply (hush_graph None g2 (set_d_graph g1 s)). }
        destruct rr as [|[err out]|[c k]|y]; [done|mrun; by eapply round_idle|mrun; by eapply round_idle|by destruct (Hr y)].
      * destruct Hx as [-> ->]. eapply round_idle. eapply good_hush; [exact G1| |apply awake_None]. eapply hush_read_item; [exact Et|exact H].
  - apply bind_Some in H as (T & s2 & [-> _]%d_thread_inv & H). mrun. by eapply round_idle.
Qed.
End read.
