(* ===== verification/BinderTxnTarget.v ===== *)
(** * Whom a transaction is for

    The start of [binder_transaction]: a reply takes the call off its
    sender's stack and finds the caller, a call finds its process and, when it
    is made inside others, the thread of that process that waits there. *)

From Stdlib Require Import ZArith Lia.
From stdpp Require Import base option gmap sets list.
From S2P Require Import Prelude RbTree BinderAlloc BinderNode BinderTranslate BinderObjects BinderTxn BinderCalls.
From S2P Require Import BinderFrame BinderFrameAlloc BinderTxnView BinderTxnHush BinderTxnOps BinderTxnDeliver BinderTxnBuf.

(** The thread is there, and not on its way out. *)
Definition alive (A : nat) (s : driver) : Prop := exists T, threads (graph s) !! A = Some T /\ thread_is_dead T = false.

(** A call inside which none was made is on top of the stacks it is on. *)
Lemma tip_on_top stk lim c f r : inv stk lim c -> childless c r -> r ∈ stk f -> top c f = Some (Some r).
Proof.
  intros I Hc Hr. destruct (top c f) as [o|] eqn:Ho.
  - destruct (stack_tip c f o (stk f) r (i_stack _ _ _ I f o Ho) Hc Hr) as [-> _]. done.
  - rewrite (i_dead _ _ _ I f Ho) in Hr. by apply not_elem_of_nil in Hr.
Qed.

Section target.
Context (doing : nat -> activity) (making : nat -> option nat) (drafts : nat -> call).
Context `{RB : Rbtree} (E : driver_env).
Local Abbreviation V := (view doing making drafts).
Local Abbreviation G := (good doing making drafts).

Lemma alive_top ex s A : alive A s <-> top (V ex s) A <> None.
Proof.
  unfold alive. simpl. destruct (threads (graph s) !! A) as [T|].
  - destruct (thread_is_dead T) eqn:HD; split; try done; [intros (T' & [= <-] & HD'); congruence|intros _; by exists T].
  - split; [by intros (T & ? & _)|done].
Qed.

(** ** Replies *)

(** The call leaves its server's stack. *)
Lemma unserve_good s A T r X stk : G None None None stk None s -> doing A = Idle -> threads (graph s) !! A = Some T -> thread_is_dead T = false ->
  transaction_stack T = Some r -> transactions s !! r = Some X -> to_thread X = Some A ->
  exists stk', good (fupd A (Replying r (t_from X)) doing) making drafts None None None stk' None
    (set_d_graph (set_threads (<[A := set_stack (to_parent X) T]> (threads (graph s))) (graph s)) s).
Proof.
  intros [I W L] Hd HT HD Hst HX Hto. pose proof (view_tx doing making drafts None s r X HX) as HV.
  assert (Ho : top (V None s) A = Some (Some r)) by (simpl; by rewrite HT, HD, Hst).
  pose proof (stack_head _ _ _ _ (i_stack _ _ _ I A _ Ho)) as Hh. destruct (stk A) as [|r' l] eqn:Es; [done|]. injection Hh as ->.
  exists (fupd A l stk). split.
  - eapply inv_calm; [apply (inv_reply stk (V None s) A r (call_of X) l I Hd ltac:(by rewrite Ho) Es HV Hto)|]. apply calm_eq; try done.
    + intros B. simpl. rewrite lookup_insert. unfold fupd. case_decide as EB; [subst B; rewrite decide_True by done; simpl; by rewrite HD|].
      by rewrite decide_False by (by intros ->).
    + intros B. simpl. rewrite lookup_insert. case_decide as EB; [|done]. subst B. by rewrite HT.
    + intros B. simpl. rewrite lookup_insert. case_decide as EB; [|done]. subst B. by rewrite HT.
    + intros B. simpl. rewrite lookup_insert. case_decide as EB; [|done]. subst B. by rewrite HT.
  - intros p. destruct (W p) as [Hnd Hp]. split; [done|]. intros B HB. destruct (Hp B HB) as (TB & HTB & Ep). simpl. rewrite lookup_insert.
    case_decide as EB; [|by exists TB]. subst B. eexists. split; [done|]. simpl. congruence.
  - by destruct L.
Qed.

Definition reply_ready (A : nat) (e : option txn_error) (tg : txn_target) (s : driver) : Prop :=
  match e, tg with
  | Some _, Target None None None None => exists stk, G None None None stk None s
  | Some _, Target (Some r) None None None => exists stk, good (fupd A (Replying r None) doing) making drafts None None None stk None s
  | None, Target (Some r) (Some f) (Some p) None =>
    exists stk, good (fupd A (Replying r (Some f)) doing) making drafts None None None stk None s
  | _, _ => False
  end.

Lemma reply_target_good stk A s e tg s' : G None None None stk None s -> doing A = Idle -> alive A s ->
  reply_target E A s = Some ((e, tg), s') -> reply_ready A e tg s'.
Proof.
  intros HG Hd (T0 & HT0 & HD) H. unfold reply_target in H. apply bind_Some in H as (T & s1 & [-> HT]%d_thread_inv & H).
  assert (T0 = T) as -> by congruence. destruct (transaction_stack T) as [r|] eqn:Hst; [|mrun; by exists stk].
  apply bind_Some in H as (X & s1 & [-> HX]%txn_at_inv & H). case_bool_decide as Hto; simpl in H; [|mrun; by exists stk].
  apply bind_Some in H as (? & s1 & (g & Hg & ->)%in_graph_inv & H). unfold put_thread_at in Hg. revert H. mrun. intros H.
  destruct (unserve_good _ _ _ _ _ _ HG Hd HT HD Hst HX Hto) as [stk' G1]. set (s1 := set_d_graph _ s) in *.
  apply bind_Some in H as (from & s2' & H2 & H).
  destruct (get_from_inv _ _ _ _ _ H2) as (X' & HX' & Ho & ET). assert (X' = X) as -> by (simpl in HX'; congruence). clear HX'.
  pose proof (good_hush _ _ _ None _ _ _ _ _ _ _ G1 (hush_get_from_acq None E r _ _ _ H2) (awake_None _ _ _ _)) as G2.
  destruct from as [f|]; [|mrun; rewrite <- Ho in G2; by exists stk']. rewrite <- Ho in G2.
  apply bind_Some in H as (F & s3 & [-> HF]%d_thread_inv & H).
  assert (Hd2 : fupd A (Replying r (Some f)) doing A = Replying r (Some f)) by (unfold fupd; by rewrite decide_True).
  pose proof G2 as [I2 _ _]. pose proof (replying_childless _ _ _ A r (Some f) I2 Hd2) as Hc.
  destruct (i_replying _ _ _ I2 A r (Some f) Hd2) as (Y & HY & HsY & _).
  assert (HVY : tx (view (fupd A (Replying r (Some f)) doing) making drafts None s2') !! r = Some (call_of X)).
  { simpl. rewrite lookup_fmap, ET. simpl. by rewrite HX. }
  assert (Y = call_of X) as -> by congruence.
  pose proof (i_called _ _ _ I2 r _ f HVY HsY (eq_sym Ho)) as Hi. pose proof (tip_on_top _ _ _ f r I2 Hc Hi) as Htop.
  destruct (top_thread _ _ _ _ _ _ _ Htop) as (F' & HF' & _ & EF). assert (F' = F) as -> by congruence.
  rewrite EF, bool_decide_true in H by done. simpl in H. apply bind_Some in H as (? & s4 & H4 & H). mrun.
  exists stk'. eapply good_hush; [exact G2|eapply (hush_proc_inc None); exact H4|apply awake_None].
Qed.
(** ** Calls *)

Lemma waiting_caller_found fuel tp t0 s f s' : waiting_caller fuel tp (Some t0) s = Some (Some f, s') ->
  exists t X F, (t = t0 \/ inside (V None s) t0 t) /\ transactions s !! t = Some X /\ t_from X = Some f /\
    threads (graph s) !! f = Some F /\ thread_proc F = tp.
Proof.
  revert t0. induction fuel as [|fuel IH]; intros t0 H; [done|]. simpl in H. apply bind_Some in H as (X & s1 & [-> HX]%txn_at_inv & H).
  assert (Hup : forall o, o = from_parent X -> waiting_caller fuel tp o s = Some (Some f, s') ->
    exists t X F, (t = t0 \/ inside (V None s) t0 t) /\ transactions s !! t = Some X /\ t_from X = Some f /\
      threads (graph s) !! f = Some F /\ thread_proc F = tp).
  { intros [p|] Ep H'; [|destruct fuel; [done|simpl in H'; by mrun]]. destruct (IH p H') as (t & Y & F & Ht & HY & Hf & HF & Hp). exists t, Y, F.
    split; [|done]. right. assert (Hpar : parent_of (V None s) t0 p) by (exists (call_of X); split; [by apply view_tx|done]).
    destruct Ht as [->|Ht]; [by apply tc_once|by eapply tc_l]. }
  destruct (t_from X) as [g|] eqn:Hf; [|by eapply Hup]. apply bind_Some in H as (F & s1 & [-> HF]%d_thread_inv & H).
  case_decide as Ep; [|by eapply Hup]. apply bind_Some in H as (? & s1 & _ & H). injection H as -> _. exists t0, X, F. split_and!; try done. by left.
Qed.

(** The caller found waits inside the call on top of its own stack, and the
    new call will be made inside that. *)
Lemma waiting_caller_fit stk A u f s t X F : G None None None stk None s -> head (stk A) = Some u -> incoming (V None s) A u -> top (V None s) A <> None ->
  (t = u \/ inside (V None s) u t) -> transactions s !! t = Some X -> t_from X = Some f -> threads (graph s) !! f = Some F ->
  thread_proc F <> home (V None s) A -> top (V None s) f <> None ->
  exists v, head (stk f) = Some v /\ outgoing (V None s) f v /\ (u = v \/ inside (V None s) u v).
Proof.
  intros [I _ _] Hu Hin HA Ht HX Hf HF Hp Hal. pose proof (view_tx doing making drafts None s t X HX) as HV.
  pose proof (top_childless _ _ _ A u I HA Hu Hin) as Hcu.
  assert (Hs : sync (call_of X) = true).
  { destruct Ht as [->|Ht]; [destruct Hin as (Y & HY & Hs & _); congruence|].
    destruct (inside_last _ _ _ Ht) as (w & Hw & _). destruct (parent_sync _ _ _ _ _ I Hw) as [_ (Y & HY & Hs)]. congruence. }
  pose proof (i_called _ _ _ I t _ f HV Hs Hf) as Hi. destruct (top (V None s) f) as [o|] eqn:Ho; [|done].
  pose proof (i_stack _ _ _ I f o Ho) as Hst. destruct (stk f) as [|v l] eqn:Es; [by apply not_elem_of_nil in Hi|].
  pose proof (stack_head _ _ _ _ Hst) as Eo. simpl in Eo. subst o.
  assert (Hvt : v = t \/ inside (V None s) v t).
  { apply elem_of_cons in Hi as [->|Hi]; [by left|right]. by eapply stack_inside. }
  assert (Huv : u = v \/ inside (V None s) u v).
  { destruct Ht as [->|Ht], Hvt as [->|Hvt]; [by left|by destruct (inside_child _ _ _ Hvt) as [w Hw]; destruct (Hcu w)|by right|].
    destruct (inside_chain _ _ _ u v t I Ht Hvt) as [?|[?|Hvu]]; [by left|by right|]. by destruct (inside_child _ _ _ Hvu) as [w Hw]; destruct (Hcu w). }
  exists v. split; [done|]. split; [|done]. destruct (stack_role _ _ _ _ v Hst ltac:(left)) as [Hin'|]; [|done]. exfalso.
  destruct Huv as [E'|Huv].
  - subst v. destruct Hin as (Y & HY & _ & HsA & _), Hin' as (Y' & HY' & _ & HsF & _). assert (f = A) as -> by congruence.
    apply Hp. simpl. by rewrite HF.
  - destruct (inside_child _ _ _ Huv) as [w Hw].
    assert (Hhf : head (stk f) = Some v) by by rewrite Es. by destruct (top_childless _ _ _ f v I ltac:(by rewrite Ho) Hhf Hin' w).
Qed.
Lemma handle_target_inv p h s e tg s' : handle_target p h s = Some ((e, tg), s') ->
  tg = no_target \/ exists tp n, tg = Target None None (Some tp) (Some n).
Proof.
  unfold handle_target. cbv zeta. intros H.
  assert (Hon : forall n s0, (let! tp := in_graph (binder_get_node_refs_for_txn n) in
      ret (match tp with Some tp => (0, Target None None (Some tp) (Some n)) | None => (BR_DEAD_REPLY, no_target) end)) s0 = Some ((e, tg), s') ->
    tg = no_target \/ exists tp n, tg = Target None None (Some tp) (Some n)).
  { intros n s0 H0. apply bind_Some in H0 as (o & s1 & _ & H0). injection H0 as H0 _. destruct o as [tp|]; injection H0 as _ <-; [right; by exists tp, n|by left]. }
  destruct (negb (h =? 0)).
  - apply bind_Some in H as (o & s1 & _ & H). destruct o as [r|]; [|mrun; by left]. apply bind_Some in H as (R & s2 & _ & H).
    apply bind_Some in H as (n & s3 & _ & H). by eapply Hon.
  - apply bind_Some in H as (P & s1 & _ & H). apply bind_Some in H as (s2 & s3 & _ & H).
    destruct (binder_context_mgr_node (graph s2) !! proc_context P) as [n|]; [by eapply Hon|mrun; by left].
Qed.

(** What the sender turns to. *)
Definition sending (tr : binder_transaction_data) (tg : txn_target) : activity :=
  match tg_reply_to tg, tg_proc tg with
  | Some r, _ => Replying r (tg_thread tg)
  | None, Some tp => if one_way (tr_flags tr) then Posting else Calling tp (tg_thread tg)
  | None, None => Idle
  end.

Definition call_ready (A : nat) (tr : binder_transaction_data) (e : option txn_error) (tg : txn_target) (s : driver) : Prop :=
  tg_reply_to tg = None /\ match e with
  | Some _ => exists stk, G None None None stk None s
  | None => exists tp n f stk, tg = Target None f (Some tp) (Some n) /\ (one_way (tr_flags tr) = true -> f = None) /\
      good (fupd A (sending tr tg) doing) making drafts None None None stk None s
  end.

(** Sections that change nothing before a sender turns to its call. *)
Lemma turn_good stk lim s A d : G None None None stk lim s -> doing A = Idle -> ~ is_replying d -> fit stk (V None s) A d ->
  good (fupd A d doing) making drafts None None None stk lim s.
Proof.
  intros HG Hd Hr Hf. apply good_set_doing; [done|]. apply inv_set_doing; try done; [apply HG| |].
  - apply not_true_iff_false. intros Hw. destruct (i_wait _ _ _ (g_calls _ _ _ _ _ _ _ _ _ HG) A Hw) as [E' _]. simpl in E'. congruence.
  - simpl. rewrite Hd. by intros (? & ? & ?).
Qed.

Lemma fit_posting stk s A : alive A s -> fit stk (V None s) A Posting.
Proof. intros HA. split; try done; [intros _; by apply alive_top|by intros [?|?]]. Qed.

(** The sender of a call has nothing unread that any thread could take. *)
Lemma no_selected stk s A : G None None None stk None s -> alive A s ->
  default false (is_transaction <$> head (queue (thread_todo A) (graph s))) = false ->
  forall t X, t ∈ items (V None s) (thread_todo A) -> tx (V None s) !! t = Some X -> server X <> None.
Proof.
  intros HG HA Hq t X Hi HX Hv. destruct (i_selected _ _ _ (g_calls _ _ _ _ _ _ _ _ _ HG) A t X ltac:(by apply alive_top) Hi HX Hv) as [_ Hh].
  simpl in Hh. destruct (queue (thread_todo A) (graph s)) as [|w q]; [done|]. injection Hh as Hh. destruct w; simpl in *; congruence.
Qed.
Lemma alive_hush me s s' A T : hush me s s' -> threads (graph s) !! A = Some T -> thread_is_dead T = false ->
  exists T', threads (graph s') !! A = Some T' /\ thread_is_dead T' = false /\ same_thread T T'.
Proof.
  intros [Q _ _] HT HD. destruct (q_thread _ _ _ Q A T HT) as [(T' & HT' & S)|(_ & HD' & _)]; [|congruence].
  exists T'. split; [done|]. split; [|done]. by rewrite (st_dead _ _ S).
Qed.

Lemma fit_calling stk s A T tp f : G None None None stk None s -> threads (graph s) !! A = Some T -> thread_is_dead T = false ->
  thread_proc T <> tp -> default false (is_transaction <$> head (queue (thread_todo A) (graph s))) = false ->
  (forall u, transaction_stack T = Some u -> exists X, transactions s !! u = Some X /\ to_thread X = Some A) ->
  (forall F, f = Some F -> exists u t X FT, transaction_stack T = Some u /\ (t = u \/ inside (V None s) u t) /\ transactions s !! t = Some X /\
    t_from X = Some F /\ threads (graph s) !! F = Some FT /\ thread_proc FT = tp) ->
  fit stk (V None s) A (Calling tp f).
Proof.
  intros HG HT HD Hp Hq Hin Hf. pose proof HG as [I _ _]. assert (HA : top (V None s) A <> None) by (apply alive_top; by exists T).
  assert (Ho : top (V None s) A = Some (transaction_stack T)) by (simpl; by rewrite HT, HD).
  pose proof (stack_head _ _ _ _ (i_stack _ _ _ I A _ Ho)) as Hh. assert (Ehome : home (V None s) A = thread_proc T) by (simpl; by rewrite HT).
  assert (Hinc : forall v, head (stk A) = Some v -> incoming (V None s) A v).
  { intros v Hv. rewrite Hh in Hv. destruct (Hin v Hv) as (X & HX & Hto). pose proof (view_tx doing making drafts None s v X HX) as HV.
    assert (Hi : v ∈ stk A) by (rewrite Hv in Hh; destruct (stk A); [done|]; injection Hh as ->; left).
    destruct (stack_role _ _ _ _ v (i_stack _ _ _ I A _ Ho) Hi) as [?|(Y & HY & _ & _ & Hn)]; [done|]. assert (Y = call_of X) as -> by congruence. by destruct Hn. }
  split; [done|by intros [?|?]|]. intros p0 f0 [= <- <-]. split; [by rewrite Ehome|]. split; [done|]. split; [by eapply no_selected; [|exists T|]|].
  intros F HF HFt. destruct (Hf F HF) as (u & t & X & FT & Hu & Ht & HX & HfX & HFT & HpF).
  assert (Hhu : head (stk A) = Some u) by congruence. split; [simpl; by rewrite HFT|].
  destruct (waiting_caller_fit stk A u F s t X FT HG Hhu (Hinc u Hhu) HA Ht HX HfX HFT) as (v & Hv & Hov & Huv); [rewrite Ehome; congruence|done|].
  exists u, v. done.
Qed.

Lemma call_target_good stk A tr s e tg s' : G None None None stk None s -> doing A = Idle -> alive A s ->
  call_target E A tr s = Some ((e, tg), s') -> call_ready A tr e tg s'.
Proof.
  intros HG Hd (T0 & HT0 & HD0) H. unfold call_target in H. apply bind_Some in H as (T & s1 & [-> HT]%d_thread_inv & H). cbv zeta in H.
  assert (T0 = T) as -> by congruence. clear HT0. apply bind_Some in H as ([err tg0] & s1 & H1 & H).
  pose proof (hush_handle_target None _ _ _ _ _ H1) as K1. pose proof (good_hush _ _ _ None _ _ _ _ _ _ _ HG K1 (awake_None _ _ _ _)) as G1.
  destruct (handle_target_inv _ _ _ _ _ _ H1) as [->|(tp & n & ->)]; cbn [tg_node tg_proc no_target] in H; [mrun; split; [done|by exists stk]|].
  apply bind_Some in H as (P & s2 & [-> _]%d_proc_inv & H). apply bind_Some in H as (TP & s2 & [-> _]%d_proc_inv & H).
  destruct (_ && _); [mrun; split; [done|by exists stk]|]. apply bind_Some in H as (? & s2 & H2 & H).
  assert (K2 : hush None s1 s2) by (eapply hush_in_graph; [apply keeps_warn|exact H2]). clear H2.
  pose proof (good_hush _ _ _ None _ _ _ _ _ _ _ G1 K2 (awake_None _ _ _ _)) as G2.
  case_decide as Hp; [mrun; split; [done|by exists stk]|]. destruct (_ <? 0); [mrun; split; [done|by exists stk]|].
  apply bind_Some in H as (? & ? & [= <- <-] & H).
  destruct (alive_hush None s s2 A T ltac:(by etrans) HT HD0) as (T2 & HT2 & HD2 & S2).
  destruct (negb (one_way (tr_flags tr)) && default false (is_transaction <$> head (queue (thread_todo A) (graph s2)))) eqn:Hq;
    [mrun; split; [done|by exists stk]|].
  apply bind_Some in H as (T3 & s3 & [-> HT3]%d_thread_inv & H). assert (T3 = T2) as -> by congruence. clear HT3.
  assert (Hpt : thread_proc T2 <> tp) by (rewrite (st_proc _ _ S2); done).
  assert (Hpost : one_way (tr_flags tr) = true -> call_ready A tr None (Target None None (Some tp) (Some n)) s2).
  { intros Ho. split; [done|]. exists tp, n, None, stk. split; [done|]. split; [done|]. unfold sending. simpl. rewrite Ho.
    apply turn_good; try done; [by intros (? & ? & ?)|]. apply fit_posting. by exists T2. }
  destruct (transaction_stack T2) as [u|] eqn:Hst.
  - destruct (one_way (tr_flags tr)) eqn:Ho; cbn [negb] in H; [mrun; by apply Hpost|]. simpl in Hq.
    apply bind_Some in H as (X & s3 & [-> HX]%txn_at_inv & H). case_bool_decide as Hto; cbn [negb] in H; [|mrun; split; [done|by exists stk]].
    apply bind_Some in H as (f & s3 & H3 & H). injection H as <- <- <-. pose proof (hush_waiting_caller None _ _ _ _ _ _ H3) as K3.
    split; [done|]. exists tp, n, f, stk. split; [done|]. split; [congruence|]. unfold sending. simpl. rewrite Ho.
    eapply good_hush; [|exact K3|apply awake_None]. apply turn_good; try done; [by intros (? & ? & ?)|].
    eapply fit_calling; try done.
    + intros v Hv. assert (v = u) as -> by congruence. by exists X.
    + intros F ->. destruct (waiting_caller_found _ _ _ _ _ _ H3) as (t & Y & FT & Ht & HY & HfY & HFT & HpF). by exists u, t, Y, FT.
  - injection H as <- <- <-. destruct (one_way (tr_flags tr)) eqn:Ho; [by apply Hpost|]. simpl in Hq. split; [done|]. exists tp, n, None, stk.
    split; [done|]. split; [done|]. unfold sending. simpl. rewrite Ho. apply turn_good; try done; [by intros (? & ? & ?)|].
    eapply fit_calling; try done. intros v Hv. congruence.
Qed.
End target.
