(* ===== verification/BinderTxnDraft.v ===== *)
(** * A transaction being built

    Between its allocation and the point where it is complete, a transaction
    is in no account; then its sender holds it until it is queued, or until
    it is given up. *)

From Stdlib Require Import ZArith Lia.
From stdpp Require Import base option gmap sets list.
From S2P Require Import Prelude RbTree BinderAlloc BinderNode BinderTranslate BinderObjects BinderTxn BinderCalls.
From S2P Require Import BinderFrame BinderFrameAlloc BinderTxnView BinderTxnHush BinderTxnOps BinderTxnDeliver BinderTxnBuf BinderTxnTarget BinderTxnRead.

Section draft.
Context (doing : nat -> activity) (making : nat -> option nat) (drafts : nat -> call).
Context `{RB : Rbtree} (E : driver_env).
Local Abbreviation V := (view doing making drafts).
Local Abbreviation G := (good doing making drafts).
Local Abbreviation awake_ := (awake doing making drafts).

Record drafting (stk : nat -> list nat) (t : nat) (X : binder_transaction) (s : driver) : Prop := Drafting {
  dr_good : G None (Some t) (Some t) stk None s;
  dr_txn : transactions s !! t = Some X;
  dr_loose : loose making t s
}.

Lemma live_put t X s : transactions s !! t = None -> live (Some t) (set_transactions (<[t := X]> (transactions s)) s) = transactions s.
Proof. intros HN. simpl. by rewrite delete_insert_id. Qed.

Lemma fresh_loose stk s t : G None None None stk None s -> transactions s !! t = None -> loose making t s.
Proof.
  intros [I _ _] HN. assert (HV : tx (V None s) !! t = None) by (simpl; by rewrite lookup_fmap, HN). split.
  - intros l Hl. rewrite <- (items_view doing making drafts None) in Hl. destruct (i_item _ _ _ I t l Hl) as (X & HX & _). congruence.
  - intros B HB. destruct (i_making _ _ _ I B t HB) as ([HX _] & _). congruence.
Qed.

(** It comes up with no buffer. *)
Lemma draft_start stk s t X : G None None None stk None s -> transactions s !! t = None -> t_buffer X = None ->
  drafting stk t X (set_transactions (<[t := X]> (transactions s)) s).
Proof.
  intros HG HN Hb. pose proof (fresh_loose _ _ _ HG HN) as HL. destruct HG as [I W L]. set (s' := set_transactions _ s). pose proof (live_put t X s HN) as El.
  split; [|simpl; by rewrite lookup_insert_eq|exact HL]. split; [|exact W|].
  - eapply inv_calm; [exact I|]. apply calm_eq; try done. simpl. by rewrite delete_insert_id.
  - destruct L as [La Lu Lf Lq Lt Lo Lw Ld]. assert (Hne : forall u, u <> t -> transactions s' !! u = transactions s !! u) by (intros u Hu; simpl; by rewrite lookup_insert_ne).
    fold s' in El. split; rewrite ?El; try done.
    + intros v Xv u Y p b [= <-] HXv _ Hb'. simpl in HXv. rewrite lookup_insert_eq in HXv. congruence.
    + intros p al b B u Hal HB HT. destruct (Lw p al b B u Hal HB HT) as (Y & HY & Hb'). exists Y. rewrite Hne; [done|]. intros ->. congruence.
    + intros u Y HY Hb'. destruct (decide (u = t)) as [->|Hu]; [simpl in HY; rewrite lookup_insert_eq in HY; congruence|]. rewrite Hne in HY by done. by apply (Ld u Y).
Qed.

Lemma draft_hush me stk t X s s' : drafting stk t X s -> hush me s s' -> awake_ s me ->
  exists X', drafting stk t X' s' /\ same_txn X X' /\ awake_ s' me.
Proof.
  intros [HG HX HL] K Ha. destruct (hush_txn_at _ _ _ _ _ K HX) as (X' & HX' & HS). exists X'. split; [|split; [done|by eapply awake_hush]].
  split; [by eapply good_hush|done|by eapply loose_hush].
Qed.

Lemma draft_ownerless stk t X s : drafting stk t X s -> t_buffer X = None -> ownerless t s.
Proof.
  intros [HG HX _] Hb p al b B Hal HB HT. destruct (l_owner _ _ _ _ _ (g_links _ _ _ _ _ _ _ _ _ HG) p al b B t Hal HB HT) as (Y & HY & Hb'). congruence.
Qed.

(** Its fields are assigned. *)
Lemma draft_set f stk t X s u s' : drafting stk t X s -> upd_txn t f s = Some (u, s') ->
  (t_buffer (f X) = t_buffer X \/ t_buffer X = None) -> (t_buffer (f X) <> None -> to_proc (f X) <> None) ->
  (forall p b u Y, t_buffer (f X) = Some (p, b) -> live (Some t) s !! u = Some Y -> t_buffer Y = Some (p, b) -> allocs s !! p = None) ->
  drafting stk t (f X) s' /\ graph s' = graph s /\ allocs s' = allocs s.
Proof.
  intros HD H Hb Hp Hno. pose proof (draft_ownerless _ _ _ _ HD) as HO. pose proof HD as [[I W L] HX HL].
  unfold upd_txn in H. apply bind_Some in H as (X0 & s1 & [-> HX0]%txn_at_inv & H). assert (X0 = X) as -> by congruence. unfold put_txn in H. mrun.
  set (s' := set_transactions _ s). split; [|done]. assert (El : live (Some t) s' = live (Some t) s) by (simpl; by rewrite delete_insert_eq).
  assert (Hne : forall v, v <> t -> transactions s' !! v = transactions s !! v) by (intros v Hv; simpl; by rewrite lookup_insert_ne).
  assert (Ht : transactions s' !! t = Some (f X)) by (simpl; by rewrite lookup_insert_eq).
  split; [|done|exact HL]. split; [|exact W|].
  - eapply inv_calm; [exact I|]. apply calm_eq; try done. simpl. by rewrite delete_insert_eq.
  - destruct L as [La Lu Lf Lq Lt Lo Lw Ld]. split; rewrite ?El; try done.
    + intros v Xv w Y p b [= <-] HXv HY Hb1 Hb2. rewrite Ht in HXv. injection HXv as <-. by apply (Hno p b w Y).
    + intros p al b B v Hal HB HT. destruct (Lw p al b B v Hal HB HT) as (Y & HY & HbY). destruct (decide (v = t)) as [->|Hv]; [|by exists Y; rewrite Hne].
      exists (f X). split; [done|]. destruct Hb as [->|HN]; [congruence|]. by destruct (HO HN p al b B).
    + intros v Y HY HbY. destruct (decide (v = t)) as [->|Hv]; [rewrite Ht in HY; injection HY as <-; auto|]. rewrite Hne in HY by done. by apply (Ld v Y).
Qed.

(** It is given up. *)
Lemma draft_undo stk t X s c u s' : drafting stk t X s -> ownerless t s -> undo_txn t c s = Some (u, s') -> G None None None stk None s'.
Proof.
  intros HD HO H. unfold undo_txn in H. apply bind_Some in H as (? & s1 & H1 & H). apply bind_Some in H as (? & s2 & [= <- <-] & H).
  assert (K1 : hush None s s1) by (destruct c; [eapply hush_in_graph; [apply keeps_deleted|exact H1]|by mrun]).
  destruct (draft_hush None _ _ _ _ _ HD K1 (awake_None _ _ _ _)) as (X1 & [[I W L] HX1 HL1] & _ & _).
  assert (HO1 : ownerless t s1).
  { intros p al b B Hal HB HT. destruct K1 as [_ _ KA]. destruct (KA p al Hal) as (al0 & Hal0 & [_ _ KL]). destruct (KL b B t HB HT) as (B0 & HB0 & HT0).
    by apply (HO p al0 b B0). }
  set (s2 := set_transactions _ s1) in H.
  assert (G2 : G None None None stk None s2).
  { split; [exact I|exact W|]. destruct L as [La Lu Lf Lq Lt Lo Lw Ld]. split; try done.
    - intros p al b B v Hal HB HT. destruct (Lw p al b B v Hal HB HT) as (Y & HY & Hb). exists Y. split; [|done]. simpl. rewrite lookup_delete_ne; [done|].
      intros <-. by apply (HO1 p al b B).
    - intros v Y HY. apply (Ld v Y). simpl in HY. by apply lookup_delete_Some in HY as [_ ?]. }
  eapply (hush_good0 doing making drafts _ _ _ _ _ _ _ _ _ (hush_in_graph None _ (keeps_deleted None _)) H G2).
Qed.
(** ** Its buffer *)

(** The structure [kzalloc] returns is nobody's. *)
Definition fresh_buffer (n : option nat) (s : driver) : Prop :=
  forall c p al, n = Some c -> allocs s !! p = Some al -> store al !! c = None.

Lemma links_new hand ex lex s p al al' n : links making hand ex lex s -> allocs s !! p = Some al -> al_step n al al' -> fresh_buffer n s ->
  links making hand ex lex (set_allocs (<[p := al']> (allocs s)) s).
Proof.
  intros [La Lu Lf Lq Lt Lo Lw Ld] Hal [SN SO SL] Hn.
  assert (Hs : forall q alq, <[p := al']> (allocs s) !! q = Some alq -> exists al0, allocs s !! q = Some al0 /\
    (forall c, is_Some (store alq !! c) -> is_Some (store al0 !! c) \/ q = p /\ n = Some c) /\
    (forall c C, store al0 !! c = Some C -> in_use C -> exists C', store alq !! c = Some C' /\ same_link C C') /\
    (forall c C t, store alq !! c = Some C -> transaction C = Some t -> exists C0, store al0 !! c = Some C0 /\ transaction C0 = Some t)).
  { intros q alq. rewrite lookup_insert. case_decide as Eq.
    - intros [= <-]. subst q. exists al. split; [done|]. split; [|split; [|done]].
      + intros c Hc. destruct (SN c Hc) as [?|?]; [by left|by right].
      + intros c C HC. apply SO; [|done]. intros ->. by rewrite (Hn c p al eq_refl Hal) in HC.
    - intros Hq. exists alq. split; [done|]. split; [by left|]. split; [intros c C HC _; by exists C|intros c C t HC HT; by exists C]. }
  assert (Hat : forall u Y q c alq, live lex s !! u = Some Y -> t_buffer Y = Some (q, c) -> <[p := al']> (allocs s) !! q = Some alq ->
    exists al0 C C', allocs s !! q = Some al0 /\ store al0 !! c = Some C /\ store alq !! c = Some C' /\ same_link C C' /\ free C = false /\ transaction C = Some u).
  { intros u Y q c alq HY Hb Hq. destruct (Hs q alq Hq) as (al0 & Hal0 & _ & HO & _). destruct (La u Y q c al0 HY Hb Hal0) as (C & HC & HF & HT).
    destruct (HO c C HC ltac:(split; congruence)) as (C' & HC' & SK). by exists al0, C, C'. }
  split; simpl; try done.
  - intros u Y q c alq HY Hb Hq. destruct (Hat u Y q c alq HY Hb Hq) as (al0 & C & C' & _ & _ & HC' & SK & HF & HT). exists C'.
    by rewrite (sl_free _ _ SK), (sl_transaction _ _ SK).
  - intros u Y c C1 Hun HY (q & alq & Hb & Hq & HC1). destruct (Hat u Y q c alq HY Hb Hq) as (al0 & C & C' & Hal0 & HC & HC' & SK & _).
    assert (C1 = C') as -> by (simpl in Hq; congruence). destruct (Lu u Y c C Hun HY) as (U1 & U2 & U3); [by exists q, al0|]. rewrite (sl_node _ _ SK).
    split; [by apply SK|done].
  - intros q q' al1 al2 c Hq Hq' H1 H2. destruct (Hs q al1 Hq) as (a1 & Ha1 & N1 & _), (Hs q' al2 Hq') as (a2 & Ha2 & N2 & _).
    destruct (N1 c H1) as [Hc1|[-> E1]], (N2 c H2) as [Hc2|[-> E2]]; [by apply (Lq q q' a1 a2 c)| | |done].
    + rewrite (Hn c q a1 E2 Ha1) in Hc1. by destruct Hc1.
    + rewrite (Hn c q' a2 E1 Ha2) in Hc2. by destruct Hc2.
  - intros v Xv u Y q c Ev HX HY Hb1 Hb2. pose proof (Lt v Xv u Y q c Ev HX HY Hb1 Hb2) as HN. rewrite lookup_insert_ne; [done|]. intros <-. congruence.
  - intros q alq c C v Hq HC HT. destruct (Hs q alq Hq) as (al0 & Hal0 & _ & _ & HL). destruct (HL c C v HC HT) as (C0 & HC0 & HT0).
    by apply (Lw q al0 c C0 v).
Qed.

(** A buffer in use that is nobody's yet. *)
Definition unclaimed (t p b : nat) (s : driver) : Prop :=
  (exists al B, allocs s !! p = Some al /\ store al !! b = Some B /\ free B = false /\ allow_user_free B = false) /\
  forall u Y, live (Some t) s !! u = Some Y -> t_buffer Y <> Some (p, b).

Lemma draft_new_buf stk t X s p n x y z a r s' : drafting stk t X s -> fresh_buffer n s ->
  in_alloc p (binder_alloc_new_buf (env_mm E) n x y z a) s = Some (r, s') ->
  drafting stk t X s' /\ graph s' = graph s /\ transactions s' = transactions s /\ forall b, r = inl b -> unclaimed t p b s'.
Proof.
  intros [[I W L] HX HL] Hn (al & al' & Hal & H & ->)%in_alloc_inv. destruct (new_buf_step _ _ _ _ _ _ _ _ _ H) as [HS Hb].
  split; [|split; [done|split; [done|]]]; [split; [split; [exact I|exact W|]|done|exact HL]; by eapply links_new|].
  intros b Er. destruct (Hb b Er) as (Hno & B & HB & HF & HU & _). split; [exists al', B; simpl; by rewrite lookup_insert_eq|].
  intros u Y HY HbY. destruct (l_attached _ _ _ _ _ L u Y p b al HY HbY Hal) as (C & HC & HF' & HT). apply (Hno C HC). split; congruence.
Qed.

(** The buffer is put down to the transaction. *)
Lemma draft_own stk t X s p b id n u s' : drafting stk t X s -> t_buffer X = Some (p, b) -> unclaimed t p b s ->
  upd_buf (p, b) (set_owner id (Some t) n) s = Some (u, s') ->
  drafting stk t X s' /\ graph s' = graph s /\ exists al B, allocs s' !! p = Some al /\ store al !! b = Some B /\ free B = false /\
    allow_user_free B = false /\ transaction B = Some t /\ target_node B = n.
Proof.
  intros [[I W L] HX HL] Hb [(al0 & B0 & Hal0 & HB0 & HF0 & HU0) Hno] (al & B & Hal & HB & ->)%upd_buf_inv. simpl in *.
  assert (al0 = al) as -> by congruence. assert (B0 = B) as -> by congruence. split; [|split; [done|]].
  - split; [split; [exact I|exact W|]|done|exact HL]. eapply links_buf; [exact L|exact Hal|exact HB|exact Hno|]. intros v [= <-]. right. by exists X.
  - exists (set_store (<[b := set_owner id (Some t) n B]> (store al)) al), (set_owner id (Some t) n B). rewrite lookup_insert_eq. simpl. by rewrite lookup_insert_eq.
Qed.

(** ** It is complete *)

Lemma draft_enlist stk t X s A p b al B : drafting stk t X s -> making A = None -> t_buffer X = Some (p, b) -> allocs s !! p = Some al ->
  store al !! b = Some B -> free B = false -> allow_user_free B = false -> transaction B = Some t -> need_reply X = false -> from_parent X = None ->
  (t_from X = None -> one_way (t_flags X) = true \/ target_node B = None /\ security_ctx X = 0) -> (t_from X <> None -> one_way (t_flags X) = false) ->
  good doing (fupd A (Some t) making) (fupd A (call_of X) drafts) None None None stk None s.
Proof.
  intros [[I W L] HX [Hq Hm]] HmA Hb Hal HB HF HU HT Hn Hp Hctx Hflags.
  assert (Hmk : forall D u, fupd A (Some t) making D = Some u -> D = A /\ u = t \/ making D = Some u /\ u <> t).
  { intros D u. unfold fupd. case_decide as ED; [intros [= <-]; by left|]. intros HD. right. split; [done|]. intros ->. by apply (Hm D). }
  split; [|exact W|].
  - assert (I1 : inv stk None (with_tx (partial_alter (fun _ => Some (call_of X)) t (tx (V (Some t) s))) (V (Some t) s))).
    { apply inv_other; [done| | |intros l; rewrite items_view; apply Hq|intros D HD; by destruct (Hm D)].
      - intros Y. simpl. by rewrite lookup_fmap, lookup_delete_eq.
      - intros Y [= <-]. by split. }
    eapply inv_calm; [apply (inv_set_making stk None _ A (Some t) (call_of X) I1)|].
    + intros u [= <-]. split; [|split].
      * split; [by setoid_rewrite lookup_partial_alter_eq|done].
      * intros l. change (t ∉ items (V (Some t) s) l). rewrite items_view. apply Hq.
      * intros D HD. by destruct (Hm D).
    + apply calm_eq; try done. simpl. apply map_eq. intros u. destruct (decide (u = t)) as [->|Hu].
      * rewrite lookup_fmap, HX. by setoid_rewrite lookup_partial_alter_eq.
      * setoid_rewrite lookup_partial_alter_ne; [|done]. by rewrite !lookup_fmap, lookup_delete_ne by done.
  - destruct L as [La Lu Lf Lq Lt Lo Lw Ld].
    assert (Hl : forall u Y, live None s !! u = Some Y -> u = t /\ Y = X \/ u <> t /\ live (Some t) s !! u = Some Y).
    { intros u Y HY. simpl in HY. destruct (decide (u = t)) as [->|Hu]; [left; split; congruence|right]. split; [done|]. simpl. by rewrite lookup_delete_ne. }
    split; try done.
    + intros u Y q c alq HY HbY Hq'. destruct (Hl u Y HY) as [[-> ->]|[Hu HY']]; [|by apply (La u Y q c alq)].
      assert ((q, c) = (p, b)) as [= -> ->] by congruence. exists B. split; [congruence|done].
    + intros u Y c C Hun HY (q & alq & HbY & Hq' & HC). destruct (Hl u Y HY) as [[-> ->]|[Hu HY']].
      * assert ((q, c) = (p, b)) as [= -> ->] by congruence. assert (alq = al) as -> by congruence. assert (C = B) as -> by congruence.
        split; [done|]. split; [congruence|done].
      * apply (Lu u Y c C); [|done|by exists q, alq]. destruct Hun as [?|[[D HD]|?]]; [by left| |done].
        destruct (Hmk D u HD) as [[-> ->]|[HD' _]]; [done|by right; left; exists D].
    + intros u Y HY Hne. destruct (Hl u Y HY) as [[-> ->]|[Hu HY']]; [|by apply (Lf u Y)]. destruct Hne as [?|?]; [congruence|auto].
    + intros u Y HY HnY Hmk'. destruct (Hl u Y HY) as [[-> ->]|[Hu HY']]; [by destruct (Hmk' A); rewrite fupd_eq|]. apply (Lo u Y HY' HnY).
      intros D HD. apply (Hmk' D). unfold fupd. case_decide as ED; [|done]. subst D. congruence.
Qed.
End draft.
