(* ===== verification/BinderTxnBuild.v ===== *)
(** * Building a transaction

    [binder_transaction] from the allocation of the transaction to the point
    where its objects are translated, and the labels that undo it. *)

From Stdlib Require Import ZArith Lia.
From stdpp Require Import base option gmap sets list.
From S2P Require Import Prelude RbTree BinderAlloc BinderNode BinderTranslate BinderObjects BinderTxn BinderCalls.
From S2P Require Import BinderFrame BinderFrameAlloc BinderTxnView BinderTxnHush BinderTxnOps BinderTxnDeliver BinderTxnBuf BinderTxnTarget BinderTxnRead.
From S2P Require Import BinderTxnDraft.

Lemma ownerless_hush me t s s' : hush me s s' -> ownerless t s -> ownerless t s'.
Proof.
  intros [_ _ KA] HO p al b B Hal HB HT. destruct (KA p al Hal) as (al0 & Hal0 & [_ _ KL]). destruct (KL b B t HB HT) as (B0 & HB0 & HT0).
  by apply (HO p al0 b B0).
Qed.

Section build.
Context (doing : nat -> activity) (making : nat -> option nat) (drafts : nat -> call).
Context `{RB : Rbtree} (E : driver_env).
Local Abbreviation V := (view doing making drafts).
Local Abbreviation G := (good doing making drafts).
Local Abbreviation awake_ := (awake doing making drafts).
Local Abbreviation D := (drafting doing making drafts).

Definition off_duty (d : activity) : Prop := forall w, d <> Reading w /\ d <> Waiting w.

Lemma awake_doing stk lim ex lex hand s A : G hand ex lex stk lim s -> off_duty (doing A) -> awake_ s (Some A).
Proof.
  intros [I _ _] Hd B [= <-]. split.
  - apply not_true_iff_false. intros Hw. destruct (i_wait _ _ _ I A Hw) as [E' _]. by destruct (Hd true).
  - intros [E'|E']; by destruct (Hd true).
Qed.

Lemma draft_hush0 stk t X s s' : D stk t X s -> hush None s s' -> exists X', D stk t X' s' /\ same_txn X X'.
Proof. intros HD K. destruct (draft_hush doing making drafts None stk t X s s' HD K (awake_None _ _ _ _)) as (X' & ? & ? & _). by exists X'. Qed.

(** From [err_copy_data_failed] on. *)
Lemma undo_buffer_good stk A t X s p b tg off u s' : D stk t X s -> t_buffer X = Some (p, b) -> undo_buffer E A t p b tg off s = Some (u, s') ->
  G None None None stk None s'.
Proof.
  intros HD Hb H. unfold undo_buffer in H. apply bind_Some in H as (? & s1 & H1 & H). apply bind_Some in H as (? & s2 & H2 & H).
  apply bind_Some in H as (? & s3 & H3 & H). assert (K3 : hush None s s3).
  { etrans; [by eapply (hush_free_fixups None)|]. etrans; [eapply hush_in_txn; [apply (kept_buffer_release None)|exact H2]|].
    destruct (tg_node tg); [|by mrun]. eapply hush_in_graph; [|exact H3]. apply keeps_dec_node_tmpref. }
  destruct (draft_hush0 _ _ _ _ _ HD K3) as (X3 & HD3 & S3). clear H1 H2 H3. apply bind_Some in H as (? & s4 & H4 & H).
  assert (Hb3 : t_buffer X3 = Some (p, b)) by by rewrite (sx_buffer _ _ S3). pose proof HD3 as [G3 HX3 HL3].
  assert (HO4 : ownerless t s4).
  { pose proof (g_links _ _ _ _ _ _ _ _ _ G3) as L. eapply (forget_ownerless making None (Some t) (Some t) t X3 s3 _ s4 L HX3).
    pose proof (l_dest _ _ _ _ _ L t X3 HX3) as Hp. destruct (to_proc X3); [by rewrite Hb3|]. by destruct Hp; [rewrite Hb3|]. }
  destruct (forget_good doing making drafts None (Some t) stk None t X3 (p, b) s3 _ s4 (set_transaction None) ltac:(done) G3 HX3 Hb3 H4) as (G4 & Eg & Et).
  apply bind_Some in H as (? & s5 & H5 & H). assert (K5 : hush None s4 s5) by (eapply hush_in_alloc; [|exact H5]; apply kept_free_buf').
  assert (HD4 : D stk t X3 s4) by (split; [done|congruence|unfold loose; by rewrite Eg]).
  destruct (draft_hush0 _ _ _ _ _ HD4 K5) as (X5 & HD5 & _). eapply draft_undo; [exact HD5|by eapply ownerless_hush|exact H].
Qed.

(** The security context is stored in the buffer, which stays unclaimed. *)
Lemma same_store_unclaimed t p b s al al' : allocs s !! p = Some al -> same_store al al' -> unclaimed t p b s ->
  unclaimed t p b (set_allocs (<[p := al']> (allocs s)) s).
Proof.
  intros Hal HS [(al0 & B & Hal0 & HB & HF & HU) Hno]. split; [|done]. assert (al0 = al) as -> by congruence. exists al', B. simpl. rewrite lookup_insert_eq.
  unfold same_store in HS. by rewrite HS.
Qed.

Definition stored (X X' : binder_transaction) (secctx : option (list Z)) : Prop :=
  call_of X' = call_of X /\ t_buffer X' = t_buffer X /\ t_flags X' = t_flags X /\ (secctx = None -> security_ctx X' = security_ctx X).

Lemma store_secctx_good stk t X s p b tr extra secctx u s' : D stk t X s -> t_buffer X = Some (p, b) -> unclaimed t p b s ->
  store_secctx t p b tr extra secctx s = Some (u, s') -> exists X', D stk t X' s' /\ stored X X' secctx /\ unclaimed t p b s'.
Proof.
  intros HD Hb HC H. unfold store_secctx in H. destruct secctx as [bytes|]; [|mrun; by exists X]. cbv zeta in H.
  apply bind_Some in H as (B & s1 & [-> _]%d_buf_inv & H). apply bind_Some in H as (err & s1 & H1 & H). apply bind_Some in H as (? & s2 & H2 & H).
  assert (HC1 : unclaimed t p b s1).
  { apply in_alloc_inv in H1 as (al & al' & Hal & H1 & ->). eapply same_store_unclaimed; [done| |done]. by eapply store_copy_to. }
  assert (K1 : hush None s s1) by (eapply (hush_alloc_store None); [|exact H1]; apply store_copy_to).
  destruct (draft_hush0 _ _ _ _ _ HD K1) as (X1 & HD1 & S1). apply in_graph_inv in H2 as (g & H2 & ->).
  destruct (draft_hush0 _ _ _ _ _ HD1 (hush_graph None g s1 (keeps_warn None _ _ _ _ H2))) as (X2 & HD2 & S2).
  destruct (draft_set _ _ _ _ _ _ _ _ _ _ HD2 H) as (HD3 & Eg & Ea).
  - by left.
  - simpl. intros Hn. pose proof HD2 as [[_ _ L] HX2 _]. by apply (l_dest _ _ _ _ _ L t X2).
  - simpl. intros q c v Y Hqc HY HbY. exfalso. destruct HC1 as [_ Hno]. apply (Hno v Y HY). rewrite HbY. rewrite <- Hqc, (sx_buffer _ _ S2), (sx_buffer _ _ S1). done.
  - eexists. split; [exact HD3|]. destruct S1, S2. split; [split; [change (call_of X2 = call_of X); congruence|split; [simpl; congruence|split; [simpl; congruence|done]]]|]. destruct HC1 as [HB1 Hno]. split; [by rewrite Ea|].
    intros v Y HY. apply (Hno v Y). unfold upd_txn, put_txn in H. apply bind_Some in H as (X0 & s3 & [-> _]%txn_at_inv & H). mrun. simpl in *.
    by rewrite delete_insert_eq in HY.
Qed.
(** ** The whole *)

(** What the sender holds once the transaction is complete. *)
Definition draft_of (A : nat) (reply : bool) (tr : binder_transaction_data) (tg : txn_target) : call :=
  Call (if negb reply && negb (one_way (tr_flags tr)) then Some A else None) None (tg_thread tg) None (tg_proc tg) false.

Definition built (A : nat) (reply : bool) (tr : binder_transaction_data) (tg : txn_target)
    (r : (txn_error * txn_target) + (nat * nat)) (s : driver) : Prop :=
  match r with
  | inl (_, tg') => tg_reply_to tg' = tg_reply_to tg /\ exists stk, G None None None stk None s
  | inr (t, _) => exists stk, good doing (fupd A (Some t) making) (fupd A (draft_of A reply tr tg) drafts) None None None stk None s
  end.

Lemma fill_good stk A t c tp b id tr extra secctx tg reply X s r s' : D stk t X s -> t_buffer X = Some (tp, b) -> unclaimed t tp b s ->
  off_duty (doing A) -> making A = None -> call_of X = draft_of A reply tr tg -> t_flags X = tr_flags tr -> security_ctx X = 0 ->
  (tg_node tg = None -> secctx = None) -> (reply = true -> tg_node tg = None) ->
  fill_transaction E A t c tp b id tr extra secctx tg s = Some (r, s') -> built A reply tr tg r s'.
Proof.
  intros HD Hb HC HA HmA Ec Ef Ex Hsec Hrep H. unfold fill_transaction in H. apply bind_Some in H as (? & s1 & H1 & H).
  destruct (store_secctx_good _ _ _ _ _ _ _ _ _ _ _ HD Hb HC H1) as (X1 & HD1 & (Ec1 & Eb1 & Ef1 & Ex1) & HC1).
  apply bind_Some in H as (? & s2 & H2 & H). rewrite <- Eb1 in Hb.
  destruct (draft_own doing making drafts _ _ _ _ _ _ _ _ _ _ HD1 Hb HC1 H2) as (HD2 & Eg2 & al & B & Hal & HB & HF & HU & HT & HN).
  apply bind_Some in H as (fl & s3 & H3 & H).
  assert (s3 = s2) as ->. { destruct (tg_reply_to tg); [|by mrun]. apply bind_Some in H3 as (Y & s4 & [-> _]%txn_at_inv & H3). by mrun. }
  clear H3. apply bind_Some in H as (o & s4 & H4 & H).
  assert (K4 : hush (Some A) s2 s4) by (eapply hush_in_txn; [|exact H4]; by apply kept_translate_objects).
  destruct (draft_hush doing making drafts _ _ _ _ _ _ HD2 K4 (awake_doing _ _ _ _ _ _ _ (dr_good _ _ _ _ _ _ _ HD2) HA)) as (X4 & HD4 & S4 & _).
  assert (Hb4 : t_buffer X4 = Some (tp, b)) by by rewrite (sx_buffer _ _ S4).
  destruct o as [[param off]|].
  - apply bind_Some in H as (? & s5 & H5 & H). injection H as <- <-. split; [done|]. exists stk. by eapply undo_buffer_good.
  - injection H as <- <-. exists stk. destruct K4 as [_ _ KA].
    assert (Hal4 : exists al4, allocs s4 !! tp = Some al4).
    { unfold in_txn in H4. destruct (transactions s2 !! t); [|done]. destruct (allocs s2 !! tp); [|done]. destruct (translate_objects _ _ _ _ _ _) as [[? rr]|]; [|done].
      injection H4 as _ <-. exists (t_alloc rr). simpl. by rewrite lookup_insert_eq. }
    destruct Hal4 as [al4 Hal4]. destruct (KA tp al4 Hal4) as (al0 & Hal0 & [_ KO _]). assert (al0 = al) as -> by congruence.
    destruct (KO b B ltac:(done) HB ltac:(split; congruence)) as (B4 & HB4 & SL).
    assert (Ec4 : call_of X4 = draft_of A reply tr tg) by (rewrite (sx_call _ _ S4); congruence). rewrite <- Ec4.
    assert (Efl : t_flags X4 = tr_flags tr) by (rewrite (sx_flags _ _ S4); congruence).
    injection Ec4 as E1 E2 E3 E4 E5 E6.
    eapply (draft_enlist doing making drafts _ _ _ _ _ _ _ _ _ HD4 HmA Hb4 Hal4 HB4); try done.
    + by rewrite (sl_free _ _ SL).
    + by apply SL.
    + by rewrite (sl_transaction _ _ SL).
    + rewrite E1, Efl, (sl_node _ _ SL), HN. destruct reply; simpl.
      * intros _. right. split; [by apply Hrep|]. rewrite (sx_ctx _ _ S4), Ex1; [done|]. by apply Hsec, Hrep.
      * destruct (one_way (tr_flags tr)); [by left|done].
    + rewrite E1, Efl. destruct reply; [done|]. destruct (one_way (tr_flags tr)); [done|done].
Qed.
(** [kzalloc] returns what nobody has. *)
Definition fresh_env (s : driver) : Prop :=
  (forall t, kzalloc_txn E = Some t -> transactions s !! t = None) /\ fresh_buffer (kzalloc_buffer E) s.

Lemma fresh_buffer_hush me n s s' : hush me s s' -> fresh_buffer n s -> fresh_buffer n s'.
Proof.
  intros [_ _ KA] Fb c p al Hc Hal. destruct (KA p al Hal) as (al0 & Hal0 & [KN _ _]). destruct (store al !! c) as [C|] eqn:HC; [|done].
  destruct (KN c ltac:(by rewrite HC)) as [HC0|?]; [|done]. rewrite (Fb c p al0 Hc Hal0) in HC0. by destruct HC0.
Qed.

Lemma fresh_hush me s s' : hush me s s' -> fresh_env s -> fresh_env s'.
Proof.
  intros K [Ft Fb]. split; [|by eapply fresh_buffer_hush]. destruct K as [_ KT _].
  intros t Ht. specialize (KT t). rewrite (Ft t Ht) in KT. by inversion KT.
Qed.

Lemma secctx_none s r s' : sender_secctx E None s = Some (r, s') -> r = inr None /\ s' = s.
Proof. intros [= <- <-]. done. Qed.

Lemma build_good stk A reply id tr extra tg s r s' : G None None None stk None s -> fresh_env s -> off_duty (doing A) -> making A = None ->
  (reply = true -> tg_node tg = None) -> build_transaction E A reply id tr extra tg s = Some (r, s') -> built A reply tr tg r s'.
Proof.
  intros HG HF HA HmA Hrep H. unfold build_transaction in H. apply bind_Some in H as (tp & s1 & [-> Htp]%deref_inv & H).
  destruct (kzalloc_txn E) as [t|] eqn:Et; [|mrun; split; [done|by exists stk]].
  apply bind_Some in H as (? & s1 & H1 & H). cbv zeta in H. pose proof (hush_in_graph None _ (keeps_created None _) _ _ _ H1) as K1.
  pose proof (good_hush _ _ _ None _ _ _ _ _ _ _ HG K1 (awake_None _ _ _ _)) as G1. pose proof (fresh_hush _ _ _ K1 HF) as F1.
  apply bind_Some in H as (? & s2 & H2 & H). unfold put_txn in H2. injection H2 as _ <-.
  set (X := Transaction id _ None (Some tp) (tg_thread tg) None false None (tr_code tr) (tr_flags tr) (task_euid E) [] 0) in H.
  pose proof (draft_start doing making drafts stk s1 t X G1 (proj1 F1 t Et) eq_refl) as HD2. set (s2 := set_transactions _ s1) in *.
  assert (HU : forall X' s3 c u s4, D stk t X' s3 -> t_buffer X' = None -> undo_txn t c s3 = Some (u, s4) -> exists stk, G None None None stk None s4).
  { intros X' s3 c0 u s4 HD Hb Hu. exists stk. eapply draft_undo; [exact HD| |exact Hu]. by eapply draft_ownerless. }
  destruct (kzalloc_complete E) as [c|].
  2:{ apply bind_Some in H as (? & s3 & H3 & H). mrun. split; [done|]. by eapply HU. }
  apply bind_Some in H as (? & s3 & H3 & H). apply bind_Some in H as (sec & s4 & H4 & H).
  assert (K4 : hush None s2 s4).
  { etrans; [exact (hush_in_graph None _ (keeps_created None _) _ _ _ H3)|by eapply (hush_sender_secctx None)]. }
  destruct (draft_hush0 _ _ _ _ _ HD2 K4) as (X4 & HD4 & S4). assert (Hb4 : t_buffer X4 = None) by by rewrite (sx_buffer _ _ S4).
  assert (Hsec : tg_node tg = None -> sec = inr None) by (intros En; rewrite En in H4; by apply secctx_none in H4 as [-> _]).
  clear H3 H4. destruct sec as [err|secctx]; [apply bind_Some in H as (? & s5 & H5 & H); mrun; split; [done|]; by eapply HU|].
  destruct (_ <? _); [apply bind_Some in H as (? & s5 & H5 & H); mrun; split; [done|]; by eapply HU|].
  apply bind_Some in H as (rb & s5 & H5 & H).
  assert (F4 : fresh_buffer (kzalloc_buffer E) s4) by (eapply (fresh_buffer_hush None); [exact K4|apply F1]).
  destruct (draft_new_buf doing making drafts E _ _ _ _ _ _ _ _ _ _ _ _ HD4 F4 H5) as (HD5 & Eg5 & Et5 & Hb5).
  destruct rb as [b|err]; [|apply bind_Some in H as (? & s6 & H6 & H); mrun; split; [done|]; by eapply HU].
  destruct (Hb5 b eq_refl) as [HB5 Hno5]. apply bind_Some in H as (? & s6 & H6 & H).
  assert (Ep4 : to_proc X4 <> None) by (destruct (call_eq _ _ (sx_call _ _ S4)) as (_ & _ & _ & _ & -> & _); done).
  destruct (draft_set _ _ _ _ _ _ _ _ _ _ HD5 H6) as (HD6 & Eg6 & Ea6); [by right|by intros _| |].
  { simpl. intros p c' v Y [= <- <-] HY HbY. by destruct (Hno5 v Y HY). }
  eapply fill_good; [exact HD6|done| |exact HA|exact HmA| | | | |exact Hrep|exact H].
  - split; [by rewrite Ea6|]. intros v Y HY. apply (Hno5 v Y). unfold upd_txn, put_txn in H6. apply bind_Some in H6 as (X0 & s7 & [-> _]%txn_at_inv & H6).
    mrun. simpl in *. by rewrite delete_insert_eq in HY.
  - change (call_of X4 = draft_of A reply tr tg). rewrite (sx_call _ _ S4). unfold draft_of. by rewrite Htp.
  - simpl. by rewrite (sx_flags _ _ S4).
  - simpl. by rewrite (sx_ctx _ _ S4).
  - intros En. by injection (Hsec En).
Qed.
End build.
