(* ===== verification/BinderTxnSend.v ===== *)
(** * Queueing a transaction

    The end of [binder_transaction]: the transaction its sender has built is
    queued, as a reply, as a call on the sender's stack or as an asynchronous
    call, or it fails, and then whoever waits for it is told. *)

From Stdlib Require Import ZArith Lia.
From stdpp Require Import base option gmap sets list.
From S2P Require Import Prelude RbTree BinderAlloc BinderNode BinderTranslate BinderObjects BinderTxn BinderCalls.
From S2P Require Import BinderFrame BinderFrameAlloc BinderTxnView BinderTxnHush BinderTxnOps BinderTxnDeliver BinderTxnBuf BinderTxnTarget BinderTxnRead.
From S2P Require Import BinderTxnDraft BinderTxnBuild.

Section queue.
Context (doing : nat -> activity) (making : nat -> option nat) (drafts : nat -> call).
Context `{RB : Rbtree} (E : driver_env).
Local Abbreviation V := (view doing making drafts).
Local Abbreviation G := (good doing making drafts).

(** ** Into a list *)

(** A transaction in hand, on its way to process [p]. *)
Record posting (stk : nat -> list nat) (t : nat) (X : binder_transaction) (p : nat) (f : option nat) (s : driver) : Prop := PostingS {
  po_good : G (Some t) None None stk (if need_reply X then Some t else None) s;
  po_txn : transactions s !! t = Some X;
  po_loose : loose making t s;
  po_aimed : aimed stk (V None s) t (call_of X) p f
}.

Lemma posting_hush stk t X p f s s' : posting stk t X p f s -> hush None s s' -> exists X', posting stk t X' p f s' /\ same_txn X X'.
Proof.
  intros [HG HX HL HA] K. destruct (hush_txn_at _ _ _ _ _ K HX) as (X' & HX' & HS). exists X'. split; [|done]. split.
  - rewrite (same_need _ _ HS). eapply good_hush; [exact HG|exact K|apply awake_None].
  - done.
  - by eapply loose_hush.
  - rewrite (sx_call _ _ HS). eapply aimed_calm; [|exact HA]. eapply view_calm; [apply HG|apply K|apply K|apply awake_None].
Qed.

Lemma posting_post stk t X p f s : posting stk t X p f s -> if need_reply X then (if need_reply X then Some t else None) = Some t else loose making t s.
Proof. intros [_ _ HL _]. by destruct (need_reply X). Qed.

Lemma post_lim {A} (b : bool) (x : option A) : (if b then None else if b then x else None) = None.
Proof. by destruct b. Qed.

(** For one thread. *)
Lemma post_directed stk t X p F s u g : posting stk t X p (Some F) s -> alive F s ->
  binder_enqueue_thread_work_ilocked F (WTransaction t) (graph s) = Some (u, g) -> G None None None stk None (set_d_graph g s).
Proof.
  intros HP HF H. pose proof (posting_post _ _ _ _ _ _ HP) as Hl. destruct HP as [HG HX HL HA]. pose proof HG as [I _ _].
  assert (HT : top (V None s) F <> None) by by apply alive_top.
  pose proof (aimed_directed _ _ _ _ _ _ F I HA HT (proj2 HL)) as Hq. destruct (qu_for _ _ _ _ _ Hq F (am_server _ _ _ _ _ _ HA)) as (_ & _ & Hw & _).
  pose proof (post_thread_good doing making drafts None None stk _ s t X HG HX Hl F u g Hq Hw H) as HR. by rewrite post_lim in HR.
Qed.

Lemma post_selected stk t X p B s u g1 g2 : posting stk t X p None s -> binder_select_thread_ilocked p (graph s) = Some (Some B, g1) ->
  binder_enqueue_thread_work_ilocked B (WTransaction t) g1 = Some (u, g2) -> G None None None stk None (set_d_graph g2 s).
Proof.
  intros HP Hs H. pose proof (posting_post _ _ _ _ _ _ HP) as Hl. destruct HP as [HG HX HL HA].
  destruct (select_inv _ _ _ _ Hs) as (P & HP & rest & Hwt & _).
  assert (HB : B ∈ waiting p (graph s)) by (unfold waiting; rewrite HP, Hwt; left).
  destruct (waiting_waits doing making drafts None s B p (g_waiting _ _ _ _ _ _ _ _ _ HG) HB) as [Hw Hh].
  pose proof (aimed_selected _ _ _ _ _ B HA Hw Hh (proj2 HL)) as Hq.
  pose proof (post_selected_good doing making drafts None None stk _ s t X HG HX Hl p B u g1 g2 Hq Hs H) as HR. by rewrite post_lim in HR.
Qed.

Lemma post_listed stk t X p s l u g : posting stk t X p None s -> l = proc_todo p \/ (exists n, l = async_todo n) /\ need_reply X = false ->
  binder_enqueue_work_ilocked (WTransaction t) (Some l) (graph s) = Some (u, g) -> G None None None stk None (set_d_graph g s).
Proof.
  intros HP Hll H. pose proof (posting_post _ _ _ _ _ _ HP) as Hl. destruct HP as [HG HX HL HA].
  assert (Hq : queueable stk (V None s) t (call_of X) l) by (destruct Hll as [->|[[n ->] Hn]]; [apply aimed_proc; [done|apply HL]|eapply aimed_async; [done|done|apply HL]]).
  pose proof (post_list_good doing making drafts None None stk _ s t X l u g HG HX Hl Hq) as HR. rewrite post_lim in HR.
  apply HR; [|done]. intros A. by destruct Hll as [->|[[n ->] _]].
Qed.

Lemma posting_way stk t X p f s : posting stk t X p f s -> one_way (t_flags X) = true -> need_reply X = false.
Proof.
  intros [HG HX _ _] Ho. destruct (need_reply X) eqn:Hn; [|done].
  rewrite (l_flags _ _ _ _ _ (g_links _ _ _ _ _ _ _ _ _ HG) t X HX) in Ho; [done|by left].
Qed.

Lemma proc_transaction_good stk t X p f n s b g : posting stk t X p f s -> proc_transaction_locked t (one_way (t_flags X)) n p f (graph s) = Some (b, g) ->
  if b then G None None None stk None (set_d_graph g s) else exists X', posting stk t X' p f (set_d_graph g s) /\ same_txn X X'.
Proof.
  intros HP H. pose proof (posting_way _ _ _ _ _ _ HP) as Hway. unfold proc_transaction_locked in H. set (oneway := one_way (t_flags X)) in *.
  apply bind_Some in H as (? & g1 & [-> Hot]%bug_on_inv & H). apply bind_Some in H as (N & g1 & [-> HN]%node_at_inv & H). cbv zeta in H.
  apply bind_Some in H as (? & g1 & H1 & H). assert (K1 : hush None s (set_d_graph g1 s)).
  { apply hush_graph. destruct (oneway && negb (has_async_transaction N)); [by eapply keeps_put_node_at|by mrun]. }
  destruct (posting_hush _ _ _ _ _ _ _ HP K1) as (X1 & HP1 & S1). clear H1. apply bind_Some in H as (P & g2 & [-> HPr]%proc_at_inv & H).
  apply bind_Some in H as (dead & g2 & H2 & H).
  assert (g2 = g1 /\ (dead = false -> forall F, f = Some F -> exists T, threads g1 !! F = Some T /\ thread_is_dead T = false)) as [-> Hdead].
  { destruct f as [F|]; [|by mrun]. apply bind_Some in H2 as (T & g3 & [-> HT]%thread_at_inv & H2). mrun. split; [done|]. intros HD F' [= <-]. by exists T. }
  clear H2. destruct (proc_is_dead P || dead) eqn:Hd; [mrun; by exists X1|]. apply orb_false_iff in Hd as [_ ->].
  apply bind_Some in H as (th & g2 & H2 & H). apply bind_Some in H as (? & g3 & H3 & H). apply bind_Some in H as (? & g4 & H4 & H).
  assert (Hn1 : oneway = true -> need_reply X1 = false) by (intros Ho; rewrite (same_need _ _ S1); auto).
  assert (G3 : G None None None stk None (set_d_graph g3 s)).
  { change (set_d_graph g3 s) with (set_d_graph g3 (set_d_graph g1 s)). destruct f as [F|].
    - mrun. eapply post_directed; [exact HP1|by apply Hdead|exact H3].
    - destruct (oneway && has_async_transaction N) eqn:Ha.
      + mrun. apply andb_true_iff in Ha as [Ho _]. eapply post_listed; [exact HP1|right; split; [by exists n|auto]|exact H3].
      + destruct th as [B|]; [by eapply post_selected|]. apply select_inv in H2 as (P' & _ & -> & _).
        eapply post_listed; [exact HP1|by left|exact H3]. }
  injection H as <- <-. eapply good_hush; [exact G3| |apply awake_None].
  change (set_d_graph g4 s) with (set_d_graph g4 (set_d_graph g3 s)). apply hush_graph.
  destruct (oneway && has_async_transaction N); [by mrun|by eapply keeps_wakeup_thread].
Qed.

Lemma binder_proc_transaction_good stk t X p f s b s' : posting stk t X p f s -> binder_proc_transaction t p f s = Some (b, s') ->
  if b then G None None None stk None s' else exists X', posting stk t X' p f s' /\ same_txn X X'.
Proof.
  intros HP H. unfold binder_proc_transaction in H. apply bind_Some in H as (X0 & s1 & [-> HX0]%txn_at_inv & H).
  assert (X0 = X) as -> by (destruct HP; congruence). apply bind_Some in H as (bf & s1 & [-> _]%deref_inv & H).
  apply bind_Some in H as (B & s1 & [-> _]%d_buf_inv & H). apply bind_Some in H as (n & s1 & [-> _]%deref_inv & H).
  apply in_graph_inv in H as (g & H & ->). by eapply proc_transaction_good.
Qed.
End queue.

(** ** Out of its maker's hands *)

Section commit.
Context (doing : nat -> activity) (making : nat -> option nat) (drafts : nat -> call).
Context `{RB : Rbtree} (E : driver_env).
Local Abbreviation V := (view doing making drafts).
Local Abbreviation G := (good doing making drafts).

Lemma fupd_none (A : nat) (m : nat -> option nat) B x : fupd A None m B = Some x -> B <> A /\ m B = Some x.
Proof. unfold fupd. by case_decide. Qed.

Lemma made stk lim s A t : G None None None stk lim s -> making A = Some t ->
  exists X, transactions s !! t = Some X /\ call_of X = drafts A /\ need_reply X = false /\ loose (fupd A None making) t s.
Proof.
  intros [I _ _] HA. destruct (i_making _ _ _ I A t HA) as ([HX Hs] & Hq & Hu). destruct (view_tx_inv _ _ _ _ _ _ _ HX) as (X & HX' & Ec).
  exists X. split; [done|]. split; [done|]. change (drafts A = call_of X) in Ec. change (sync (drafts A) = false) in Hs. split; [by rewrite Ec in Hs|]. split.
  - intros l. specialize (Hq l). by rewrite items_view in Hq.
  - intros B [HB HB']%fupd_none. by apply HB, Hu.
Qed.

Lemma unmake_inv stk lim s A : inv stk lim (V None s) -> inv stk lim (view doing (fupd A None making) drafts None s).
Proof.
  intros I. eapply inv_calm; [apply (inv_set_making stk lim _ A None (drafts A) I); done|]. apply calm_eq; try done.
  intros B. split; [done|]. simpl. unfold fupd. by case_decide as EB; [rewrite EB|].
Qed.

Lemma unmake_links hand s A t : links making hand None None s -> making A = Some t -> (forall X, transactions s !! t = Some X -> t_from X = None) ->
  links (fupd A None making) (Some t) None None s.
Proof.
  intros [La Lu Lf Lq Lt Lo Lw Ld] HA Hf. split; try done.
  - intros u X b B Hu HX. apply (Lu u X b B); [|done]. destruct Hu as [?|[[D HD]|Hu]]; [by left| |].
    + apply fupd_none in HD as [_ HD]. by right; left; exists D.
    + injection Hu as <-. by right; left; exists A.
  - intros u X HX Hn Hm. destruct (decide (u = t)) as [->|Hu]; [by apply Hf|]. apply (Lo u X HX Hn). intros D HD.
    destruct (decide (D = A)) as [->|HDA]; [congruence|]. apply (Hm D). by rewrite fupd_ne.
Qed.

(** A reply or an asynchronous call, about to be queued. *)
Lemma handoff_good stk s A t : G None None None stk None s -> making A = Some t -> caller (drafts A) = None ->
  exists X, transactions s !! t = Some X /\ call_of X = drafts A /\ need_reply X = false /\ loose (fupd A None making) t s /\
    good doing (fupd A None making) drafts (Some t) None None stk None s.
Proof.
  intros HG HA Hc. destruct (made _ _ _ _ _ HG HA) as (X & HX & Ec & Hn & HL). exists X. split_and!; try done. destruct HG as [I W L].
  split; [by apply unmake_inv|done|]. eapply unmake_links; [done|done|]. intros Y HY. assert (Y = X) as -> by congruence.
  rewrite <- Ec in Hc. exact Hc.
Qed.

(** A call, onto its sender's stack. *)
Lemma push_good stk s A t p f T X : G None None None stk None s -> making A = Some t -> doing A = Calling p f ->
  drafts A = Call (Some A) None f None (Some p) false -> threads (graph s) !! A = Some T -> transactions s !! t = Some X ->
  (forall b B, buffer_of s X b B -> target_node B <> None) ->
  posting (fupd A Idle doing) (fupd A None making) drafts (fupd A (t :: stk A) stk) t (set_from_parent (transaction_stack T) X) p f
    (set_d_graph (set_threads (<[A := set_stack (Some t) T]> (threads (graph s))) (graph s))
       (set_transactions (<[t := set_from_parent (transaction_stack T) X]> (transactions s)) s)).
Proof.
  intros HG HmA Hd Ed HT HX Hnode. destruct (made _ _ _ _ _ HG HmA) as (X0 & HX0 & Ec & Hn & HL). assert (X0 = X) as -> by congruence. clear HX0.
  pose proof HG as [I W L]. pose proof (unmake_inv _ _ _ A I) as I1. set (making' := fupd A None making) in *. set (c := view doing making' drafts None s) in *.
  pose proof (view_tx doing making' drafts None s t X HX) as HV. fold c in HV.
  assert (Hold : forall Y, tx c !! t = Some Y -> sync Y = false) by (intros Y HY; rewrite HV in HY; injection HY as <-; exact Hn).
  assert (Hq : forall l, t ∉ items c l) by (intros l; unfold c; rewrite items_view; apply HL).
  assert (Hmk : forall B, making' B <> Some t) by apply HL.
  pose proof (inv_push stk c I1 A t p f Hd Hold Hq Hmk) as IP. pose proof (push_aimed stk c I1 A t p f Hd Hold) as AP.
  assert (HA : top c A <> None) by (apply (i_busy _ _ _ I1); simpl; by rewrite Hd).
  destruct (top c A) as [o|] eqn:Ho; [|done]. destruct (top_thread _ _ _ _ _ _ _ Ho) as (T' & HT' & HD & Est). assert (T' = T) as -> by congruence.
  assert (Eh : head (stk A) = transaction_stack T) by (rewrite Est; by apply (stack_head _ _ _ _ (i_stack _ _ _ I1 A o Ho))).
  set (X' := set_from_parent (transaction_stack T) X). set (s' := set_d_graph _ _).
  assert (EX : call_of X' = Call (Some A) (head (stk A)) f None (Some p) true).
  { rewrite Ed in Ec. injection Ec as E1 E2 E3 E4 E5 E6. unfold call_of. simpl. by rewrite E1, E3, E4, E5, Eh. }
  assert (HC : calm (push A t (Call (Some A) (head (stk A)) f None (Some p) true) c) (view (fupd A Idle doing) making' drafts None s')).
  { apply calm_eq; try done.
    - simpl. rewrite fmap_insert. by f_equal.
    - intros B. simpl. rewrite lookup_insert. unfold fupd. case_decide as EB; [subst B; rewrite decide_True by done; simpl; by rewrite HD|].
      by rewrite decide_False by (by intros ->).
    - intros B. simpl. rewrite lookup_insert. case_decide as EB; [|done]. subst B. by rewrite HT.
    - intros B. simpl. rewrite lookup_insert. case_decide as EB; [|done]. subst B. by rewrite HT.
    - intros B. simpl. rewrite lookup_insert. case_decide as EB; [|done]. subst B. by rewrite HT. }
  split; [|simpl; by rewrite lookup_insert_eq|exact HL|by rewrite EX; eapply aimed_calm].
  split; [by eapply inv_calm| |].
  - intros q. destruct (W q) as [Hnd Hp]. split; [done|]. intros B HB. destruct (Hp B HB) as (TB & HTB & Ep). simpl. rewrite lookup_insert.
    case_decide as EB; [|by exists TB]. subst B. eexists. split; [done|]. simpl. congruence.
  - destruct L as [La Lu Lf Lq Lt Lo Lw Ld].
    assert (Hl : forall u Y, transactions s' !! u = Some Y -> u = t /\ Y = X' \/ u <> t /\ transactions s !! u = Some Y).
    { intros u Y. simpl. rewrite lookup_insert. case_decide as Eu; [intros [= <-]; by left|]. right. split; [by intros ->|done]. }
    split; try done.
    + intros u Y q b al HY Hb. destruct (Hl u Y HY) as [[-> ->]|[Hu HY']]; [by apply (La t X)|by apply (La u Y)].
    + intros u Y b B Hun HY HB. destruct (Hl u Y HY) as [[-> ->]|[Hu HY']].
      * destruct (Lu t X b B) as (HU & _); [right; left; by exists A|done|exact HB|]. split; [done|]. split; [|done]. intros _. by apply (Hnode b B).
      * apply (Lu u Y b B); [|done|exact HB]. destruct Hun as [?|[[D HDm]|[= ->]]]; [by left| |done]. apply fupd_none in HDm as [_ HDm]. by right; left; exists D.
    + intros u Y HY Hne. destruct (Hl u Y HY) as [[-> ->]|[Hu HY']]; [|by apply (Lf u Y)]. apply (Lf t X HX). right.
      rewrite Ed in Ec. injection Ec as E1. simpl. by rewrite E1.
    + intros u Y HY HnY Hm. destruct (Hl u Y HY) as [[-> ->]|[Hu HY']]; [done|]. apply (Lo u Y HY' HnY). intros D HDm.
      destruct (decide (D = A)) as [->|HDA]; [congruence|]. apply (Hm D). unfold making'. by rewrite fupd_ne.
    + intros q al b B u Hal HB HTB. destruct (Lw q al b B u Hal HB HTB) as (Y & HY & Hb). simpl. rewrite lookup_insert. case_decide as Eu; [|by exists Y].
      subst u. exists X'. split; [done|]. simpl. congruence.
    + intros u Y HY Hb. destruct (Hl u Y HY) as [[-> ->]|[Hu HY']]; [by apply (Ld t X)|by apply (Ld u Y)].
Qed.

(** ** The three ways to queue *)

(** Queued, or back in the sender's hands. *)
Definition committed (A t : nat) (reply b : bool) (s : driver) : Prop :=
  if b then exists stk, good (fupd A Idle doing) (fupd A None making) drafts None None None stk None s
  else exists stk X, drafting (if reply then doing else fupd A Idle doing) (fupd A None making) drafts stk t X s.

Lemma is_async_same t s b s' : is_async t s = Some (b, s') -> s' = s.
Proof.
  unfold is_async. intros H. apply bind_Some in H as (X & s1 & [-> _]%txn_at_inv & H). apply bind_Some in H as (bf & s1 & [-> _]%deref_inv & H).
  apply bind_Some in H as (B & s1 & [-> _]%d_buf_inv & H). by mrun.
Qed.

Lemma proc_transaction_node t p f s b s' X : binder_proc_transaction t p f s = Some (b, s') -> transactions s !! t = Some X ->
  forall c B, buffer_of s X c B -> target_node B <> None.
Proof.
  intros H HX c B (q & al & Hb & Hal & HB). unfold binder_proc_transaction in H. apply bind_Some in H as (X0 & s1 & [-> HX0]%txn_at_inv & H).
  assert (X0 = X) as -> by congruence. apply bind_Some in H as (bf & s1 & [-> Hbf]%deref_inv & H).
  apply bind_Some in H as (B' & s1 & [-> (al' & Hal' & HB')]%d_buf_inv & H). apply bind_Some in H as (n & s1 & [-> Hn]%deref_inv & H).
  assert (bf = (q, c)) as -> by congruence. simpl in *. assert (al' = al) as -> by congruence. congruence.
Qed.

Lemma pop_lists A t s u s' : binder_pop_transaction_ilocked A t s = Some (u, s') -> works (graph s') = works (graph s).
Proof.
  unfold binder_pop_transaction_ilocked. intros H. apply bind_Some in H as (T & s1 & [-> HT]%d_thread_inv & H).
  apply bind_Some in H as (? & s1 & [-> _]%bug_on_inv & H). apply bind_Some in H as (X & s1 & [-> _]%txn_at_inv & H).
  apply bind_Some in H as (? & s1 & [-> _]%bug_on_inv & H). apply bind_Some in H as (? & s1 & (g & Hg & ->)%in_graph_inv & H).
  unfold put_thread_at in Hg. unfold put_txn in H. by mrun.
Qed.

Lemma loose_works m t s s' : works (graph s') = works (graph s) -> loose m t s -> loose m t s'.
Proof. intros Ew [Hq Hm]. split; [|done]. intros l. unfold queue. rewrite Ew. apply Hq. Qed.

Lemma commit_call_good stk A t c tp f s b s' : G None None None stk None s -> making A = Some t -> doing A = Calling tp f ->
  drafts A = Call (Some A) None f None (Some tp) false -> commit_call A t c tp f s = Some (b, s') -> committed A t false b s'.
Proof.
  intros HG HmA Hd Ed H. unfold commit_call in H. apply bind_Some in H as (a & s1 & ->%is_async_same & H).
  apply bind_Some in H as (? & s1 & [-> _]%bug_on_inv & H). apply bind_Some in H as (? & s1 & H1 & H).
  assert (K1 : hush (Some A) s s1) by (eapply hush_in_graph; [|exact H1]; by apply keeps_deferred).
  assert (G1 : G None None None stk None s1).
  { eapply good_hush; [exact HG|exact K1|]. eapply awake_doing; [exact HG|]. rewrite Hd. by split. }
  clear H1 K1 HG. apply bind_Some in H as (T & s2 & [-> HT]%d_thread_inv & H). apply bind_Some in H as (? & s2 & H2 & H).
  unfold upd_txn, put_txn in H2. apply bind_Some in H2 as (X & s3 & [-> HX]%txn_at_inv & H2). injection H2 as _ <-.
  apply bind_Some in H as (? & s3 & H3 & H). unfold upd_thread in H3. apply in_graph_inv in H3 as (g3 & H3 & ->).
  apply bind_Some in H3 as (T' & g4 & [-> HT']%thread_at_inv & H3). simpl in HT'. assert (T' = T) as -> by congruence. unfold put_thread_at in H3. injection H3 as _ <-.
  apply bind_Some in H as (ok & s4 & H4 & H).
  assert (Hnode : forall b0 B, buffer_of s1 X b0 B -> target_node B <> None).
  { intros b0 B HB. eapply (proc_transaction_node _ _ _ _ _ _ (set_from_parent (transaction_stack T) X) H4); [simpl; by rewrite lookup_insert_eq|exact HB]. }
  pose proof (push_good stk s1 A t tp f T X G1 HmA Hd Ed HT HX Hnode) as HP. set (s3 := set_d_graph _ _) in *.
  pose proof (binder_proc_transaction_good _ _ _ _ _ _ _ _ _ _ _ HP H4) as HR. destruct ok; mrun; [by eexists|].
  destruct HR as (X4 & HP4 & S4). match goal with H : binder_pop_transaction_ilocked _ _ _ = _ |- _ => rename H into H5 end.
  destruct HP4 as [G4 HX4 HL4 _]. assert (En : need_reply X4 = true) by by rewrite (same_need _ _ S4). rewrite En in G4.
  destruct (pop_good _ _ _ _ _ _ _ _ _ _ _ G4 ltac:(by left) H5) as (G5 & _ & (X5 & HX5 & _ & HX5')). eexists _, _.
  split; [eapply hand_good; [exact G5|done]|exact HX5'|]. eapply loose_works; [by eapply pop_lists|exact HL4].
Qed.

Lemma rest_good hand ex lex stk s A : G hand ex lex stk None s -> ~ is_replying (doing A) -> off_duty (doing A) ->
  good (fupd A Idle doing) making drafts hand ex lex stk None s.
Proof.
  intros HG Hr Hd. apply good_set_doing; [done|]. pose proof HG as [I _ _]. apply inv_set_doing; try done.
  - apply not_true_iff_false. intros Hw. destruct (i_wait _ _ _ I A Hw) as [E' _]. by destruct (Hd true).
  - by intros (? & ? & ?).
  - split; try done. by intros [[=]|[=]].
Qed.

Lemma reply_take_good hand ex lex stk s A r f : G hand ex lex stk None s -> doing A = Replying r f ->
  good (fupd A Idle doing) making drafts hand ex lex stk (Some r) s.
Proof. intros [I W L] Hd. split; [by apply (inv_reply_take stk (V ex s) A r f I)|done|done]. Qed.
End commit.

Section commit2.
Context (doing : nat -> activity) (making : nat -> option nat) (drafts : nat -> call).
Context `{RB : Rbtree} (E : driver_env).
Local Abbreviation V := (view doing making drafts).
Local Abbreviation G := (good doing making drafts).

(** What cannot be queued leaves the account again. *)
Lemma take_back d m stk t X s : good d m drafts (Some t) None None stk None s -> transactions s !! t = Some X -> need_reply X = false ->
  loose m t s -> drafting d m drafts stk t X s.
Proof.
  intros HG HX Hn HL. split; [|done|done]. eapply hand_good; [by eapply tear_good; [exact HG|left|..]|done].
Qed.

Lemma drafting_rest d m stk t X s A : drafting d m drafts stk t X s -> ~ is_replying (d A) -> off_duty (d A) -> drafting (fupd A Idle d) m drafts stk t X s.
Proof. intros [HG HX HL] Hr Hd. split; [by apply rest_good|done|done]. Qed.

Lemma commit_oneway_good stk A t c tp node s b s' : G None None None stk None s -> making A = Some t -> doing A = Posting ->
  drafts A = Call None None None None (Some tp) false -> commit_oneway A t c tp node s = Some (b, s') -> committed doing making drafts A t false b s'.
Proof.
  intros HG HmA Hd Ed H. unfold commit_oneway in H. apply bind_Some in H as (? & s1 & [-> _]%bug_on_inv & H).
  apply bind_Some in H as (a & s1 & ->%is_async_same & H). apply bind_Some in H as (? & s1 & [-> _]%bug_on_inv & H).
  apply bind_Some in H as (? & s1 & H1 & H).
  assert (Hoff : off_duty (doing A)) by (rewrite Hd; by split). assert (Hnr : ~ is_replying (doing A)) by (rewrite Hd; by intros (? & ? & ?)).
  assert (G1 : G None None None stk None s1).
  { eapply good_hush; [exact HG| |by eapply awake_doing]. eapply hush_in_graph; [|exact H1]. by apply keeps_thread_work. }
  destruct (handoff_good _ _ _ _ _ _ _ G1 HmA ltac:(by rewrite Ed)) as (X & HX & Ec & Hn & HL & G2).
  assert (HP : posting doing (fupd A None making) drafts stk t X tp None s1).
  { split; [by rewrite Hn|done|done|]. rewrite Ec, Ed. split; simpl; done. }
  pose proof (binder_proc_transaction_good _ _ _ _ _ _ _ _ _ _ _ HP H) as HR. destruct b.
  - exists stk. by apply rest_good.
  - destruct HR as (X' & [G3 HX3 HL3 _] & S3). assert (Hn3 : need_reply X' = false) by by rewrite (same_need _ _ S3). rewrite Hn3 in G3.
    exists stk, X'. apply drafting_rest; [by apply take_back|done|done].
Qed.

Lemma commit_reply_good stk A t c f r d s b s' : G None None None stk None s -> making A = Some t -> doing A = Replying r (Some f) ->
  drafts A = Call None None (Some f) None d false -> commit_reply A t c f r s = Some (b, s') -> committed doing making drafts A t true b s'.
Proof.
  intros HG HmA Hd Ed H. unfold commit_reply in H. apply bind_Some in H as (? & s1 & H1 & H).
  assert (G1 : G None None None stk None s1).
  { eapply good_hush; [exact HG| |eapply awake_doing; [exact HG|rewrite Hd; by split]]. eapply hush_in_graph; [|exact H1]. by apply keeps_thread_work. }
  destruct (handoff_good _ _ _ _ _ _ _ G1 HmA ltac:(by rewrite Ed)) as (X & HX & Ec & Hn & HL & G2).
  apply bind_Some in H as (F & s2 & [-> HF]%d_thread_inv & H). destruct (thread_is_dead F); [mrun; exists stk, X; by apply take_back|].
  apply bind_Some in H as (a & s2 & ->%is_async_same & H). apply bind_Some in H as (? & s2 & [-> _]%bug_on_inv & H).
  apply bind_Some in H as (? & s2 & H2 & H). pose proof (reply_take_good _ _ _ _ _ _ _ _ _ _ _ G2 Hd) as G3.
  destruct (pop_good _ _ _ _ _ _ _ _ _ _ _ G3 ltac:(by left) H2) as (G4 & A4 & (R & HR & _ & HR')).
  set (doing' := fupd A Idle doing) in *. set (making' := fupd A None making) in *. set (stk' := fupd f (tail (stk f)) stk) in *.
  assert (Htr : t <> r).
  { intros ->. destruct (i_lim _ _ _ (g_calls _ _ _ _ _ _ _ _ _ G3) r eq_refl) as (Y & HY & Hs & _).
    destruct (view_tx_inv _ _ _ _ _ _ _ HY) as (Y' & HY' & ->). simpl in HY', Hs. congruence. }
  assert (HX4 : transactions s2 !! t = Some X).
  { unfold binder_pop_transaction_ilocked in H2. apply bind_Some in H2 as (T & s4 & [-> HT]%d_thread_inv & H2).
    apply bind_Some in H2 as (? & s4 & [-> _]%bug_on_inv & H2). apply bind_Some in H2 as (X0 & s4 & [-> _]%txn_at_inv & H2).
    apply bind_Some in H2 as (? & s4 & [-> _]%bug_on_inv & H2). apply bind_Some in H2 as (? & s4 & (g & Hg & ->)%in_graph_inv & H2).
    unfold put_txn in H2. injection H2 as _ <-. simpl. by rewrite lookup_insert_ne. }
  assert (HL4 : loose making' t s2) by (eapply loose_works; [by eapply pop_lists|done]).
  assert (HV4 : live (Some r) s2 !! t = Some X) by (simpl; by rewrite lookup_delete_ne).
  destruct (A4 f eq_refl) as [Hw Hls]. apply bind_Some in H as (? & s3 & (g3 & H3 & ->)%in_graph_inv & H).
  assert (Hq : queueable stk' (view doing' making' drafts (Some r) s2) t (call_of X) (thread_todo f)).
  { pose proof G4 as [I4 _ _]. rewrite Ec, Ed. split; simpl; try done.
    - intros B [= <-]. split; [done|]. split; [|done]. intros Hi. pose proof (view_tx doing' making' drafts (Some r) s2 t X HV4) as HVX.
      destruct (top (view doing' making' drafts (Some r) s2) f) as [o|] eqn:Ho; [|rewrite (i_dead _ _ _ I4 f Ho) in Hi; by apply not_elem_of_nil in Hi].
      destruct (stack_role _ _ _ _ t (i_stack _ _ _ I4 f o Ho) Hi) as [(Y & HY & Hs & _)|(Y & HY & Hs & _)];
        rewrite HVX in HY; injection HY as <-; simpl in Hs; congruence.
    - apply HL4. }
  assert (Hl : if need_reply X then (None : option nat) = Some t else loose making' t s2) by by rewrite Hn.
  pose proof (post_thread_good doing' making' drafts (Some r) (Some r) stk' None s2 t X G4 HV4 Hl f _ _ Hq Hw H3) as G5. rewrite Hn in G5.
  apply bind_Some in H as (? & s4 & H4 & H). assert (K4 : hush None (set_d_graph g3 s2) s4) by (eapply hush_in_graph; [|exact H4]; apply keeps_wake_up).
  pose proof (good_hush _ _ _ None _ _ _ _ _ _ _ G5 K4 (awake_None _ _ _ _)) as G6. apply bind_Some in H as (? & s5 & H5 & H). mrun.
  destruct (free_good _ _ _ _ _ _ _ _ _ _ G6 H5) as [G7 _]. by exists stk'.
Qed.
End commit2.

(** ** The ends *)

(** The targets [select_target] leaves. *)
Definition tg_ok (reply : bool) (tr : binder_transaction_data) (tg : txn_target) : Prop :=
  match tg with
  | Target (Some _) (Some _) (Some _) None => reply = true
  | Target None f (Some _) (Some _) => reply = false /\ (one_way (tr_flags tr) = true -> f = None)
  | _ => False
  end.

Section ends.
Context (doing : nat -> activity) (making : nat -> option nat) (drafts : nat -> call).
Context `{RB : Rbtree} (E : driver_env).
Local Abbreviation V := (view doing making drafts).
Local Abbreviation G := (good doing making drafts).

Lemma hush_finish tg : keeps (hush None) (finish_transaction E tg).
Proof.
  intros s u s' H. unfold finish_transaction in H. apply bind_Some in H as (? & s1 & H1 & H). apply bind_Some in H as (? & s2 & H2 & H).
  etrans; [eapply (hush_opt None); [intros y; apply (hush_thread_dec None)|exact H1]|].
  etrans; [eapply (hush_opt None); [intros y; apply (hush_proc_dec None)|exact H2]|].
  eapply (hush_opt None); [intros y; apply hush_in_graph, keeps_dec_node_tmpref|exact H].
Qed.

(** What the sender of a failed transaction was doing. *)
Definition failing (A : nat) (r : option nat) : Prop :=
  match r with Some r => exists f, doing A = Replying r f | None => ~ is_replying (doing A) /\ off_duty (doing A) end.

Lemma failing_off A r : failing A r -> off_duty (doing A).
Proof. destruct r; [intros [f E'] w; by rewrite E'|by intros [_ ?]]. Qed.

Lemma fail_transaction_good stk A e tg s u s' : G None None None stk None s -> failing A (tg_reply_to tg) ->
  fail_transaction E A e tg s = Some (u, s') -> exists stk', good (fupd A Idle doing) making drafts None None None stk' None s'.
Proof.
  intros HG HF H. pose proof (failing_off _ _ HF) as Hoff. unfold fail_transaction in H.
  apply bind_Some in H as (? & s1 & H1 & H). apply bind_Some in H as (? & s2 & H2 & H). apply bind_Some in H as (? & s3 & H3 & H).
  assert (K3 : hush None s s3).
  { etrans; [eapply (hush_opt None); [intros y; apply (hush_thread_dec None)|exact H1]|].
    etrans; [eapply (hush_opt None); [intros y; apply (hush_proc_dec None)|exact H2]|].
    eapply (hush_opt None); [|exact H3]. intros y. apply hush_in_graph. quieting. }
  pose proof (good_hush _ _ _ None _ _ _ _ _ _ _ HG K3 (awake_None _ _ _ _)) as G3. clear H1 H2 H3 K3.
  apply bind_Some in H as (T & s4 & [-> _]%d_thread_inv & H). apply bind_Some in H as (? & s4 & [-> _]%bug_on_inv & H).
  destruct (tg_reply_to tg) as [r|].
  - apply bind_Some in H as (? & s4 & H4 & H). destruct HF as [f Hd].
    pose proof (good_hush _ _ _ _ _ _ _ _ _ _ _ G3 (hush_post_return (Some A) A _ eq_refl _ _ _ H4) (awake_doing _ _ _ _ _ _ _ _ _ _ G3 Hoff)) as G4.
    by eapply send_failed_good; [by eapply reply_take_good|].
  - destruct HF as [Hr _]. exists stk. apply rest_good; [|done|done].
    exact (good_hush _ _ _ _ _ _ _ _ _ _ _ G3 (hush_post_return (Some A) A _ eq_refl _ _ _ H) (awake_doing _ _ _ _ _ _ _ _ _ _ G3 Hoff)).
Qed.

Lemma fail_dead_good stk A tr t c tg X s u s' : drafting doing making drafts stk t X s -> failing A (tg_reply_to tg) ->
  fail_dead E A tr t c tg s = Some (u, s') -> exists stk', good (fupd A Idle doing) making drafts None None None stk' None s'.
Proof.
  intros HD HF H. unfold fail_dead in H. apply bind_Some in H as (? & s1 & H1 & H).
  assert (K1 : hush None s s1) by (eapply hush_in_graph; [|exact H1]; by apply keeps_dequeue).
  destruct (draft_hush0 _ _ _ _ _ _ _ _ HD K1) as (X1 & HD1 & _). apply bind_Some in H as (X0 & s2 & [-> HX0]%txn_at_inv & H).
  assert (X0 = X1) as -> by (destruct HD1; congruence). apply bind_Some in H as ([p b] & s2 & [-> Hb]%deref_inv & H).
  apply bind_Some in H as (? & s2 & H2 & H). pose proof (undo_buffer_good _ _ _ _ _ _ _ _ _ _ _ _ _ _ _ HD1 Hb H2) as G2.
  by eapply fail_transaction_good; [exact G2| |exact H].
Qed.
End ends.

Section whole.
Context (doing : nat -> activity) (making : nat -> option nat) (drafts : nat -> call).
Context `{RB : Rbtree} (E : driver_env).
Local Abbreviation G := (good doing making drafts).

Lemma idle_failing A : failing (fupd A Idle doing) A None.
Proof. split; rewrite fupd_eq; [by intros (? & ? & ?)|by intros w]. Qed.

Lemma idle_twice A x : fupd A Idle (fupd A Idle doing) x = fupd A Idle doing x.
Proof. unfold fupd. by case_decide. Qed.

(** The activity of a thread only counts pointwise. *)
Lemma good_doing_ext d d' m hand ex lex stk lim s : (forall x, d' x = d x) -> good d m drafts hand ex lex stk lim s -> good d' m drafts hand ex lex stk lim s.
Proof. intros Hd [I W L]. split; [|done|done]. eapply inv_calm; [exact I|]. by apply calm_eq. Qed.

Lemma commit_transaction_good stk A reply tr t c tg s u s' : G None None None stk None s -> making A = Some t -> doing A = sending tr tg ->
  drafts A = draft_of A reply tr tg -> tg_ok reply tr tg -> commit_transaction E A tr t c tg s = Some (u, s') ->
  exists stk', good (fupd A Idle doing) (fupd A None making) drafts None None None stk' None s'.
Proof.
  intros HG HmA Hd Ed Hok H. unfold commit_transaction in H. apply bind_Some in H as (ok & s1 & H1 & H).
  assert (HC : committed doing making drafts A t reply ok s1 /\ if reply then exists r, tg_reply_to tg = Some r /\ exists f, doing A = Replying r f else tg_reply_to tg = None).
  { unfold commit in H1. apply bind_Some in H1 as (tp & s2 & [-> Htp]%deref_inv & H1). unfold sending in Hd. unfold draft_of in Ed.
    destruct tg as [[r|] f [tp'|] n]; simpl in *; try done.
    - destruct f as [f|], n; try done. subst reply. apply bind_Some in H1 as (f' & s2 & [-> [= <-]]%deref_inv & H1).
      split; [by eapply commit_reply_good|]. exists r. split; [done|by exists (Some f)].
    - destruct n as [n|]; [|by destruct f]. destruct Hok as [-> Hf]. assert (tp' = tp) as -> by congruence. split; [|done].
      destruct (one_way (tr_flags tr)) eqn:Ho; simpl in *; [|by eapply commit_call_good].
      rewrite (Hf eq_refl) in *. by eapply commit_oneway_good. }
  destruct HC as [HC Hr]. destruct ok.
  - destruct HC as [stk1 G1]. exists stk1. eapply good_hush; [exact G1|eapply hush_finish; exact H|apply awake_None].
  - destruct HC as (stk1 & X & HD). destruct reply.
    + destruct Hr as (r & Er & Hf). destruct (fail_dead_good _ _ _ _ _ _ _ _ _ _ _ _ _ _ HD ltac:(by rewrite Er) H) as [stk2 G2]. by exists stk2.
    + destruct (fail_dead_good _ _ _ _ _ _ _ _ _ _ _ _ _ _ HD ltac:(rewrite Hr; apply idle_failing) H) as [stk2 G2]. exists stk2.
      eapply good_doing_ext; [|exact G2]. intros x. symmetry. apply idle_twice.
Qed.
End whole.
