(* ===== verification/BinderTxnExit.v ===== *)
(** * The end of a thread

    [binder_thread_release]: the thread leaves the calls on its stack, the
    one it was serving fails, and what is left on its list is dropped; and
    [binder_release_work], for the other lists of a process. *)

From Stdlib Require Import ZArith Lia.
From stdpp Require Import base option gmap sets list.
From S2P Require Import Prelude RbTree BinderAlloc BinderNode BinderTranslate BinderObjects BinderTxn BinderCalls.
From S2P Require Import BinderFrame BinderFrameAlloc BinderTxnView BinderTxnHush BinderTxnOps BinderTxnDeliver BinderTxnBuf BinderTxnTarget BinderTxnRead.
From S2P Require Import BinderTxnDraft BinderTxnBuild BinderTxnSend.

(** ** Down the stack *)

(** The stack as the loop walks it. *)
Inductive chain (m : gmap nat binder_transaction) (A : nat) : option nat -> list nat -> Prop :=
  | chain_nil : chain m A None []
  | chain_in t X l : m !! t = Some X -> to_thread X = Some A -> chain m A (to_parent X) l -> chain m A (Some t) (t :: l)
  | chain_out t X l : m !! t = Some X -> to_thread X <> Some A -> t_from X = Some A -> need_reply X = true -> chain m A (from_parent X) l -> chain m A (Some t) (t :: l).

Lemma chain_same m m' A o l : chain m A o l -> (forall t, t ∈ l -> m' !! t = m !! t) -> chain m' A o l.
Proof.
  intros H. induction H as [|t X l HX Ht Hc IH|t X l HX Ht Hf Hn Hc IH]; intros Hm; [constructor|..].
  - eapply chain_in; [rewrite Hm by left; exact HX|done|]. apply IH. intros u Hu. apply Hm. by right.
  - eapply chain_out; [rewrite Hm by left; exact HX|done|done|done|]. apply IH. intros u Hu. apply Hm. by right.
Qed.

Definition left_by (A : nat) (X : binder_transaction) : binder_transaction :=
  if decide (to_thread X = Some A) then set_orphan X else if decide (t_from X = Some A) then set_from None X else X.

Section chain.
Context (making : nat -> option nat).

Lemma orphan_links s t X s1 u : links making None None None s -> transactions s !! t = Some X ->
  opt (fun b => upd_buf b (set_transaction None)) (t_buffer X) s = Some (u, s1) ->
  links making None None None (set_transactions (<[t := set_orphan X]> (transactions s1)) s1) /\ graph s1 = graph s /\ transactions s1 = transactions s.
Proof.
  intros L HX H. assert (HP : parted X (set_orphan X)) by (by split; [..|left]).
  assert (HO : graph s1 = graph s /\ transactions s1 = transactions s /\ links making None None (Some t) s1 /\ ownerless t s1).
  { pose proof (links_loosen _ _ _ _ _ _ L HX) as L1. destruct (t_buffer X) as [[p b]|] eqn:Hb.
    - pose proof H as H'. apply upd_buf_inv in H as (al & B & Hal & HB & ->). simpl in *. split; [done|]. split; [done|]. split.
      + eapply links_buf; [exact L1|exact Hal|exact HB| |by intros v [=]]. intros v Y HY Hb'.
        pose proof (l_torn _ _ _ _ _ L1 t X v Y p b eq_refl HX HY Hb Hb'). congruence.
      + eapply (forget_ownerless making None None None t X); [exact L|exact HX|]. pose proof (l_dest _ _ _ _ _ L t X HX) as Hp. rewrite Hb.
        destruct (to_proc X); [exact H'|]. exfalso. by apply Hp; [rewrite Hb|].
    - simpl in H. mrun. split; [done|]. split; [done|]. split; [done|]. intros p al b B Hal HB HT.
      destruct (l_owner _ _ _ _ _ L p al b B t Hal HB HT) as (Y & HY & Hb'). congruence. }
  destruct HO as (Eg & Et & L1 & HO). split; [|done]. eapply links_part; [exact L1|by rewrite Et|exact HO|exact HP].
Qed.

Lemma from_links s t X : links making None None None s -> transactions s !! t = Some X -> need_reply X = true ->
  links making None None None (set_transactions (<[t := set_from None X]> (transactions s)) s).
Proof.
  intros L HX Hn. eapply links_keep; [exact L| | |done|by apply allocs_same| |]; simpl.
  - intros u Y. rewrite lookup_insert. case_decide as Eu; [|intros HY; split; [done|]; exists Y; split_and!; try done; by left].
    subst u. intros [= <-]. split; [done|]. exists X. split_and!; try done; [by right|by left].
  - intros u Y. rewrite lookup_insert. case_decide as Eu; [|intros HY; exists Y; split_and!; try done; by left].
    subst u. intros [= <-]. exists X. split_and!; try done. by right.
  - intros u Y HY _. rewrite lookup_insert. case_decide as Eu; [|by exists Y]. subst u. eexists. split; [done|]. simpl. congruence.
  - intros u Y. rewrite lookup_insert. case_decide as Eu; [|apply (l_dest _ _ _ _ _ L)]. intros [= <-]. by apply (l_dest _ _ _ _ _ L t X).
Qed.

(** What the loop does. *)
Lemma detach_loop_spec fuel : forall A o l s n r s', chain (transactions s) A o l -> NoDup l -> links making None None None s ->
  detach_loop fuel A o n s = Some (r, s') -> links making None None None s' /\ graph s' = graph s /\
  forall u, transactions s' !! u = if decide (u ∈ l) then left_by A <$> transactions s !! u else transactions s !! u.
Proof.
  induction fuel as [|fuel IH]; intros A o l s n r s' HC Hnd L H; [done|]. simpl in H. destruct HC as [|t X l HX Ht HC|t X l HX Ht Hf Hn HC].
  - mrun. split; [done|]. split; [done|]. intros u. by rewrite decide_False by apply not_elem_of_nil.
  - apply NoDup_cons in Hnd as [Htl Hnd]. apply bind_Some in H as (X' & s1 & [-> HX']%txn_at_inv & H). assert (X' = X) as -> by congruence.
    rewrite decide_True in H by done. apply bind_Some in H as (u & s1 & H1 & H). destruct (orphan_links _ _ _ _ _ L HX H1) as (L1 & Eg & Et).
    apply bind_Some in H as (? & s2 & [= _ <-] & H). set (s2 := set_transactions _ s1) in *.
    assert (HC2 : chain (transactions s2) A (to_parent X) l).
    { eapply chain_same; [exact HC|]. intros v Hv. simpl. rewrite lookup_insert_ne by (by intros <-). by rewrite Et. }
    destruct (IH _ _ _ _ _ _ _ HC2 Hnd L1 H) as (L' & Eg' & Et'). split; [done|]. split; [by rewrite Eg'|]. intros v. rewrite Et'. simpl. rewrite Et.
    destruct (decide (v = t)) as [->|Hv].
    + rewrite (decide_False (P := t ∈ l)) by done. rewrite (decide_True (P := t ∈ t :: l)) by left. rewrite lookup_insert_eq, HX. simpl.
      unfold left_by. by rewrite decide_True.
    + rewrite lookup_insert_ne by done. destruct (decide (v ∈ l)) as [Hi|Hi]; [by rewrite decide_True by by right|].
      rewrite decide_False; [done|]. by intros [?|?]%elem_of_cons.
  - apply NoDup_cons in Hnd as [Htl Hnd]. apply bind_Some in H as (X' & s1 & [-> HX']%txn_at_inv & H). assert (X' = X) as -> by congruence.
    rewrite decide_False, decide_True in H by done. apply bind_Some in H as (? & s2 & [= _ <-] & H).
    pose proof (from_links _ _ _ L HX Hn) as L1. set (s2 := set_transactions _ s) in *.
    assert (HC2 : chain (transactions s2) A (from_parent X) l).
    { eapply chain_same; [exact HC|]. intros v Hv. simpl. by rewrite lookup_insert_ne by (by intros <-). }
    destruct (IH _ _ _ _ _ _ _ HC2 Hnd L1 H) as (L' & Eg' & Et'). split; [done|]. split; [by rewrite Eg'|]. intros v. rewrite Et'. simpl.
    destruct (decide (v = t)) as [->|Hv].
    + rewrite (decide_False (P := t ∈ l)) by done. rewrite (decide_True (P := t ∈ t :: l)) by left. rewrite lookup_insert_eq, HX. simpl.
      unfold left_by. by rewrite decide_False, decide_True.
    + rewrite lookup_insert_ne by done. destruct (decide (v ∈ l)) as [Hi|Hi]; [by rewrite decide_True by by right|].
      rewrite decide_False; [done|]. by intros [?|?]%elem_of_cons.
Qed.

(** It ends, where the buffers of the transactions are there. *)
Definition buffers_there (s : driver) : Prop :=
  forall t X p b, transactions s !! t = Some X -> t_buffer X = Some (p, b) -> is_Some (allocs s !! p).

Lemma buffers_there_put t X s al : buffers_there s -> (forall p, is_Some (allocs s !! p) -> is_Some (al !! p)) ->
  (forall p b, t_buffer X = Some (p, b) -> is_Some (allocs s !! p)) -> buffers_there (set_transactions (<[t := X]> (transactions s)) (set_allocs al s)).
Proof.
  intros H Ha HX u Y p b HY Hb. apply Ha. simpl in HY. apply lookup_insert_Some in HY as [[_ <-]|[_ HY]]; [by eapply HX|by eapply H].
Qed.

Lemma forget_runs s t X : links making None None None s -> buffers_there s -> transactions s !! t = Some X ->
  exists al, opt (fun b => upd_buf b (set_transaction None)) (t_buffer X) s = Some (tt, set_allocs al s) /\
    forall p, is_Some (allocs s !! p) -> is_Some (al !! p).
Proof.
  intros L Hb HX. destruct (t_buffer X) as [[p b]|] eqn:E; [|exists (allocs s); split; [by destruct s|done]].
  destruct (Hb t X p b HX E) as [al Hal]. destruct (l_attached _ _ _ _ _ L t X p b al HX E Hal) as (B & HB & _).
  exists (<[p := set_store (<[b := set_transaction None B]> (store al)) al]> (allocs s)). split.
  - cbn [opt fst snd]. unfold upd_buf, in_alloc. cbn [fst snd]. rewrite Hal. unfold buf_at, bind, get, deref. by rewrite HB.
  - intros q [x Hx]. rewrite lookup_insert. case_decide; [done|]. by exists x.
Qed.

Lemma detach_loop_runs l : forall fuel A o s n, chain (transactions s) A o l -> NoDup l -> links making None None None s -> buffers_there s ->
  (length l < fuel)%nat -> exists s', detach_loop fuel A o n s = Some (n + Z.of_nat (length l), s').
Proof.
  induction l as [|t l IH]; intros fuel A o s n HC Hnd L Hb Hlen; (destruct fuel as [|fuel]; [simpl in Hlen; lia|]).
  - inversion HC. exists s. simpl. by rewrite Z.add_0_r.
  - apply NoDup_cons in Hnd as [Htl Hnd]. cbn [length] in *. rewrite Nat2Z.inj_succ. replace (n + Z.succ _) with (n + 1 + Z.of_nat (length l)) by lia.
    assert (Hsame : forall X' q m', chain m' A q l -> chain (<[t := X']> m') A q l).
    { intros X' q m' Hc. eapply chain_same; [exact Hc|]. intros v Hv. rewrite lookup_insert_ne by (by intros <-). done. }
    inversion HC as [|? X ? HX Ht HC' E1 E2|? X ? HX Ht Hf Hn HC' E1 E2]; subst; cbn [detach_loop]; rewrite (bind_eq _ _ _ _ _ (txn_at_eq t X s HX)).
    + rewrite decide_True by done. destruct (forget_runs s t X L Hb HX) as (al & Er & Ha). rewrite (bind_eq _ _ _ _ _ Er).
      destruct (orphan_links _ _ _ _ _ L HX Er) as (L1 & _ & _). unfold put_txn, modify. unfold bind at 1.
      apply IH; [by apply Hsame|done|exact L1|by apply (buffers_there_put t (set_orphan X) s al)|lia].
    + pose proof (buffers_there_put t (set_from None X) s (allocs s) Hb (fun _ H => H) (fun p b E => Hb t X p b HX E)) as Hb2.
      replace (set_allocs (allocs s) s) with s in Hb2 by by destruct s.
      rewrite decide_False, decide_True by done. unfold put_txn, modify. unfold bind at 1. pose proof (from_links _ _ _ L HX Hn) as L1.
      apply IH; [by apply Hsame|done|exact L1|exact Hb2|lia].
Qed.
End chain.

(** ** The thread leaves *)

Section exit.
Context (doing : nat -> activity) (making : nat -> option nat) (drafts : nat -> call).
Context `{RB : Rbtree} (E : driver_env).
Local Abbreviation V := (view doing making drafts).
Local Abbreviation G := (good doing making drafts).

Lemma stack_chain s A o l : stack_ok (V None s) A o l -> chain (transactions s) A o l.
Proof.
  intros H. induction H as [|t Y l HY Hs Hv Hn Hh Hl IH|t Y l HY Hs Hv Hn Hh Hl IH]; [constructor|..];
    destruct (view_tx_inv _ _ _ _ _ _ _ HY) as (X & HX & ->); [by eapply chain_in|by eapply chain_out].
Qed.

Lemma left_detach A X : t_from X <> to_thread X \/ to_thread X = None -> call_of (left_by A X) = detach A (call_of X).
Proof.
  intros Hne. unfold left_by, detach, call_of. simpl. destruct (decide (to_thread X = Some A)) as [Et|Et].
  - rewrite Et, not_me_eq. simpl. f_equal. symmetry. apply not_me_ne. destruct Hne; congruence.
  - rewrite (not_me_ne A (to_thread X) Et). destruct (decide (t_from X = Some A)) as [Ef|Ef]; simpl; [by rewrite Ef, not_me_eq|].
    by rewrite (not_me_ne A (t_from X) Ef).
Qed.

Lemma set_dead_inv A z s u s' : upd_thread A (fun T => set_life (z T) true T) s = Some (u, s') ->
  exists T, threads (graph s) !! A = Some T /\ s' = set_d_graph (set_threads (<[A := set_life (z T) true T]> (threads (graph s))) (graph s)) s.
Proof.
  unfold upd_thread. intros (g & H & ->)%in_graph_inv. apply bind_Some in H as (T & g1 & [-> HT]%thread_at_inv & H). unfold put_thread_at in H.
  mrun. by exists T.
Qed.

Lemma thread_detach_good stk A s o n s' : G None None None stk None s -> doing A = Idle -> alive A s ->
  thread_detach A s = Some ((o, n), s') -> exists stk', G None None None stk' o s'.
Proof.
  intros HG Hd (T0 & HT0 & HD0) H. unfold thread_detach in H. apply bind_Some in H as (T & s1 & [-> HT]%d_thread_inv & H). cbv zeta in H.
  assert (T0 = T) as -> by congruence. clear HT0. apply bind_Some in H as (? & s1 & H1 & H). apply bind_Some in H as (? & s2 & H2 & H).
  assert (K2 : hush None s s2).
  { etrans; [by eapply (hush_proc_inc None)|].
    eapply (hush_upd_proc None (thread_proc T) (fun P => set_proc_threads (rb_erase A (proc_threads P)) P)); [done|exact H2]. }
  destruct (alive_hush None s s2 A T K2 HT HD0) as (T2 & HT2 & HD2 & S2). clear H1 H2.
  pose proof (good_hush _ _ _ None _ _ _ _ _ _ _ HG K2 (awake_None _ _ _ _)) as G2. rewrite <- (st_stack _ _ S2) in H.
  apply bind_Some in H as (sr & s3 & H3 & H). pose proof G2 as [I W L].
  assert (Ho : top (V None s2) A = Some (transaction_stack T2)) by (simpl; by rewrite HT2, HD2).
  assert (s3 = s2 /\ sr = detached (V None s2) A (transaction_stack T2)) as [-> ->].
  { unfold detached. destruct (transaction_stack T2) as [t|]; [|by mrun]. apply bind_Some in H3 as (X & s4 & [-> HX]%txn_at_inv & H3).
    rewrite (view_tx doing making drafts None s2 t X HX). simpl. case_decide; by mrun. }
  clear H3. apply bind_Some in H as (? & s3 & H3 & H). destruct (set_dead_inv A (fun T => s32 (thread_tmp_ref T + 1)) _ _ _ H3) as (T3 & HT3 & ->). clear H3.
  assert (T3 = T2) as -> by congruence. apply bind_Some in H as (? & ? & [= <- <-] & H). apply bind_Some in H as (a & s4 & H4 & H). injection H as <- <- <-.
  set (s3 := set_d_graph _ s2) in *. pose proof (i_stack _ _ _ I A _ Ho) as Hst.
  assert (L3 : links making None None None s3) by by destruct L.
  pose proof (stack_chain _ _ _ _ Hst) as HC. change (transactions s2) with (transactions s3) in HC.
  destruct (detach_loop_spec making _ _ _ _ s3 _ _ _ HC (stack_nodup _ _ _ _ _ _ I Hst) L3 H4) as (L4 & Eg & Et).
  assert (Htx : forall t, (call_of <$> transactions s4) !! t = if decide (t ∈ stk A) then detach A <$> tx (V None s2) !! t else tx (V None s2) !! t).
  { intros t. rewrite lookup_fmap, Et. simpl. rewrite lookup_fmap. case_decide as Hi; [|done]. destruct (transactions s2 !! t) as [X|] eqn:HX; [|done]. simpl.
    f_equal. apply left_detach. pose proof (view_tx doing making drafts None s2 t X HX) as HV.
    destruct (stack_role _ _ _ _ t Hst Hi) as [(Y & HY & _ & Hv & Hn)|(Y & HY & _ & Hv & Hn)]; rewrite HV in HY; injection HY as <-; simpl in *; left; congruence. }
  pose proof (inv_detach stk (V None s2) A (transaction_stack T2) I Hd Ho (call_of <$> transactions s4) Htx) as ID.
  exists (fupd A [] stk). split; [|rewrite Eg|done].
  - eapply inv_calm; [exact ID|]. apply calm_eq; try done; simpl; rewrite Eg; simpl.
    + intros B. rewrite lookup_insert. unfold fupd. case_decide as EB; [subst B; by rewrite decide_True|]. by rewrite decide_False by (by intros ->).
    + done.
    + intros B. rewrite lookup_insert. case_decide as EB; [|done]. subst B. by rewrite HT2.
    + intros B. rewrite lookup_insert. case_decide as EB; [|done]. subst B. by rewrite HT2.
    + intros B. rewrite lookup_insert. case_decide as EB; [|done]. subst B. by rewrite HT2.
  - intros p. destruct (W p) as [Hnd Hp]. split; [done|]. intros B HB. destruct (Hp B HB) as (TB & HTB & Ep). simpl. rewrite lookup_insert.
    case_decide as EB; [|by exists TB]. subst B. eexists. split; [done|]. simpl. congruence.
Qed.
(** ** What is left on a list *)

Lemma release_txn_good stk t s l u s' : G None None None stk None s -> head (queue l (graph s)) = Some (WTransaction t) ->
  binder_cleanup_transaction E t BR_DEAD_REPLY (set_d_graph (without (WTransaction t) (graph s)) s) = Some (u, s') ->
  exists stk', G None None None stk' None s'.
Proof.
  intros HG Hh H. pose proof (head_item _ _ _ Hh) as Ht. pose proof HG as [I _ _].
  assert (Hi : t ∈ items (V None s) l) by by rewrite items_view.
  destruct (i_item _ _ _ I t _ Hi) as (Y & HY & _). destruct (view_tx_inv _ _ _ _ _ _ _ HY) as (X & HX & ->).
  destruct (take_good doing making drafts _ _ _ s t X _ HG HX Ht) as (G1 & L1 & _).
  change (set_works (list_del (WTransaction t) <$> works (graph s)) (graph s)) with (without (WTransaction t) (graph s)) in *.
  set (s1 := set_d_graph (without (WTransaction t) (graph s)) s) in *.
  destruct (cleanup_good doing making drafts E (Some t) None stk _ t X s1 u s' BR_DEAD_REPLY G1 ltac:(by left) HX) as [stk' G2]; [| |exact H|].
  - by destruct (need_reply X).
  - intros Hn b B HB. pose proof (g_links _ _ _ _ _ _ _ _ _ G1) as L. by apply (l_unread _ _ _ _ _ L t X b B); [right; right|..].
  - exists stk'. by apply (hand_good doing making drafts (Some t)).
Qed.

Lemma hush_release_item w : txn_of w = None -> keeps (hush None) (release_item E w).
Proof.
  intros Hw. unfold release_item. destruct w as [t|c|x|x|n|d]; try done; try (apply hush_in_graph; quieting).
  - apply hush_reads, reads_ret.
  - apply hush_reads, reads_ret.
  - apply hush_reads, reads_ret.
  - intros s u s' H. apply bind_Some in H as (D & s1 & (g & H1 & ->)%in_graph_inv & H). apply reads_death_at in H1 as ->. rewrite set_own_graph in H.
    assert (K : keeps (hush None) (in_graph (modify (fun s => set_deaths (delete d (deaths s)) s) ;! binder_stats_deleted BINDER_STAT_DEATH))).
    { apply hush_in_graph. quieting. apply keeps_modify. intros x. by apply quiet_same. }
    destruct (death_work_type D) as [[]|]; first [by mrun|by eapply K].
Qed.

Lemma release_work_good fuel : forall stk l s u s', G None None None stk None s -> binder_release_work E fuel l s = Some (u, s') ->
  exists stk', G None None None stk' None s'.
Proof.
  induction fuel as [|fuel IH]; intros stk l s u s' HG H; [done|]. simpl in H. apply bind_Some in H as (o & s1 & (g & H1 & ->)%in_graph_inv & H).
  apply dequeue_head_inv in H1 as [(_ & -> & ->)|(w & Hh & -> & ->)]; [rewrite set_own_graph in H; mrun; by exists stk|].
  apply bind_Some in H as (? & s2 & H2 & H). destruct (txn_of w) as [t|] eqn:Hw.
  - assert (Ew : w = WTransaction t) by (destruct w; simpl in Hw; congruence). subst w.
    destruct (release_txn_good _ _ _ _ _ _ HG Hh H2) as [stk2 G2]. by eapply IH.
  - pose proof (good_hush _ _ _ None _ _ _ _ _ _ _ HG (hush_without None w s Hw) (awake_None _ _ _ _)) as G1.
    eapply IH; [|exact H]. eapply good_hush; [exact G1|by eapply hush_release_item|apply awake_None].
Qed.

Lemma release_list_good stk l s u s' : G None None None stk None s -> release_list E l s = Some (u, s') -> exists stk', G None None None stk' None s'.
Proof. intros HG H. unfold release_list in H. apply bind_Some in H as (? & ? & [= <- <-] & H). by eapply release_work_good. Qed.

(** The whole of [binder_thread_release]. *)
Lemma thread_release_good stk A s n s' : G None None None stk None s -> doing A = Idle -> alive A s ->
  binder_thread_release E A s = Some (n, s') -> exists stk', G None None None stk' None s'.
Proof.
  intros HG Hd HA H. unfold binder_thread_release in H. apply bind_Some in H as ([o n'] & s1 & H1 & H).
  destruct (thread_detach_good _ _ _ _ _ _ HG Hd HA H1) as [stk1 G1]. apply bind_Some in H as (? & s2 & H2 & H). simpl in H2.
  assert (HG2 : exists stk2, G None None None stk2 None s2).
  { destruct o as [t|]; simpl in H2; [by eapply send_failed_good|mrun; by exists stk1]. }
  destruct HG2 as [stk2 G2]. apply bind_Some in H as (? & s3 & H3 & H). destruct (release_list_good _ _ _ _ _ G2 H3) as [stk3 G3].
  apply bind_Some in H as (? & s4 & H4 & H). mrun. exists stk3. eapply good_hush; [exact G3|by eapply (hush_thread_dec None)|apply awake_None].
Qed.

(** ** The end of a process *)

Lemma release_node_good stk p n s r s' : G None None None stk None s -> release_node E p n s = Some (r, s') -> exists stk', G None None None stk' None s'.
Proof.
  intros HG H. unfold release_node in H. apply bind_Some in H as (P & s1 & [-> HP]%d_proc_inv & H). destruct (rb_first (proc_nodes P)) as [m|]; [|mrun; by exists stk].
  apply bind_Some in H as (? & s1 & H1 & H). apply bind_Some in H as (? & s2 & H2 & H). apply bind_Some in H as (? & s3 & H3 & H).
  apply bind_Some in H as (c & s4 & H4 & H). mrun.
  assert (K1 : hush None s s1) by (eapply hush_in_graph; [|exact H1]; apply keeps_inc_node_tmpref).
  assert (Ew : waiting p (graph s1) = waiting p (graph s)).
  { apply in_graph_inv in H1 as (g & H1 & ->). unfold binder_inc_node_tmpref_ilocked, upd_node in H1. apply bind_Some in H1 as (N & g1 & [-> _]%node_at_inv & H1).
    unfold put_node_at in H1. by mrun. }
  assert (K2 : hush None s s2).
  { etrans; [exact K1|]. apply in_graph_inv in H2 as (g & H2 & ->). unfold put_proc_at in H2. injection H2 as _ <-. apply hush_graph, quiet_put_proc.
    rewrite Ew. unfold waiting. by rewrite HP. }
  pose proof (good_hush _ _ _ None _ _ _ _ _ _ _ HG K2 (awake_None _ _ _ _)) as G2. destruct (release_list_good _ _ _ _ _ G2 H3) as [stk3 G3].
  exists stk3. eapply good_hush; [exact G3| |apply awake_None]. eapply hush_in_graph; [|exact H4]. apply keeps_node_release.
Qed.
End exit.
