(* ===== verification/BinderTxnNew.v ===== *)
(** * Threads, processes and buffers coming in *)

From Stdlib Require Import ZArith Lia.
From stdpp Require Import base option gmap sets list.
From S2P Require Import Prelude RbTree BinderAlloc BinderNode BinderTranslate BinderObjects BinderTxn BinderCalls.
From S2P Require Import BinderFrame BinderFrameAlloc BinderTxnView BinderTxnHush BinderTxnOps BinderTxnDeliver BinderTxnBuf BinderTxnTarget BinderTxnRead.
From S2P Require Import BinderTxnDraft.

Section new.
Context (doing : nat -> activity) (making : nat -> option nat) (drafts : nat -> call).
Context `{RB : Rbtree} (E : driver_env).
Local Abbreviation V := (view doing making drafts).
Local Abbreviation G := (good doing making drafts).

(** ** A thread *)

(** The structure [kzalloc] returns is not in use: no thread has it, its list
    is empty, no call or reply is being made for it. *)
Definition fresh_thread (A : nat) (s : driver) : Prop :=
  threads (graph s) !! A = None /\ queue (thread_todo A) (graph s) = [] /\ forall B q, doing B <> Calling q (Some A) /\ doing B <> Replying q (Some A).

Lemma born_good stk s A p pid : G None None None stk None s -> fresh_thread A s ->
  G None None None stk None (set_d_graph (set_threads (<[A := Thread p pid 0 true None false BR_OK BR_OK 0 false]> (threads (graph s))) (graph s)) s).
Proof.
  intros [I W L] (HT & Hq & Hc). set (s' := set_d_graph _ s).
  assert (HA : forall q, A ∉ waiting q (graph s)).
  { intros q Hi. destruct (W q) as [_ Hp]. destruct (Hp A Hi) as (T & HT' & _). congruence. }
  split; [| |by destruct L].
  - eapply inv_calm; [apply (inv_born stk None (V None s) A p I)|].
    + simpl. by rewrite HT.
    + rewrite items_view. by rewrite Hq.
    + exact Hc.
    + apply calm_eq; try done; intros B; simpl; rewrite lookup_insert; unfold fupd; case_decide as EB; try (rewrite decide_False by (by intros ->)); try done.
      * subst B. by rewrite decide_True.
      * subst B. rewrite HT. simpl. by rewrite bool_decide_false by apply HA.
      * subst B. by rewrite HT.
      * subst B. by rewrite decide_True.
  - intros q. destruct (W q) as [Hnd Hp]. split; [done|]. intros B HB. destruct (Hp B HB) as (TB & HTB & Ep). exists TB. split; [|done].
    simpl. rewrite lookup_insert_ne; [done|]. intros <-. by destruct (HA q).
Qed.

Lemma reads_cmp_thread_pid pid A : reads (cmp_thread_pid pid A).
Proof. unfold cmp_thread_pid. reading. Qed.

Lemma get_thread_good stk p pid kz s o s' : G None None None stk None s -> (forall A, kz = Some A -> fresh_thread A s) ->
  binder_get_thread p pid kz s = Some (o, s') -> G None None None stk None s'.
Proof.
  intros HG Hf H. unfold binder_get_thread in H. apply bind_Some in H as (P & s1 & [-> HP]%d_proc_inv & H).
  apply bind_Some in H as (f & s1 & (g & H1 & ->)%in_graph_inv & H). apply reads_rb_find in H1 as ->; [|apply reads_cmp_thread_pid]. rewrite set_own_graph in H.
  destruct f as [A|]; [by mrun|]. destruct kz as [A|]; [|by mrun]. apply bind_Some in H as (l & s1 & (g & H1 & ->)%in_graph_inv & H).
  apply reads_rb_link in H1 as ->; [|apply reads_cmp_thread_pid]. rewrite set_own_graph in H. destruct l as [B|t]; [by mrun|].
  apply bind_Some in H as (? & s1 & (g & H1 & ->)%in_graph_inv & H). apply bind_Some in H as (? & s2 & (g2 & H2 & ->)%in_graph_inv & H).
  apply bind_Some in H as (? & s3 & H3 & H). unfold binder_stats_created in H1. injection H1 as _ <-. unfold put_thread_at in H2. injection H2 as _ <-. mrun.
  set (s1 := set_d_graph _ s) in *.
  assert (G1 : G None None None stk None s1).
  { eapply good_hush; [exact HG| |apply awake_None]. apply hush_graph. by eapply (keeps_created None BINDER_STAT_THREAD (graph s) tt). }
  assert (F1 : fresh_thread A s1) by (destruct (Hf A eq_refl) as (? & ? & ?); by split_and!).
  pose proof (born_good _ _ A p pid G1 F1) as G2. eapply good_hush; [exact G2| |apply awake_None].
  eapply (hush_upd_proc None p (set_proc_threads (rb_insert_color A t))); [done|exact H3].
Qed.

(** ** A process *)

(** Nothing refers to the structure. *)
Definition fresh_proc (p : nat) (s : driver) : Prop :=
  procs (graph s) !! p = None /\ forall t X b, transactions s !! t = Some X -> t_buffer X <> Some (p, b).

Lemma open_good stk kz c pid s z s' : G None None None stk None s -> (forall p, kz = Some p -> fresh_proc p s) -> binder_open kz c pid s = Some (z, s') ->
  G None None None stk None s'.
Proof.
  intros HG Hf H. unfold binder_open in H. destruct kz as [p|]; [|by mrun]. destruct (Hf p eq_refl) as [HP Ht].
  apply bind_Some in H as (? & s1 & (g & H1 & ->)%in_graph_inv & H). apply bind_Some in H as (? & s2 & [= _ <-] & H).
  apply bind_Some in H as (? & s3 & (g3 & H3 & ->)%in_graph_inv & H). unfold binder_stats_created in H1. injection H1 as _ <-. mrun.
  unfold put_proc_at in H3. mrun. set (g1 := set_procs _ _).
  assert (G1 : G None None None stk None (set_d_graph g1 s)).
  { eapply good_hush; [exact HG| |apply awake_None]. apply hush_graph. apply quiet_same; try done. intros q. unfold waiting at 1. simpl.
    rewrite lookup_insert. case_decide as Eq; [apply sublist_nil_l|done]. }
  destruct G1 as [I W [La Lu Lf Lq Lt Lo Lw Ld]]. split; [exact I|exact W|].
  assert (Hst : forall q al b B, <[p := binder_alloc_init]> (allocs s) !! q = Some al -> store al !! b = Some B -> q <> p /\ allocs s !! q = Some al).
  { intros q al b B. rewrite lookup_insert. case_decide as Eq; [by intros [= <-]|]. intros Hal _. split; [by intros ->|done]. }
  split; try done.
  - intros t X q b al HX Hb Hal. apply (La t X q b al HX Hb). simpl in Hal. rewrite lookup_insert in Hal. case_decide as Eq; [|done].
    exfalso. subst q. by apply (Ht t X b).
  - intros t X b B Hu HX (q & al & Hb & Hal & HB). destruct (Hst q al b B Hal HB) as [_ Hal']. apply (Lu t X b B Hu HX). by exists q, al.
  - intros q q' al al' b Hq Hq' [B HB] [B' HB']. destruct (Hst q al b B Hq HB) as [_ ?], (Hst q' al' b B' Hq' HB') as [_ ?].
    by apply (Lq q q' al al' b).
  - intros q al b B t Hal HB HT. destruct (Hst q al b B Hal HB) as [_ Hal']. by apply (Lw q al b B t).
Qed.

(** ** Its address space *)

Lemma mmap_step v mm a e np n al r al' : binder_alloc_mmap_handler v mm a e np n al = Some (r, al') ->
  (forall c, n = Some c -> store al !! c = None) -> al_step n al al'.
Proof.
  intros H Hn. unfold binder_alloc_mmap_handler in H. apply bind_Some in H as (? & ? & [= <- <-] & H).
  destruct (negb (buffer_size al =? 0)); [mrun; reflexivity|]. apply bind_Some in H as (? & a1 & [= _ <-] & H). apply bind_Some in H as (? & a2 & [= _ <-] & H).
  apply bind_Some in H as (? & ? & [= <- <-] & H). destruct (negb np); [mrun; by apply al_same|]. apply bind_Some in H as (? & a3 & [= _ <-] & H).
  destruct n as [c|]; [|mrun; by apply al_same]. apply bind_Some in H as (? & a4 & H4 & H). unfold update_buf in H4. injection H4 as _ <-.
  set (a4 := set_store _ _) in H.
  assert (H5 : keeps same_store (modify (fun s => set_buffers (list_add_after None c (buffers s)) s) ;! binder_insert_free_buffer c ;!
       modify (fun s => set_async (buffer_size s / 2) s) ;! binder_alloc_set_vma (Some (v, mm)) ;!
       modify (fun s => set_mm (mm_users s) (mm_count s + 1) s) ;! ret 0)).
  { unfold binder_alloc_set_vma. keeping. apply store_insert_free. }
  etrans; [|apply al_same; by eapply H5]. unfold a4.
  match goal with |- al_step _ _ (set_store _ ?a3) => transitivity a3; [by apply al_same|apply (al_put (Some c) c _ a3)] end.
  - intros B0 HB0. simpl in HB0. by rewrite (Hn c eq_refl) in HB0.
  - by right.
  - by intros t [=].
Qed.

Lemma mmap_good stk p v mm a e np n s r s' : G None None None stk None s -> fresh_buffer n s ->
  in_alloc p (binder_alloc_mmap_handler v mm a e np n) s = Some (r, s') -> G None None None stk None s'.
Proof.
  intros [I W L] Hn (al & al' & Hal & H & ->)%in_alloc_inv. split; [exact I|exact W|]. eapply links_new; [exact L|exact Hal| |exact Hn].
  eapply mmap_step; [exact H|]. intros c Hc. by eapply Hn.
Qed.
End new.
