(* ===== verification/BinderTxnSystem.v ===== *)
(** * The driver as a transition system

    Threads of many processes at work: each step is a section of the driver
    run for one thread.  [binder_transaction] is three steps, finding the
    target, building the transaction and queueing it, and
    [binder_thread_read] is a step for each time it takes work, so that other
    threads run in between. *)

From Stdlib Require Import ZArith Lia.
From stdpp Require Import base option gmap sets list.
From S2P Require Import Prelude RbTree BinderAlloc BinderNode BinderTranslate BinderNodeSystem BinderObjects BinderTxn BinderCalls.
From S2P Require Import BinderFrame BinderFrameAlloc BinderTxnView BinderTxnHush BinderTxnOps BinderTxnDeliver BinderTxnBuf BinderTxnTarget BinderTxnRead.
From S2P Require Import BinderTxnDraft BinderTxnBuild BinderTxnSend BinderTxnExit BinderTxnNew.

(** ** States *)

(** Where a thread is: in no call of the driver, in a read before or between
    rounds, asleep in one, or in [binder_transaction] with its target found
    or its transaction built. *)
Inductive phase :=
  | AtRest
  | InRead (proc_work : bool)
  | Asleep (proc_work : bool)
  | Targeted (reply : bool) (id : Z) (tr : binder_transaction_data) (tg : txn_target)
  | Built (reply : bool) (tr : binder_transaction_data) (t c : nat) (tg : txn_target).

Record system := System { drv : driver; phases : nat -> phase }.

Definition doing_of (ph : phase) : activity :=
  match ph with
  | AtRest => Idle
  | InRead w => Reading w
  | Asleep w => Waiting w
  | Targeted _ _ tr tg | Built _ tr _ _ tg => sending tr tg
  end.
Definition making_of (ph : phase) : option nat := match ph with Built _ _ t _ _ => Some t | _ => None end.
Definition draft_in (A : nat) (ph : phase) : call :=
  match ph with Built reply tr _ _ tg => draft_of A reply tr tg | _ => Call None None None None None false end.

Definition phase_ok (ph : phase) : Prop :=
  match ph with Targeted reply _ tr tg | Built reply tr _ _ tg => tg_ok reply tr tg | _ => True end.

(** ** Steps *)

(** The requests on the object graph a thread [A] can make. *)
Definition command (A : nat) (op : binder_op) : bool :=
  match op with
  | BcRefs _ _ _ _ _ | BcRefsDone _ _ _ _ | BcRequestDeath _ _ _ _ | SetCtxMgr _ _ _ _ _ | GetNodeInfo _ _ _ | GetNodeDebug _ _ => true
  | BcClearDeath _ t _ _ | BcDeadBinderDone _ t _ => bool_decide (t = A)
  | _ => false
  end.

(** Those on its own state and its process's. *)
Inductive looper_op := RegisterLooper | EnterLooper | ExitLooper | ReadDone (put_user : Z -> bool) | MaxThreads (p : nat) (max : Z) | Flush (p : nat) | IoctlDone | DeathNoMemory | ReadLeft (p : nat) | PollStart.
Definition run_looper (A : nat) (op : looper_op) : M driver unit :=
  match op with
  | RegisterLooper => bc_register_looper A
  | EnterLooper => bc_enter_looper A
  | ExitLooper => bc_exit_looper A
  | ReadDone put_user => read_done A put_user ;! ret tt
  | MaxThreads p max => set_max_threads p max
  | IoctlDone => ioctl_done A
  | DeathNoMemory => death_no_memory A
  | ReadLeft p => read_left p
  | PollStart => poll_start A ;! ret tt
  | Flush p => binder_deferred_flush p ;! ret tt
  end.

Section system.
Context `{RB : Rbtree}.

(** The parts of [binder_deferred_release], but for the threads. *)
Inductive release_op := ReleaseStart (p : nat) | ReleaseNode (p : nat) (count : Z) | ReleaseRef (p : nat) | ReleaseTodo (p : nat) | ReleaseDelivered (p : nat) | ReleaseProc (p : nat).
Definition run_release (E : driver_env) (op : release_op) : M driver unit :=
  match op with
  | ReleaseStart p =>
    in_graph (release_context_mgr p) ;!
    upd_proc p (fun P => set_proc_dead true (set_proc_tmp_ref (s32 (proc_tmp_ref P + 1)) P))
  | ReleaseNode p count => release_node E p count ;! ret tt
  | ReleaseRef p => in_graph (release_one_ref p) ;! ret tt
  | ReleaseTodo p => release_list E (proc_todo p)
  | ReleaseDelivered p => release_list E (delivered_death p)
  | ReleaseProc p => binder_proc_dec_tmpref E p
  end.

(** Thread [A] ends up in [ph]. *)
Definition moves (sys : system) (A : nat) (ph : phase) (s : driver) : system := System s (fupd A ph (phases sys)).

(** [binder_transaction] up to the point where the target is known. *)
Definition target_step (E : driver_env) (A : nat) (reply : bool) (tr : binder_transaction_data) : M driver phase :=
  let! id := in_graph next_id in
  let! target := select_target E A reply tr in
  match target with
  | (Some error, tg) => fail_transaction E A error tg ;! ret AtRest
  | (None, tg) => ret (Targeted reply id tr tg)
  end.

Definition build_step (E : driver_env) (A : nat) (reply : bool) (id : Z) (tr : binder_transaction_data) (extra : Z) (tg : txn_target) : M driver phase :=
  let! built := build_transaction E A reply id tr extra tg in
  match built with
  | inl (error, tg) => fail_transaction E A error tg ;! ret AtRest
  | inr (t, c) => ret (Built reply tr t c tg)
  end.

Inductive step (sys : system) : system -> Prop :=
  | step_command A op s : phases sys A = AtRest -> command A op = true -> in_graph (run_op op) (drv sys) = Some (tt, s) ->
      step sys (System s (phases sys))
  | step_looper A op s : phases sys A = AtRest -> run_looper A op (drv sys) = Some (tt, s) -> step sys (System s (phases sys))
  | step_free_buffer E p data_ptr s : bc_free_buffer E p data_ptr (drv sys) = Some (tt, s) -> step sys (System s (phases sys))
  | step_target E A reply tr ph s : phases sys A = AtRest -> alive A (drv sys) -> target_step E A reply tr (drv sys) = Some (ph, s) ->
      step sys (moves sys A ph s)
  | step_build E A reply id tr extra tg ph s : phases sys A = Targeted reply id tr tg -> fresh_env E (drv sys) ->
      build_step E A reply id tr extra tg (drv sys) = Some (ph, s) -> step sys (moves sys A ph s)
  | step_commit E A reply tr t c tg s : phases sys A = Built reply tr t c tg -> commit_transaction E A tr t c tg (drv sys) = Some (tt, s) ->
      step sys (moves sys A AtRest s)
  | step_read A w s : phases sys A = AtRest -> alive A (drv sys) -> read_retry A (drv sys) = Some (w, s) -> step sys (moves sys A (InRead w) s)
  | step_sleep A w s : phases sys A = InRead w -> wait_enter A w (drv sys) = Some (false, s) -> step sys (moves sys A (Asleep w) s)
  | step_wake A w s : phases sys A = Asleep w -> wait_leave A (drv sys) = Some (tt, s) -> step sys (moves sys A (InRead w) s)
  | step_waited A w s : phases sys A = InRead w -> read_waited A (drv sys) = Some (tt, s) -> step sys (System s (phases sys))
  | step_interrupted A w : phases sys A = InRead w -> step sys (moves sys A AtRest (drv sys))
  | step_round E A w put_node put_user size ptr r s : phases sys A = InRead w ->
      read_round E A w put_node put_user size ptr (drv sys) = Some (r, s) ->
      step sys (moves sys A (match r with Continue _ => InRead w | _ => AtRest end) s)
  | step_exit E A n s : phases sys A = AtRest -> alive A (drv sys) -> binder_thread_release E A (drv sys) = Some (n, s) ->
      step sys (System s (phases sys))
  | step_release E op s : run_release E op (drv sys) = Some (tt, s) -> step sys (System s (phases sys))
  | step_thread p pid kz o s : (forall A, kz = Some A -> fresh_thread (fun B => doing_of (phases sys B)) A (drv sys)) ->
      binder_get_thread p pid kz (drv sys) = Some (o, s) -> step sys (System s (phases sys))
  | step_open kz c pid z s : (forall p, kz = Some p -> fresh_proc p (drv sys)) -> binder_open kz c pid (drv sys) = Some (z, s) ->
      step sys (System s (phases sys))
  | step_mmap p v mm a e np n r s : fresh_buffer n (drv sys) -> in_alloc p (binder_alloc_mmap_handler v mm a e np n) (drv sys) = Some (r, s) ->
      step sys (System s (phases sys)).

(** Nothing yet. *)
Record initial (sys : system) : Prop := Initial {
  in_threads : threads (graph (drv sys)) = ∅;
  in_procs : procs (graph (drv sys)) = ∅;
  in_works l : queue l (graph (drv sys)) = [];
  in_txns : transactions (drv sys) = ∅;
  in_allocs : allocs (drv sys) = ∅;
  in_phases A : phases sys A = AtRest
}.

Definition reachable (sys : system) : Prop := exists sys0, initial sys0 /\ star step sys0 sys.

(** ** What holds in every state *)

Local Abbreviation doings ps := (fun B => doing_of (ps B)).
Local Abbreviation makings ps := (fun B => making_of (ps B)).
Local Abbreviation draftings ps := (fun B => draft_in B (ps B)).

Record consistent (sys : system) : Prop := Consistent {
  co_good : exists stk, good (doings (phases sys)) (makings (phases sys)) (draftings (phases sys)) None None None stk None (drv sys);
  co_phase A : phase_ok (phases sys A)
}.

(** ** From one state to the next *)

(** What a thread made counts while it holds it. *)
Lemma good_ext d d' m m' f f' hand ex lex stk lim s : (forall x, d' x = d x) -> (forall x, m' x = m x) ->
  (forall x, m x <> None -> f' x = f x) -> good d m f hand ex lex stk lim s -> good d' m' f' hand ex lex stk lim s.
Proof.
  intros Hd Hm Hf [I W L]. split; [|done|].
  - assert (I1 : inv stk lim (view d m f' ex s)).
    { destruct I. split; try done; [intros A o Ho; eapply stack_tx; [|by apply i_stack]; done|]. intros A t HA.
      destruct (i_making A t HA) as ([H1 H2] & H). split; [|done]. simpl in *. rewrite Hf by (by rewrite HA). done. }
    eapply inv_calm; [exact I1|]. by apply calm_eq.
  - assert (Hu : forall t, unread m' hand s t -> unread m hand s t).
    { intros t [?|[[A HA]|?]]; [by left|right; left; exists A; by rewrite <- Hm|by right; right]. }
    destruct L. split; try done.
    + intros t X b B H. apply l_unread. by apply Hu.
    + intros t X HX Hn HA. apply (l_from t X HX Hn). intros A. rewrite <- Hm. apply HA.
Qed.

(** Without threads and transactions there is nothing to account for. *)
Lemma inv_empty c : tx c = ∅ -> (forall A, top c A = None) -> (forall l, todo c l = []) -> (forall A, waits c A = false) ->
  (forall A, doing c A = Idle) -> (forall A, making c A = None) -> inv (fun _ => []) None c.
Proof.
  intros Hx Ht Hq Hw Hd Hm. assert (Hi : forall l, items c l = []) by (intros l; unfold items; by rewrite Hq).
  assert (Hp : forall u p, ~ parent_of c u p) by (intros u p (U & HU & _); rewrite Hx in HU; by apply lookup_empty_Some in HU).
  split; try done; intros *; rewrite ?Hx, ?lookup_empty, ?Hi, ?Ht, ?Hd, ?Hm, ?Hw; try done.
  - intros H. by destruct (Hp u p).
  - intros H. by destruct (Hp u p).
  - exists (fun _ => 0%nat). intros u p H. by destruct (Hp u p).
  - by intros ?%not_elem_of_nil.
  - by intros ?%not_elem_of_nil.
  - constructor.
  - unfold at_leisure. rewrite Hd. by intros [?|?].
Qed.

Lemma initial_consistent sys : initial sys -> consistent sys.
Proof.
  intros [HT HP HW HX HA Hph]. split; [|intros A; by rewrite Hph]. exists (fun _ => []). split; [apply inv_empty|..]; simpl.
  - by rewrite HX, fmap_empty.
  - intros A. by rewrite HT, lookup_empty.
  - intros l. by rewrite HW.
  - intros A. by rewrite HT, lookup_empty.
  - intros A. by rewrite Hph.
  - intros A. by rewrite Hph.
  - intros p. unfold waiting. rewrite HP, lookup_empty. split; [constructor|]. by intros A ?%not_elem_of_nil.
  - split; intros *; simpl; rewrite ?HX, ?HA, ?lookup_empty; try done.
Qed.

Section steps.
Context (sys : system) (C : consistent sys).
Local Abbreviation ps := (phases sys).
Local Abbreviation G stk s := (good (doings ps) (makings ps) (draftings ps) None None None stk None s).

Lemma stays stk s : G stk s -> consistent (System s ps).
Proof. intros HG. split; [by exists stk|]. apply C. Qed.

Lemma settles A ph stk d m f s : good d m f None None None stk None s -> phase_ok ph -> (forall x, d x = fupd A (doing_of ph) (doings ps) x) ->
  (forall x, m x = fupd A (making_of ph) (makings ps) x) -> (making_of ph <> None -> f A = draft_in A ph) ->
  (forall x, x <> A -> f x = draft_in x (ps x)) -> consistent (moves sys A ph s).
Proof.
  intros HG Hph Hd Hm Hf Hf'. assert (HB : forall B, phases (moves sys A ph s) B = fupd A ph ps B) by done. split.
  - exists stk. eapply good_ext; [..|exact HG]; intros x; rewrite ?Hd, ?Hm, HB; unfold fupd; case_decide as Hx; try done.
    + intros H. rewrite Hx. symmetry. by apply Hf.
    + intros _. symmetry. by apply Hf'.
  - intros B. rewrite HB. unfold fupd. case_decide; [done|apply C].
Qed.

(** A thread that holds no transaction turns to something else. *)
Lemma turns A ph stk s : making_of (ps A) = None -> making_of ph = None -> phase_ok ph ->
  good (fupd A (doing_of ph) (doings ps)) (makings ps) (draftings ps) None None None stk None s -> consistent (moves sys A ph s).
Proof.
  intros Hm Hm' Hph HG. eapply settles; [exact HG|done|done| |by rewrite Hm'|done].
  intros x. unfold fupd. case_decide as Hx; [by rewrite Hx, Hm, Hm'|done].
Qed.
Lemma rests A stk s : making_of (ps A) = None -> G stk s -> doings ps A = Idle -> consistent (moves sys A AtRest s).
Proof.
  intros Hm HG Hd. eapply turns; [done..|]. eapply good_ext; [..|exact HG]; try done. intros x. unfold fupd. by case_decide as Hx; [rewrite Hx, Hd|].
Qed.

(** ** Requests *)

Lemma at_rest A : ps A = AtRest -> doings ps A = Idle /\ making_of (ps A) = None /\ off_duty (doings ps A).
Proof. intros HA. cbn beta. rewrite HA. by repeat split. Qed.

Lemma hush_command A op : command A op = true -> keeps (hush (Some A)) (in_graph (run_op op)).
Proof.
  intros H. apply hush_in_graph. destruct op; simpl in *; try done; try apply bool_decide_eq_true in H as ->; quieting;
    auto using keeps_bc_refs, keeps_bc_refs_done, keeps_request_death, keeps_clear_death, keeps_dead_binder_done, keeps_set_ctx_mgr, keeps_node_info.
Qed.
Lemma hush_looper A op : keeps (hush (Some A)) (run_looper A op).
Proof.
  destruct op; simpl; keeping; auto using hush_register, hush_enter, hush_exit, hush_read_done, hush_max_threads, hush_ioctl_done, hush_deferred_flush, hush_death_no_memory, hush_read_left, hush_poll_start.
Qed.

Lemma command_consistent A op s : ps A = AtRest -> command A op = true -> in_graph (run_op op) (drv sys) = Some (tt, s) -> consistent (System s ps).
Proof.
  intros HA Hop H. destruct (at_rest A HA) as (_ & _ & Hoff). destruct (co_good sys C) as [stk HG]. apply (stays stk).
  eapply (good_hush _ _ _ (Some A)); [exact HG|by eapply hush_command|]. by eapply awake_doing.
Qed.
Lemma looper_consistent A op s : ps A = AtRest -> run_looper A op (drv sys) = Some (tt, s) -> consistent (System s ps).
Proof.
  intros HA H. destruct (at_rest A HA) as (_ & _ & Hoff). destruct (co_good sys C) as [stk HG]. apply (stays stk).
  eapply (good_hush _ _ _ (Some A)); [exact HG|by eapply hush_looper|]. by eapply awake_doing.
Qed.
Lemma hush_consistent s : hush None (drv sys) s -> consistent (System s ps).
Proof. intros K. destruct (co_good sys C) as [stk HG]. apply (stays stk). eapply good_hush; [exact HG|exact K|apply awake_None]. Qed.

Lemma free_consistent E p a s : bc_free_buffer E p a (drv sys) = Some (tt, s) -> consistent (System s ps).
Proof. intros H. destruct (co_good sys C) as [stk HG]. apply (stays stk). by eapply bc_free_good. Qed.

(** ** Sending *)

Lemma sending_off tr tg : off_duty (sending tr tg).
Proof. unfold sending, off_duty. destruct (tg_reply_to tg), (tg_proc tg); try destruct (one_way _); by split. Qed.
Lemma sending_failing d A tr tg : d A = sending tr tg -> failing d A (tg_reply_to tg).
Proof.
  intros Hd. unfold failing. rewrite Hd. split_and?; unfold sending; destruct (tg_reply_to tg); [by eexists|split; [|by apply (sending_off tr (Target None (tg_thread tg) (tg_proc tg) None))]].
  destruct (tg_proc tg); try destruct (one_way _); by intros (? & ? & ?).
Qed.

(** A thread whose transaction fails is done. *)
Lemma fails A E d stk e tg s0 s : making_of (ps A) = None -> good d (makings ps) (draftings ps) None None None stk None s0 ->
  (forall x, x <> A -> d x = doings ps x) -> failing d A (tg_reply_to tg) -> fail_transaction E A e tg s0 = Some (tt, s) ->
  consistent (moves sys A AtRest s).
Proof.
  intros Hm HG Hd Hf H. destruct (fail_transaction_good _ _ _ _ _ _ _ _ _ _ _ HG Hf H) as [stk' HG'].
  eapply turns; [done..|]. eapply good_ext; [..|exact HG']; try done. intros x. unfold fupd. case_decide; [done|]. symmetry. by apply Hd.
Qed.

Lemma target_consistent E A reply tr ph s : ps A = AtRest -> alive A (drv sys) -> target_step E A reply tr (drv sys) = Some (ph, s) ->
  consistent (moves sys A ph s).
Proof.
  intros HA (T & HT & HTd) H. destruct (at_rest A HA) as (Hd & Hm & Hoff). destruct (co_good sys C) as [stk HG]. unfold target_step in H.
  apply bind_Some in H as (id & s1 & H1 & H). pose proof (hush_in_graph None next_id (keeps_next_id None) _ _ _ H1) as K.
  destruct (alive_hush _ _ _ _ _ K HT HTd) as (T1 & HT1 & HTd1 & _). assert (Ha : alive A s1) by by exists T1.
  pose proof (good_hush _ _ _ None _ _ _ _ _ _ _ HG K (awake_None _ _ _ _)) as HG1.
  apply bind_Some in H as ([e tg] & s2 & H2 & H). destruct reply; cbn [select_target] in H2.
  - pose proof (reply_target_good _ _ _ _ _ _ _ _ _ _ HG1 Hd Ha H2) as R. unfold reply_ready in R. destruct e as [e|].
    + apply bind_Some in H as ([] & s3 & H3 & H). injection H as <- <-. destruct tg as [[r|] [] [] []]; try done; destruct R as [stk1 R].
      * eapply fails; [done|exact R| | |exact H3]; [intros x Hx; by rewrite fupd_ne|exists None; by rewrite fupd_eq].
      * eapply fails; [done|exact R|done| |exact H3]. by apply (sending_failing _ A tr no_target).
    + injection H as <- <-. destruct tg as [[r|] [f|] [p|] [|]]; try done. destruct R as [stk1 R]. by eapply turns.
  - pose proof (call_target_good _ _ _ _ _ _ _ _ _ _ _ HG1 Hd Ha H2) as [Hr R]. destruct e as [e|].
    + apply bind_Some in H as ([] & s3 & H3 & H). injection H as <- <-. destruct R as [stk1 R]. eapply fails; [done|exact R|done| |exact H3].
      rewrite Hr. by apply (sending_failing _ A tr no_target).
    + injection H as <- <-. destruct R as (tp & n & f & stk1 & -> & Hw & R). by eapply turns.
Qed.

Lemma build_consistent E A reply id tr extra tg ph s : ps A = Targeted reply id tr tg -> fresh_env E (drv sys) ->
  build_step E A reply id tr extra tg (drv sys) = Some (ph, s) -> consistent (moves sys A ph s).
Proof.
  intros HA HE H. destruct (co_good sys C) as [stk HG]. pose proof (co_phase sys C A) as Hok. rewrite HA in Hok. simpl in Hok.
  assert (Hd : doings ps A = sending tr tg) by (cbn beta; by rewrite HA). assert (Hm : makings ps A = None) by (cbn beta; by rewrite HA).
  assert (Hn : reply = true -> tg_node tg = None) by (intros ->; by destruct tg as [[] [] [] []]; destruct Hok).
  unfold build_step in H. apply bind_Some in H as (r & s1 & H1 & H).
  assert (Hoff : off_duty (doings ps A)) by (rewrite Hd; apply sending_off).
  pose proof (build_good _ _ _ _ _ _ _ _ _ _ _ _ _ _ HG HE Hoff Hm Hn H1) as R. destruct r as [[e tg']|[t c]].
  - apply bind_Some in H as ([] & s2 & H2 & H). injection H as <- <-. destruct R as [Er [stk1 R]].
    eapply fails; [done|exact R|done| |exact H2]. rewrite Er. by eapply sending_failing.
  - injection H as <- <-. destruct R as [stk1 R]. eapply settles; [exact R|done| |done| |].
    + intros x. unfold fupd. by case_decide as Hx; [rewrite Hx|].
    + intros _. by rewrite fupd_eq.
    + intros x Hx. by rewrite fupd_ne.
Qed.

Lemma commit_consistent E A reply tr t c tg s : ps A = Built reply tr t c tg -> commit_transaction E A tr t c tg (drv sys) = Some (tt, s) ->
  consistent (moves sys A AtRest s).
Proof.
  intros HA H. destruct (co_good sys C) as [stk HG]. pose proof (co_phase sys C A) as Hok. rewrite HA in Hok.
  edestruct (commit_transaction_good (doings ps) (makings ps) (draftings ps)) as [stk' R]; [exact HG| | | |exact Hok|exact H|]; try (cbn beta; by rewrite HA).
  by eapply settles.
Qed.

(** ** Reading *)

Lemma read_consistent A w s : ps A = AtRest -> alive A (drv sys) -> read_retry A (drv sys) = Some (w, s) -> consistent (moves sys A (InRead w) s).
Proof.
  intros HA Ha H. destruct (at_rest A HA) as (Hd & Hm & _). destruct (co_good sys C) as [stk HG]. pose proof (hush_read_retry None A _ _ _ H) as K.
  eapply turns; [done..|]. eapply (good_hush _ _ _ None); [|exact K|apply awake_None]. eapply turn_good; [exact HG|done|by intros (? & ? & ?)|].
  split; [by intros _; apply alive_top| |done]. intros [|[= ->]]; [done|]. unfold read_retry in H.
  apply bind_Some in H as (w & s1 & (g & Hg & ->)%in_graph_inv & H). mrun. unfold binder_available_for_proc_work_ilocked, binder_worklist_empty_ilocked in Hg.
  apply bind_Some in Hg as (T & g1 & [-> HT]%thread_at_inv & Hg). injection Hg as Hg _.
  apply andb_true_iff in Hg as [[Hst%bool_decide_eq_true Hq%bool_decide_eq_true]%andb_true_iff _]. split; [|left; simpl; by rewrite Hq].
  destruct Ha as (T' & HT' & HD). assert (T' = T) as -> by congruence. destruct HG as [I _ _].
  pose proof (i_stack _ _ _ I A None) as Hs. simpl in Hs. rewrite HT, HD, Hst in Hs. specialize (Hs eq_refl). by inversion Hs.
Qed.

Lemma waiting_put p P l q g : waiting q (set_procs (<[p := set_waiting l P]> (procs g)) g) = if decide (q = p) then l else waiting q g.
Proof. unfold waiting. simpl. rewrite lookup_insert. case_decide as H1; [subst q; by rewrite decide_True|]. by rewrite decide_False by (by intros ->). Qed.

(** A reader is on no list of waiting threads. *)
Lemma reader_off d m f stk s A w : good d m f None None None stk None s -> d A = Reading w -> waits (view d m f None s) A = false.
Proof. intros [I _ _] Hd. apply not_true_iff_false. intros Hw. destruct (i_wait _ _ _ I A Hw) as [E _]. simpl in E. congruence. Qed.

(** A reader with nothing to take gets on the list of its process. *)
Lemma sleep_good d m f stk s A T P : good d m f None None None stk None s -> d A = Reading true -> threads (graph s) !! A = Some T ->
  process_todo T = false -> procs (graph s) !! thread_proc T = Some P -> let p := thread_proc T in
  good (fupd A (Waiting true) d) m f None None None stk None (set_d_graph (set_procs (<[p := set_waiting (A :: waiting_threads P) P]> (procs (graph s))) (graph s)) s).
Proof.
  intros HG Hd HT Hr HP p. pose proof (reader_off _ _ _ _ _ _ _ HG Hd) as Hw. destruct HG as [I W L]. set (g' := set_procs _ _).
  assert (Ew : waiting_threads P = waiting p (graph s)) by (unfold waiting, p; by rewrite HP). simpl in Hw. rewrite HT in Hw. apply bool_decide_eq_false in Hw.
  split; [| |by destruct L].
  - eapply inv_calm; [apply (inv_sleep stk None _ A I Hd)|]; [simpl; by rewrite HT|]. apply calm_eq; try done. intros B. cbn -[waiting g'].
    change (threads g') with (threads (graph s)). unfold fupd. case_decide as HB.
    + rewrite HB, HT. unfold g'. rewrite waiting_put, decide_True by done. apply bool_decide_eq_true. left.
    + destruct (threads (graph s) !! B) as [TB|] eqn:HTB; [|done]. unfold g'. rewrite waiting_put. case_decide as Hp; [|done].
      apply bool_decide_ext. rewrite elem_of_cons, Ew, Hp. tauto.
  - intros q. change (graph (set_d_graph g' s)) with g'. unfold g'. rewrite waiting_put. destruct (W q) as [Hnd Hq]. case_decide as Hqp; [|done]. subst q. rewrite Ew. split; [by constructor|].
    intros B [->|HB]%elem_of_cons; [by exists T|by apply Hq].
Qed.

Lemma sleep_consistent A w s : ps A = InRead w -> wait_enter A w (drv sys) = Some (false, s) -> consistent (moves sys A (Asleep w) s).
Proof.
  intros HA H. destruct (co_good sys C) as [stk HG]. assert (Hd : doings ps A = Reading w) by (cbn beta; by rewrite HA).
  assert (Hm : making_of (ps A) = None) by by rewrite HA. eapply turns; [done..|]. unfold wait_enter in H.
  apply bind_Some in H as (b & s1 & (g & Hg & ->)%in_graph_inv & H). destruct b; [by mrun|].
  pose proof (reads_has_work _ _ _ _ _ Hg) as ->. rewrite set_own_graph in H.
  apply bind_Some in H as (T & s1 & [-> HT]%d_thread_inv & H). destruct w.
  - apply bind_Some in H as ([] & s1 & H1 & H). injection H as <-. unfold upd_proc in H1. apply in_graph_inv in H1 as (g & H1 & ->).
    apply bind_Some in H1 as (P & g1 & [-> HP]%proc_at_inv & H1). unfold put_proc_at in H1. injection H1 as <-.
    eapply sleep_good; try done. unfold binder_has_work_ilocked in Hg. apply bind_Some in Hg as (T' & g1 & [-> HT']%thread_at_inv & Hg).
    assert (T' = T) as -> by congruence. apply bind_Some in Hg as (e & g1 & _ & Hg). injection Hg as Hg _.
    by apply orb_false_iff in Hg as [[? _]%orb_false_iff _].
  - apply bind_Some in H as ([] & s1 & [= <-] & H). injection H as <-. pose proof (reader_off _ _ _ _ _ _ _ HG Hd) as Hw.
    apply good_set_doing; [done|]. apply inv_set_doing; [apply HG|done|simpl; cbn beta in Hd; rewrite Hd; by intros (? & ? & ?)|by intros (? & ? & ?)|].
    split; [|by intros [?|?]|done]. intros _. apply (i_busy _ _ _ (g_calls _ _ _ _ _ _ _ _ _ HG)). simpl. cbn beta in Hd. by rewrite Hd.
Qed.

Lemma wake_consistent A w s : ps A = Asleep w -> wait_leave A (drv sys) = Some (tt, s) -> consistent (moves sys A (InRead w) s).
Proof.
  intros HA H. destruct (co_good sys C) as [stk HG]. assert (Hd : doing_of (ps A) = Waiting w) by (by rewrite HA).
  assert (Hm : making_of (ps A) = None) by by rewrite HA. eapply turns; [done..|]. unfold wait_leave in H.
  apply bind_Some in H as (T & s1 & [-> HT]%d_thread_inv & H).
  assert (K : hush None (drv sys) s) by (eapply hush_upd_proc; [|exact H]; intros; unfold list_del; simpl; apply sublist_filter).
  pose proof (good_hush _ _ _ None _ _ _ _ _ _ _ HG K (awake_None _ _ _ _)) as HG1. apply good_set_doing; [done|].
  unfold upd_proc in H. apply in_graph_inv in H as (g & H1 & ->). apply bind_Some in H1 as (P & g1 & [-> HP]%proc_at_inv & H1).
  unfold put_proc_at in H1. injection H1 as <-. pose proof (g_calls _ _ _ _ _ _ _ _ _ HG1) as I. apply inv_set_doing; [done| | |by intros (? & ? & ?)|].
  - cbn -[waiting]. rewrite HT, waiting_put, decide_True by done. apply bool_decide_eq_false. by intros [? _]%elem_of_list_del.
  - simpl. rewrite Hd. by intros (? & ? & ?).
  - split; [| |done].
    + intros _. apply (i_busy _ _ _ I). simpl. by rewrite Hd.
    + intros [|[= ->]]; [done|]. apply (i_free _ _ _ I). left. exact Hd.
Qed.

Lemma interrupted_consistent A w : ps A = InRead w -> consistent (moves sys A AtRest (drv sys)).
Proof.
  intros HA. destruct (co_good sys C) as [stk HG]. eapply turns; [by rewrite HA|done|done|]. eapply idle_good; [|exact HG]. cbn beta. by rewrite HA.
Qed.

Lemma round_consistent E A w put_node put_user size ptr r s : ps A = InRead w -> read_round E A w put_node put_user size ptr (drv sys) = Some (r, s) ->
  consistent (moves sys A (match r with Continue _ => InRead w | _ => AtRest end) s).
Proof.
  intros HA H. destruct (co_good sys C) as [stk HG]. assert (Hd : doings ps A = Reading w) by (cbn beta; by rewrite HA).
  assert (Hm : making_of (ps A) = None) by by rewrite HA.
  pose proof (read_round_good _ _ _ _ _ _ Hd _ _ _ _ _ _ _ _ HG H) as [stk' R]. destruct r; eapply turns; try done; [|exact R..].
  eapply good_ext; [..|exact R]; try done. intros x. unfold fupd. by case_decide as Hx; [rewrite Hx, Hd|].
Qed.

(** ** Coming and going *)

Lemma exit_consistent E A n s : ps A = AtRest -> alive A (drv sys) -> binder_thread_release E A (drv sys) = Some (n, s) -> consistent (System s ps).
Proof.
  intros HA Ha H. destruct (at_rest A HA) as (Hd & _ & _). destruct (co_good sys C) as [stk HG].
  destruct (thread_release_good _ _ _ _ _ _ _ _ _ HG Hd Ha H) as [stk' HG']. by eapply stays.
Qed.

Lemma release_consistent E op s : run_release E op (drv sys) = Some (tt, s) -> consistent (System s ps).
Proof.
  intros H. destruct (co_good sys C) as [stk HG]. destruct op; cbn [run_release] in H.
  - apply hush_consistent. eapply keeps_bind; [apply _|apply hush_in_graph, keeps_release_mgr| |exact H]. intros []. by apply hush_upd_proc.
  - apply bind_Some in H as (r & s1 & H & [= <-]). destruct (release_node_good _ _ _ _ _ _ _ _ _ _ HG H) as [stk' HG']. by eapply stays.
  - apply bind_Some in H as (r & s1 & H & [= <-]). apply hush_consistent. eapply hush_in_graph; [apply keeps_release_one_ref|exact H].
  - destruct (release_list_good _ _ _ _ _ _ _ _ _ HG H) as [stk' HG']. by eapply stays.
  - destruct (release_list_good _ _ _ _ _ _ _ _ _ HG H) as [stk' HG']. by eapply stays.
  - apply hush_consistent. by eapply hush_proc_dec.
Qed.

Lemma new_consistent p pid kz o s : (forall A, kz = Some A -> fresh_thread (doings ps) A (drv sys)) ->
  binder_get_thread p pid kz (drv sys) = Some (o, s) -> consistent (System s ps).
Proof. intros Hf H. destruct (co_good sys C) as [stk HG]. eapply (stays stk). by eapply get_thread_good. Qed.
Lemma open_consistent kz c pid z s : (forall p, kz = Some p -> fresh_proc p (drv sys)) -> binder_open kz c pid (drv sys) = Some (z, s) -> consistent (System s ps).
Proof. intros Hf H. destruct (co_good sys C) as [stk HG]. eapply (stays stk). by eapply open_good. Qed.
Lemma mmap_consistent p v mm a e np n r s : fresh_buffer n (drv sys) -> in_alloc p (binder_alloc_mmap_handler v mm a e np n) (drv sys) = Some (r, s) ->
  consistent (System s ps).
Proof. intros Hf H. destruct (co_good sys C) as [stk HG]. eapply (stays stk). by eapply mmap_good. Qed.
End steps.

Lemma step_consistent sys sys' : consistent sys -> step sys sys' -> consistent sys'.
Proof.
  intros C H. destruct H.
  - by eapply command_consistent.
  - by eapply looper_consistent.
  - by eapply free_consistent.
  - by eapply target_consistent.
  - by eapply build_consistent.
  - by eapply commit_consistent.
  - by eapply read_consistent.
  - by eapply sleep_consistent.
  - by eapply wake_consistent.
  - apply hush_consistent; [done|]. by eapply hush_read_waited.
  - by eapply interrupted_consistent.
  - by eapply round_consistent.
  - by eapply exit_consistent.
  - by eapply release_consistent.
  - by eapply new_consistent.
  - by eapply open_consistent.
  - by eapply mmap_consistent.
Qed.

(** Whatever the threads do, the account of calls stays right. *)
Lemma reachable_consistent sys : reachable sys -> consistent sys.
Proof. intros (sys0 & H0 & H). induction H as [|a b c _ IH Hs]; [by apply initial_consistent|]. eapply step_consistent; [by apply IH|done]. Qed.
End system.
