(* ===== verification/BinderTxnRun.v ===== *)
(** * Runs

    The steps of [BinderTxnSystem] as a function: a run is a list of events,
    each the next section of some thread, and every state it passes through
    is reachable.  The run that the witnesses of [BinderTxnTheorems] use is
    at the end. *)

From Stdlib Require Import ZArith Lia.
From stdpp Require Import base option gmap sets list.
From S2P Require Import Prelude RbTree BinderAlloc BinderNode BinderTranslate BinderNodeSystem BinderObjects BinderTxn BinderCalls.
From S2P Require Import BinderTxnView BinderTxnDraft BinderTxnTarget BinderTxnBuild BinderTxnNew BinderTxnSystem.

(** ** Events *)

Inductive event :=
  | Request (A : nat) (op : binder_op)
  | OnLooper (A : nat) (op : looper_op)
  | FreeBuffer (E : driver_env) (p : nat) (data_ptr : Z)
  | Aim (E : driver_env) (A : nat) (reply : bool) (tr : binder_transaction_data)
  | Build (E : driver_env) (A : nat) (extra : Z)
  | Commit (E : driver_env) (A : nat)
  | Read (A : nat)
  | Sleep (A : nat)
  | Wake (A : nat)
  | Waited (A : nat)
  | Round (E : driver_env) (A : nat) (put_node : br_node -> bool) (put_user : Z -> bool) (size ptr : Z)
  | Exit (E : driver_env) (A : nat)
  | NewThread (p : nat) (pid : Z) (A : nat)
  | Open (p c : nat) (pid : Z)
  | Mmap (p vma : nat) (mm : option nat) (vm_start vm_end : Z) (pages : bool) (b : option nat).

(** Where the threads are: the last entry for a thread counts. *)
Fixpoint phases_of (log : list (nat * phase)) : nat -> phase :=
  match log with
  | [] => fun _ => AtRest
  | (A, ph) :: log => fupd A ph (phases_of log)
  end.

Record run := Run { now : driver; log : list (nat * phase) }.
Definition sys_of (r : run) : system := System (now r) (phases_of (log r)).

(** ** What is fresh *)

Definition aliveb (A : nat) (s : driver) : bool := match threads (graph s) !! A with Some T => negb (thread_is_dead T) | None => false end.
Definition fresh_bufferb (n : option nat) (s : driver) : bool :=
  match n with Some c => bool_decide (map_Forall (fun _ al => store al !! c = None) (allocs s)) | None => true end.
Definition fresh_envb (E : driver_env) (s : driver) : bool :=
  match kzalloc_txn E with Some t => bool_decide (transactions s !! t = None) | None => true end && fresh_bufferb (kzalloc_buffer E) s.
Definition in_procb (p : nat) (X : binder_transaction) : bool := match t_buffer X with Some (q, _) => bool_decide (q = p) | None => false end.
Definition fresh_procb (p : nat) (s : driver) : bool :=
  bool_decide (procs (graph s) !! p = None) && bool_decide (map_Forall (fun _ X => in_procb p X = false) (transactions s)).
Definition for_threadb (A : nat) (d : activity) : bool :=
  match d with Calling _ f | Replying _ f => bool_decide (f = Some A) | _ => false end.
Definition fresh_threadb (A : nat) (r : run) : bool :=
  bool_decide (threads (graph (now r)) !! A = None) && bool_decide (queue (thread_todo A) (graph (now r)) = []) &&
  forallb (fun e => negb (for_threadb A (doing_of (snd e)))) (log r).

Section run.
Context `{RB : Rbtree}.

(** ** The function *)

(** Section [m] of thread [A], run where [b] holds; [k] is where it leaves
    the thread. *)
Definition section {X} (b : bool) (m : M driver X) (k : X -> driver -> option run) (s : driver) : option run :=
  if b then match m s with Some (x, s') => k x s' | None => None end else None.
Definition restb (A : nat) (r : run) : bool := match phases_of (log r) A with AtRest => true | _ => false end.

Definition exec_event (ev : event) (r : run) : option run :=
  let s := now r in
  let stay {X} (_ : X) (s : driver) := Some (Run s (log r)) in
  let go A ph s := Some (Run s ((A, ph) :: log r)) in
  match ev with
  | Request A op => section (restb A r && command A op) (in_graph (run_op op)) stay s
  | OnLooper A op => section (restb A r) (run_looper A op) stay s
  | FreeBuffer E p data_ptr => section true (bc_free_buffer E p data_ptr) stay s
  | Aim E A reply tr => section (restb A r && aliveb A s) (target_step E A reply tr) (go A) s
  | Build E A extra =>
    match phases_of (log r) A with
    | Targeted reply id tr tg => section (fresh_envb E s) (build_step E A reply id tr extra tg) (go A) s
    | _ => None
    end
  | Commit E A =>
    match phases_of (log r) A with
    | Built reply tr t c tg => section true (commit_transaction E A tr t c tg) (fun _ => go A AtRest) s
    | _ => None
    end
  | Read A => section (restb A r && aliveb A s) (read_retry A) (fun w => go A (InRead w)) s
  | Sleep A =>
    match phases_of (log r) A with
    | InRead w => section true (wait_enter A w) (fun b => if b then fun _ => None else go A (Asleep w)) s
    | _ => None
    end
  | Wake A =>
    match phases_of (log r) A with Asleep w => section true (wait_leave A) (fun _ => go A (InRead w)) s | _ => None end
  | Waited A =>
    match phases_of (log r) A with InRead _ => section true (read_waited A) stay s | _ => None end
  | Round E A put_node put_user size ptr =>
    match phases_of (log r) A with
    | InRead w => section true (read_round E A w put_node put_user size ptr)
                    (fun x => go A (match x with Continue _ => InRead w | _ => AtRest end)) s
    | _ => None
    end
  | Exit E A => section (restb A r && aliveb A s) (binder_thread_release E A) stay s
  | NewThread p pid A => section (fresh_threadb A r) (binder_get_thread p pid (Some A)) stay s
  | Open p c pid => section (fresh_procb p s) (binder_open (Some p) c pid) stay s
  | Mmap p vma mm vm_start vm_end pages b =>
    section (fresh_bufferb b s) (in_alloc p (binder_alloc_mmap_handler vma mm vm_start vm_end pages b)) stay s
  end.

Definition exec_all (evs : list event) (r : run) : option run := foldl (fun o ev => match o with Some r => exec_event ev r | None => None end) (Some r) evs.

(** ** Every event is a step *)

Lemma aliveb_spec A s : aliveb A s = true -> alive A s.
Proof. unfold aliveb, alive. destruct (threads (graph s) !! A) as [T|]; [|done]. intros H%negb_true_iff. by exists T. Qed.
Lemma fresh_bufferb_spec n s : fresh_bufferb n s = true -> fresh_buffer n s.
Proof. unfold fresh_bufferb, fresh_buffer. intros H c p al -> Hal. apply bool_decide_eq_true in H. by apply (H p al). Qed.
Lemma fresh_envb_spec E s : fresh_envb E s = true -> fresh_env E s.
Proof.
  unfold fresh_envb. intros [Ht Hb]%andb_true_iff. split; [|by apply fresh_bufferb_spec]. intros t Et. rewrite Et in Ht. by apply bool_decide_eq_true in Ht.
Qed.
Lemma fresh_procb_spec p s : fresh_procb p s = true -> fresh_proc p s.
Proof.
  unfold fresh_procb. intros [Hp%bool_decide_eq_true Ht%bool_decide_eq_true]%andb_true_iff. split; [done|]. intros t X b HX E.
  specialize (Ht t X HX). unfold in_procb in Ht. rewrite E in Ht. by rewrite bool_decide_true in Ht.
Qed.
Lemma phases_of_free A d l : forallb (fun e => negb (for_threadb A (doing_of (snd e)))) l = true -> for_threadb A d = true -> forall B, doing_of (phases_of l B) <> d.
Proof.
  intros H Hd B. induction l as [|[C ph] l IH]; simpl in *; [by intros <-|]. apply andb_true_iff in H as [H1%negb_true_iff H2]. unfold fupd. case_decide; [|by apply IH].
  intros <-. congruence.
Qed.
Lemma fresh_threadb_spec A r : fresh_threadb A r = true -> fresh_thread (fun B => doing_of (phases_of (log r) B)) A (now r).
Proof.
  unfold fresh_threadb. intros [[HT%bool_decide_eq_true Hq%bool_decide_eq_true]%andb_true_iff H]%andb_true_iff. split; [done|]. split; [done|].
  intros B q. split; apply (phases_of_free A _ _ H); simpl; by apply bool_decide_eq_true.
Qed.
Lemma restb_spec A r : restb A r = true -> phases_of (log r) A = AtRest.
Proof. unfold restb. by destruct (phases_of _ _). Qed.
Lemma section_inv {X} b (m : M driver X) k s r : section b m k s = Some r -> b = true /\ exists x s', m s = Some (x, s') /\ k x s' = Some r.
Proof. unfold section. destruct b; [|done]. destruct (m s) as [[x s']|]; [|done]. intros H. split; [done|]. by exists x, s'. Qed.

Lemma exec_step ev r r' : exec_event ev r = Some r' -> step (sys_of r) (sys_of r').
Proof.
  destruct ev; cbn [exec_event]; intros H; try match type of H with match phases_of ?l ?A with _ => _ end = _ => destruct (phases_of l A) eqn:HA; try done end;
    apply section_inv in H as (Hb & x & s' & H & Hk); try (injection Hk as <-).
  - apply andb_true_iff in Hb as [HA%restb_spec Hop]. destruct x. by eapply step_command.
  - apply restb_spec in Hb. destruct x. by eapply step_looper.
  - destruct x. by eapply step_free_buffer.
  - apply andb_true_iff in Hb as [HA%restb_spec Ha%aliveb_spec]. by eapply step_target.
  - apply fresh_envb_spec in Hb. by eapply step_build.
  - destruct x. by eapply step_commit.
  - apply andb_true_iff in Hb as [HA%restb_spec Ha%aliveb_spec]. by eapply step_read.
  - destruct x; [done|]. injection Hk as <-. by eapply step_sleep.
  - destruct x. by eapply step_wake.
  - destruct x. by eapply step_waited.
  - by eapply (step_round (sys_of r)).
  - apply andb_true_iff in Hb as [HA%restb_spec Ha%aliveb_spec]. by eapply step_exit.
  - apply fresh_threadb_spec in Hb. eapply (step_thread (sys_of r)); [|exact H]. by intros A' [= <-].
  - apply fresh_procb_spec in Hb. eapply (step_open (sys_of r)); [|exact H]. by intros p' [= <-].
  - apply fresh_bufferb_spec in Hb. by eapply (step_mmap (sys_of r)).
Qed.

Lemma exec_all_reachable evs r r' : reachable (sys_of r) -> exec_all evs r = Some r' -> reachable (sys_of r').
Proof.
  unfold exec_all. revert r. induction evs as [|ev evs IH]; intros r Hr; [by intros [= <-]|]. cbn [foldl]. destruct (exec_event ev r) as [r1|] eqn:E.
  - apply IH. destruct Hr as (s0 & H0 & H). exists s0. split; [done|]. eapply star_step; [exact H|by eapply exec_step; exact E].
  - intros H. assert (HN : foldl (fun o ev => match o with Some r => exec_event ev r | None => None end) None evs = None) by (clear; by induction evs). congruence.
Qed.
End run.
