(* ===== verification/BinderTxnFail.v ===== *)
(** * Calls that fail

    [binder_send_failed_reply] from a call up the chain of callers: which
    transactions go, which thread is told, and that the loop gets there. *)

From Stdlib Require Import ZArith Lia.
From stdpp Require Import base option gmap sets list.
From S2P Require Import Prelude RbTree BinderAlloc BinderAllocFacts BinderNode BinderNodeFacts BinderNodeDeath BinderTranslate BinderObjects BinderTxn BinderCalls.
From S2P Require Import BinderFrame BinderFrameAlloc BinderTxnView BinderTxnHush BinderTxnOps.

(** The thread that waits, with a hold on it. *)
Lemma get_from_eq `{RB : Rbtree} E t X s : transactions s !! t = Some X ->
  (t_from X = None -> binder_get_txn_from_and_acq_inner E t s = Some (None, s)) /\
  forall f F, t_from X = Some f -> threads (graph s) !! f = Some F ->
    binder_get_txn_from_and_acq_inner E t s = Some (Some f, put_thread f (set_life (s32 (thread_tmp_ref F + 1)) (thread_is_dead F) F) s).
Proof.
  intros HX. unfold binder_get_txn_from_and_acq_inner, binder_get_txn_from. split.
  - intros Hf. unfold bind at 1 2. by rewrite (txn_at_eq t X s HX), Hf.
  - intros f F Hf HF. unfold bind at 1 2. rewrite (txn_at_eq t X s HX), Hf. unfold thread_inc_tmpref.
    rewrite (bind_eq _ _ _ _ _ (upd_thread_eq f F _ s HF)). unfold ret. set (s2 := put_thread _ _ s).
    assert (HX2 : transactions s2 !! t = Some X) by done. rewrite (bind_eq _ _ _ _ _ (txn_at_eq t X s2 HX2)), Hf, bool_decide_true by done. done.
Qed.

(** ** Freeing *)

(** Every buffer a transaction names is there. *)
Definition attached (s : driver) : Prop := forall t X p b, transactions s !! t = Some X -> t_buffer X = Some (p, b) ->
  exists al B, allocs s !! p = Some al /\ store al !! b = Some B.

(** Same threads and lists; counters may differ. *)
Definition same_lists (s s' : driver) : Prop := threads (graph s') = threads (graph s) /\ works (graph s') = works (graph s).

#[export] Instance same_lists_preorder : PreOrder same_lists.
Proof. split; [done|]. intros x y z [] []. split; congruence. Qed.

Lemma forget_buffer_runs s t X : attached s -> transactions s !! t = Some X -> exists al,
  match to_proc X, t_buffer X with Some _, Some b => upd_buf b (set_transaction None) | _, _ => ret tt end s = Some (tt, set_allocs al s) /\
  attached (set_allocs al s).
Proof.
  intros Ha HX. assert (Hid : set_allocs (allocs s) s = s) by by destruct s.
  destruct (to_proc X); [|exists (allocs s); by rewrite Hid]. destruct (t_buffer X) as [[p b]|] eqn:E; [|exists (allocs s); by rewrite Hid].
  destruct (Ha t X p b HX E) as (al & B & Hal & HB). exists (<[p := set_store (<[b := set_transaction None B]> (store al)) al]> (allocs s)). split.
  - unfold upd_buf, in_alloc. cbn [fst snd]. rewrite Hal. unfold buf_at, bind, get, deref. by rewrite HB.
  - intros u Y q c HY Hc. destruct (Ha u Y q c HY Hc) as (al' & B' & Hal' & HB'). simpl. rewrite lookup_insert. case_decide as Eq; [|by exists al', B'].
    subst q. assert (al' = al) as -> by congruence. exists (set_store (<[b := set_transaction None B]> (store al)) al).
    destruct (decide (c = b)) as [->|Hcb].
    + exists (set_transaction None B). split; [done|]. simpl. by rewrite lookup_insert_eq.
    + exists B'. split; [done|]. simpl. by rewrite lookup_insert_ne.
Qed.

Lemma free_runs s t X : attached s -> transactions s !! t = Some X -> t_fixups X = [] ->
  exists s', binder_free_transaction t s = Some (tt, s') /\ transactions s' = delete t (transactions s) /\ attached s' /\ same_lists s s'.
Proof.
  intros Ha HX Hfx. unfold binder_free_transaction. rewrite (bind_eq _ _ _ _ _ (txn_at_eq t X s HX)).
  destruct (forget_buffer_runs s t X Ha HX) as (al & E & Ha1). rewrite (bind_eq _ _ _ _ _ E).
  erewrite bind_eq; cycle 1.
  { unfold free_txn_fixups. simpl. rewrite HX, Hfx. reflexivity. }
  eexists. split; [reflexivity|]. simpl. split; [by rewrite delete_insert_eq|]. split; [|by split].
  intros u Y p b HY Hb. simpl in HY. rewrite delete_insert_eq in HY. apply lookup_delete_Some in HY as [_ HY]. by apply (Ha1 u Y p b).
Qed.

(** ** Up the callers *)

(** From call [t] up: the calls whose callers are gone, and the first one
    whose caller is not, with that caller. *)
Inductive up_to (m : gmap nat binder_transaction) : nat -> list nat -> option (nat * nat) -> Prop :=
  | up_found t X A : m !! t = Some X -> t_from X = Some A -> up_to m t [t] (Some (t, A))
  | up_end t X : m !! t = Some X -> t_from X = None -> from_parent X = None -> up_to m t [t] None
  | up_more t X u l e : m !! t = Some X -> t_from X = None -> from_parent X = Some u -> up_to m u l e -> up_to m t (t :: l) e.

Lemma up_to_in m t l e : up_to m t l e -> forall v, v ∈ l -> is_Some (m !! v).
Proof. induction 1; intros v; [intros ->%list_elem_of_singleton; by eexists..|]. intros [->|Hv]%elem_of_cons; [by eexists|by apply IHup_to]. Qed.
Lemma up_to_delete m t l e u : up_to m t l e -> u ∉ l -> up_to (delete u m) t l e.
Proof.
  induction 1 as [t X A HX Hf|t X HX Hf Hp|t X v l e HX Hf Hp _ IH]; intros Hu; apply not_elem_of_cons in Hu as [Hut Hul];
    assert (HX' : delete u m !! t = Some X) by (by rewrite lookup_delete_ne); [by eapply up_found|by eapply up_end|eapply up_more; [done..|by apply IH]].
Qed.

(** A thread is told unless an error waits for it already. *)
Definition told (A : nat) (next : option nat) (z : Z) (T : binder_thread) (s s' : driver) : Prop :=
  exists T', threads (graph s') !! A = Some T' /\ transaction_stack T' = next /\
  if decide (reply_error T = BR_OK) then reply_error T' = z /\ queue (thread_todo A) (graph s') = queue (thread_todo A) (graph s) ++ [WReplyError A]
  else reply_error T' = reply_error T /\ queue (thread_todo A) (graph s') = queue (thread_todo A) (graph s).

Definition told_of (e : option (nat * nat)) (z : Z) (s s' : driver) : Prop :=
  match e with
  | None => same_lists s s'
  | Some (v, A) => exists T X, threads (graph s) !! A = Some T /\ transactions s !! v = Some X /\ told A (from_parent X) z T s s'
  end.
(** The caller found waits for that call. *)
Definition waits_for (e : option (nat * nat)) (s : driver) : Prop :=
  match e with
  | None => True
  | Some (v, A) => exists T, threads (graph s) !! A = Some T /\ thread_is_dead T = false /\ transaction_stack T = Some v /\
      (reply_error T = BR_OK -> forall l, WReplyError A ∉ queue l (graph s))
  end.

Section fail.
Context `{RB : Rbtree} (E : driver_env).

Lemma post_error_runs A z T s : threads (graph s) !! A = Some T -> (reply_error T = BR_OK -> forall l, WReplyError A ∉ queue l (graph s)) ->
  exists s' T', post_reply_error A z s = Some (tt, s') /\ threads (graph s') !! A = Some T' /\ transactions s' = transactions s /\ allocs s' = allocs s /\
    thread_is_dead T' = thread_is_dead T /\ told A (transaction_stack T) z T s s'.
Proof.
  intros HT Hq. unfold post_reply_error. rewrite (bind_eq _ _ _ _ _ (d_thread_eq A T s HT)). destruct (Z.eqb_spec (reply_error T) BR_OK) as [He|He].
  - set (T1 := set_errors (return_error T) z T). rewrite (bind_eq _ _ _ _ _ (upd_thread_eq A T _ s HT)). fold T1.
    set (s1 := put_thread A T1 s). assert (HT1 : threads (graph s1) !! A = Some T1) by (simpl; by rewrite lookup_insert_eq).
    destruct (thread_work_ok A T1 (WReplyError A) (graph s1) HT1 (Hq He)) as (g & Eg & _). destruct (thread_work_inv _ _ _ _ _ Eg) as (T2 & n & HT2 & Hg).
    assert (T2 = T1) as -> by congruence. erewrite bind_eq by (unfold in_graph; rewrite Eg; reflexivity).
    eexists _, (set_process_todo_flag true T1). split; [reflexivity|]. rewrite Hg. simpl. rewrite lookup_insert_eq. split_and!; try done.
    unfold told. eexists. simpl. rewrite lookup_insert_eq. split; [done|]. split; [done|]. rewrite decide_True by done. split; [done|].
    unfold queue at 1. simpl. by rewrite lookup_insert_eq.
  - exists s, T. split_and!; try done. exists T. split; [done|]. split; [done|]. by rewrite decide_False.
Qed.

(** The end of the chain. *)
Lemma tell_runs t X A T z s : attached s -> transactions s !! t = Some X -> t_fixups X = [] -> t_from X = Some A -> waits_for (Some (t, A)) s ->
  threads (graph s) !! A = Some T ->
  exists s', (binder_pop_transaction_ilocked A t ;! post_reply_error A z ;! binder_thread_dec_tmpref E A ;! binder_free_transaction t)
    (put_thread A (set_life (s32 (thread_tmp_ref T + 1)) (thread_is_dead T) T) s) = Some (tt, s') /\
    transactions s' = delete t (transactions s) /\ told A (from_parent X) z T s s'.
Proof.
  intros Ha HX Hfx Hf (T' & HT' & HD & Hst & Hq) HT. assert (T' = T) as -> by congruence. clear HT'.
  set (T0 := set_life _ _ T). set (s0 := put_thread A T0 s). assert (HT0 : threads (graph s0) !! A = Some T0) by (simpl; by rewrite lookup_insert_eq).
  set (T1 := set_stack (from_parent X) T0). set (s1 := set_transactions (<[t := set_from None X]> (transactions s0)) (put_thread A T1 s0)).
  assert (Epop : binder_pop_transaction_ilocked A t s0 = Some (tt, s1)).
  { unfold binder_pop_transaction_ilocked. rewrite (bind_eq _ _ _ _ _ (d_thread_eq A T0 s0 HT0)), bool_decide_true by done. cbn [negb].
    rewrite (bind_eq (bug_on false) _ _ tt s0) by done. rewrite (bind_eq _ _ _ _ _ (txn_at_eq t X s0 HX)), bool_decide_true by done. done. }
  rewrite (bind_eq _ _ _ _ _ Epop). assert (HT1 : threads (graph s1) !! A = Some T1) by (simpl; by rewrite lookup_insert_eq).
  destruct (post_error_runs A z T1 s1 HT1 Hq) as (s2 & T2 & E2 & HT2 & Et2 & Ea2 & HD2 & Htold). rewrite (bind_eq _ _ _ _ _ E2).
  assert (E3 : exists s3, binder_thread_dec_tmpref E A s2 = Some (tt, s3) /\ transactions s3 = transactions s2 /\ allocs s3 = allocs s2 /\
    works (graph s3) = works (graph s2) /\ threads (graph s3) !! A = Some (set_life (s32 (thread_tmp_ref T2 - 1)) (thread_is_dead T2) T2)).
  { unfold binder_thread_dec_tmpref. rewrite (bind_eq _ _ _ _ _ (d_thread_eq A T2 s2 HT2)). cbv zeta. rewrite (bind_eq _ _ _ _ _ (d_put_thread_eq A _ s2)).
    rewrite HD2. replace (thread_is_dead T1) with false by done. eexists. split; [reflexivity|]. simpl. by rewrite lookup_insert_eq. }
  destruct E3 as (s3 & E3 & Et3 & Ea3 & Ew3 & HT3). rewrite (bind_eq _ _ _ _ _ E3).
  assert (HX3 : transactions s3 !! t = Some (set_from None X)) by (rewrite Et3, Et2; simpl; by rewrite lookup_insert_eq).
  assert (Ha3 : attached s3).
  { intros u Y p b HY Hb. rewrite Ea3, Ea2. rewrite Et3, Et2 in HY. simpl in HY. apply lookup_insert_Some in HY as [[_ <-]|[_ HY]]; [by eapply (Ha t X)|by eapply Ha]. }
  destruct (free_runs s3 t _ Ha3 HX3 Hfx) as (s4 & E4 & Et4 & _ & [Eth4 Ew4]). exists s4. split; [exact E4|]. split.
  - rewrite Et4, Et3, Et2. simpl. by rewrite delete_insert_eq.
  - destruct Htold as (T2' & HT2' & Hs2 & Hr2). assert (T2' = T2) as -> by congruence. eexists. rewrite Eth4. split; [exact HT3|]. split; [exact Hs2|].
    unfold queue at 1 3. rewrite Ew4, Ew3. exact Hr2.
Qed.

Lemma told_mono A next z T s0 s s' : same_lists s0 s -> told A next z T s s' -> told A next z T s0 s'.
Proof. intros [_ Ew] (T' & HT' & Hs & H). exists T'. split; [done|]. split; [done|]. unfold queue in *. by rewrite Ew in H. Qed.
Lemma waits_mono e s s' : same_lists s s' -> waits_for e s -> waits_for e s'.
Proof. intros [Et Ew]. destruct e as [[v A]|]; [|done]. intros (T & HT & HD & Hst & Hq). exists T. rewrite Et. unfold queue. by rewrite Ew. Qed.

Lemma fail_runs z l : forall fuel t e s, (length l <= fuel)%nat -> up_to (transactions s) t l e -> NoDup l -> attached s ->
  (forall v X, v ∈ l -> transactions s !! v = Some X -> t_fixups X = []) -> waits_for e s ->
  exists s', send_failed_reply_loop E fuel t z s = Some (tt, s') /\ told_of e z s s' /\
    forall u, transactions s' !! u = if decide (u ∈ l) then None else transactions s !! u.
Proof.
  assert (Hgone : forall (m : gmap nat binder_transaction) t u, delete t m !! u = if decide (u ∈ [t]) then None else m !! u).
  { intros m t u. rewrite lookup_delete. case_decide as H1; case_decide as H2; try done.
    - subst. destruct H2. left.
    - apply list_elem_of_singleton in H2. congruence. }
  induction l as [|t0 l IH]; intros fuel t e s Hlen HU Hnd Ha Hfx Hw; [inversion HU|]. destruct fuel as [|fuel]; [simpl in Hlen; lia|].
  cbn [send_failed_reply_loop]. inversion HU as [? X A HX Hf E1 E2 E3|? X HX Hf Hp E1 E2 E3|? X v ? ? HX Hf Hp HU' E1 E2 E3]; subst.
  - pose proof Hw as (T & HT & HD & _). rewrite (bind_eq _ _ _ _ _ (proj2 (get_from_eq E t0 X s HX) A T Hf HT)).
    destruct (tell_runs t0 X A T z s Ha HX (Hfx t0 X ltac:(left) HX) Hf Hw HT) as (s' & Es & Et & Ht). exists s'. split; [exact Es|]. split; [by exists T, X|].
    intros u. by rewrite Et, Hgone.
  - rewrite (bind_eq _ _ _ _ _ (proj1 (get_from_eq E t0 X s HX) Hf)), (bind_eq _ _ _ _ _ (txn_at_eq t0 X s HX)).
    destruct (free_runs s t0 X Ha HX (Hfx t0 X ltac:(left) HX)) as (s' & Es & Et & _ & Hsl). rewrite (bind_eq _ _ _ _ _ Es), Hp. exists s'. split; [done|].
    split; [done|]. intros u. by rewrite Et, Hgone.
  - rewrite (bind_eq _ _ _ _ _ (proj1 (get_from_eq E t0 X s HX) Hf)), (bind_eq _ _ _ _ _ (txn_at_eq t0 X s HX)).
    destruct (free_runs s t0 X Ha HX (Hfx t0 X ltac:(left) HX)) as (s1 & Es & Et & Ha1 & Hsl). rewrite (bind_eq _ _ _ _ _ Es), Hp.
    apply NoDup_cons in Hnd as [Hnt Hnd]. destruct (IH fuel v e s1) as (s' & Er & Ht & Htx); [simpl in Hlen; lia|rewrite Et; by apply up_to_delete|done|done| |by eapply waits_mono|].
    + intros u Y Hu HY. rewrite Et in HY. apply lookup_delete_Some in HY as [_ HY]. apply (Hfx u Y); [by right|done].
    + exists s'. split; [exact Er|]. split.
      * destruct e as [[w A]|]; [|by etrans]. destruct Ht as (T & Y & HT & HY & Ht). destruct Hsl as [Eth Ew]. rewrite Eth in HT.
        rewrite Et in HY. apply lookup_delete_Some in HY as [_ HY]. exists T, Y. split; [done|]. split; [done|]. eapply told_mono; [by split|done].
      * intros u. rewrite Htx, Et, lookup_delete. destruct (decide (u = t0)) as [->|Hut].
        -- rewrite (decide_False (P := t0 ∈ l)) by done. rewrite (decide_True (P := t0 ∈ t0 :: l)) by left. by rewrite (decide_True (P := t0 = t0)) by done.
        -- rewrite (decide_False (P := t0 = u)) by congruence. destruct (decide (u ∈ l)); [by rewrite decide_True by by right|].
           rewrite decide_False; [done|]. by intros [?|?]%elem_of_cons.
Qed.
End fail.

(** ** From a call in hand *)

(** The chain is there, no call is on it twice, and the caller at its end has
    the last call on top of its stack. *)
Lemma chain_of_calls (m : gmap nat binder_transaction) n : forall stk c t, size (tx c) = n -> inv stk (Some t) c ->
  (forall v Y, tx c !! v = Some Y -> exists X, m !! v = Some X /\ Y = call_of X) ->
  exists l e, up_to m t l e /\ NoDup l /\ (forall v, v ∈ l -> exists Z, tx c !! v = Some Z /\ sync Z = true) /\ forall v B, e = Some (v, B) -> top c B = Some (Some v).
Proof.
  induction n as [|n IH]; intros stk c t Hn I Hm; destruct (i_lim _ _ _ I t eq_refl) as (Y & HY & Hs & _).
  { apply map_size_empty_inv in Hn. rewrite Hn in HY. by rewrite lookup_empty in HY. }
  destruct (Hm t Y HY) as (X & HX & ->). destruct (t_from X) as [B|] eqn:Hf.
  - exists [t], (Some (t, B)). split; [by eapply up_found|]. split; [by apply NoDup_singleton|]. split; [intros v ->%list_elem_of_singleton; by eexists|].
    intros v B' [= <- <-]. destruct (lim_on_top stk c t I _ HY B Hf) as (l & _ & Ht & _). done.
  - destruct (from_parent X) as [u|] eqn:Hp.
    + pose proof (inv_up stk c t I _ HY Hf) as I1. cbn [call_of parent] in I1. rewrite Hp in I1.
      destruct (IH stk (drop t c) u) as (l & e & HU & Hnd & Hin & He); [|done| |].
      * simpl. rewrite map_size_delete_Some by by eexists. lia.
      * intros v Z [_ HZ]%drop_ne. by apply Hm.
      * exists (t :: l), e. split; [by eapply up_more|]. split.
        -- constructor; [|done]. intros Ht. destruct (Hin t Ht) as [Z [HZ _]]. simpl in HZ. by rewrite lookup_delete_eq in HZ.
        -- split; [|exact He]. intros v [->|Hv]%elem_of_cons; [by eexists|]. destruct (Hin v Hv) as (Z & [_ HZ]%drop_ne & HsZ). by eexists.
    + exists [t], None. split; [by eapply up_end|]. split; [by apply NoDup_singleton|]. split; [intros v ->%list_elem_of_singleton; by eexists|done].
Qed.
