(* ===== verification/BinderTxnDemo.v ===== *)
(** * A run with a call inside a call

    Process 1 becomes context manager and its thread 1 sleeps; thread 2 of
    process 2 calls it, with an object of its own; thread 1 takes the call
    and, inside it, turns to process 2, or replies. *)

From Stdlib Require Import ZArith Lia.
From stdpp Require Import base option gmap sets list.
From S2P Require Import Prelude RbTree BinderAlloc BinderAllocTheorems BinderNode BinderTranslate BinderNodeSystem BinderNodeTheorems.
From S2P Require Import BinderObjects BinderObjectsTheorems BinderTxn BinderCalls BinderTxnView BinderTxnDraft BinderTxnTarget BinderTxnSystem BinderTxnRun.
From S2P Require Import BinderTxnExit BinderTxnFail.

#[local] Existing Instance plain_rbtree.

Definition nothing : driver :=
  Driver (Binder ∅ ∅ ∅ ∅ ∅ ∅ ∅ ∅ [] 0 [] (fun _ => 0) (fun _ => 0) 0) ∅ ∅ [] [] [].
Definition start : run := Run nothing [].

(** The environment of a call: transaction [t], its completion, buffer [b]. *)
Definition call_env (t b : nat) : driver_env :=
  DriverEnv demo_env demo_txn_env (Some t) (Some (t + 10)%nat) (Some b) 0 (0, []) 1000 (fun _ => true).
Definition client_call : binder_transaction_data := TxnData 0 7 0 4096 8192 24 8.
Definition server_call : binder_transaction_data := TxnData 1 8 0 0 0 0 0.

Definition ev_setup : list event :=
  [Open 1 0 100; Open 2 0 200; NewThread 1 100 1; NewThread 2 200 2;
   Mmap 1 1 (Some 1%nat) 65536 81920 true (Some 1%nat); Mmap 2 2 (Some 2%nat) 65536 81920 true (Some 2%nat);
   Request 1 (SetCtxMgr 1 0 1000 (Some 10%nat) None); OnLooper 1 EnterLooper; OnLooper 1 IoctlDone; OnLooper 2 IoctlDone;
   Read 1; Sleep 1].
Definition ev_call : list event := ev_setup ++ [Aim (call_env 50 3) 2 false client_call; Build (call_env 50 3) 2 0; Commit (call_env 50 3) 2].
Definition ev_served : list event := ev_call ++ [Wake 1; Waited 1; Round (call_env 50 3) 1 (fun _ => true) (fun _ => true) 256 4].
Definition ev_back : list event := ev_served ++ [Aim (call_env 51 4) 1 false server_call].
Definition ev_reply : list event := ev_served ++ [Aim (call_env 51 4) 1 true server_call; Build (call_env 51 4) 1 0].

Definition reached (evs : list event) : run := default start (exec_all evs start).

Lemma start_reachable : reachable (sys_of start).
Proof. exists (sys_of start). split; [|constructor]. by split. Qed.
Lemma reached_reachable evs : bool_decide (is_Some (exec_all evs start)) = true -> reachable (sys_of (reached evs)).
Proof.
  intros [r Hr]%bool_decide_eq_true. unfold reached. rewrite Hr. eapply exec_all_reachable; [apply start_reachable|exact Hr].
Qed.

(** ** What the run leaves true, as tests *)

Definition procs_thereb (s : driver) : bool := bool_decide (map_Forall (fun _ T => is_Some (procs (graph s) !! thread_proc T)) (threads (graph s))).
Lemma procs_thereb_ok s : procs_thereb s = true -> forall f F, threads (graph s) !! f = Some F -> is_Some (procs (graph s) !! thread_proc F).
Proof. intros H%bool_decide_eq_true f F HF. by apply (H f F). Qed.

Definition has_bufferb (s : driver) (X : binder_transaction) : bool :=
  match t_buffer X with
  | Some (p, b) => match allocs s !! p with Some al => bool_decide (is_Some (store al !! b)) | None => false end
  | None => true
  end.
Definition attachedb (s : driver) : bool := bool_decide (map_Forall (fun _ X => has_bufferb s X = true) (transactions s)).
Lemma attachedb_ok s : attachedb s = true -> attached s /\ buffers_there s.
Proof.
  intros H%bool_decide_eq_true. assert (Ha : attached s).
  { intros t X p b HX Hb. specialize (H t X HX). unfold has_bufferb in H. rewrite Hb in H. destruct (allocs s !! p) as [al|]; [|done].
    apply bool_decide_eq_true in H as [B HB]. by exists al, B. }
  split; [done|]. intros t X p b HX Hb. destruct (Ha t X p b HX Hb) as (al & _ & Hal & _). by exists al.
Qed.

Definition no_fixupsb (s : driver) : bool := bool_decide (map_Forall (fun _ X => t_fixups X = []) (transactions s)).
Lemma no_fixupsb_ok s : no_fixupsb s = true -> forall v X, transactions s !! v = Some X -> t_fixups X = [].
Proof. intros H%bool_decide_eq_true v X HX. by apply (H v X). Qed.

Definition is_reply_error (w : binder_work) : bool := match w with WReplyError _ => true | _ => false end.
Definition no_errorsb (s : driver) : bool := bool_decide (map_Forall (fun _ q => forallb (fun w => negb (is_reply_error w)) q = true) (works (graph s))).
Lemma no_errorsb_ok s : no_errorsb s = true -> forall B l, WReplyError B ∉ queue l (graph s).
Proof.
  intros H%bool_decide_eq_true B l Hw. unfold queue in Hw. destruct (works (graph s) !! l) as [q|] eqn:E; [|by apply not_elem_of_nil in Hw].
  specialize (H l q E). rewrite forallb_forall in H. apply list_elem_of_In in Hw. by specialize (H _ Hw).
Qed.

(** A thread with call [r] on top of its stack, that serves it. *)
Definition servesb (A r : nat) (s : driver) : bool :=
  match threads (graph s) !! A, transactions s !! r with
  | Some T, Some X => negb (thread_is_dead T) && bool_decide (transaction_stack T = Some r) && bool_decide (to_thread X = Some A)
  | _, _ => false
  end.
Lemma servesb_ok A r s : servesb A r s = true -> exists T X, threads (graph s) !! A = Some T /\ thread_is_dead T = false /\ transaction_stack T = Some r /\
  transactions s !! r = Some X /\ to_thread X = Some A.
Proof.
  unfold servesb. destruct (threads (graph s) !! A) as [T|]; [|done]. destruct (transactions s !! r) as [X|]; [|done].
  intros [[HD%negb_true_iff Hs%bool_decide_eq_true]%andb_true_iff Ht%bool_decide_eq_true]%andb_true_iff. by exists T, X.
Qed.
