(* ===== verification/BinderTxnTheorems.v ===== *)
(** * Transactions: the properties

    What holds in every state that the threads of many processes can bring
    about, and what the sections of the driver do there; each with an
    instance on the run of [BinderTxnDemo]. *)

From Stdlib Require Import ZArith Lia.
From stdpp Require Import base option gmap sets list.
From S2P Require Import Prelude RbTree BinderAlloc BinderNode BinderNodeFacts BinderTranslate BinderNodeSystem BinderObjects BinderTxn BinderCalls.
From S2P Require Import BinderFrame BinderFrameAlloc BinderTxnView BinderTxnHush BinderTxnOps BinderTxnTarget BinderTxnBuild BinderTxnExit.
From S2P Require Import BinderTxnSystem BinderTxnFail BinderTxnRun BinderTxnDemo.

Section facts.
Context `{RB : Rbtree} (sys : system) (R : reachable sys).
Local Abbreviation ps := (phases sys).
Local Abbreviation s := (drv sys).
Local Abbreviation c := (view (fun B => doing_of (ps B)) (fun B => making_of (ps B)) (fun B => draft_in B (ps B)) None s).

Lemma reachable_good : exists stk, inv stk None c /\ waiting_ok (graph s) /\ links (fun B => making_of (ps B)) None None None s.
Proof. destruct (reachable_consistent sys R) as [[stk [I W L]] _]. by exists stk. Qed.

Lemma account_txn t X : transactions s !! t = Some X -> tx c !! t = Some (call_of X).
Proof. intros H. simpl. by rewrite lookup_fmap, H. Qed.
Lemma account_txn_inv t Y : tx c !! t = Some Y -> exists X, transactions s !! t = Some X /\ Y = call_of X.
Proof. simpl. rewrite lookup_fmap. destruct (transactions s !! t) as [X|]; [|done]. intros [= <-]. by exists X. Qed.
Lemma account_top A T : threads (graph s) !! A = Some T -> thread_is_dead T = false -> top c A = Some (transaction_stack T).
Proof. intros HT HD. simpl. by rewrite HT, HD. Qed.
Lemma account_thread A o : top c A = Some o -> exists T, threads (graph s) !! A = Some T /\ thread_is_dead T = false /\ transaction_stack T = o.
Proof. simpl. destruct (threads (graph s) !! A) as [T|]; [|done]. destruct (thread_is_dead T) eqn:E; [done|]. intros [= <-]. by exists T. Qed.

(** ** The caller of the call on top *)

(** Whoever waits for the call a thread serves on top of its stack has it on
    top of its own. *)
Lemma caller_on_top A T r X f : threads (graph s) !! A = Some T -> thread_is_dead T = false -> transaction_stack T = Some r ->
  transactions s !! r = Some X -> to_thread X = Some A -> t_from X = Some f ->
  f <> A /\ exists F, threads (graph s) !! f = Some F /\ thread_is_dead F = false /\ transaction_stack F = Some r.
Proof.
  intros HT HD Hst HX Hto Hf. destruct reachable_good as (stk & I & _). pose proof (account_top A T HT HD) as HA. rewrite Hst in HA.
  pose proof (i_stack _ _ _ I A _ HA) as Hs. pose proof (stack_head _ _ _ _ Hs) as Hh. pose proof (account_txn r X HX) as HY.
  assert (Hin : incoming c A r /\ sync (call_of X) = true /\ caller (call_of X) <> Some A).
  { inversion Hs as [|t Y l HY' Hsy Hsv Hn Hh' Hl E1 E2|t Y l HY' Hsy Hca Hn Hh' Hl E1 E2]; subst; assert (Y = call_of X) as -> by congruence.
    - split; [by exists (call_of X)|done].
    - done. }
  destruct Hin as (Hin & Hsy & Hn). assert (Hlive : top c A <> None) by congruence.
  pose proof (top_childless _ _ _ _ _ I Hlive Hh Hin) as Hc. pose proof (i_called _ _ _ I r _ f HY Hsy Hf) as Hi.
  pose proof (tip_on_top _ _ _ f r I Hc Hi) as Ht. split; [intros ->; by apply Hn|]. by apply account_thread.
Qed.

(** ** Threads asleep *)

Lemma waiting_asleep A p : A ∈ waiting p (graph s) -> exists T, threads (graph s) !! A = Some T /\ thread_proc T = p /\ thread_is_dead T = false /\
  transaction_stack T = None /\ queue (thread_todo A) (graph s) = [] /\ ps A = Asleep true.
Proof.
  intros HA. destruct reachable_good as (stk & I & W & _).
  destruct (waiting_waits (fun B => doing_of (ps B)) (fun B => making_of (ps B)) (fun B => draft_in B (ps B)) None s A p W HA) as [Hw _].
  destruct (W p) as [_ Hp]. destruct (Hp A HA) as (T & HT & Ep). exists T. destruct (i_wait _ _ _ I A Hw) as [Hd Hq].
  destruct (i_free _ _ _ I A ltac:(by left)) as [Hs _]. assert (Ht : top c A <> None) by (apply (i_busy _ _ _ I); by rewrite Hd).
  destruct (top c A) as [o|] eqn:Eo; [|done]. pose proof (i_stack _ _ _ I A o Eo) as Hst. rewrite Hs in Hst.
  destruct (account_thread A o Eo) as (T' & HT' & HD & Est). assert (T' = T) as -> by congruence. split_and!; try done.
  - rewrite Est. by inversion Hst.
  - simpl in Hq. by destruct (queue (thread_todo A) (graph s)).
  - simpl in Hd. destruct (ps A) as [| | |? ? tr tg|? tr ? ? tg]; try done; [by injection Hd as ->|..]; by destruct (sending_off tr tg true).
Qed.

(** ** Stacks *)

Lemma stack_of A T stk : inv stk None c -> threads (graph s) !! A = Some T -> thread_is_dead T = false ->
  chain (transactions s) A (transaction_stack T) (stk A) /\ NoDup (stk A) /\ (length (stk A) <= size (transactions s))%nat.
Proof.
  intros I HT HD. pose proof (i_stack _ _ _ I A _ (account_top A T HT HD)) as Hs. pose proof (stack_nodup _ _ _ _ _ _ I Hs) as Hnd.
  split; [by eapply stack_chain|]. split; [done|]. rewrite <- (size_dom (transactions s)), <- (size_list_to_set (C := gset nat) (stk A)) by done.
  apply subseteq_size. intros t Ht%elem_of_list_to_set. apply elem_of_dom.
  destruct (stack_role _ _ _ _ t Hs Ht) as [(X & HX & _)|(X & HX & _)]; destruct (account_txn_inv t X HX) as (Y & HY & _); by exists Y.
Qed.

(** ** A reply that fails *)

End facts.

(** ** Replies *)

(** C2: A thread that replies to the call on top of its stack finds the
    thread that waits for it, with that call on top of its own stack, and
    takes the call off its own; a caller that is gone is the only obstacle. *)
Theorem reply_finds_caller `{RB : Rbtree} E sys A T r X : reachable sys ->
  threads (graph (drv sys)) !! A = Some T -> thread_is_dead T = false -> transaction_stack T = Some r ->
  transactions (drv sys) !! r = Some X -> to_thread X = Some A ->
  (forall f F, threads (graph (drv sys)) !! f = Some F -> is_Some (procs (graph (drv sys)) !! thread_proc F)) ->
  exists s', threads (graph s') !! A = Some (set_stack (to_parent X) T) /\ transactions s' = transactions (drv sys) /\ match t_from X with
  | None => reply_target E A (drv sys) = Some ((Some (BR_DEAD_REPLY, 0), Target (Some r) None None None), s')
  | Some f => exists F, threads (graph (drv sys)) !! f = Some F /\ transaction_stack F = Some r /\ reply_target E A (drv sys) = Some ((None, Target (Some r) (Some f) (Some (thread_proc F)) None), s')
  end.
Proof.
  intros R HT HD Hst HX Hto Hp. set (s := drv sys) in *. unfold reply_target. rewrite (bind_eq _ _ _ _ _ (d_thread_eq A T s HT)), Hst.
  rewrite (bind_eq _ _ _ _ _ (txn_at_eq r X s HX)), bool_decide_true by done. cbn [negb].
  rewrite (bind_eq _ _ _ _ _ (d_put_thread_eq A (set_stack (to_parent X) T) s)). set (s1 := put_thread _ _ s).
  destruct (t_from X) as [f|] eqn:Hf.
  - destruct (caller_on_top sys R A T r X f HT HD Hst HX Hto Hf) as (HfA & F & HF & HDF & HstF). destruct (Hp f F HF) as [P HP].
    assert (HF1 : threads (graph s1) !! f = Some F) by (simpl; by rewrite lookup_insert_ne by done).
    set (F2 := set_life (s32 (thread_tmp_ref F + 1)) (thread_is_dead F) F). set (s2 := put_thread f F2 s1).
    assert (HF2 : threads (graph s2) !! f = Some F2) by (simpl; by rewrite lookup_insert_eq).
    rewrite (bind_eq _ _ _ _ _ (proj2 (get_from_eq E r X s1 HX) f F Hf HF1)). fold F2 s2.
    rewrite (bind_eq _ _ _ _ _ (d_thread_eq f F2 s2 HF2)), bool_decide_true by done. cbn [negb].
    unfold proc_inc_tmpref. rewrite (bind_eq _ _ _ _ _ (upd_proc_eq (thread_proc F) P _ s2 HP)). eexists. split; [|split; [|exists F; split; [done|split; [done|reflexivity]]]]; [|done].
    simpl. by rewrite lookup_insert_ne, lookup_insert_eq by done.
  - rewrite (bind_eq _ _ _ _ _ (proj1 (get_from_eq E r X s1 HX) Hf)). exists s1. split; [simpl; by rewrite lookup_insert_eq|]. done.
Qed.

(** C3: Between the two ends of a reply nobody takes its call away: while the
    reply is being made its caller, if it is there, has the call on top of
    its stack, so the pop that ends the call hits no [BUG_ON] and leaves the
    caller where it was before the call. *)
Theorem reply_pops_its_call `{RB : Rbtree} sys A tr t c r f p : reachable sys ->
  phases sys A = Built true tr t c (Target (Some r) (Some f) (Some p) None) -> alive f (drv sys) ->
  exists X F s', transactions (drv sys) !! r = Some X /\ to_thread X = Some A /\ t_from X = Some f /\ threads (graph (drv sys)) !! f = Some F /\
    binder_pop_transaction_ilocked f r (drv sys) = Some (tt, s') /\ threads (graph s') !! f = Some (set_stack (from_parent X) F).
Proof.
  intros R HA (F & HF & HD). destruct (reachable_good sys R) as (stk & I & _).
  assert (Hd : doing_of (phases sys A) = Replying r (Some f)) by (by rewrite HA).
  pose proof (replying_childless _ _ _ A r (Some f) I Hd) as Hc. destruct (i_replying _ _ _ I A r (Some f) Hd) as (Y & HY & Hs & Hv & _ & He & _).
  destruct (account_txn_inv sys r Y HY) as (X & HX & ->). pose proof (account_top sys f F HF HD) as Ht.
  assert (Hf : t_from X = Some f) by (destruct He as [He|[_ He]]; [done|]; specialize (He f eq_refl); congruence).
  pose proof (tip_on_top _ _ _ f r I Hc (i_called _ _ _ I r _ f HY Hs Hf)) as Htop. assert (Hst : transaction_stack F = Some r) by congruence.
  exists X, F. unfold binder_pop_transaction_ilocked. rewrite (bind_eq _ _ _ _ _ (d_thread_eq f F (drv sys) HF)), bool_decide_true by done.
  cbn [negb]. rewrite (bind_eq (bug_on false) _ _ tt (drv sys)) by done. rewrite (bind_eq _ _ _ _ _ (txn_at_eq r X (drv sys) HX)), bool_decide_true by done. cbn [negb].
  rewrite (bind_eq (bug_on false) _ _ tt (drv sys)) by done. rewrite (bind_eq _ _ _ _ _ (d_put_thread_eq f _ (drv sys))). eexists. split_and!; try done.
  simpl. by rewrite lookup_insert_eq.
Qed.

(** ** Calls *)

(** C4: A thread on [waiting_threads] is asleep with nothing on its stack or
    its list, so that [binder_select_thread_ilocked] never interrupts a call,
    and looking at the head of a list is enough in [binder_transaction]. *)
Theorem selected_thread_is_idle `{RB : Rbtree} sys p A g : reachable sys -> binder_select_thread_ilocked p (graph (drv sys)) = Some (Some A, g) ->
  exists T, threads (graph (drv sys)) !! A = Some T /\ thread_proc T = p /\ thread_is_dead T = false /\ transaction_stack T = None /\
    queue (thread_todo A) (graph (drv sys)) = [] /\ phases sys A = Asleep true.
Proof.
  intros R (P & HP & rest & Hw & _)%select_inv. apply waiting_asleep; [done|]. unfold waiting. rewrite HP, Hw. left.
Qed.




(** ** Buffers *)

(** C6: A transaction on a list has its buffer to itself, and its receiver
    cannot free that buffer before it has read the transaction, whatever
    pointer it gives to BC_FREE_BUFFER. *)
Theorem unread_buffer_kept `{RB : Rbtree} sys t X l p b al : reachable sys -> t ∈ txns (queue l (graph (drv sys))) ->
  transactions (drv sys) !! t = Some X -> t_buffer X = Some (p, b) -> allocs (drv sys) !! p = Some al ->
  (exists B, store al !! b = Some B /\ free B = false /\ transaction B = Some t) /\
  (forall u Y, transactions (drv sys) !! u = Some Y -> t_buffer Y = Some (p, b) -> u = t) /\
  (forall a r al', binder_alloc_prepare_to_free a al = Some (r, al') -> r <> Found b).
Proof.
  intros R Ht HX Hb Hal. destruct (reachable_good sys R) as (stk & _ & _ & L). set (s := drv sys) in *.
  destruct (l_attached _ _ _ _ _ L t X p b al HX Hb Hal) as (B & HB & HF & HT). split; [by exists B|]. split.
  - intros u Y HY HbY. destruct (l_attached _ _ _ _ _ L u Y p b al HY HbY Hal) as (B' & HB' & _ & HT'). congruence.
  - intros a r al' H ->. destruct (prepare_found _ _ _ _ H) as [_ Hp]. destruct (Hp b eq_refl) as (B' & HB' & _ & Hu). assert (B' = B) as -> by congruence.
    destruct (l_unread _ _ _ _ _ L t X b B) as (Hf & _); [left; by exists l|done|by exists p, al|]. congruence.
Qed.

(** ** Stacks *)

(** C1: Every call that waits is on its caller's stack, every call being
    served is on its server's stack, on its way there or being answered, no
    stack has a call twice, and a transaction is on one list at most, once. *)
Theorem every_call_accounted_for `{RB : Rbtree} sys : reachable sys -> let s := drv sys in exists stk : nat -> list nat,
  (forall A T, threads (graph s) !! A = Some T -> thread_is_dead T = false -> chain (transactions s) A (transaction_stack T) (stk A) /\ NoDup (stk A)) /\
  (forall t X A, transactions s !! t = Some X -> need_reply X = true -> t_from X = Some A -> alive A s /\ t ∈ stk A) /\
  (forall t X A, transactions s !! t = Some X -> need_reply X = true -> to_thread X = Some A ->
     t ∈ stk A \/ t ∈ txns (queue (thread_todo A) (graph s)) \/ exists f, doing_of (phases sys A) = Replying t f) /\
  (forall l t, t ∈ txns (queue l (graph s)) -> is_Some (transactions s !! t) /\ forall l', t ∈ txns (queue l' (graph s)) -> l' = l) /\
  (forall l, NoDup (txns (queue l (graph s)))).
Proof.
  intros R s. destruct (reachable_good sys R) as (stk & I & _). exists stk.
  assert (Hq : forall l, items (view (fun B => doing_of (phases sys B)) (fun B => making_of (phases sys B)) (fun B => draft_in B (phases sys B)) None s) l
    = txns (queue l (graph s))) by (intros l; apply items_view).
  split; [intros A T HT HD; by destruct (stack_of sys A T stk I HT HD) as (? & ? & _)|]. split; [|split; [|split]].
  - intros t X A HX Hn Hf. pose proof (i_called _ _ _ I t _ A (account_txn sys t X HX) Hn Hf) as Hi. split; [|done]. eapply (alive_top _ _ _ None).
    intros Ht. rewrite (i_dead _ _ _ I A Ht) in Hi. by apply not_elem_of_nil in Hi.
  - intros t X A HX Hn Ht. rewrite <- Hq. by apply (i_served _ _ _ I t _ A (account_txn sys t X HX) Hn Ht).
  - intros l t Ht. rewrite <- Hq in Ht. destruct (i_item _ _ _ I t l Ht) as (Y & HY & _). destruct (account_txn_inv sys t Y HY) as (X & HX & _).
    split; [by exists X|]. intros l' Hl'. rewrite <- Hq in Hl'. by apply (i_once _ _ _ I t).
  - intros l. rewrite <- Hq. apply (i_nodup _ _ _ I).
Qed.

(** C8: The loop of [binder_thread_release] comes to the bottom of the stack
    of any living thread, without the [BUG] of a transaction that is not the
    thread's; it visits each call once, counts them, and cuts exactly the
    ends this thread held. *)
Theorem thread_detach_ends `{RB : Rbtree} sys A T P : reachable sys -> threads (graph (drv sys)) !! A = Some T -> thread_is_dead T = false ->
  procs (graph (drv sys)) !! thread_proc T = Some P -> buffers_there (drv sys) ->
  exists l r s', thread_detach A (drv sys) = Some ((r, Z.of_nat (length l)), s') /\ chain (transactions (drv sys)) A (transaction_stack T) l /\ NoDup l /\
    (forall t, r = Some t <-> transaction_stack T = Some t /\ exists X, transactions (drv sys) !! t = Some X /\ to_thread X = Some A) /\
    (exists T', threads (graph s') !! A = Some T' /\ thread_is_dead T' = true) /\
    forall u, transactions s' !! u = if decide (u ∈ l) then left_by A <$> transactions (drv sys) !! u else transactions (drv sys) !! u.
Proof.
  intros R HT HD HP Hb. destruct (reachable_good sys R) as (stk & I & _ & L). destruct (stack_of sys A T stk I HT HD) as (HC & Hnd & Hlen).
  set (l := stk A) in *. unfold thread_detach. rewrite (bind_eq _ _ _ _ _ (d_thread_eq A T _ HT)). cbv zeta.
  unfold proc_inc_tmpref. rewrite (bind_eq _ _ _ _ _ (upd_proc_eq _ P _ _ HP)). set (s1 := put_proc _ _ _).
  assert (HP1 : exists P1, procs (graph s1) !! thread_proc T = Some P1) by (simpl; rewrite lookup_insert_eq; by eexists). destruct HP1 as [P1 HP1].
  rewrite (bind_eq _ _ _ _ _ (upd_proc_eq _ P1 _ _ HP1)). set (s2 := put_proc _ _ s1).
  assert (Hr : exists r, (match transaction_stack T with
    | Some t => let! X := txn_at t in ret (if decide (to_thread X = Some A) then Some t else None) | None => ret None end) s2 = Some (r, s2) /\
    forall t, r = Some t <-> transaction_stack T = Some t /\ exists X, transactions (drv sys) !! t = Some X /\ to_thread X = Some A).
  { inversion HC as [E|t X l' HX Ht HC' E E2|t X l' HX Ht Hf Hn HC' E E2].
    - exists None. split; [done|]. split; [done|]. by intros [? _].
    - exists (Some t). rewrite (bind_eq _ _ _ _ _ (txn_at_eq t X s2 HX)), decide_True by done. split; [done|]. intros u. split; [intros [= <-]; split; [done|by exists X]|by intros [? _]].
    - exists None. rewrite (bind_eq _ _ _ _ _ (txn_at_eq t X s2 HX)), decide_False by done. split; [done|]. intros u. split; [done|]. intros ([= <-] & Y & HY & HtY). congruence. }
  destruct Hr as (r & Er & Hr). rewrite (bind_eq _ _ _ _ _ Er).
  assert (HT2 : threads (graph s2) !! A = Some T) by done. rewrite (bind_eq _ _ _ _ _ (upd_thread_eq A T _ s2 HT2)). set (s3 := put_thread _ _ s2).
  rewrite (bind_eq get _ s3 s3 s3) by done.
  assert (L3 : links (fun B => making_of (phases sys B)) None None None s3) by by destruct L.
  destruct (detach_loop_runs _ l (S (size (transactions s3))) A (transaction_stack T) s3 0 HC Hnd L3 Hb) as [s4 E4]; [simpl; lia|].
  rewrite (bind_eq _ _ _ _ _ E4). destruct (detach_loop_spec _ _ _ _ l s3 _ _ _ HC Hnd L3 E4) as (_ & Eg & Ht).
  exists l, r, s4. rewrite Z.add_0_l. split; [done|]. split; [done|]. split; [done|]. split; [done|]. split; [|exact Ht].
  rewrite Eg. simpl. rewrite lookup_insert_eq. by eexists.
Qed.

(** ** Failure *)


(** ** Asynchronous calls *)


(** ** Instances *)

#[local] Existing Instance plain_rbtree.

Local Ltac by_running := vm_compute; reflexivity.
Local Abbreviation at_ evs := (drv (sys_of (reached evs))).

Lemma reply_finds_caller_witness : exists T F s', threads (graph (at_ ev_served)) !! 2%nat = Some F /\ transaction_stack F = Some 50%nat /\
  reply_target (call_env 51 4) 1 (at_ ev_served) = Some ((None, Target (Some 50%nat) (Some 2%nat) (Some (thread_proc F)) None), s') /\
  transaction_stack T = None /\ threads (graph s') !! 1%nat = Some T.
Proof.
  assert (H : servesb 1 50 (at_ ev_served) = true) by by_running. destruct (servesb_ok _ _ _ H) as (T & X & HT & HD & Hst & HX & Hto).
  assert (Hp : procs_thereb (at_ ev_served) = true) by by_running. assert (Hr : bool_decide (is_Some (exec_all ev_served start)) = true) by by_running.
  destruct (reply_finds_caller (call_env 51 4) (sys_of (reached ev_served)) 1 T 50 X (reached_reachable _ Hr) HT HD Hst HX Hto (procs_thereb_ok _ Hp))
    as (s' & HT' & _ & E).
  assert (HX' : bool_decide (match transactions (at_ ev_served) !! 50%nat with Some X => (t_from X, to_parent X) | None => (None, None) end = (Some 2%nat, None)) = true)
    by by_running. apply bool_decide_eq_true in HX'. rewrite HX in HX'. injection HX' as Hf Hp'. rewrite Hf in E. destruct E as (F & HF & HsF & E).
  exists (set_stack (to_parent X) T), F, s'. split; [exact HF|]. split; [exact HsF|]. split; [exact E|]. split; [exact Hp'|exact HT'].
Defined.

Lemma reply_pops_its_call_witness : exists X s', transactions (at_ ev_reply) !! 50%nat = Some X /\ t_from X = Some 2%nat /\
  binder_pop_transaction_ilocked 2 50 (at_ ev_reply) = Some (tt, s').
Proof.
  assert (Hr : bool_decide (is_Some (exec_all ev_reply start)) = true) by by_running.
  assert (Hph : phases (sys_of (reached ev_reply)) 1 = Built true server_call 51 61 (Target (Some 50%nat) (Some 2%nat) (Some 2%nat) None)) by by_running.
  assert (Ha : aliveb 2 (at_ ev_reply) = true) by by_running.
  destruct (reply_pops_its_call (sys_of (reached ev_reply)) 1 server_call 51 61 50 2 2 (reached_reachable _ Hr) Hph (aliveb_spec _ _ Ha))
    as (X & F & s' & HX & _ & Hf & _ & E & _).
  exists X, s'. split; [exact HX|]. split; [exact Hf|exact E].
Defined.

Lemma selected_thread_is_idle_witness : exists T, threads (graph (at_ ev_setup)) !! 1%nat = Some T /\ transaction_stack T = None.
Proof.
  assert (Hr : bool_decide (is_Some (exec_all ev_setup start)) = true) by by_running.
  assert (Hs : match binder_select_thread_ilocked 1 (graph (at_ ev_setup)) with Some (Some A, _) => A =? 1 | _ => false end%nat = true) by by_running.
  destruct (binder_select_thread_ilocked 1 (graph (at_ ev_setup))) as [[[A|] g]|] eqn:E; [|discriminate Hs..]. apply Nat.eqb_eq in Hs. subst A.
  destruct (selected_thread_is_idle (sys_of (reached ev_setup)) 1 1 g (reached_reachable _ Hr) E) as (T & HT & _ & _ & Hst & _).
  exists T. split; [exact HT|exact Hst].
Defined.


(** Transaction [t] is on list [l], its buffer in process [p]. *)
Definition queuedb (t : nat) (l : worklist) (p b : nat) (s : driver) : bool :=
  match transactions s !! t, allocs s !! p with
  | Some X, Some _ => bool_decide (t ∈ txns (queue l (graph s))) && bool_decide (t_buffer X = Some (p, b))
  | _, _ => false
  end.
Lemma queuedb_ok t l p b s : queuedb t l p b s = true -> exists X al, t ∈ txns (queue l (graph s)) /\ transactions s !! t = Some X /\
  t_buffer X = Some (p, b) /\ allocs s !! p = Some al.
Proof.
  unfold queuedb. destruct (transactions s !! t) as [X|]; [|done]. destruct (allocs s !! p) as [al|]; [|done].
  intros [Ht%bool_decide_eq_true Hb%bool_decide_eq_true]%andb_true_iff. by exists X, al.
Qed.

Lemma unread_buffer_kept_witness : exists al B, allocs (at_ ev_call) !! 1%nat = Some al /\ store al !! 1%nat = Some B /\ transaction B = Some 50%nat /\
  forall a r al', binder_alloc_prepare_to_free a al = Some (r, al') -> r <> Found 1%nat.
Proof.
  assert (Hr : bool_decide (is_Some (exec_all ev_call start)) = true) by by_running.
  assert (Hq : queuedb 50 (thread_todo 1) 1 1 (at_ ev_call) = true) by by_running. destruct (queuedb_ok _ _ _ _ _ Hq) as (X & al & Ht & HX & Hb & Hal).
  destruct (unread_buffer_kept (sys_of (reached ev_call)) 50 X (thread_todo 1) 1 1 al (reached_reachable _ Hr) Ht HX Hb Hal) as ((B & HB & _ & HT) & _ & Hf).
  exists al, B. split; [exact Hal|]. split; [exact HB|]. split; [exact HT|exact Hf].
Defined.

Lemma every_call_accounted_for_witness : exists l, chain (transactions (at_ ev_served)) 1 (Some 50%nat) l /\ NoDup l.
Proof.
  assert (Hr : bool_decide (is_Some (exec_all ev_served start)) = true) by by_running.
  assert (H : servesb 1 50 (at_ ev_served) = true) by by_running. destruct (servesb_ok _ _ _ H) as (T & X & HT & HD & Hst & _).
  destruct (every_call_accounted_for (sys_of (reached ev_served)) (reached_reachable _ Hr)) as (stk & Hs & _). destruct (Hs 1%nat T HT HD) as [HC Hnd].
  rewrite Hst in HC. exists (stk 1%nat). split; [exact HC|exact Hnd].
Defined.

Lemma thread_detach_ends_witness : exists n s', thread_detach 1 (at_ ev_served) = Some ((Some 50%nat, n), s').
Proof.
  assert (Hr : bool_decide (is_Some (exec_all ev_served start)) = true) by by_running.
  assert (H : servesb 1 50 (at_ ev_served) = true) by by_running. destruct (servesb_ok _ _ _ H) as (T & X & HT & HD & Hst & HX & Hto).
  assert (Hp : procs_thereb (at_ ev_served) = true) by by_running. destruct (procs_thereb_ok _ Hp 1%nat T HT) as [P HP].
  assert (Hb : attachedb (at_ ev_served) = true) by by_running.
  destruct (thread_detach_ends (sys_of (reached ev_served)) 1 T P (reached_reachable _ Hr) HT HD HP (proj2 (attachedb_ok _ Hb)))
    as (l & r & s' & E & _ & _ & Hi & _).
  assert (Hr' : r = Some 50%nat) by (apply Hi; split; [exact Hst|exists X; by split]). rewrite Hr' in E. exists (Z.of_nat (length l)), s'. exact E.
Defined.



