(* ===== verification/BinderTxnAlive.v ===== *)
(** * A live thread stays

    No command and no read frees a thread that has not exited, its own or
    another: only [binder_thread_release] marks a thread dead, and only a dead
    one is freed. *)

From Stdlib Require Import ZArith Lia.
From stdpp Require Import base option gmap sets list.
From S2P Require Import Prelude RbTree BinderAlloc BinderNode BinderTranslate BinderObjects BinderTxn BinderCalls.
From S2P Require Import BinderFrame BinderFrameAlloc BinderTxnView BinderTxnHush BinderTxnTarget.

Definition spares (g g' : binder) : Prop := forall A T, threads g !! A = Some T -> thread_is_dead T = false ->
  exists T', threads g' !! A = Some T' /\ thread_is_dead T' = false.
Definition lives (s s' : driver) : Prop := spares (graph s) (graph s').

#[export] Instance spares_preorder : PreOrder spares.
Proof.
  split; [intros g A T HT HD; by exists T|]. intros g1 g2 g3 H1 H2 A T HT HD. destruct (H1 A T HT HD) as (T2 & HT2 & HD2). by apply (H2 A T2).
Qed.
#[export] Instance lives_preorder : PreOrder lives.
Proof. split; [intros s; unfold lives; reflexivity|]. intros x y z. unfold lives. apply transitivity. Qed.

Lemma alive_lives s s' A : lives s s' -> alive A s -> alive A s'.
Proof. intros H (T & HT & HD). by apply (H A T). Qed.

Lemma lives_graph s s' : graph s' = graph s -> lives s s'.
Proof. unfold lives. intros ->. reflexivity. Qed.
Lemma lives_hush me s s' : hush me s s' -> lives s s'.
Proof. intros K A T HT HD. destruct (alive_hush me s s' A T K HT HD) as (T' & HT' & HD' & _). by exists T'. Qed.
Lemma lives_keeps me {X} (m : M driver X) : keeps (hush me) m -> keeps lives m.
Proof. intros H s x s' E. eapply lives_hush. by eapply H. Qed.
Lemma lives_in_alloc {X} p (m : M binder_alloc X) : keeps lives (in_alloc p m).
Proof. intros s x s' (al & al' & _ & _ & ->)%in_alloc_inv. by apply lives_graph. Qed.
Lemma lives_in_graph {X} (m : M binder X) : keeps spares m -> keeps lives (in_graph m).
Proof. intros H s x s' (g & Hg & ->)%in_graph_inv. by eapply H. Qed.
Lemma lives_modify f : (forall s, graph (f s) = graph s) -> keeps lives (modify f).
Proof. intros H. apply keeps_modify. intros s. by apply lives_graph. Qed.
Lemma lives_put_txn t X : keeps lives (put_txn t X).
Proof. by apply lives_modify. Qed.
Lemma lives_upd_txn t f : keeps lives (upd_txn t f).
Proof. intros s x s' H. unfold upd_txn in H. apply bind_Some in H as (X & s1 & [-> _]%txn_at_inv & H). by eapply lives_put_txn. Qed.
Lemma lives_upd_buf b f : keeps lives (upd_buf b f).
Proof. apply lives_in_alloc. Qed.

Lemma spares_threads {X} (m : M binder X) : (forall g x g', m g = Some (x, g') -> threads g' = threads g) -> keeps spares m.
Proof. intros H g x g' E A T HT HD. exists T. by rewrite (H _ _ _ E). Qed.
Lemma spares_put g A T T' : threads g !! A = Some T -> thread_is_dead T' = thread_is_dead T -> spares g (set_threads (<[A := T']> (threads g)) g).
Proof.
  intros HT E B TB HB HD. simpl. rewrite lookup_insert. case_decide as EB; [|by exists TB].
  exists T'. split; [done|]. congruence.
Qed.
Lemma spares_upd A f : (forall T, thread_is_dead (f T) = thread_is_dead T) -> keeps spares (let! T := thread_at A in put_thread_at A (f T)).
Proof. intros Hf g x g' E. apply bind_Some in E as (T & g1 & [-> HT]%thread_at_inv & E). unfold put_thread_at in E. mrun. by eapply spares_put. Qed.
Lemma lives_upd_thread A f : (forall T, thread_is_dead (f T) = thread_is_dead T) -> keeps lives (upd_thread A f).
Proof. intros Hf. by apply lives_in_graph, spares_upd. Qed.

(** Work on lists. *)
Lemma spares_quiet me {X} (m : M binder X) : keeps (quiet me) m -> keeps spares m.
Proof.
  intros H g x g' E A T HT HD. destruct (q_thread _ _ _ (H _ _ _ E) A T HT) as [(T' & HT' & S)|(_ & HD' & _)]; [|congruence].
  exists T'. split; [done|]. by rewrite (st_dead _ _ S).
Qed.
Lemma spares_modify f : (forall g, threads (f g) = threads g) -> keeps spares (modify f).
Proof. intros H. apply spares_threads. intros g x g' E. mrun. apply H. Qed.

Create HintDb lives.
Ltac sparing :=
  repeat first
    [ progress intros
    | match goal with |- keeps _ (match ?x with _ => _ end) => destruct x end
    | solve [auto 2 with lives nocore]
    | solve [apply (spares_quiet None); solve [auto 2 with keeps nocore]]
    | solve [apply spares_modify; done]
    | solve [apply spares_upd; done]
    | solve [apply keeps_reads; [apply _|reading]]
    | match goal with |- keeps _ (bind _ _) => apply keeps_bind; [apply _|..] end ].

Lemma spares_enqueue w l : keeps spares (binder_enqueue_work_ilocked w l).
Proof. unfold binder_enqueue_work_ilocked. sparing. Qed.
#[export] Hint Resolve spares_enqueue : lives.
Lemma spares_deferred A w : keeps spares (binder_enqueue_deferred_thread_work_ilocked A w).
Proof. unfold binder_enqueue_deferred_thread_work_ilocked. sparing. Qed.
#[export] Hint Resolve spares_deferred : lives.
Lemma spares_thread_work A w : keeps spares (binder_enqueue_thread_work_ilocked A w).
Proof. unfold binder_enqueue_thread_work_ilocked. sparing. Qed.
Lemma spares_dequeue w : keeps spares (binder_dequeue_work_ilocked w).
Proof. by apply spares_modify. Qed.
#[export] Hint Resolve spares_thread_work spares_dequeue : lives.
Lemma spares_head l : keeps spares (binder_dequeue_work_head_ilocked l).
Proof. unfold binder_dequeue_work_head_ilocked. sparing. Qed.
#[export] Hint Resolve spares_head : lives.
Lemma spares_clear A : keeps spares (clear_process_todo A).
Proof. unfold clear_process_todo. sparing. Qed.
#[export] Hint Resolve spares_clear : lives.

Section lives.
Context `{RB : Rbtree} (E : driver_env).

Lemma spares_death p d : keeps spares (read_work_death p d).
Proof. unfold read_work_death. sparing. Qed.
Lemma spares_node p n f : keeps spares (read_work_node p n f).
Proof. apply (spares_quiet None), keeps_read_work_node. Qed.
Hint Resolve spares_death spares_node : lives.
Lemma spares_read_work A w f : keeps spares (read_work A w f).
Proof. unfold read_work, read_list. sparing. Qed.
Lemma spares_wakeup p o b : keeps spares (binder_wakeup_thread_ilocked p o b).
Proof. apply (spares_quiet None), keeps_wakeup_thread. Qed.
Hint Resolve spares_wakeup : lives.
Lemma spares_transaction t b n p o : keeps spares (proc_transaction_locked t b n p o).
Proof. unfold proc_transaction_locked. sparing. Qed.
Hint Resolve spares_read_work spares_transaction : lives.

(** Calls that are [hush]. *)
Hint Resolve lives_in_alloc lives_put_txn lives_upd_txn lives_upd_buf : lives.
Hint Extern 1 (keeps lives (in_graph _)) => apply lives_in_graph; sparing : lives.
Hint Extern 1 (keeps lives (upd_thread _ _)) => apply lives_upd_thread; done : lives.
Hint Extern 1 (keeps lives (modify _)) => apply lives_modify; done : lives.
Lemma lives_thread_dec A : keeps lives (binder_thread_dec_tmpref E A).
Proof. apply (lives_keeps None), hush_thread_dec. Qed.
Lemma lives_proc_dec p : keeps lives (binder_proc_dec_tmpref E p).
Proof. apply (lives_keeps None), hush_proc_dec. Qed.
Lemma lives_get_from t : keeps lives (binder_get_txn_from t).
Proof. apply (lives_keeps None), hush_get_from. Qed.
Lemma lives_get_from_acq t : keeps lives (binder_get_txn_from_and_acq_inner E t).
Proof. apply (lives_keeps None), hush_get_from_acq. Qed.
Lemma lives_free_fixups t : keeps lives (free_txn_fixups t).
Proof. apply (lives_keeps None), hush_free_fixups. Qed.
Lemma lives_proc_inc p : keeps lives (proc_inc_tmpref p).
Proof. apply (lives_keeps None), hush_proc_inc. Qed.
Lemma lives_sender_secctx o : keeps lives (sender_secctx E o).
Proof. apply (lives_keeps None), hush_sender_secctx. Qed.
Lemma lives_release_objects p b : keeps lives (release_buffer_objects E p b).
Proof. apply (lives_keeps None), hush_release_objects. Qed.
Lemma lives_handle_target p h : keeps lives (handle_target p h).
Proof. apply (lives_keeps None), hush_handle_target. Qed.
Lemma lives_waiting_caller n p o : keeps lives (waiting_caller n p o).
Proof. apply (lives_keeps None), hush_waiting_caller. Qed.
Hint Resolve lives_thread_dec lives_proc_dec lives_get_from lives_get_from_acq lives_free_fixups lives_proc_inc lives_sender_secctx
  lives_release_objects lives_handle_target lives_waiting_caller : lives.
Lemma lives_ret {X} (x : X) : keeps lives (ret x).
Proof. intros s y s' [= _ <-]. reflexivity. Qed.
Hint Resolve lives_ret | 0 : lives.
Lemma lives_opt {X} (f : X -> M driver unit) o : (forall x, keeps lives (f x)) -> keeps lives (opt f o).
Proof. intros H. destruct o; [apply H|]. intros s u s' [= _ <-]. reflexivity. Qed.
Hint Extern 1 (keeps lives (opt _ _)) => apply lives_opt; sparing : lives.

(** Transactions freed. *)
Lemma lives_free_transaction t : keeps lives (binder_free_transaction t).
Proof. unfold binder_free_transaction. sparing. Qed.
Lemma lives_pop A t : keeps lives (binder_pop_transaction_ilocked A t).
Proof.
  intros s x s' H. unfold binder_pop_transaction_ilocked in H. apply bind_Some in H as (T & s1 & [-> HT]%d_thread_inv & H).
  apply bind_Some in H as (? & s1 & [-> _]%bug_on_inv & H). apply bind_Some in H as (X & s1 & [-> HX]%txn_at_inv & H).
  apply bind_Some in H as (? & s1 & [-> _]%bug_on_inv & H). apply bind_Some in H as (? & s1 & (g & Hg & ->)%in_graph_inv & H).
  unfold put_thread_at in Hg. mrun. unfold put_txn in H. mrun. by apply (spares_put (graph s) A T).
Qed.
Hint Resolve lives_free_transaction lives_pop : lives.
Lemma lives_post_reply A e : keeps lives (post_reply_error A e).
Proof. unfold post_reply_error. sparing. Qed.
Hint Resolve lives_post_reply : lives.
Lemma lives_failed_loop n t e : keeps lives (send_failed_reply_loop E n t e).
Proof. revert t. induction n as [|n IH]; intros t; simpl; sparing. Qed.
Hint Resolve lives_failed_loop : lives.
Lemma lives_send_failed t e : keeps lives (binder_send_failed_reply E t e).
Proof. unfold binder_send_failed_reply. sparing. Qed.
Hint Resolve lives_send_failed : lives.
Lemma lives_cleanup t e : keeps lives (binder_cleanup_transaction E t e).
Proof. unfold binder_cleanup_transaction. sparing. Qed.
Hint Resolve lives_cleanup : lives.
Lemma lives_post_return A e : keeps lives (post_return_error A e).
Proof. unfold post_return_error, binder_enqueue_thread_work. sparing. Qed.
Hint Resolve lives_post_return : lives.
Lemma lives_fail A e tg : keeps lives (fail_transaction E A e tg).
Proof. unfold fail_transaction. sparing. Qed.

(** Objects of a transaction. *)
Lemma lives_in_txn {X} me p t (m : M txn X) : keeps (txn_kept me) m -> keeps lives (in_txn p t m).
Proof. intros H. eapply lives_keeps. by apply hush_in_txn. Qed.
Lemma lives_undo_txn t b : keeps lives (undo_txn t b).
Proof. unfold undo_txn. sparing. Qed.
Hint Resolve lives_undo_txn : lives.
Lemma lives_undo_buffer A t tp b tg o : keeps lives (undo_buffer E A t tp b tg o).
Proof. unfold undo_buffer. sparing. eapply lives_in_txn, (kept_buffer_release None). Qed.
Lemma lives_store_secctx t tp b tr x o : keeps lives (store_secctx t tp b tr x o).
Proof. unfold store_secctx. cbv zeta. sparing. Qed.
Hint Resolve lives_undo_buffer lives_store_secctx : lives.
Lemma lives_fill A t c tp b id tr x o tg : keeps lives (fill_transaction E A t c tp b id tr x o tg).
Proof. unfold fill_transaction. sparing. eapply (lives_in_txn (Some A)). by apply kept_translate_objects. Qed.
Hint Resolve lives_fill : lives.
Lemma lives_build A reply id tr x tg : keeps lives (build_transaction E A reply id tr x tg).
Proof. unfold build_transaction. cbv zeta. sparing. Qed.
Hint Resolve lives_fail lives_build : lives.

(** The target. *)
Lemma lives_put {X} A f (k : binder_thread -> M driver X) : (forall T, thread_is_dead (f T) = thread_is_dead T) -> (forall T, keeps lives (k T)) ->
  keeps lives (let! T := in_graph (thread_at A) in in_graph (put_thread_at A (f T)) ;! k T).
Proof.
  intros Hf Hk s x s' H. apply bind_Some in H as (T & s1 & [-> HT]%d_thread_inv & H).
  apply bind_Some in H as (? & s1 & (g & Hg & ->)%in_graph_inv & H). unfold put_thread_at in Hg. mrun. etrans; [|by eapply Hk].
  by apply (spares_put (graph s) A T).
Qed.
Lemma lives_reply_target A : keeps lives (reply_target E A).
Proof.
  intros s x s' H. unfold reply_target in H. apply bind_Some in H as (T & s1 & [-> HT]%d_thread_inv & H).
  destruct (transaction_stack T) as [r|]; [|mrun; reflexivity]. apply bind_Some in H as (X & s1 & [-> _]%txn_at_inv & H).
  destruct (negb _); [mrun; reflexivity|]. apply bind_Some in H as (? & s1 & (g & Hg & ->)%in_graph_inv & H). injection Hg as _ <-.
  match type of H with ?m ?s0 = _ => assert (K : keeps lives m) by sparing; pose proof (K _ _ _ H) as K' end.
  etrans; [|exact K']. by apply (spares_put (graph s) A T (set_stack (to_parent X) T)).
Qed.
Lemma lives_call_target A tr : keeps lives (call_target E A tr).
Proof. unfold call_target. cbv zeta. sparing. Qed.
Hint Resolve lives_reply_target lives_call_target : lives.
Lemma lives_select A reply tr : keeps lives (select_target E A reply tr).
Proof. unfold select_target. sparing. Qed.

(** The queue. *)
Lemma lives_proc_transaction t p o : keeps lives (binder_proc_transaction t p o).
Proof. unfold binder_proc_transaction. sparing. Qed.
Lemma lives_is_async t : keeps lives (is_async t).
Proof. apply (lives_keeps None), hush_is_async. Qed.
Hint Resolve lives_proc_transaction lives_is_async : lives.
Lemma lives_commit A tr t c tg : keeps lives (commit A tr t c tg).
Proof. unfold commit, commit_reply, commit_call, commit_oneway, binder_enqueue_thread_work. sparing. Qed.
Hint Resolve lives_select lives_commit : lives.
Lemma lives_commit_transaction A tr t c tg : keeps lives (commit_transaction E A tr t c tg).
Proof. unfold commit_transaction, finish_transaction, fail_dead. sparing. Qed.

Hint Resolve lives_commit_transaction : lives.
Lemma lives_binder_transact A reply tr x : keeps lives (binder_transact E A reply tr x).
Proof.
  unfold binder_transact. apply keeps_bind; [apply _|apply lives_in_graph, (spares_quiet None), keeps_next_id|intros id]. sparing.
Qed.

(** Buffers and reading. *)
Lemma lives_next_async p n : keeps lives (in_graph (next_async p n)).
Proof. apply lives_in_graph. unfold next_async, binder_wakeup_proc_ilocked. sparing. Qed.
Hint Resolve lives_next_async : lives.
Lemma lives_free_buf p b : keeps lives (binder_free_buf E p b).
Proof. unfold binder_free_buf. sparing. Qed.
Hint Resolve lives_free_buf : lives.
Lemma lives_bc_free p a : keeps lives (bc_free_buffer E p a).
Proof. unfold bc_free_buffer. sparing. Qed.
Lemma lives_hand_over A t b : keeps lives (hand_over A t b).
Proof.
  intros s x s' H. unfold hand_over in H. apply bind_Some in H as (X & s1 & [-> _]%txn_at_inv & H).
  destruct (_ && _); [|by eapply lives_free_transaction]. apply bind_Some in H as (T & s1 & [-> HT]%d_thread_inv & H).
  unfold put_txn in H. mrun. apply in_graph_inv in H as (g & Hg & ->). unfold put_thread_at in Hg. mrun. by apply (spares_put (graph s) A T).
Qed.
Hint Resolve lives_hand_over : lives.
Lemma lives_sender_pid o : keeps lives (sender_pid o).
Proof. apply (lives_keeps None), hush_sender_pid. Qed.
Lemma lives_apply_fixups e p t b : keeps lives (in_txn p t (binder_apply_fd_fixups e b)).
Proof. eapply (lives_in_txn None), kept_apply_fixups. Qed.
Hint Resolve lives_sender_pid lives_apply_fixups : lives.
Lemma lives_deliver A t f z : keeps lives (deliver_transaction E A t f z).
Proof. unfold deliver_transaction. cbv zeta. sparing. Qed.
Hint Resolve lives_deliver : lives.
Lemma lives_read_error cmd f x put_user ptr : (forall T, thread_is_dead (f T) = thread_is_dead T) -> keeps lives (read_error cmd f x put_user ptr).
Proof. intros Hf. unfold read_error. sparing. Qed.
Hint Extern 1 (keeps lives (read_error _ _ _ _ _)) => apply lives_read_error; done : lives.
Lemma lives_item A w f ptr : keeps lives (read_item E A w f ptr).
Proof. unfold read_item. sparing. Qed.
Hint Resolve lives_item : lives.
Lemma lives_read_list A w : keeps lives (in_graph (read_list A w)).
Proof. apply lives_in_graph. unfold read_list. sparing. Qed.
Lemma lives_read_work A w f : keeps lives (in_graph (read_work A w f)).
Proof. apply lives_in_graph, spares_read_work. Qed.
Lemma lives_thread_at A : keeps lives (in_graph (thread_at A)).
Proof. apply keeps_reads; [apply _|reading]. Qed.
Hint Resolve lives_read_list lives_read_work lives_thread_at | 0 : lives.
Lemma lives_round A w f g size ptr : keeps lives (read_round E A w f g size ptr).
Proof.
  unfold read_round. apply keeps_bind; [apply _|apply lives_read_list|intros [l|]; [|sparing]].
  destruct (_ <? _); [apply lives_ret|]. apply keeps_bind; [apply _|apply lives_read_work|]. intros [|[]|[]|]; sparing.
Qed.
End lives.
