(* ===== verification/BinderWrite.v ===== *)
(** * The write loop

    [binder_thread_write] of [src/binder/binder.c]: commands are read from
    the user's buffer one after another and carried out.  What each command
    does is in [BinderNode] and [BinderTxn]; here is how they are read, in
    which order they run and what the caller learns of it. *)

From Stdlib Require Import ZArith Lia.
From stdpp Require Import base option gmap sets list.
From S2P Require Import Prelude RbTree BinderAlloc BinderNode BinderTranslate BinderObjects BinderTxn.

(** ** User memory *)

(** [um_readable a n]: whether [n] bytes at [a] can be copied in. *)
Record user_mem := UserMem { um_byte : Z -> Z; um_readable : Z -> nat -> bool }.

Definition user_bytes (m : user_mem) (a : Z) (n : nat) : list Z := (fun i => um_byte m (a + Z.of_nat i)) <$> seq 0 n.
Definition copy_from_user (m : user_mem) (n : nat) (a : Z) : option (list Z) :=
  if um_readable m a n then Some (user_bytes m a n) else None.
Definition get_user (m : user_mem) (n : nat) (a : Z) : option Z := le_read n <$> copy_from_user m n a.

(** ** Commands *)

Definition IOC_BC (dir nr size : Z) : Z := Z.lor (Z.shiftl dir 30) (Z.lor (Z.shiftl size 16) (Z.lor (Z.shiftl 99 8) nr)).
Definition BC_TRANSACTION : Z := IOC_BC 1 0 64.
Definition BC_REPLY : Z := IOC_BC 1 1 64.
Definition BC_ACQUIRE_RESULT : Z := IOC_BC 1 2 4.
Definition BC_FREE_BUFFER : Z := IOC_BC 1 3 8.
Definition BC_INCREFS : Z := IOC_BC 1 4 4.
Definition BC_ACQUIRE : Z := IOC_BC 1 5 4.
Definition BC_RELEASE : Z := IOC_BC 1 6 4.
Definition BC_DECREFS : Z := IOC_BC 1 7 4.
Definition BC_INCREFS_DONE : Z := IOC_BC 1 8 16.
Definition BC_ACQUIRE_DONE : Z := IOC_BC 1 9 16.
Definition BC_ATTEMPT_ACQUIRE : Z := IOC_BC 1 10 8.
Definition BC_REGISTER_LOOPER : Z := IOC_BC 0 11 0.
Definition BC_ENTER_LOOPER : Z := IOC_BC 0 12 0.
Definition BC_EXIT_LOOPER : Z := IOC_BC 0 13 0.
Definition BC_REQUEST_DEATH_NOTIFICATION : Z := IOC_BC 1 14 12.
Definition BC_CLEAR_DEATH_NOTIFICATION : Z := IOC_BC 1 15 12.
Definition BC_DEAD_BINDER_DONE : Z := IOC_BC 1 16 8.
Definition BC_TRANSACTION_SG : Z := IOC_BC 1 17 72.
Definition BC_REPLY_SG : Z := IOC_BC 1 18 72.

(** The cases of the [switch]. *)
Inductive kind :=
  | KRefs (increment strong_ : bool)
  | KDone (strong_ : bool)
  | KFree
  | KTransact (reply sg : bool)
  | KRegister
  | KEnter
  | KExit
  | KRequestDeath
  | KClearDeath
  | KDeadDone
  | KRefused.

Definition kind_of (cmd : Z) : kind :=
  if cmd =? BC_INCREFS then KRefs true false
  else if cmd =? BC_ACQUIRE then KRefs true true
  else if cmd =? BC_RELEASE then KRefs false true
  else if cmd =? BC_DECREFS then KRefs false false
  else if cmd =? BC_INCREFS_DONE then KDone false
  else if cmd =? BC_ACQUIRE_DONE then KDone true
  else if (cmd =? BC_ATTEMPT_ACQUIRE) || (cmd =? BC_ACQUIRE_RESULT) then KRefused
  else if cmd =? BC_FREE_BUFFER then KFree
  else if cmd =? BC_TRANSACTION_SG then KTransact false true
  else if cmd =? BC_REPLY_SG then KTransact true true
  else if cmd =? BC_TRANSACTION then KTransact false false
  else if cmd =? BC_REPLY then KTransact true false
  else if cmd =? BC_REGISTER_LOOPER then KRegister
  else if cmd =? BC_ENTER_LOOPER then KEnter
  else if cmd =? BC_EXIT_LOOPER then KExit
  else if cmd =? BC_REQUEST_DEATH_NOTIFICATION then KRequestDeath
  else if cmd =? BC_CLEAR_DEATH_NOTIFICATION then KClearDeath
  else if cmd =? BC_DEAD_BINDER_DONE then KDeadDone
  else KRefused.

(** A command with its arguments; [extra] is [buffers_size] of the forms with
    scattered buffers. *)
Inductive bc :=
  | BcRef (increment strong_ : bool) (target : Z)
  | BcRefDone (strong_ : bool) (ptr cookie : Z)
  | BcFreeBuffer (data_ptr : Z)
  | BcTransact (reply : bool) (tr : binder_transaction_data) (extra : option Z)
  | BcRegisterLooper
  | BcEnterLooper
  | BcExitLooper
  | BcRequestDeathNotification (target cookie : Z)
  | BcClearDeathNotification (target cookie : Z)
  | BcDeadBinderDone_ (cookie : Z).

Definition get_transaction (l : list Z) : binder_transaction_data :=
  TxnData (field 4 0 l) (field 4 16 l) (field 4 20 l) (field 8 48 l) (field 8 56 l) (field 8 32 l) (field 8 40 l).

(** ** Reading one *)

Inductive fetched := Fault | Refused | Fetched (c : bc) (ptr : Z).

(** [get_user], then [ptr] moves on. *)
Definition arg (m : user_mem) (n : nat) (ptr : Z) (k : Z -> Z -> fetched) : fetched :=
  match get_user m n ptr with Some x => k x (u64 (ptr + Z.of_nat n)) | None => Fault end.

Definition fetch_args (m : user_mem) (k : kind) (ptr : Z) : fetched :=
  match k with
  | KRefs increment strong_ => arg m 4 ptr (fun target ptr => Fetched (BcRef increment strong_ target) ptr)
  | KDone strong_ => arg m 8 ptr (fun node_ptr ptr => arg m 8 ptr (fun cookie ptr => Fetched (BcRefDone strong_ node_ptr cookie) ptr))
  | KFree => arg m 8 ptr (fun data_ptr ptr => Fetched (BcFreeBuffer data_ptr) ptr)
  | KTransact reply sg =>
    match copy_from_user m (if sg then 72 else 64) ptr with
    | Some l => Fetched (BcTransact reply (get_transaction l) (if sg then Some (field 8 64 l) else None)) (u64 (ptr + (if sg then 72 else 64)))
    | None => Fault
    end
  | KRegister => Fetched BcRegisterLooper ptr
  | KEnter => Fetched BcEnterLooper ptr
  | KExit => Fetched BcExitLooper ptr
  | KRequestDeath => arg m 4 ptr (fun target ptr => arg m 8 ptr (fun cookie ptr => Fetched (BcRequestDeathNotification target cookie) ptr))
  | KClearDeath => arg m 4 ptr (fun target ptr => arg m 8 ptr (fun cookie ptr => Fetched (BcClearDeathNotification target cookie) ptr))
  | KDeadDone => arg m 8 ptr (fun cookie ptr => Fetched (BcDeadBinderDone_ cookie) ptr)
  | KRefused => Refused
  end.
Definition fetch (m : user_mem) (ptr : Z) : fetched := arg m 4 ptr (fun cmd ptr => fetch_args m (kind_of cmd) ptr).

(** ** Carrying one out *)

(** What is outside the driver during one round: the user's memory and, for
    the state the driver is in, the allocations of a reference and of a death
    notification and what a transaction asks for. *)
Record write_env := WriteEnv {
  we_mem : user_mem;
  we_ref : driver -> option nat;
  we_death : driver -> option nat;
  we_driver : driver -> driver_env
}.

Section write.
Context `{RB : Rbtree}.

(** The error, if the command ends the call. *)
Definition exec_bc (W : write_env) (A : nat) (c : bc) : M driver (option Z) :=
  let! T := in_graph (thread_at A) in
  let! s := get in
  let p := thread_proc T in
  match c with
  | BcRef increment strong_ target => in_graph (bc_refs p increment strong_ target (we_ref W s))
  | BcRefDone strong_ ptr cookie => in_graph (bc_refs_done p strong_ ptr cookie) ;! ret None
  | BcFreeBuffer data_ptr => bc_free_buffer (we_driver W s) p data_ptr ;! ret None
  | BcTransact reply tr extra => binder_transact (we_driver W s) A reply tr (default 0 extra) ;! ret None
  | BcRegisterLooper => bc_register_looper A ;! ret None
  | BcEnterLooper => bc_enter_looper A ;! ret None
  | BcExitLooper => bc_exit_looper A ;! ret None
  | BcRequestDeathNotification target cookie =>
    match we_death W s with
    | None => death_no_memory A
    | Some death => in_graph (bc_request_death p target cookie death)
    end ;! ret None
  | BcClearDeathNotification target cookie => in_graph (bc_clear_death p A target cookie) ;! ret None
  | BcDeadBinderDone_ cookie => in_graph (bc_dead_binder_done p A cookie) ;! ret None
  end.

(** ** The loop *)

(** Round [i] sees [envs i]; the result is the return value and
    [*consumed]. *)
Fixpoint write_loop (fuel : nat) (A : nat) (envs : nat -> write_env) (i : nat) (buffer ptr end_ consumed : Z) : M driver (Z * Z) :=
  match fuel with
  | O => oops
  | S fuel =>
    if ptr <? end_ then
      let! T := in_graph (thread_at A) in
      if return_error T =? BR_OK then
        match fetch (we_mem (envs i)) ptr with
        | Fault => ret (- EFAULT, consumed)
        | Refused => ret (- EINVAL, consumed)
        | Fetched c ptr =>
          let! err := exec_bc (envs i) A c in
          match err with
          | Some err => ret (err, consumed)
          | None => write_loop fuel A envs (S i) buffer ptr end_ (u64 (ptr - buffer))
          end
        end
      else ret (0, consumed)
    else ret (0, consumed)
  end.

(** Every command moves [ptr] on by four bytes at least. *)
Definition binder_thread_write (A : nat) (envs : nat -> write_env) (buffer size consumed : Z) : M driver (Z * Z) :=
  let ptr := u64 (buffer + consumed) in
  let end_ := u64 (buffer + size) in
  write_loop (S (Z.to_nat (end_ - ptr))) A envs 0 buffer ptr end_ consumed.

(** ** What it should do *)

(** The layout of a command; [junk] is what the driver does not look at. *)
Definition transaction_bytes (junk : Z) (tr : binder_transaction_data) : list Z :=
  le_write 4 (tr_handle tr) ++ le_write 4 junk ++ le_write 8 junk ++ le_write 4 (tr_code tr) ++ le_write 4 (tr_flags tr) ++
  le_write 8 junk ++ le_write 8 (tr_data_size tr) ++ le_write 8 (tr_offsets_size tr) ++ le_write 8 (tr_data tr) ++
  le_write 8 (tr_offsets tr).
Definition code_of (c : bc) : Z :=
  match c with
  | BcRef true false _ => BC_INCREFS
  | BcRef true true _ => BC_ACQUIRE
  | BcRef false true _ => BC_RELEASE
  | BcRef false false _ => BC_DECREFS
  | BcRefDone false _ _ => BC_INCREFS_DONE
  | BcRefDone true _ _ => BC_ACQUIRE_DONE
  | BcFreeBuffer _ => BC_FREE_BUFFER
  | BcTransact false _ None => BC_TRANSACTION
  | BcTransact true _ None => BC_REPLY
  | BcTransact false _ (Some _) => BC_TRANSACTION_SG
  | BcTransact true _ (Some _) => BC_REPLY_SG
  | BcRegisterLooper => BC_REGISTER_LOOPER
  | BcEnterLooper => BC_ENTER_LOOPER
  | BcExitLooper => BC_EXIT_LOOPER
  | BcRequestDeathNotification _ _ => BC_REQUEST_DEATH_NOTIFICATION
  | BcClearDeathNotification _ _ => BC_CLEAR_DEATH_NOTIFICATION
  | BcDeadBinderDone_ _ => BC_DEAD_BINDER_DONE
  end.
Definition args_of (junk : Z) (c : bc) : list Z :=
  match c with
  | BcRef _ _ target => le_write 4 target
  | BcRefDone _ ptr cookie => le_write 8 ptr ++ le_write 8 cookie
  | BcFreeBuffer data_ptr => le_write 8 data_ptr
  | BcTransact _ tr extra => transaction_bytes junk tr ++ match extra with Some x => le_write 8 x | None => [] end
  | BcRegisterLooper | BcEnterLooper | BcExitLooper => []
  | BcRequestDeathNotification target cookie | BcClearDeathNotification target cookie => le_write 4 target ++ le_write 8 cookie
  | BcDeadBinderDone_ cookie => le_write 8 cookie
  end.
Definition bc_bytes (junk : Z) (c : bc) : list Z := le_write 4 (code_of c) ++ args_of junk c.
Definition bc_size (c : bc) : Z := Z.of_nat (length (bc_bytes 0 c)).

(** The commands of a list in turn, until one ends the call or leaves an
    error for the thread to read; [last] is the error that ends the call after
    them. *)
Fixpoint run_bcs (A : nat) (envs : nat -> write_env) (i : nat) (l : list bc) (last consumed : Z) : M driver (Z * Z) :=
  match l with
  | [] =>
    if last =? 0 then ret (0, consumed)
    else let! T := in_graph (thread_at A) in ret (if return_error T =? BR_OK then last else 0, consumed)
  | c :: l =>
    let! T := in_graph (thread_at A) in
    if return_error T =? BR_OK then
      let! err := exec_bc (envs i) A c in
      match err with
      | Some err => ret (err, consumed)
      | None => run_bcs A envs (S i) l last (consumed + bc_size c)
      end
    else ret (0, consumed)
  end.
End write.

(** The fields fit what they are stored in. *)
Definition bc_fits (c : bc) : Prop :=
  match c with
  | BcRef _ _ target => is_u32 target
  | BcRefDone _ ptr cookie => is_u64 ptr /\ is_u64 cookie
  | BcFreeBuffer x | BcDeadBinderDone_ x => is_u64 x
  | BcTransact _ tr extra =>
    is_u32 (tr_handle tr) /\ is_u32 (tr_code tr) /\ is_u32 (tr_flags tr) /\ is_u64 (tr_data_size tr) /\ is_u64 (tr_offsets_size tr) /\
    is_u64 (tr_data tr) /\ is_u64 (tr_offsets tr) /\ (forall x, extra = Some x -> is_u64 x)
  | BcRegisterLooper | BcEnterLooper | BcExitLooper => True
  | BcRequestDeathNotification target cookie | BcClearDeathNotification target cookie => is_u32 target /\ is_u64 cookie
  end.

(** [l] is in memory at [a], below the end of the address space. *)
Definition holds (m : user_mem) (a : Z) (l : list Z) : Prop :=
  0 <= a /\ a + Z.of_nat (length l) < two64 /\
  (forall i n, (i + n <= length l)%nat -> copy_from_user m n (a + Z.of_nat i) = Some (take n (drop i l))).

(** After the commands: the end of the buffer, what cannot be read, or a code
    that is refused. *)
Inductive ends_with (m : user_mem) (ptr end_ : Z) : Z -> Prop :=
  | ends_all : end_ <= ptr -> ends_with m ptr end_ 0
  | ends_fault : ptr < end_ -> fetch m ptr = Fault -> ends_with m ptr end_ (- EFAULT)
  | ends_refused : ptr < end_ -> fetch m ptr = Refused -> ends_with m ptr end_ (- EINVAL).
