(* ===== verification/BinderWriteFacts.v ===== *)
(** * Reading commands

    What [fetch] makes of the bytes of a command, and why the loop of
    [binder_thread_write] ends. *)

From Stdlib Require Import ZArith Lia.
From stdpp Require Import base option gmap sets list.
From S2P Require Import Prelude RbTree BinderAlloc BinderNode BinderTranslate BinderObjects BinderObjectsMem BinderTxn BinderWrite.

(** ** Arguments *)

Lemma written_back n x r l : l = le_write n x ++ r -> 0 <= x < 256 ^ Z.of_nat n -> le_read n l = x.
Proof. intros -> Hx. rewrite le_read_write. by apply Z.mod_small. Qed.
Lemma length_written n x r i (l : list Z) : drop i l = le_write n x ++ r -> (i <= length l)%nat -> (i + n <= length l)%nat.
Proof. intros Hd Hi. apply (f_equal length) in Hd. rewrite length_drop, length_app, le_write_length in Hd. lia. Qed.

Lemma fits_8 x : is_u64 x -> 0 <= x < 256 ^ Z.of_nat 8.
Proof. done. Qed.
Lemma fits_4 x : is_u32 x -> 0 <= x < 256 ^ Z.of_nat 4.
Proof. done. Qed.
Hint Resolve fits_8 fits_4 : core.

Lemma get_transaction_bytes junk tr r : bc_fits (BcTransact false tr None) -> get_transaction (transaction_bytes junk tr ++ r) = tr.
Proof.
  destruct tr as [h c f d o ds os]. simpl. intros (? & ? & ? & ? & ? & ? & ? & _). unfold get_transaction, field.
  f_equal; (eapply written_back; [reflexivity|auto]).
Qed.
Lemma transaction_bytes_length junk tr : length (transaction_bytes junk tr) = 64%nat.
Proof. reflexivity. Qed.

Section held.
Context (m : user_mem) (a : Z) (l : list Z) (Hm : holds m a l).

Lemma read_held i n x r : drop i l = le_write n x ++ r -> 0 <= x < 256 ^ Z.of_nat n -> (i <= length l)%nat ->
  get_user m n (a + Z.of_nat i) = Some x.
Proof.
  intros Hd Hx Hi. destruct Hm as (_ & _ & Hc). pose proof (length_written _ _ _ _ _ Hd Hi) as Hl. unfold get_user.
  rewrite Hc, Hd by done. simpl. f_equal. rewrite le_read_take by done. by eapply written_back.
Qed.

Lemma arg_held i n x r k : drop i l = le_write n x ++ r -> 0 <= x < 256 ^ Z.of_nat n -> (i <= length l)%nat ->
  arg m n (a + Z.of_nat i) k = k x (a + Z.of_nat (i + n)) /\ drop (i + n) l = r /\ (i + n <= length l)%nat.
Proof.
  intros Hd Hx Hi. pose proof (length_written _ _ _ _ _ Hd Hi) as Hl.
  split_and!; [|by rewrite <- drop_drop, Hd, drop_app_length' by (by rewrite le_write_length)|done].
  unfold arg. erewrite read_held by done. destruct Hm as (? & ? & _). f_equal. rewrite u64_small; [lia|]. unfold is_u64. lia.
Qed.

(** Fetched, with [n] bytes of arguments, and what comes after. *)
Definition got (j n : nat) (r : list Z) (f : fetched) (c : bc) : Prop :=
  f = Fetched c (a + Z.of_nat (j + n)) /\ drop (j + n) l = r /\ (j + n <= length l)%nat.

Lemma got_one j n x r f : drop j l = le_write n x ++ r -> (j <= length l)%nat -> 0 <= x < 256 ^ Z.of_nat n ->
  got j n r (arg m n (a + Z.of_nat j) (fun x ptr => Fetched (f x) ptr)) (f x).
Proof. intros Hd Hj Hx. exact (arg_held j n x r (fun x ptr => Fetched (f x) ptr) Hd Hx Hj). Qed.
Lemma got_two j n x n' y r f : drop j l = (le_write n x ++ le_write n' y) ++ r -> (j <= length l)%nat ->
  0 <= x < 256 ^ Z.of_nat n -> 0 <= y < 256 ^ Z.of_nat n' ->
  got j (n + n') r (arg m n (a + Z.of_nat j) (fun x ptr => arg m n' ptr (fun y ptr => Fetched (f x y) ptr))) (f x y).
Proof.
  rewrite <- app_assoc. intros Hd Hj Hx Hy. unfold got. destruct (arg_held j n x _ (fun x ptr => arg m n' ptr (fun y ptr => Fetched (f x y) ptr)) Hd Hx Hj) as (-> & Hd' & Hj').
  rewrite Nat.add_assoc. exact (arg_held (j + n) n' y r (fun y ptr => Fetched (f x y) ptr) Hd' Hy Hj').
Qed.
Lemma got_transaction j sg reply tr x r junk : drop j l = args_of junk (BcTransact reply tr x) ++ r -> (j <= length l)%nat ->
  bc_fits (BcTransact reply tr x) -> sg = bool_decide (is_Some x) ->
  got j (if sg then 72 else 64) r (fetch_args m (KTransact reply sg) (a + Z.of_nat j)) (BcTransact reply tr x).
Proof.
  cbn [args_of]. rewrite <- app_assoc. intros Hd Hj Hf ->. set (n := (if bool_decide _ then 72 else 64)%nat).
  assert (Hn : length (transaction_bytes junk tr ++ match x with Some x => le_write 8 x | None => [] end) = n) by by destruct x.
  assert (Hl : (j + n <= length l)%nat) by (apply (f_equal length) in Hd; rewrite length_drop, app_assoc, length_app, Hn in Hd; lia).
  assert (Hr : drop (j + n) l = r) by (by rewrite <- drop_drop, Hd, app_assoc, drop_app_length').
  split; [|done]. destruct Hm as (? & ? & Hc). cbn [fetch_args]. fold n. rewrite Hc, Hd by done.
  assert (Ht : take n (transaction_bytes junk tr ++ match x with Some x => le_write 8 x | None => [] end ++ r) =
    transaction_bytes junk tr ++ match x with Some x => le_write 8 x | None => [] end) by (by rewrite app_assoc, take_app_length').
  rewrite Ht, get_transaction_bytes by (destruct Hf as (? & ? & ? & ? & ? & ? & ? & _); by split_and!). f_equal.
  - f_equal. destruct x as [x|]; [|done]. simpl. f_equal. unfold field. eapply written_back; [by rewrite app_nil_r|]. apply fits_8. by apply Hf.
  - rewrite u64_small; [|unfold is_u64]; subst n; destruct x; simpl in *; lia.
Qed.

Lemma code_fits c : 0 <= code_of c < 256 ^ Z.of_nat 4.
Proof. destruct c as [[] []|[]| |[] ? []| | | | | |]; by vm_compute. Qed.

Lemma fetch_held i c r junk : drop i l = bc_bytes junk c ++ r -> bc_fits c -> (i <= length l)%nat ->
  fetch m (a + Z.of_nat i) = Fetched c (a + Z.of_nat (i + length (bc_bytes junk c))) /\
  drop (i + length (bc_bytes junk c)) l = r /\ (i + length (bc_bytes junk c) <= length l)%nat.
Proof.
  unfold bc_bytes. rewrite <- app_assoc. intros Hd Hf Hi. unfold fetch.
  destruct (arg_held i 4 _ _ (fun cmd ptr => fetch_args m (kind_of cmd) ptr) Hd (code_fits c) Hi) as (-> & Hd1 & Hi1).
  rewrite length_app, le_write_length, Nat.add_assoc. clear Hd Hi. set (j := (i + 4)%nat) in *. clearbody j.
  destruct c as [[] []|[]| |[] tr [x|]| | | | | |];
    match goal with |- fetch_args _ (kind_of ?cmd) _ = _ /\ _ => let k := eval vm_compute in (kind_of cmd) in change (kind_of cmd) with k end;
    first [by apply (got_transaction j true _ _ _ r junk) | by apply (got_transaction j false _ _ _ r junk) | simpl in Hf; lazymatch type of Hf with _ /\ _ => destruct Hf as [Hf Hf'] | _ => idtac end;
           first [by apply (got_one j 4 _ r) | by apply (got_one j 8 _ r) | by apply (got_two j 8 _ 8 _ r) | by apply (got_two j 4 _ 8 _ r)
                 |by split; [simpl; rewrite Nat.add_0_r|rewrite Nat.add_0_r]]].
Qed.
End held.

(** ** The loop *)

(** A command takes at least the four bytes of its code. *)
Lemma arg_inv m n ptr k c ptr' : arg m n ptr k = Fetched c ptr' -> exists x, k x (u64 (ptr + Z.of_nat n)) = Fetched c ptr' /\ um_readable m ptr n = true.
Proof.
  unfold arg, get_user, copy_from_user. destruct (um_readable m ptr n) eqn:E; [|done]. simpl. intros H. by eexists.
Qed.

(** Memory ends at [two64], and what can be read is in it. *)
Definition bounded (m : user_mem) : Prop := forall a n, um_readable m a n = true -> 0 <= a /\ a + Z.of_nat n < two64.

Lemma arg_bounded m n ptr k c ptr' : bounded m -> arg m n ptr k = Fetched c ptr' -> exists x, k x (ptr + Z.of_nat n) = Fetched c ptr'.
Proof.
  intros Hb (x & Hx & Hr)%arg_inv. apply Hb in Hr. rewrite u64_small in Hx by (unfold is_u64; lia). by exists x.
Qed.

Lemma fetch_moves m ptr c ptr' : bounded m -> fetch m ptr = Fetched c ptr' -> ptr + 4 <= ptr'.
Proof.
  intros Hb (cmd & H)%arg_bounded; [|done]. destruct (kind_of cmd) as [| | |reply sg| | | | | | |]; cbn [fetch_args] in H; try done;
    repeat match goal with H : arg _ _ _ _ = Fetched _ _ |- _ => apply arg_bounded in H as (? & H); [|done] end; try (injection H as _ <-; lia).
  destruct (copy_from_user _ _ _) as [l|] eqn:El; [|done]. injection H as _ <-. unfold copy_from_user in El.
  destruct (um_readable m _ _) eqn:Er; [|done]. apply Hb in Er. rewrite u64_small; [|unfold is_u64]; destruct sg; lia.
Qed.

Lemma bc_bytes_length junk c : Z.of_nat (length (bc_bytes junk c)) = bc_size c.
Proof. unfold bc_size. by destruct c as [? ?|?| |? tr [x|]| | | | | |]. Qed.
Lemma bc_size_pos c : 4 <= bc_size c.
Proof. unfold bc_size, bc_bytes. rewrite length_app, le_write_length. lia. Qed.

Section loop.
Context `{RB : Rbtree} (A : nat) (envs : nat -> write_env).

Lemma write_loop_fuel buffer end_ fuel fuel' i ptr consumed s : (forall i, bounded (we_mem (envs i))) ->
  (0 < fuel <= fuel')%nat -> end_ - ptr <= 4 * (Z.of_nat fuel - 1) ->
  write_loop fuel' A envs i buffer ptr end_ consumed s = write_loop fuel A envs i buffer ptr end_ consumed s.
Proof.
  intros Hb. revert fuel' i ptr consumed s. induction fuel as [|fuel IH]; intros [|fuel'] i ptr consumed s Hf Hle; try lia. cbn [write_loop].
  destruct (ptr <? end_) eqn:Hp; [|done]. apply Z.ltb_lt in Hp. unfold bind at 1. symmetry. unfold bind at 1.
  destruct (in_graph (thread_at A) s) as [[T s1]|]; [|done]. destruct (_ =? _); [|done].
  destruct (fetch _ _) as [| |c ptr'] eqn:Ef; [done..|]. apply fetch_moves in Ef; [|done]. unfold bind.
  destruct (exec_bc _ _ _ _) as [[[e|] s2]|]; [done| |done]. symmetry. apply IH; lia.
Qed.

Lemma write_loop_run buffer l junk cmds : (forall i, holds (we_mem (envs i)) buffer l) -> Forall bc_fits cmds ->
  forall last end_ tail fuel i j s, drop j l = concat (bc_bytes junk <$> cmds) ++ tail -> (j <= length l)%nat -> Z.of_nat (length l) <= end_ - buffer ->
  (forall i, ends_with (we_mem (envs i)) (buffer + Z.of_nat (length l - length tail)) end_ last) -> (Z.to_nat (end_ - (buffer + Z.of_nat j)) < fuel)%nat ->
  write_loop fuel A envs i buffer (buffer + Z.of_nat j) end_ (Z.of_nat j) s = run_bcs A envs i cmds last (Z.of_nat j) s.
Proof.
  intros Hm Hf last end_ tail. induction Hf as [|c cmds Hc Hf IH]; intros [|fuel] i j s Hd Hj Hend Hlast Hfuel; try lia; cbn [write_loop run_bcs].
  - apply (f_equal length) in Hd. rewrite length_drop in Hd. simpl in Hd. specialize (Hlast i). replace (length l - length tail)%nat with j in Hlast by lia.
    destruct Hlast as [Hp|Hp Hfe|Hp Hfe]; simpl.
    + by rewrite (proj2 (Z.ltb_ge _ _)) by lia.
    + rewrite (proj2 (Z.ltb_lt _ _)), Hfe by done. unfold bind. destruct (in_graph _ _) as [[T s1]|]; [|done]. by destruct (_ =? _).
    + rewrite (proj2 (Z.ltb_lt _ _)), Hfe by done. unfold bind. destruct (in_graph _ _) as [[T s1]|]; [|done]. by destruct (_ =? _).
  - simpl in Hd. rewrite <- app_assoc in Hd. destruct (fetch_held _ _ _ (Hm i) j c _ junk Hd Hc Hj) as (Ef & Hd' & Hj').
    pose proof (bc_bytes_length junk c) as Hs. pose proof (bc_size_pos c). rewrite (proj2 (Z.ltb_lt _ _)), Ef by lia. unfold bind.
    destruct (in_graph _ _) as [[T s1]|]; [|done]. destruct (_ =? _); [|done]. destruct (exec_bc _ _ _ _) as [[[e|] s2]|]; [done| |done].
    destruct (Hm i) as (H0 & Hl & _). rewrite <- Hs.
    replace (u64 (buffer + Z.of_nat (j + length (bc_bytes junk c)) - buffer)) with (Z.of_nat (j + length (bc_bytes junk c))) by (rewrite u64_small; [lia|unfold is_u64; lia]).
    rewrite <- Nat2Z.inj_add. apply IH; try done. lia.
Qed.
End loop.
