(* ===== verification/BinderIoctl.v ===== *)
(** * Calls of the driver from user space

    [binder_thread_read] as a whole, [binder_ioctl] with its requests,
    [binder_poll], [binder_mmap] and the work put off by [binder_flush] and
    [binder_release], of [src/binder/binder.c]. *)

From Stdlib Require Import ZArith Lia.
From stdpp Require Import base option gmap sets list.
From S2P Require Import Prelude RbTree BinderAlloc BinderNode BinderTranslate BinderObjects BinderTxn BinderWrite.

Section calls.
Context `{RB : Rbtree}.

(** ** Reading *)

(** What is outside the driver during a read: for each round the environment
    of the driver and whether what is written for a node arrives, whether what
    is written at an offset does, and what the other threads do while this one
    sleeps for the [k]-th time, with the answer of [signal_pending]. *)
Record read_env := ReadEnv {
  re_driver : nat -> driver_env;
  re_put_node : nat -> br_node -> bool;
  re_put_user : Z -> bool;
  re_schedule : nat -> M driver bool
}.

Definition out_size (out : list br) : Z := sum_over br_size out.

(** How the rounds end: [goto retry] before round [i], an error, or [done] at
    an offset. *)
Inductive read_end :=
  | ReadRetry (i : nat)
  | ReadFailed (err : Z)
  | ReadFilled (ptr : Z) (out : list br).

Fixpoint read_loop (fuel A : nat) (wait_for_proc_work : bool) (X : read_env) (i : nat) (size ptr : Z) (written : list br) : M driver read_end :=
  match fuel with
  | O => oops
  | S fuel =>
    let! r := read_round (re_driver X i) A wait_for_proc_work (re_put_node X i) (re_put_user X) size ptr in
    match r with
    | Retry => ret (ReadRetry (S i))
    | Return err => ret (ReadFailed err)
    | Leave out => ret (ReadFilled (ptr + out_size out) (written ++ out))
    | Continue out => read_loop fuel A wait_for_proc_work X (S i) size (ptr + out_size out) (written ++ out)
    end
  end.

(** [k] counts how often the thread has slept. *)
Fixpoint binder_wait_for_work (fuel A : nat) (do_proc_work : bool) (X : read_env) (k : nat) : M driver (Z * nat) :=
  match fuel with
  | O => oops
  | S fuel =>
    let! work := wait_enter A do_proc_work in
    if work : bool then ret (0, k)
    else
      let! signal := re_schedule X k in
      wait_leave A ;!
      if signal : bool then ret (- ERESTARTSYS, S k) else binder_wait_for_work fuel A do_proc_work X (S k)
  end.

Definition wait_or_fail (fuel A : nat) (non_block wait_for_proc_work : bool) (X : read_env) (k : nat) : M driver (Z * nat) :=
  if non_block then
    let! work := in_graph (binder_has_work A wait_for_proc_work) in
    ret (if work : bool then 0 else - EAGAIN, k)
  else binder_wait_for_work fuel A wait_for_proc_work X k.

(** From [retry] on. *)
Fixpoint read_from (fuel A : nat) (non_block : bool) (X : read_env) (k i : nat) (size consumed ptr : Z) (written : list br)
    : M driver (Z * Z * list br) :=
  match fuel with
  | O => oops
  | S fuel =>
    let! w := read_retry A in
    let! r := wait_or_fail fuel A non_block w X k in
    read_waited A ;!
    if negb (fst r =? 0) then ret (fst r, consumed, [])
    else
      let! x := read_loop fuel A w X i size ptr written in
      match x with
      | ReadRetry i => read_from fuel A non_block X (snd r) i size consumed ptr written
      | ReadFailed err => ret (err, consumed, [])
      | ReadFilled ptr out => let! d := read_done A (re_put_user X) in ret (fst d, ptr, out ++ snd d)
      end
  end.

(** The return value, [*consumed] and, when it succeeds, what was written;
    [BR_SPAWN_LOOPER], at the end of the list, is written at the start of the
    buffer.  A read may sleep for ever, so [fuel] bounds how much of it is
    followed. *)
Definition binder_thread_read (fuel A : nat) (non_block : bool) (X : read_env) (size consumed : Z) : M driver (Z * Z * list br) :=
  if consumed =? 0 then
    if re_put_user X 0 then read_from fuel A non_block X 0 0 size consumed 4 [BrNoop] else ret (- EFAULT, consumed, [])
  else read_from fuel A non_block X 0 0 size consumed consumed [].

(** ** BINDER_WRITE_READ *)

Record binder_write_read := Bwr {
  write_size : Z;
  write_consumed : Z;
  write_buffer : Z;
  read_size : Z;
  read_consumed : Z;
  read_buffer : Z
}.
Definition get_bwr (l : list Z) : binder_write_read :=
  Bwr (field 8 0 l) (field 8 8 l) (field 8 16 l) (field 8 24 l) (field 8 32 l) (field 8 40 l).
Definition set_write_consumed (x : Z) (b : binder_write_read) : binder_write_read :=
  Bwr (write_size b) x (write_buffer b) (read_size b) (read_consumed b) (read_buffer b).
Definition set_read_consumed (x : Z) (b : binder_write_read) : binder_write_read :=
  Bwr (write_size b) (write_consumed b) (write_buffer b) (read_size b) x (read_buffer b).

(** The direction, the type ['b'], the number, the size of the argument. *)
Definition IOC_B (dir nr size : Z) : Z := Z.lor (Z.shiftl dir 30) (Z.lor (Z.shiftl size 16) (Z.lor (Z.shiftl 98 8) nr)).
Definition BINDER_WRITE_READ : Z := IOC_B 3 1 48.
Definition BINDER_SET_MAX_THREADS : Z := IOC_B 1 5 4.
Definition BINDER_SET_CONTEXT_MGR : Z := IOC_B 1 7 4.
Definition BINDER_THREAD_EXIT : Z := IOC_B 1 8 4.
Definition BINDER_VERSION : Z := IOC_B 3 9 4.
Definition BINDER_GET_NODE_DEBUG_INFO : Z := IOC_B 3 11 24.
Definition BINDER_GET_NODE_INFO_FOR_REF : Z := IOC_B 3 12 24.
Definition BINDER_SET_CONTEXT_MGR_EXT : Z := IOC_B 1 13 24.
Definition BINDER_CURRENT_PROTOCOL_VERSION : Z := 8.
Definition IOC_SIZE (cmd : Z) : Z := Z.land (Z.shiftr cmd 16) 16383.

(** What is outside the driver during a call: the user's memory, whether the
    copy back to it succeeds, the rounds of the write and of the read, whether
    the file is non-blocking; the answers of [wait_event_interruptible], of
    the security module and of [current_euid], and what [kzalloc] gives. *)
Record ioctl_env := IoctlEnv {
  ie_mem : user_mem;
  ie_copy_out : bool;
  ie_write : nat -> write_env;
  ie_read : read_env;
  ie_non_block : bool;
  ie_stopped : Z;
  ie_thread : option nat;
  ie_security : Z;
  ie_euid : Z;
  ie_node : driver -> option nat;
  ie_driver : driver_env
}.

(** What the caller's argument is set to. *)
Inductive answer :=
  | NoAnswer
  | AnsWriteRead (b : binder_write_read) (out : list br)
  | AnsVersion (v : Z)
  | AnsNodeInfo (strong_count weak_count : Z)
  | AnsNodeDebug (node : option binder_node).

(** [copy_to_user], then [ret]; the answer is lost if it fails. *)
Definition copied_out (I : ioctl_env) (ret_ : Z) (ans : answer) : Z * answer :=
  if ie_copy_out I then (ret_, ans) else (- EFAULT, NoAnswer).

Definition write_part (I : ioctl_env) (A : nat) (b : binder_write_read) : M driver (Z * binder_write_read) :=
  if 0 <? write_size b then
    let! r := binder_thread_write A (ie_write I) (write_buffer b) (write_size b) (write_consumed b) in
    ret (fst r, set_write_consumed (snd r) b)
  else ret (0, b).

Definition read_part (fuel : nat) (I : ioctl_env) (p A : nat) (b : binder_write_read) : M driver (Z * binder_write_read * list br) :=
  if 0 <? read_size b then
    let! r := binder_thread_read fuel A (ie_non_block I) (ie_read I) (read_size b) (read_consumed b) in
    read_left p ;!
    ret (fst (fst r), set_read_consumed (snd (fst r)) b, snd r)
  else ret (0, b, []).

Definition binder_ioctl_write_read (fuel : nat) (I : ioctl_env) (p A : nat) (cmd arg : Z) : M driver (Z * answer) :=
  if negb (IOC_SIZE cmd =? 48) then ret (- EINVAL, NoAnswer)
  else
    match copy_from_user (ie_mem I) 48 arg with
    | None => ret (- EFAULT, NoAnswer)
    | Some l =>
      let! w := write_part I A (get_bwr l) in
      if fst w <? 0 then ret (copied_out I (fst w) (AnsWriteRead (set_read_consumed 0 (snd w)) []))
      else
        let! r := read_part fuel I p A (snd w) in
        if fst (fst r) <? 0 then ret (copied_out I (fst (fst r)) (AnsWriteRead (snd (fst r)) []))
        else ret (copied_out I (fst (fst r)) (AnsWriteRead (snd (fst r)) (snd r)))
    end.

(** ** The other requests *)

Definition get_fbo (l : list Z) : flat_binder_object := Fbo (field 8 8 l) (field 8 16 l) (field 4 4 l).

Definition ctx_mgr (I : ioctl_env) (p : nat) (fbo : option flat_binder_object) : M driver (Z * answer) :=
  let! s := get in
  let! err := in_graph (binder_ioctl_set_ctx_mgr p (ie_security I) (ie_euid I) (ie_node I s) fbo) in
  ret (err, NoAnswer).

Definition node_info (I : ioctl_env) (p : nat) (l : list Z) : M driver (Z * answer) :=
  let zeroed := forallb (fun off => field 4 off l =? 0) [4; 8; 12; 16; 20]%nat in
  let! r := in_graph (binder_ioctl_get_node_info_for_ref p (field 4 0 l) zeroed) in
  ret (if fst r <? 0 then (fst r, NoAnswer) else copied_out I 0 (AnsNodeInfo (fst (snd r)) (snd (snd r)))).

Definition node_debug (I : ioctl_env) (p : nat) (l : list Z) : M driver (Z * answer) :=
  let! r := in_graph (binder_ioctl_get_node_debug_info p (field 8 0 l)) in
  ret (copied_out I 0 (AnsNodeDebug r)).

(** The [switch]: [copy_from_user] of [n] bytes first, or [err]. *)
Definition with_arg (I : ioctl_env) (n : nat) (arg err : Z) (k : list Z -> M driver (Z * answer)) : M driver (Z * answer) :=
  match copy_from_user (ie_mem I) n arg with Some l => k l | None => ret (err, NoAnswer) end.

(** The second result: is the thread still there? *)
Definition ioctl_request (fuel : nat) (I : ioctl_env) (p A : nat) (cmd arg : Z) : M driver (Z * answer * bool) :=
  let stays (m : M driver (Z * answer)) := let! r := m in ret (r, true) in
  if cmd =? BINDER_WRITE_READ then stays (binder_ioctl_write_read fuel I p A cmd arg)
  else if cmd =? BINDER_SET_MAX_THREADS then
    stays (with_arg I 4 arg (- EINVAL) (fun l => set_max_threads p (s32 (le_read 4 l)) ;! ret (0, NoAnswer)))
  else if cmd =? BINDER_SET_CONTEXT_MGR_EXT then stays (with_arg I 24 arg (- EINVAL) (fun l => ctx_mgr I p (Some (get_fbo l))))
  else if cmd =? BINDER_SET_CONTEXT_MGR then stays (ctx_mgr I p None)
  else if cmd =? BINDER_THREAD_EXIT then let! _ := binder_thread_release (ie_driver I) A in ret (0, NoAnswer, false)
  else if cmd =? BINDER_VERSION then
    stays (ret (if negb (IOC_SIZE cmd =? 4) || negb (ie_copy_out I) then (- EINVAL, NoAnswer) else (0, AnsVersion BINDER_CURRENT_PROTOCOL_VERSION)))
  else if cmd =? BINDER_GET_NODE_INFO_FOR_REF then stays (with_arg I 24 arg (- EFAULT) (node_info I p))
  else if cmd =? BINDER_GET_NODE_DEBUG_INFO then stays (with_arg I 24 arg (- EFAULT) (node_debug I p))
  else ret (- EINVAL, NoAnswer, true).

(** The thread of process [p] that calls is the one with [pid]. *)
Definition binder_ioctl (fuel : nat) (I : ioctl_env) (p : nat) (pid cmd arg : Z) : M driver (Z * answer) :=
  if negb (ie_stopped I =? 0) then ret (ie_stopped I, NoAnswer)
  else
    let! thread := binder_get_thread p pid (ie_thread I) in
    match thread with
    | None => ret (- ENOMEM, NoAnswer)
    | Some A =>
      let! r := ioctl_request fuel I p A cmd arg in
      (if snd r : bool then ioctl_done A else ret tt) ;!
      ret (fst r)
    end.

(** ** Polling and mapping *)

Definition EPOLLIN : Z := 1.
Definition POLLERR : Z := 8.

(** [meanwhile]: other threads while [poll_wait] registers this one. *)
Definition binder_poll (p : nat) (pid : Z) (kz : option nat) (meanwhile : M driver unit) : M driver Z :=
  let! thread := binder_get_thread p pid kz in
  match thread with
  | None => ret POLLERR
  | Some A =>
    let! wait_for_proc_work := poll_start A in
    meanwhile ;!
    let! work := in_graph (binder_has_work A wait_for_proc_work) in
    ret (if work : bool then EPOLLIN else 0)
  end.

Definition VM_WRITE : Z := 2.
Definition VM_MAYWRITE : Z := 32.
Definition VM_DONTCOPY : Z := 131072.
Definition VM_MIXEDMAP : Z := 268435456.
Definition FORBIDDEN_MMAP_FLAGS : Z := VM_WRITE.

(** [owner]: is the caller the process that opened the file?  The result is the
    error and the flags of the mapping. *)
Definition binder_mmap (p : nat) (owner : bool) (vm_flags : Z) (vma : nat) (vm_mm : option nat) (vm_start vm_end : Z)
    (new_pages : bool) (new_struct : option nat) : M driver (Z * Z) :=
  if negb owner then ret (- EINVAL, vm_flags)
  else if negb (Z.land vm_flags FORBIDDEN_MMAP_FLAGS =? 0) then ret (- EPERM, vm_flags)
  else
    let vm_flags := Z.land (Z.lor vm_flags (Z.lor VM_DONTCOPY VM_MIXEDMAP)) (Z.lnot VM_MAYWRITE) in
    let! err := in_alloc p (binder_alloc_mmap_handler vma vm_mm vm_start vm_end new_pages new_struct) in
    ret (err, vm_flags).

(** ** Work put off *)

Definition BINDER_DEFERRED_FLUSH : Z := 1.
Definition BINDER_DEFERRED_RELEASE : Z := 2.

(** [binder_deferred_list] and each process's [deferred_work]; how often the
    work was scheduled. *)
Record deferred := Deferred { deferred_list : list nat; deferred_work : nat -> Z; scheduled : Z }.

Definition binder_defer_work (p : nat) (defer : Z) (d : deferred) : deferred :=
  let work := fun q => if decide (q = p) then Z.lor (deferred_work d p) defer else deferred_work d q in
  if decide (p ∈ deferred_list d) then Deferred (deferred_list d) work (scheduled d)
  else Deferred (p :: deferred_list d) work (scheduled d + 1).

Definition binder_flush (p : nat) (d : deferred) : deferred := binder_defer_work p BINDER_DEFERRED_FLUSH d.
Definition binder_release (p : nat) (d : deferred) : deferred := binder_defer_work p BINDER_DEFERRED_RELEASE d.

(** One process off the list, with what was asked for. *)
Definition next_deferred (d : deferred) : option (nat * Z * deferred) :=
  match deferred_list d with
  | [] => None
  | p :: l => Some (p, deferred_work d p, Deferred l (fun q => if decide (q = p) then 0 else deferred_work d q) (scheduled d))
  end.

Definition run_deferred (E : driver_env) (fuel p : nat) (defer : Z) : M driver unit :=
  (if Z.land defer BINDER_DEFERRED_FLUSH =? 0 then ret tt else let! _ := binder_deferred_flush p in ret tt) ;!
  (if Z.land defer BINDER_DEFERRED_RELEASE =? 0 then ret tt else binder_deferred_release E fuel p).

(** [n]: one more than the list has processes; [fuel] is for each release. *)
Fixpoint binder_deferred_func (E : driver_env) (n fuel : nat) (d : deferred) : M driver deferred :=
  match n with
  | O => oops
  | S n =>
    match next_deferred d with
    | None => ret d
    | Some (p, defer, d) => run_deferred E fuel p defer ;! binder_deferred_func E n fuel d
    end
  end.
End calls.
