(* ===== verification/BinderSteps.v ===== *)
(** * Calls as steps

    What a thread asks of the driver, from the request to the answer, is a
    run of steps of [BinderTxnSystem], with the steps of other threads where
    it sleeps. *)

From Stdlib Require Import ZArith Lia.
From stdpp Require Import base option gmap sets list.
From S2P Require Import Prelude RbTree BinderAlloc BinderNode BinderTranslate BinderNodeSystem BinderObjects BinderTxn BinderCalls.
From S2P Require Import BinderFrame BinderFrameAlloc BinderTxnView BinderTxnHush BinderTxnBuf BinderTxnDraft BinderTxnTarget BinderTxnBuild BinderTxnNew BinderTxnSystem.
From S2P Require Import BinderTxnAlive BinderWrite BinderIoctl.

Lemma star_trans {A} (R : A -> A -> Prop) a b c : star R a b -> star R b c -> star R a c.
Proof. intros H1 H2. induction H2 as [|x y z _ IH H]; [done|]. eapply star_step; [by apply IH|done]. Qed.

Lemma ret_inv {S X} (x y : X) (s s' : S) : ret x s = Some (y, s') -> y = x /\ s' = s.
Proof. by intros [= -> ->]. Qed.

Section steps.
Context `{RB : Rbtree}.

(** Steps that end in [s], with [A] in [ph]. *)
Definition runs (A : nat) (ph : phase) (sys : system) (s : driver) : Prop :=
  exists sys', star step sys sys' /\ drv sys' = s /\ phases sys' A = ph.

Lemma runs_refl A sys : runs A (phases sys A) sys (drv sys).
Proof. exists sys. split; [constructor|done]. Qed.
Lemma runs_stay A sys s : step sys (System s (phases sys)) -> runs A (phases sys A) sys s.
Proof. intros H. exists (System s (phases sys)). split; [|done]. eapply star_step; [constructor|exact H]. Qed.
Lemma runs_move A ph sys s : step sys (moves sys A ph s) -> runs A ph sys s.
Proof. intros H. exists (moves sys A ph s). split; [|split; [done|by apply fupd_eq]]. eapply star_step; [constructor|exact H]. Qed.
Lemma runs_then A ph sys s ph' s' : runs A ph sys s -> (forall sys', drv sys' = s -> phases sys' A = ph -> runs A ph' sys' s') -> runs A ph' sys s'.
Proof.
  intros (sys1 & H1 & Hs & Hp) H. destruct (H sys1 Hs Hp) as (sys2 & H2 & H3). exists sys2. split; [|exact H3]. by eapply star_trans.
Qed.

(** ** Commands *)

Lemma fresh_same E s s' : transactions s' = transactions s -> allocs s' = allocs s -> fresh_env E s -> fresh_env E s'.
Proof. unfold fresh_env, fresh_buffer. by intros -> ->. Qed.

Lemma fresh_select E A reply tr s r s' : select_target E A reply tr s = Some (r, s') -> fresh_env E s -> fresh_env E s'.
Proof.
  intros H HF. destruct reply; simpl in H.
  - unfold reply_target in H. apply bind_Some in H as (T & s1 & [-> HT]%d_thread_inv & H).
    destruct (transaction_stack T) as [t|]; [|by mrun]. apply bind_Some in H as (X & s1 & [-> _]%txn_at_inv & H).
    destruct (negb _); [by mrun|]. apply bind_Some in H as (? & s1 & (g & _ & ->)%in_graph_inv & H).
    apply (fresh_same _ _ (set_d_graph g s)) in HF; [|done..]. apply bind_Some in H as (f & s1 & H1 & H).
    apply hush_get_from_acq with (me := None) in H1. apply (fresh_hush _ _ _ _ H1) in HF. destruct f as [f|]; [|by mrun].
    apply bind_Some in H as (F & s2 & [-> _]%d_thread_inv & H). destruct (negb _); [by mrun|].
    apply bind_Some in H as (? & s2 & H2 & H). apply hush_proc_inc with (me := None) in H2. mrun. by apply (fresh_hush _ _ _ _ H2).
  - apply hush_call_target with (me := None) in H. by apply (fresh_hush _ _ _ _ H).
Qed.

Lemma command_runs A op sys x (m : M binder x) r s : phases sys A = AtRest -> command A op = true ->
  (forall g r g', m g = Some (r, g') -> run_op op g = Some (tt, g')) -> in_graph m (drv sys) = Some (r, s) -> runs A AtRest sys s.
Proof.
  intros HA Hop Hm (g & Hg & ->)%in_graph_inv. rewrite <- HA. apply runs_stay. eapply step_command; [exact HA|exact Hop|].
  unfold in_graph. by rewrite (Hm _ _ _ Hg).
Qed.
Lemma looper_runs A op sys s : phases sys A = AtRest -> run_looper A op (drv sys) = Some (tt, s) -> runs A AtRest sys s.
Proof. intros HA H. rewrite <- HA. apply runs_stay. by eapply step_looper. Qed.

(** [binder_transaction] is its three steps. *)
Lemma transact_runs E A reply tr extra sys s : phases sys A = AtRest -> alive A (drv sys) -> fresh_env E (drv sys) ->
  binder_transact E A reply tr extra (drv sys) = Some (tt, s) -> runs A AtRest sys s.
Proof.
  intros HA Ha HF H. unfold binder_transact in H. apply bind_Some in H as (id & s1 & H1 & H). apply bind_Some in H as ([e tg] & s2 & H2 & H).
  assert (Ht : forall ph s', (match e with Some error => fail_transaction E A error tg ;! ret AtRest | None => ret (Targeted reply id tr tg) end) s2 = Some (ph, s') ->
    target_step E A reply tr (drv sys) = Some (ph, s')).
  { intros ph s' H'. unfold target_step. erewrite bind_eq by exact H1. erewrite bind_eq by exact H2. by destruct e. }
  destruct e as [e|].
  - apply runs_move. eapply step_target; [done..|]. apply Ht. by erewrite bind_eq by exact H.
  - eapply runs_then; [apply runs_move; eapply step_target; [done..|by apply Ht]|]. clear Ht. intros sys1 <- HA1.
    assert (HF1 : fresh_env E (drv sys1)).
    { eapply fresh_select; [exact H2|]. apply (hush_in_graph None next_id (keeps_next_id None)) in H1. by apply (fresh_hush _ _ _ _ H1). }
    apply bind_Some in H as (r & s3 & H3 & H). destruct r as [[e tg']|[t c]].
    + apply runs_move. eapply step_build; [done..|]. unfold build_step. erewrite bind_eq by exact H3. cbv beta iota. by erewrite bind_eq by exact H.
    + eapply runs_then; [apply runs_move; eapply step_build; [done..|]; unfold build_step; by erewrite bind_eq by exact H3|].
      intros sys2 <- HA2. apply runs_move. by eapply step_commit.
Qed.

(** What [kzalloc] gives is fresh. *)
Definition fresh_writes (W : write_env) : Prop := forall s, fresh_env (we_driver W s) s.

Lemma exec_bc_runs W A c sys r s : phases sys A = AtRest -> alive A (drv sys) -> fresh_writes W -> exec_bc W A c (drv sys) = Some (r, s) ->
  runs A AtRest sys s.
Proof.
  intros HA Ha HF H. unfold exec_bc in H. apply bind_Some in H as (T & s1 & [-> HT]%d_thread_inv & H). apply bind_Some in H as (? & ? & [= <- <-] & H).
  cbv zeta in H. destruct c as [i b target|b ptr cookie|p|reply tr extra| | | |target cookie|target cookie|cookie];
    try (apply bind_Some in H as ([] & s1 & H & [= <- <-])).
  - eapply (command_runs A (BcRefs (thread_proc T) i b target (we_ref W (drv sys)))); [done|done| |exact H].
    intros g r' g' Hg. cbn [run_op]. by erewrite bind_eq by exact Hg.
  - eapply (command_runs A (BcRefsDone (thread_proc T) b ptr cookie)); [done|done| |exact H]. by intros g [] g'.
  - rewrite <- HA. apply runs_stay. by eapply step_free_buffer.
  - by eapply transact_runs.
  - by apply (looper_runs A RegisterLooper).
  - by apply (looper_runs A EnterLooper).
  - by apply (looper_runs A ExitLooper).
  - destruct (we_death W (drv sys)) as [d|]; [|by apply (looper_runs A DeathNoMemory)].
    eapply (command_runs A (BcRequestDeath (thread_proc T) target cookie d)); [done|done| |exact H]. by intros g [] g'.
  - eapply (command_runs A (BcClearDeath (thread_proc T) A target cookie)); [done|by apply bool_decide_eq_true| |exact H]. by intros g [] g'.
  - eapply (command_runs A (BcDeadBinderDone (thread_proc T) A cookie)); [done|by apply bool_decide_eq_true| |exact H]. by intros g [] g'.
Qed.

Lemma lives_exec_bc W A c : keeps lives (exec_bc W A c).
Proof.
  intros s r s' H. unfold exec_bc in H. apply bind_Some in H as (T & s1 & [-> HT]%d_thread_inv & H). apply bind_Some in H as (? & ? & [= <- <-] & H).
  cbv zeta in H. destruct c as [i b target|b ptr cookie|p|reply tr extra| | | |target cookie|target cookie|cookie];
    try (apply bind_Some in H as ([] & s1 & H & [= <- <-])).
  - eapply (lives_keeps None); [|exact H]. apply hush_in_graph, keeps_bc_refs.
  - eapply (lives_keeps None); [|exact H]. apply hush_in_graph, keeps_bc_refs_done.
  - by eapply lives_bc_free.
  - by eapply lives_binder_transact.
  - eapply (lives_keeps None); [|exact H]. apply hush_register.
  - eapply (lives_keeps None); [|exact H]. apply hush_enter.
  - eapply (lives_keeps None); [|exact H]. apply hush_exit.
  - destruct (we_death W s) as [d|]; (eapply (lives_keeps (Some A)); [|exact H]); [|by apply hush_death_no_memory].
    apply hush_in_graph, keeps_request_death.
  - eapply (lives_keeps (Some A)); [|exact H]. by apply hush_in_graph, keeps_clear_death.
  - eapply (lives_keeps (Some A)); [|exact H]. by apply hush_in_graph, keeps_dead_binder_done.
Qed.

(** Steps after which [A] is still there. *)
Definition goes (A : nat) (ph : phase) (sys : system) (s : driver) : Prop := runs A ph sys s /\ alive A s.

Lemma goes_refl A ph sys : phases sys A = ph -> alive A (drv sys) -> goes A ph sys (drv sys).
Proof. intros <- Ha. split; [apply runs_refl|done]. Qed.
Lemma goes_move A ph sys s : alive A (drv sys) -> lives (drv sys) s -> step sys (moves sys A ph s) -> goes A ph sys s.
Proof. intros Ha Hl H. split; [by apply runs_move|by eapply alive_lives]. Qed.
Lemma goes_stay A ph sys s : phases sys A = ph -> alive A (drv sys) -> lives (drv sys) s -> step sys (System s (phases sys)) -> goes A ph sys s.
Proof. intros <- Ha Hl H. split; [by apply runs_stay|by eapply alive_lives]. Qed.
Lemma goes_then A ph sys s ph' s' : goes A ph sys s -> (forall sys', drv sys' = s -> phases sys' A = ph -> alive A (drv sys') -> goes A ph' sys' s') -> goes A ph' sys s'.
Proof.
  intros [(sys1 & H1 & <- & Hp) Ha] H. destruct (H sys1 eq_refl Hp Ha) as [(sys2 & H2 & H3) Ha2]. split; [|done]. exists sys2. split; [|exact H3].
  by eapply star_trans.
Qed.

(** ** Writing *)

Lemma write_loop_runs A envs buffer end_ fuel i ptr consumed sys r s : phases sys A = AtRest -> alive A (drv sys) -> (forall i, fresh_writes (envs i)) ->
  write_loop fuel A envs i buffer ptr end_ consumed (drv sys) = Some (r, s) -> goes A AtRest sys s.
Proof.
  intros HA Ha HF. revert i ptr consumed sys HA Ha. induction fuel as [|fuel IH]; intros i ptr consumed sys HA Ha H; [done|]. cbn [write_loop] in H.
  destruct (ptr <? end_); [|mrun; by apply goes_refl]. apply bind_Some in H as (T & s1 & [-> HT]%d_thread_inv & H).
  destruct (_ =? _); [|mrun; by apply goes_refl]. destruct (fetch _ _) as [| |c ptr']; [mrun; by apply goes_refl..|].
  apply bind_Some in H as (err & s1 & H1 & H). assert (R : goes A AtRest sys s1).
  { split; [by eapply exec_bc_runs|]. eapply alive_lives; [by eapply lives_exec_bc|done]. }
  destruct err as [err|]; [by mrun|]. eapply goes_then; [exact R|]. intros sys1 <- HA1 Ha1. by eapply IH.
Qed.

(** ** Reading *)

(** While [A] sleeps the others make steps, and none of them ends it. *)
Definition others_step (A : nat) (X : read_env) : Prop := forall k w sys b s, phases sys A = Asleep w -> alive A (drv sys) ->
  re_schedule X k (drv sys) = Some (b, s) -> goes A (Asleep w) sys s.

Lemma has_work_same A w s b s' : in_graph (binder_has_work_ilocked A w) s = Some (b, s') -> s' = s.
Proof. intros (g & Hg & ->)%in_graph_inv. pose proof (reads_has_work _ _ _ _ _ Hg) as ->. apply set_own_graph. Qed.
Lemma lives_upd_proc p f : keeps lives (upd_proc p f).
Proof. apply lives_in_graph. unfold put_proc_at. sparing. Qed.

Lemma lives_wait_enter A w : keeps lives (wait_enter A w).
Proof.
  intros s b s' H. unfold wait_enter in H. apply bind_Some in H as (work & s1 & ->%has_work_same & H). destruct work; [mrun; reflexivity|].
  apply bind_Some in H as (T & s1 & [-> _]%d_thread_inv & H). apply bind_Some in H as (? & s1 & H1 & H). injection H as _ <-.
  destruct w; [by eapply lives_upd_proc|mrun; reflexivity].
Qed.
Lemma lives_wait_leave A : keeps lives (wait_leave A).
Proof. intros s b s' H. unfold wait_leave in H. apply bind_Some in H as (T & s1 & [-> _]%d_thread_inv & H). by eapply lives_upd_proc. Qed.

Lemma wait_runs A X fuel w k sys r s : phases sys A = InRead w -> alive A (drv sys) -> others_step A X ->
  binder_wait_for_work fuel A w X k (drv sys) = Some (r, s) -> goes A (InRead w) sys s.
Proof.
  intros HA Ha HX. revert k sys HA Ha. induction fuel as [|fuel IH]; intros k sys HA Ha H; [done|]. cbn [binder_wait_for_work] in H.
  apply bind_Some in H as (work & s1 & H1 & H). destruct work.
  - mrun. unfold wait_enter in H1. apply bind_Some in H1 as (b & s2 & ->%has_work_same & H1). destruct b.
    + mrun. by apply goes_refl.
    + apply bind_Some in H1 as (? & ? & _ & H1). apply bind_Some in H1 as (? & ? & _ & H1). by mrun.
  - eapply (goes_then A (Asleep w)).
    { apply goes_move; [done| |by eapply step_sleep]. revert H1. apply lives_wait_enter. }
    intros sys1 <- HA1 Ha1. apply bind_Some in H as (signal & s2 & H2 & H). eapply goes_then; [by eapply HX|].
    intros sys2 <- HA2 Ha2. apply bind_Some in H as ([] & s3 & H3 & H). eapply (goes_then A (InRead w)).
    { apply goes_move; [done| |by eapply step_wake]. revert H3. apply lives_wait_leave. }
    intros sys3 <- HA3 Ha3. destruct signal; [mrun; by apply goes_refl|by eapply IH].
Qed.

Lemma read_loop_runs A X w size fuel i ptr written sys r s : phases sys A = InRead w -> alive A (drv sys) ->
  read_loop fuel A w X i size ptr written (drv sys) = Some (r, s) -> goes A AtRest sys s.
Proof.
  intros HA Ha. revert i ptr written sys HA Ha. induction fuel as [|fuel IH]; intros i ptr written sys HA Ha H; [done|]. cbn [read_loop] in H.
  apply bind_Some in H as (x & s1 & H1 & H). pose proof (lives_round _ _ _ _ _ _ _ _ _ _ H1) as Hl.
  pose proof (step_round sys _ A w _ _ _ _ _ _ HA H1) as St.
  destruct x as [out|out| |err]; [|mrun; by apply goes_move..]. eapply goes_then; [by apply goes_move|]. intros sys1 <- HA1 Ha1. by eapply IH.
Qed.

Lemma wait_or_fail_runs A X fuel non_block w k sys r s : phases sys A = InRead w -> alive A (drv sys) -> others_step A X ->
  wait_or_fail fuel A non_block w X k (drv sys) = Some (r, s) -> goes A (InRead w) sys s.
Proof.
  intros HA Ha HX H. destruct non_block; [|by eapply wait_runs]. simpl in H. apply bind_Some in H as (b & s1 & ->%has_work_same & H). mrun. by apply goes_refl.
Qed.

Lemma lives_read_retry A : keeps lives (read_retry A).
Proof. apply (lives_keeps None), hush_read_retry. Qed.
Lemma lives_read_waited A : keeps lives (read_waited A).
Proof. apply (lives_keeps None), hush_read_waited. Qed.

Lemma read_from_runs A non_block X size consumed fuel k i ptr written sys r s : phases sys A = AtRest -> alive A (drv sys) -> others_step A X ->
  read_from fuel A non_block X k i size consumed ptr written (drv sys) = Some (r, s) -> goes A AtRest sys s.
Proof.
  intros HA Ha HX. revert k i ptr written sys HA Ha. induction fuel as [|fuel IH]; intros k i ptr written sys HA Ha H; [done|]. cbn [read_from] in H.
  apply bind_Some in H as (w & s1 & H1 & H). eapply (goes_then A (InRead w)).
  { apply goes_move; [done|by eapply lives_read_retry|by eapply step_read]. }
  clear H1 HA Ha. intros sys1 <- HA Ha. apply bind_Some in H as ([err k'] & s2 & H2 & H). eapply goes_then; [by eapply wait_or_fail_runs|].
  clear H2 HA Ha. intros sys2 <- HA Ha. apply bind_Some in H as ([] & s3 & H3 & H). eapply goes_then.
  { eapply goes_stay; [exact HA|done|by eapply lives_read_waited|by eapply step_waited]. }
  clear H3 HA Ha. intros sys3 <- HA Ha. cbn [fst snd] in H. destruct (negb _).
  - mrun. apply goes_move; [done|by apply lives_graph|by eapply step_interrupted].
  - apply bind_Some in H as (x & s4 & H4 & H). eapply goes_then; [by eapply read_loop_runs|]. clear H4 HA Ha. intros sys4 <- HA Ha.
    destruct x as [i'|err'|ptr' out]; [by eapply IH|mrun; by apply goes_refl|]. apply bind_Some in H as (d & s5 & H5 & H). injection H as _ <-.
    split; [|eapply alive_lives; [|exact Ha]; apply (lives_keeps None _ (hush_read_done None A _) _ _ _ H5)].
    apply (looper_runs A (ReadDone (re_put_user X))); [done|]. simpl. by erewrite bind_eq by exact H5.
Qed.

Lemma thread_read_runs A non_block X size consumed fuel sys r s : phases sys A = AtRest -> alive A (drv sys) -> others_step A X ->
  binder_thread_read fuel A non_block X size consumed (drv sys) = Some (r, s) -> goes A AtRest sys s.
Proof.
  intros HA Ha HX H. unfold binder_thread_read in H. destruct (_ =? _); [|by eapply read_from_runs].
  destruct (re_put_user X 0); [by eapply read_from_runs|mrun; by apply goes_refl].
Qed.

(** ** Requests *)

Lemma write_read_runs fuel I p A cmd arg sys r s : phases sys A = AtRest -> alive A (drv sys) -> (forall i, fresh_writes (ie_write I i)) ->
  others_step A (ie_read I) -> binder_ioctl_write_read fuel I p A cmd arg (drv sys) = Some (r, s) -> runs A AtRest sys s.
Proof.
  intros HA Ha HF HX H. unfold binder_ioctl_write_read in H. assert (R0 : goes A AtRest sys (drv sys)) by by apply goes_refl.
  destruct (negb _); [mrun; apply R0|]. destruct (copy_from_user _ _ _) as [l|]; [|mrun; apply R0].
  apply bind_Some in H as (w & s1 & H1 & H). assert (R1 : goes A AtRest sys s1).
  { unfold write_part in H1. destruct (_ <? _); [|by mrun]. apply bind_Some in H1 as (x & s2 & H1 & H2). injection H2 as _ <-. by eapply write_loop_runs. }
  clear H1 R0. destruct (fst w <? 0); [mrun; apply R1|]. eapply runs_then; [apply R1|]. intros sys1 E1 HA1. destruct R1 as [_ Ha1]. rewrite <- E1 in H, Ha1. clear E1.
  apply bind_Some in H as (x & s2 & H2 & H). assert (R2 : runs A AtRest sys1 s2).
  { unfold read_part in H2. destruct (_ <? _); [|mrun; apply (goes_refl A AtRest _ HA1 Ha1)]. apply bind_Some in H2 as (y & s3 & H2 & H3).
    apply bind_Some in H3 as ([] & s4 & H3 & H4). injection H4 as _ <-. eapply runs_then; [by eapply thread_read_runs|].
    intros sys2 <- HA2. by apply (looper_runs A (ReadLeft p)). }
  destruct (_ <? 0); by mrun.
Qed.

Lemma with_arg_runs A I n arg err k sys r s : phases sys A = AtRest -> (forall l r s, k l (drv sys) = Some (r, s) -> runs A AtRest sys s) ->
  with_arg I n arg err k (drv sys) = Some (r, s) -> runs A AtRest sys s.
Proof. intros HA Hk H. unfold with_arg in H. destruct (copy_from_user _ _ _) as [l|]; [by eapply Hk|]. mrun. rewrite <- HA. apply runs_refl. Qed.

Lemma ctx_mgr_runs A I p fbo sys r s : phases sys A = AtRest -> ctx_mgr I p fbo (drv sys) = Some (r, s) -> runs A AtRest sys s.
Proof.
  intros HA H. unfold ctx_mgr in H. apply bind_Some in H as (? & ? & [= <- <-] & H). apply bind_Some in H as (x & s1 & H & H1). injection H1 as _ <-.
  eapply (command_runs A (SetCtxMgr p (ie_security I) (ie_euid I) (ie_node I (drv sys)) fbo)); [done|done| |exact H].
  intros g y g' Hg. cbn [run_op]. by erewrite bind_eq by exact Hg.
Qed.

Lemma request_runs fuel I p A cmd arg sys r s : phases sys A = AtRest -> alive A (drv sys) -> (forall i, fresh_writes (ie_write I i)) ->
  others_step A (ie_read I) -> ioctl_request fuel I p A cmd arg (drv sys) = Some (r, s) -> runs A AtRest sys s.
Proof.
  intros HA Ha HF HX H. pose proof (proj1 (goes_refl A AtRest sys HA Ha)) as R0. unfold ioctl_request in H. cbv zeta in H.
  repeat match type of H with (if ?b then _ else _) _ = _ => destruct b end; try (apply bind_Some in H as (x & s1 & H & H1); injection H1 as _ <-).
  - by eapply write_read_runs.
  - eapply with_arg_runs; [exact HA| |exact H]. intros l y s2 H2. apply bind_Some in H2 as ([] & s3 & H2 & H3). injection H3 as _ <-.
    by apply (looper_runs A (MaxThreads p (s32 (le_read 4 l)))).
  - eapply with_arg_runs; [exact HA| |exact H]. intros l y s2 H2. exact (ctx_mgr_runs _ _ _ _ _ _ _ HA H2).
  - by eapply ctx_mgr_runs.
  - rewrite <- HA. apply runs_stay. by eapply step_exit.
  - apply ret_inv in H as [_ ->]. exact R0.
  - eapply with_arg_runs; [exact HA| |exact H]. intros l y s2 H2. apply bind_Some in H2 as (z & s3 & H2 & H3). injection H3 as _ <-.
    eapply (command_runs A (GetNodeInfo p _ _)); [done|done| |exact H2]. intros g u g' Hg. cbn [run_op]. by erewrite bind_eq by exact Hg.
  - eapply with_arg_runs; [exact HA| |exact H]. intros l y s2 H2. apply bind_Some in H2 as (z & s3 & H2 & H3). injection H3 as _ <-.
    eapply (command_runs A (GetNodeDebug p _)); [done|done| |exact H2]. intros g u g' Hg. cbn [run_op]. by erewrite bind_eq by exact Hg.
  - by mrun.
Qed.
End steps.
