(* ===== verification/BinderUserTheorems.v ===== *)
(** * Calls from user space: what holds

    What the bytes of a write buffer make the driver do, that the loop over
    them ends, and that every [ioctl] is a run of the transition system all
    the invariants of transactions are about. *)

From Stdlib Require Import ZArith Lia.
From stdpp Require Import base option gmap sets list.
From S2P Require Import Prelude RbTree BinderAlloc BinderAllocTheorems BinderNode BinderTranslate BinderNodeSystem BinderNodeTheorems.
From S2P Require Import BinderObjects BinderObjectsTheorems BinderTxn BinderCalls BinderTxnDraft BinderTxnTarget BinderTxnBuild BinderTxnNew BinderTxnSystem BinderTxnRun BinderTxnDemo.
From S2P Require Import BinderWrite BinderWriteFacts BinderIoctl BinderSteps.

(** ** Work put off *)




Section each.
Context `{RB : Rbtree} (E : driver_env) (fuel : nat).



End each.

Section theorems.
Context `{RB : Rbtree}.

(** C11: a write buffer that holds a list of commands makes the driver carry
    out exactly these, in order and with the arguments written, from
    [write_consumed] on: it stops at a command that ends the call, when an
    error waits for the thread, or after them, with -EFAULT for what cannot be
    read and -EINVAL for a code it does not know; [write_consumed] covers the
    commands carried out and no other. *)
Theorem write_runs_commands A envs buffer junk pre cmds tail size last s :
  Forall bc_fits cmds ->
  (forall i, holds (we_mem (envs i)) buffer (pre ++ concat (bc_bytes junk <$> cmds) ++ tail)) ->
  Z.of_nat (length (pre ++ concat (bc_bytes junk <$> cmds) ++ tail)) <= size -> buffer + size < two64 ->
  (forall i, ends_with (we_mem (envs i)) (buffer + Z.of_nat (length (pre ++ concat (bc_bytes junk <$> cmds)))) (buffer + size) last) ->
  binder_thread_write A envs buffer size (Z.of_nat (length pre)) s = run_bcs A envs 0 cmds last (Z.of_nat (length pre)) s.
Proof.
  intros Hc Hm Hs He Hl. destruct (Hm 0%nat) as (H0 & _ & _). rewrite length_app in Hs. unfold binder_thread_write. cbv zeta.
  rewrite !u64_small by (unfold is_u64; lia). eapply write_loop_run; [exact Hm|exact Hc| |rewrite length_app; lia|rewrite length_app; lia| |lia].
  - apply drop_app_length.
  - intros i. replace (length _ - length tail)%nat with (length (pre ++ concat (bc_bytes junk <$> cmds))); [apply Hl|]. rewrite !length_app. lia.
Qed.

(** C12: whatever is in memory and whatever [write_size] and [write_consumed]
    say, the loop over the write buffer ends: it goes round at most once for
    every four bytes left. *)
Theorem write_ends A envs buffer size consumed fuel s : (forall i, bounded (we_mem (envs i))) -> (0 < fuel)%nat ->
  let ptr := u64 (buffer + consumed) in let end_ := u64 (buffer + size) in
  end_ - ptr <= 4 * (Z.of_nat fuel - 1) ->
  write_loop fuel A envs 0 buffer ptr end_ consumed s = binder_thread_write A envs buffer size consumed s.
Proof.
  intros Hb Hf ptr end_ Hn. unfold binder_thread_write. cbv zeta. fold ptr end_.
  set (m := S (Z.to_nat (end_ - ptr))). destruct (decide (fuel <= m)%nat) as [Hm|Hm].
  - symmetry. apply write_loop_fuel; [done|lia|lia].
  - apply write_loop_fuel; [done|lia|lia].
Qed.


End theorems.

(** ** At a concrete input *)

#[local] Existing Instance plain_rbtree.

(** [l] at [base], and nothing else. *)
Definition memory (base : Z) (l : list Z) : user_mem :=
  UserMem (fun a => nth (Z.to_nat (a - base)) l 0) (fun a n => (base <=? a) && (a + Z.of_nat n <=? base + Z.of_nat (length l))).
Lemma memory_holds base l : 0 <= base -> base + Z.of_nat (length l) < two64 -> holds (memory base l) base l.
Proof.
  intros H0 Hl. split; [done|]. split; [done|]. intros i n Hi. unfold copy_from_user, memory. cbn [um_readable].
  rewrite (proj2 (Z.leb_le _ _)), (proj2 (Z.leb_le _ _)) by lia. simpl. f_equal. unfold user_bytes. apply list_eq. intros j. cbn [um_byte].
  rewrite list_lookup_fmap. destruct (decide (j < n)%nat) as [Hj|Hj].
  - rewrite lookup_seq_lt, lookup_take_lt, lookup_drop by done. simpl. replace (Z.to_nat _) with (i + j)%nat by lia.
    rewrite nth_lookup. destruct (lookup_lt_is_Some_2 l (i + j)) as [x ->]; [lia|done].
  - rewrite lookup_seq_ge, lookup_take_ge by lia. done.
Qed.
Lemma memory_bounded base l : 0 <= base -> base + Z.of_nat (length l) < two64 -> bounded (memory base l).
Proof. intros H0 Hl a n [Ha%Z.leb_le He%Z.leb_le]%andb_true_iff. lia. Qed.

(** Numbers nothing has. *)
Definition above (l : list nat) : nat := S (foldr max 0%nat l).
Definition new_txn (s : driver) : nat := above (map_to_list (transactions s)).*1.
Definition new_buffer (s : driver) : nat := above (flat_map (fun e : nat * binder_alloc => (map_to_list (store e.2)).*1) (map_to_list (allocs s))).

(** Thread 2 of [ev_setup]: it becomes a looper, frees a buffer that is not
    there and takes a reference that is not, then an unknown code. *)
Definition some_commands : list bc := [BcEnterLooper; BcFreeBuffer 5; BcRef true true 3].
Definition some_bytes : list Z := concat (bc_bytes 7 <$> some_commands) ++ le_write 4 0.
Definition some_writes (l : list Z) (i : nat) : write_env :=
  WriteEnv (memory 4096 l) (fun _ => None) (fun _ => None) (fun s => call_env (new_txn s) (new_buffer s)).

Lemma write_runs_commands_witness : exists s', binder_thread_write 2 (some_writes some_bytes) 4096 (Z.of_nat (length some_bytes)) 0 (now (reached ev_setup)) =
  Some ((- EINVAL, 24), s').
Proof.
  assert (H : binder_thread_write 2 (some_writes some_bytes) 4096 (Z.of_nat (length some_bytes)) 0 (now (reached ev_setup)) =
    run_bcs 2 (some_writes some_bytes) 0 some_commands (- EINVAL) 0 (now (reached ev_setup))).
  { apply (write_runs_commands 2 (some_writes some_bytes) 4096 7 [] some_commands (le_write 4 0)).
    - repeat constructor; by vm_compute.
    - intros i. apply memory_holds; by vm_compute.
    - by vm_compute.
    - by vm_compute.
    - intros i. apply ends_refused; by vm_compute. }
  rewrite H. destruct (run_bcs _ _ _ _ _ _ _) as [[r s']|] eqn:E.
  - exists s'. f_equal. f_equal. apply (f_equal (fmap fst)) in E. revert E. vm_compute. by intros [= <-].
  - exfalso. apply (f_equal (fmap fst)) in E. revert E. by vm_compute.
Defined.

Lemma write_ends_witness : write_loop 8 2 (some_writes some_bytes) 0 4096 4096 4124 0 (now (reached ev_setup)) =
  binder_thread_write 2 (some_writes some_bytes) 4096 28 0 (now (reached ev_setup)).
Proof.
  apply (write_ends 2 (some_writes some_bytes) 4096 28 0 8); [intros i; apply memory_bounded; by vm_compute|lia|by vm_compute].
Defined.



