(* ===== verification/BinderFs.v ===== *)
(** * binderfs

    [src/binder/binderfs.c] and [src/binder/idr.c]: mounts of the binder file
    system, the device nodes in them and their minor numbers, and the counter
    that keeps a device while it has an inode or a process ([binder_open],
    [binder_free_proc] of [src/binder/binder.c]). *)

From Stdlib Require Import ZArith Lia.
From stdpp Require Import base option gmap sets list.
From S2P Require Import Prelude.

(** ** Minor numbers *)

Definition EEXIST : Z := 17.
Definition E2BIG : Z := 7.
Definition BINDERFS_MAX_MINOR : Z := 1048576.
Definition BINDERFS_MAX_MINOR_CAPPED : Z := BINDERFS_MAX_MINOR - 4.
Definition BINDERFS_MAX_NAME : nat := 255.

(** What the kernel hands out: [ida_alloc_max(ida, max, gfp)] on the ids in
    use, an unused id up to [max] or a negative error; and the identity of a
    new object, given those of the live ones. *)
Class Supply := {
  ida_alloc_max : gset Z -> Z -> Z;
  new_object : gset nat -> nat;
  ida_alloc_unused (ids : gset Z) (max : Z) : 0 <= ida_alloc_max ids max -> (ida_alloc_max ids max ∉ ids) /\ ida_alloc_max ids max <= max;
  new_object_new (live : gset nat) : new_object live ∉ live
}.

(** ** Data *)

(** The bytes of a file name, without its NUL. *)
Definition fname : Type := list Z.
#[export] Instance fname_eq_dec : EqDecision fname.
Proof. unfold fname. apply _. Defined.
#[export] Instance fname_countable : Countable fname.
Proof. unfold fname. apply _. Defined.

Record binderfs_mount_opts := MountOpts { max_devices : Z; stats_global : bool }.

(** [i_private] of a device node is its device. *)
Inductive inode_kind := KDir | KFile | KChr (minor : Z) (private : option nat).
Record inode := Inode { i_sb : nat; i_kind : inode_kind }.

(** [ipc_ns] as far as it is asked for: is it the initial one?  [s_root] is
    here too. *)
Record binderfs_info := Info {
  initial_ns : bool;
  control_dentry : option nat;
  mount_opts : binderfs_mount_opts;
  device_count : Z;
  s_root : option nat;
  proc_log_dir : option nat
}.

(** [struct binder_device]: [miscdev.minor], [context.name], [ref]. *)
Record binder_device := Device { dev_minor : Z; dev_name : fname; dev_ref : Z }.

(** [binderfs_minors]; the super blocks with their [s_fs_info]; the inodes;
    the positive entries of directories; the devices; the processes with the
    device of their context. *)
Record fs := Fs {
  minors : gset Z;
  supers : gmap nat binderfs_info;
  inodes : gmap nat inode;
  dentries : gmap (nat * fname) nat;
  devices : gmap nat binder_device;
  users : gmap nat nat
}.

Definition set_minors x s := Fs x (supers s) (inodes s) (dentries s) (devices s) (users s).
Definition set_supers x s := Fs (minors s) x (inodes s) (dentries s) (devices s) (users s).
Definition set_inodes x s := Fs (minors s) (supers s) x (dentries s) (devices s) (users s).
Definition set_dentries x s := Fs (minors s) (supers s) (inodes s) x (devices s) (users s).
Definition set_devices x s := Fs (minors s) (supers s) (inodes s) (dentries s) x (users s).
Definition set_users x s := Fs (minors s) (supers s) (inodes s) (dentries s) (devices s) x.
Definition set_count x nfo := Info (initial_ns nfo) (control_dentry nfo) (mount_opts nfo) x (s_root nfo) (proc_log_dir nfo).
Definition set_opts x nfo := Info (initial_ns nfo) (control_dentry nfo) x (device_count nfo) (s_root nfo) (proc_log_dir nfo).
Definition set_control x nfo := Info (initial_ns nfo) x (mount_opts nfo) (device_count nfo) (s_root nfo) (proc_log_dir nfo).
Definition set_root x nfo := Info (initial_ns nfo) (control_dentry nfo) (mount_opts nfo) (device_count nfo) x (proc_log_dir nfo).
Definition set_log_dir x nfo := Info (initial_ns nfo) (control_dentry nfo) (mount_opts nfo) (device_count nfo) (s_root nfo) x.

Definition info_at (sb : nat) : M fs binderfs_info := let! s := get in deref (supers s !! sb).
Definition upd_info (sb : nat) (f : binderfs_info -> binderfs_info) : M fs unit :=
  let! nfo := info_at sb in modify (fun s => set_supers (<[sb := f nfo]> (supers s)) s).
Definition inode_at (i : nat) : M fs inode := let! s := get in deref (inodes s !! i).
Definition put_inode (i : nat) (x : inode) : M fs unit := modify (fun s => set_inodes (<[i := x]> (inodes s)) s).

(** What is outside binderfs during one call: the allocations of an inode, of
    a device, of a name and of a dentry, and the copy to the caller, as far as
    they succeed; the error of the lookup of a name the VFS does not allow. *)
Record fs_env := FsEnv {
  new_inode : bool;
  kz_device : bool;
  kmemdup_name : bool;
  d_alloc_name : bool;
  copy_to_caller : bool;
  lookup_error : option Z
}.

(** A NUL-terminated name in an array whose byte 255 is set to NUL. *)
Fixpoint c_string (l : list Z) : fname :=
  match l with [] => [] | c :: l => if c =? 0 then [] else c :: c_string l end.
Definition req_name (l : list Z) : fname := c_string (take BINDERFS_MAX_NAME l).

Section binderfs.
Context `{Supply}.

Definition an_inode (s : fs) : nat := new_object (dom (inodes s)).
Definition a_device (s : fs) : nat := new_object (dom (devices s)).

Definition minor_cap (nfo : binderfs_info) : Z := if initial_ns nfo then BINDERFS_MAX_MINOR else BINDERFS_MAX_MINOR_CAPPED.

(** [iput] of an inode that was never linked. *)
Definition iput_new (i : option nat) : M fs unit :=
  match i with Some i => modify (fun s => set_inodes (delete i (inodes s)) s) | None => ret tt end.

(** ** Device nodes *)

(** The number and the place in the count; the error if there is none. *)
Definition reserve_minor (sb : nat) : M fs Z :=
  upd_info sb (fun nfo => set_count (s32 (device_count nfo + 1)) nfo) ;!
  let! nfo := info_at sb in
  let! s := get in
  let minor := if device_count nfo <=? max_devices (mount_opts nfo) then ida_alloc_max (minors s) (minor_cap nfo) else - ENOSPC in
  if minor <? 0 then upd_info sb (fun nfo => set_count (s32 (device_count nfo - 1)) nfo) ;! ret minor
  else modify (set_minors ({[minor]} ∪ minors s)) ;! ret minor.

Definition give_back_minor (sb : nat) (minor : Z) : M fs unit :=
  upd_info sb (fun nfo => set_count (s32 (device_count nfo - 1)) nfo) ;!
  bug_on (minor <? 0) ;!
  modify (fun s => set_minors (minors s ∖ {[minor]}) s).

(** [err] *)
Definition create_failed (sb : nat) (minor : Z) (i : option nat) (err : Z) : M fs Z :=
  give_back_minor sb minor ;! iput_new i ;! ret err.

(** [user]: is there a caller to copy the numbers to?  [req] are the bytes of
    the name asked for. *)
Definition binderfs_binder_device_create (e : fs_env) (sb : nat) (user : bool) (req : list Z) : M fs Z :=
  let! minor := reserve_minor sb in
  if minor <? 0 then ret minor
  else
    let! d := gets a_device in
    let! i := gets an_inode in
    if negb (kz_device e) then create_failed sb minor None (- ENOMEM)
    else if negb (new_inode e) then create_failed sb minor None (- ENOMEM)
    else
      put_inode i (Inode sb (KChr minor None)) ;!
      let name := req_name req in
      if negb (kmemdup_name e) then create_failed sb minor (Some i) (- ENOMEM)
      else if user && negb (copy_to_caller e) then create_failed sb minor (Some i) (- EFAULT)
      else
        match lookup_error e with
        | Some err => create_failed sb minor (Some i) err
        | None =>
          let! nfo := info_at sb in
          let! root := deref (s_root nfo) in
          let! s := get in
          match dentries s !! (root, name) with
          | Some _ => create_failed sb minor (Some i) (- EEXIST)
          | None =>
            put_inode i (Inode sb (KChr minor (Some d))) ;!
            modify (fun s => set_devices (<[d := Device minor name 1]> (devices s)) s) ;!
            modify (fun s => set_dentries (<[(root, name) := i]> (dentries s)) s) ;!
            ret 0
          end
        end.

(** BINDER_CTL_ADD on the control node; [req] is [None] when it cannot be
    copied in. *)
Definition binder_ctl_ioctl (e : fs_env) (i : nat) (add : bool) (req : option (list Z)) : M fs Z :=
  if negb add then ret (- EINVAL)
  else
    match req with
    | None => ret (- EFAULT)
    | Some req => let! x := inode_at i in binderfs_binder_device_create e (i_sb x) true req
    end.

(** [refcount_dec_and_test], then [kfree]. *)
Definition device_put (d : nat) : M fs unit :=
  let! s := get in
  let! D := deref (devices s !! d) in
  if dev_ref D - 1 =? 0 then modify (fun s => set_devices (delete d (devices s)) s)
  else modify (fun s => set_devices (<[d := Device (dev_minor D) (dev_name D) (dev_ref D - 1)]> (devices s)) s).

Definition binderfs_evict_inode (i : nat) : M fs unit :=
  let! x := inode_at i in
  (match i_kind x with
   | KChr _ (Some d) =>
     let! s := get in
     let! D := deref (devices s !! d) in
     give_back_minor (i_sb x) (dev_minor D) ;!
     device_put d
   | _ => ret tt
   end) ;!
  modify (fun s => set_inodes (delete i (inodes s)) s).

(** The entry goes; the inode stays until nobody uses it. *)
Definition binderfs_unlink (sb dir : nat) (n : fname) : M fs Z :=
  let! nfo := info_at sb in
  let! s := get in
  let! i := deref (dentries s !! (dir, n)) in
  if decide (control_dentry nfo = Some i) then ret (- EPERM)
  else modify (fun s => set_dentries (delete (dir, n) (dentries s)) s) ;! ret 0.

(** "binder-control" *)
Definition control_name : fname := [98; 105; 110; 100; 101; 114; 45; 99; 111; 110; 116; 114; 111; 108].

Definition binderfs_binder_ctl_create (e : fs_env) (sb : nat) : M fs Z :=
  let! nfo := info_at sb in
  let! d := gets a_device in
  let! i := gets an_inode in
  if negb (kz_device e) then ret (- ENOMEM)
  else
    match control_dentry nfo with
    | Some _ => ret 0
    | None =>
      if negb (new_inode e) then ret (- ENOMEM)
      else
        let! s := get in
        let minor := ida_alloc_max (minors s) (minor_cap nfo) in
        if minor <? 0 then ret minor
        else
          modify (set_minors ({[minor]} ∪ minors s)) ;!
          if negb (d_alloc_name e) then ret (- ENOMEM)
          else
            let! root := deref (s_root nfo) in
            put_inode i (Inode sb (KChr minor (Some d))) ;!
            modify (fun s => set_devices (<[d := Device minor [] 1]> (devices s)) s) ;!
            upd_info sb (set_control (Some i)) ;!
            modify (fun s => set_dentries (<[(root, control_name) := i]> (dentries s)) s) ;!
            ret 0
    end.

(** ** Options *)

(** An option as [match_token] sees it: [max=%d] with the number, if it is
    one; [stats=%s], with whether the word could be copied and is "global";
    something else. *)
Inductive mount_opt := OptMax (n : option Z) | OptStats (dup global : bool) | OptErr.

Fixpoint parse_opts (sys_admin : bool) (data : list mount_opt) (opts : binderfs_mount_opts) : Z * binderfs_mount_opts :=
  match data with
  | [] => (0, opts)
  | OptMax (Some n) :: data =>
    if (n <? 0) || (BINDERFS_MAX_MINOR <? n) then (- EINVAL, opts)
    else parse_opts sys_admin data (MountOpts n (stats_global opts))
  | OptStats dup global :: data =>
    if negb sys_admin then (- EINVAL, opts)
    else if negb dup then (- ENOMEM, opts)
    else if negb global then (- EINVAL, opts)
    else parse_opts sys_admin data (MountOpts (max_devices opts) true)
  | _ => (- EINVAL, opts)
  end.
Definition binderfs_parse_mount_opts (sys_admin : bool) (data : list mount_opt) : Z * binderfs_mount_opts :=
  parse_opts sys_admin data (MountOpts BINDERFS_MAX_MINOR false).

Definition binderfs_remount (sb : nat) (sys_admin : bool) (data : list mount_opt) : M fs Z :=
  let! nfo := info_at sb in
  let prev_stats_mode := stats_global (mount_opts nfo) in
  let r := binderfs_parse_mount_opts sys_admin data in
  upd_info sb (set_opts (snd r)) ;!
  if negb (fst r =? 0) then ret (fst r)
  else if negb (Bool.eqb prev_stats_mode (stats_global (snd r))) then
    upd_info sb (set_opts (MountOpts (max_devices (snd r)) prev_stats_mode)) ;! ret (- EINVAL)
  else ret 0.

Definition binderfs_show_mount_opts (opts : binderfs_mount_opts) : list mount_opt :=
  (if max_devices opts <=? BINDERFS_MAX_MINOR then [OptMax (Some (max_devices opts))] else []) ++
  (if stats_global opts then [OptStats true true] else []).

(** ** Log files *)

(** A directory entry that must not exist yet, with a new inode; the error or
    the inode. *)
Definition create_entry (e : fs_env) (sb parent : nat) (n : fname) (k : inode_kind) : M fs (Z + nat) :=
  match lookup_error e with
  | Some err => ret (inl err)
  | None =>
    let! s := get in
    match dentries s !! (parent, n) with
    | Some _ => ret (inl (- EEXIST))
    | None =>
      if negb (new_inode e) then ret (inl (- ENOMEM))
      else
        let i := an_inode s in
        put_inode i (Inode sb k) ;!
        modify (fun s => set_dentries (<[(parent, n) := i]> (dentries s)) s) ;!
        ret (inr i)
    end
  end.
Definition binderfs_create_file (e : fs_env) (sb parent : nat) (n : fname) : M fs (Z + nat) := create_entry e sb parent n KFile.
Definition binderfs_create_dir (e : fs_env) (sb parent : nat) (n : fname) : M fs (Z + nat) := create_entry e sb parent n KDir.

Definition binderfs_remove_file (parent : nat) (n : fname) : M fs unit :=
  modify (fun s => set_dentries (delete (parent, n) (dentries s)) s).

Fixpoint log_files (envs : nat -> fs_env) (k : nat) (sb parent : nat) (names : list fname) : M fs Z :=
  match names with
  | [] => ret 0
  | n :: names =>
    let! r := binderfs_create_file (envs k) sb parent n in
    match r with inl err => ret err | inr _ => log_files envs (S k) sb parent names end
  end.

(** "binder_logs", its files and its directory "proc". *)
Definition logs_name : fname := [98; 105; 110; 100; 101; 114; 95; 108; 111; 103; 115].
Definition log_names : list fname :=
  [[115; 116; 97; 116; 115]; [115; 116; 97; 116; 101]; [116; 114; 97; 110; 115; 97; 99; 116; 105; 111; 110; 115];
   [116; 114; 97; 110; 115; 97; 99; 116; 105; 111; 110; 95; 108; 111; 103];
   [102; 97; 105; 108; 101; 100; 95; 116; 114; 97; 110; 115; 97; 99; 116; 105; 111; 110; 95; 108; 111; 103]].
Definition proc_name : fname := [112; 114; 111; 99].

Definition init_binder_logs (envs : nat -> fs_env) (sb : nat) : M fs Z :=
  let! nfo := info_at sb in
  let! root := deref (s_root nfo) in
  let! r := binderfs_create_dir (envs 0%nat) sb root logs_name in
  match r with
  | inl err => ret err
  | inr logs =>
    let! err := log_files envs 1 sb logs log_names in
    if negb (err =? 0) then ret err
    else
      let! r := binderfs_create_dir (envs 6%nat) sb logs proc_name in
      match r with
      | inl err => ret err
      | inr dir => upd_info sb (set_log_dir (Some dir)) ;! ret 0
      end
  end.

(** ** Mounts *)

Definition comma : Z := 44.

(** [strcspn(name, ",")] *)
Fixpoint strcspn (l : list Z) : nat :=
  match l with [] => 0 | c :: l => if (c =? 0) || (c =? comma) then 0 else S (strcspn l) end.
Definition skip_comma (l : list Z) : list Z := match l with c :: l' => if c =? comma then l' else l | [] => [] end.

(** The devices named by the module's parameter.  [fuel]: one more than its
    length. *)
Fixpoint create_devices (fuel : nat) (envs : nat -> fs_env) (k sb : nat) (param : list Z) : M fs Z :=
  match fuel with
  | O => oops
  | S fuel =>
    match strcspn param with
    | O => ret 0
    | len =>
      let! err := binderfs_binder_device_create (envs k) sb false (take len param) in
      if negb (err =? 0) then ret err else create_devices fuel envs (S k) sb (skip_comma (drop len param))
    end
  end.

(** [ns]: is the caller in the initial ipc namespace?  The super block [sb] is
    new; [info] and [root_dentry] tell whether [kzalloc] and [d_make_root]
    succeed; [param] is the module's list of devices. *)
Definition binderfs_fill_super (sb : nat) (ns sys_admin info root_dentry : bool) (data : list mount_opt) (param : list Z)
    (e e_ctl : fs_env) (e_dev e_log : nat -> fs_env) : M fs Z :=
  if negb info then ret (- ENOMEM)
  else
    let r := binderfs_parse_mount_opts sys_admin data in
    modify (fun s => set_supers (<[sb := Info ns None (snd r) 0 None None]> (supers s)) s) ;!
    if negb (fst r =? 0) then ret (fst r)
    else
      let! i := gets an_inode in
      if negb (new_inode e) then ret (- ENOMEM)
      else if negb root_dentry then ret (- ENOMEM)
      else
        put_inode i (Inode sb KDir) ;!
        upd_info sb (set_root (Some i)) ;!
        let! err := binderfs_binder_ctl_create e_ctl sb in
        if negb (err =? 0) then ret err
        else
          let! err := create_devices (S (length param)) e_dev 0 sb param in
          if negb (err =? 0) then ret err
          else if stats_global (snd r) then init_binder_logs e_log sb else ret 0.

Fixpoint evict_all (l : list nat) : M fs unit :=
  match l with [] => ret tt | i :: l => binderfs_evict_inode i ;! evict_all l end.

(** [kill_litter_super]: every entry and every inode of the super block. *)
Definition inodes_of (sb : nat) (s : fs) : list nat := (map_to_list (filter (fun e => i_sb (snd e) = sb) (inodes s))).*1.
Definition binderfs_kill_super (sb : nat) : M fs unit :=
  let! s := get in
  evict_all (inodes_of sb s) ;!
  modify (fun s' => set_dentries (filter (fun e => (snd e) ∉ inodes_of sb s) (dentries s')) s') ;!
  modify (fun s => set_supers (delete sb (supers s)) s).

(** [mount_nodev]: a super block that cannot be filled is killed. *)
Definition binderfs_mount (ns sys_admin info root_dentry : bool) (data : list mount_opt) (param : list Z)
    (e e_ctl : fs_env) (e_dev e_log : nat -> fs_env) : M fs Z :=
  let! sb := gets (fun s => new_object (dom (supers s))) in
  let! r := binderfs_fill_super sb ns sys_admin info root_dentry data param e e_ctl e_dev e_log in
  if r =? 0 then ret 0 else binderfs_kill_super sb ;! ret r.

(** The device names [init_binderfs] accepts. *)
Fixpoint names_fit (fuel : nat) (param : list Z) : bool :=
  match fuel with
  | O => true
  | S fuel =>
    match strcspn param with
    | O => true
    | len => (len <=? BINDERFS_MAX_NAME)%nat && names_fit fuel (skip_comma (drop len param))
    end
  end.
Definition init_binderfs (param : list Z) (alloc_chrdev register_fs : Z) : Z * list bool :=
  if negb (names_fit (S (length param)) param) then (- E2BIG, [false; false])
  else if negb (alloc_chrdev =? 0) then (alloc_chrdev, [false; false])
  else if negb (register_fs =? 0) then (register_fs, [false; false])
  else (0, [true; true]).

(** ** Processes *)

(** [binder_open] on node [i], for a new process; the end of a process in
    [binder_free_proc]. *)
Definition device_open (i : nat) : M fs unit :=
  let! x := inode_at i in
  match i_kind x with
  | KChr _ (Some d) =>
    let! s := get in
    let! D := deref (devices s !! d) in
    modify (fun s => set_devices (<[d := Device (dev_minor D) (dev_name D) (dev_ref D + 1)]> (devices s)) s) ;!
    modify (fun s => set_users (<[new_object (dom (users s)) := d]> (users s)) s)
  | _ => oops
  end.
Definition device_close (p : nat) : M fs unit :=
  let! s := get in
  let! d := deref (users s !! p) in
  device_put d ;!
  modify (fun s => set_users (delete p (users s)) s).
End binderfs.

(** ** Ids on old kernels *)

(** [ida_alloc_range] of [idr.c], before Linux 4.19, on the kernel's
    [ida_get_new_above]: its error (which the code drops) or the new id, and
    [ida_pre_get].  [id] is 0 until it is set. *)
Section idr.
Context (ida_get_new_above : gset Z -> Z -> Z + Z) (ida_pre_get : bool).

Definition ida_try (ids : gset Z) (min max : Z) : Z * gset Z :=
  match ida_get_new_above ids min with
  | inl _ => if max <? 0 then (- ENOSPC, ids ∖ {[0]}) else (0, ids)
  | inr id => if max <? id then (- ENOSPC, ids) else (id, {[id]} ∪ ids)
  end.

Fixpoint ida_again (fuel : nat) (ids : gset Z) (min max : Z) : option (Z * gset Z) :=
  match fuel with
  | O => None
  | S fuel =>
    let r := ida_try ids min max in
    if fst r =? - EAGAIN then if ida_pre_get then ida_again fuel (snd r) min max else Some (- ENOMEM, snd r) else Some r
  end.

Definition ida_alloc_range (fuel : nat) (ids : gset Z) (min max : Z) : option (Z * gset Z) :=
  if s32 min <? 0 then Some (- ENOSPC, ids)
  else ida_again fuel ids min (if s32 max <? 0 then 2147483647 else s32 max).

Definition ida_free (ids : gset Z) (id : Z) : option (gset Z) := if s32 id <? 0 then None else Some (ids ∖ {[id]}).
End idr.
