(* ===== verification/BinderFsFacts.v ===== *)
(** * binderfs: the invariant

    [fs_inv] ties the nodes of all mounts to the reserved minors, to the
    devices and to the counts of the mounts; every call keeps it. *)

From Stdlib Require Import ZArith Lia.
From stdpp Require Import base option gmap sets list.
From S2P Require Import Prelude BinderFs.

(** ** Counting the entries of a map *)

Section counting.
Context {K A : Type} `{Countable K} (P : K * A -> Prop) `{forall e, Decision (P e)}.
Implicit Type m : gmap K A.

Lemma count_insert m i x : m !! i = None -> size (filter P (<[i := x]> m)) = (size (filter P m) + if decide (P (i, x)) then 1 else 0)%nat.
Proof.
  intros Hi. destruct (decide (P (i, x))) as [HP|HP].
  - rewrite map_filter_insert_True by done. rewrite map_size_insert_None by (apply map_lookup_filter_None; by left). lia.
  - rewrite map_filter_insert_False by done. rewrite delete_id by done. lia.
Qed.

Lemma count_delete m i x : m !! i = Some x -> size (filter P m) = (size (filter P (delete i m)) + if decide (P (i, x)) then 1 else 0)%nat.
Proof. intros Hi. rewrite <- (insert_delete_id m i x Hi) at 1. apply count_insert, lookup_delete_eq. Qed.

Lemma count_none m : (forall i x, m !! i = Some x -> ~ P (i, x)) -> size (filter P m) = 0%nat.
Proof.
  intros Hm. apply map_size_empty_iff, map_empty. intros i. apply map_lookup_filter_None. destruct (m !! i) as [x|] eqn:Hi; [|by left].
  right. intros y [= <-]. by apply Hm.
Qed.

Lemma count_zero m i x : size (filter P m) = 0%nat -> m !! i = Some x -> ~ P (i, x).
Proof.
  intros Hs%map_size_empty_iff Hi HP. assert (Hf : filter P m !! i = Some x) by by apply map_lookup_filter_Some_2. by rewrite Hs in Hf.
Qed.
End counting.

(** ** The invariant *)

Definition inode_minor (x : inode) : option Z := match i_kind x with KChr m _ => Some m | _ => None end.
Definition inode_device (x : inode) : option nat := match i_kind x with KChr _ o => o | _ => None end.

(** The inodes and the processes that use a device. *)
Definition inode_holders (d : nat) (t : gmap nat inode) : nat := size (filter (fun e => inode_device (snd e) = Some d) t).
Definition user_holders (d : nat) (t : gmap nat nat) : nat := size (filter (fun e => snd e = d) t).
Definition holders (d : nat) (s : fs) : Z := Z.of_nat (inode_holders d (inodes s) + user_holders d (users s)).

(** The device nodes of a mount but its control node. *)
Definition counted (sb : nat) (c : option nat) (e : nat * inode) : Prop := i_sb (snd e) = sb /\ inode_minor (snd e) <> None /\ c <> Some (fst e).
#[export] Instance counted_dec sb c e : Decision (counted sb c e).
Proof. unfold counted. apply _. Defined.
Definition node_count (sb : nat) (c : option nat) (t : gmap nat inode) : nat := size (filter (counted sb c) t).

Record mount_ok (s : fs) (sb : nat) (nfo : binderfs_info) : Prop := {
  mo_root : is_Some (s_root nfo);
  mo_max : 0 <= max_devices (mount_opts nfo) <= BINDERFS_MAX_MINOR;
  mo_count : device_count nfo = Z.of_nat (node_count sb (control_dentry nfo) (inodes s));
  mo_bound : device_count nfo <= BINDERFS_MAX_MINOR;
  mo_control c : control_dentry nfo = Some c ->
    exists k x, dentries s !! k = Some c /\ inodes s !! c = Some x /\ i_sb x = sb /\ inode_minor x <> None
}.

(** [dying]: the super block that is being filled or killed. *)
Record fs_inv (dying : option nat) (s : fs) : Prop := {
  fi_sb i x : inodes s !! i = Some x -> is_Some (supers s !! i_sb x);
  fi_minor i x m : inodes s !! i = Some x -> inode_minor x = Some m ->
    m ∈ minors s /\ exists nfo, supers s !! i_sb x = Some nfo /\ 0 <= m <= minor_cap nfo;
  fi_device i x m : inodes s !! i = Some x -> inode_minor x = Some m ->
    exists d D, inode_device x = Some d /\ devices s !! d = Some D /\ dev_minor D = m;
  fi_distinct i j x y m : inodes s !! i = Some x -> inodes s !! j = Some y -> inode_minor x = Some m -> inode_minor y = Some m -> i = j;
  fi_user p d : users s !! p = Some d -> is_Some (devices s !! d);
  fi_ref d D : devices s !! d = Some D -> dev_ref D = holders d s /\ 0 < dev_ref D;
  fi_mount sb nfo : supers s !! sb = Some nfo -> dying <> Some sb -> mount_ok s sb nfo
}.

Lemma inode_device_minor x d : inode_device x = Some d -> exists m, inode_minor x = Some m.
Proof. unfold inode_device, inode_minor. destruct (i_kind x); [done..|eauto]. Qed.

Lemma fs_inv_dying s sb : fs_inv None s -> fs_inv (Some sb) s.
Proof. intros Hi. split; [apply Hi..|]. intros sb' nfo Hs _. by apply Hi. Qed.

(** A held device is there. *)
Lemma holder_device o s d : fs_inv o s -> 0 < holders d s -> is_Some (devices s !! d).
Proof.
  intros Hi Hh. unfold holders in Hh.
  destruct (decide (inode_holders d (inodes s) = 0%nat)) as [E1|E1].
  - assert (E2 : user_holders d (users s) <> 0%nat) by lia.
    apply map_size_ne_0_lookup_1 in E2 as (p & d' & [H1 H2]%map_lookup_filter_Some). cbn in H2. subst d'. by apply (fi_user _ _ Hi p).
  - apply map_size_ne_0_lookup_1 in E1 as (i & x & [H1 H2]%map_lookup_filter_Some). cbn in H2.
    destruct (inode_device_minor x d H2) as [m Hm]. destruct (fi_device _ _ Hi i x m H1 Hm) as (d' & D & Hd & HD & _).
    rewrite H2 in Hd. injection Hd as <-. eauto.
Qed.

Lemma holders_0 o s d : fs_inv o s -> devices s !! d = None -> holders d s = 0.
Proof.
  intros Hi Hd. destruct (decide (holders d s = 0)) as [|Hne]; [done|].
  destruct (holder_device o s d Hi) as [D HD]; [unfold holders in *; lia|]. by rewrite Hd in HD.
Qed.

(** ** A mount seen from a change elsewhere *)

(** Between two states a mount keeps its nodes and the entries of its own
    inodes. *)
Lemma mount_ok_frame s s' sb nfo : mount_ok s sb nfo ->
  node_count sb (control_dentry nfo) (inodes s') = node_count sb (control_dentry nfo) (inodes s) ->
  (forall c x, control_dentry nfo = Some c -> inodes s !! c = Some x -> i_sb x = sb -> inode_minor x <> None -> inodes s' !! c = Some x) ->
  (forall k c, control_dentry nfo = Some c -> dentries s !! k = Some c -> dentries s' !! k = Some c) ->
  mount_ok s' sb nfo.
Proof.
  intros Hm Hc Hx Hk. split; [apply Hm|apply Hm|rewrite Hc; apply Hm|apply Hm|].
  intros c Hcd. destruct (mo_control _ _ _ Hm c Hcd) as (k & x & H1 & H2 & H3 & H4). exists k, x. split_and!; auto.
Qed.

(** ** New nodes *)

Definition add_node (i d : nat) (m : Z) (nm : fname) (k : nat * fname) (sb : nat) (nfo : binderfs_info) (s : fs) : fs :=
  Fs ({[m]} ∪ minors s) (<[sb := nfo]> (supers s)) (<[i := Inode sb (KChr m (Some d))]> (inodes s))
     (<[k := i]> (dentries s)) (<[d := Device m nm 1]> (devices s)) (users s).

Lemma add_node_frame i d m nm k sb nfo s sb' nfo' : inodes s !! i = None -> dentries s !! k = None -> sb' <> sb ->
  mount_ok s sb' nfo' -> mount_ok (add_node i d m nm k sb nfo s) sb' nfo'.
Proof.
  intros Hi Hk Hsb Hm. apply (mount_ok_frame s); [done|..]; cbn [add_node inodes dentries].
  - unfold node_count. rewrite count_insert by done. rewrite decide_False; [lia|]. intros [Hq _]. cbn in Hq. congruence.
  - intros c x _ Hc _ _. by rewrite lookup_insert_ne by congruence.
  - intros k' c _ Hc. by rewrite lookup_insert_ne by congruence.
Qed.

(** The mount the node is added to: one more in the count, or its control
    node. *)
Definition one_more (i : nat) (nfo nfo' : binderfs_info) : Prop :=
  s_root nfo' = s_root nfo /\ mount_opts nfo' = mount_opts nfo /\ initial_ns nfo' = initial_ns nfo /\
  (control_dentry nfo' = control_dentry nfo /\ device_count nfo' = device_count nfo + 1 /\ device_count nfo' <= BINDERFS_MAX_MINOR \/
   control_dentry nfo = None /\ control_dentry nfo' = Some i /\ device_count nfo' = device_count nfo).

Lemma add_node_mount i d m nm k sb nfo nfo' s : inodes s !! i = None -> dentries s !! k = None -> one_more i nfo nfo' ->
  mount_ok s sb nfo -> mount_ok (add_node i d m nm k sb nfo' s) sb nfo'.
Proof.
  intros Hi Hk (Hr & Ho & _ & Hone) Hm.
  destruct Hone as [(Hc & Hn & Hb)|(Hc & Hc' & Hn)].
  - split; [rewrite Hr; apply Hm|rewrite Ho; apply Hm| |done|]; cbn [add_node inodes dentries].
    + rewrite Hn, Hc, (mo_count _ _ _ Hm). unfold node_count. rewrite count_insert by done.
      rewrite decide_True; [lia|]. split_and!; [done|done|]. cbn. intros Hci.
      destruct (mo_control _ _ _ Hm i Hci) as (? & x & _ & Hx & _). congruence.
    + rewrite Hc. intros c Hcd. destruct (mo_control _ _ _ Hm c Hcd) as (k' & x & H1 & H2 & H3 & H4).
      exists k', x. rewrite !lookup_insert_ne by congruence. done.
  - split; [rewrite Hr; apply Hm|rewrite Ho; apply Hm| |rewrite Hn; apply Hm|]; cbn [add_node inodes dentries].
    + rewrite Hn, Hc', (mo_count _ _ _ Hm), Hc. unfold node_count. rewrite count_insert by done.
      rewrite decide_False by (intros (_ & _ & Hq); done). rewrite Nat.add_0_r. f_equal. f_equal. apply map_filter_ext.
      intros j x Hx. unfold counted. cbn. split; intros (? & ? & ?); split_and!; try done. congruence.
    + rewrite Hc'. intros c [= <-]. eexists _, _. rewrite !lookup_insert_eq. split_and!; [done|done|done|]. done.
Qed.

Lemma holders_add i d m nm k sb nfo s e : inodes s !! i = None ->
  holders e (add_node i d m nm k sb nfo s) = holders e s + if decide (e = d) then 1 else 0.
Proof.
  intros Hi. unfold holders, inode_holders. cbn [add_node inodes users]. rewrite count_insert by done. cbn [snd inode_device i_kind].
  destruct (decide (e = d)) as [->|Hne]; [rewrite decide_True by done; lia|]. rewrite decide_False by congruence. lia.
Qed.

Lemma add_node_inv o i d m nm k sb nfo nfo' s : fs_inv o s -> supers s !! sb = Some nfo -> inodes s !! i = None -> devices s !! d = None ->
  dentries s !! k = None -> m ∉ minors s -> 0 <= m <= minor_cap nfo -> one_more i nfo nfo' -> fs_inv o (add_node i d m nm k sb nfo' s).
Proof.
  intros Hi Hsb Hni Hnd Hk Hm Hcap Hone.
  assert (Hcap' : minor_cap nfo' = minor_cap nfo) by (unfold minor_cap; by destruct Hone as (_ & _ & -> & _)).
  split; cbn [add_node inodes minors supers devices users].
  - intros j x [[<- <-]|[_ Hj]]%lookup_insert_Some; [cbn; rewrite lookup_insert_eq; eauto|].
    destruct (decide (i_sb x = sb)) as [->|Hne]; [rewrite lookup_insert_eq; eauto|]. rewrite lookup_insert_ne by congruence. by apply (fi_sb _ _ Hi j).
  - intros j x m' [[<- <-]|[_ Hj]]%lookup_insert_Some Hx.
    + cbn in Hx. injection Hx as <-. split; [by apply elem_of_union_l, elem_of_singleton|]. exists nfo'. cbn. rewrite lookup_insert_eq, Hcap'. done.
    + destruct (fi_minor _ _ Hi j x m' Hj Hx) as [H1 (nf & H2 & H3)]. split; [by apply elem_of_union_r|].
      destruct (decide (i_sb x = sb)) as [E|Hne]; [|exists nf; by rewrite lookup_insert_ne].
      exists nfo'. rewrite E, lookup_insert_eq, Hcap'. rewrite E in H2. assert (nf = nfo) as -> by congruence. done.
  - intros j x m' [[<- <-]|[_ Hj]]%lookup_insert_Some Hx.
    + cbn in Hx. injection Hx as <-. exists d, (Device m nm 1). rewrite lookup_insert_eq. done.
    + destruct (fi_device _ _ Hi j x m' Hj Hx) as (d' & D & H1 & H2 & H3). exists d', D. rewrite lookup_insert_ne by congruence. done.
  - intros j1 j2 x y m' [[<- <-]|[_ Hx]]%lookup_insert_Some [[<- <-]|[_ Hy]]%lookup_insert_Some H1 H2; [done|..].
    + cbn in H1. injection H1 as <-. by destruct (fi_minor _ _ Hi j2 y m Hy H2) as [? _].
    + cbn in H2. injection H2 as <-. by destruct (fi_minor _ _ Hi j1 x m Hx H1) as [? _].
    + by apply (fi_distinct _ _ Hi j1 j2 x y m').
  - intros p d' Hp. destruct (decide (d' = d)) as [->|]; [rewrite lookup_insert_eq; eauto|]. rewrite lookup_insert_ne by congruence. by apply (fi_user _ _ Hi p).
  - intros e D He. fold (add_node i d m nm k sb nfo' s). rewrite holders_add by done. apply lookup_insert_Some in He as [[<- <-]|[Hne He]].
    + rewrite (holders_0 o) by done. by rewrite decide_True.
    + rewrite decide_False by done. destruct (fi_ref _ _ Hi e D He). lia.
  - intros sb' nf [[<- <-]|[Hne Hs]]%lookup_insert_Some Hd; fold (add_node i d m nm k sb nfo' s).
    + eapply add_node_mount; [done..|]. by apply Hi.
    + apply add_node_frame; [done..|]. by apply Hi.
Qed.

(** ** A use of a device ends *)

Definition put_devices (d : nat) (D : binder_device) (t : gmap nat binder_device) : gmap nat binder_device :=
  if dev_ref D - 1 =? 0 then delete d t else <[d := Device (dev_minor D) (dev_name D) (dev_ref D - 1)]> t.

Lemma device_put_run d D s : devices s !! d = Some D -> device_put d s = Some (tt, set_devices (put_devices d D (devices s)) s).
Proof. intros Hd. unfold device_put, put_devices. cbn. unfold bind at 1. cbn. unfold bind. rewrite Hd. cbn. by destruct (dev_ref D - 1 =? 0). Qed.

Section put.
Context (o : option nat) (s : fs) (d : nat) (D : binder_device) (h : nat -> Z).
Context (Hi : fs_inv o s) (Hd : devices s !! d = Some D) (Hh : forall e, h e = holders e s - if decide (e = d) then 1 else 0).

Lemma put_ref e E : put_devices d D (devices s) !! e = Some E -> dev_ref E = h e /\ 0 < dev_ref E.
Proof.
  destruct (fi_ref _ _ Hi d D Hd) as [H1 H2]. unfold put_devices. destruct (dev_ref D - 1 =? 0) eqn:Ez; zbool.
  - intros [Hne He]%lookup_delete_Some. destruct (fi_ref _ _ Hi e E He). rewrite Hh, decide_False by congruence. lia.
  - intros [[<- <-]|[Hne He]]%lookup_insert_Some; cbn.
    + rewrite Hh, decide_True by done. lia.
    + destruct (fi_ref _ _ Hi e E He). rewrite Hh, decide_False by congruence. lia.
Qed.

Lemma put_held e : 0 < h e -> exists E E', devices s !! e = Some E /\ put_devices d D (devices s) !! e = Some E' /\ dev_minor E' = dev_minor E.
Proof.
  intros He. destruct (fi_ref _ _ Hi d D Hd) as [H1 H2].
  assert (Hpos : 0 < holders e s) by (rewrite Hh in He; case_decide; lia).
  destruct (holder_device o s e Hi Hpos) as [E HE]. exists E. unfold put_devices. destruct (dev_ref D - 1 =? 0) eqn:Ez; zbool.
  - destruct (decide (e = d)) as [->|Hne]; [rewrite Hh, decide_True in He by done; lia|]. exists E. by rewrite lookup_delete_ne.
  - destruct (decide (e = d)) as [->|Hne]; [|exists E; by rewrite lookup_insert_ne].
    eexists. rewrite lookup_insert_eq. split_and!; [done|done|]. rewrite Hd in HE. by injection HE as ->.
Qed.
End put.

Lemma holders_inode e i x s : inodes s !! i = Some x -> inode_device x = Some e -> 0 < holders e s.
Proof.
  intros Hx Hd. unfold holders. assert (inode_holders e (inodes s) <> 0%nat); [|lia]. intros Hz. by apply (count_zero _ _ i x Hz Hx).
Qed.

Lemma holders_user e p s : users s !! p = Some e -> 0 < holders e s.
Proof. intros Hp. unfold holders. assert (user_holders e (users s) <> 0%nat); [|lia]. intros Hz. by apply (count_zero _ _ p e Hz Hp). Qed.

(** ** The last use of an inode ends *)

Definition drop_node (i : nat) (x : inode) (s : fs) : fs :=
  match inode_minor x, inode_device x with
  | Some m, Some d =>
    match supers s !! i_sb x, devices s !! d with
    | Some nfo, Some D =>
      Fs (minors s ∖ {[m]}) (<[i_sb x := set_count (s32 (device_count nfo - 1)) nfo]> (supers s)) (delete i (inodes s))
         (dentries s) (put_devices d D (devices s)) (users s)
    | _, _ => s
    end
  | _, _ => set_inodes (delete i (inodes s)) s
  end.

Lemma give_back_run sb m nfo s : supers s !! sb = Some nfo -> 0 <= m ->
  give_back_minor sb m s = Some (tt, set_minors (minors s ∖ {[m]}) (set_supers (<[sb := set_count (s32 (device_count nfo - 1)) nfo]> (supers s)) s)).
Proof.
  intros Hs Hm. unfold give_back_minor, upd_info, info_at. cbv [bind get]. rewrite Hs. cbn.
  unfold bug_on. assert (Hb : (m <? 0) = false) by (apply Z.ltb_ge; lia). by rewrite Hb.
Qed.

Lemma evict_run o i x s : fs_inv o s -> inodes s !! i = Some x -> binderfs_evict_inode i s = Some (tt, drop_node i x s).
Proof.
  intros Hi Hx. unfold binderfs_evict_inode, drop_node, inode_at. erewrite bind_eq by (unfold bind; cbn; by rewrite Hx).
  destruct (i_kind x) as [| |m od] eqn:Ek; [unfold inode_minor; by rewrite Ek..|].
  assert (Hm : inode_minor x = Some m) by (unfold inode_minor; by rewrite Ek).
  destruct (fi_device _ _ Hi i x m Hx Hm) as (d & D & Hd & HD & HDm).
  destruct (fi_minor _ _ Hi i x m Hx Hm) as [_ (nfo & Hs & Hcap)].
  assert (Hod : od = Some d) by (unfold inode_device in Hd; by rewrite Ek in Hd). rewrite Hm, Hd, Hs, HD. subst od.
  erewrite bind_eq; [|erewrite bind_eq by reflexivity; erewrite bind_eq by (by rewrite HD); rewrite HDm;
    erewrite bind_eq by (apply give_back_run; [done|lia]); by apply device_put_run].
  done.
Qed.

Lemma inode_holders_delete e i x t : t !! i = Some x ->
  Z.of_nat (inode_holders e (delete i t)) = Z.of_nat (inode_holders e t) - if decide (inode_device x = Some e) then 1 else 0.
Proof. intros Hx. unfold inode_holders. rewrite (count_delete _ t i x Hx). cbn [snd]. case_decide; lia. Qed.

Lemma node_count_delete sb c i x t : t !! i = Some x ->
  Z.of_nat (node_count sb c (delete i t)) = Z.of_nat (node_count sb c t) - if decide (counted sb c (i, x)) then 1 else 0.
Proof. intros Hx. unfold node_count. rewrite (count_delete _ t i x Hx). case_decide; lia. Qed.

(** An inode that is no device node goes. *)
Lemma drop_plain_inv o i x s : fs_inv o s -> inodes s !! i = Some x -> inode_minor x = None -> fs_inv o (set_inodes (delete i (inodes s)) s).
Proof.
  intros Hi Hx Hm.
  assert (Hd : forall e, inode_device x <> Some e) by (intros e He; destruct (inode_device_minor _ _ He); congruence).
  split; cbn [set_inodes inodes minors supers devices users].
  - intros j y [_ Hj]%lookup_delete_Some. by apply (fi_sb _ _ Hi j).
  - intros j y m [_ Hj]%lookup_delete_Some. by apply (fi_minor _ _ Hi j).
  - intros j y m [_ Hj]%lookup_delete_Some. by apply (fi_device _ _ Hi j).
  - intros j1 j2 y z m [_ H1]%lookup_delete_Some [_ H2]%lookup_delete_Some. by apply (fi_distinct _ _ Hi j1 j2).
  - apply Hi.
  - intros e E He. destruct (fi_ref _ _ Hi e E He) as [H1 H2]. split; [|done]. unfold holders in *. cbn [set_inodes inodes users].
    rewrite Nat2Z.inj_add, (inode_holders_delete e i x) by done. rewrite decide_False by done. lia.
  - intros sb nfo Hs Ho. apply (mount_ok_frame s); [by apply Hi|..]; cbn [set_inodes inodes dentries].
    + apply Nat2Z.inj. rewrite (node_count_delete _ _ i x) by done. rewrite decide_False; [lia|]. intros (_ & Hq & _). done.
    + intros c y _ Hc _ Hy. rewrite lookup_delete_ne; [done|]. intros ->. congruence.
    + done.
Qed.

Lemma s32_count x : 0 <= x <= BINDERFS_MAX_MINOR + 1 -> s32 x = x.
Proof.
  unfold BINDERFS_MAX_MINOR. intros Hx. unfold s32. rewrite u32_small by (unfold is_u32, two32; lia).
  by destruct (Z.ltb_spec x 2147483648); [|lia].
Qed.

(** The counts of the mounts when node [i] goes. *)
Lemma drop_mount i x nfo s s' : mount_ok s (i_sb x) nfo -> inodes s !! i = Some x -> inode_minor x <> None -> control_dentry nfo <> Some i ->
  inodes s' = delete i (inodes s) -> dentries s' = dentries s -> mount_ok s' (i_sb x) (set_count (s32 (device_count nfo - 1)) nfo).
Proof.
  intros Hm Hx Hmin Hc Ei Ed.
  assert (Hcnt : Z.of_nat (node_count (i_sb x) (control_dentry nfo) (inodes s')) = device_count nfo - 1).
  { rewrite Ei, (node_count_delete _ _ i x) by done. rewrite decide_True by done. rewrite (mo_count _ _ _ Hm). done. }
  assert (Hs : s32 (device_count nfo - 1) = device_count nfo - 1) by (apply s32_count; pose proof (mo_bound _ _ _ Hm); lia).
  rewrite Hs. split; cbn; [apply Hm|apply Hm|done|pose proof (mo_bound _ _ _ Hm); lia|].
  intros c Hcd. destruct (mo_control _ _ _ Hm c Hcd) as (k & y & H1 & H2 & H3 & H4). exists k, y.
  rewrite Ei, Ed, lookup_delete_ne by congruence. done.
Qed.

Lemma holders_drop i x d s s' e : inodes s !! i = Some x -> inode_device x = Some d -> inodes s' = delete i (inodes s) -> users s' = users s ->
  holders e s' = holders e s - if decide (e = d) then 1 else 0.
Proof.
  intros Hx Hd Ei Eu. unfold holders. rewrite Ei, Eu, !Nat2Z.inj_add, (inode_holders_delete e i x) by done.
  destruct (decide (e = d)) as [->|Hne]; [rewrite decide_True by done|rewrite decide_False by congruence]; lia.
Qed.

Lemma drop_node_inv o i x s : fs_inv o s -> inodes s !! i = Some x ->
  (forall nfo, supers s !! i_sb x = Some nfo -> o <> Some (i_sb x) -> control_dentry nfo <> Some i) -> fs_inv o (drop_node i x s).
Proof.
  intros Hi Hx Hc. unfold drop_node. destruct (inode_minor x) as [m|] eqn:Hm; [|by apply (drop_plain_inv _ _ x)].
  destruct (fi_device _ _ Hi i x m Hx Hm) as (d & D & Hd & HD & HDm).
  destruct (fi_minor _ _ Hi i x m Hx Hm) as [_ (nfo & Hs & Hcap)]. rewrite Hd, Hs, HD.
  set (s' := Fs _ _ _ _ _ _).
  assert (Hh : forall e, holders e s' = holders e s - if decide (e = d) then 1 else 0) by (intros e; by apply (holders_drop i x)).
  assert (Hsup : forall sb nf, supers s !! sb = Some nf -> exists nf', supers s' !! sb = Some nf' /\ minor_cap nf' = minor_cap nf).
  { intros sb nf Hnf. unfold s'. cbn [supers]. destruct (decide (sb = i_sb x)) as [->|]; [|exists nf; by rewrite lookup_insert_ne].
    rewrite lookup_insert_eq. eexists. split; [done|]. by assert (nf = nfo) as -> by congruence. }
  split; subst s'; cbn [inodes minors supers devices users].
  - intros j y [_ Hj]%lookup_delete_Some. destruct (fi_sb _ _ Hi j y Hj) as [nf Hnf]. destruct (Hsup _ _ Hnf) as (nf' & ? & _). eauto.
  - intros j y m' [Hne Hj]%lookup_delete_Some Hy. destruct (fi_minor _ _ Hi j y m' Hj Hy) as [H1 (nf & H2 & H3)]. split.
    + apply elem_of_difference. split; [done|]. intros ->%elem_of_singleton. by destruct (fi_distinct _ _ Hi i j x y m Hx Hj Hm Hy).
    + destruct (Hsup _ _ H2) as (nf' & ? & Hcap'). exists nf'. rewrite Hcap'. done.
  - intros j y m' [Hne Hj]%lookup_delete_Some Hy. destruct (fi_device _ _ Hi j y m' Hj Hy) as (d' & E & H1 & H2 & H3).
    destruct (put_held o s d D _ Hi HD Hh d') as (E0 & E' & H4 & H5 & H6); [apply (holders_inode _ j y); [by apply lookup_delete_Some|done]|].
    exists d', E'. split_and!; [done|done|]. congruence.
  - intros j1 j2 y z m' [_ H1]%lookup_delete_Some [_ H2]%lookup_delete_Some. by apply (fi_distinct _ _ Hi j1 j2).
  - intros p d' Hp. destruct (put_held o s d D _ Hi HD Hh d') as (E0 & E' & _ & H5 & _); [by apply (holders_user _ p)|]. eauto.
  - by apply (put_ref o s d D).
  - intros sb nf Hnf Ho. apply lookup_insert_Some in Hnf as [[<- <-]|[Hne Hnf]].
    + apply (drop_mount i x nfo s); [by apply Hi|done| |by apply Hc|done|done]. by rewrite Hm.
    + apply (mount_ok_frame s); [by apply Hi|..]; cbn [inodes dentries].
      * apply Nat2Z.inj. rewrite (node_count_delete _ _ i x) by done. rewrite decide_False; [lia|]. intros (Hq & _). cbn in Hq. congruence.
      * intros c y _ Hcy Hy _. rewrite lookup_delete_ne; [done|]. congruence.
      * done.
Qed.

(** ** Directories, files and entries *)

Definition add_plain (i : nat) (x : inode) (k : nat * fname) (s : fs) : fs :=
  set_dentries (<[k := i]> (dentries s)) (set_inodes (<[i := x]> (inodes s)) s).

Lemma node_count_insert_other sb c i x t : t !! i = None -> ~ counted sb c (i, x) -> node_count sb c (<[i := x]> t) = node_count sb c t.
Proof. intros Hi Hx. unfold node_count. rewrite count_insert by done. rewrite decide_False by done. lia. Qed.

Lemma inode_holders_insert_plain e i x t : t !! i = None -> inode_minor x = None -> inode_holders e (<[i := x]> t) = inode_holders e t.
Proof.
  intros Hi Hx. unfold inode_holders. rewrite count_insert by done. rewrite decide_False; [lia|]. cbn [snd].
  intros He. destruct (inode_device_minor _ _ He). congruence.
Qed.

Lemma add_plain_inv o i x k s : fs_inv o s -> inodes s !! i = None -> inode_minor x = None -> is_Some (supers s !! i_sb x) ->
  dentries s !! k = None -> fs_inv o (add_plain i x k s).
Proof.
  intros Hi Hni Hx Hs Hk.
  split; cbn [add_plain set_dentries set_inodes inodes minors supers devices users].
  - intros j y [[<- <-]|[_ Hj]]%lookup_insert_Some; [done|]. by apply (fi_sb _ _ Hi j).
  - intros j y m [[<- <-]|[_ Hj]]%lookup_insert_Some; [congruence|]. by apply (fi_minor _ _ Hi j).
  - intros j y m [[<- <-]|[_ Hj]]%lookup_insert_Some; [congruence|]. by apply (fi_device _ _ Hi j).
  - intros j1 j2 y z m [[<- <-]|[_ H1]]%lookup_insert_Some [[<- <-]|[_ H2]]%lookup_insert_Some; [congruence..|]. by apply (fi_distinct _ _ Hi j1 j2).
  - apply Hi.
  - intros e E He. destruct (fi_ref _ _ Hi e E He) as [H1 H2]. split; [|done]. rewrite H1. unfold holders. cbn [add_plain set_inodes set_dentries inodes users].
    by rewrite inode_holders_insert_plain.
  - intros sb nfo Hsb Ho. apply (mount_ok_frame s); [by apply Hi|..]; cbn [add_plain set_inodes set_dentries inodes dentries].
    + apply node_count_insert_other; [done|]. intros (_ & Hq & _). done.
    + intros c y _ Hc _ _. by rewrite lookup_insert_ne by congruence.
    + intros k' c _ Hc. by rewrite lookup_insert_ne by congruence.
Qed.

Lemma unlink_inv o k s : fs_inv o s ->
  (forall sb nfo c, supers s !! sb = Some nfo -> o <> Some sb -> control_dentry nfo = Some c -> dentries s !! k <> Some c) ->
  fs_inv o (set_dentries (delete k (dentries s)) s).
Proof.
  intros Hi Hk. split; [apply Hi..|]. intros sb nfo Hsb Ho. apply (mount_ok_frame s); [by apply Hi|done|done|].
  intros k' c Hc Hk'. cbn. rewrite lookup_delete_ne; [done|]. intros ->. by apply (Hk sb nfo c).
Qed.

(** ** Mounts *)

Definition same_mount (nfo nfo' : binderfs_info) : Prop :=
  initial_ns nfo' = initial_ns nfo /\ s_root nfo' = s_root nfo /\ control_dentry nfo' = control_dentry nfo /\ device_count nfo' = device_count nfo.

Lemma mount_change_inv o sb nfo nfo' s : fs_inv o s -> supers s !! sb = Some nfo -> same_mount nfo nfo' ->
  0 <= max_devices (mount_opts nfo') <= BINDERFS_MAX_MINOR -> fs_inv o (set_supers (<[sb := nfo']> (supers s)) s).
Proof.
  intros Hi Hs (Hns & Hr & Hc & Hn) Hmax. split; cbn [set_supers inodes minors supers devices users]; [| |apply Hi|apply Hi|apply Hi|apply Hi|].
  - intros j x Hj. destruct (decide (i_sb x = sb)) as [->|]; [rewrite lookup_insert_eq; eauto|]. rewrite lookup_insert_ne by done. by apply (fi_sb _ _ Hi j).
  - intros j x m Hj Hx. destruct (fi_minor _ _ Hi j x m Hj Hx) as [H1 (nf & H2 & H3)]. split; [done|].
    destruct (decide (sb = i_sb x)) as [E|]; [|exists nf; by rewrite lookup_insert_ne]. exists nfo'. rewrite <- E, lookup_insert_eq.
    rewrite <- E in H2. assert (nf = nfo) as -> by congruence. split; [done|]. unfold minor_cap in *. by rewrite Hns.
  - intros sb' nf [[<- <-]|[Hne Hsb]]%lookup_insert_Some Ho; [|by destruct (fi_mount _ _ Hi sb' nf Hsb Ho); split].
    destruct (fi_mount _ _ Hi sb nfo Hs Ho) as [H1 H2 H3 H4 H5]. split; cbn [set_supers inodes dentries]; [by rewrite Hr|done|by rewrite Hn, Hc|by rewrite Hn|by rewrite Hc].
Qed.

Lemma new_super_inv sb nfo s : fs_inv None s -> supers s !! sb = None -> fs_inv (Some sb) (set_supers (<[sb := nfo]> (supers s)) s).
Proof.
  intros Hi Hs. assert (Hne : forall j x, inodes s !! j = Some x -> sb <> i_sb x).
  { intros j x Hj ->. destruct (fi_sb _ _ Hi j x Hj). congruence. }
  split; cbn [set_supers inodes minors supers devices users]; [| |apply Hi|apply Hi|apply Hi|apply Hi|].
  - intros j x Hj. rewrite lookup_insert_ne by by apply (Hne j). by apply (fi_sb _ _ Hi j).
  - intros j x m Hj Hx. rewrite lookup_insert_ne by by apply (Hne j). by apply (fi_minor _ _ Hi j).
  - intros sb' nf [[<- <-]|[_ Hsb]]%lookup_insert_Some Ho; [done|]. by destruct (fi_mount _ _ Hi sb' nf Hsb); [|split].
Qed.

(** A mount with a root and nothing else. *)
Definition rooted (sb i : nat) (ns : bool) (opts : binderfs_mount_opts) (s : fs) : fs :=
  set_supers (<[sb := Info ns None opts 0 (Some i) None]> (supers s)) (set_inodes (<[i := Inode sb KDir]> (inodes s)) s).

Lemma rooted_inv sb i ns opts s : fs_inv None s -> supers s !! sb = None -> inodes s !! i = None ->
  0 <= max_devices opts <= BINDERFS_MAX_MINOR -> fs_inv None (rooted sb i ns opts s).
Proof.
  intros Hi Hs Hni Hmax. assert (Hne : forall j x, inodes s !! j = Some x -> sb <> i_sb x).
  { intros j x Hj ->. destruct (fi_sb _ _ Hi j x Hj). congruence. }
  split; cbn [rooted set_supers set_inodes inodes minors supers devices users].
  - intros j y [[<- <-]|[_ Hj]]%lookup_insert_Some; cbn; [rewrite lookup_insert_eq; eauto|].
    rewrite lookup_insert_ne by by apply (Hne j). by apply (fi_sb _ _ Hi j).
  - intros j y m [[<- <-]|[_ Hj]]%lookup_insert_Some Hy; [done|]. rewrite lookup_insert_ne by by apply (Hne j). by apply (fi_minor _ _ Hi j).
  - intros j y m [[<- <-]|[_ Hj]]%lookup_insert_Some Hy; [done|]. by apply (fi_device _ _ Hi j).
  - intros j1 j2 y z m [[<- <-]|[_ H1]]%lookup_insert_Some [[<- <-]|[_ H2]]%lookup_insert_Some H3 H4; [done..|]. by apply (fi_distinct _ _ Hi j1 j2 y z m).
  - apply Hi.
  - intros e E He. destruct (fi_ref _ _ Hi e E He) as [H1 H2]. split; [|done]. rewrite H1. unfold holders. cbn [rooted set_inodes set_supers inodes users].
    by rewrite inode_holders_insert_plain.
  - intros sb' nfo [[<- <-]|[Hsb Hs']]%lookup_insert_Some Ho.
    + split; cbn; [eauto|done| |unfold BINDERFS_MAX_MINOR; lia|done]. rewrite node_count_insert_other; [|done|by intros (_ & Hq & _)].
      unfold node_count. rewrite count_none; [done|]. intros j x Hj (Hq & _). by apply (Hne j x Hj).
    + apply (mount_ok_frame s); [by apply Hi|..]; cbn [rooted set_inodes set_supers inodes dentries].
      * apply node_count_insert_other; [done|]. by intros (_ & Hq & _).
      * intros c y _ Hc _ _. by rewrite lookup_insert_ne by congruence.
      * done.
Qed.

(** ** Processes *)

Definition add_user (p d : nat) (D : binder_device) (s : fs) : fs :=
  set_users (<[p := d]> (users s)) (set_devices (<[d := Device (dev_minor D) (dev_name D) (dev_ref D + 1)]> (devices s)) s).
Definition drop_user (p d : nat) (D : binder_device) (s : fs) : fs :=
  set_users (delete p (users s)) (set_devices (put_devices d D (devices s)) s).

Lemma add_user_inv o p d D s : fs_inv o s -> users s !! p = None -> devices s !! d = Some D -> fs_inv o (add_user p d D s).
Proof.
  intros Hi Hp Hd. destruct (fi_ref _ _ Hi d D Hd) as [Hr Hr'].
  split; cbn [add_user set_users set_devices inodes minors supers devices users]; [apply Hi|apply Hi| |apply Hi| | |].
  - intros j x m Hj Hx. destruct (fi_device _ _ Hi j x m Hj Hx) as (e & E & H1 & H2 & H3). exists e.
    destruct (decide (d = e)) as [<-|]; [|exists E; by rewrite lookup_insert_ne]. eexists. rewrite lookup_insert_eq.
    split_and!; [done|done|]. by assert (E = D) as -> by congruence.
  - intros q e [[<- <-]|[_ Hq]]%lookup_insert_Some; [rewrite lookup_insert_eq; eauto|].
    destruct (decide (d = e)) as [<-|]; [rewrite lookup_insert_eq; eauto|]. rewrite lookup_insert_ne by done. by apply (fi_user _ _ Hi q).
  - intros e E He. unfold holders, user_holders. cbn [add_user set_users set_devices inodes users]. rewrite count_insert by done. cbn [snd].
    fold (user_holders e (users s)). apply lookup_insert_Some in He as [[<- <-]|[Hne He]].
    + rewrite decide_True by done. cbn. unfold holders in Hr. lia.
    + rewrite decide_False by done. destruct (fi_ref _ _ Hi e E He) as [H1 H2]. unfold holders in H1. lia.
  - intros sb nfo Hs Ho. by apply (mount_ok_frame s); [apply Hi|..].
Qed.

Lemma drop_user_inv o p d D s : fs_inv o s -> users s !! p = Some d -> devices s !! d = Some D -> fs_inv o (drop_user p d D s).
Proof.
  intros Hi Hp Hd.
  assert (Hh : forall e, holders e (drop_user p d D s) = holders e s - if decide (e = d) then 1 else 0).
  { intros e. unfold holders, user_holders. cbn [drop_user set_users set_devices inodes users]. rewrite (count_delete _ (users s) p d) by done. cbn [snd].
    destruct (decide (e = d)) as [->|Hne]; [rewrite (decide_True (P := d = d)) by done|rewrite decide_False by congruence]; lia. }
  split; cbn [drop_user set_users set_devices inodes minors supers devices users]; [apply Hi|apply Hi| |apply Hi| | |].
  - intros j x m Hj Hx. destruct (fi_device _ _ Hi j x m Hj Hx) as (e & E & H1 & H2 & H3).
    destruct (put_held o s d D _ Hi Hd Hh e) as (E0 & E' & H4 & H5 & H6); [by apply (holders_inode _ j x)|].
    exists e, E'. split_and!; [done|done|]. congruence.
  - intros q e Hq. destruct (put_held o s d D _ Hi Hd Hh e) as (E0 & E' & _ & H5 & _); [by apply (holders_user _ q)|]. eauto.
  - by apply (put_ref o s d D).
  - intros sb nfo Hs Ho. by apply (mount_ok_frame s); [apply Hi|..].
Qed.

(** ** The end of a mount *)

Lemma drop_node_inodes o i x s : fs_inv o s -> inodes s !! i = Some x ->
  inodes (drop_node i x s) = delete i (inodes s) /\ dentries (drop_node i x s) = dentries s /\ users (drop_node i x s) = users s /\
  (forall sb nfo, sb <> i_sb x -> supers s !! sb = Some nfo -> supers (drop_node i x s) !! sb = Some nfo) /\
  (forall sb, is_Some (supers (drop_node i x s) !! sb) -> is_Some (supers s !! sb)).
Proof.
  intros Hi Hx. unfold drop_node. destruct (inode_minor x) as [m|] eqn:Hm; [|done].
  destruct (fi_device _ _ Hi i x m Hx Hm) as (d & D & Hd & HD & HDm).
  destruct (fi_minor _ _ Hi i x m Hx Hm) as [_ (nfo & Hs & Hcap)]. rewrite Hd, Hs, HD. split_and!; [done..| |].
  - intros sb nf Hne Hsb. cbn. by rewrite lookup_insert_ne.
  - intros sb [nf Hnf]. cbn in Hnf. apply lookup_insert_Some in Hnf as [[<- _]|[_ Hnf]]; eauto.
Qed.

Lemma evict_all_run sb l s : fs_inv (Some sb) s -> NoDup l -> (forall i, i ∈ l -> exists x, inodes s !! i = Some x /\ i_sb x = sb) ->
  exists s', evict_all l s = Some (tt, s') /\ fs_inv (Some sb) s' /\ dentries s' = dentries s /\ users s' = users s /\
    (forall i, inodes s' !! i = if decide (i ∈ l) then None else inodes s !! i) /\
    (forall sb' nfo, sb' <> sb -> supers s !! sb' = Some nfo -> supers s' !! sb' = Some nfo).
Proof.
  revert s. induction l as [|i l IH]; intros s Hi Hnd Hl.
  - exists s. split_and!; try done.
  - apply NoDup_cons in Hnd as [Hn Hnd]. destruct (Hl i) as (x & Hx & Hsb); [by left|].
    destruct (drop_node_inodes _ i x s Hi Hx) as (E1 & E2 & E3 & E4 & _).
    destruct (IH (drop_node i x s)) as (s' & Hr & Hi' & Ed & Eu & Ei & Es).
    + apply drop_node_inv; [done|done|]. intros nfo _ Hq. by rewrite Hsb in Hq.
    + done.
    + intros j Hj. rewrite E1, lookup_delete_ne by congruence. apply Hl. by right.
    + exists s'. cbn [evict_all]. erewrite bind_eq by by apply (evict_run (Some sb)). split_and!; [done|done|congruence|congruence|..].
      * intros j. rewrite Ei, E1. destruct (decide (j ∈ l)) as [Hj|Hj]; [by rewrite decide_True by by right|].
        destruct (decide (j = i)) as [->|Hne]; [rewrite lookup_delete_eq, decide_True by left; done|].
        rewrite lookup_delete_ne by done. rewrite decide_False; [done|]. by rewrite elem_of_cons; intros [|].
      * intros sb' nfo Hne Hnf. apply Es; [done|]. apply E4; [congruence|done].
Qed.

Lemma elem_of_inodes_of sb s i : i ∈ inodes_of sb s <-> exists x, inodes s !! i = Some x /\ i_sb x = sb.
Proof.
  unfold inodes_of. rewrite list_elem_of_fmap. split.
  - intros ([j x] & -> & [Hx Hf]%elem_of_map_to_list%map_lookup_filter_Some). eauto.
  - intros (x & Hx & Hsb). exists (i, x). split; [done|]. apply elem_of_map_to_list, map_lookup_filter_Some. done.
Qed.

Lemma kill_run sb s : fs_inv (Some sb) s -> exists s', binderfs_kill_super sb s = Some (tt, s') /\ fs_inv None s' /\
  users s' = users s /\ (forall i x, inodes s' !! i = Some x <-> inodes s !! i = Some x /\ i_sb x <> sb).
Proof.
  intros Hi. unfold binderfs_kill_super. rewrite (bind_eq get _ s s s) by done.
  destruct (evict_all_run sb (inodes_of sb s) s) as (s1 & Hr & Hi1 & Ed & Eu & Ei & Es).
  - done.
  - apply NoDup_fst_map_to_list.
  - intros i. apply elem_of_inodes_of.
  - rewrite (bind_eq _ _ _ _ _ Hr). rewrite (bind_eq (modify _) _ s1 tt _) by reflexivity. eexists. split; [reflexivity|].
    assert (Hin : forall i x, inodes s1 !! i = Some x <-> inodes s !! i = Some x /\ i_sb x <> sb).
    { intros i x. rewrite Ei. case_decide as Hd; rewrite elem_of_inodes_of in Hd.
      - destruct Hd as (y & Hy & Hsb). split; [done|]. intros [? Hq]. congruence.
      - split; [|tauto]. intros Hx. split; [done|]. intros Hsb. by destruct Hd; eauto. }
    cbn [set_supers set_dentries inodes users]. split; [|split; [done|exact Hin]].
    split; cbn [set_supers set_dentries inodes minors supers devices users]; [| |apply Hi1|apply Hi1|apply Hi1| |].
    + intros i x Hx. pose proof (proj2 (proj1 (Hin i x) Hx)). rewrite lookup_delete_ne by congruence. by apply (fi_sb _ _ Hi1 i).
    + intros i x m Hx Hm. pose proof (proj2 (proj1 (Hin i x) Hx)). rewrite lookup_delete_ne by congruence. by apply (fi_minor _ _ Hi1 i).
    + apply Hi1.
    + intros sb' nfo [Hne Hs']%lookup_delete_Some _. apply (mount_ok_frame s1); [apply Hi1; [done|congruence]|done|done|].
      intros k c Hc Hk. cbn. apply map_lookup_filter_Some. split; [done|]. cbn. rewrite elem_of_inodes_of. intros (x & Hx & Hsb).
      destruct (mo_control _ _ _ (fi_mount _ _ Hi1 sb' nfo Hs' ltac:(congruence)) c Hc) as (_ & y & _ & Hy & Hysb & _).
      apply Hin in Hy as [Hy _]. congruence.
Qed.
