(* ===== verification/BinderFsOps.v ===== *)
(** * binderfs: what each call does

    Every call runs in a state of the invariant; the creation of a device has
    a stated outcome on every branch, and undoes everything when it fails. *)

From Stdlib Require Import ZArith Lia.
From stdpp Require Import base option gmap sets list.
From S2P Require Import Prelude BinderFs BinderFsFacts.

Section ops.
Context `{Supply}.

Lemma an_inode_new s : inodes s !! an_inode s = None.
Proof. apply not_elem_of_dom, new_object_new. Qed.

Lemma a_device_new s : devices s !! a_device s = None.
Proof. apply not_elem_of_dom, new_object_new. Qed.

Lemma minors_back (m : Z) (X : gset Z) : m ∉ X -> ({[m]} ∪ X) ∖ {[m]} = X.
Proof.
  intros Hm. apply set_eq. intros x. rewrite elem_of_difference, elem_of_union, elem_of_singleton. destruct (decide (x = m)) as [->|]; tauto.
Qed.

(** ** Device nodes *)

Definition fs_minor (nfo : binderfs_info) (s : fs) : Z := ida_alloc_max (minors s) (minor_cap nfo).

Lemma upd_info_run sb nfo f s : supers s !! sb = Some nfo -> upd_info sb f s = Some (tt, set_supers (<[sb := f nfo]> (supers s)) s).
Proof. intros Hs. unfold upd_info, info_at. cbv [bind get]. by rewrite Hs. Qed.

Lemma info_at_run sb nfo s : supers s !! sb = Some nfo -> info_at sb s = Some (nfo, s).
Proof. intros Hs. unfold info_at. cbv [bind get]. by rewrite Hs. Qed.

Lemma reserve_run sb nfo s : supers s !! sb = Some nfo -> 0 <= device_count nfo <= BINDERFS_MAX_MINOR ->
  reserve_minor sb s = Some (
    if device_count nfo + 1 <=? max_devices (mount_opts nfo)
    then if fs_minor nfo s <? 0 then (fs_minor nfo s, s)
         else (fs_minor nfo s, set_minors ({[fs_minor nfo s]} ∪ minors s) (set_supers (<[sb := set_count (device_count nfo + 1) nfo]> (supers s)) s))
    else (- ENOSPC, s)).
Proof.
  intros Hs Hc. unfold reserve_minor. set (n1 := set_count (device_count nfo + 1) nfo). set (s1 := set_supers (<[sb := n1]> (supers s)) s).
  assert (H1 : supers s1 !! sb = Some n1) by apply lookup_insert_eq.
  assert (Hback : upd_info sb (fun nfo => set_count (s32 (device_count nfo - 1)) nfo) s1 = Some (tt, s)).
  { rewrite (upd_info_run _ n1) by done. do 2 f_equal. unfold s1, set_supers. cbn.
    rewrite insert_insert_eq, s32_count by lia. replace (device_count nfo + 1 - 1) with (device_count nfo) by lia.
    assert (E : set_count (device_count nfo) n1 = nfo) by by destruct nfo.
    rewrite E, insert_id by done. by destruct s. }
  erewrite bind_eq; [|rewrite (upd_info_run _ nfo) by done; rewrite s32_count by lia; reflexivity]. fold n1 s1.
  rewrite (bind_eq (info_at sb) _ s1 n1 s1) by by apply info_at_run. rewrite (bind_eq get _ s1 s1 s1) by done.
  change (minor_cap n1) with (minor_cap nfo). change (minors s1) with (minors s). fold (fs_minor nfo s).
  change (device_count n1) with (device_count nfo + 1). change (mount_opts n1) with (mount_opts nfo). cbv zeta.
  destruct (_ <=? _); [destruct (fs_minor nfo s <? 0); [|done]|change (- ENOSPC <? 0) with true; cbv iota]; by rewrite (bind_eq _ _ _ _ _ Hback).
Qed.

(** What [binderfs_binder_device_create] answers; [None] when it makes the
    node.  [taken]: is there an entry of that name? *)
Definition creation_error (e : fs_env) (user : bool) (nfo : binderfs_info) (taken : bool) (minor : Z) : option Z :=
  if max_devices (mount_opts nfo) <? device_count nfo + 1 then Some (- ENOSPC)
  else if minor <? 0 then Some minor
  else if negb (kz_device e) || negb (new_inode e) || negb (kmemdup_name e) then Some (- ENOMEM)
  else if user && negb (copy_to_caller e) then Some (- EFAULT)
  else match lookup_error e with Some err => Some err | None => if taken then Some (- EEXIST) else None end.

Definition taken (k : nat * fname) (s : fs) : bool := match dentries s !! k with Some _ => true | None => false end.

(** The state with the new node. *)
Definition created (sb : nat) (nfo : binderfs_info) (root : nat) (nm : fname) (s : fs) : fs :=
  add_node (an_inode s) (a_device s) (fs_minor nfo s) nm (root, nm) sb (set_count (device_count nfo + 1) nfo) s.

Section create.
Context (sb : nat) (nfo : binderfs_info) (s : fs).
Context (Hs : supers s !! sb = Some nfo) (Hc : 0 <= device_count nfo < BINDERFS_MAX_MINOR).
Context (Hm : 0 <= fs_minor nfo s).

(** After the reservation, with these inodes. *)
Definition reserved (t : gmap nat inode) : fs :=
  Fs ({[fs_minor nfo s]} ∪ minors s) (<[sb := set_count (device_count nfo + 1) nfo]> (supers s)) t (dentries s) (devices s) (users s).
Definition unlinked : gmap nat inode := <[an_inode s := Inode sb (KChr (fs_minor nfo s) None)]> (inodes s).

Lemma failed_run i t err : t = inodes s /\ i = None \/ t = unlinked /\ i = Some (an_inode s) ->
  create_failed sb (fs_minor nfo s) i err (reserved t) = Some (err, s).
Proof.
  intros Hcase. unfold create_failed. erewrite bind_eq by (apply give_back_run; [apply lookup_insert_eq|done]).
  unfold reserved, set_minors, set_supers. cbn [minors supers inodes dentries devices users set_count device_count].
  rewrite minors_back by by apply ida_alloc_unused. rewrite insert_insert_eq, s32_count by lia.
  replace (device_count nfo + 1 - 1) with (device_count nfo) by lia.
  assert (E : set_count (device_count nfo) (set_count (device_count nfo + 1) nfo) = nfo) by by destruct nfo.
  rewrite E, insert_id by done. destruct Hcase as [[-> ->]|[-> ->]].
  - by destruct s.
  - unfold iput_new, modify, bind, ret, set_inodes, unlinked. cbn. rewrite delete_insert_id by apply an_inode_new. by destruct s.
Qed.
End create.

Lemma device_create_run e sb root user req nfo s : supers s !! sb = Some nfo -> s_root nfo = Some root ->
  0 <= max_devices (mount_opts nfo) <= BINDERFS_MAX_MINOR -> 0 <= device_count nfo <= BINDERFS_MAX_MINOR ->
  binderfs_binder_device_create e sb user req s = Some (
    match creation_error e user nfo (taken (root, req_name req) s) (fs_minor nfo s) with
    | Some err => (err, s)
    | None => (0, created sb nfo root (req_name req) s)
    end).
Proof.
  intros Hs Hr Hmax Hc. unfold binderfs_binder_device_create, creation_error. pose proof (reserve_run sb nfo s Hs Hc) as Hres. rewrite Z.ltb_antisym.
  destruct (_ <=? _) eqn:Hle; cbn [negb]; [|by rewrite (bind_eq _ _ _ _ _ Hres)].
  destruct (fs_minor nfo s <? 0) eqn:Hm; rewrite (bind_eq _ _ _ _ _ Hres), Hm; [done|]. zbool.
  change (set_minors _ _) with (reserved sb nfo s (inodes s)).
  rewrite (bind_eq (gets a_device) _ _ (a_device s) _) by reflexivity. rewrite (bind_eq (gets an_inode) _ _ (an_inode s) _) by reflexivity.
  assert (Hfail : forall err, create_failed sb (fs_minor nfo s) None err (reserved sb nfo s (inodes s)) = Some (err, s)) by (intros err; apply failed_run; [done|lia|done|by left]).
  assert (Hfail' : forall err, create_failed sb (fs_minor nfo s) (Some (an_inode s)) err (reserved sb nfo s (unlinked sb nfo s)) = Some (err, s))
    by (intros err; apply failed_run; [done|lia|done|by right]).
  destruct (kz_device e); [|apply Hfail]. destruct (new_inode e); [|apply Hfail]. cbn [negb orb].
  rewrite (bind_eq (put_inode _ _) _ _ tt (reserved sb nfo s (unlinked sb nfo s))) by reflexivity. cbv zeta.
  destruct (kmemdup_name e); [|apply Hfail']. cbn [negb]. destruct (user && _); [apply Hfail'|]. destruct (lookup_error e) as [err|]; [apply Hfail'|].
  assert (Hs' : supers (reserved sb nfo s (unlinked sb nfo s)) !! sb = Some (set_count (device_count nfo + 1) nfo)) by apply lookup_insert_eq.
  rewrite (bind_eq _ _ _ _ _ (info_at_run _ _ _ Hs')).
  cbn [set_count s_root]. rewrite Hr. rewrite (bind_eq (deref _) _ _ root _) by reflexivity. rewrite (bind_eq get _ _ _ _ eq_refl).
  unfold taken. cbn [reserved dentries]. destruct (dentries s !! (root, req_name req)); [apply Hfail'|].
  unfold put_inode, modify, bind, ret, created, add_node, set_inodes, set_dentries, set_devices, unlinked. cbn.
  by rewrite insert_insert_eq.
Qed.

(** ** Calls that keep a mount *)

Definition runs {A} (m : M fs A) (P : fs -> Prop) (s : fs) : Prop := exists r s', m s = Some (r, s') /\ P s'.

Lemma runs_bind {A B} (m : M fs A) (k : A -> M fs B) (P Q : fs -> Prop) s :
  runs m P s -> (forall r s', P s' -> runs (k r) Q s') -> runs (bind m k) Q s.
Proof. intros (r & s' & Hm & HP) Hk. destruct (Hk r s' HP) as (b & s'' & Hb & HQ). exists b, s''. by rewrite (bind_eq _ _ _ _ _ Hm). Qed.

Lemma runs_ret {A} (a : A) (P : fs -> Prop) s : P s -> runs (ret a) P s.
Proof. intros HP. by exists a, s. Qed.

Lemma runs_bind_eq {A B} (m : M fs A) (k : A -> M fs B) Q s a s' : m s = Some (a, s') -> runs (k a) Q s' -> runs (bind m k) Q s.
Proof. intros Hm (b & s'' & Hb & HQ). exists b, s''. by rewrite (bind_eq _ _ _ _ _ Hm). Qed.

(** Mount [sb] is there, with this root. *)
Definition mounted (sb root : nat) (s : fs) : Prop := fs_inv None s /\ exists nfo, supers s !! sb = Some nfo /\ s_root nfo = Some root.

Lemma fs_minor_ok nfo s : 0 <= fs_minor nfo s -> (fs_minor nfo s ∉ minors s) /\ 0 <= fs_minor nfo s <= minor_cap nfo.
Proof. intros Hm. destruct (ida_alloc_unused (minors s) (minor_cap nfo) Hm). done. Qed.

Lemma creation_error_None e user nfo tk minor : creation_error e user nfo tk minor = None ->
  device_count nfo + 1 <= max_devices (mount_opts nfo) /\ 0 <= minor /\ tk = false.
Proof.
  unfold creation_error. destruct (_ <? _) eqn:H1; [done|]. destruct (minor <? 0) eqn:H2; [done|].
  destruct (_ || _); [done|]. destruct (_ && _); [done|]. destruct (lookup_error e); [done|]. destruct tk; [done|]. zbool. lia.
Qed.

Lemma taken_false k s : taken k s = false -> dentries s !! k = None.
Proof. unfold taken. by destruct (dentries s !! k). Qed.

Lemma mount_count_pos s sb nfo : mount_ok s sb nfo -> 0 <= device_count nfo.
Proof. intros Hm. rewrite (mo_count _ _ _ Hm). lia. Qed.

Lemma created_mounted sb root nfo nm s : mounted sb root s -> supers s !! sb = Some nfo -> s_root nfo = Some root ->
  device_count nfo + 1 <= max_devices (mount_opts nfo) -> 0 <= fs_minor nfo s -> dentries s !! (root, nm) = None ->
  mounted sb root (created sb nfo root nm s).
Proof.
  intros [Hi _] Hs Hr Hc Hm Hk. destruct (fs_minor_ok _ _ Hm) as [Hm1 Hm2]. pose proof (mo_max _ _ _ (fi_mount _ _ Hi sb nfo Hs ltac:(done))). split.
  - apply (add_node_inv _ _ _ _ _ _ _ nfo); [done|done|apply an_inode_new|apply a_device_new|done|done|done|].
    split_and!; [done..|]. left. cbn. split_and!; [done|done|lia].
  - eexists. split; [apply lookup_insert_eq|done].
Qed.

Lemma device_create_runs e sb root user req s : mounted sb root s -> runs (binderfs_binder_device_create e sb user req) (mounted sb root) s.
Proof.
  intros Hmt. destruct (Hmt) as [Hi (nfo & Hs & Hr)]. pose proof (fi_mount _ _ Hi sb nfo Hs ltac:(done)) as Hm.
  pose proof (mount_count_pos _ _ _ Hm). pose proof (mo_bound _ _ _ Hm). pose proof (mo_max _ _ _ Hm).
  unfold runs. rewrite (device_create_run e sb root user req nfo) by done.
  destruct (creation_error _ _ _ _ _) as [err|] eqn:He; [by eexists _, _|]. eexists _, _. split; [done|].
  apply creation_error_None in He as (? & ? & ?%taken_false). by apply created_mounted.
Qed.

(** ** Mounting *)

Lemma ctl_create_runs e sb root nfo s : mounted sb root s -> supers s !! sb = Some nfo -> s_root nfo = Some root -> control_dentry nfo = None ->
  taken (root, control_name) s = false -> runs (binderfs_binder_ctl_create e sb) (mounted sb root) s.
Proof.
  intros Hmt Hs Hr Hc Hk%taken_false. destruct (Hmt) as [Hi _]. unfold binderfs_binder_ctl_create.
  eapply runs_bind_eq; [by apply info_at_run|]. eapply runs_bind_eq; [reflexivity|]. eapply runs_bind_eq; [reflexivity|].
  destruct (kz_device e); [|by apply runs_ret]. cbn [negb]. rewrite Hc. destruct (new_inode e); [|by apply runs_ret]. cbn [negb].
  eapply runs_bind_eq; [reflexivity|]. fold (fs_minor nfo s). cbv zeta. destruct (fs_minor nfo s <? 0) eqn:Hm; [by apply runs_ret|]. zbool.
  destruct (fs_minor_ok _ _ Hm) as [Hm1 Hm2]. eapply runs_bind_eq; [reflexivity|]. destruct (d_alloc_name e); cbn [negb].
  - rewrite Hr. eapply runs_bind_eq; [reflexivity|]. eapply runs_bind_eq; [reflexivity|]. eapply runs_bind_eq; [reflexivity|].
    eapply runs_bind_eq; [by apply (upd_info_run _ nfo)|]. eapply runs_bind_eq; [reflexivity|]. apply runs_ret. split.
    + apply (add_node_inv None (an_inode s) (a_device s) (fs_minor nfo s) [] (root, control_name) sb nfo (set_control (Some (an_inode s)) nfo) s);
        [done|done|apply an_inode_new|apply a_device_new|done|done|done|]. split_and!; [done..|]. by right.
    + eexists. split; [apply lookup_insert_eq|done].
  - apply runs_ret. split; [|eauto]. destruct Hi as [H1 H2 H3 H4 H5 H6 H7]. split; [done| |done..|].
    + intros i x m Hx Hm'. destruct (H2 i x m Hx Hm') as [? ?]. split; [by apply elem_of_union_r|done].
    + intros sb' nf Hnf Ho. by apply (mount_ok_frame s); [apply H7|..].
Qed.
End ops.
